(* ===== verification/_CoqProject ===== *)
-Q . S2P
Prelude.v
Floats.v
Flash.v
Storage.v
Uart.v
Can.v
Dfu.v
PubSub.v
Config.v
IrTimer.v
IrCamera.v
Mirror.v
Fan.v
Temperature.v
Drv8434s.v
Polarizer.v
PolarizerHoming.v
PolarizerRuns.v
Power.v
Reboot.v
BatteryRuby.v
BatteryAmber.v
Voltage.v
Heartbeat.v
Ping.v
OrbState.v
LiquidLens.v
RunnerQueue.v
Runner.v
RunnerFacts.v
RunnerAnswers.v
RgbLeds.v
FloatFacts.v
FrontLeds.v
FrontFacts.v
FrontWf.v
OperatorLeds.v
Gnss.v
Distance.v
FanTach.v
Version.v
Date.v
CanIsotpTx.v
Locked.v
MuxGpio.v
Sc18is606.v
AmbientLight.v
Button.v
Peripherals.v
TemperatureSensors.v
Cli.v
CliFacts.v
Logs.v
Startup.v
Sweeps.v
MirrorStart.v
CanControl.v
Protection.v
TimerUtils.v
I2cScan.v
