(* ===== verification/Prelude.v ===== *)
(** * orb-firmware: a verification library

    The firmware of the Orb's main microcontroller (C on Zephyr): commands from
    the Jetson over CAN and UART and from the debug shell, their dispatch, firmware
    update, persistent storage, power and start-up, the optics with their eye-safety
    limits, the user interface and the health monitoring.

    ** Conventions

    Bytes and machine integers are [Z], with the wrap-around of the C type
    written out ([u16], [u32], ...); a buffer is a [list Z], read and written by
    [slice] and [splice]; a float is a [spec_float].  A C function is a Gallina
    function from its arguments and the state it touches to its return code and the
    new state; [option] is for a call that does not return (a semaphore never given,
    a division fault, a hard assertion) or leaves the bounds of an object, never for
    an error code.  Threads, interrupts and callbacks that interleave are steps of a
    relation or of a list of events.  What the code calls outside [src/] (Zephyr
    drivers, CRC routines, nanopb, mcuboot, the generated protobuf constants) is a
    parameter; what is documented of it and relied on is a class of laws, with a
    concrete instance in the same file.  The two boards are [Pearl] and [Diamond].

    ** Parts

    Foundations.
    - [Prelude]: return codes and errno values (lib/include/errors.h), integers,
      buffers, alignment, loops, tactics and hint databases.
    - [Floats], [FloatFacts]: single and double precision, as the C code uses them,
      over [SpecFloat]; the faithfulness of their rounding.
    - [Flash]: the flash driver and CRC interfaces ([FlashDriver], [FlashLaws],
      [Crc], [CrcLaws]) and the small NOR flash and checksum that instantiate them.
    - [Locked]: calls under one mutex, shared by the bus drivers.

    Storage, messages and updates (lib/).
    - [Storage]: lib/storage, the queue of records in a flash partition; [fifo] is
      the abstract queue, [Repr] the representation relation.
    - [Uart]: lib/uart_messaging, the receive interrupt and its frame parser.
    - [Can], [CanIsotpTx], [CanControl]: lib/can_messaging, the two transmit queues
      with their threads over explicit buffers, ISO-TP addresses and reassembly, the
      receiving threads, the bus monitor, and the start, suspension and reset of the
      bus on both modules.
    - [Dfu], [Protection]: lib/dfu, the reception, check and activation of an image;
      the readback protection and the slots of the flash map.
    - [PubSub]: pubsub.c, a client of two interfaces, [RecordStore], whose laws
      [Storage] discharges ([storage_store_laws]), and [CanTx].
    - [Config]: system/config, the second client of [Storage].
    - [Logs]: lib/logs_can and lib/errors, logs, assertions and fatal errors.
    - [Heartbeat], [Ping], [OrbState]: lib/health_monitoring, lib/watchdog, the ping
      of the security MCU, and the registry of states with its publication.
    - [Date], [I2cScan]: lib/date; lib/i2c_scan and the order of [optics_init].

    Commands.
    - [RunnerQueue], [Runner], [RunnerFacts], [RunnerAnswers]: runner/runner.c, the
      queue of jobs, the dispatch on the state of all components, and what it
      guarantees.
    - [Cli], [CliFacts]: cli/cli.c, the debug shell, from the words of a line to the
      command the runner gets.

    Power, start and health of the board.
    - [Power], [Reboot], [Button]: power/boot and ui/button, supplies and start,
      shutdown and reboot as a step relation, the power button.
    - [Startup]: main.c and ui.c, the order of all initialisations, the self-tests,
      the wait for the Jetson, the last words.
    - [BatteryRuby], [BatteryAmber]: power/battery of the Pearl and of the Diamond.
    - [Voltage]: voltage_measurement; [Version]: system/version.
    - [Fan], [FanTach], [Temperature], [TemperatureSensors]: temperature/; fans, their
      tachometers, the over-temperature loop and the sensors it reads.
    - [TimerUtils]: system/stm32_timer_utils.

    Optics.
    - [IrTimer], [IrCamera], [Sweeps]: optics/ir_camera_system, the timer settings,
      requests, interrupts and registers, and the values of the sweeps.
    - [Mirror], [MirrorStart]: optics/mirror, angles, homing and the start of the
      homing threads.
    - [Drv8434s], [Polarizer], [PolarizerHoming], [PolarizerRuns]:
      optics/polarizer_wheel, the motor driver, the wheel, its homing and its runs.
    - [LiquidLens]: optics/liquid_lens; [Distance]: optics/1d_tof and the eye-safety
      circuit of optics.c.

    User interface and drivers.
    - [RgbLeds], [FrontLeds], [FrontFacts], [FrontWf], [OperatorLeds]: ui/rgb_leds and
      drivers/led_strip.
    - [AmbientLight], [Peripherals], [Gnss]: ui/ambient_light with its sensor driver;
      white LEDs, sound and NFC; gnss/.
    - [MuxGpio], [Sc18is606]: drivers/mux_gpio and drivers/i2c_spi_bridge.

    The components meet in [Runner] (the state of one command is the product of the
    components' states), in [PubSub] over [Storage], in [Distance] over [IrCamera], in
    [Sweeps] over [IrCamera], [LiquidLens] and [Mirror], in [Cli] over [Runner], in
    [Button] over [Fan] and [Reboot], and in [CanControl] over [Can] and [CanIsotpTx].

    ** Theorems

    Each theorem names the runs it covers: a flash that works, resets that do not
    fall into a transmission, transfers that end in time.  Where the code does not
    keep the property in the runs left out, its documentation names the theorem or example
    that shows so, which is then listed among the defects below.

    - Refinement and equivalence with a specification: [storage_refines_fifo],
      [dfu_image_written], [flush_refines], [config_is_persistent],
      [heartbeat_is_a_switch], [sequences_reach_the_strip], [focus_sweep_currents],
      [chunks_delivered_in_order], [focus_polynomial_exact], [async_tx_refines],
      [runner_homes_as_started].
    - Safety, over the interleavings of their step relations: LED pulses, duty cycle and channels
      ([timer_settings_eye_safe], [ir_pulses_bounded], [ir_leds_follow_wavelength],
      [close_object_darkens]); the mechanics ([mirror_moves_in_range],
      [sweeps_are_safe], [lens_always_safe]); all actuators under any list of commands
      or typed lines ([actuators_always_safe], [typed_lines_are_safe]); heat
      ([hot_sensor_full_speed], [overtemp_fan_rule]); the buses
      ([transfers_reach_their_channel], [bus_control_never_asserts]); updates and
      protection ([dfu_requests_safe], [protection_leaves_no_image]); the end
      ([power_down_in_order]).
    - Invariants and well-formedness: [can_tx_fifo_intact], [isotp_tx_in_order],
      [wheel_always_ok], [front_leds_well_formed], [jobs_are_whole],
      [published_was_received], [start_in_order], [homing_threads_exclusive].
    - Exact behaviour, errors included: [commands_answered],
      [block_answered_when_written], [uart_frames_delivered], [isotp_rx_complete],
      [move_reaches_target], [homing_finds_pass_through], [boots_on_full_press],
      [refused_line_does_nothing], [storage_push_outcomes], [dfu_check_sound],
      [publish_outcomes], [timer_settings_accept_exactly], [mirror_init_outcomes],
      [timers_at_assumed_frequency].
    - Round trips: [spelled_line_is_command], [sentences_delivered],
      [image_slots_roundtrip], [binary_roundtrip].
    - Termination and recovery: [storage_never_deadlocks], [storage_init_recovers],
      [config_init_keeps_last], [uart_event_terminates], [can_monitor_gives_up],
      [sweep_takes_its_frames], [homing_reports_what_it_did], [thread_turn_returns],
      [assertions_reset], [jetson_told_once].
    - Machine arithmetic: [isotp_stdid_fields], [master_period_accurate],
      [strobe_schedule_fits], [fan_pulse_accurate], [mirror_sweep_half_degrees],
      [die_temperature_on_the_line].
    - Defects of the code, as theorems and examples about the same definitions.
      Storage, buses and updates: [storage_restart_loses_record],
      [uart_oversized_frame_stalls], [can_tx_reset_aliases_buffers],
      [slow_transfer_loses_context], [init_under_transfer],
      [message_during_init_asserts], [oversized_message_with_a_hole],
      [dfu_too_large_not_acknowledged], [flush_sends_stale_bytes],
      [config_failed_set_not_repeated], [torn_push_fails_next_set],
      [dfu_activate_in_flight_faults], [protected_with_its_image],
      [permanent_protection_erases], [torn_selection], [both_enabled],
      [spi_root_needs_enable], [no_tx_bufs].  Power and health:
      [pulling_pins_forgotten], [reboot_precedence], [backup_read_overflows],
      [removed_battery_outcome], [cleared_data_published], [battery_hash_saturates], [stale_after_super_caps],
      [self_test_verdict], [late_pong_bounces_forever], [last_chunk_waits],
      [sensor_lockout], [late_edge_reads_error], [coarse_too_fast],
      [unreadable_primary_announced], [press_swallowed], [reset_after_uninit],
      [printk_line], [random_error_is_none], [hard_assert_last_words].  Commands:
      [cli_timeout_tears_jobs], [late_answer_misnumbered],
      [out_of_range_reboot_answered_twice], [fps_truncated],
      [ring_angles_accepted], [unreadable_primary_compared],
      [status_resets_settings], [last_number_dropped], [wrong_words_accepted].
      Optics: [focus_sweep_rate_zero_locks], [diamond_relative_phi_too_far],
      [mirror_phi_reads_mirrored], [mirror_sweep_half_degrees], [diamond_never_waits],
      [failed_start_says_in_progress], [live_object_recreated],
      [disable_forgets_target],
      [state_recovers_without_reading], [fetch_errors_not_counted].  User interface:
      [same_pattern_ignored], [negative_scale_accepted], [semaphore_kept],
      [brightness_resends], [equal_sequence_ignored], [checksum_sign_accepted],
      [cut_sentence_takes_the_next], [third_band_refused], [daylight_undefined], [counted_twice], [unattenuated],
      [wrong_chip_passes].

    ** Fuel

    Loops of the code that are not structural run on fuel that is shown to be enough:
    [init_loop] (Storage) on the flash size plus one, [parse_loop] (Uart) on the ring
    size plus one ([uart_event_terminates]), [crc_pages] (Dfu) on the number of pages
    plus one ([crc_pages_spec]), [pub_stored_thread] (PubSub) and [drain] (Config) on
    the stored records plus one ([flush_refines], [config_init_keeps_last]),
    [memfault_loop] on the chunks plus two and [orb_state_walk] on the states plus one
    (OrbState), [gnss_loop] (Gnss) on the length of the input, [loop_top] (Heartbeat)
    on the count of the semaphore plus one, and [newton] (the square root of
    Polarizer) on 65 turns, which end for every 64-bit number.
    Loops with a bound in the code run on that bound: [homing_loop] (Mirror) on the
    polls of the timeout, [homing_spin] on 4 and [homing_search] on 10 attempts,
    [execute_homing] on its one repetition (PolarizerHoming), [rtr_wait]
    (BatteryRuby) on 100 polls, [await_reset] (Power) on 1000, [body_loop] (Gnss) on
    what is left of a sentence, [self_test_loop] on 100 readings (FrontLeds).  Waits
    for hardware read a tape of what the hardware does; [enough_waits] is as long as
    the timeouts of the code make it ([thread_turn_returns]).

    ** Not modelled

    The texts of logs and of the registered states, the printed output of the shell and
    [strtof]; Memfault's metrics and connectivity timer, thread tables, debug
    statistics; delays and thread priorities beyond the order of steps they allow.
    The registers set up once and never changed (ir_camera_system_hw.c, the converters
    of voltage_measurement.c, the timer and DMA channel of ws2812_pwm_stm32.c): a
    model of the peripherals, not of the firmware, would be needed.  The cone LEDs, which
    do not compile against the present rgb_leds.c, and the Diamond's eye-safety
    self-test, which the source switches off.  Payload values outside the protocol's
    enumerations, other than those the handlers look at.  The bootloader, which is
    mcuboot's port to Zephyr. *)

From Stdlib Require Export ZArith Lia.
From stdpp Require Export base list gmap.
From stdpp Require Import option.

#[export] Set Default Goal Selector "!".

(** ** Notations *)

Declare Scope orb_scope.
Delimit Scope orb_scope with orb.

(** Bytes and machine integers are [Z]; buffers are [list Z]. *)
Abbreviation bytes := (list Z).

(** ** Return codes: lib/include/errors.h *)

Definition RET_SUCCESS : Z := 0.
Definition RET_ERROR_INTERNAL : Z := 1.
Definition RET_ERROR_NO_MEM : Z := 2.
Definition RET_ERROR_NOT_FOUND : Z := 3.
Definition RET_ERROR_INVALID_PARAM : Z := 4.
Definition RET_ERROR_INVALID_STATE : Z := 5.
Definition RET_ERROR_INVALID_ADDR : Z := 6.
Definition RET_ERROR_BUSY : Z := 7.
Definition RET_ERROR_OFFLINE : Z := 8.
Definition RET_ERROR_FORBIDDEN : Z := 9.
Definition RET_ERROR_TIMEOUT : Z := 10.
Definition RET_ERROR_NOT_INITIALIZED : Z := 11.
Definition RET_ERROR_ASSERT_FAILS : Z := 12.
Definition RET_ERROR_ALREADY_INITIALIZED : Z := 13.
Definition RET_ERROR_NOT_SUPPORTED : Z := 14.
Definition RET_ERROR_UNSAFE : Z := 15.

(** The errno values the sources return (newlib numbering used by Zephyr). *)
Definition EIO : Z := 5.
Definition ENXIO : Z := 6.
Definition EAGAIN : Z := 11.
Definition ENOMEM : Z := 12.
Definition EBUSY : Z := 16.
Definition EINVAL : Z := 22.
Definition ENOMSG : Z := 35.
Definition ECANCELED : Z := 140.
Definition EINPROGRESS : Z := 119.
Definition EALREADY : Z := 120.

(** Answers to commands: the [orb_mcu_Ack_ErrorCode] values the modelled
    handlers send. *)
Inductive ack :=
| ACK_SUCCESS | ACK_RANGE | ACK_FAIL | ACK_IN_PROGRESS | ACK_NOT_SUPPORTED | ACK_OVER_TEMPERATURE
| ACK_INVALID_STATE | ACK_FORBIDDEN | ACK_VERSION.

(** ** The two boards the main firmware is built for *)

Inductive board := Pearl | Diamond.

#[export] Instance board_eq_dec : EqDecision board.
Proof. solve_decision. Defined.

(** ** Machine integers *)

Open Scope Z_scope.

Definition u8 (z : Z) : Z := z mod 2 ^ 8.
Definition u16 (z : Z) : Z := z mod 2 ^ 16.
Definition u32 (z : Z) : Z := z mod 2 ^ 32.
Definition u64 (z : Z) : Z := z mod 2 ^ 64.

(** Two's complement reading of a [w]-bit pattern. *)
Definition signed (w : Z) (z : Z) : Z := (z + 2 ^ (w - 1)) mod 2 ^ w - 2 ^ (w - 1).
Definition s8 (z : Z) : Z := signed 8 z.
Definition s16 (z : Z) : Z := signed 16 z.
Definition s32 (z : Z) : Z := signed 32 z.
Definition s64 (z : Z) : Z := signed 64 z.

(** C booleans. *)
Definition zbool (b : bool) : Z := if b then 1 else 0.

Lemma u8_range z : 0 <= u8 z < 256.
Proof. unfold u8. pose proof (Z.mod_pos_bound z (2 ^ 8)). lia. Qed.

Lemma u16_range z : 0 <= u16 z < 65536.
Proof. unfold u16. pose proof (Z.mod_pos_bound z (2 ^ 16)). lia. Qed.

Lemma u32_range z : 0 <= u32 z < 4294967296.
Proof. unfold u32. pose proof (Z.mod_pos_bound z (2 ^ 32)). lia. Qed.

Lemma u8_small z : 0 <= z < 256 -> u8 z = z.
Proof. intros. apply Z.mod_small. lia. Qed.

Lemma u16_small z : 0 <= z < 65536 -> u16 z = z.
Proof. intros. apply Z.mod_small. lia. Qed.

Lemma u32_small z : 0 <= z < 4294967296 -> u32 z = z.
Proof. intros. apply Z.mod_small. lia. Qed.

Lemma u64_small z : 0 <= z < 18446744073709551616 -> u64 z = z.
Proof. intros. apply Z.mod_small. lia. Qed.

Lemma signed_range w z : 0 < w -> - 2 ^ (w - 1) <= signed w z < 2 ^ (w - 1).
Proof.
  intros. unfold signed.
  assert (2 ^ w = 2 * 2 ^ (w - 1)) as E.
  { rewrite <- Z.pow_succ_r by lia. f_equal. lia. }
  pose proof (Z.pow_pos_nonneg 2 (w - 1) ltac:(lia) ltac:(lia)).
  pose proof (Z.mod_pos_bound (z + 2 ^ (w - 1)) (2 ^ w) ltac:(lia)). lia.
Qed.

Lemma signed_small w z : 0 < w -> - 2 ^ (w - 1) <= z < 2 ^ (w - 1) -> signed w z = z.
Proof.
  intros. unfold signed.
  assert (2 ^ w = 2 * 2 ^ (w - 1)) as E.
  { rewrite <- Z.pow_succ_r by lia. f_equal. lia. }
  rewrite Z.mod_small; lia.
Qed.

Lemma s16_small z : -32768 <= z < 32768 -> s16 z = z.
Proof. intros. apply signed_small; [lia |]. change (2 ^ (16 - 1)) with 32768. lia. Qed.

Lemma s32_small z : -2147483648 <= z < 2147483648 -> s32 z = z.
Proof. intros. apply signed_small; [lia |]. change (2 ^ (32 - 1)) with 2147483648. lia. Qed.

Create HintDb orb discriminated.
Create Rewrite HintDb orb_int.
Create Rewrite HintDb zlen.
#[export] Hint Resolve u8_range u16_range u32_range : orb.
#[export] Hint Rewrite u8_small u16_small u32_small u64_small s16_small s32_small
  using lia : orb_int.

(** ** Tactics of the development *)

(** Case analysis on every boolean comparison in sight. *)
Ltac bdestruct1 :=
  match goal with
  | |- context [Z.eqb ?a ?b] => destruct (Z.eqb_spec a b)
  | |- context [Z.ltb ?a ?b] => destruct (Z.ltb_spec a b)
  | |- context [Z.leb ?a ?b] => destruct (Z.leb_spec a b)
  | H : context [Z.eqb ?a ?b] |- _ => destruct (Z.eqb_spec a b)
  | H : context [Z.ltb ?a ?b] |- _ => destruct (Z.ltb_spec a b)
  | H : context [Z.leb ?a ?b] |- _ => destruct (Z.leb_spec a b)
  end.

Ltac bdestruct_all := repeat (bdestruct1; try lia).

(** Rewrite a comparison whose outcome [lia] knows. *)
Ltac btrue e := replace e with true by (symmetry; first [apply Z.eqb_eq | apply Z.ltb_lt | apply Z.leb_le]; lia).
Ltac bfalse e := replace e with false by (symmetry; first [apply Z.eqb_neq | apply Z.ltb_ge | apply Z.leb_gt]; lia).

Ltac zify_div := Z.div_mod_to_equations; lia.

(** ** Buffers

    C pointers into a buffer are (buffer, offset) pairs; [slice] is what a
    [memcpy] from [&buf[off]] reads, [splice] what a [memcpy] to [&buf[off]]
    leaves. *)

Definition zlen {A} (l : list A) : Z := Z.of_nat (length l).

Definition slice {A} (off len : Z) (l : list A) : list A :=
  take (Z.to_nat len) (drop (Z.to_nat off) l).

Definition splice {A} (off : Z) (src l : list A) : list A :=
  take (Z.to_nat off) l ++ src ++ drop (Z.to_nat off + length src) l.

Definition fill {A} (n : Z) (x : A) : list A := replicate (Z.to_nat n) x.

(** [nthZ l i]: the byte [l[i]], 0 outside the buffer. *)
Definition nthZ (l : bytes) (i : Z) : Z := nth (Z.to_nat i) l 0.

Definition is_byte (z : Z) : Prop := 0 <= z < 256.

Lemma zlen_nonneg {A} (l : list A) : 0 <= zlen l.
Proof. unfold zlen. lia. Qed.

Lemma zlen_app {A} (l k : list A) : zlen (l ++ k) = zlen l + zlen k.
Proof. unfold zlen. rewrite length_app. lia. Qed.

Lemma zlen_cons {A} (x : A) l : zlen (x :: l) = 1 + zlen l.
Proof. unfold zlen. simpl. lia. Qed.

Lemma zlen_nil {A} : zlen (@nil A) = 0.
Proof. reflexivity. Qed.

Lemma zlen_fill {A} n (x : A) : 0 <= n -> zlen (fill n x) = n.
Proof. intros. unfold zlen, fill. rewrite length_replicate. lia. Qed.

Lemma zlen_slice {A} off len (l : list A) :
  0 <= off -> 0 <= len -> off + len <= zlen l -> zlen (slice off len l) = len.
Proof. unfold zlen, slice. intros. rewrite length_take, length_drop. lia. Qed.

Lemma zlen_splice {A} off (src l : list A) :
  0 <= off -> off + zlen src <= zlen l -> zlen (splice off src l) = zlen l.
Proof. unfold zlen, splice. intros. rewrite !length_app, length_take, length_drop. lia. Qed.

Lemma zlen_0 {A} (l : list A) : zlen l = 0 -> l = [].
Proof. unfold zlen. destruct l; simpl; [done | lia]. Qed.

Lemma slice_app_mid {A} off len (a b c : list A) :
  zlen a = off -> zlen b = len -> slice off len (a ++ b ++ c) = b.
Proof.
  unfold zlen, slice. intros <- <-. rewrite !Nat2Z.id.
  by rewrite drop_app_length, take_app_length.
Qed.

Lemma slice_app_mid' {A} off len (a b : list A) :
  zlen a = off -> zlen b = len -> slice off len (a ++ b) = b.
Proof. intros. pose proof (slice_app_mid off len a b []) as E. rewrite app_nil_r in E. auto. Qed.

Lemma splice_app_mid {A} off (s a b c : list A) :
  zlen a = off -> zlen b = zlen s -> splice off s (a ++ b ++ c) = a ++ s ++ c.
Proof.
  unfold zlen, splice. intros <- E. apply Nat2Z.inj in E. rewrite Nat2Z.id.
  rewrite take_app_length, <- E. f_equal. f_equal.
  rewrite drop_app. rewrite drop_ge by lia. simpl.
  replace (length a + length b - length a)%nat with (length b) by lia.
  by rewrite drop_app_length.
Qed.

Lemma slice_all {A} (l : list A) : slice 0 (zlen l) l = l.
Proof. unfold slice, zlen. rewrite Nat2Z.id. simpl. apply take_ge. lia. Qed.

Lemma slice_decompose {A} off len (l : list A) :
  0 <= off -> 0 <= len -> off + len <= zlen l ->
  l = take (Z.to_nat off) l ++ slice off len l ++ drop (Z.to_nat (off + len)) l.
Proof.
  intros. unfold slice. rewrite Z2Nat.inj_add by lia.
  rewrite <- drop_drop. rewrite (take_drop (Z.to_nat len)). by rewrite take_drop.
Qed.

Lemma fill_add {A} n m (x : A) : 0 <= n -> 0 <= m -> fill (n + m) x = fill n x ++ fill m x.
Proof. intros. unfold fill. rewrite Z2Nat.inj_add by lia. by rewrite replicate_add. Qed.

Lemma fill_split {A} k n (x : A) : 0 <= k <= n -> fill n x = fill k x ++ fill (n - k) x.
Proof. intros. rewrite <- fill_add by lia. f_equal. lia. Qed.

#[export] Hint Rewrite @zlen_app @zlen_cons @zlen_nil : zlen.
#[export] Hint Rewrite @zlen_fill using first [lia | apply zlen_nonneg] : zlen.

Ltac zlen := autorewrite with zlen in *; try lia.

(** Little-endian 16-bit fields of packed structs. *)
Definition le16 (z : Z) : bytes := [z mod 256; z / 256 mod 256].
Definition get16 (b : bytes) (i : Z) : Z := u8 (nthZ b i) + 256 * u8 (nthZ b (i + 1)).

Lemma le16_get z :
  0 <= z < 65536 -> u8 (z mod 256) + 256 * u8 (z / 256 mod 256) = z.
Proof.
  intros. unfold u8. change (2 ^ 8) with 256. rewrite !Z.mod_mod by lia.
  rewrite (Z.mod_small (z / 256)); zify_div.
Qed.

Lemma get16_range b i : 0 <= get16 b i < 65536.
Proof.
  unfold get16. pose proof (u8_range (nthZ b i)). pose proof (u8_range (nthZ b (i + 1))). lia.
Qed.

(** *** Alignment *)

Lemma mod_add_0 a b w : a mod w = 0 -> b mod w = 0 -> (a + b) mod w = 0.
Proof. intros Ha Hb. by rewrite Zplus_mod, Ha, Hb, Zmod_0_l. Qed.

Lemma mod_sub_0 a b w : a mod w = 0 -> b mod w = 0 -> (a - b) mod w = 0.
Proof. intros Ha Hb. by rewrite Zminus_mod, Ha, Hb, Zmod_0_l. Qed.

(** Multiples of a multiple. *)
Lemma mod_trans_0 a m w : 0 < w -> 0 < m -> m mod w = 0 -> a mod m = 0 -> a mod w = 0.
Proof.
  intros Hw Hm E1 E2. apply Z.mod_divide in E1; [| lia]. apply Z.mod_divide in E2; [| lia].
  apply Z.mod_divide; [lia |]. by transitivity m.
Qed.

(** The next multiple of [m] is at least [m] away from the previous one. *)
Lemma mod_0_lt_step a b m : 0 < m -> a mod m = 0 -> b mod m = 0 -> a < b -> a + m <= b.
Proof.
  intros Hm Ha Hb L. apply Z.mod_divide in Ha as [i ->]; [| lia].
  apply Z.mod_divide in Hb as [j ->]; [| lia]. assert (i < j) by nia. nia.
Qed.

#[export] Hint Resolve mod_add_0 mod_sub_0 : orb.

(** *** More on slices *)

Lemma slice_take_drop (r : bytes) t : 0 <= t <= zlen r ->
  slice 0 t r ++ slice t (zlen r - t) r = r.
Proof.
  intros. unfold slice, zlen in *. cbn.
  rewrite (take_ge (drop (Z.to_nat t) r)) by (rewrite length_drop; lia). apply take_drop.
Qed.

Lemma slice_split {A} i n m (l : list A) :
  0 <= i -> 0 <= n <= m -> slice i m l = slice i n l ++ slice (i + n) (m - n) l.
Proof.
  intros. unfold slice. rewrite <- (take_drop (Z.to_nat n) (take (Z.to_nat m) _)).
  rewrite take_take, skipn_firstn_comm, drop_drop. f_equal; [f_equal; lia |].
  f_equal; [lia |]. f_equal. lia.
Qed.

Lemma slice_app_inner {A} i n (a b c : list A) :
  0 <= i -> 0 <= n -> i + n <= zlen b ->
  slice (zlen a + i) n (a ++ b ++ c) = slice i n b.
Proof.
  intros. unfold slice, zlen in *. rewrite drop_app_ge by lia.
  rewrite drop_app_le by lia. rewrite take_app_le by (rewrite length_drop; lia).
  do 2 f_equal. lia.
Qed.

(** ** Functions iterated by a loop counter *)

(** [for (i = a; i < a + n; i++) s = body i s]. *)
Fixpoint for_up {St} (body : Z -> St -> St) (a : Z) (n : nat) (s : St) : St :=
  match n with
  | O => s
  | S m => for_up body (a + 1) m (body a s)
  end.

Lemma for_up_invariant {St} (body : Z -> St -> St) (I : Z -> St -> Prop) a n s :
  I a s ->
  (forall i t, a <= i < a + Z.of_nat n -> I i t -> I (i + 1) (body i t)) ->
  I (a + Z.of_nat n) (for_up body a n s).
Proof.
  revert a s. induction n as [|n IH]; intros a s H0 Hs; simpl.
  - by rewrite Z.add_0_r.
  - rewrite Nat2Z.inj_succ. replace (a + Z.succ (Z.of_nat n)) with (a + 1 + Z.of_nat n) by lia.
    apply IH.
    + apply Hs; [lia | done].
    + intros. apply Hs; [lia | done].
Qed.

Lemma for_up_ext {St} (f g : Z -> St -> St) a n s :
  (forall i t, a <= i < a + Z.of_nat n -> f i t = g i t) -> for_up f a n s = for_up g a n s.
Proof.
  revert a s. induction n as [|n IH]; intros a s H; simpl; [done |].
  rewrite H by lia. apply IH. intros. apply H. lia.
Qed.

(** ** Exhaustive checks over a finite range, by computation *)

Definition all_below (n : Z) (P : Z -> bool) : bool :=
  forallb (fun k => P (Z.of_nat k)) (seq 0 (Z.to_nat n)).

Lemma all_below_spec n P : all_below n P = true -> forall x, 0 <= x < n -> P x = true.
Proof.
  unfold all_below. rewrite forallb_forall. intros H x Hx.
  rewrite <- (Z2Nat.id x) by lia. apply H. apply in_seq. lia.
Qed.
