(* ===== verification/Floats.v ===== *)
(** IEEE 754 arithmetic as the C code uses it: doubles and single-precision
    floats with the operations of [SpecFloat], and their conversions to
    integers. *)

From Stdlib Require Import SpecFloat.
From S2P Require Import Prelude.

(** ** Doubles *)

(** The double nearest to m * 2^e. *)
Definition dbl (m e : Z) : spec_float := binary_normalize 53 1024 m e false.
Definition ddiv : spec_float -> spec_float -> spec_float := SFdiv 53 1024.
Definition dmul : spec_float -> spec_float -> spec_float := SFmul 53 1024.

(** [d < n] and the conversion [(uint16_t)d], for a finite d >= 0. *)
Definition dbl_ltb_int (d : spec_float) (n : Z) : bool :=
  match d with
  | S754_finite false m e => if 0 <=? e then Z.pos m * 2 ^ e <? n else Z.pos m <? n * 2 ^ (- e)
  | S754_zero _ => 0 <? n
  | _ => false
  end.

Definition dbl_trunc (d : spec_float) : Z :=
  match d with
  | S754_finite false m e => if 0 <=? e then Z.pos m * 2 ^ e else Z.pos m / 2 ^ (- e)
  | _ => 0
  end.

(** Single precision. *)
Definition flt (m e : Z) : spec_float := binary_normalize 24 128 m e false.
Definition fdiv : spec_float -> spec_float -> spec_float := SFdiv 24 128.
Definition fmul : spec_float -> spec_float -> spec_float := SFmul 24 128.

(** Conversion to a signed integer, rounding toward zero, and [roundl],
    rounding halves away from zero; [None] for a value that is not finite. *)
Definition sf_trunc (d : spec_float) : option Z :=
  match d with
  | S754_finite s m e =>
      let n := if 0 <=? e then Z.pos m * 2 ^ e else Z.pos m / 2 ^ (- e) in
      Some (if s then - n else n)
  | S754_zero _ => Some 0
  | _ => None
  end.

Definition sf_round (d : spec_float) : option Z :=
  match d with
  | S754_finite s m e =>
      let n := if 0 <=? e then Z.pos m * 2 ^ e
               else (Z.pos m + 2 ^ (- e - 1)) / 2 ^ (- e) in
      Some (if s then - n else n)
  | S754_zero _ => Some 0
  | _ => None
  end.

(** Conversion of a floating-point value to [int32_t]: undefined outside its
    range. *)
Definition in_s32 (z : Z) : bool := (-2147483648 <=? z) && (z <=? 2147483647).
Definition to_s32 (z : option Z) : option Z :=
  z ← z; if in_s32 z then Some z else None.

(** ** Lemmas *)

Lemma dbl_ltb_trunc m e n : 
  dbl_ltb_int (S754_finite false m e) n = (dbl_trunc (S754_finite false m e) <? n).
Proof.
  simpl. destruct (Z.leb_spec 0 e); [done |].
  pose proof (Z.pow_pos_nonneg 2 (- e) ltac:(lia) ltac:(lia)).
  apply eq_true_iff_eq. rewrite !Z.ltb_lt. split; intros.
  - apply Z.div_lt_upper_bound; lia.
  - pose proof (Z.mul_succ_div_gt (Z.pos m) (2 ^ (- e)) ltac:(lia)). nia.
Qed.
