(* ===== verification/Flash.v ===== *)
(** Flash areas and checksums, as the firmware uses them.

    The flash drivers and the CRC routines are Zephyr code, outside [src/]:
    [FlashDriver] and [Crc] are the operations the firmware calls, as
    parameters; [FlashLaws] and [CrcLaws] are what their documentation
    promises.  [nor_driver] and [sum_crc] are small concrete instances. *)

From S2P Require Import Prelude.

(** [flash_read d off buf] is [flash_area_read(fa, off, buf, zlen buf)]: the
    return code and the new content of the destination buffer. *)
Class FlashDriver (D : Type) := {
  flash_size : D -> Z;
  flash_read : D -> Z -> bytes -> Z * bytes;
  flash_write : D -> Z -> bytes -> Z * D;
  flash_erase : D -> Z -> Z -> Z * D;
}.

(** What a working flash area does.  [wbs] is the write-block size of the
    device, [flash_sector] its erase granularity. *)
Class FlashLaws (D : Type) `{FlashDriver D} (wbs : Z) := {
  flash_content : D -> bytes;
  flash_content_size : forall d, zlen (flash_content d) = flash_size d;
  flash_size_nonneg : forall d, 0 <= flash_size d;
  flash_read_ok : forall d off buf,
    0 <= off -> off + zlen buf <= flash_size d ->
    flash_read d off buf = (0, slice off (zlen buf) (flash_content d));
  flash_read_oob : forall d off buf,
    flash_size d < off + zlen buf ->
    exists r, r <> 0 /\ flash_read d off buf = (r, buf);
  flash_write_erased : forall d off src,
    0 <= off -> off + zlen src <= flash_size d ->
    off mod wbs = 0 -> zlen src mod wbs = 0 ->
    slice off (zlen src) (flash_content d) = fill (zlen src) 255 ->
    exists d', flash_write d off src = (0, d') /\
      flash_size d' = flash_size d /\
      flash_content d' = splice off src (flash_content d);
  flash_write_zero : forall d off n,
    0 <= off -> 0 <= n -> off + n <= flash_size d ->
    off mod wbs = 0 -> n mod wbs = 0 ->
    exists d', flash_write d off (fill n 0) = (0, d') /\
      flash_size d' = flash_size d /\
      flash_content d' = splice off (fill n 0) (flash_content d);
  flash_sector : Z;
  flash_sector_pos : 0 < flash_sector;
  flash_erase_sectors : forall d off len,
    0 <= off -> 0 <= len -> off + len <= flash_size d ->
    off mod flash_sector = 0 -> len mod flash_sector = 0 ->
    exists d', flash_erase d off len = (0, d') /\
      flash_size d' = flash_size d /\
      flash_content d' = splice off (fill len 255) (flash_content d);
  flash_erase_all : forall d,
    exists d', flash_erase d 0 (flash_size d) = (0, d') /\
      flash_size d' = flash_size d /\
      flash_content d' = fill (flash_size d) 255;
}.

(** CRC routines: [crc16_ccitt(seed, buf, len)] and
    [crc32_ieee_update(crc, buf, len)]. *)
Class Crc := {
  crc16_ccitt : Z -> bytes -> Z;
  crc32_ieee_update : Z -> bytes -> Z;
}.

(** The documented contract: results have the stated width, and a buffer may
    be fed in pieces. *)
Class CrcLaws `{Crc} := {
  crc16_range : forall s b, 0 <= crc16_ccitt s b < 65536;
  crc16_nil : forall s, 0 <= s < 65536 -> crc16_ccitt s [] = s;
  crc16_pieces : forall s a b, crc16_ccitt s (a ++ b) = crc16_ccitt (crc16_ccitt s a) b;
  crc32_nil : forall s, 0 <= s < 4294967296 -> crc32_ieee_update s [] = s;
  crc32_range : forall s b, 0 <= crc32_ieee_update s b < 4294967296;
  crc32_pieces : forall s a b,
    crc32_ieee_update s (a ++ b) = crc32_ieee_update (crc32_ieee_update s a) b;
}.

(** ** A concrete NOR flash *)

Record nor := Nor { nor_bytes : bytes; nor_wbs : Z }.

Definition nor_writable (old src : bytes) : bool :=
  bool_decide (old = fill (zlen old) 255) || bool_decide (src = fill (zlen src) 0).

#[export] Instance nor_driver : FlashDriver nor := {
  flash_size d := zlen (nor_bytes d);
  flash_read d off buf :=
    if (0 <=? off) && (off + zlen buf <=? zlen (nor_bytes d))
    then (0, slice off (zlen buf) (nor_bytes d)) else (- EINVAL, buf);
  flash_write d off src :=
    if (0 <=? off) && (off + zlen src <=? zlen (nor_bytes d)) &&
       (off mod nor_wbs d =? 0) && (zlen src mod nor_wbs d =? 0)
    then if nor_writable (slice off (zlen src) (nor_bytes d)) src
         then (0, Nor (splice off src (nor_bytes d)) (nor_wbs d)) else (- EIO, d)
    else (- EINVAL, d);
  flash_erase d off len :=
    if (0 <=? off) && (0 <=? len) && (off + len <=? zlen (nor_bytes d))
    then (0, Nor (splice off (fill len 255) (nor_bytes d)) (nor_wbs d)) else (- EINVAL, d);
}.

(** Devices whose write block is [w]. *)
Definition nor_w (w : Z) : Type := { d : nor | nor_wbs d = w }.

#[export] Instance nor_w_driver w : FlashDriver (nor_w w) := {
  flash_size d := flash_size (`d);
  flash_read d off buf := flash_read (`d) off buf;
  flash_write d off src :=
    let b := flash_write (`d) off src in
    (b.1, exist _ (Nor (nor_bytes b.2) w) eq_refl);
  flash_erase d off len :=
    let b := flash_erase (`d) off len in
    (b.1, exist _ (Nor (nor_bytes b.2) w) eq_refl);
}.

Lemma slice_fill off len n (x : Z) :
  0 <= off -> 0 <= len -> off + len <= n -> slice off len (fill n x) = fill len x.
Proof.
  intros. unfold slice, fill. rewrite drop_replicate, take_replicate. f_equal. lia.
Qed.

Lemma splice_all (s l : bytes) : zlen s = zlen l -> splice 0 s l = s.
Proof.
  unfold splice, zlen. intros E. simpl. rewrite drop_ge by lia. by rewrite app_nil_r.
Qed.

#[export] Instance nor_laws w : FlashLaws (nor_w w) w.
Proof.
  refine {| flash_content d := nor_bytes (`d); flash_sector := 1 |}.
  - done.
  - intros [d E]; simpl. apply zlen_nonneg.
  - intros [d E] off buf H1 H2; simpl in *.
    btrue (0 <=? off). btrue (off + zlen buf <=? zlen (nor_bytes d)). done.
  - intros [d E] off buf H1; simpl in *. exists (- EINVAL). split; [done |].
    bfalse (off + zlen buf <=? zlen (nor_bytes d)). by rewrite andb_false_r.
  - intros [d E] off src H1 H2 H3 H4 H5; simpl in *. subst w.
    btrue (0 <=? off). btrue (off + zlen src <=? zlen (nor_bytes d)).
    rewrite H3, H4, H5. simpl. unfold nor_writable.
    rewrite bool_decide_true by (by zlen).
    simpl. eexists. split; [done |]. split; [| done]. simpl. rewrite zlen_splice; lia.
  - intros [d E] off n H1 H2 H3 H4 H5; simpl in *. subst w.
    rewrite zlen_fill by lia.
    btrue (0 <=? off). btrue (off + n <=? zlen (nor_bytes d)).
    rewrite H4, H5. simpl. unfold nor_writable.
    rewrite (bool_decide_true (fill n 0 = _)) by (f_equal; by rewrite zlen_fill by lia).
    rewrite orb_true_r. simpl. eexists. split; [done |]. split; [| done]. simpl.
    rewrite zlen_splice; zlen.
  - lia.
  - intros [d E] off len H1 H2 H3 _ _; simpl in *.
    btrue (0 <=? off). btrue (0 <=? len). btrue (off + len <=? zlen (nor_bytes d)). simpl.
    eexists. split; [done |]. split; [| done]. simpl. rewrite zlen_splice; zlen.
  - intros [d E]; simpl in *. pose proof (zlen_nonneg (nor_bytes d)).
    btrue (0 <=? zlen (nor_bytes d)). rewrite Z.add_0_l.
    btrue (zlen (nor_bytes d) <=? zlen (nor_bytes d)). simpl.
    eexists. split; [done |]. rewrite splice_all by zlen. split; [simpl; zlen | done].
Defined.

(** ** A concrete checksum *)

Definition sum_step (w acc b : Z) : Z := (31 * acc + b) mod w.

#[export] Instance sum_crc : Crc := {
  crc16_ccitt s b := fold_left (sum_step 65536) b (s mod 65536);
  crc32_ieee_update s b := fold_left (sum_step 4294967296) b (s mod 4294967296);
}.

Lemma sum_fold_range w b s : 0 < w -> 0 <= s < w -> 0 <= fold_left (sum_step w) b s < w.
Proof.
  intros Hw. revert s. induction b as [|x b IH]; intros s Hs; simpl; [done |].
  apply IH. by apply Z.mod_pos_bound.
Qed.

Lemma sum_fold_pieces w a b s : 0 < w ->
  fold_left (sum_step w) (a ++ b) (s mod w) =
  fold_left (sum_step w) b (fold_left (sum_step w) a (s mod w) mod w).
Proof.
  intros. rewrite fold_left_app, (Z.mod_small (fold_left _ a _)); [done |].
  apply sum_fold_range; [done |]. by apply Z.mod_pos_bound.
Qed.

#[export] Instance sum_crc_laws : CrcLaws.
Proof.
  constructor; intros; simpl.
  - apply sum_fold_range; [lia |]. by apply Z.mod_pos_bound.
  - by apply Z.mod_small.
  - by apply sum_fold_pieces.
  - by apply Z.mod_small.
  - apply sum_fold_range; [lia |]. by apply Z.mod_pos_bound.
  - by apply sum_fold_pieces.
Qed.
