(* ===== verification/Storage.v ===== *)
(** lib/storage/storage.c: the FIFO of records kept in a flash area.

    Definitions follow storage.c function by function; [Repr] relates an
    initialised area to an abstract bounded queue ([fifo]), and the operations
    are shown to refine the queue operations.  The flash driver, the write
    block size [WBS] (FLASH_WRITE_BLOCK_SIZE: 8 on pearl, 1 on diamond) and
    the CRC are parameters. *)

From S2P Require Import Prelude Flash.

(** ** Data: lib/storage/include/storage.h *)

Definition RECORD_UNUSED : Z := 65535.  (* 0xFFFF *)
Definition RECORD_VALID : Z := 65278.   (* 0xFEFE *)
Definition RECORD_INVALID : Z := 0.

(** [(off_t)0xFFFFFFFF] on a 32-bit target. *)
Definition INVALID_INDEX : Z := -1.
Definition UNUSED_UINT16 : Z := 65535.
Definition MINIMUM_EMPTY_SPACE : Z := 512.
Definition INIT_AREA_READ_BUFFER_SIZE : Z := 64.
Definition SIZEOF_HEADER : Z := 8.

Record storage_header := Header {
  magic_state : Z;
  record_size : Z;
  crc16 : Z;
  unused : Z;
}.

(** The packed little-endian layout of [storage_header_t]. *)
Definition header_bytes (h : storage_header) : bytes :=
  le16 (magic_state h) ++ le16 (record_size h) ++ le16 (crc16 h) ++ le16 (unused h).

Definition header_of (b : bytes) : storage_header :=
  Header (get16 b 0) (get16 b 2) (get16 b 4) (get16 b 6).

Record storage_area (D : Type) := Area {
  fa : option D;   (* NULL until storage_init *)
  wr_idx : Z;
  rd_idx : Z;
}.
Arguments Area {D}.
Arguments fa {D}.
Arguments wr_idx {D}.
Arguments rd_idx {D}.

(** The area and the module's semaphore [sem_storage]. *)
Record storage_sys (D : Type) := Sys { sem_storage : Z; area : storage_area D }.
Arguments Sys {D}.
Arguments sem_storage {D}.
Arguments area {D}.

Section Operations.
Context {D : Type} `{FlashDriver D} `{Crc} (WBS : Z).

(** [k_sem_take(&sem_storage, K_FOREVER)]: [None] when it would block for
    ever. *)
Definition sem_take (s : storage_sys D) : option (storage_sys D) :=
  if 0 <? sem_storage s then Some (Sys (sem_storage s - 1) (area s)) else None.

(** [k_sem_give]; the semaphore's limit is 1. *)
Definition sem_give (s : storage_sys D) : storage_sys D :=
  Sys (Z.min 1 (sem_storage s + 1)) (area s).

(** Bytes of padding after a record of [size] bytes. *)
Definition padding_of (size : Z) : Z :=
  if size mod WBS =? 0 then 0 else WBS - size mod WBS.

(** The chunked CRC of [init_area] over the [size] bytes at [base]. *)
Fixpoint crc_chunks (fuel : nat) (d : D) (base size i crc : Z) : Z :=
  match fuel with
  | O => crc
  | S f =>
      if i <? size then
        let n := if i + INIT_AREA_READ_BUFFER_SIZE <? size
                 then INIT_AREA_READ_BUFFER_SIZE else size - i in
        let r := flash_read d (base + i) (fill n 0) in
        crc_chunks f d base size (i + INIT_AREA_READ_BUFFER_SIZE)
          (if r.1 =? 0 then crc16_ccitt crc r.2 else crc)
      else crc
  end.

Definition record_crc (d : D) (index size : Z) : Z :=
  crc_chunks (Z.to_nat (size / INIT_AREA_READ_BUFFER_SIZE + 1)) d
    (index + SIZEOF_HEADER) size 0 65535.

(** The [do ... while] of [init_area]; [None] when the fuel runs out. *)
Fixpoint init_loop (fuel : nat) (d : D) (rd wr index : Z) : option (Z * Z) :=
  match fuel with
  | O => None
  | S f =>
      let r := flash_read d index (fill SIZEOF_HEADER 0) in
      if negb (r.1 =? 0) then Some (INVALID_INDEX, INVALID_INDEX)
      else
        let h := header_of r.2 in
        let rd' :=
          if (rd =? INVALID_INDEX) && (magic_state h =? RECORD_VALID) &&
             (crc16 h =? record_crc d index (record_size h))
          then index else rd in
        if (wr =? INVALID_INDEX) && (magic_state h =? RECORD_UNUSED)
        then Some (rd', index)
        else
          let index' :=
            if magic_state h =? RECORD_VALID
            then index + SIZEOF_HEADER + record_size h + padding_of (record_size h)
            else index + WBS in
          if index' + SIZEOF_HEADER <? flash_size d
          then init_loop f d rd' wr index'
          else Some (rd', wr)
  end.

Definition init_fuel (d : D) : nat := S (Z.to_nat (flash_size d)).

(** [init_area]: the return code and the indices (rd, wr) it leaves. *)
Definition init_area (d : D) : option (Z * (Z * Z)) :=
  let r := flash_read d 0 (fill SIZEOF_HEADER 0) in
  let m := magic_state (header_of r.2) in
  if negb (r.1 =? 0) ||
     (negb (m =? RECORD_UNUSED) && negb (m =? RECORD_VALID) && negb (m =? RECORD_INVALID))
  then Some (RET_ERROR_INVALID_STATE, (0, 0))
  else
    match init_loop (init_fuel d) d INVALID_INDEX INVALID_INDEX 0 with
    | None => None
    | Some (rd, wr) =>
        if (rd =? INVALID_INDEX) && (wr =? INVALID_INDEX)
        then Some (RET_ERROR_INVALID_STATE, (0, 0))
        else
          let wr' := if negb (rd =? INVALID_INDEX) && (wr =? INVALID_INDEX)
                     then flash_size d else wr in
          let rd' := if (rd =? INVALID_INDEX) && negb (wr' =? INVALID_INDEX)
                     then wr' else rd in
          Some (RET_SUCCESS, (rd', wr'))
    end.

(** [reset_area]: erase and re-initialise, both return codes ignored. *)
Definition reset_area (d : D) : option (storage_area D) :=
  let d' := (flash_erase d 0 (flash_size d)).2 in
  match init_area d' with
  | None => None
  | Some (_, (rd, wr)) => Some (Area (Some d') wr rd)
  end.

(** *** storage_peek *)

(** The body up to [exit]: (flash_read_ret, err_code, buffer, *size). *)
Definition peek_read (d : D) (rd wr : Z) (buffer : bytes) (size : Z)
  : Z * Z * bytes * Z :=
  if rd =? wr then (0, RET_ERROR_NOT_FOUND, buffer, size)
  else
    let r := flash_read d rd (fill SIZEOF_HEADER 0) in
    let h := header_of r.2 in
    if negb (r.1 =? 0) then (r.1, RET_SUCCESS, buffer, size)
    else if size <? record_size h then (0, RET_ERROR_NO_MEM, buffer, size)
    else
      let n := Z.to_nat (record_size h) in
      let p := flash_read d (rd + SIZEOF_HEADER) (take n buffer) in
      let buffer' := p.2 ++ drop n buffer in
      if negb (p.1 =? 0) then (p.1, RET_SUCCESS, buffer', size)
      else if negb (magic_state h =? RECORD_VALID) ||
              negb (crc16 h =? crc16_ccitt 65535 (take n buffer'))
      then (0, RET_ERROR_INVALID_STATE, buffer', size)
      else (0, RET_SUCCESS, buffer', record_size h).

(** [storage_peek(area, buffer, &size)]: return code, buffer, size, state. *)
Definition storage_peek (s : storage_sys D) (buffer : bytes) (size : Z)
  : option (Z * bytes * Z * storage_sys D) :=
  s ← sem_take s;
  let a := area s in
  match fa a with
  | None => Some (RET_ERROR_NOT_INITIALIZED, buffer, size, sem_give s)
  | Some d =>
      let '(flash_read_ret, err_code, buffer', size') :=
        peek_read d (rd_idx a) (wr_idx a) buffer size in
      if negb (flash_read_ret =? 0) || (err_code =? RET_ERROR_INVALID_STATE)
      then
        a' ← reset_area d;
        Some (RET_ERROR_INVALID_STATE, buffer', size', sem_give (Sys (sem_storage s) a'))
      else Some (err_code, buffer', size', sem_give s)
  end.

(** *** storage_free *)

Definition free_area (d : D) (rd wr : Z) : option (Z * storage_area D) :=
  let h := header_of (flash_read d rd (fill SIZEOF_HEADER 0)).2 in
  if negb (magic_state h =? RECORD_VALID)
  then Some (RET_ERROR_NOT_FOUND, Area (Some d) wr rd)
  else
    let w := flash_write d rd (fill SIZEOF_HEADER 0) in
    if negb (w.1 =? 0) then Some (RET_ERROR_INTERNAL, Area (Some w.2) wr rd)
    else
      let rd' := rd + SIZEOF_HEADER + record_size h + padding_of (record_size h) in
      if wr <=? rd' then
        if u32 (flash_size w.2 - wr) <? MINIMUM_EMPTY_SPACE
        then a' ← reset_area w.2; Some (RET_SUCCESS, a')
        else Some (RET_SUCCESS, Area (Some w.2) wr rd')
      else Some (RET_SUCCESS, Area (Some w.2) wr rd').

Definition storage_free (s : storage_sys D) : option (Z * storage_sys D) :=
  s ← sem_take s;
  match fa (area s) with
  | None => Some (RET_ERROR_NOT_INITIALIZED, sem_give s)
  | Some d =>
      '(ret, a') ← free_area d (rd_idx (area s)) (wr_idx (area s));
      Some (ret, sem_give (Sys (sem_storage s) a'))
  end.

(** *** storage_push *)

(** The failure path shared by the writes of [storage_push]. *)
Definition push_fail (ret : Z) (d : D) (record : bytes)
  : option (Z * bytes * storage_area D) :=
  a ← reset_area d; Some (ret, record, a).

(** The read back of the record into [record]. *)
Definition push_readback (d : D) (wr size trunc : Z) : bytes :=
  let r := flash_read d (wr + SIZEOF_HEADER) (fill trunc 0) in
  if size mod WBS =? 0 then r.2
  else r.2 ++ (flash_read d (wr + SIZEOF_HEADER + trunc) (fill (size mod WBS) 0)).2.

(** The second critical section: (ret, record, area). *)
Definition push_write (d : D) (rd wr : Z) (record : bytes)
  : option (Z * bytes * storage_area D) :=
  let size := zlen record in
  let crc := crc16_ccitt 65535 record in
  let unaligned := negb (size mod WBS =? 0) in
  let size_in_flash := if unaligned then size + (WBS - size mod WBS) else size in
  let trunc := if unaligned then size - size mod WBS else size in
  let padding := slice trunc (size mod WBS) record ++ fill (WBS - size mod WBS) 255 in
  if flash_size d <? wr + SIZEOF_HEADER + size_in_flash
  then Some (RET_ERROR_NO_MEM, record, Area (Some d) wr rd)
  else
    let header := Header RECORD_VALID (u16 size) crc UNUSED_UINT16 in
    let w1 := flash_write d (wr + SIZEOF_HEADER) (slice 0 trunc record) in
    if negb (w1.1 =? 0) then push_fail RET_ERROR_INTERNAL w1.2 record
    else
      let w2 := if unaligned
                then flash_write w1.2 (wr + SIZEOF_HEADER + trunc) padding
                else (0, w1.2) in
      if negb (w2.1 =? 0) then push_fail RET_ERROR_INTERNAL w2.2 record
      else
        let record' := push_readback w2.2 wr size trunc in
        if negb (crc =? crc16_ccitt 65535 record')
        then push_fail RET_ERROR_INVALID_STATE w2.2 record'
        else
          let w3 := flash_write w2.2 wr (header_bytes header) in
          if negb (w3.1 =? 0) then push_fail RET_ERROR_INTERNAL w3.2 record'
          else Some (RET_SUCCESS, record',
                     Area (Some w3.2) (wr + (SIZEOF_HEADER + size_in_flash)) rd).

(** [storage_push(area, record, size)] with [size = zlen record]; a NULL
    record is [None].  The caller's buffer is re-used for the read back. *)
Definition storage_push (s : storage_sys D) (record : option bytes)
  : option (Z * bytes * storage_sys D) :=
  match record with
  | None => Some (RET_ERROR_INVALID_PARAM, [], s)
  | Some record =>
      if zlen record =? 0 then Some (RET_ERROR_INVALID_PARAM, record, s)
      else
        s ← sem_take s;
        match fa (area s) with
        | None => Some (RET_ERROR_NOT_INITIALIZED, record, sem_give s)
        | Some d =>
            if flash_size d <? zlen record
            then Some (RET_ERROR_INVALID_PARAM, record, sem_give s)
            else
              s ← sem_take (sem_give s);
              '(ret, record', a') ← push_write d (rd_idx (area s)) (wr_idx (area s)) record;
              Some (ret, record', sem_give (Sys (sem_storage s) a'))
        end
  end.

(** *** Queries and initialisation *)

Definition is_last_record (d : D) (rd wr : Z) : bool :=
  if rd =? wr then false
  else
    let r := flash_read d rd (fill SIZEOF_HEADER 0) in
    let h := header_of r.2 in
    if negb (r.1 =? 0) || negb (magic_state h =? RECORD_VALID) then false
    else wr <=? rd + SIZEOF_HEADER + record_size h + padding_of (record_size h).

Definition storage_is_last_record (s : storage_sys D) : option (bool * storage_sys D) :=
  s ← sem_take s;
  Some (match fa (area s) with
        | None => false
        | Some d => is_last_record d (rd_idx (area s)) (wr_idx (area s))
        end, sem_give s).

Definition storage_has_data (s : storage_sys D) : option (bool * storage_sys D) :=
  s ← sem_take s;
  Some (match fa (area s) with
        | None => false
        | Some _ => negb (rd_idx (area s) =? wr_idx (area s))
        end, sem_give s).

(** [flash_area_open(partition_id, &fa)] is the argument [opened]: its
    return code and the area it yields. *)
Definition storage_init (s : storage_sys D) (opened : Z * D)
  : option (Z * storage_sys D) :=
  s ← sem_take s;
  if negb (opened.1 =? 0)
  then Some (RET_ERROR_NOT_INITIALIZED, sem_give (Sys (sem_storage s) (Area None 0 0)))
  else
    let d := opened.2 in
    '(ret, (rd, wr)) ← init_area d;
    if negb (ret =? RET_SUCCESS) then
      let e := flash_erase d 0 (flash_size d) in
      Some (if negb (e.1 =? 0) then RET_ERROR_INTERNAL else e.1,
            sem_give (Sys (sem_storage s) (Area (Some e.2) wr rd)))
    else Some (ret, sem_give (Sys (sem_storage s) (Area (Some d) wr rd))).
End Operations.

(** ** The abstract queue *)

Record fifo := Fifo { queue : list bytes; room : Z; cap : Z }.

Section Abstract.
Context (WBS : Z).

(** Flash bytes a record takes: header, payload and padding. *)
Definition footprint (r : bytes) : Z := SIZEOF_HEADER + zlen r + padding_of WBS (zlen r).

Definition fifo_push (q : fifo) (r : bytes) : Z * fifo :=
  if (zlen r =? 0) || (cap q <? zlen r) then (RET_ERROR_INVALID_PARAM, q)
  else if room q <? footprint r then (RET_ERROR_NO_MEM, q)
  else (RET_SUCCESS, Fifo (queue q ++ [r]) (room q - footprint r) (cap q)).

(** Freeing the last record recycles the flash when little of it is left. *)
Definition fifo_free (q : fifo) : Z * fifo :=
  match queue q with
  | [] => (RET_ERROR_NOT_FOUND, q)
  | [_] => (RET_SUCCESS, if room q <? MINIMUM_EMPTY_SPACE then Fifo [] (cap q) (cap q)
                         else Fifo [] (room q) (cap q))
  | _ :: rest => (RET_SUCCESS, Fifo rest (room q) (cap q))
  end.

Definition fifo_peek (q : fifo) (buffer : bytes) (size : Z) : Z * bytes * Z :=
  match queue q with
  | [] => (RET_ERROR_NOT_FOUND, buffer, size)
  | r :: _ => if size <? zlen r then (RET_ERROR_NO_MEM, buffer, size)
              else (RET_SUCCESS, r ++ drop (length r) buffer, zlen r)
  end.
End Abstract.

(** ** Headers and padding *)

Lemma header_bytes_len h : zlen (header_bytes h) = SIZEOF_HEADER.
Proof. reflexivity. Qed.

Lemma header_roundtrip h :
  0 <= magic_state h < 65536 -> 0 <= record_size h < 65536 ->
  0 <= crc16 h < 65536 -> 0 <= unused h < 65536 ->
  header_of (header_bytes h) = h.
Proof.
  destruct h as [m r c u]; simpl. intros.
  unfold header_of, header_bytes, get16, nthZ; simpl.
  by rewrite !le16_get by lia.
Qed.

Lemma header_erased : header_of (fill SIZEOF_HEADER 255) = Header 65535 65535 65535 65535.
Proof. reflexivity. Qed.

Lemma header_zero : header_of (fill SIZEOF_HEADER 0) = Header 0 0 0 0.
Proof. reflexivity. Qed.

Section Padding.
Context (WBS : Z) (WBS_pos : 0 < WBS).

Lemma padding_range n : 0 <= padding_of WBS n < WBS.
Proof. unfold padding_of. pose proof (Z.mod_pos_bound n WBS WBS_pos). bdestruct_all. Qed.

Lemma padding_aligns n : (n + padding_of WBS n) mod WBS = 0.
Proof.
  unfold padding_of. destruct (Z.eqb_spec (n mod WBS) 0) as [E | E].
  - by rewrite Z.add_0_r.
  - replace (n + (WBS - n mod WBS)) with ((1 + n / WBS) * WBS).
    + apply Z.mod_mul. lia.
    + pose proof (Z.div_mod n WBS). lia.
Qed.

(** The aligned part of a record, and what is left of it. *)
Lemma trunc_aligned n : (n - n mod WBS) mod WBS = 0.
Proof.
  replace (n - n mod WBS) with (n / WBS * WBS) by (pose proof (Z.div_mod n WBS); lia).
  apply Z.mod_mul. lia.
Qed.
End Padding.

(** Writing into the erased tail of an area. *)
Lemma splice_tail (A s : bytes) k n (x : Z) :
  0 <= k -> k + zlen s <= n ->
  splice (zlen A + k) s (A ++ fill n x) =
  A ++ fill k x ++ s ++ fill (n - k - zlen s) x.
Proof.
  intros. pose proof (zlen_nonneg s).
  rewrite (fill_split k n) by lia. rewrite (fill_split (zlen s) (n - k)) by lia.
  rewrite !(app_assoc A). rewrite splice_app_mid by zlen. by rewrite <- !app_assoc.
Qed.

Lemma slice_tail (A : bytes) k m n (x : Z) :
  0 <= k -> 0 <= m -> k + m <= n -> slice (zlen A + k) m (A ++ fill n x) = fill m x.
Proof.
  intros. rewrite (fill_split k n) by lia. rewrite (fill_split m (n - k)) by lia.
  rewrite !(app_assoc A). apply slice_app_mid; zlen.
Qed.

(** ** Refinement *)

Section Refinement.
Context {D : Type} {WBS : Z} `{FlashLaws D WBS} `{CrcLaws}.
Context (WBS_pos : 0 < WBS) (WBS_header : SIZEOF_HEADER mod WBS = 0).

(** A record as it lies in flash. *)
Definition record_header (r : bytes) : storage_header :=
  Header RECORD_VALID (zlen r) (crc16_ccitt 65535 r) UNUSED_UINT16.
Definition encode (r : bytes) : bytes :=
  header_bytes (record_header r) ++ r ++ fill (padding_of WBS (zlen r)) 255.
Definition encode_all (q : list bytes) : bytes := concat (encode <$> q).

#[local] Arguments push_write : simpl never.
#[local] Arguments free_area : simpl never.
#[local] Arguments peek_read : simpl never.
#[local] Arguments is_last_record : simpl never.
#[local] Arguments encode_all : simpl never.
#[local] Arguments encode : simpl never.
#[local] Arguments footprint : simpl never.
#[local] Arguments header_bytes : simpl never.
#[local] Arguments header_of : simpl never.
#[local] Arguments zlen : simpl never.
#[local] Arguments fill : simpl never.

Definition storable (r : bytes) : Prop := 0 < zlen r < 65536.

Record layout (d : D) (pre : bytes) (q : fifo) (rd wr : Z) : Prop := Layout {
  lay_content : flash_content d = pre ++ encode_all (queue q) ++ fill (room q) 255;
  lay_rd : zlen pre = rd;
  lay_wr : wr = rd + zlen (encode_all (queue q));
  lay_rd_aligned : rd mod WBS = 0;
  lay_wr_aligned : wr mod WBS = 0;
  lay_room : 0 <= room q;
  lay_cap : flash_size d = cap q;
  lay_cap_bound : cap q < 65536;
  lay_storable : Forall storable (queue q);
}.

(** The representation relation between the module's state and the queue. *)
Definition Repr (s : storage_sys D) (q : fifo) : Prop :=
  sem_storage s = 1 /\
  exists d pre, fa (area s) = Some d /\ layout d pre q (rd_idx (area s)) (wr_idx (area s)).

Lemma record_header_parse r b :
  storable r -> header_of (take 8 (header_bytes (record_header r) ++ b)) = record_header r.
Proof.
  intros [Hr1 Hr2]. rewrite take_app_le by done.
  change (take 8 (header_bytes (record_header r))) with (header_bytes (record_header r)).
  apply header_roundtrip; unfold record_header, RECORD_VALID, UNUSED_UINT16; simpl;
    try lia. apply crc16_range.
Qed.

Lemma encode_len r : zlen (encode r) = footprint WBS r.
Proof.
  pose proof (padding_range WBS WBS_pos (zlen r)). unfold encode, footprint.
  rewrite !zlen_app, header_bytes_len, zlen_fill by lia. lia.
Qed.

Lemma footprint_pos r : 8 <= footprint WBS r.
Proof.
  pose proof (padding_range WBS WBS_pos (zlen r)). pose proof (zlen_nonneg r).
  unfold footprint, SIZEOF_HEADER. lia.
Qed.

Lemma footprint_aligned r : footprint WBS r mod WBS = 0.
Proof.
  unfold footprint. rewrite <- Z.add_assoc. apply mod_add_0; [done |].
  by apply padding_aligns.
Qed.

Lemma encode_all_app q r : encode_all (q ++ [r]) = encode_all q ++ encode r.
Proof. unfold encode_all. rewrite fmap_app, concat_app. simpl. by rewrite app_nil_r. Qed.

Lemma layout_room d pre q rd wr : layout d pre q rd wr -> cap q = wr + room q.
Proof.
  intros L. destruct L. rewrite <- lay_cap0, <- flash_content_size, lay_content0.
  rewrite !zlen_app, zlen_fill by lia. lia.
Qed.

Lemma layout_bounds d pre q rd wr : layout d pre q rd wr -> 0 <= rd <= wr.
Proof.
  intros L. destruct L. pose proof (zlen_nonneg pre).
  pose proof (zlen_nonneg (encode_all (queue q))). lia.
Qed.

(** Reading inside the area. *)
Lemma read_at d a b c buf off :
  flash_content d = a ++ b ++ c -> zlen a = off -> zlen b = zlen buf ->
  flash_read d off buf = (0, b).
Proof.
  intros E E1 E2. pose proof (zlen_nonneg a). pose proof (zlen_nonneg c).
  rewrite flash_read_ok.
  - f_equal. rewrite E. by apply slice_app_mid.
  - lia.
  - rewrite <- flash_content_size, E. zlen.
Qed.

(** The header at the read index of a non-empty queue. *)
Lemma read_head_header d pre r rest q rd wr :
  layout d pre q rd wr -> queue q = r :: rest ->
  flash_read d rd (fill SIZEOF_HEADER 0) = (0, header_bytes (record_header r)) /\
  header_of (header_bytes (record_header r)) = record_header r.
Proof.
  intros L Q. destruct L. rewrite Q in lay_content0, lay_storable0.
  apply Forall_cons in lay_storable0 as [S _]. split.
  - eapply read_at; [| done | done].
    rewrite lay_content0. unfold encode_all. simpl. unfold encode.
    by rewrite <- !app_assoc.
  - pose proof (record_header_parse r [] S) as E. by rewrite app_nil_r in E.
Qed.

Lemma read_head_payload d pre r rest q rd wr buf :
  layout d pre q rd wr -> queue q = r :: rest -> zlen buf = zlen r ->
  flash_read d (rd + SIZEOF_HEADER) buf = (0, r).
Proof.
  intros L Q E. destruct L. rewrite Q in lay_content0.
  eapply (read_at d (pre ++ header_bytes (record_header r)) r); [| | done].
  - rewrite lay_content0. unfold encode_all. simpl. unfold encode.
    by rewrite <- !app_assoc.
  - rewrite zlen_app, header_bytes_len. lia.
Qed.

(** *** Re-initialising an erased area *)

Lemma init_area_erased d :
  flash_content d = fill (flash_size d) 255 ->
  exists ret, init_area WBS d = Some (ret, (0, 0)).
Proof.
  intros E. pose proof (flash_size_nonneg d). unfold init_area.
  destruct (Z.le_gt_cases 8 (flash_size d)) as [L | L].
  - assert (flash_read d 0 (fill SIZEOF_HEADER 0) = (0, fill SIZEOF_HEADER 255)) as R.
    { eapply (read_at d [] _ (fill (flash_size d - 8) 255)); [| done | done].
      by rewrite E, (fill_split 8 (flash_size d)) by lia. }
    rewrite R. simpl. unfold init_fuel. simpl. rewrite R. simpl. by eexists.
  - destruct (flash_read_oob d 0 (fill SIZEOF_HEADER 0)) as (r & Hr & R);
      [change (zlen (fill SIZEOF_HEADER 0)) with 8; lia |].
    rewrite R. simpl. bfalse (r =? 0). simpl. by eexists.
Qed.

Lemma reset_area_empty d :
  flash_size d < 65536 ->
  exists d', reset_area WBS d = Some (Area (Some d') 0 0) /\
    flash_size d' = flash_size d /\
    layout d' [] (Fifo [] (flash_size d) (flash_size d)) 0 0.
Proof.
  intros Hb. destruct (flash_erase_all d) as (d' & E & S & C).
  unfold reset_area. rewrite E. simpl.
  destruct (init_area_erased d') as [ret I]; [by rewrite C, S |].
  rewrite I. exists d'. split; [done |]. split; [done |].
  pose proof (flash_size_nonneg d). split; simpl; try done.
Qed.

(** *** Peek *)

Lemma peek_read_refines d pre q rd wr buffer size :
  layout d pre q rd wr -> size <= zlen buffer ->
  let '(e, b, n) := fifo_peek q buffer size in
  peek_read d rd wr buffer size = (0, e, b, n) /\ e <> RET_ERROR_INVALID_STATE.
Proof.
  intros L Hs. pose proof L as L'. unfold fifo_peek, peek_read.
  destruct (queue q) as [|r rest] eqn:Q.
  - destruct L'. rewrite Q in lay_wr0.
    change (encode_all []) with (@nil Z) in lay_wr0. rewrite zlen_nil in lay_wr0.
    btrue (rd =? wr). done.
  - destruct (read_head_header d pre r rest q rd wr L Q) as [R P]. rewrite R.
    cbn [fst snd]. rewrite P. cbn [record_size record_header magic_state crc16].
    destruct L'. rewrite Q in lay_wr0, lay_storable0.
    apply Forall_cons in lay_storable0 as [[Hr1 Hr2] _].
    pose proof (footprint_pos r). change (encode_all (r :: rest)) with (encode r ++ encode_all rest) in lay_wr0.
    rewrite zlen_app, encode_len in lay_wr0. pose proof (zlen_nonneg (encode_all rest)).
    bfalse (rd =? wr). cbn.
    destruct (Z.ltb_spec size (zlen r)); [done |].
    rewrite (read_head_payload d pre r rest q rd wr _ L Q).
    + cbn. rewrite take_app_le by (unfold zlen in *; lia).
      replace (Z.to_nat (zlen r)) with (length r) by (unfold zlen; lia).
      rewrite take_ge by done. rewrite Z.eqb_refl. done.
    + unfold zlen in *. rewrite length_take. lia.
Qed.

Lemma storage_peek_refines s q buffer size :
  Repr s q -> size <= zlen buffer ->
  let '(e, b, n) := fifo_peek q buffer size in
  storage_peek WBS s buffer size = Some (e, b, n, s).
Proof.
  intros [S (d & pre & F & L)] Hs.
  pose proof (peek_read_refines d pre q _ _ buffer size L Hs) as P.
  destruct (fifo_peek q buffer size) as [[e b] n]. destruct P as [P Hne].
  unfold storage_peek, sem_take. rewrite S. cbn. rewrite F, P. cbn.
  bfalse (e =? RET_ERROR_INVALID_STATE).
  destruct s; cbn in *; subst; done.
Qed.

(** *** Push *)

Lemma push_layout d d' pre q rd wr r :
  layout d pre q rd wr -> storable r -> footprint WBS r <= room q ->
  flash_size d' = flash_size d ->
  flash_content d' =
    pre ++ encode_all (queue q) ++ encode r ++ fill (room q - footprint WBS r) 255 ->
  layout d' pre (Fifo (queue q ++ [r]) (room q - footprint WBS r) (cap q))
    rd (wr + footprint WBS r).
Proof.
  intros L Hr Hroom Hsz Hc. destruct L. split; cbn; try done; try lia.
  - rewrite Hc, encode_all_app. by rewrite <- !app_assoc.
  - rewrite encode_all_app, zlen_app, encode_len. lia.
  - apply mod_add_0; [done |]. apply footprint_aligned.
  - apply Forall_app. split; [done |]. by constructor.
Qed.

(** The two payload writes of [storage_push] and their read back, on an area
    whose content is [A] followed by at least [n] erased bytes. *)
Lemma write_tail d A k n src :
  flash_content d = A ++ fill n 255 -> 0 <= k -> k + zlen src <= n ->
  (zlen A + k) mod WBS = 0 -> zlen src mod WBS = 0 ->
  exists d', flash_write d (zlen A + k) src = (0, d') /\
    flash_size d' = flash_size d /\
    flash_content d' = A ++ fill k 255 ++ src ++ fill (n - k - zlen src) 255.
Proof.
  intros E Hk Hn Ha Hs. pose proof (zlen_nonneg A). pose proof (zlen_nonneg src).
  assert (flash_size d = zlen A + n) as Hsz
    by (rewrite <- flash_content_size, E; zlen).
  destruct (flash_write_erased d (zlen A + k) src) as (d' & W & S & C);
    [lia | lia | done | done | |].
  - rewrite E. by apply slice_tail.
  - exists d'. rewrite C, E, splice_tail by lia. done.
Qed.

(** The buffers the two writes take, as [push_write] computes them. *)
Let sm (r : bytes) : Z := zlen r mod WBS.
Let trunc (r : bytes) : Z := if negb (sm r =? 0) then zlen r - sm r else zlen r.
Let padbuf (r : bytes) : bytes := slice (trunc r) (sm r) r ++ fill (WBS - sm r) 255.

Lemma trunc_eq r : trunc r = zlen r - sm r.
Proof. unfold trunc, sm. bdestruct_all; simpl; lia. Qed.

Lemma trunc_facts r :
  0 <= trunc r <= zlen r /\ trunc r mod WBS = 0 /\ 0 <= sm r < WBS /\
  zlen (slice 0 (trunc r) r) = trunc r.
Proof.
  rewrite trunc_eq. unfold sm. pose proof (zlen_nonneg r).
  pose proof (Z.mod_pos_bound (zlen r) WBS WBS_pos).
  pose proof (Z.mod_le (zlen r) WBS).
  split_and!; try lia.
  - by apply trunc_aligned.
  - apply zlen_slice; lia.
Qed.

Lemma padbuf_facts r : sm r <> 0 ->
  zlen (padbuf r) = WBS /\ slice 0 (trunc r) r ++ padbuf r = r ++ fill (padding_of WBS (zlen r)) 255.
Proof.
  intros Hm. pose proof (trunc_facts r) as (T1 & T2 & T3 & T4). pose proof (trunc_eq r) as T.
  unfold padbuf. split.
  - rewrite zlen_app, zlen_slice, zlen_fill by lia. lia.
  - rewrite app_assoc. replace (sm r) with (zlen r - trunc r) at 1 by lia.
    rewrite slice_take_drop by lia. f_equal. unfold padding_of. fold (sm r).
    by bfalse (sm r =? 0).
Qed.

(** After both payload writes the record lies behind eight erased bytes. *)
Lemma payload_written d A n r :
  flash_content d = A ++ fill n 255 -> zlen A mod WBS = 0 -> footprint WBS r <= n ->
  exists d1 d2,
    flash_write d (zlen A + SIZEOF_HEADER) (slice 0 (trunc r) r) = (0, d1) /\
    (if negb (sm r =? 0)
     then flash_write d1 (zlen A + SIZEOF_HEADER + trunc r) (padbuf r) = (0, d2)
     else d2 = d1) /\
    flash_size d2 = flash_size d /\
    flash_content d2 = A ++ fill SIZEOF_HEADER 255 ++ r ++
      fill (padding_of WBS (zlen r)) 255 ++ fill (n - footprint WBS r) 255.
Proof.
  intros E HA Hn. pose proof (trunc_facts r) as (T1 & T2 & T3 & T4).
  pose proof (padding_range WBS WBS_pos (zlen r)) as P. unfold footprint in Hn.
  destruct (write_tail d A SIZEOF_HEADER n (slice 0 (trunc r) r) E) as (d1 & W1 & S1 & C1);
    [done | lia | by apply mod_add_0 | by rewrite T4 |].
  exists d1. rewrite T4 in C1. destruct (Z.eqb_spec (sm r) 0) as [Hm | Hm]; cbn [negb].
  - exists d1. split_and!; [done | done | done |].
    assert (trunc r = zlen r) as Tz by (rewrite trunc_eq; lia).
    assert (padding_of WBS (zlen r) = 0) as Pz
      by (unfold padding_of; fold (sm r); by btrue (sm r =? 0)).
    rewrite C1, Tz, slice_all. unfold footprint. rewrite Pz.
    change (fill 0 255) with (@nil Z). cbn [app]. do 4 f_equal. lia.
  - destruct (padbuf_facts r Hm) as [Lp Ep].
    destruct (write_tail d1 (A ++ fill SIZEOF_HEADER 255 ++ slice 0 (trunc r) r) 0
                (n - SIZEOF_HEADER - trunc r) (padbuf r)) as (d2 & W2 & S2 & C2).
    + by rewrite C1, <- !app_assoc.
    + lia.
    + rewrite Lp. unfold padding_of in Hn. fold (sm r) in Hn.
      rewrite trunc_eq. destruct (Z.eqb_spec (sm r) 0); lia.
    + rewrite Z.add_0_r, !zlen_app, T4, zlen_fill by done.
      repeat apply mod_add_0; done.
    + by rewrite Lp, Z_mod_same_full.
    + exists d2. split_and!; [done | | lia |].
      * rewrite <- W2. f_equal. rewrite !zlen_app, T4, zlen_fill by done. lia.
      * rewrite C2, <- !app_assoc. do 2 f_equal. cbn [app].
        change (fill 0 255) with (@nil Z). cbn [app].
        rewrite (app_assoc (slice 0 (trunc r) r)), Ep, <- app_assoc. do 2 f_equal.
        unfold footprint. rewrite Lp, trunc_eq. unfold padding_of. fold (sm r).
        bfalse (sm r =? 0). cbn. f_equal. lia.
Qed.

Lemma readback d A r tl :
  flash_content d = A ++ fill SIZEOF_HEADER 255 ++ r ++ tl ->
  push_readback WBS d (zlen A) (zlen r) (trunc r) = r.
Proof.
  intros E. pose proof (trunc_facts r) as (T1 & T2 & T3 & T4).
  assert (zlen (A ++ fill SIZEOF_HEADER 255) = zlen A + SIZEOF_HEADER) as LA
    by (rewrite zlen_app, zlen_fill by done; done).
  pose proof (slice_take_drop r (trunc r) ltac:(lia)) as Er.
  assert (zlen r - trunc r = sm r) as Es by (rewrite trunc_eq; lia). rewrite Es in Er.
  unfold push_readback. fold (sm r).
  rewrite (read_at d (A ++ fill SIZEOF_HEADER 255) (slice 0 (trunc r) r)
             (slice (trunc r) (sm r) r ++ tl)); cbn [snd].
  - destruct (Z.eqb_spec (sm r) 0) as [Hm | Hm].
    + rewrite Hm in Er. change (slice (trunc r) 0 r) with (@nil Z) in Er.
      by rewrite app_nil_r in Er.
    + rewrite (read_at d ((A ++ fill SIZEOF_HEADER 255) ++ slice 0 (trunc r) r)
                 (slice (trunc r) (sm r) r) tl); [done | | |].
      * rewrite E. rewrite <- Er at 1. by rewrite <- !app_assoc.
      * rewrite zlen_app, LA, T4. lia.
      * rewrite zlen_slice, zlen_fill by lia. lia.
  - rewrite E. rewrite <- Er at 1. by rewrite <- !app_assoc.
  - done.
  - rewrite T4, zlen_fill by lia. lia.
Qed.

Lemma push_write_refines d pre q rd wr r :
  layout d pre q rd wr -> 0 < zlen r <= cap q ->
  let '(ret, q') := fifo_push WBS q r in
  exists a', push_write WBS d rd wr r = Some (ret, r, a') /\ rd_idx a' = rd /\
    exists d', fa a' = Some d' /\ layout d' pre q' rd (wr_idx a').
Proof.
  intros L Hr. pose proof (layout_room _ _ _ _ _ L) as Hcap. pose proof L as L'. destruct L'.
  pose proof (padding_range WBS WBS_pos (zlen r)) as P.
  unfold fifo_push. bfalse (zlen r =? 0). bfalse (cap q <? zlen r). cbn [orb].
  unfold push_write. fold (sm r). fold (trunc r). fold (padbuf r).
  replace (if negb (sm r =? 0) then zlen r + (WBS - sm r) else zlen r)
    with (zlen r + padding_of WBS (zlen r))
    by (unfold padding_of; fold (sm r); destruct (sm r =? 0); cbn; lia).
  replace (flash_size d) with (wr + room q) by lia.
  destruct (Z.ltb_spec (room q) (footprint WBS r)) as [Hf | Hf];
    pose proof Hf as Hf'; unfold footprint in Hf'.
  - btrue (wr + room q <? wr + SIZEOF_HEADER + (zlen r + padding_of WBS (zlen r))).
    eexists. split; [done |]. split; [done |]. by eexists.
  - bfalse (wr + room q <? wr + SIZEOF_HEADER + (zlen r + padding_of WBS (zlen r))).
    set (A := pre ++ encode_all (queue q)).
    assert (zlen A = wr) as LA by (unfold A; rewrite zlen_app; lia).
    destruct (payload_written d A (room q) r) as (d1 & d2 & W1 & W2 & S2 & C2);
      [unfold A; by rewrite <- app_assoc | by rewrite LA | done |].
    rewrite LA in W1, W2. rewrite W1. cbn [fst snd].
    assert ((if negb (sm r =? 0)
             then flash_write d1 (wr + SIZEOF_HEADER + trunc r) (padbuf r)
             else (0, d1)) = (0, d2)) as ->
      by (destruct (negb (sm r =? 0)); [done | by rewrite W2]).
    cbn [fst snd negb Z.eqb]. pose proof (readback d2 A r _ C2) as RB.
    rewrite LA in RB. rewrite RB, Z.eqb_refl.
    cbn [negb]. rewrite u16_small by lia. fold (record_header r).
    destruct (flash_write_erased d2 wr (header_bytes (record_header r))) as (d3 & W3 & S3 & C3).
    + pose proof (layout_bounds _ _ _ _ _ L). lia.
    + rewrite header_bytes_len. lia.
    + done.
    + done.
    + rewrite header_bytes_len. rewrite C2. by apply slice_app_mid.
    + rewrite W3. cbn. eexists. split; [done |]. cbn. split; [done |].
      exists d3. split; [done |].
      replace (wr + (SIZEOF_HEADER + (zlen r + padding_of WBS (zlen r))))
        with (wr + footprint WBS r) by (unfold footprint; lia).
      apply (push_layout d); [done | unfold storable; lia | done | lia |].
      rewrite C3, C2. rewrite splice_app_mid by done.
      unfold A, encode. by rewrite <- !app_assoc.
Qed.
Lemma storage_push_refines s q r :
  Repr s q ->
  let '(ret, q') := fifo_push WBS q r in
  exists s', storage_push WBS s (Some r) = Some (ret, r, s') /\ Repr s' q'.
Proof.
  intros [S (d & pre & F & L)]. pose proof (zlen_nonneg r).
  destruct s as [sem a]; cbn in S, F, L; subst sem.
  unfold storage_push. destruct (Z.eqb_spec (zlen r) 0) as [E0 | E0].
  - unfold fifo_push. rewrite E0. cbn [orb Z.eqb]. eexists; split; [done |].
    split; [done | eauto].
  - cbn. rewrite F. pose proof (lay_cap _ _ _ _ _ L) as C. rewrite C.
    destruct (Z.ltb_spec (cap q) (zlen r)) as [Hc | Hc].
    + unfold fifo_push. bfalse (zlen r =? 0). btrue (cap q <? zlen r). cbn.
      eexists; split; [done |]. split; [done | cbn; eauto].
    + pose proof (push_write_refines d pre q _ _ r L ltac:(lia)) as PW.
      destruct (fifo_push WBS q r) as [ret q']. destruct PW as (a' & PW & Hrd & d' & F' & L').
      change (sem_take (sem_give (Sys (1 - 1) a))) with (Some (Sys 0 a)).
      cbn. rewrite PW. cbn. eexists; split; [done |].
      split; [done |]. cbn. rewrite Hrd. eauto.
Qed.

(** *** Free *)

(** What a freed record leaves in flash, and the stale bytes after a call of
    [storage_free]. *)
Definition stale (r : bytes) : bytes :=
  fill SIZEOF_HEADER 0 ++ r ++ fill (padding_of WBS (zlen r)) 255.

Definition free_pre (pre : bytes) (q : fifo) : bytes :=
  match queue q with
  | [] => pre
  | [r] => if room q <? MINIMUM_EMPTY_SPACE then [] else pre ++ stale r
  | r :: _ => pre ++ stale r
  end.

Lemma free_layout d d' pre q r rest rd wr :
  layout d pre q rd wr -> queue q = r :: rest ->
  flash_size d' = flash_size d ->
  flash_content d' = splice rd (fill SIZEOF_HEADER 0) (flash_content d) ->
  layout d' (pre ++ stale r) (Fifo rest (room q) (cap q)) (rd + footprint WBS r) wr.
Proof.
  intros L Q Hsz Hc. destruct L. rewrite Q in *.
  apply Forall_cons in lay_storable0 as [_ Hrest].
  change (encode_all (r :: rest)) with (encode r ++ encode_all rest) in *.
  pose proof (padding_range WBS WBS_pos (zlen r)). unfold stale.
  split; cbn; try done; try lia.
  - rewrite Hc, lay_content0. unfold encode. rewrite <- !app_assoc.
    by apply splice_app_mid.
  - rewrite !zlen_app, !zlen_fill by (done || lia). unfold footprint. lia.
  - rewrite lay_wr0, zlen_app, encode_len. lia.
  - apply mod_add_0; [done | apply footprint_aligned].
Qed.

Lemma free_area_refines d pre q rd wr :
  layout d pre q rd wr ->
  let '(ret, q') := fifo_free q in
  exists a', free_area WBS d rd wr = Some (ret, a') /\
    exists d', fa a' = Some d' /\ layout d' (free_pre pre q) q' (rd_idx a') (wr_idx a').
Proof.
  intros L. pose proof (layout_room _ _ _ _ _ L) as Hcap. pose proof L as L'.
  pose proof (layout_bounds _ _ _ _ _ L) as Hb. unfold fifo_free, free_pre, free_area.
  destruct (queue q) as [|r rest] eqn:Q.
  - (* nothing but erased flash, or the end of the area, at the read index *)
    assert (magic_state (header_of (flash_read d rd (fill SIZEOF_HEADER 0)).2)
              <> RECORD_VALID) as Hm.
    { destruct L'. rewrite Q in lay_content0, lay_wr0.
      change (encode_all []) with (@nil Z) in *. rewrite zlen_nil in lay_wr0.
      destruct (Z.le_gt_cases 8 (room q)).
      - rewrite (fill_split 8 (room q)) in lay_content0 by lia.
        cbn [app] in lay_content0. erewrite read_at; [| exact lay_content0 | done | done]. done.
      - destruct (flash_read_oob d rd (fill SIZEOF_HEADER 0)) as (x & _ & R).
        + change (zlen (fill SIZEOF_HEADER 0)) with 8. lia.
        + by rewrite R. }
    bfalse (magic_state (header_of (flash_read d rd (fill SIZEOF_HEADER 0)).2) =? RECORD_VALID).
    cbn. eexists; split; [done |]. eauto.
  - destruct (read_head_header d pre r rest q rd wr L Q) as [R P]. rewrite R.
    cbn [fst snd]. rewrite P. cbn [magic_state record_size record_header].
    rewrite Z.eqb_refl. cbn [negb].
    pose proof (footprint_pos r) as Hfp.
    assert (wr = rd + footprint WBS r + zlen (encode_all rest)) as Hwr.
    { destruct L'. rewrite lay_wr0, Q.
      change (encode_all (r :: rest)) with (encode r ++ encode_all rest).
      rewrite zlen_app, encode_len. lia. }
    pose proof (zlen_nonneg (encode_all rest)).
    destruct (flash_write_zero d rd SIZEOF_HEADER) as (d1 & W & S1 & C1);
      [lia | done | destruct L'; unfold SIZEOF_HEADER; lia | by destruct L' | done |].
    rewrite W. cbn [fst snd negb Z.eqb].
    pose proof (free_layout d d1 pre q r rest rd wr L Q S1 C1) as L1.
    replace (rd + SIZEOF_HEADER + zlen r + padding_of WBS (zlen r))
      with (rd + footprint WBS r) by (unfold footprint; lia).
    destruct rest as [|r2 rest].
    + change (encode_all []) with (@nil Z) in Hwr. rewrite zlen_nil in Hwr.
      btrue (wr <=? rd + footprint WBS r).
      destruct L'. rewrite u32_small by lia.
      replace (flash_size d1 - wr) with (room q) by lia.
      destruct (Z.ltb_spec (room q) MINIMUM_EMPTY_SPACE).
      * destruct (reset_area_empty d1) as (d2 & RS & _ & L2); [lia |].
        rewrite RS. cbn. eexists; split; [done |]. cbn. exists d2.
        split; [done |]. by rewrite S1, lay_cap0 in L2.
      * eexists; split; [done |]. cbn. exists d1. done.
    + change (encode_all (r2 :: rest)) with (encode r2 ++ encode_all rest) in Hwr.
      rewrite zlen_app, encode_len in Hwr. pose proof (footprint_pos r2).
      pose proof (zlen_nonneg (encode_all rest)).
      bfalse (wr <=? rd + footprint WBS r).
      eexists; split; [done |]. cbn. exists d1. done.
Qed.

Lemma storage_free_refines s q :
  Repr s q ->
  let '(ret, q') := fifo_free q in
  exists s', storage_free WBS s = Some (ret, s') /\ Repr s' q'.
Proof.
  intros [S (d & pre & F & L)]. pose proof (free_area_refines d pre q _ _ L) as FR.
  destruct (fifo_free q) as [ret q']. destruct FR as (a' & FR & d' & F' & L').
  unfold storage_free, sem_take. rewrite S. cbn. rewrite F, FR. cbn.
  eexists; split; [done |]. split; [done |]. cbn. eauto.
Qed.

(** The same, for a client that needs to know the stale bytes. *)
Definition Repr_at (s : storage_sys D) (q : fifo) (pre : bytes) : Prop :=
  sem_storage s = 1 /\
  exists d, fa (area s) = Some d /\ layout d pre q (rd_idx (area s)) (wr_idx (area s)).

Lemma Repr_at_Repr s q pre : Repr_at s q pre -> Repr s q.
Proof. intros (S & d & F & L). split; [done | eauto]. Qed.

Lemma storage_free_at s q pre :
  Repr_at s q pre ->
  exists s', storage_free WBS s = Some ((fifo_free q).1, s') /\
    Repr_at s' (fifo_free q).2 (free_pre pre q).
Proof.
  intros (S & d & F & L). pose proof (free_area_refines d pre q _ _ L) as FR.
  destruct (fifo_free q) as [ret q']. destruct FR as (a' & FR & d' & F' & L').
  unfold storage_free, sem_take. rewrite S. cbn. rewrite F, FR. cbn.
  eexists; split; [done |]. split; [done |]. cbn. eauto.
Qed.

Lemma storage_push_at s q pre r :
  Repr_at s q pre -> 0 < zlen r <= cap q ->
  exists s', storage_push WBS s (Some r) = Some ((fifo_push WBS q r).1, r, s') /\
    Repr_at s' (fifo_push WBS q r).2 pre.
Proof.
  intros (S & d & F & L) Hr. destruct s as [sem a]; cbn in S, F, L; subst sem.
  unfold storage_push. bfalse (zlen r =? 0). cbn. rewrite F, (lay_cap _ _ _ _ _ L).
  bfalse (cap q <? zlen r).
  pose proof (push_write_refines d pre q _ _ r L Hr) as PW.
  destruct (fifo_push WBS q r) as [ret q']. destruct PW as (a' & PW & Hrd & d' & F' & L').
  change (sem_take (sem_give (Sys (1 - 1) a))) with (Some (Sys 0 a)).
  cbn. rewrite PW. cbn. eexists; split; [done |]. split; [done |]. cbn. rewrite Hrd. eauto.
Qed.

(** *** Queries *)

Lemma storage_has_data_refines s q :
  Repr s q -> storage_has_data s = Some (negb (bool_decide (queue q = [])), s).
Proof.
  intros [S (d & pre & F & L)]. unfold storage_has_data, sem_take. rewrite S. cbn.
  rewrite F. destruct s as [sem a]; cbn in *; subst. do 3 f_equal.
  destruct L. destruct (queue q) as [|r rest].
  - change (encode_all []) with (@nil Z) in lay_wr0. rewrite zlen_nil in lay_wr0.
    by btrue (rd_idx a =? wr_idx a).
  - change (encode_all (r :: rest)) with (encode r ++ encode_all rest) in lay_wr0.
    rewrite zlen_app, encode_len in lay_wr0. pose proof (footprint_pos r).
    pose proof (zlen_nonneg (encode_all rest)). by bfalse (rd_idx a =? wr_idx a).
Qed.

Lemma storage_is_last_refines s q :
  Repr s q ->
  storage_is_last_record WBS s = Some (bool_decide (length (queue q) = 1%nat), s).
Proof.
  intros [S (d & pre & F & L)]. unfold storage_is_last_record, sem_take. rewrite S. cbn.
  rewrite F. destruct s as [sem a]; cbn in *; subst. do 2 f_equal.
  unfold is_last_record. destruct (queue q) as [|r rest] eqn:Q.
  - destruct L. rewrite Q in lay_wr0.
    change (encode_all []) with (@nil Z) in lay_wr0. rewrite zlen_nil in lay_wr0.
    by btrue (rd_idx a =? wr_idx a).
  - destruct (read_head_header d pre r rest q _ _ L Q) as [R P]. rewrite R.
    cbn [fst snd]. rewrite P. cbn [magic_state record_size record_header].
    rewrite Z.eqb_refl. cbn [negb orb Z.eqb].
    destruct L. rewrite Q in lay_wr0.
    change (encode_all (r :: rest)) with (encode r ++ encode_all rest) in lay_wr0.
    rewrite zlen_app, encode_len in lay_wr0. pose proof (footprint_pos r).
    pose proof (zlen_nonneg (encode_all rest)). bfalse (rd_idx a =? wr_idx a).
    replace (rd_idx a + SIZEOF_HEADER + zlen r + padding_of WBS (zlen r))
      with (rd_idx a + footprint WBS r) by (unfold footprint; lia).
    destruct rest as [|r2 rest].
    + change (encode_all []) with (@nil Z) in lay_wr0. rewrite zlen_nil in lay_wr0.
      by btrue (wr_idx a <=? rd_idx a + footprint WBS r).
    + change (encode_all (r2 :: rest)) with (encode r2 ++ encode_all rest) in lay_wr0.
      rewrite zlen_app, encode_len in lay_wr0. pose proof (footprint_pos r2).
      pose proof (zlen_nonneg (encode_all rest)).
      by bfalse (wr_idx a <=? rd_idx a + footprint WBS r).
Qed.
End Refinement.

(** ** Totality: whatever the flash driver does *)

Section Totality.
Context {D : Type} `{FlashDriver D} `{Crc} {WBS : Z} (WBS_pos : 0 < WBS).

Lemma init_loop_total fuel d rd wr index :
  flash_size d - index < Z.of_nat fuel -> 0 < Z.of_nat fuel ->
  is_Some (init_loop WBS fuel d rd wr index).
Proof.
  revert rd wr index. induction fuel as [|f IH]; intros rd wr index Hf Hp; [done |].
  cbn [init_loop]. set (r := flash_read d index (fill SIZEOF_HEADER 0)).
  destruct (r.1 =? 0); [| by eexists]. cbn [negb].
  destruct ((wr =? INVALID_INDEX) && (magic_state (header_of r.2) =? RECORD_UNUSED));
    [by eexists |].
  set (index' := if magic_state (header_of r.2) =? RECORD_VALID then _ else _).
  assert (index + 1 <= index') as Hi.
  { unfold index'. destruct (magic_state (header_of r.2) =? RECORD_VALID); [| lia].
    pose proof (padding_range WBS WBS_pos (record_size (header_of r.2))).
    pose proof (get16_range r.2 2). unfold header_of, SIZEOF_HEADER in *; cbn in *. lia. }
  clearbody index'. destruct (Z.ltb_spec (index' + SIZEOF_HEADER) (flash_size d)); [| by eexists].
  unfold SIZEOF_HEADER in *. apply IH; lia.
Qed.

Lemma init_area_total d : is_Some (init_area WBS d).
Proof.
  unfold init_area.
  destruct (init_loop_total (init_fuel d) d INVALID_INDEX INVALID_INDEX 0) as [[rd wr] ->];
    [unfold init_fuel; lia | unfold init_fuel; lia |].
  destruct (_ || _); [by eexists |]. destruct (_ && _); by eexists.
Qed.

Lemma reset_area_total d : is_Some (reset_area WBS d).
Proof.
  unfold reset_area. destruct (init_area_total (flash_erase d 0 (flash_size d)).2) as [[ret [rd wr]] ->].
  by eexists.
Qed.

(** The outcomes of the second critical section of [storage_push]: the write
    index moved by exactly the record's footprint, or nothing was touched, or
    the area was erased and re-initialised. *)
Inductive push_outcome (d : D) (rd wr : Z) (r : bytes) : Z -> storage_area D -> Prop :=
| push_stored d' :
    push_outcome d rd wr r RET_SUCCESS (Area (Some d') (wr + footprint WBS r) rd)
| push_no_room :
    flash_size d < wr + footprint WBS r ->
    push_outcome d rd wr r RET_ERROR_NO_MEM (Area (Some d) wr rd)
| push_reset ret d' a :
    ret = RET_ERROR_INTERNAL \/ ret = RET_ERROR_INVALID_STATE ->
    reset_area WBS d' = Some a ->
    push_outcome d rd wr r ret a.

Lemma push_fail_outcome d rd wr r ret d' r' :
  ret = RET_ERROR_INTERNAL \/ ret = RET_ERROR_INVALID_STATE ->
  exists a, push_fail WBS ret d' r' = Some (ret, r', a) /\ push_outcome d rd wr r ret a.
Proof.
  intros Hr. unfold push_fail. destruct (reset_area_total d') as [a E]. rewrite E.
  exists a. split; [done |]. by eapply push_reset.
Qed.

Lemma push_write_outcome d rd wr r :
  exists ret r' a, push_write WBS d rd wr r = Some (ret, r', a) /\
    push_outcome d rd wr r ret a.
Proof.
  unfold push_write.
  assert ((if negb (zlen r mod WBS =? 0) then zlen r + (WBS - zlen r mod WBS) else zlen r)
            = zlen r + padding_of WBS (zlen r)) as ->
    by (unfold padding_of; destruct (zlen r mod WBS =? 0); cbn; lia).
  destruct (Z.ltb_spec (flash_size d) (wr + SIZEOF_HEADER + (zlen r + padding_of WBS (zlen r)))).
  { do 3 eexists. split; [done |]. apply push_no_room. unfold footprint. lia. }
  repeat (match goal with
          | |- context [if ?b then push_fail _ _ _ _ else _] => destruct b;
              [edestruct (push_fail_outcome d rd wr r) as (a & E & O);
                 [| do 3 eexists; split; [exact E | exact O]]; auto |]
          end).
  do 3 eexists. split; [done |].
  replace (wr + (SIZEOF_HEADER + (zlen r + padding_of WBS (zlen r))))
    with (wr + footprint WBS r) by (unfold footprint; lia).
  apply push_stored.
Qed.
End Totality.

(** ** Traces of calls *)

Inductive storage_cmd :=
| CmdPush (record : option bytes)
| CmdPeek (buffer : bytes) (size : Z)
| CmdFree
| CmdHasData
| CmdIsLast.

Inductive storage_out :=
| OutPush (ret : Z) (record : bytes)
| OutPeek (ret : Z) (buffer : bytes) (size : Z)
| OutFree (ret : Z)
| OutBool (b : bool).

(** The caller's obligation: the buffer it announces is as large as it says. *)
Definition cmd_ok (c : storage_cmd) : Prop :=
  match c with CmdPeek buffer size => size <= zlen buffer | _ => True end.

Section Traces.
Context {D : Type} `{FlashDriver D} `{Crc} (WBS : Z).

Definition storage_exec (s : storage_sys D) (c : storage_cmd)
  : option (storage_out * storage_sys D) :=
  match c with
  | CmdPush r => '(e, r', s') ← storage_push WBS s r; Some (OutPush e r', s')
  | CmdPeek b n => '(e, b', n', s') ← storage_peek WBS s b n; Some (OutPeek e b' n', s')
  | CmdFree => '(e, s') ← storage_free WBS s; Some (OutFree e, s')
  | CmdHasData => '(b, s') ← storage_has_data s; Some (OutBool b, s')
  | CmdIsLast => '(b, s') ← storage_is_last_record WBS s; Some (OutBool b, s')
  end.

Fixpoint storage_run (s : storage_sys D) (cs : list storage_cmd)
  : option (list storage_out * storage_sys D) :=
  match cs with
  | [] => Some ([], s)
  | c :: cs =>
      '(o, s') ← storage_exec s c;
      '(os, s'') ← storage_run s' cs;
      Some (o :: os, s'')
  end.

Definition fifo_exec (q : fifo) (c : storage_cmd) : storage_out * fifo :=
  match c with
  | CmdPush None => (OutPush RET_ERROR_INVALID_PARAM [], q)
  | CmdPush (Some r) => let '(e, q') := fifo_push WBS q r in (OutPush e r, q')
  | CmdPeek b n => let '(e, b', n') := fifo_peek q b n in (OutPeek e b' n', q)
  | CmdFree => let '(e, q') := fifo_free q in (OutFree e, q')
  | CmdHasData => (OutBool (negb (bool_decide (queue q = []))), q)
  | CmdIsLast => (OutBool (bool_decide (length (queue q) = 1%nat)), q)
  end.

Fixpoint fifo_run (q : fifo) (cs : list storage_cmd) : list storage_out * fifo :=
  match cs with
  | [] => ([], q)
  | c :: cs =>
      let '(o, q') := fifo_exec q c in
      let '(os, q'') := fifo_run q' cs in
      (o :: os, q'')
  end.
End Traces.

Section Theorems.
Context {D : Type} {WBS : Z} `{FlashLaws D WBS} `{CrcLaws}.

Lemma storage_exec_refines s q c :
  0 < WBS -> SIZEOF_HEADER mod WBS = 0 -> Repr (WBS := WBS) s q -> cmd_ok c ->
  let '(o, q') := fifo_exec WBS q c in
  exists s', storage_exec WBS s c = Some (o, s') /\ Repr (WBS := WBS) s' q'.
Proof.
  intros Hp Hh R Hc. destruct c as [[r|] | b n | | | ]; cbn [fifo_exec storage_exec].
  - pose proof (storage_push_refines Hp Hh s q r R) as P.
    destruct (fifo_push WBS q r) as [e q']. destruct P as (s' & -> & R').
    cbn; eauto.
  - cbn; eauto.
  - pose proof (storage_peek_refines Hp s q b n R Hc) as P.
    destruct (fifo_peek q b n) as [[e b'] n']. rewrite P. cbn; eauto.
  - pose proof (storage_free_refines Hp Hh s q R) as P.
    destruct (fifo_free q) as [e q']. destruct P as (s' & -> & R'). cbn; eauto.
  - rewrite (storage_has_data_refines Hp s q R). cbn; eauto.
  - rewrite (storage_is_last_refines Hp s q R). cbn; eauto.
Qed.

(** C1: on a working flash device the storage module is a bounded FIFO of
    byte records.  From any state that represents a queue, every sequence of
    push, peek, free, has-data and is-last calls returns exactly the codes,
    buffers and sizes of the abstract queue (records come back in order and
    intact, a full area answers NO_MEM, the last free recycles a nearly full
    area), never blocks on the semaphore, and ends in a state that represents
    the resulting queue. *)
Theorem storage_refines_fifo cs : forall s q,
  0 < WBS -> SIZEOF_HEADER mod WBS = 0 ->
  Repr (WBS := WBS) s q -> Forall cmd_ok cs ->
  exists s', storage_run WBS s cs = Some ((fifo_run WBS q cs).1, s') /\
    Repr (WBS := WBS) s' (fifo_run WBS q cs).2.
Proof.
  induction cs as [|c cs IH]; intros s q Hp Hh R Hok; cbn [storage_run fifo_run].
  - by exists s.
  - apply Forall_cons in Hok as [Hc Hok].
    pose proof (storage_exec_refines s q c Hp Hh R Hc) as E.
    destruct (fifo_exec WBS q c) as [o q']. destruct E as (s' & -> & R'). cbn.
    destruct (IH s' q' Hp Hh R' Hok) as (s'' & -> & R''). cbn.
    destruct (fifo_run WBS q' cs) as [os q'']. cbn in *. eauto.
Qed.
End Theorems.

(** A 1 KiB device with an 8-byte write block, freshly erased. *)
Definition blank8 : nor_w 8 := exist _ (Nor (fill 1024 255) 8) eq_refl.
Definition sys8 : storage_sys (nor_w 8) := Sys 1 (Area (Some blank8) 0 0).

Lemma Repr_blank8 : Repr (WBS := 8) sys8 (Fifo [] 1024 1024).
Proof.
  split; [done |]. exists blank8, []. split; [done |].
  split; cbn [queue room cap rd_idx wr_idx area sys8]; try reflexivity; try lia. constructor.
Qed.

Lemma storage_refines_fifo_witness :
  exists s', storage_run 8 sys8
    [CmdPush (Some [1; 2; 3]); CmdPush (Some [4]); CmdPeek [0; 0; 0; 0] 4; CmdFree; CmdIsLast]
  = Some ([OutPush 0 [1; 2; 3]; OutPush 0 [4]; OutPeek 0 [1; 2; 3; 0] 3; OutFree 0;
           OutBool true], s') /\ Repr (WBS := 8) s' (Fifo [[4]] 992 1024).
Proof.
  apply (storage_refines_fifo (WBS := 8) (D := nor_w 8)
    [CmdPush (Some [1; 2; 3]); CmdPush (Some [4]); CmdPeek [0; 0; 0; 0] 4; CmdFree; CmdIsLast]
    sys8 (Fifo [] 1024 1024)).
  - reflexivity.
  - reflexivity.
  - exact Repr_blank8.
  - repeat constructor. discriminate.
Defined.

Section AnyDriver.
Context {D : Type} `{FlashDriver D} `{Crc}.

(** C39: whatever the flash driver returns (failed or partial reads and
    writes included), every storage call terminates, takes the module's
    semaphore without blocking when it is free, and leaves it free: no error
    path leaks it. *)
Theorem storage_never_deadlocks WBS (s : storage_sys D) (c : storage_cmd) :
  0 < WBS -> sem_storage s = 1 ->
  exists o s', storage_exec WBS s c = Some (o, s') /\ sem_storage s' = 1.
Proof.
  intros Hp S. destruct s as [sem a]; cbn in S; subst sem.
  destruct c as [[r|] | b n | | | ]; cbn [storage_exec].
  - unfold storage_push. destruct (zlen r =? 0); [by do 2 eexists |]. cbn.
    destruct (fa a) as [d|] eqn:F; [| by do 2 eexists].
    destruct (flash_size d <? zlen r); [by do 2 eexists |].
    change (sem_take (sem_give (Sys (1 - 1) a))) with (Some (Sys 0 a)). cbn [mbind option_bind area].
    destruct (push_write_outcome Hp d (rd_idx a) (wr_idx a) r) as (e & r' & a' & -> & _).
    by do 2 eexists.
  - by do 2 eexists.
  - unfold storage_peek. cbn. destruct (fa a) as [d|] eqn:F; [| by do 2 eexists].
    destruct (peek_read d (rd_idx a) (wr_idx a) b n) as [[[f e] b'] n'].
    destruct (_ || _); [| by do 2 eexists].
    destruct (reset_area_total Hp d) as [a' ->]. by do 2 eexists.
  - unfold storage_free. cbn. destruct (fa a) as [d|] eqn:F; [| by do 2 eexists].
    unfold free_area. destruct (negb _); [by do 2 eexists |].
    destruct (negb _); [by do 2 eexists |].
    destruct (_ <=? _); [| by do 2 eexists]. destruct (_ <? _); [| by do 2 eexists].
    match goal with |- context [reset_area WBS ?d'] =>
      destruct (reset_area_total Hp d') as [a' ->] end. by do 2 eexists.
  - by do 2 eexists.
  - by do 2 eexists.
Qed.

(** On any flash driver, a push either stores the record and moves the
    write index by exactly its footprint (header, payload, padding), or
    answers NO_MEM with nothing touched exactly when the footprint does not
    fit, or reports INTERNAL / INVALID_STATE after erasing and
    re-initialising the area: no failure leaves a half-written record behind
    the write index. *)
Theorem storage_push_outcomes WBS (d : D) rd wr r :
  0 < WBS -> 0 < zlen r <= flash_size d ->
  exists ret r' a,
    storage_push WBS (Sys 1 (Area (Some d) wr rd)) (Some r) = Some (ret, r', Sys 1 a) /\
    push_outcome (WBS := WBS) d rd wr r ret a.
Proof.
  intros Hp Hr. unfold storage_push. bfalse (zlen r =? 0). cbn.
  bfalse (flash_size d <? zlen r).
  change (sem_take (sem_give (Sys (1 - 1) (Area (Some d) wr rd))))
    with (Some (Sys 0 (Area (Some d) wr rd))). cbn [mbind option_bind area rd_idx wr_idx].
  destruct (push_write_outcome Hp d rd wr r) as (e & r' & a' & -> & O).
  by do 3 eexists.
Qed.
End AnyDriver.

Lemma storage_never_deadlocks_witness :
  0 < 8 /\ exists o s', storage_exec 8 sys8 CmdFree = Some (o, s') /\ sem_storage s' = 1.
Proof.
  split; [reflexivity |]. apply (storage_never_deadlocks 8 sys8 CmdFree); reflexivity.
Defined.

Lemma storage_push_outcomes_witness :
  exists ret r' a,
    storage_push 8 (Sys 1 (Area (Some blank8) 0 0)) (Some [7; 7; 7]) = Some (ret, r', Sys 1 a) /\
    push_outcome (WBS := 8) blank8 0 0 [7; 7; 7] ret a.
Proof.
  apply (storage_push_outcomes 8 blank8 0 0 [7; 7; 7]); [reflexivity |].
  split; [reflexivity | discriminate].
Defined.

(** ** Start-up: recovering the queue from flash *)

Section Recovery.
Context {D : Type} {WBS : Z} `{FlashLaws D WBS} `{CrcLaws}.
Context (WBS_pos : 0 < WBS) (WBS_header : SIZEOF_HEADER mod WBS = 0).

Abbreviation enc := (encode (WBS := WBS)).
Abbreviation enc_all := (encode_all (WBS := WBS)).

(** No write block of the stale prefix looks like a record header: the first
    two bytes at a block boundary are neither VALID nor UNUSED. *)
Definition clean_prefix (content : bytes) (n : Z) : Prop :=
  (0 < n -> get16 content 0 = RECORD_INVALID) /\
  forall k, 0 <= k < n -> k mod WBS = 0 ->
    get16 (slice k SIZEOF_HEADER content) 0 <> RECORD_VALID /\
    get16 (slice k SIZEOF_HEADER content) 0 <> RECORD_UNUSED.

Lemma crc_chunks_spec d a r c crc : forall fuel i,
  flash_content d = a ++ r ++ c -> 0 <= i < zlen r -> zlen r - i <= 64 * Z.of_nat fuel ->
  crc_chunks fuel d (zlen a) (zlen r) i (crc16_ccitt crc (slice 0 i r)) = crc16_ccitt crc r.
Proof.
  intros fuel. induction fuel as [|f IH]; intros i E Hi Hf; [lia |].
  cbn [crc_chunks]. btrue (i <? zlen r). unfold INIT_AREA_READ_BUFFER_SIZE.
  set (n := if i + 64 <? zlen r then 64 else zlen r - i).
  assert (0 < n /\ i + n <= zlen r /\ n = Z.min 64 (zlen r - i)) as (N1 & N2 & N3)
    by (unfold n; bdestruct_all).
  pose proof (zlen_nonneg a). pose proof (zlen_nonneg c).
  rewrite flash_read_ok; rewrite ?zlen_fill by lia; [| lia |].
  2: { rewrite <- flash_content_size, E, !zlen_app. lia. }
  cbn [fst snd]. rewrite Z.eqb_refl, E, slice_app_inner by lia.
  rewrite <- crc16_pieces.
  assert (slice 0 i r ++ slice i n r = slice 0 (i + n) r) as ->.
  { rewrite (slice_split 0 i (i + n)) by lia. f_equal. f_equal; lia. }
  destruct (Z.le_gt_cases (zlen r) (i + 64)) as [L | L].
  - replace (i + n) with (zlen r) by lia. rewrite slice_all.
    destruct f; cbn [crc_chunks]; [done |]. by bfalse (i + 64 <? zlen r).
  - replace (i + n) with (i + 64) by lia. apply IH; [done | lia | lia].
Qed.

Lemma record_crc_spec d a r c index :
  flash_content d = a ++ r ++ c -> zlen a = index + SIZEOF_HEADER -> 0 < zlen r ->
  record_crc d index (zlen r) = crc16_ccitt 65535 r.
Proof.
  intros E L Hr. unfold record_crc. rewrite <- L.
  pose proof (crc_chunks_spec d a r c 65535 (Z.to_nat (zlen r / INIT_AREA_READ_BUFFER_SIZE + 1)) 0 E)
    as S.
  assert (crc16_ccitt 65535 (slice 0 0 r) = 65535) as Enil.
  { change (slice 0 0 r) with (@nil Z). by apply crc16_nil. }
  rewrite Enil in S. apply S; [lia |].
  unfold INIT_AREA_READ_BUFFER_SIZE. rewrite Z2Nat.id; zify_div.
Qed.

(** Scanning block by block over the stale prefix. *)
Lemma scan_stale d P : forall fuel index,
  clean_prefix (flash_content d) P -> P mod WBS = 0 -> P + SIZEOF_HEADER < flash_size d ->
  0 <= index <= P -> index mod WBS = 0 -> flash_size d - index < Z.of_nat fuel ->
  exists fuel', flash_size d - P < Z.of_nat fuel' /\
    init_loop WBS fuel d INVALID_INDEX INVALID_INDEX index =
    init_loop WBS fuel' d INVALID_INDEX INVALID_INDEX P.
Proof.
  intros fuel. induction fuel as [|f IH]; intros index C HP Hs Hi Ha Hf.
  { unfold SIZEOF_HEADER in *. lia. }
  destruct (decide (index = P)) as [-> | Hne]; [by eexists |].
  destruct C as [C0 C]. destruct (C index ltac:(lia) Ha) as [Cv Cu].
  unfold SIZEOF_HEADER in *.
  assert (index + WBS <= P) as Hstep.
  { apply Z.mod_divide in Ha as [i ->]; [| lia]. apply Z.mod_divide in HP as [p ->]; [| lia].
    assert (i < p) by nia. nia. }
  destruct (IH (index + WBS)) as (f' & Hf' & E); [by split | done | done | lia | | lia |].
  { apply mod_add_0; [done | apply Z_mod_same_full]. }
  exists f'. split; [done |]. rewrite <- E. cbn [init_loop].
  rewrite flash_read_ok; rewrite ?zlen_fill by done; [| lia | unfold SIZEOF_HEADER; lia].
  cbn [fst snd negb Z.eqb]. set (h := header_of _). unfold SIZEOF_HEADER.
  change (get16 (slice index 8 (flash_content d)) 0) with (magic_state h) in Cv, Cu.
  bfalse (magic_state h =? RECORD_VALID). bfalse (magic_state h =? RECORD_UNUSED).
  rewrite !andb_false_r. cbn [andb].
  by btrue (index + WBS + 8 <? flash_size d).
Qed.

(** Walking over the valid records. *)
Lemma walk_records d room : forall q a rd fuel,
  flash_content d = a ++ enc_all q ++ fill room 255 -> Forall storable q ->
  0 <= room -> (8 < room \/ room = 0 /\ q <> []) ->
  flash_size d - zlen a < Z.of_nat fuel ->
  init_loop WBS fuel d rd INVALID_INDEX (zlen a) =
  Some (if (rd =? INVALID_INDEX) && negb (bool_decide (q = [])) then zlen a else rd,
        if room =? 0 then INVALID_INDEX else zlen a + zlen (enc_all q)).
Proof.
  intros q. induction q as [|r q IH]; intros a rd fuel E Hq Hr Hroom Hf;
    pose proof (zlen_nonneg a) as Ha;
    pose proof (f_equal zlen E) as Esz; rewrite flash_content_size, !zlen_app, zlen_fill in Esz by lia.
  - destruct Hroom as [Hroom | [_ Hroom]]; [| done].
    change (enc_all []) with (@nil Z) in *. rewrite zlen_nil in Esz.
    destruct fuel as [|f]; [lia |]. cbn [init_loop].
    erewrite (read_at d a (fill 8 255)); cycle 1.
    + rewrite E. rewrite (fill_split 8 room) by lia. done.
    + done.
    + done.
    + cbn [fst snd negb Z.eqb]. change (header_of (fill 8 255)) with (Header 65535 65535 65535 65535).
      cbn. rewrite !andb_false_r. bfalse (room =? 0). by rewrite Z.add_0_r.
  - apply Forall_cons in Hq as [Hst Hq]. pose proof Hst as [Hr1 Hr2].
    change (enc_all (r :: q)) with (enc r ++ enc_all q) in *.
    rewrite zlen_app, (encode_len WBS_pos) in Esz |- *.
    pose proof (footprint_pos WBS_pos r) as Hfp. pose proof (zlen_nonneg (enc_all q)) as Hq0.
    destruct fuel as [|f]; [lia |]. cbn [init_loop].
    assert (flash_content d = a ++ header_bytes (record_header r) ++
      (r ++ fill (padding_of WBS (zlen r)) 255 ++ enc_all q ++ fill room 255)) as E1
      by (rewrite E; unfold encode; by rewrite <- !app_assoc).
    rewrite (read_at d a (header_bytes (record_header r)) _ (fill SIZEOF_HEADER 0) (zlen a) E1) by done.
    cbn [fst snd negb Z.eqb].
    pose proof (record_header_parse r [] Hst) as P. rewrite app_nil_r in P.
    change (take 8 (header_bytes (record_header r))) with (header_bytes (record_header r)) in P.
    rewrite P. cbn [magic_state record_size crc16 record_header]. rewrite Z.eqb_refl.
    rewrite (record_crc_spec d (a ++ header_bytes (record_header r)) r
               (fill (padding_of WBS (zlen r)) 255 ++ enc_all q ++ fill room 255) (zlen a)).
    2: { rewrite E1. by rewrite <- !app_assoc. }
    2: { by rewrite zlen_app, header_bytes_len. }
    2: lia.
    rewrite !Z.eqb_refl. change (RECORD_VALID =? RECORD_UNUSED) with false.
    rewrite (bool_decide_false (r :: q = [])) by done. cbn [negb].
    rewrite !andb_true_r, andb_false_r.
    replace (zlen a + SIZEOF_HEADER + zlen r + padding_of WBS (zlen r))
      with (zlen (a ++ enc r)) by (rewrite zlen_app, (encode_len WBS_pos); unfold footprint; lia).
    set (rd' := if rd =? INVALID_INDEX then zlen a else rd).
    assert ((rd' =? INVALID_INDEX) = false) as Hrd'
      by (unfold rd', INVALID_INDEX in *; bdestruct_all).
    rewrite zlen_app, (encode_len WBS_pos). unfold SIZEOF_HEADER.
    destruct (Z.ltb_spec (zlen a + footprint WBS r + 8) (flash_size d)) as [L | L].
    + rewrite <- (encode_len WBS_pos r), <- zlen_app.
      rewrite IH; [| by rewrite E, <- !app_assoc | done | done | | rewrite zlen_app, (encode_len WBS_pos); lia].
      * rewrite Hrd'. cbn [andb]. do 2 f_equal. rewrite zlen_app, (encode_len WBS_pos).
        destruct (room =? 0); [done | lia].
      * destruct Hroom as [Hroom | [Hroom _]]; [by left |]. right. split; [done |].
        intros ->. change (enc_all []) with (@nil Z) in *. rewrite zlen_nil in Esz. lia.
    + do 2 f_equal. destruct Hroom as [Hroom | [Hroom _]]; [exfalso; lia |].
      by btrue (room =? 0).
Qed.

(** The states the recovery theorem covers: stale bytes that cannot be
    mistaken for headers, and either a header's worth of erased flash after
    the last record or an exactly full area. *)
Definition recoverable (d : D) (q : fifo) (rd : Z) : Prop :=
  clean_prefix (flash_content d) rd /\
  (8 < room q \/ room q = 0 /\ queue q <> []).

Lemma first_magic d pre q rd wr :
  layout d pre q rd wr -> recoverable d q rd ->
  let m := magic_state (header_of (flash_read d 0 (fill SIZEOF_HEADER 0)).2) in
  (flash_read d 0 (fill SIZEOF_HEADER 0)).1 = 0 /\
  (m = RECORD_UNUSED \/ m = RECORD_VALID \/ m = RECORD_INVALID).
Proof.
  intros L [[C0 C] HR]. pose proof (layout_room _ _ _ _ _ L) as Hcap.
  pose proof (layout_bounds _ _ _ _ _ L) as Hb. pose proof L as L'. destruct L'.
  assert (8 <= flash_size d) as Hsz.
  { destruct HR as [HR | [HR Hq]]; [lia |].
    destruct (queue q) as [|r rest]; [done |].
    change (enc_all (r :: rest)) with (enc r ++ enc_all rest) in lay_wr0.
    rewrite zlen_app, (encode_len WBS_pos) in lay_wr0. pose proof (footprint_pos WBS_pos r).
    pose proof (zlen_nonneg (enc_all rest)). lia. }
  rewrite flash_read_ok by (change (zlen (fill SIZEOF_HEADER 0)) with 8; lia).
  cbn [fst snd]. split; [done |]. change (zlen (fill SIZEOF_HEADER 0)) with 8.
  unfold header_of; cbn [magic_state].
  assert (forall b : bytes, get16 (slice 0 8 b) 0 = get16 b 0) as Hg.
  { intros b. unfold get16, nthZ, slice. cbn. by destruct b as [|x [|y b]]. }
  rewrite Hg. destruct (Z.eq_dec rd 0) as [-> | Hne]; [| right; right; apply C0; lia].
  apply zlen_0 in lay_rd0 as ->. cbn [app] in lay_content0. rewrite lay_content0.
  destruct (queue q) as [|r rest].
  - left. change (enc_all []) with (@nil Z). cbn [app].
    destruct HR as [HR | [_ HR]]; [| done]. rewrite (fill_split 8 (room q)) by lia. done.
  - right; left. unfold record_header. done.
Qed.

Lemma init_area_recovers d pre q rd wr :
  layout d pre q rd wr -> recoverable d q rd -> init_area WBS d = Some (RET_SUCCESS, (rd, wr)).
Proof.
  intros L R. destruct (first_magic d pre q rd wr L R) as [F0 Fm].
  pose proof (layout_room _ _ _ _ _ L) as Hcap. pose proof (layout_bounds _ _ _ _ _ L) as Hb.
  destruct R as [C HR]. pose proof L as L'. destruct L'.
  assert (rd + SIZEOF_HEADER < flash_size d) as Hlt.
  { unfold SIZEOF_HEADER. destruct HR as [HR | [HR Hq]]; [lia |].
    destruct (queue q) as [|r rest] eqn:Q; [done |].
    change (enc_all (r :: rest)) with (enc r ++ enc_all rest) in lay_wr0.
    rewrite zlen_app, (encode_len WBS_pos) in lay_wr0. apply Forall_cons in lay_storable0 as [[Hr _] _].
    pose proof (padding_range WBS WBS_pos (zlen r)). unfold footprint, SIZEOF_HEADER in lay_wr0.
    pose proof (zlen_nonneg (enc_all rest)). lia. }
  unfold init_area. rewrite F0. cbn [negb Z.eqb orb].
  set (m := magic_state _) in Fm |- *.
  assert (negb (m =? RECORD_UNUSED) && negb (m =? RECORD_VALID) && negb (m =? RECORD_INVALID)
          = false) as -> by (destruct Fm as [-> | [-> | ->]]; done).
  destruct (scan_stale d rd (init_fuel d) 0) as (f & Hf & ->);
    [done | done | done | lia | apply Zmod_0_l | unfold init_fuel; lia |].
  subst rd. rewrite (walk_records d (room q) (queue q) pre) by done.
  rewrite Z.eqb_refl. cbn [andb].
  destruct (queue q) as [|r rest] eqn:Q; cbn [negb bool_decide].
  - rewrite bool_decide_true by done. cbn [negb]. destruct HR as [HR | [_ HR]]; [| done].
    bfalse (room q =? 0). rewrite Z.eqb_refl. cbn [andb].
    change (zlen (enc_all [])) with 0 in *. rewrite Z.add_0_r. unfold INVALID_INDEX.
    cbn [andb negb]. bfalse (zlen pre =? -1). cbn [andb negb].
    bfalse (zlen pre =? -1). cbn [negb]. do 3 f_equal. lia.
  - rewrite bool_decide_false by done. cbn [negb]. unfold INVALID_INDEX in *.
    bfalse (zlen pre =? -1). cbn [andb negb].
    destruct (Z.eqb_spec (room q) 0) as [Hz | Hz]; cbn [Z.eqb Pos.eqb].
    + do 3 f_equal. lia.
    + pose proof (zlen_nonneg (enc_all (r :: rest))).
      bfalse (zlen pre + zlen (enc_all (r :: rest)) =? -1). do 3 f_equal. lia.
Qed.

(** Start-up recovers the queue from flash.  When the area holds stale
    (freed) bytes, then the records of [q], then erased flash, and no aligned
    block of the stale bytes looks like a VALID or UNUSED header,
    [storage_init] succeeds and its read and write indices represent exactly
    [q]: nothing stored is lost and nothing freed comes back. *)
Theorem storage_init_recovers d pre q rd wr s :
  layout d pre q rd wr -> recoverable d q rd -> sem_storage s = 1 ->
  exists s', storage_init WBS s (0, d) = Some (RET_SUCCESS, s') /\
    Repr (WBS := WBS) s' q /\ rd_idx (area s') = rd /\ wr_idx (area s') = wr.
Proof.
  intros L R S. pose proof (init_area_recovers d pre q rd wr L R) as I.
  unfold storage_init, sem_take. rewrite S. cbn. rewrite I. cbn.
  eexists; split; [done |]. split; [| done]. split; [done |]. cbn. eauto.
Qed.
End Recovery.

(** A device holding one freed record, then the record [4; 5]. *)
Definition stale8 : bytes := fill 8 0 ++ [1; 2; 3; 255; 255; 255; 255; 255].
Definition used8 : nor_w 8 :=
  exist _ (Nor (stale8 ++ encode (WBS := 8) [4; 5] ++ fill 992 255) 8) eq_refl.
Definition used_q : fifo := Fifo [[4; 5]] 992 1024.

Lemma used8_layout : layout (WBS := 8) used8 stale8 used_q 16 32.
Proof.
  split; cbn [queue room cap used_q]; try reflexivity; try lia.
  repeat constructor.
Qed.

Lemma used8_clean : clean_prefix (WBS := 8) (flash_content used8) 16.
Proof.
  split; [reflexivity |]. intros k Hk Hm.
  assert (k = 0 \/ k = 8) as [-> | ->] by zify_div; split; vm_compute; discriminate.
Qed.

Lemma storage_init_recovers_witness :
  exists s', storage_init 8 (Sys 1 (Area None 0 0)) (0, used8) = Some (RET_SUCCESS, s') /\
    Repr (WBS := 8) s' used_q /\ rd_idx (area s') = 16 /\ wr_idx (area s') = 32.
Proof.
  apply (storage_init_recovers (WBS := 8) (D := nor_w 8) eq_refl used8 stale8 used_q 16 32).
  - exact used8_layout.
  - split; [exact used8_clean | left; reflexivity].
  - reflexivity.
Defined.

(** The proviso of [storage_init_recovers] on the stale bytes is needed.  [replay] runs a trace and
    then restarts the module on the same flash. *)
Definition replay (s : storage_sys (nor_w 8)) (cs : list storage_cmd)
  : option (bool * bool) :=
  '(_, s1) ← storage_run 8 s cs;
  d ← fa (area s1);
  '(before, _) ← storage_has_data s1;
  '(_, s2) ← storage_init 8 (Sys 1 (Area None 0 0)) (0, d);
  '(after, _) ← storage_has_data s2;
  Some (before, after).

(** A stored record can be lost by a restart.  The scan of [init_area]
    takes any block of a freed record's payload that begins with 0xFFFF for
    the end of the data: push a 16-byte payload of 0xFF bytes, push a second
    record, free the first, restart: the second record, present before the
    restart, is gone after it. *)
Theorem storage_restart_loses_record :
  replay sys8 [CmdPush (Some (fill 16 255)); CmdPush (Some [1; 2; 3]); CmdFree]
  = Some (true, false).
Proof. vm_compute. reflexivity. Qed.
