(* ===== verification/Uart.v ===== *)
(** lib/uart_messaging/uart_messaging.c: framing of the messages received on
    the UART ring buffer.

    The DMA fills the ring; [uart_event_callback] advances the write index and
    parses frames [| 0x8E | 0xAD | len lo | len hi | payload |].  The ring size
    is 2^K (a BUILD_ASSERT of the source); the message queue holds
    [UART_QUEUE_LEN] entries. *)

From S2P Require Import Prelude.

Definition UART_MESSAGE_HEADER_SIZE : Z := 4.
Definition HEADER_MAGIC_U16 : Z := 44430. (* 0xad8e *)
Definition UART_QUEUE_LEN : nat := 6.
Definition SIZE_MAX : Z := 4294967295.

(** [uart_message_t]; the buffer address and size are the ring's. *)
Record uart_message := UartMessage { start_idx : Z; msg_length : Z }.

Record uart_state := UartState {
  read_index : Z;
  write_index : Z;
  uart_recv_queue : list uart_message;
}.

Definition uart_init_state : uart_state := UartState SIZE_MAX SIZE_MAX [].

Section Ring.
Context (K : Z).

Definition ring_size : Z := 2 ^ K.

(** UART_RX_RING_BUFFER_USED_BYTES. *)
Definition used_bytes (start end_ : Z) : Z := Z.land (u32 (end_ - start)) (ring_size - 1).

(** [k_msgq_put(&uart_recv_queue, &message, K_NO_WAIT)]: a full queue refuses
    the message and the handler only logs it. *)
Definition msgq_put (q : list uart_message) (m : uart_message) : list uart_message :=
  if (length q <? UART_QUEUE_LEN)%nat then q ++ [m] else q.

(** The byte [k] positions after the read index, and the two header fields the
    loop reads there whether or not they have been received yet. *)
Definition byte_at (ring : bytes) (rd k : Z) : Z := u8 (nthZ ring ((rd + k) mod ring_size)).
Definition payload_size (ring : bytes) (rd : Z) : Z :=
  u16 (Z.shiftl (byte_at ring rd 3) 8 + byte_at ring rd 2).
Definition header_magic (ring : bytes) (rd : Z) : Z :=
  u16 (Z.shiftl (byte_at ring rd 1) 8 + byte_at ring rd 0).

(** The parsing loop over [ring]; [None] when the fuel runs out. *)
Fixpoint parse_loop (fuel : nat) (ring : bytes) (rd wr : Z) (q : list uart_message)
  : option (Z * list uart_message) :=
  match fuel with
  | O => None
  | S f =>
      if rd =? wr then Some (rd, q)
      else
        let len := payload_size ring rd in
        let magic := header_magic ring rd in
        let used := used_bytes rd wr in
        if (UART_MESSAGE_HEADER_SIZE <? used) && (magic =? HEADER_MAGIC_U16) &&
           (len + UART_MESSAGE_HEADER_SIZE <=? used)
        then
          parse_loop f ring ((rd + len + UART_MESSAGE_HEADER_SIZE) mod ring_size) wr
            (msgq_put q (UartMessage ((rd + UART_MESSAGE_HEADER_SIZE) mod ring_size) len))
        else if (used <? UART_MESSAGE_HEADER_SIZE) ||
                ((UART_MESSAGE_HEADER_SIZE <=? used) && (magic =? HEADER_MAGIC_U16) &&
                 (used <? len + UART_MESSAGE_HEADER_SIZE))
        then Some (rd, q)
        else parse_loop f ring ((rd + 1) mod ring_size) wr q
  end.

Inductive uart_event :=
| UART_RX_RDY (offset len : Z)
| UART_RX_BUF_RELEASED
| UART_RX_BUF_REQUEST.

(** [uart_event_callback], on the current content [ring] of the ring buffer.
    The loop is given one unit of fuel per byte of the ring. *)
Definition uart_event_callback (ring : bytes) (evt : uart_event) (s : uart_state)
  : option uart_state :=
  match evt with
  | UART_RX_RDY offset len =>
      let fresh := (read_index s =? SIZE_MAX) && (write_index s =? SIZE_MAX) in
      let rd := if fresh then offset else read_index s in
      let wr := (if fresh then offset else write_index s) in
      let wr' := (wr + len) mod ring_size in
      '(rd', q) ← parse_loop (S (Z.to_nat ring_size)) ring rd wr' (uart_recv_queue s);
      Some (UartState rd' wr' q)
  | _ => Some s
  end.
End Ring.

(** ** Driver set-up *)

(** The device queries and commands the set-up code relies on. *)
Record uart_driver := UartDriver {
  dev_present : bool;       (* uart_dev != NULL *)
  dev_ready : bool;         (* device_is_ready *)
  callback_set_ret : Z;     (* uart_callback_set *)
  rx_enable_ret : Z;        (* uart_rx_enable *)
  rx_disable_ret : Z;       (* uart_rx_disable *)
}.

(** What the set-up leaves behind: handler installed, receiver enabled (the
    device's busy flag under power management), thread running. *)
Record uart_setup := UartSetup { handler_set : bool; rx_on : bool; rx_thread : bool }.

(** [uart_messaging_init]; [pm] is CONFIG_PM. *)
Definition uart_messaging_init (pm : bool) (drv : uart_driver) (in_handler : bool) (s : uart_setup)
  : Z * uart_setup :=
  if negb in_handler then (RET_ERROR_INVALID_PARAM, s)
  else
    let s := UartSetup true (rx_on s) (rx_thread s) in
    if negb (dev_present drv) then (RET_ERROR_NOT_INITIALIZED, s)
    else if negb (dev_ready drv) then (RET_ERROR_INVALID_STATE, s)
    else if negb (callback_set_ret drv =? 0) then (RET_ERROR_INTERNAL, s)
    else if negb pm && negb (rx_enable_ret drv =? 0) then (RET_ERROR_INTERNAL, s)
    else (RET_SUCCESS, UartSetup true (if pm then rx_on s else true) true).

Definition uart_messaging_suspend (drv : uart_driver) (s : uart_setup) : Z * uart_setup :=
  if rx_on s then
    if negb (rx_disable_ret drv =? 0) then (RET_ERROR_INVALID_STATE, s)
    else (rx_disable_ret drv, UartSetup (handler_set s) false (rx_thread s))
  else (RET_SUCCESS, s).

Definition uart_messaging_resume (drv : uart_driver) (s : uart_setup) : Z * uart_setup :=
  if negb (rx_on s) then
    if negb (rx_enable_ret drv =? 0) then (RET_ERROR_INVALID_STATE, s)
    else (rx_enable_ret drv, UartSetup (handler_set s) true (rx_thread s))
  else (RET_SUCCESS, s).

(** ** Frames *)

(** What a peer sends for the payload [p]. *)
Definition frame (p : bytes) : bytes := [142; 173] ++ le16 (zlen p) ++ p.

Definition sendable (p : bytes) : Prop := 0 < zlen p < 65536 /\ Forall is_byte p.

Section Parsing.
Context (K : Z) (K_range : 3 <= K <= 31).

Abbreviation N := (ring_size K).

Lemma ring_size_pos : 8 <= N.
Proof.
  unfold ring_size. change 8 with (2 ^ 3). apply Z.pow_le_mono_r; lia.
Qed.

Lemma ring_size_le : N <= 2 ^ 31.
Proof. unfold ring_size. apply Z.pow_le_mono_r; lia. Qed.

Lemma used_bytes_mod r w : 0 <= r < N -> 0 <= w < N -> used_bytes K r w = (w - r) mod N.
Proof.
  intros. unfold used_bytes, ring_size in *. 
  replace (2 ^ K - 1) with (Z.ones K) by (rewrite Z.ones_equiv; lia).
  rewrite Z.land_ones by lia. unfold u32.
  replace (2 ^ 32) with (2 ^ K * 2 ^ (32 - K)) by (rewrite <- Z.pow_add_r by lia; f_equal; lia).
  rewrite Z.rem_mul_r by lia. rewrite Z.mul_comm, Z.mod_add by lia. by rewrite Z.mod_mod by lia.
Qed.

(** Unread bytes once [n] of them are consumed. *)
Lemma used_advance r w n :
  0 <= r < N -> 0 <= w < N -> 0 <= n <= used_bytes K r w ->
  used_bytes K ((r + n) mod N) w = used_bytes K r w - n.
Proof.
  intros Hr Hw Hn. pose proof ring_size_pos.
  rewrite (used_bytes_mod r) in * by lia.
  rewrite used_bytes_mod by (try apply Z.mod_pos_bound; lia).
  rewrite Zminus_mod_idemp_r. replace (w - (r + n)) with ((w - r) - n) by lia.
  rewrite <- Zminus_mod_idemp_l. apply Z.mod_small.
  pose proof (Z.mod_pos_bound (w - r) N). lia.
Qed.

Lemma used_range r w : 0 <= r < N -> 0 <= w < N -> 0 <= used_bytes K r w < N.
Proof.
  intros. rewrite used_bytes_mod by lia. apply Z.mod_pos_bound. pose proof ring_size_pos. lia.
Qed.

Lemma used_0 r w : 0 <= r < N -> 0 <= w < N -> used_bytes K r w = 0 -> r = w.
Proof.
  intros Hr Hw E. rewrite used_bytes_mod in E by lia. pose proof ring_size_pos.
  apply Z.mod_divide in E as [q E]; [| lia]. assert (q = 0) by nia. lia.
Qed.

(** *** The loop terminates *)

(** Every turn of the loop consumes at least one unread byte, so one unit of
    fuel per unread byte is enough. *)
Lemma parse_loop_total ring wr : 0 <= wr < N -> forall fuel rd q,
  0 <= rd < N -> used_bytes K rd wr < Z.of_nat fuel ->
  exists rd' q', parse_loop K fuel ring rd wr q = Some (rd', q') /\ 0 <= rd' < N /\
    used_bytes K rd' wr <= used_bytes K rd wr.
Proof.
  intros Hw fuel. pose proof ring_size_pos.
  induction fuel as [|f IH]; intros rd q Hr Hf.
  { pose proof (used_range rd wr Hr Hw). lia. }
  cbn [parse_loop]. destruct (Z.eqb_spec rd wr) as [-> | Hne]; [do 2 eexists; split; [done | lia] |].
  pose proof (u16_range (Z.shiftl (byte_at K ring rd 3) 8 + byte_at K ring rd 2)) as Hl.
  fold (payload_size K ring rd) in Hl.
  set (len := payload_size K ring rd) in *. set (magic := header_magic K ring rd).
  pose proof (used_range rd wr Hr Hw) as Hu.
  assert (used_bytes K rd wr <> 0) as Hu0 by (intros E; by apply used_0 in E).
  destruct ((UART_MESSAGE_HEADER_SIZE <? used_bytes K rd wr) && (magic =? HEADER_MAGIC_U16) &&
            (len + UART_MESSAGE_HEADER_SIZE <=? used_bytes K rd wr)) eqn:E1.
  - apply andb_true_iff in E1 as [_ E1]. apply Z.leb_le in E1.
    unfold UART_MESSAGE_HEADER_SIZE in *. rewrite <- Z.add_assoc.
    pose proof (used_advance rd wr (len + 4) Hr Hw ltac:(lia)) as U.
    edestruct (IH ((rd + (len + 4)) mod N)) as (rd' & q' & E & H1 & H2);
      [apply Z.mod_pos_bound; lia | lia |].
    do 2 eexists. split; [exact E |]. lia.
  - destruct (_ || _); [do 2 eexists; split; [done | lia] |].
    pose proof (used_advance rd wr 1 Hr Hw ltac:(lia)) as U.
    edestruct (IH ((rd + 1) mod N) q) as (rd' & q' & E & H1 & H2);
      [apply Z.mod_pos_bound; lia | lia |].
    do 2 eexists. split; [exact E |]. lia.
Qed.

(** *** Unread bytes as a list *)

Definition ring_bytes (ring : bytes) (r n : Z) : bytes :=
  (fun k => nthZ ring ((r + Z.of_nat k) mod N)) <$> seq 0 (Z.to_nat n).

Lemma ring_bytes_len ring r n : 0 <= n -> zlen (ring_bytes ring r n) = n.
Proof. intros. unfold zlen, ring_bytes. rewrite length_fmap, length_seq. lia. Qed.

Lemma ring_bytes_nth ring r n k :
  0 <= k < n -> nthZ (ring_bytes ring r n) k = nthZ ring ((r + k) mod N).
Proof.
  intros. unfold nthZ at 1. apply nth_lookup_Some. unfold ring_bytes.
  rewrite list_lookup_fmap, lookup_seq_lt by lia. cbn. do 3 f_equal. lia.
Qed.

Lemma ring_bytes_split ring r n m :
  0 <= n -> 0 <= m -> ring_bytes ring r (n + m) = ring_bytes ring r n ++ ring_bytes ring ((r + n) mod N) m.
Proof.
  intros. pose proof ring_size_pos. unfold ring_bytes. rewrite Z2Nat.inj_add, seq_app, fmap_app by lia. f_equal.
  assert (forall a b, seq (0 + a) b = Nat.add a <$> seq 0 b) as ->
    by (intros; rewrite fmap_add_seq; f_equal; lia).
  rewrite <- list_fmap_compose.
  apply list_fmap_ext. intros i k _. cbn. f_equal. rewrite Zplus_mod_idemp_l. f_equal. lia.
Qed.

(** The bytes a message handed to the consumer designates. *)
Definition message_bytes (ring : bytes) (m : uart_message) : bytes :=
  ring_bytes ring (start_idx m) (msg_length m).

(** *** Frames are delivered *)

Lemma frame_len p : zlen (frame p) = 4 + zlen p.
Proof. unfold frame, le16. rewrite !zlen_app, !zlen_cons, !zlen_nil. lia. Qed.

(** Header fields of a frame lying at the read index. *)
Lemma header_fields ring r n (p u : bytes) :
  ring_bytes ring r n = [142; 173] ++ le16 (zlen p) ++ u -> 0 <= n -> zlen p < 65536 ->
  header_magic K ring r = HEADER_MAGIC_U16 /\ payload_size K ring r = zlen p.
Proof.
  intros E Hn Hp. pose proof (zlen_nonneg p). pose proof (zlen_nonneg u).
  assert (n = 4 + zlen u) as Hlen.
  { rewrite <- (ring_bytes_len ring r n), E by lia. unfold le16. cbn. unfold zlen. cbn. lia. }
  assert (forall k, 0 <= k < 4 ->
            byte_at K ring r k = u8 (nthZ ([142; 173] ++ le16 (zlen p) ++ u) k)) as B.
  { intros k Hk. unfold byte_at. by rewrite <- E, ring_bytes_nth by lia. }
  unfold header_magic, payload_size. rewrite !B by lia. split; [done |].
  change (nthZ ([142; 173] ++ le16 (zlen p) ++ u) 3) with (zlen p / 256 mod 256).
  change (nthZ ([142; 173] ++ le16 (zlen p) ++ u) 2) with (zlen p mod 256).
  rewrite Z.shiftl_mul_pow2 by lia. pose proof (le16_get (zlen p) ltac:(lia)) as L.
  change (2 ^ 8) with 256. pose proof (u8_range (zlen p mod 256)).
  pose proof (u8_range (zlen p / 256 mod 256)). rewrite u16_small by lia. lia.
Qed.

Lemma frame_header_prefix ring r n p t t' :
  ring_bytes ring r n = t -> frame p = t ++ t' -> 4 <= n -> zlen p < 65536 ->
  header_magic K ring r = HEADER_MAGIC_U16 /\ payload_size K ring r = zlen p.
Proof.
  intros E Hfr Hn Hp.
  assert (exists u, t = [142; 173] ++ le16 (zlen p) ++ u) as [u Hu].
  { assert (4 <= zlen t) as Hl by (rewrite <- E, ring_bytes_len; lia).
    exists (drop 4 t). unfold frame, le16 in *.
    destruct t as [|a [|b [|c [|d t]]]]; unfold zlen in Hl; cbn in Hl; try lia.
    cbn in Hfr. by injection Hfr as <- <- <- <- _. }
  apply (header_fields ring r n p u); [by rewrite E | lia | done].
Qed.

Lemma frame_header ring r n p rest :
  ring_bytes ring r n = frame p ++ rest -> 0 <= n -> zlen p < 65536 ->
  header_magic K ring r = HEADER_MAGIC_U16 /\ payload_size K ring r = zlen p.
Proof.
  unfold frame. rewrite <- !app_assoc. apply header_fields.
Qed.

(** A frame followed by less than its header or payload. *)
Definition partial_frame (t : bytes) : Prop :=
  exists p t', sendable p /\ frame p = t ++ t' /\ t' <> [].

Lemma parse_frames ring wr : 0 <= wr < N -> forall ps t fuel rd q,
  0 <= rd < N -> used_bytes K rd wr < Z.of_nat fuel ->
  ring_bytes ring rd (used_bytes K rd wr) = concat (frame <$> ps) ++ t ->
  Forall sendable ps -> t = [] \/ partial_frame t ->
  (length q + length ps <= UART_QUEUE_LEN)%nat ->
  exists rd' ms, parse_loop K fuel ring rd wr q = Some (rd', q ++ ms) /\
    message_bytes ring <$> ms = ps /\ 0 <= rd' < N /\
    ring_bytes ring rd' (used_bytes K rd' wr) = t.
Proof.
  intros Hw ps. pose proof ring_size_pos.
  induction ps as [|p ps IH]; intros t fuel rd q Hr Hf E Hps Ht Hq;
    pose proof (used_range rd wr Hr Hw) as Hu;
    pose proof (f_equal zlen E) as El; rewrite ring_bytes_len, zlen_app in El by lia;
    (destruct fuel as [|f]; [lia |]); cbn [parse_loop].
  - exists rd, []. rewrite app_nil_r. cbn in E.
    destruct (Z.eqb_spec rd wr) as [-> | Hne]; [done |].
    destruct Ht as [-> | (p & t' & [Hp1 Hp2] & Hfr & Ht')].
    { exfalso. change (zlen (concat (frame <$> []) : bytes)) with 0 in El. rewrite (@zlen_nil Z) in El.
      apply Hne, (used_0 rd wr Hr Hw). lia. }
    change (zlen (concat (frame <$> []) : bytes)) with 0 in El.
    pose proof (f_equal zlen Hfr) as Hl. rewrite frame_len, zlen_app in Hl.
    assert (0 < zlen t') by (pose proof (zlen_nonneg t'); destruct t'; [done | rewrite zlen_cons in *; pose proof (zlen_nonneg t'); lia]).
    unfold UART_MESSAGE_HEADER_SIZE.
    destruct (Z.ltb_spec (used_bytes K rd wr) 4) as [L | L].
    { bfalse (4 <? used_bytes K rd wr). done. }
    assert (header_magic K ring rd = HEADER_MAGIC_U16 /\ payload_size K ring rd = zlen p) as [-> ->].
    { apply (frame_header_prefix ring rd (used_bytes K rd wr) p t t'); try done; lia. }
    rewrite Z.eqb_refl. bfalse (zlen p + 4 <=? used_bytes K rd wr).
    btrue (4 <=? used_bytes K rd wr). btrue (used_bytes K rd wr <? zlen p + 4).
    rewrite !andb_false_r. done.
  - apply Forall_cons in Hps as [[Hp1 Hp2] Hps].
    change (concat (frame <$> (p :: ps))) with (frame p ++ concat (frame <$> ps)) in *.
    rewrite <- app_assoc in E.
    rewrite zlen_app, frame_len in El. pose proof (zlen_nonneg (concat (frame <$> ps))).
    pose proof (zlen_nonneg t).
    destruct (Z.eqb_spec rd wr) as [-> | Hne].
    { exfalso. rewrite used_bytes_mod, Z.sub_diag, Zmod_0_l in El by lia. lia. }
    destruct (frame_header ring rd (used_bytes K rd wr) p _ E ltac:(lia) ltac:(lia)) as [-> ->].
    unfold UART_MESSAGE_HEADER_SIZE. btrue (4 <? used_bytes K rd wr).
    btrue (zlen p + 4 <=? used_bytes K rd wr). rewrite Z.eqb_refl. cbn [andb].
    rewrite <- Z.add_assoc.
    pose proof (used_advance rd wr (zlen p + 4) Hr Hw ltac:(lia)) as U.
    replace (used_bytes K rd wr) with ((zlen p + 4) + used_bytes K ((rd + (zlen p + 4)) mod N) wr) in E by lia.
    assert (0 <= used_bytes K ((rd + (zlen p + 4)) mod N) wr) by lia.
    rewrite ring_bytes_split in E by lia.
    apply app_inj_1 in E as [E1 E2].
    2: { pose proof (frame_len p) as FL. unfold zlen in FL.
         assert (zlen (ring_bytes ring rd (zlen p + 4)) = zlen p + 4) as RL by (apply ring_bytes_len; lia).
         unfold zlen in *. lia. }
    assert ((length q < UART_QUEUE_LEN)%nat) as Hql by (cbn in Hq; lia).
    unfold msgq_put. replace (length q <? UART_QUEUE_LEN)%nat with true by (symmetry; by apply Nat.ltb_lt).
    destruct (IH t f ((rd + (zlen p + 4)) mod N) (q ++ [UartMessage ((rd + 4) mod N) (zlen p)]))
      as (rd' & ms & P & M & R & T); try done.
    + apply Z.mod_pos_bound. lia.
    + lia.
    + rewrite length_app. cbn in *. lia.
    + exists rd', (UartMessage ((rd + 4) mod N) (zlen p) :: ms).
      rewrite <- app_assoc in P. split; [exact P |]. split; [| done]. cbn. f_equal; [| done].
      unfold message_bytes. cbn. rewrite Z.add_comm, ring_bytes_split in E1 by lia.
      unfold frame in E1. rewrite app_assoc in E1. apply app_inj_1 in E1 as [_ E1]; [done |].
      done.
Qed.
End Parsing.

(** ** Properties *)

(** Both indices unset, or both inside the ring. *)
Definition uart_wf (K : Z) (s : uart_state) : Prop :=
  (read_index s = SIZE_MAX /\ write_index s = SIZE_MAX) \/
  (0 <= read_index s < ring_size K /\ 0 <= write_index s < ring_size K).

(** The read index the parser starts from. *)
Definition parse_start (s : uart_state) (offset : Z) : Z :=
  if (read_index s =? SIZE_MAX) && (write_index s =? SIZE_MAX) then offset else read_index s.
Definition parse_end (K : Z) (s : uart_state) (offset len : Z) : Z :=
  ((if (read_index s =? SIZE_MAX) && (write_index s =? SIZE_MAX) then offset
    else write_index s) + len) mod ring_size K.

Lemma parse_start_range K s offset : 3 <= K <= 31 -> uart_wf K s ->
  0 <= offset < ring_size K -> 0 <= parse_start s offset < ring_size K.
Proof.
  unfold parse_start. intros HK [[-> ->] | [H1 H2]] Ho; [done |].
  pose proof (ring_size_le K HK). unfold SIZE_MAX.
  by bfalse (read_index s =? 4294967295).
Qed.

(** The receive interrupt handler always returns, whatever bytes are in the
    ring: the parsing loop needs at most one turn per byte of the ring, and it
    leaves both indices inside the ring. *)
Theorem uart_event_terminates K ring offset len s :
  3 <= K <= 31 -> uart_wf K s -> 0 <= offset < ring_size K ->
  exists s', uart_event_callback K ring (UART_RX_RDY offset len) s = Some s' /\
    0 <= read_index s' < ring_size K /\ 0 <= write_index s' < ring_size K.
Proof.
  intros HK W Ho. pose proof (ring_size_pos K HK) as HN.
  pose proof (parse_start_range K s offset HK W Ho) as Hs. unfold uart_event_callback.
  fold (parse_start s offset). fold (parse_end K s offset len).
  assert (0 <= parse_end K s offset len < ring_size K) as He by (apply Z.mod_pos_bound; lia).
  destruct (parse_loop_total K HK ring (parse_end K s offset len) He (S (Z.to_nat (ring_size K)))
              (parse_start s offset) (uart_recv_queue s) Hs) as (rd' & q' & -> & R & _).
  { pose proof (used_range K HK _ _ Hs He). lia. }
  cbn. by eexists.
Qed.

(** C29: every complete frame in the unread part of the ring is delivered.
    When the bytes between the read index and the new write index are whole
    frames (non-empty payloads, at most as many as the queue has room for)
    followed by nothing or by the beginning of another frame, the handler
    queues one message per frame, in order, each designating exactly its
    payload even where it wraps around the ring, and keeps the beginning of the
    unfinished frame for the next interrupt: how the driver cuts the stream
    into interrupts does not matter. *)
Theorem uart_frames_delivered K ring offset len s ps t :
  3 <= K <= 31 -> uart_wf K s -> 0 <= offset < ring_size K ->
  Forall sendable ps -> t = [] \/ partial_frame t ->
  (length (uart_recv_queue s) + length ps <= UART_QUEUE_LEN)%nat ->
  ring_bytes K ring (parse_start s offset)
    (used_bytes K (parse_start s offset) (parse_end K s offset len)) = concat (frame <$> ps) ++ t ->
  exists ms rd', uart_event_callback K ring (UART_RX_RDY offset len) s =
      Some (UartState rd' (parse_end K s offset len) (uart_recv_queue s ++ ms)) /\
    message_bytes K ring <$> ms = ps /\
    ring_bytes K ring rd' (used_bytes K rd' (parse_end K s offset len)) = t.
Proof.
  intros HK W Ho Hps Ht Hq E. pose proof (ring_size_pos K HK) as HN.
  pose proof (parse_start_range K s offset HK W Ho) as Hs. unfold uart_event_callback.
  fold (parse_start s offset). fold (parse_end K s offset len).
  assert (0 <= parse_end K s offset len < ring_size K) as He by (apply Z.mod_pos_bound; lia).
  destruct (parse_frames K HK ring _ He ps t (S (Z.to_nat (ring_size K)))
              (parse_start s offset) (uart_recv_queue s) Hs) as (rd' & ms & -> & M & _ & T);
    [pose proof (used_range K HK _ _ Hs He); lia | done | done | done | done |].
  cbn. by exists ms, rd'.
Qed.

(** A 16-byte ring holding the frame of [7; 8; 9] across its end and the first
    two bytes of another one. *)
Definition ring16 : bytes := [0; 7; 8; 9; 142; 173; 0; 0; 0; 0; 0; 0; 0; 142; 173; 3].
Definition at13 : uart_state := UartState 13 13 [].

Lemma uart_event_terminates_witness :
  exists s', uart_event_callback 4 ring16 (UART_RX_RDY 0 9) at13 = Some s' /\
    0 <= read_index s' < ring_size 4 /\ 0 <= write_index s' < ring_size 4.
Proof.
  apply (uart_event_terminates 4 ring16 0 9 at13); [lia | | by split].
  right. by repeat split.
Defined.

Lemma uart_frames_delivered_witness :
  exists ms rd', uart_event_callback 4 ring16 (UART_RX_RDY 0 9) at13 =
      Some (UartState rd' (parse_end 4 at13 0 9) ([] ++ ms)) /\
    message_bytes 4 ring16 <$> ms = [[7; 8; 9]] /\
    ring_bytes 4 ring16 rd' (used_bytes 4 rd' (parse_end 4 at13 0 9)) = [142; 173].
Proof.
  apply (uart_frames_delivered 4 ring16 0 9 at13 [[7; 8; 9]] [142; 173]).
  - lia.
  - right. by repeat split.
  - by split.
  - constructor; [| constructor]. split; [by split |].
    repeat (constructor; [by split |]). constructor.
  - right. exists [7], [1; 0; 7]. split; [| by split].
    split; [by split |]. constructor; [by split | constructor].
  - unfold UART_QUEUE_LEN. cbn. lia.
  - vm_compute. reflexivity.
Defined.

(** A frame whose length field cannot fit the ring blocks the receiver:
    while its header stays at the read index, no interrupt moves the read index
    and no message is queued, whatever else arrives. *)
Theorem uart_oversized_frame_stalls K ring offset len s :
  3 <= K <= 31 -> 0 <= read_index s < ring_size K -> 0 <= write_index s < ring_size K ->
  header_magic K ring (read_index s) = HEADER_MAGIC_U16 ->
  ring_size K <= payload_size K ring (read_index s) + UART_MESSAGE_HEADER_SIZE ->
  uart_event_callback K ring (UART_RX_RDY offset len) s =
    Some (UartState (read_index s) ((write_index s + len) mod ring_size K) (uart_recv_queue s)).
Proof.
  intros HK Hr Hw Hm Hl. pose proof (ring_size_pos K HK) as HN. pose proof (ring_size_le K HK).
  unfold uart_event_callback, SIZE_MAX. bfalse (read_index s =? 4294967295). cbn [andb].
  set (wr' := (write_index s + len) mod ring_size K).
  assert (0 <= wr' < ring_size K) as He by (apply Z.mod_pos_bound; lia).
  cbn [parse_loop]. pose proof (used_range K HK _ _ Hr He) as Hu.
  destruct (read_index s =? wr'); [done |].
  unfold UART_MESSAGE_HEADER_SIZE in *. rewrite Hm, Z.eqb_refl.
  bfalse (payload_size K ring (read_index s) + 4 <=? used_bytes K (read_index s) wr').
  btrue (used_bytes K (read_index s) wr' <? payload_size K ring (read_index s) + 4).
  rewrite !andb_false_r, !andb_true_r.
  destruct (Z.ltb_spec (used_bytes K (read_index s) wr') 4); [done |].
  btrue (4 <=? used_bytes K (read_index s) wr'). done.
Qed.

Definition ring8_big : bytes := [142; 173; 4; 0; 1; 2; 3; 0].

Lemma uart_oversized_frame_stalls_witness :
  uart_event_callback 3 ring8_big (UART_RX_RDY 0 3) (UartState 0 4 []) = Some (UartState 0 7 []).
Proof.
  apply (uart_oversized_frame_stalls 3 ring8_big 0 3 (UartState 0 4 []));
    [lia | by split | by split | reflexivity | vm_compute; discriminate].
Defined.

(** An empty message is delivered only when more bytes follow it at once. *)
Example uart_empty_frame_dropped :
  uart_event_callback 4 (frame [] ++ fill 12 0) (UART_RX_RDY 0 4) uart_init_state
  = Some (UartState 1 4 []).
Proof. vm_compute. reflexivity. Qed.
