(* ===== verification/Can.v ===== *)
(** lib/can_messaging: the CAN transmit path (canbus_tx.c), ISO-TP addressing
    and reassembly (can_messaging.h, canbus_rx_isotp.c), the raw receive loop
    (canbus_rx.c) and the bus monitor (can_messaging.c).

    The transmit path is a step relation: callers of [can_messaging_async_tx],
    the TX thread, the completion interrupt and re-initialisation interleave
    freely.  The message buffers live in a memory slab, so that aliasing of a
    buffer is visible in the model. *)

From S2P Require Import Prelude.

Definition CAN_FRAME_MAX_SIZE : Z := 64.
Definition TX_QUEUE_SIZE : nat := 32. (* CONFIG_ORB_LIB_CANBUS_TX_QUEUE_SIZE *)
Definition ENETUNREACH : Z := 114.

Record can_message := CanMessage { destination : Z; payload : bytes }.

(** CAN controller states, in the order of Zephyr's [enum can_state]. *)
Inductive can_state :=
| CAN_STATE_ERROR_ACTIVE
| CAN_STATE_ERROR_WARNING
| CAN_STATE_ERROR_PASSIVE
| CAN_STATE_BUS_OFF
| CAN_STATE_STOPPED.

#[export] Instance can_state_eq_dec : EqDecision can_state.
Proof. solve_decision. Defined.

(** ** canbus_tx.c *)

(** A queued message: its bytes are in the slab block [tm_block]. *)
Record tx_msg := TxMsg { tm_dest : Z; tm_block : nat; tm_size : Z }.

(** Where the TX thread is in [process_tx_messages_thread]. *)
Inductive tx_phase :=
| WaitSem                        (* k_sem_take(&tx_sem, 5 s) *)
| WaitMsg                        (* k_msgq_get(..., K_FOREVER) *)
| HaveMsg (m : tx_msg)           (* before send *)
| AfterSend (m : tx_msg) (ret : Z). (* before k_mem_slab_free *)

(** What reaches the controller: identifier, DLC, data field. *)
Record can_frame := CanFrame { frame_id : Z; frame_dlc : Z; frame_data : bytes }.

Record tx_state := TxState {
  is_init : bool;
  slab_free : list nat;          (* free blocks, last freed first *)
  slab_mem : gmap nat bytes;     (* content of the blocks *)
  tx_queue : list tx_msg;
  tx_sem : Z;
  phase : tx_phase;
  reset_submitted : bool;        (* can_reset_work *)
  wire : list can_frame;
}.

Definition set_phase (p : tx_phase) (s : tx_state) : tx_state :=
  TxState (is_init s) (slab_free s) (slab_mem s) (tx_queue s) (tx_sem s) p
    (reset_submitted s) (wire s).
Definition tx_sem_give (s : tx_state) : tx_state :=
  TxState (is_init s) (slab_free s) (slab_mem s) (tx_queue s) (Z.min 1 (tx_sem s + 1)) (phase s)
    (reset_submitted s) (wire s).
Definition slab_put (b : nat) (s : tx_state) : tx_state :=
  TxState (is_init s) (b :: slab_free s) (slab_mem s) (tx_queue s) (tx_sem s) (phase s)
    (reset_submitted s) (wire s).
Definition submit_reset (s : tx_state) : tx_state :=
  TxState (is_init s) (slab_free s) (slab_mem s) (tx_queue s) (tx_sem s) (phase s)
    true (wire s).

Definition tx_boot : tx_state := TxState false [] ∅ [] 1 WaitSem false [].

Definition mem_read (s : tx_state) (b : nat) (n : Z) : bytes :=
  slice 0 n (default [] (slab_mem s !! b)).

(** [canbus_tx_init]'s critical section (the thread itself is created once).  A
    TX thread waiting for a message is woken with an error by the purge and
    gives the semaphore back. *)
Definition canbus_tx_init (can_dev : bool) (s : tx_state) : Z * tx_state :=
  if negb can_dev then (RET_ERROR_NOT_FOUND, s)
  else
    let s1 := TxState true (seq 0 TX_QUEUE_SIZE) (slab_mem s) [] (Z.min 1 (tx_sem s + 1)) (phase s)
                (reset_submitted s) (wire s) in
    (RET_SUCCESS, match phase s with
                  | WaitMsg => set_phase WaitSem (tx_sem_give s1)
                  | _ => s1
                  end).

(** [can_messaging_async_tx]; [bus] is what [can_get_state] reports.  The 200 ms
    waits for a block and for queue space have run out when they fail. *)
Definition can_messaging_async_tx (bus : can_state) (m : can_message) (s : tx_state)
  : Z * tx_state :=
  if negb (is_init s) then (RET_ERROR_INVALID_STATE, s)
  else if bool_decide (bus = CAN_STATE_BUS_OFF) || bool_decide (bus = CAN_STATE_STOPPED)
  then (RET_ERROR_INVALID_STATE, submit_reset s)
  else if CAN_FRAME_MAX_SIZE <? zlen (payload m) then (RET_ERROR_INVALID_PARAM, s)
  else
    match slab_free s with
    | [] => (RET_ERROR_NO_MEM, s)
    | b :: rest =>
        let mem := <[b := splice 0 (payload m) (default (fill CAN_FRAME_MAX_SIZE 0) (slab_mem s !! b))]>
                     (slab_mem s) in
        if (length (tx_queue s) <? TX_QUEUE_SIZE)%nat then
          (RET_SUCCESS,
           TxState (is_init s) rest mem
             (tx_queue s ++ [TxMsg (destination m) b (zlen (payload m))])
             (tx_sem s) (phase s) (reset_submitted s) (wire s))
        else
          (RET_ERROR_BUSY,
           TxState (is_init s) (b :: rest) mem (tx_queue s) (tx_sem s) (phase s)
             (reset_submitted s) (wire s))
    end.

Section Thread.
(** Zephyr's [can_bytes_to_dlc]. *)
Context (can_bytes_to_dlc : Z -> Z).

(** The frame [send] builds: the payload in a zeroed 64-byte data field. *)
Definition make_frame (dest : Z) (data : bytes) : can_frame :=
  CanFrame dest (can_bytes_to_dlc (zlen data)) (data ++ fill (CAN_FRAME_MAX_SIZE - zlen data) 0).

(** [send]; [ret] is what [can_send] answers. *)
Definition send (ret : Z) (dest : Z) (data : bytes) (s : tx_state) : Z * tx_state :=
  let s1 := TxState (is_init s) (slab_free s) (slab_mem s) (tx_queue s) (tx_sem s) (phase s)
              (reset_submitted s) (wire s ++ [make_frame dest data]) in
  (ret, if ret =? - ENETUNREACH then submit_reset s1 else s1).

(** One turn of [process_tx_messages_thread] up to its next blocking or
    preemption point; [ret] is the answer of [can_send] when it is called.  In
    [WaitSem] with no semaphore the 5 s timeout has elapsed; in [WaitMsg] with
    an empty queue the thread stays blocked. *)
Definition tx_thread_step (ret : Z) (s : tx_state) : tx_state :=
  match phase s with
  | WaitSem =>
      if 0 <? tx_sem s then
        set_phase WaitMsg
          (TxState (is_init s) (slab_free s) (slab_mem s) (tx_queue s) (tx_sem s - 1) (phase s)
             (reset_submitted s) (wire s))
      else tx_sem_give s
  | WaitMsg =>
      match tx_queue s with
      | [] => s
      | m :: q => TxState (is_init s) (slab_free s) (slab_mem s) q (tx_sem s) (HaveMsg m)
                    (reset_submitted s) (wire s)
      end
  | HaveMsg m =>
      let '(r, s1) := send ret (tm_dest m) (mem_read s (tm_block m) (tm_size m)) s in
      set_phase (AfterSend m r) s1
  | AfterSend m r =>
      let s1 := set_phase WaitSem (slab_put (tm_block m) s) in
      if r =? RET_SUCCESS then s1 else tx_sem_give s1
  end.

(** [can_messaging_blocking_tx]. *)
Definition can_messaging_blocking_tx (in_isr : bool) (bus : can_state) (ret mcu_to_jetson : Z)
  (m : can_message) (s : tx_state) : Z * tx_state :=
  if in_isr then (RET_ERROR_FORBIDDEN, s)
  else if bool_decide (bus = CAN_STATE_BUS_OFF) || bool_decide (bus = CAN_STATE_STOPPED)
  then (RET_ERROR_INVALID_STATE, s)
  else send ret mcu_to_jetson (payload m) s.

(** *** Interleavings *)

Inductive tx_event :=
| EvAsync (bus : can_state) (m : can_message)  (* a caller *)
| EvThread (ret : Z)                           (* the TX thread runs *)
| EvComplete                                   (* tx_complete_cb *)
| EvInit.                                      (* canbus_tx_init from the reset work *)

Definition tx_step (s : tx_state) (e : tx_event) : tx_state :=
  match e with
  | EvAsync bus m => (can_messaging_async_tx bus m s).2
  | EvThread ret => tx_thread_step ret s
  | EvComplete => tx_sem_give s
  | EvInit => (canbus_tx_init true s).2
  end.

(** The message the event made the module accept. *)
Definition accepted (s : tx_state) (e : tx_event) : list can_message :=
  match e with
  | EvAsync bus m => if (can_messaging_async_tx bus m s).1 =? RET_SUCCESS then [m] else []
  | _ => []
  end.

Fixpoint tx_run (s : tx_state) (es : list tx_event) : tx_state * list can_message :=
  match es with
  | [] => (s, [])
  | e :: es =>
      let '(s', ms) := tx_run (tx_step s e) es in
      (s', accepted s e ++ ms)
  end.
End Thread.

(** Blocks owned by the thread, and by the queue. *)
Definition phase_blocks (p : tx_phase) : list nat :=
  match p with HaveMsg m | AfterSend m _ => [tm_block m] | _ => [] end.
Definition owned_blocks (s : tx_state) : list nat :=
  slab_free s ++ (tm_block <$> tx_queue s) ++ phase_blocks (phase s).

(** The message a queue entry stands for. *)
Definition denote (s : tx_state) (m : tx_msg) : can_message :=
  CanMessage (tm_dest m) (mem_read s (tm_block m) (tm_size m)).

(** Accepted but not yet handed to the controller, oldest first. *)
Definition pending (s : tx_state) : list can_message :=
  match phase s with HaveMsg m => [denote s m] | _ => [] end ++ (denote s <$> tx_queue s).

Section Resets.
Context (can_bytes_to_dlc : Z -> Z).

(** The reset work never re-creates the slab while the thread owns a block of it,
    between taking a message and giving its block back. *)
Fixpoint quiet_inits (s : tx_state) (es : list tx_event) : Prop :=
  match es with
  | [] => True
  | e :: es => (e = EvInit -> phase_blocks (phase s) = []) /\ quiet_inits (tx_step can_bytes_to_dlc s e) es
  end.

(** The messages that were waiting when the module was re-initialised. *)
Fixpoint purged (s : tx_state) (es : list tx_event) : list can_message :=
  match es with
  | [] => []
  | e :: es => match e with EvInit => pending s | _ => [] end ++ purged (tx_step can_bytes_to_dlc s e) es
  end.
End Resets.

(** ** The transmit invariant *)

Section TxInvariant.
Context (can_bytes_to_dlc : Z -> Z).

Abbreviation step := (tx_step can_bytes_to_dlc).
Definition frame_of (m : can_message) : can_frame :=
  make_frame can_bytes_to_dlc (destination m) (payload m).

(** Every block has one owner, and a queued message lies inside its block. *)
Definition msg_ok (s : tx_state) (m : tx_msg) : Prop :=
  0 <= tm_size m <= CAN_FRAME_MAX_SIZE /\
  exists c, slab_mem s !! tm_block m = Some c /\ zlen c = CAN_FRAME_MAX_SIZE.

Record tx_inv (s : tx_state) : Prop := TxInv {
  inv_owned : NoDup (owned_blocks s);
  inv_count : (length (owned_blocks s) <= TX_QUEUE_SIZE)%nat;
  inv_mem : forall b c, slab_mem s !! b = Some c -> zlen c = CAN_FRAME_MAX_SIZE;
  inv_msgs : Forall (msg_ok s) (tx_queue s);
  inv_phase : match phase s with HaveMsg m => msg_ok s m | _ => True end;
}.

(** Changing the semaphore, the wire or the reset flag keeps the invariant. *)
Lemma tx_inv_same s s' :
  tx_inv s -> slab_free s' = slab_free s -> slab_mem s' = slab_mem s ->
  tx_queue s' = tx_queue s -> phase s' = phase s -> tx_inv s'.
Proof.
  intros [] E1 E2 E3 E4. unfold owned_blocks in *.
  split; unfold owned_blocks, msg_ok in *; rewrite ?E1, ?E2, ?E3, ?E4; done.
Qed.

Lemma pending_same s s' :
  slab_mem s' = slab_mem s -> tx_queue s' = tx_queue s -> phase s' = phase s ->
  pending s' = pending s.
Proof.
  intros E1 E2 E3. unfold pending, denote, mem_read. by rewrite E1, E2, E3.
Qed.

Lemma mem_read_insert s s' b c k n :
  slab_mem s' = <[b := c]> (slab_mem s) -> k <> b -> mem_read s' k n = mem_read s k n.
Proof. intros E Hk. unfold mem_read. by rewrite E, lookup_insert_ne. Qed.

(** What accepting a message does. *)
Lemma async_accept s bus m : tx_inv s ->
  (can_messaging_async_tx bus m s).1 = RET_SUCCESS ->
  exists b rest c,
    slab_free s = b :: rest /\ zlen (payload m) <= CAN_FRAME_MAX_SIZE /\
    zlen c = CAN_FRAME_MAX_SIZE /\ slice 0 (zlen (payload m)) c = payload m /\
    (can_messaging_async_tx bus m s).2 =
      TxState (is_init s) rest (<[b := c]> (slab_mem s))
        (tx_queue s ++ [TxMsg (destination m) b (zlen (payload m))])
        (tx_sem s) (phase s) (reset_submitted s) (wire s).
Proof.
  intros I. unfold can_messaging_async_tx. pose proof (zlen_nonneg (payload m)).
  destruct (is_init s); [| done]. cbn [negb].
  destruct (_ || _); [done |].
  destruct (Z.ltb_spec CAN_FRAME_MAX_SIZE (zlen (payload m))) as [L | L]; [done |].
  destruct (slab_free s) as [|b rest] eqn:F; [done |].
  destruct (length (tx_queue s) <? TX_QUEUE_SIZE)%nat; [| done]. intros _.
  set (old := default (fill CAN_FRAME_MAX_SIZE 0) (slab_mem s !! b)).
  assert (zlen old = CAN_FRAME_MAX_SIZE) as Hold.
  { unfold old. destruct (slab_mem s !! b) eqn:E; [by apply (inv_mem s I b) |].
    by apply zlen_fill. }
  exists b, rest, (splice 0 (payload m) old). split; [done |]. split; [done |].
  split; [rewrite zlen_splice; lia |]. split; [| done].
  unfold splice. cbn [Z.to_nat take app].
  pose proof (slice_app_mid 0 (zlen (payload m)) [] (payload m)
    (drop (0 + length (payload m)) old) eq_refl eq_refl) as E. exact E.
Qed.

(** Every other answer leaves the buffers, the queue and the thread alone. *)
Lemma async_refuse s bus m : tx_inv s ->
  (can_messaging_async_tx bus m s).1 <> RET_SUCCESS ->
  let s' := (can_messaging_async_tx bus m s).2 in
  slab_free s' = slab_free s /\ tx_queue s' = tx_queue s /\ phase s' = phase s /\
  wire s' = wire s /\ slab_mem s' = slab_mem s.
Proof.
  intros I. unfold can_messaging_async_tx.
  destruct (is_init s); [| done]. cbn [negb]. destruct (_ || _); [done |].
  destruct (_ <? _); [done |]. destruct (slab_free s) as [|b rest] eqn:F; [done |].
  destruct (Nat.ltb_spec (length (tx_queue s)) TX_QUEUE_SIZE) as [L | L]; [done |].
  exfalso. pose proof (inv_count s I) as C. unfold owned_blocks in C.
  rewrite F, !length_app, length_fmap in C. cbn in C. lia.
Qed.

Lemma async_inv s bus m : tx_inv s -> tx_inv (can_messaging_async_tx bus m s).2.
Proof.
  intros I. destruct (Z.eq_dec (can_messaging_async_tx bus m s).1 RET_SUCCESS) as [E | E].
  2: { destruct (async_refuse s bus m I E) as (E1 & E2 & E3 & E4 & E5).
       by apply (tx_inv_same s). }
  destruct (async_accept s bus m I E) as (b & rest & c & F & L & C & R & ->).
  pose proof I as [I1 I2 I3 I4 I5]. unfold owned_blocks in I1, I2. rewrite F in I1, I2.
  assert (forall k, msg_ok s k -> msg_ok
    (TxState (is_init s) rest (<[b := c]> (slab_mem s))
        (tx_queue s ++ [TxMsg (destination m) b (zlen (payload m))])
        (tx_sem s) (phase s) (reset_submitted s) (wire s)) k) as Mok.
  { intros k [K1 [c' [K2 K3]]]. split; [done |]. cbn.
    destruct (decide (tm_block k = b)) as [-> | Hne].
    - exists c. by rewrite lookup_insert_eq.
    - exists c'. by rewrite lookup_insert_ne. }
  assert (Permutation ((b :: rest) ++ (tm_block <$> tx_queue s) ++ phase_blocks (phase s))
    (rest ++ (tm_block <$> tx_queue s ++ [TxMsg (destination m) b (zlen (payload m))]) ++
       phase_blocks (phase s))) as P.
  { rewrite fmap_app. cbn. rewrite <- (app_assoc (tm_block <$> tx_queue s)). cbn.
    rewrite (Permutation_middle rest). f_equiv. apply Permutation_middle. }
  split; unfold owned_blocks; cbn [slab_free tx_queue phase slab_mem].
  - by rewrite <- P.
  - by rewrite <- P.
  - intros k c' Hk. destruct (decide (k = b)) as [-> | Hne].
    + rewrite lookup_insert_eq in Hk. by injection Hk as <-.
    + rewrite lookup_insert_ne in Hk by done. by apply (I3 k).
  - apply Forall_app. split.
    + eapply Forall_impl; [exact I4 | exact Mok].
    + constructor; [| constructor]. split; [pose proof (zlen_nonneg (payload m)); cbn; lia |].
      exists c. cbn. by rewrite lookup_insert_eq.
  - destruct (phase s); try done. by apply Mok.
Qed.

Lemma async_pending s bus m : tx_inv s ->
  let s' := (can_messaging_async_tx bus m s).2 in
  wire s' = wire s /\
  pending s' = pending s ++
    (if (can_messaging_async_tx bus m s).1 =? RET_SUCCESS then [m] else []).
Proof.
  intros I. cbn zeta. destruct (Z.eqb_spec (can_messaging_async_tx bus m s).1 RET_SUCCESS) as [E | E].
  2: { destruct (async_refuse s bus m I E) as (E1 & E2 & E3 & E4 & E5).
       rewrite app_nil_r. split; [done |]. by apply pending_same. }
  destruct (async_accept s bus m I E) as (b & rest & c & F & L & C & R & ->).
  split; [done |]. pose proof (inv_owned s I) as ND. unfold owned_blocks in ND. rewrite F in ND.
  cbn in ND. apply NoDup_cons in ND as [Hb _]. rewrite !elem_of_app in Hb.
  set (s' := TxState _ _ _ _ _ _ _ _).
  assert (forall k, tm_block k <> b -> denote s' k = denote s k) as Hd.
  { intros k Hk. unfold denote. f_equal. by apply (mem_read_insert s s' b c). }
  unfold pending. change (phase s') with (phase s).
  change (tx_queue s') with (tx_queue s ++ [TxMsg (destination m) b (zlen (payload m))]).
  rewrite fmap_app, <- app_assoc. f_equal.
  - destruct (phase s) as [| | k | k r] eqn:P; try done. rewrite Hd; [done |].
    intros Hk. apply Hb. right. right. rewrite <- Hk. cbn. by constructor.
  - f_equal.
    + apply list_fmap_ext. intros i k Hk. apply Hd. intros Hkb. apply Hb. right. left.
      apply list_elem_of_fmap. exists k. split; [by rewrite Hkb |]. by apply list_elem_of_lookup_2 with i.
    + cbn. unfold denote, mem_read, s'. cbn. rewrite lookup_insert_eq. cbn. rewrite R.
      by destruct m.
Qed.

(** The thread: invariant and bookkeeping. *)
Lemma thread_inv ret s : tx_inv s -> tx_inv (tx_thread_step can_bytes_to_dlc ret s).
Proof.
  intros I. unfold tx_thread_step. destruct (phase s) as [| | m | m r] eqn:P.
  - destruct (0 <? tx_sem s); [| by apply (tx_inv_same s)].
    destruct I as [I1 I2 I3 I4 I5]. unfold owned_blocks in *. rewrite P in *.
    by split.
  - destruct (tx_queue s) as [|m q] eqn:Q; [done |].
    destruct I as [I1 I2 I3 I4 I5]. unfold owned_blocks in *. rewrite P, Q in *.
    apply Forall_cons in I4 as [I4 I4'].
    assert (Permutation (slab_free s ++ (tm_block <$> m :: q) ++ phase_blocks WaitMsg)
              (slab_free s ++ (tm_block <$> q) ++ [tm_block m])) as Pm.
    { cbn. rewrite app_nil_r. f_equiv. apply Permutation_cons_append. }
    split; unfold owned_blocks; cbn [slab_free tx_queue phase slab_mem phase_blocks]; try done.
    + by rewrite <- Pm.
    + by rewrite <- Pm.
  - unfold send. destruct I as [I1 I2 I3 I4 I5]. unfold owned_blocks in *. rewrite P in *.
    destruct (ret =? - ENETUNREACH); by split.
  - assert (tx_inv (set_phase WaitSem (slab_put (tm_block m) s))) as I'.
    { destruct I as [I1 I2 I3 I4 I5]. unfold owned_blocks in *. rewrite P in *.
      assert (Permutation (slab_free s ++ (tm_block <$> tx_queue s) ++ phase_blocks (AfterSend m r))
                ((tm_block m :: slab_free s) ++ (tm_block <$> tx_queue s) ++ [])) as Pm.
      { cbn. rewrite app_nil_r, app_assoc. symmetry. apply Permutation_cons_append. }
      split; unfold owned_blocks; cbn [slab_free tx_queue phase slab_mem phase_blocks set_phase slab_put];
        try done.
      - by rewrite <- Pm.
      - by rewrite <- Pm. }
    destruct (r =? RET_SUCCESS); [done |]. by apply (tx_inv_same _ _ I').
Qed.

(** What a step hands to the controller comes off the front of what waits. *)
Lemma thread_pending ret s :
  let s' := tx_thread_step can_bytes_to_dlc ret s in
  exists sent, wire s' = wire s ++ (frame_of <$> sent) /\ pending s = sent ++ pending s'.
Proof.
  unfold tx_thread_step, pending. destruct (phase s) as [| | m | m r] eqn:P.
  - exists []. destruct (0 <? tx_sem s); cbn; rewrite app_nil_r; [done |]. by rewrite P.
  - exists []. destruct (tx_queue s) as [|m q] eqn:Q; cbn; rewrite app_nil_r; [by rewrite P, Q |]. done.
  - exists [denote s m]. unfold send. by destruct (ret =? - ENETUNREACH).
  - exists []. by destruct (r =? RET_SUCCESS); cbn; rewrite app_nil_r.
Qed.

Lemma step_spec s e : tx_inv s -> e <> EvInit ->
  tx_inv (step s e) /\
  exists sent, wire (step s e) = wire s ++ (frame_of <$> sent) /\
    pending s ++ accepted s e = sent ++ pending (step s e).
Proof.
  intros I He. destruct e as [bus m | ret | |]; cbn [tx_step accepted]; try done.
  - split; [by apply async_inv |]. exists []. cbn. rewrite app_nil_r.
    by destruct (async_pending s bus m I) as [-> ->].
  - split; [by apply thread_inv |]. rewrite app_nil_r. apply thread_pending.
  - split; [by apply (tx_inv_same s) |]. exists []. cbn. by rewrite !app_nil_r.
Qed.

(** A re-initialisation while the thread owns no block drops what waits. *)
Lemma init_spec s : tx_inv s -> phase_blocks (phase s) = [] ->
  tx_inv (step s EvInit) /\ wire (step s EvInit) = wire s /\ pending (step s EvInit) = [].
Proof.
  intros [_ _ I3 _ _] Hp. cbn [tx_step]. unfold canbus_tx_init. cbn [negb snd].
  assert (NoDup (seq 0 TX_QUEUE_SIZE)) as ND by apply NoDup_seq.
  destruct (phase s) as [| | m | m r] eqn:P; try done; unfold pending; cbn; rewrite ?P;
    (split; [| done]); split; unfold owned_blocks; cbn [slab_free tx_queue phase slab_mem set_phase tx_sem_give];
    rewrite ?P; cbn [phase_blocks fmap list_fmap app]; rewrite ?app_nil_r, ?length_seq; done.
Qed.
End TxInvariant.

(** ** ISO-TP addressing: can_messaging.h *)

Definition CAN_ADDR_IS_ISOTP : Z := 256.
Definition CAN_ADDR_IS_DEST : Z := 512.
Definition CAN_ADDR_SOURCE_ID_POS : Z := 4.
Definition CAN_ISOTP_STDID_DESTINATION (src dest : Z) : Z :=
  Z.lor (Z.lor (Z.lor CAN_ADDR_IS_ISOTP CAN_ADDR_IS_DEST) (Z.shiftl src CAN_ADDR_SOURCE_ID_POS)) dest.
Definition CAN_ISOTP_STDID_SOURCE (src dest : Z) : Z :=
  Z.lor (Z.lor CAN_ADDR_IS_ISOTP (Z.shiftl src CAN_ADDR_SOURCE_ID_POS)) dest.

Definition CAN_ISOTP_REMOTE_ID : Z := 8.
Definition CAN_ISOTP_LOCAL_ID : Z := 1.
Definition CAN_ISOTP_REMOTE_APP_COUNT : Z := 7.

(** The addresses [bind_to_remotes] binds for each application. *)
Definition bind_to_remotes : list (Z * Z) :=
  (fun k => let app_id := Z.of_nat k in
     (CAN_ISOTP_STDID_DESTINATION (CAN_ISOTP_REMOTE_ID + app_id) CAN_ISOTP_LOCAL_ID,
      CAN_ISOTP_STDID_SOURCE (CAN_ISOTP_REMOTE_ID + app_id) CAN_ISOTP_LOCAL_ID))
  <$> seq 0 (S (Z.to_nat CAN_ISOTP_REMOTE_APP_COUNT)).

(** The source address the ISO-TP transmit thread derives from a destination:
    [new.destination & ~CAN_ADDR_IS_DEST]. *)
Definition isotp_source_of (destination : Z) : Z := Z.ldiff destination CAN_ADDR_IS_DEST.

(** ** ISO-TP reassembly: jetson_to_mcu_rx_thread *)

Definition CAN_ISOTP_MAX_SIZE_BYTES : Z := 1024.

(** What [isotp_recv_net] yields: an error, or the bytes still to come and a
    segment. *)
Inductive isotp_recv := RecvErr (ret : Z) | RecvSeg (rem_len : Z) (seg : bytes).

(** The receiving loop; [buffer] are the bytes stored so far.  The result is
    what the handler is called with ([None]: not called); the source of
    segments is the list [rs]. *)
Fixpoint isotp_collect (rs : list isotp_recv) (buffer : bytes) : option bytes :=
  match rs with
  | [] => None
  | RecvErr _ :: _ => None
  | RecvSeg rem_len seg :: rs =>
      let buffer' := if zlen buffer + zlen seg <=? CAN_ISOTP_MAX_SIZE_BYTES
                     then buffer ++ seg else buffer in
      if 0 <? rem_len then isotp_collect rs buffer'
      else if rem_len =? 0 then Some buffer' else None
  end.

(** ** Raw reception: one turn of the loop of canbus_rx.c's rx_thread

    [k_poll] reports which of the two queues have data; at most one frame of
    each is handled, the Jetson queue first. *)
Definition take_frame {A} (avail : bool) (q : list A) : list A * list A :=
  if avail then match q with [] => ([], []) | f :: q => ([f], q) end else ([], q).

Definition canbus_rx_turn {A} (avail0 avail1 : bool) (recv mcu : list A) : list A * (list A * list A) :=
  let '(h0, recv') := take_frame avail0 recv in
  let '(h1, mcu') := take_frame avail1 mcu in
  (h0 ++ h1, (recv', mcu')).

(** [canbus_rx_init] and [canbus_isotp_rx_init] share their guards; the result
    says whether the receive thread was created. *)
Definition canbus_rx_init (in_handler can_dev ready : bool) : Z * bool :=
  if negb in_handler then (RET_ERROR_INVALID_PARAM, false)
  else if negb can_dev then (RET_ERROR_NOT_FOUND, false)
  else if negb ready then (RET_ERROR_BUSY, false)
  else (RET_SUCCESS, true).

Definition canbus_isotp_rx_init (in_handler can_dev ready : bool) : Z * bool :=
  canbus_rx_init in_handler can_dev ready.

(** ** Bus monitor: can_monitor_thread *)

Definition CAN_MONITOR_INITIAL_INTERVAL_MS : Z := 10000.
Definition CAN_MONITOR_ERROR_STATE_INTERVAL_MS : Z := 2000.

Record monitor := Monitor { off_recover_count : Z; delay : Z }.

(** One turn: the new monitor state, and whether the TX queues were reset.
    [None] is a hard assertion (the MCU restarts). *)
Definition can_monitor_turn (st : can_state) (start_ret : Z) (m : monitor)
  : option (monitor * bool) :=
  match st with
  | CAN_STATE_BUS_OFF =>
      if negb (start_ret =? - EALREADY) && negb (start_ret =? 0) then None
      else
        let n := u32 (off_recover_count m + 1) in
        if 10 <? n then None
        else Some (Monitor n CAN_MONITOR_ERROR_STATE_INTERVAL_MS, true)
  | CAN_STATE_ERROR_ACTIVE | CAN_STATE_ERROR_WARNING | CAN_STATE_STOPPED =>
      Some (Monitor 0 CAN_MONITOR_INITIAL_INTERVAL_MS, false)
  | CAN_STATE_ERROR_PASSIVE =>
      Some (Monitor (off_recover_count m) CAN_MONITOR_ERROR_STATE_INTERVAL_MS, false)
  end.

Fixpoint can_monitor_run (sts : list can_state) (m : monitor) : option monitor :=
  match sts with
  | [] => Some m
  | st :: sts => '(m', _) ← can_monitor_turn st 0 m; can_monitor_run sts m'
  end.

(** [can_messaging_reset_async]: handler registered, result of k_work_submit. *)
Definition can_messaging_reset_async (handler_set : bool) (submit_ret : Z) : Z :=
  if handler_set && (submit_ret <? 0) then RET_ERROR_INTERNAL
  else if negb handler_set then RET_ERROR_INVALID_STATE
  else RET_SUCCESS.

(** The final status of [can_messaging_init]: the driver's answers to
    can_set_mode and can_start, and the or of the layers' codes. *)
Definition can_messaging_init (can_dev in_handler ready : bool) (set_mode_ret start_ret : Z) : Z :=
  if negb can_dev then RET_ERROR_NOT_INITIALIZED
  else if negb (set_mode_ret =? 0) then set_mode_ret
  else
    let err := Z.lor (Z.lor (canbus_rx_init in_handler can_dev ready).1
                            (canbus_isotp_rx_init in_handler can_dev ready).1)
                     (canbus_tx_init can_dev tx_boot).1 in
    if err =? 0 then start_ret else RET_ERROR_INTERNAL.

(** ** Properties *)

(** The transmit module once initialised. *)
Definition tx_ready : tx_state := (canbus_tx_init true tx_boot).2.

Lemma tx_ready_inv : tx_inv tx_ready.
Proof.
  split; unfold owned_blocks.
  - cbn. apply (bool_decide_unpack _). vm_compute. exact I.
  - cbn. unfold TX_QUEUE_SIZE. lia.
  - intros b c. cbn. by rewrite lookup_empty.
  - constructor.
  - done.
Qed.

Lemma tx_run_spec dlc es : forall s,
  tx_inv s -> quiet_inits dlc s es ->
  let '(s', acc) := tx_run dlc s es in
  tx_inv s' /\
  exists kept, wire s' ++ (frame_of dlc <$> pending s') = wire s ++ (frame_of dlc <$> kept) /\
    kept `sublist_of` (pending s ++ acc) /\ pending s ++ acc ≡ₚ kept ++ purged dlc s es.
Proof.
  induction es as [|e es IH]; intros s I Hes; cbn [tx_run purged].
  - split; [done |]. exists (pending s). by rewrite !app_nil_r.
  - destruct Hes as [Hq Hes]. assert (e = EvInit \/ e <> EvInit) as [-> | He] by (destruct e; auto).
    + destruct (init_spec dlc s I (Hq eq_refl)) as (I' & Ew & Ep). specialize (IH _ I' Hes).
      destruct (tx_run dlc _ es) as [s' ms]. destruct IH as (I'' & kept & E & Hsub & Hperm).
      rewrite Ep in Hsub, Hperm. cbn [app accepted] in *. split; [done |].
      exists kept. rewrite E, Ew. split; [done |]. split; [by apply sublist_inserts_l |].
      rewrite Hperm. by rewrite !app_assoc, (Permutation_app_comm (pending s)).
    + destruct (step_spec dlc s e I He) as (I' & sent & Ew & Ep). specialize (IH _ I' Hes).
      destruct (tx_run dlc _ es) as [s' ms]. destruct IH as (I'' & kept & E & Hsub & Hperm).
      split; [done |]. exists (sent ++ kept).
      assert (match e with EvInit => pending s | _ => [] end = []) as -> by (by destruct e).
      rewrite E, Ew, fmap_app, (assoc_L (++) (pending s)), Ep, <- !(assoc_L (++)). split; [done |].
      split; [by apply sublist_app |]. cbn [app]. by rewrite Hperm.
Qed.


Definition msg_a : can_message := CanMessage 128 [1; 2; 3].
Definition msg_b : can_message := CanMessage 129 [9].


(** Re-initialising the transmit path while a message is in flight breaks
    [can_tx_fifo_intact].  When [can_send] fails with ENETUNREACH the reset work it submits
    re-creates the slab, and the thread then frees its block a second time: the
    next two accepted messages share one buffer, and both frames carry the
    bytes of the second message. *)
Theorem can_tx_reset_aliases_buffers dlc :
  let '(s, acc) := tx_run dlc tx_ready
    [EvAsync CAN_STATE_ERROR_ACTIVE (CanMessage 128 [7]); EvThread 0; EvThread 0;
     EvThread (- ENETUNREACH); EvInit; EvThread 0;
     EvAsync CAN_STATE_ERROR_ACTIVE (CanMessage 128 [1]);
     EvAsync CAN_STATE_ERROR_ACTIVE (CanMessage 128 [2]);
     EvThread 0; EvThread 0; EvThread 0; EvThread 0; EvComplete;
     EvThread 0; EvThread 0; EvThread 0] in
  payload <$> acc = [[7]; [1]; [2]] /\
  (fun f => take 1 (frame_data f)) <$> wire s = [[7]; [2]; [2]].
Proof. vm_compute. done. Qed.

(** The fields of an ISO-TP identifier, as a boolean. *)
Definition stdid_check (src dest : Z) : bool :=
  let id := CAN_ISOTP_STDID_DESTINATION src dest in
  (0 <=? id) && (id <? 2 ^ 11) && (id mod 16 =? dest) && (id / 16 mod 16 =? src) &&
  (isotp_source_of id =? CAN_ISOTP_STDID_SOURCE src dest).

(** ISO-TP identifiers are 11-bit, keep the two 4-bit addresses apart, and
    a message's source identifier is its destination identifier with the
    destination bit cleared, as the transmit thread computes it; hence distinct
    address pairs get distinct identifiers. *)
Theorem isotp_stdid_fields src dest :
  0 <= src < 16 -> 0 <= dest < 16 ->
  let id := CAN_ISOTP_STDID_DESTINATION src dest in
  0 <= id < 2 ^ 11 /\ id mod 16 = dest /\ id / 16 mod 16 = src /\
  isotp_source_of id = CAN_ISOTP_STDID_SOURCE src dest.
Proof.
  intros Hs Hd. cbn zeta.
  pose proof (all_below_spec 16 (fun s => all_below 16 (stdid_check s)) ltac:(vm_compute; reflexivity)
    src Hs) as C.
  apply (all_below_spec 16 _ C dest) in Hd. unfold stdid_check in Hd.
  rewrite !andb_true_iff, Z.leb_le, Z.ltb_lt, !Z.eqb_eq in Hd. tauto.
Qed.

Lemma isotp_stdid_fields_witness :
  let id := CAN_ISOTP_STDID_DESTINATION 8 1 in
  0 <= id < 2 ^ 11 /\ id mod 16 = 1 /\ id / 16 mod 16 = 8 /\
  isotp_source_of id = CAN_ISOTP_STDID_SOURCE 8 1.
Proof. apply (isotp_stdid_fields 8 1); lia. Defined.

Lemma bind_to_remotes_distinct : NoDup (fst <$> bind_to_remotes) /\ length bind_to_remotes = 8%nat.
Proof. split; [apply (bool_decide_unpack _); vm_compute; exact I | done]. Qed.

(** A well-formed reception: segments with bytes still to come, then the last. *)
Definition segments (first : list (Z * bytes)) (last : bytes) : list isotp_recv :=
  ((fun '(r, s) => RecvSeg r s) <$> first) ++ [RecvSeg 0 last].

Lemma isotp_collect_segments first last buffer :
  Forall (fun '(r, _) => 0 < r) first ->
  zlen buffer + zlen (concat (snd <$> first)) + zlen last <= CAN_ISOTP_MAX_SIZE_BYTES ->
  isotp_collect (segments first last) buffer = Some (buffer ++ concat (snd <$> first) ++ last).
Proof.
  revert buffer. induction first as [|[r s] first IH]; intros buffer Hf Hl;
    unfold segments; cbn [fmap list_fmap app isotp_collect concat snd] in *;
    pose proof (zlen_nonneg last).
  - change (zlen (@nil Z)) with 0 in Hl.
    by btrue (zlen buffer + zlen last <=? CAN_ISOTP_MAX_SIZE_BYTES).
  - apply Forall_cons in Hf as [Hr Hf]. rewrite zlen_app in Hl.
    pose proof (zlen_nonneg (concat (snd <$> first))). pose proof (zlen_nonneg s).
    btrue (zlen buffer + zlen s <=? CAN_ISOTP_MAX_SIZE_BYTES). btrue (0 <? r).
    fold (segments first last). rewrite IH; [| done | rewrite zlen_app; lia].
    by rewrite <- !app_assoc.
Qed.

(** ISO-TP reassembly delivers a message of at most 1024 bytes exactly,
    however it is cut into segments, and delivers nothing when the reception
    ends with an error. *)
Theorem isotp_reassembly_exact first last err :
  Forall (fun '(r, _) => 0 < r) first ->
  zlen (concat (snd <$> first)) + zlen last <= CAN_ISOTP_MAX_SIZE_BYTES ->
  isotp_collect (segments first last) [] = Some (concat (snd <$> first) ++ last) /\
  isotp_collect (((fun '(r, s) => RecvSeg r s) <$> first) ++ [RecvErr err]) [] = None.
Proof.
  intros Hf Hl. split.
  - by rewrite isotp_collect_segments.
  - clear Hl. generalize ([] : bytes) as buffer.
    induction Hf as [|[r s] first Hr Hf IH]; intros buffer; [done |]. cbn.
    btrue (0 <? r). apply IH.
Qed.

Lemma isotp_reassembly_exact_witness :
  isotp_collect (segments [(3, [1; 2]); (1, [3])] [4]) [] = Some [1; 2; 3; 4] /\
  isotp_collect [RecvSeg 3 [1; 2]; RecvSeg 1 [3]; RecvErr (-1)] [] = None.
Proof.
  apply (isotp_reassembly_exact [(3, [1; 2]); (1, [3])] [4] (-1)).
  - repeat constructor; lia.
  - vm_compute. discriminate.
Defined.

(** A segment that does not fit is dropped, and the rest still delivered. *)
Example isotp_oversize_delivers_a_hole :
  isotp_collect (segments [(101, fill 1000 1); (1, fill 100 2)] [3]) []
  = Some (fill 1000 1 ++ [3]).
Proof. vm_compute. reflexivity. Qed.

(** The bus monitor survives ten bus-off recoveries in a row and asserts
    (restarting the MCU) on the eleventh; a return to error-active,
    error-warning or stopped forgives the past, error-passive does not. *)
Theorem can_monitor_gives_up n m :
  off_recover_count m = 0 ->
  (exists m', can_monitor_run (replicate n CAN_STATE_BUS_OFF) m = Some m') <-> (n <= 10)%nat.
Proof.
  intros Hm.
  assert (forall k m, 0 <= off_recover_count m <= 10 ->
    ((exists m', can_monitor_run (replicate k CAN_STATE_BUS_OFF) m = Some m') <->
     (Z.of_nat k + off_recover_count m <= 10))) as G.
  { clear. intros k. induction k as [|k IH]; intros m Hm; cbn [replicate can_monitor_run].
    - split; [lia | by eexists].
    - unfold can_monitor_turn. change (negb (0 =? - EALREADY) && negb (0 =? 0)) with false.
      cbv iota zeta. rewrite u32_small by lia.
      destruct (Z.ltb_spec 10 (off_recover_count m + 1)) as [L | L]; cbv iota.
      + split; [intros [? ?]; done | lia].
      + cbn [mbind option_bind]. rewrite IH by (cbn; lia). cbn [off_recover_count]. lia. }
  rewrite G by lia. lia.
Qed.

Lemma can_monitor_gives_up_witness :
  (exists m', can_monitor_run (replicate 10 CAN_STATE_BUS_OFF) (Monitor 0 10000) = Some m') <->
  (10 <= 10)%nat.
Proof. apply (can_monitor_gives_up 10 (Monitor 0 10000)). reflexivity. Defined.
