(* ===== verification/Dfu.v ===== *)
(** lib/dfu/dfu.c: reception of a firmware image in blocks, its flash writes,
    its check and its activation.

    One producer ([dfu_load]) and one consumer ([process_dfu_blocks_thread])
    share [dfu_state] under two semaphores.  The secondary slot is a flash area
    of the [Flash] interface; the block size of the protocol
    (DFU_BLOCK_SIZE_MAX, from the generated mcu.pb.h), the sector size 2^SL,
    the layout of the mcuboot image header and the mcuboot calls are
    parameters. *)

From S2P Require Import Prelude Flash.

Definition DFU_BLOCKS_WRITE_SIZE : Z := 64.

Inductive dfu_state_e := DFU_IN_PROGRESS | DFU_FINISHED_VERIFY.

#[export] Instance dfu_state_e_eq_dec : EqDecision dfu_state_e.
Proof. solve_decision. Defined.

(** [struct dfu_state_t]; [dfu_cb] says whether a callback is registered. *)
Record dfu_state_t := DfuState {
  dfu_bytes : bytes;
  wr_idx : Z;
  block_number : Z;
  block_count : Z;
  flash_offset : Z;
  expected_crc32 : Z;
  dfu_cb : bool;
  state : dfu_state_e;
}.

Section Dfu.
Context (DFU_BLOCK_SIZE_MAX SL : Z).

Definition DFU_BLOCKS_BUFFER_MIN_SIZE : Z := DFU_BLOCKS_WRITE_SIZE - 1 + DFU_BLOCK_SIZE_MAX.
Definition DFU_BLOCKS_BUFFER_SIZE : Z :=
  DFU_BLOCKS_BUFFER_MIN_SIZE + 8 - DFU_BLOCKS_BUFFER_MIN_SIZE mod 8.
Definition DFU_FLASH_SECTOR_SIZE : Z := 2 ^ SL.

(** [(offset & SECTOR_MASK) + DFU_FLASH_SECTOR_SIZE]. *)
Definition NEXT_SECTOR_BOUNDARY (offset : Z) : Z :=
  Z.land offset (Z.lnot (DFU_FLASH_SECTOR_SIZE - 1)) + DFU_FLASH_SECTOR_SIZE.

(** The zeroed state. *)
Definition dfu_zero : dfu_state_t :=
  DfuState (fill DFU_BLOCKS_BUFFER_SIZE 0) 0 0 0 0 0 false DFU_IN_PROGRESS.

Section Operations.
Context {D : Type} `{FlashDriver D}.

Record dfu_sys := DfuSys {
  dfu : dfu_state_t;
  sem_dfu_free_space : Z;
  sem_dfu_full : Z;
  thread_created : bool;
  secondary : D;
}.

Definition dfu_boot (d : D) : dfu_sys := DfuSys dfu_zero 1 0 false d.

(** The parameter check at the top of [dfu_load]. *)
Definition dfu_load_bad_param (current_block_number block_count_ size : Z) (s : dfu_state_t) : bool :=
  (negb (current_block_number =? 0) &&
   negb (current_block_number =? u32 (block_number s + 1))) ||
  (block_count_ <? current_block_number) || (DFU_BLOCK_SIZE_MAX <? size) ||
  (DFU_BLOCKS_BUFFER_SIZE <? size) ||
  ((block_count s =? 0) && negb (current_block_number =? 0)).

(** The state once the block is accepted for copying. *)
Definition dfu_start_block (current_block_number block_count_ : Z) (s : dfu_state_t) : dfu_state_t :=
  if current_block_number =? 0
  then DfuState (dfu_bytes s) 0 0 block_count_ 0 0 (dfu_cb s) DFU_IN_PROGRESS
  else DfuState (dfu_bytes s) (wr_idx s) current_block_number (block_count s) (flash_offset s)
         (expected_crc32 s) (dfu_cb s) (state s).

(** [dfu_load(current_block_number, block_count, data, size, ctx, process_cb)]
    with [size = zlen data]. *)
Definition dfu_load (current_block_number block_count_ : Z) (data : bytes) (process_cb : bool)
  (s : dfu_sys) : Z * dfu_sys :=
  if dfu_load_bad_param current_block_number block_count_ (zlen data) (dfu s)
  then (RET_ERROR_INVALID_PARAM, s)
  else if sem_dfu_free_space s =? 0 then (RET_ERROR_BUSY, s)
  else
    let st := dfu_start_block current_block_number block_count_ (dfu s) in
    let created := thread_created s || (current_block_number =? 0) in
    let free := sem_dfu_free_space s - 1 in
    if DFU_BLOCKS_BUFFER_SIZE <? wr_idx st + zlen data
    then (RET_ERROR_NO_MEM,
          DfuSys st (Z.min 1 (free + 1)) (sem_dfu_full s) created (secondary s))
    else
      let st' := DfuState (splice (wr_idx st) data (dfu_bytes st)) (wr_idx st + zlen data)
                   (block_number st) (block_count st) (flash_offset st) (expected_crc32 st)
                   process_cb (state st) in
      if (DFU_BLOCKS_WRITE_SIZE <=? wr_idx st') || (block_number st' =? u32 (block_count st' - 1))
      then (- EINPROGRESS,
            DfuSys st' free (Z.min 1 (sem_dfu_full s + 1)) created (secondary s))
      else (RET_SUCCESS,
            DfuSys st' (Z.min 1 (free + 1)) (sem_dfu_full s) created (secondary s)).

(** *** The consumer: DFU_IN_PROGRESS *)

(** How many bytes to write, and the state with the last block padded. *)
Definition dfu_prepare (s : dfu_state_t) : Z * dfu_state_t :=
  if block_number s =? u32 (block_count s - 1) then
    let m := wr_idx s mod 8 in
    let padded := if negb (m =? 0) then splice (wr_idx s) (fill (8 - m) 255) (dfu_bytes s)
                  else dfu_bytes s in
    (if negb (m =? 0) then wr_idx s + (8 - m) else wr_idx s,
     DfuState padded (wr_idx s) (block_number s) (block_count s) (flash_offset s)
       (expected_crc32 s) (dfu_cb s) DFU_FINISHED_VERIFY)
  else (DFU_BLOCKS_WRITE_SIZE, s).

(** Erase the sector about to be entered: [None] when none is needed. *)
Definition dfu_erase_offset (offset bytes_to_write : Z) : option Z :=
  let m := offset mod DFU_FLASH_SECTOR_SIZE in
  if (m =? 0) ||
     ((DFU_BLOCKS_WRITE_SIZE <? bytes_to_write) && (DFU_FLASH_SECTOR_SIZE <? m + bytes_to_write))
  then Some (if negb (m =? 0) then NEXT_SECTOR_BOUNDARY offset else offset)
  else None.

Definition dfu_erase (d : D) (s : dfu_state_t) (bytes_to_write : Z) : Z * D :=
  match dfu_erase_offset (flash_offset s) bytes_to_write with
  | Some offset => flash_erase d offset DFU_FLASH_SECTOR_SIZE
  | None => (0, d)
  end.

(** Move what was not written to the front of the buffer. *)
Definition dfu_consume (s : dfu_state_t) (bytes_to_write : Z) : dfu_state_t :=
  let keep := bytes_to_write <=? wr_idx s in
  DfuState
    (if keep then splice 0 (slice bytes_to_write (wr_idx s - bytes_to_write) (dfu_bytes s)) (dfu_bytes s)
     else dfu_bytes s)
    (if keep then wr_idx s - bytes_to_write else 0)
    (block_number s) (block_count s) (flash_offset s + bytes_to_write)
    (expected_crc32 s) (dfu_cb s) (state s).

(** The [do ... while (0)] of the DFU_IN_PROGRESS case: error code, state and
    flash.  [None]: the progress message divides by a zero block count. *)
Definition dfu_process_block (open_ret : Z) (d : D) (s : dfu_state_t)
  : option (Z * dfu_state_t * D) :=
  if negb (open_ret =? 0) then Some (RET_ERROR_INVALID_STATE, s, d)
  else if (flash_offset s =? 0) && (flash_size d <? u32 (block_count s * DFU_BLOCK_SIZE_MAX))
  then Some (RET_ERROR_INVALID_PARAM, dfu_zero, d)
  else
    let '(n, s1) := dfu_prepare s in
    let e := dfu_erase d s1 n in
    if negb (e.1 =? 0) then Some (RET_ERROR_INTERNAL, s1, e.2)
    else if block_count s1 =? 0 then None
    else
      let w := flash_write e.2 (flash_offset s1) (slice 0 n (dfu_bytes s1)) in
      if negb (w.1 =? 0) then Some (RET_ERROR_INTERNAL, s1, w.2)
      else Some (RET_SUCCESS, dfu_consume s1 n, w.2).

(** *** Image headers

    The two header buffers and the semaphore that protects them.  [k_sem_take]
    with K_FOREVER on a taken semaphore blocks: [None]. *)

Record dfu_headers := DfuHeaders {
  primary_slot_header : bytes;
  secondary_slot_header : bytes;
  sem_headers : Z;
}.

(** The fields of mcuboot's [struct image_header] the code reads. *)
Record image_header := ImageHeader {
  ih_magic : Z; ih_hdr_size : Z; ih_img_size : Z;
  ih_major : Z; ih_minor : Z; ih_revision : Z; ih_build_num : Z;
}.

(** mcuboot: the header's layout and magic, the TLV trailer's layout and
    magics, and the swap types. *)
Record mcuboot := Mcuboot {
  parse_header : bytes -> image_header;
  HEADER_SIZE : Z;
  IMAGE_MAGIC : Z;
  parse_tlv_info : bytes -> Z * Z;   (* it_magic, it_tlv_tot *)
  TLV_INFO_SIZE : Z;
  IMAGE_TLV_INFO_MAGIC : Z;
  IMAGE_TLV_PROT_INFO_MAGIC : Z;
  BOOT_SWAP_TYPE_TEST : Z;
  BOOT_SWAP_TYPE_PERM : Z;
}.
Context (MB : mcuboot).

Definition ih_ver (h : image_header) : Z * Z * Z * Z :=
  (ih_major h, ih_minor h, ih_revision h, ih_build_num h).

Definition headers_take (h : dfu_headers) : option dfu_headers :=
  if sem_headers h =? 0 then None
  else Some (DfuHeaders (primary_slot_header h) (secondary_slot_header h) (sem_headers h - 1)).
Definition headers_give (h : dfu_headers) : dfu_headers :=
  DfuHeaders (primary_slot_header h) (secondary_slot_header h) (Z.min 1 (sem_headers h + 1)).
Definition set_primary (b : bytes) (h : dfu_headers) : dfu_headers :=
  DfuHeaders b (secondary_slot_header h) (sem_headers h).
Definition set_secondary (b : bytes) (h : dfu_headers) : dfu_headers :=
  DfuHeaders (primary_slot_header h) b (sem_headers h).

(** [dfu_version_primary_get(ih_ver)]: return code and the version written. *)
Definition dfu_version_primary_get (open_ret : Z) (primary : D) (h : dfu_headers)
  : option (Z * option (Z * Z * Z * Z) * dfu_headers) :=
  h ← headers_take h;
  let h := set_primary (fill (HEADER_SIZE MB) 0) h in
  if negb (open_ret =? 0) then Some (RET_ERROR_INTERNAL, None, headers_give h)
  else
    let r := flash_read primary 0 (primary_slot_header h) in
    let h := set_primary r.2 h in
    if negb (r.1 =? 0) then Some (RET_ERROR_INTERNAL, None, headers_give h)
    else Some (r.1, Some (ih_ver (parse_header MB r.2)), headers_give h).

Definition dfu_version_secondary_get (open_ret : Z) (d : D) (h : dfu_headers)
  : option (Z * option (Z * Z * Z * Z) * dfu_headers) :=
  h ← headers_take h;
  if negb (open_ret =? 0) then Some (RET_ERROR_INTERNAL, None, headers_give h)
  else
    let r := flash_read d 0 (secondary_slot_header h) in
    let h := set_secondary r.2 h in
    if negb (r.1 =? 0) then Some (RET_ERROR_INTERNAL, None, headers_give h)
    else
      let ih := parse_header MB r.2 in
      if (ih_build_num ih =? 4294967295) && (ih_revision ih =? 65535)
      then Some (RET_ERROR_NOT_FOUND, None, headers_give h)
      else Some (r.1, Some (ih_ver ih), headers_give h).

(** *** The image check *)

(** The CRC loop over the image by pages; [None]: a read failed. *)
Fixpoint crc_pages (fuel : nat) (page : Z) (d : D) (off img_size crc : Z) `{Crc} : option Z :=
  match fuel with
  | O => Some crc
  | S f =>
      if off <? img_size then
        let len := if img_size - off <? page then img_size - off else page in
        let r := flash_read d off (fill len 0) in
        if negb (r.1 =? 0) then None
        else crc_pages f page d (off + page) img_size (crc32_ieee_update crc r.2)
      else Some crc
  end.

(** The size of the image with its TLV trailer. *)
Definition image_size (d : D) (ih : image_header) : Z :=
  let img_size := u32 (ih_hdr_size ih + ih_img_size ih) in
  let tlv := parse_tlv_info MB (flash_read d img_size (fill (TLV_INFO_SIZE MB) 0)).2 in
  if (tlv.1 =? IMAGE_TLV_INFO_MAGIC MB) || (tlv.1 =? IMAGE_TLV_PROT_INFO_MAGIC MB)
  then u32 (img_size + tlv.2) else img_size.

(** [dfu_secondary_check(crc32)]; [page] is DFU_FLASH_PAGE_SIZE. *)
Definition dfu_secondary_check `{Crc} (page open_ret crc32 : Z) (d : D) (h : dfu_headers)
  : option (Z * dfu_headers) :=
  '(_, _, h) ← dfu_version_secondary_get open_ret d h;
  match headers_take h with
  | None => Some (RET_ERROR_BUSY, h)
  | Some h1 =>
      let ih := parse_header MB (secondary_slot_header h1) in
      let h2 := headers_give h1 in
      if ih_img_size ih =? 0 then Some (RET_ERROR_INVALID_STATE, h2)
      else if negb (open_ret =? 0) then Some (RET_ERROR_INTERNAL, h2)
      else
        let img_size := image_size d ih in
        match crc_pages (S (Z.to_nat (img_size / page))) page d 0 img_size 0 with
        | None => Some (RET_ERROR_INTERNAL, h2)
        | Some crc => Some (if negb (crc =? crc32) then RET_ERROR_INVALID_STATE else RET_SUCCESS, h2)
        end
  end.

(** [dfu_secondary_check_async(crc32, context, process_cb)].  Taking the
    semaphore may wait 10 ms. *)
Definition dfu_secondary_check_async (crc32 : Z) (process_cb : bool) (s : dfu_sys) : Z * dfu_sys :=
  if sem_dfu_free_space s =? 0 then (RET_ERROR_INVALID_STATE, s)
  else
    let free := sem_dfu_free_space s - 1 in
    if bool_decide (state (dfu s) = DFU_FINISHED_VERIFY) then
      let st := dfu s in
      (- EINPROGRESS,
       DfuSys (DfuState (dfu_bytes st) (wr_idx st) (block_number st) (block_count st)
                 (flash_offset st) crc32 process_cb (state st))
         free (Z.min 1 (sem_dfu_full s + 1)) (thread_created s) (secondary s))
    else (0, DfuSys (dfu s) (Z.min 1 (free + 1)) (sem_dfu_full s) (thread_created s) (secondary s)).

(** One turn of [process_dfu_blocks_thread]: the code the callback is given, if
    one is registered.  [None]: blocked, or the division fault. *)
Definition process_dfu_blocks_turn `{Crc} (page open_ret : Z) (s : dfu_sys) (h : dfu_headers)
  : option (option Z * dfu_sys * dfu_headers) :=
  if sem_dfu_full s =? 0 then None
  else
    let full := sem_dfu_full s - 1 in
    let free := Z.min 1 (sem_dfu_free_space s + 1) in
    match state (dfu s) with
    | DFU_IN_PROGRESS =>
        '(err, st, d) ← dfu_process_block open_ret (secondary s) (dfu s);
        Some (if dfu_cb st then Some err else None,
              DfuSys st free full (thread_created s) d, h)
    | DFU_FINISHED_VERIFY =>
        '(err, h') ← dfu_secondary_check page open_ret (expected_crc32 (dfu s)) (secondary s) h;
        Some (if dfu_cb (dfu s) then Some err else None,
              DfuSys (dfu s) free full (thread_created s) (secondary s), h')
    end.

(** *** Activation and start-up *)

(** [dfu_secondary_activate(permanent)]; [pending_ret] and [swap] are the
    answers of boot_set_pending and boot_swap_type_multi. *)
Definition dfu_secondary_activate (permanent : bool) (open_ret pending_ret swap : Z)
  (s : dfu_sys) (h : dfu_headers) : option (Z * dfu_sys * dfu_headers) :=
  '(_, _, h) ← dfu_version_secondary_get open_ret (secondary s) h;
  match headers_take h with
  | None => Some (RET_ERROR_BUSY, s, h)
  | Some h1 =>
      let ih := parse_header MB (secondary_slot_header h1) in
      let h2 := headers_give h1 in
      let img_is_valid := negb (ih_img_size ih =? 0) && negb (ih_magic ih =? IMAGE_MAGIC MB) in
      if img_is_valid then Some (RET_ERROR_INVALID_STATE, s, h2)
      else if negb (pending_ret =? 0) then Some (pending_ret, s, h2)
      else if swap <? 0 then Some (RET_ERROR_ASSERT_FAILS, s, h2)
      else if negb ((permanent && (swap =? BOOT_SWAP_TYPE_PERM MB)) ||
                    (negb permanent && (swap =? BOOT_SWAP_TYPE_TEST MB)))
      then Some (RET_ERROR_INTERNAL, s, h2)
      else Some (RET_SUCCESS,
                 DfuSys dfu_zero (sem_dfu_free_space s) (sem_dfu_full s) (thread_created s) (secondary s),
                 h2)
  end.

Definition dfu_secondary_activate_permanently := dfu_secondary_activate true.
Definition dfu_secondary_activate_temporarily := dfu_secondary_activate false.

(** [dfu_primary_is_confirmed]: results of flash_area_open and
    boot_read_image_ok, the flag read, and BOOT_FLAG_UNSET. *)
Definition dfu_primary_is_confirmed (open_ret read_ret image_ok flag_unset : Z) : bool :=
  if negb (open_ret =? 0) then false else (read_ret =? 0) && negb (image_ok =? flag_unset).

(** [dfu_init]; the partition sizes come from the devicetree. *)
Definition dfu_init (open_p open_s part_p part_s : Z) (primary d : D) (h : dfu_headers)
  : option (Z * dfu_headers) :=
  '(ret, _, h) ← dfu_version_primary_get open_p primary h;
  if negb (ret =? 0) then Some (RET_ERROR_INVALID_STATE, h)
  else
    '(_, _, h) ← dfu_version_secondary_get open_s d h;
    h ← headers_take h;
    let p := parse_header MB (primary_slot_header h) in
    let s := parse_header MB (secondary_slot_header h) in
    let zero := fill (HEADER_SIZE MB) 0 in
    if part_p <? u32 (ih_hdr_size p + ih_img_size p)
    then Some (RET_ERROR_INVALID_STATE, headers_give (set_primary zero h))
    else if negb (ih_img_size s =? 0) && negb (ih_magic s =? IMAGE_MAGIC MB)
    then Some (0, headers_give (set_secondary zero h))
    else if part_s <? u32 (ih_hdr_size s + ih_img_size s)
    then Some (0, headers_give (set_secondary zero h))
    else Some (0, headers_give h).
End Operations.
End Dfu.

(** ** Reception of an image

    The host sends block after block; when a block is queued for the thread,
    its turn runs before the next block is sent (the callback is the host's
    acknowledgement).  The codes collected are the ones the host sees. *)

Section Receive.
Context {D : Type} `{FlashDriver D} `{Crc} (BLK SL page : Z) (MB : mcuboot).

Definition dfu_block_exchange (k bc : Z) (data : bytes) (s : @dfu_sys D) (h : dfu_headers)
  : option (Z * dfu_sys * dfu_headers) :=
  let l := dfu_load BLK k bc data true s in
  if l.1 =? - EINPROGRESS then
    '(c, s', h') ← process_dfu_blocks_turn BLK SL MB page 0 l.2 h;
    Some (default (-1) c, s', h')
  else Some (l.1, l.2, h).

Fixpoint dfu_receive (k bc : Z) (blocks : list bytes) (s : @dfu_sys D) (h : dfu_headers)
  : option (list Z * dfu_sys * dfu_headers) :=
  match blocks with
  | [] => Some ([], s, h)
  | data :: rest =>
      '(c, s', h') ← dfu_block_exchange k bc data s h;
      '(cs, s'', h'') ← dfu_receive (k + 1) bc rest s' h';
      Some (c :: cs, s'', h'')
  end.

(** What is left in flash: the blocks, padded with 0xff to a double word. *)
Definition pad8 (w : bytes) : bytes :=
  w ++ fill (if zlen w mod 8 =? 0 then 0 else 8 - zlen w mod 8) 255.
End Receive.

(** ** Lemmas *)

Lemma land_lnot_mask o k : 0 <= k -> Z.land o (Z.lnot (2 ^ k - 1)) = o - o mod 2 ^ k.
Proof.
  intros. rewrite <- Z.ldiff_land.
  replace (2 ^ k - 1) with (Z.ones k) by (rewrite Z.ones_equiv; lia).
  rewrite Z.ldiff_ones_r, Z.shiftl_mul_pow2, Z.shiftr_div_pow2 by lia.
  pose proof (Z.pow_pos_nonneg 2 k ltac:(lia) ltac:(lia)).
  pose proof (Z.div_mod o (2 ^ k) ltac:(lia)). lia.
Qed.

Section ReceiveLemmas.
Context {D : Type} `{FlashLaws D wbs} `{Crc} (BLK SL : Z).
Abbreviation SEC := (2 ^ SL).
Abbreviation BUF := (DFU_BLOCKS_BUFFER_SIZE BLK).

Context (HBLK : 0 < BLK <= 64) (HSL : 7 <= SL <= 30).
Context (Hwbs : 0 < wbs) (Hw8 : 8 mod wbs = 0) (Hsec : SEC mod flash_sector = 0).

(** The flash holds [p], then an erased stretch up to a sector boundary. *)
Definition flash_holds (p : bytes) (e : Z) (d : D) : Prop :=
  exists t, flash_content d = p ++ fill e 255 ++ t /\ 0 <= e /\
    (zlen p + e) mod SEC = 0 /\ flash_size d mod SEC = 0.

Lemma sec_pos : 128 <= SEC /\ SEC mod 64 = 0 /\ SEC mod 8 = 0.
Proof.
  clear -HSL.
  replace SL with (SL - 7 + 7) by lia. rewrite Z.pow_add_r by lia.
  change (2 ^ 7) with 128. pose proof (Z.pow_pos_nonneg 2 (SL - 7) ltac:(lia) ltac:(lia)).
  split; [nia |]. split.
  - replace (2 ^ (SL - 7) * 128) with (2 ^ (SL - 7) * 2 * 64) by lia. apply Z.mod_mul. lia.
  - replace (2 ^ (SL - 7) * 128) with (2 ^ (SL - 7) * 16 * 8) by lia. apply Z.mod_mul. lia.
Qed.

Lemma buf_size : 63 + BLK < BUF <= 63 + BLK + 8 /\ BUF mod 8 = 0.
Proof.
  clear -HBLK.
  unfold DFU_BLOCKS_BUFFER_SIZE, DFU_BLOCKS_BUFFER_MIN_SIZE, DFU_BLOCKS_WRITE_SIZE. zify_div.
Qed.

Lemma next_boundary o : NEXT_SECTOR_BOUNDARY SL o = o - o mod SEC + SEC.
Proof.
  clear -HSL.
  unfold NEXT_SECTOR_BOUNDARY, DFU_FLASH_SECTOR_SIZE. rewrite land_lnot_mask by lia. lia.
Qed.

(** Erasing the sectors a write needs keeps what was written. *)
Lemma erase_ok p e d off len :
  flash_holds p e d -> zlen p <= off <= zlen p + e -> 0 <= len ->
  off mod SEC = 0 -> len mod SEC = 0 -> off + len <= flash_size d ->
  exists d', flash_erase d off len = (0, d') /\ flash_size d' = flash_size d /\
    flash_holds p (off - zlen p + len) d'.
Proof.
  intros (t & Ec & He & Hm & Hs) Ho Hl Ao Al Hb. pose proof (zlen_nonneg p).
  destruct sec_pos as (S1 & _ & _). pose proof flash_sector_pos.
  destruct (flash_erase_sectors d off len) as (d' & -> & Es & Ed); [lia.. | | |].
  1,2: by eapply mod_trans_0; [| | exact Hsec |]; [lia.. |].
  exists d'. split; [done |]. split; [done |].
  pose proof (flash_content_size d) as Z1. rewrite Ec in Z1.
  rewrite (fill_split (off - zlen p) e) in Ec by lia. rewrite <- app_assoc in Ec.
  set (r := fill (e - (off - zlen p)) 255 ++ t) in *.
  assert (zlen r = flash_size d - off) as Lr.
  { rewrite <- flash_content_size, Ec. subst r. zlen. }
  exists (drop (Z.to_nat len) r). split; [| split; [lia | split]].
  - rewrite Ed, Ec, app_assoc. rewrite <- (take_drop (Z.to_nat len) r) at 1.
    rewrite splice_app_mid; [| zlen |].
    + rewrite <- app_assoc. f_equal. rewrite fill_add by lia. by rewrite <- app_assoc.
    + rewrite zlen_fill by lia. unfold zlen in *. rewrite length_take. lia.
  - replace (zlen p + (off - zlen p + len)) with (off + len) by lia. by apply mod_add_0.
  - by rewrite Es.
Qed.

Lemma write_ok p e d src :
  flash_holds p e d -> zlen src <= e -> zlen p mod 8 = 0 -> zlen src mod 8 = 0 ->
  exists d', flash_write d (zlen p) src = (0, d') /\ flash_size d' = flash_size d /\
    flash_holds (p ++ src) (e - zlen src) d'.
Proof.
  intros (t & Ec & He & Hm & Hs) Hl Ap As. pose proof (zlen_nonneg p). pose proof (zlen_nonneg src).
  pose proof (flash_content_size d) as Z1. rewrite Ec in Z1.
  rewrite (fill_split (zlen src) e) in Ec by lia. rewrite <- app_assoc in Ec.
  destruct (flash_write_erased d (zlen p) src) as (d' & -> & Es & Ed).
  1: lia.
  1: { pose proof (zlen_nonneg t). zlen. }
  1,2: by eapply mod_trans_0; [| | exact Hw8 |]; [lia.. |].
  1: { rewrite Ec. by apply slice_app_mid; zlen. }
  exists d'. split; [done |]. split; [done |]. exists t.
  split; [| split; [lia | split]].
  - rewrite Ed, Ec, splice_app_mid; [| done | zlen]. by rewrite <- app_assoc.
  - rewrite zlen_app. by replace (zlen p + zlen src + (e - zlen src)) with (zlen p + e) by lia.
  - by rewrite Es.
Qed.

(** The erase step makes room for any write of at most 128 bytes. *)
Lemma dfu_erase_ok p e d st n :
  flash_holds p e d -> zlen p = flash_offset st -> flash_offset st mod 64 = 0 ->
  0 < n <= 128 -> flash_offset st + n <= flash_size d ->
  exists d' e', dfu_erase SL d st n = (0, d') /\ flash_size d' = flash_size d /\
    flash_holds p e' d' /\ n <= e'.
Proof.
  intros F Hp A Hn Hb. destruct sec_pos as (S1 & S64 & _). pose proof F as (t & _ & He & Hm & Hs).
  pose proof (zlen_nonneg p). set (o := flash_offset st) in *.
  unfold dfu_erase, dfu_erase_offset, DFU_BLOCKS_WRITE_SIZE, DFU_FLASH_SECTOR_SIZE. fold o.
  pose proof (Z.mod_pos_bound o SEC ltac:(lia)) as Bm.
  assert (o mod SEC = 0 -> o + SEC <= flash_size d) as Efit0.
  { intros E. apply mod_0_lt_step; [lia | done | done | lia]. }
  assert ((o mod SEC) mod 64 = 0) as M64.
  { rewrite (Z.mod_eq o SEC) by lia. apply mod_sub_0; [done |].
    rewrite Z.mul_mod, S64, Z.mul_0_l by lia. reflexivity. }
  destruct (Z.eqb_spec (o mod SEC) 0) as [E0 | E0]; simpl.
  - destruct (erase_ok p e d o SEC F) as (d' & Ee & Es & Fh);
      [lia.. | done | apply Z.mod_same; lia | auto |].
    exists d', (o - zlen p + SEC). split; [done |]. split; [done |]. split; [done |]. lia.
  - assert (SEC - o mod SEC <= e) as Hroom.
    { rewrite Hp in Hm. destruct (Z.le_gt_cases (SEC - o mod SEC) e) as [| L]; [done |].
      exfalso. pose proof (Z.div_mod o SEC ltac:(lia)).
      replace (o + e) with (o mod SEC + e + (o / SEC) * SEC) in Hm by lia.
      rewrite Z.mod_add, Z.mod_small in Hm by lia. lia. }
    assert (o mod SEC + 64 <= SEC) as H64.
    { apply mod_0_lt_step; [lia | done | done | lia]. }
    destruct (Z.ltb_spec 64 n); simpl; [destruct (Z.ltb_spec SEC (o mod SEC + n)); simpl |].
    + rewrite next_boundary.
      assert ((o - o mod SEC) mod SEC = 0) as Ab.
      { rewrite Zminus_mod, Z.mod_mod, Z.sub_diag by lia. by apply Z.mod_0_l; lia. }
      assert ((o - o mod SEC + SEC) mod SEC = 0) as An.
      { apply mod_add_0; [done | apply Z.mod_same; lia]. }
      assert (o - o mod SEC + SEC + SEC <= flash_size d) by (by apply mod_0_lt_step; [lia | .. | lia]).
      destruct (erase_ok p e d (o - o mod SEC + SEC) SEC F) as (d' & Ee & Es & Fh);
        [lia.. | done | apply Z.mod_same; lia | lia |].
      eexists d', _. split; [done |]. split; [done |]. split; [exact Fh |]. lia.
    + exists d, e. repeat split; [done | lia].
    + exists d, e. repeat split; [done | lia].
Qed.

(** One pass over the flash, for a state prepared for [n] bytes. *)
Lemma dfu_process_ok p e d st st1 n :
  flash_holds p e d -> zlen p = flash_offset st -> flash_offset st mod 64 = 0 ->
  dfu_prepare st = (n, st1) -> 0 < n <= 128 -> n mod 8 = 0 -> n <= zlen (dfu_bytes st1) ->
  flash_offset st1 = flash_offset st -> block_count st1 = block_count st ->
  block_count st <> 0 -> u32 (block_count st * BLK) <= flash_size d ->
  flash_offset st + n <= flash_size d ->
  exists d' e', dfu_process_block BLK SL 0 d st = Some (RET_SUCCESS, dfu_consume st1 n, d') /\
    flash_size d' = flash_size d /\ flash_holds (p ++ slice 0 n (dfu_bytes st1)) e' d'.
Proof.
  intros F Hp A Ep Hn A8 Hb Eo Ec Nc Hfit Hroom. pose proof (zlen_nonneg p).
  destruct (dfu_erase_ok p e d st1 n) as (d1 & e1 & Ee & Es1 & F1 & L1);
    [done | congruence | congruence | lia.. |].
  assert (zlen (slice 0 n (dfu_bytes st1)) = n) as Ls by (apply zlen_slice; lia).
  destruct (write_ok p e1 d1 (slice 0 n (dfu_bytes st1))) as (d2 & Ew & Es2 & F2); [done | lia | | by rewrite Ls |].
  { rewrite Hp. by apply (mod_trans_0 _ 64 8); [lia.. | |]. }
  exists d2, (e1 - zlen (slice 0 n (dfu_bytes st1))).
  split; [| split; [congruence | exact F2]].
  unfold dfu_process_block. simpl.
  replace ((flash_offset st =? 0) && (flash_size d <? u32 (block_count st * BLK))) with false
    by (symmetry; apply andb_false_iff; right; apply Z.ltb_ge; lia).
  rewrite Ep, Ee. simpl. rewrite Ec. bfalse (block_count st =? 0).
  rewrite Eo, <- Hp, Ew. reflexivity.
Qed.

(** *** The invariant between two blocks *)

Record dfu_ready (w : bytes) (bc : Z) (st : dfu_state_t) (d : D) : Prop := {
  rd_align : flash_offset st mod 64 = 0;
  rd_wr : 0 <= wr_idx st < 64;
  rd_buf : zlen (dfu_bytes st) = BUF;
  rd_held : exists p e, zlen p = flash_offset st /\ flash_holds p e d /\
    w = p ++ slice 0 (wr_idx st) (dfu_bytes st);
  rd_count : block_count st = bc;
  rd_state : state st = DFU_IN_PROGRESS;
}.

Lemma slice_splice_append {A} i (s l : list A) :
  0 <= i -> i + zlen s <= zlen l -> slice 0 (i + zlen s) (splice i s l) = slice 0 i l ++ s.
Proof.
  intros. unfold slice, splice, zlen in *. change (Z.to_nat 0) with 0%nat. rewrite !drop_0.
  rewrite app_assoc, take_app_le.
  - rewrite take_ge; [done |]. rewrite length_app, length_take. lia.
  - rewrite length_app, length_take. lia.
Qed.

Lemma slice_0 {A} i (l : list A) : slice i 0 l = [].
Proof. reflexivity. Qed.

Lemma slice_splice_front {A} (s l : list A) : zlen s <= zlen l -> slice 0 (zlen s) (splice 0 s l) = s.
Proof. intros. pose proof (slice_splice_append 0 s l ltac:(lia) ltac:(lia)) as E. by rewrite slice_0 in E. Qed.

Lemma pad8_app p b : zlen p mod 8 = 0 -> pad8 (p ++ b) = p ++ pad8 b.
Proof.
  intros E. unfold pad8. rewrite zlen_app.
  replace ((zlen p + zlen b) mod 8) with (zlen b mod 8).
  - by rewrite <- app_assoc.
  - rewrite (Zplus_mod (zlen p)), E, Z.add_0_l. by rewrite Z.mod_mod by lia.
Qed.

(** The state a block is copied into. *)
Definition dfu_loaded (st : dfu_state_t) (k : Z) (data : bytes) : dfu_state_t :=
  DfuState (splice (wr_idx st) data (dfu_bytes st)) (wr_idx st + zlen data) k (block_count st)
    (flash_offset st) (expected_crc32 st) true (state st).

(** What remains in the buffer after a full write, and after the last one. *)
Lemma consume_ready w bc st d p e d' e' :
  zlen p = flash_offset st -> flash_offset st mod 64 = 0 -> flash_holds p e d ->
  64 <= wr_idx st < 128 -> wr_idx st <= zlen (dfu_bytes st) -> zlen (dfu_bytes st) = BUF ->
  w = p ++ slice 0 (wr_idx st) (dfu_bytes st) -> block_count st = bc -> state st = DFU_IN_PROGRESS ->
  flash_holds (p ++ slice 0 64 (dfu_bytes st)) e' d' -> dfu_ready w bc (dfu_consume st 64) d'.
Proof.
  intros Hp A F Hw Hb1 Hb -> Hc Hs F'. pose proof buf_size.
  assert (zlen (slice 64 (wr_idx st - 64) (dfu_bytes st)) = wr_idx st - 64) as Ls
    by (apply zlen_slice; lia).
  unfold dfu_consume. btrue (64 <=? wr_idx st). split; cbn; [| lia | | | done | done].
  - apply mod_add_0; [done | reflexivity].
  - rewrite zlen_splice; [done | lia | lia].
  - exists (p ++ slice 0 64 (dfu_bytes st)), e'. split; [| split; [done |]].
    + rewrite zlen_app, zlen_slice by lia. lia.
    + rewrite <- Ls at 1. rewrite slice_splice_front by lia.
      rewrite <- app_assoc, (slice_split 0 64 (wr_idx st)) by lia. done.
Qed.

Lemma prepare_last st :
  block_number st = u32 (block_count st - 1) -> 0 <= wr_idx st ->
  wr_idx st <= zlen (dfu_bytes st) -> zlen (dfu_bytes st) mod 8 = 0 ->
  exists n st1, dfu_prepare st = (n, st1) /\ n mod 8 = 0 /\ wr_idx st <= n <= wr_idx st + 7 /\
    slice 0 n (dfu_bytes st1) = pad8 (slice 0 (wr_idx st) (dfu_bytes st)) /\
    zlen (dfu_bytes st1) = zlen (dfu_bytes st) /\ wr_idx st1 = wr_idx st /\
    flash_offset st1 = flash_offset st /\ block_count st1 = block_count st /\
    state st1 = DFU_FINISHED_VERIFY /\ dfu_cb st1 = dfu_cb st /\ block_number st1 = block_number st.
Proof.
  intros E L1 L2 L8. unfold dfu_prepare. rewrite E, Z.eqb_refl. unfold pad8.
  assert (wr_idx st mod 8 <> 0 -> wr_idx st + (8 - wr_idx st mod 8) <= zlen (dfu_bytes st)) by zify_div.
  pose proof (Z.mod_pos_bound (wr_idx st) 8 ltac:(lia)).
  eexists _, _. split; [reflexivity |]. cbn.
  rewrite zlen_slice by lia.
  destruct (Z.eqb_spec (wr_idx st mod 8) 0) as [M | M]; cbn.
  - repeat split; [done | lia | lia |]. by rewrite app_nil_r.
  - repeat split; [zify_div | lia | lia | | ].
    + rewrite <- (zlen_fill (8 - wr_idx st mod 8) 255) at 1 by lia.
      rewrite slice_splice_append by zlen. done.
    + rewrite zlen_splice; zlen.
Qed.

(** The state [dfu_load] leaves when it accepts a block. *)
Lemma dfu_load_accepts k bc data (s : @dfu_sys D) :
  0 <= k < bc -> bc < 2 ^ 32 -> zlen data <= BLK ->
  (k = 0 \/ k = u32 (block_number (dfu s) + 1) /\ block_count (dfu s) = bc) ->
  sem_dfu_free_space s = 1 -> sem_dfu_full s = 0 ->
  let st := dfu_start_block k bc (dfu s) in
  block_count st = bc -> wr_idx st < 64 ->
  dfu_load BLK k bc data true s =
  (if (64 <=? wr_idx st + zlen data) || (k =? bc - 1) then - EINPROGRESS else RET_SUCCESS,
   DfuSys (dfu_loaded st k data)
     (zbool (negb ((64 <=? wr_idx st + zlen data) || (k =? bc - 1))))
     (zbool ((64 <=? wr_idx st + zlen data) || (k =? bc - 1)))
     (thread_created s || (k =? 0)) (secondary s)).
Proof.
  intros Hk Hb Hd Hseq Hf1 Hf0 st Hc Hw. pose proof buf_size. pose proof (zlen_nonneg data).
  assert (dfu_load_bad_param BLK k bc (zlen data) (dfu s) = false) as Eb.
  { unfold dfu_load_bad_param. bfalse (bc <? k). bfalse (BLK <? zlen data). bfalse (BUF <? zlen data).
    destruct Hseq as [-> | [Ek E]]; [simpl; by rewrite andb_false_r |]. rewrite <- Ek, Z.eqb_refl, E.
    bfalse (bc =? 0). by destruct (k =? 0). }
  assert (block_number st = k) as Enum.
  { subst st. unfold dfu_start_block. by destruct (Z.eqb_spec k 0). }
  unfold dfu_load. rewrite Eb, Hf1, Hf0. cbv zeta. fold st. change (1 =? 0) with false. cbv iota.
  bfalse (BUF <? wr_idx st + zlen data). simpl wr_idx. simpl block_number. simpl block_count.
  rewrite Hc, Enum, u32_small by lia. unfold DFU_BLOCKS_WRITE_SIZE, dfu_loaded. rewrite Hc.
  by destruct ((64 <=? wr_idx st + zlen data) || (k =? bc - 1)).
Qed.

Lemma exchange_step page (MB : mcuboot) w bc k data (s : @dfu_sys D) (h : dfu_headers) :
  0 <= k < bc -> bc < 2 ^ 32 -> 0 < zlen data <= BLK ->
  (k = 0 \/ k = u32 (block_number (dfu s) + 1) /\ block_count (dfu s) = bc) ->
  sem_dfu_free_space s = 1 -> sem_dfu_full s = 0 ->
  dfu_ready w bc (dfu_start_block k bc (dfu s)) (secondary s) ->
  bc * BLK <= flash_size (secondary s) -> zlen (w ++ data) <= flash_size (secondary s) ->
  exists s', dfu_block_exchange BLK SL page MB k bc data s h = Some (RET_SUCCESS, s', h) /\
    sem_dfu_free_space s' = 1 /\ sem_dfu_full s' = 0 /\ block_number (dfu s') = k /\
    flash_size (secondary s') = flash_size (secondary s) /\
    (k < bc - 1 -> dfu_ready (w ++ data) bc (dfu s') (secondary s')) /\
    (k = bc - 1 -> state (dfu s') = DFU_FINISHED_VERIFY /\ wr_idx (dfu s') = 0 /\
       exists t, flash_content (secondary s') = pad8 (w ++ data) ++ t).
Proof.
  intros Hk Hb Hd Hseq Hf1 Hf0 R Hfit Hlen. pose proof buf_size as (B1 & B8).
  pose proof sec_pos as (S1 & _ & S8).
  set (st := dfu_start_block k bc (dfu s)) in *.
  destruct R as [Ra Rw Rb (p & e & Hp & F & ->) Rc Rs].
  unfold dfu_block_exchange. rewrite dfu_load_accepts by (fold st; assumption || lia). fold st.
  pose proof (zlen_nonneg p).
  set (b := slice 0 (wr_idx st) (dfu_bytes st)) in *.
  assert (zlen b = wr_idx st) as Lb by (apply zlen_slice; lia).
  assert (slice 0 (wr_idx st + zlen data) (splice (wr_idx st) data (dfu_bytes st)) = b ++ data) as Es
    by (apply slice_splice_append; lia).
  assert (zlen (splice (wr_idx st) data (dfu_bytes st)) = BUF) as Lz by (rewrite zlen_splice; lia).
  assert (flash_size (secondary s) mod 8 = 0) as F8.
  { destruct F as (t & _ & _ & _ & Fs). by apply (mod_trans_0 _ SEC 8); [lia.. | |]. }
  assert (u32 (bc * BLK) <= flash_size (secondary s)).
  { unfold u32. pose proof (Z.mod_le (bc * BLK) (2 ^ 32) ltac:(nia) ltac:(lia)). lia. }
  rewrite !zlen_app, Hp, Lb in Hlen.
  destruct (Z.eqb_spec k (bc - 1)) as [Ek | Ek].
  - rewrite orb_true_r. simpl fst. cbn [Z.eqb Z.opp EINPROGRESS].
    destruct (prepare_last (dfu_loaded st k data)) as
      (n & st1 & Epr & N8 & Nb & Esl & Ez & Ew & Eo & Ec & Est & Ecb & Ebn); [simpl .. |].
    { rewrite Rc, u32_small by lia. lia. }
    { lia. } { lia. } { by rewrite Lz. }
    simpl in Nb, Esl, Ez, Eo, Ec. rewrite Es in Esl.
    destruct (dfu_process_ok p e (secondary s) (dfu_loaded st k data) st1 n) as (d' & e' & Epk & Esz & F');
      simpl; try done; try lia.
    { clear -N8 Nb Hd Rw HBLK. zify_div. }
    { rewrite Ez, Lz. clear -N8 Nb Hd Rw HBLK B1 B8. zify_div. }
    { by rewrite Rc. }
    { assert (flash_offset st mod 8 = 0) by (by apply (mod_trans_0 _ 64 8); [lia.. | |]).
      destruct (Z.le_gt_cases (flash_offset st + n) (flash_size (secondary s))); [done |].
      assert (flash_size (secondary s) + 8 <= flash_offset st + n)
        by (apply mod_0_lt_step; [lia | done | by apply mod_add_0 | lia]). lia. }
    unfold process_dfu_blocks_turn. simpl. rewrite Rs, Epk. simpl.
    rewrite Ecb. simpl.
    eexists. split; [reflexivity |]. simpl. split; [done |]. split; [done |]. split; [done |].
    split; [done |]. split; [lia |]. intros _. split; [done |]. split.
    + simpl in Ew. destruct (Z.leb_spec n (wr_idx st1)); lia.
    + destruct F' as (t & Et & _). exists (fill e' 255 ++ t).
      rewrite Et, Esl, <- (app_assoc p b data), (pad8_app p (b ++ data)); [by rewrite <- !app_assoc |].
      rewrite Hp. by apply (mod_trans_0 _ 64 8); [lia.. | |].
  - rewrite orb_false_r. destruct (Z.leb_spec 64 (wr_idx st + zlen data)) as [L | L].
    + simpl fst. cbn [Z.eqb Z.opp EINPROGRESS].
      assert (dfu_prepare (dfu_loaded st k data) = (64, dfu_loaded st k data)) as Epr.
      { unfold dfu_prepare. cbn [block_number block_count dfu_loaded].
        rewrite Rc, u32_small by lia. by bfalse (k =? bc - 1). }
      destruct (dfu_process_ok p e (secondary s) (dfu_loaded st k data) (dfu_loaded st k data) 64)
        as (d' & e' & Epk & Esz & F'); cbn [dfu_loaded dfu_bytes flash_offset block_count];
        try done; try lia.
      { by rewrite Rc. }
      unfold process_dfu_blocks_turn. simpl. rewrite Rs, Epk. simpl.
      eexists. split; [reflexivity |]. simpl. split; [done |]. split; [done |]. split; [done |].
      split; [done |]. split; [| lia]. intros _.
      apply (consume_ready _ bc (dfu_loaded st k data) (secondary s) p e d' e'); simpl; try done; try lia.
      by rewrite Es, app_assoc.
    + eexists. split; [reflexivity |]. simpl. split; [done |]. split; [done |]. split; [done |].
      split; [done |]. split; [| lia]. intros _. split; simpl; [done | lia | done | | done | done].
      exists p, e. split; [done |]. split; [done |]. by rewrite Es, app_assoc.
Qed.

Lemma ready_next w bc k st d :
  k <> 0 -> dfu_ready w bc st d -> dfu_ready w bc (dfu_start_block k bc st) d.
Proof. intros Hk []. unfold dfu_start_block. bfalse (k =? 0). by split. Qed.

Lemma receive_from page (MB : mcuboot) bc blocks : forall w k (s : @dfu_sys D) h,
  blocks <> [] -> bc = k + zlen blocks -> 0 <= k -> bc < 2 ^ 32 ->
  Forall (fun b => 0 < zlen b <= BLK) blocks -> zlen w <= k * BLK ->
  bc * BLK <= flash_size (secondary s) ->
  (k = 0 \/ k = u32 (block_number (dfu s) + 1) /\ block_count (dfu s) = bc) ->
  sem_dfu_free_space s = 1 -> sem_dfu_full s = 0 ->
  dfu_ready w bc (dfu_start_block k bc (dfu s)) (secondary s) ->
  exists s', dfu_receive BLK SL page MB k bc blocks s h =
      Some (replicate (length blocks) RET_SUCCESS, s', h) /\
    sem_dfu_free_space s' = 1 /\ sem_dfu_full s' = 0 /\
    state (dfu s') = DFU_FINISHED_VERIFY /\ wr_idx (dfu s') = 0 /\
    exists t, flash_content (secondary s') = pad8 (w ++ concat blocks) ++ t.
Proof.
  induction blocks as [| b rest IH]; [done |].
  intros w k s h _ Hbc Hk Hu Hall Hw Hfit Hseq Hf1 Hf0 R. rewrite zlen_cons in Hbc.
  apply Forall_cons in Hall as [Hb Hall]. pose proof (zlen_nonneg rest).
  destruct (exchange_step page MB w bc k b s h) as (s1 & E1 & F1 & F0 & N1 & Z1 & Hmid & Hlast);
    [lia | done | done | done | done | done | done | done | rewrite zlen_app; nia |].
  simpl. rewrite E1. cbn [mbind option_bind].
  destruct (decide (rest = [])) as [-> | Hne].
  - destruct Hlast as (V & W & t & T); [rewrite Hbc; zlen |].
    exists s1. cbn. rewrite app_nil_r. repeat split; try done. by exists t.
  - assert (k < bc - 1) as Hlt.
    { destruct rest; [done |]. rewrite zlen_cons in *. pose proof (zlen_nonneg rest). lia. }
    destruct (IH (w ++ b) (k + 1) s1 h) as (s2 & E2 & G1 & G0 & V & W & t & T);
      [done | lia | lia | done | done | rewrite zlen_app; nia | by rewrite Z1 | | done | done | |].
    + right. rewrite N1, u32_small by lia. split; [done |]. apply (rd_count _ _ _ _ (Hmid Hlt)).
    + apply ready_next; [lia | auto].
    + exists s2. rewrite E2. cbn. repeat split; try done. exists t. by rewrite T, <- app_assoc.
Qed.
End ReceiveLemmas.

(** ** Theorems *)

(** C2: A firmware image sent in blocks is written to the secondary slot
    exactly: from any state in which no block is in flight, and whatever the
    slot held, every [dfu_load] and every write of the thread succeeds, no
    block is refused for lack of buffer, each sector is erased before it is
    written, and at the end the slot starts with the concatenation of the
    blocks, padded with 0xff to a double word; the state is then
    DFU_FINISHED_VERIFY with an empty buffer. *)
Theorem dfu_image_written {D : Type} `{FlashLaws D wbs} `{Crc} (BLK SL page : Z) (MB : mcuboot)
  (blocks : list bytes) (s : @dfu_sys D) (h : dfu_headers)
  (HBLK : 0 < BLK <= 64) (HSL : 7 <= SL <= 30) (Hwbs : 0 < wbs) (Hw8 : 8 mod wbs = 0)
  (Hsec : 2 ^ SL mod flash_sector = 0) (Hsize : flash_size (secondary s) mod 2 ^ SL = 0)
  (Hbuf : zlen (dfu_bytes (dfu s)) = DFU_BLOCKS_BUFFER_SIZE BLK)
  (Hfree : sem_dfu_free_space s = 1) (Hfull : sem_dfu_full s = 0)
  (Hne : blocks <> []) (Hlen : zlen blocks < 2 ^ 32)
  (Hblocks : Forall (fun b => 0 < zlen b <= BLK) blocks)
  (Hfit : zlen blocks * BLK <= flash_size (secondary s)) :
  exists s', dfu_receive BLK SL page MB 0 (zlen blocks) blocks s h =
      Some (replicate (length blocks) RET_SUCCESS, s', h) /\
    state (dfu s') = DFU_FINISHED_VERIFY /\ wr_idx (dfu s') = 0 /\
    exists rest, flash_content (secondary s') = pad8 (concat blocks) ++ rest.
Proof.
  destruct (receive_from (wbs := wbs) BLK SL HBLK HSL Hwbs Hw8 Hsec page MB (zlen blocks) blocks [] 0 s h)
    as (s' & E & _ & _ & V & W & T); try done; try (rewrite ?zlen_nil; lia).
  - split; try done. exists [], 0. split; [done |]. split; [| done]. exists (flash_content (secondary s)). cbn.
    split; [done |]. split; [lia |]. split; [| done]. apply Z.mod_0_l. pose proof (Z.pow_pos_nonneg 2 SL). lia.
  - eauto 10.
Qed.

Definition mcuboot_demo : mcuboot :=
  Mcuboot (fun b => ImageHeader (nthZ b 0) (nthZ b 1) (nthZ b 2) 0 0 0 0) 4 150
    (fun b => (nthZ b 0, nthZ b 1)) 2 105 106 2 3.

Lemma dfu_image_written_witness :
  let d0 : nor_w 8 := exist _ (Nor (fill 256 7) 8) eq_refl in
  let s0 := DfuSys (dfu_zero 32) 1 0 false d0 in
  let img := map (fun k => fill 32 k) [1; 2; 3; 4] ++ [fill 13 5] in
  exists s' : @dfu_sys (nor_w 8),
    dfu_receive 32 7 64 mcuboot_demo 0 5 img s0 (DfuHeaders [] [] 1) =
      Some (replicate 5 RET_SUCCESS, s', DfuHeaders [] [] 1) /\
    state (dfu s') = DFU_FINISHED_VERIFY /\ wr_idx (dfu s') = 0 /\
    exists rest, flash_content (secondary s') = pad8 (concat img) ++ rest.
Proof.
  cbv zeta.
  apply (dfu_image_written (wbs := 8) 32 7 64 mcuboot_demo
           (map (fun k => fill 32 k) [1; 2; 3; 4] ++ [fill 13 5]));
    [lia | lia | lia | done | done | reflexivity | reflexivity | done | done | done | done | | done].
  apply (bool_decide_unpack _). vm_compute. exact I.
Defined.

(** ** The image check *)

(** The pages of the CRC loop add up to the CRC of the whole image. *)
Lemma crc_pages_spec {D : Type} `{FlashLaws D wbs} `{CrcLaws} page d n : 0 < page ->
  forall fuel off c, 0 <= off -> off <= n -> n <= flash_size d -> n - off < page * Z.of_nat fuel ->
  0 <= c < 4294967296 ->
  crc_pages fuel page d off n c = Some (crc32_ieee_update c (slice off (n - off) (flash_content d))).
Proof.
  intros Hp fuel. induction fuel as [| f IH]; intros off c Ho Hn Hs Hf Hc; [lia |].
  simpl. destruct (Z.ltb_spec off n).
  - set (len := if n - off <? page then n - off else page).
    assert (0 < len <= page /\ off + len <= n /\ (off + len = n \/ len = page)) as (L1 & L2 & L3)
      by (subst len; destruct (Z.ltb_spec (n - off) page); lia).
    rewrite flash_read_ok by (rewrite ?zlen_fill by lia; lia). rewrite zlen_fill by lia. simpl.
    rewrite (slice_split off len (n - off)), crc32_pieces by lia.
    destruct L3 as [E | E].
    + replace (n - off - len) with 0 by lia. rewrite slice_0, crc32_nil by apply crc32_range.
      destruct f; simpl; [done |]. by bfalse (off + page <? n).
    + rewrite E, IH by (lia || apply crc32_range). do 3 f_equal. lia.
  - replace (n - off) with 0 by lia. by rewrite slice_0, crc32_nil.
Qed.

#[local] Arguments crc_pages : simpl never.

(** [dfu_secondary_check] accepts an image exactly when the CRC-32 of
    the image bytes, header and TLV trailer included, is the expected one: the
    page-wise loop computes the CRC of the whole image, an image without size
    is refused, and the header semaphore is given back. *)
Theorem dfu_check_sound {D : Type} `{FlashLaws D wbs} `{CrcLaws} (MB : mcuboot)
  (page crc : Z) (d : D) (h : dfu_headers)
  (Hpage : 0 < page) (Hsem : sem_headers h = 1)
  (Hbuf : zlen (secondary_slot_header h) <= flash_size d) :
  let hdr := slice 0 (zlen (secondary_slot_header h)) (flash_content d) in
  let ih := parse_header MB hdr in
  let n := image_size MB d ih in
  let h' := DfuHeaders (primary_slot_header h) hdr 1 in
  0 <= n <= flash_size d ->
  dfu_secondary_check MB page 0 crc d h =
  Some (if ih_img_size ih =? 0 then RET_ERROR_INVALID_STATE
        else if crc32_ieee_update 0 (slice 0 n (flash_content d)) =? crc then RET_SUCCESS
        else RET_ERROR_INVALID_STATE, h').
Proof.
  intros hdr ih n h' Hn. unfold dfu_secondary_check, dfu_version_secondary_get, headers_take.
  rewrite Hsem. simpl. rewrite flash_read_ok by lia. simpl.
  pose proof (crc_pages_spec page d n Hpage (S (Z.to_nat (n / page))) 0 0) as Ecrc.
  destruct (_ && _) eqn:Eb; simpl; fold hdr ih; (destruct (ih_img_size ih =? 0); [done |]).
  all: fold n; rewrite Ecrc, Z.sub_0_r by (lia || (pose proof (Z.div_pos n page); zify_div)).
  all: by destruct (_ =? crc).
Qed.

Lemma dfu_check_sound_witness :
  let img := [150; 4; 20] ++ fill 61 9 in
  let d : nor_w 8 := exist _ (Nor img 8) eq_refl in
  let h := DfuHeaders [] (fill 4 0) 1 in
  let good := crc32_ieee_update 0 (slice 0 24 img) in
  dfu_secondary_check mcuboot_demo 16 0 good d h =
    Some (RET_SUCCESS, DfuHeaders [] (slice 0 4 img) 1) /\
  dfu_secondary_check mcuboot_demo 16 0 (good + 1) d h =
    Some (RET_ERROR_INVALID_STATE, DfuHeaders [] (slice 0 4 img) 1).
Proof.
  cbv zeta. split.
  - etransitivity; [apply (dfu_check_sound (wbs := 8)); [lia | done | |]; vm_compute; (split || idtac); discriminate |].
    vm_compute. reflexivity.
  - etransitivity; [apply (dfu_check_sound (wbs := 8)); [lia | done | |]; vm_compute; (split || idtac); discriminate |].
    vm_compute. reflexivity.
Defined.

(** ** Every interleaving of the host's requests and the thread *)

Section Reach.
Context {D : Type} `{FlashDriver D} `{Crc} (BLK SL page : Z) (MB : mcuboot).

(** The requests of the host, in any order and with any arguments of their C
    types, and the turns of the thread.  Activation is only requested with no
    block in flight. *)
Inductive dfu_step : @dfu_sys D * dfu_headers -> @dfu_sys D * dfu_headers -> Prop :=
| step_load k bc data cb s h :
    0 <= k < 2 ^ 32 -> 0 <= bc < 2 ^ 32 -> dfu_step (s, h) ((dfu_load BLK k bc data cb s).2, h)
| step_check crc cb s h : dfu_step (s, h) ((dfu_secondary_check_async crc cb s).2, h)
| step_activate perm open_ret pending swap s h c s' h' :
    sem_dfu_free_space s = 1 ->
    dfu_secondary_activate BLK MB perm open_ret pending swap s h = Some (c, s', h') ->
    dfu_step (s, h) (s', h')
| step_turn open_ret s h c s' h' :
    process_dfu_blocks_turn BLK SL MB page open_ret s h = Some (c, s', h') ->
    dfu_step (s, h) (s', h').

Record dfu_inv (p : @dfu_sys D * dfu_headers) : Prop := {
  di_buf : zlen (dfu_bytes (dfu p.1)) = DFU_BLOCKS_BUFFER_SIZE BLK;
  di_wr : 0 <= wr_idx (dfu p.1) <= DFU_BLOCKS_BUFFER_SIZE BLK;
  di_sem : 0 <= sem_dfu_free_space p.1 /\ 0 <= sem_dfu_full p.1 /\
    sem_dfu_free_space p.1 + sem_dfu_full p.1 = 1;
  di_count : block_count (dfu p.1) = 0 -> state (dfu p.1) = DFU_IN_PROGRESS -> sem_dfu_full p.1 = 0;
  di_hdr : sem_headers p.2 = 1;
}.

Context (HBLK : 0 < BLK < 64).

Lemma dfu_zero_buf : zlen (dfu_bytes (dfu_zero BLK)) = DFU_BLOCKS_BUFFER_SIZE BLK /\
  64 <= DFU_BLOCKS_BUFFER_SIZE BLK.
Proof. clear -HBLK. pose proof (buf_size BLK). split; [| lia].
  cbn [dfu_bytes dfu_zero]. rewrite zlen_fill; lia.
Qed.

Lemma dfu_load_inv k bc data cb s h : 0 <= k < 2 ^ 32 -> 0 <= bc < 2 ^ 32 ->
  dfu_inv (s, h) -> dfu_inv ((dfu_load BLK k bc data cb s).2, h).
Proof.
  intros Hk Hbc [Ib Iw Is Ic Ih]. simpl in *. destruct dfu_zero_buf as [Zb ZB].
  unfold dfu_load. destruct (dfu_load_bad_param _ _ _ _ _) eqn:Eb; [by split |].
  destruct (Z.eqb_spec (sem_dfu_free_space s) 0); [by split |].
  assert (zlen data <= BLK /\ (block_count (dfu s) = 0 -> k = 0)) as [Ld Hz].
  { revert Eb. unfold dfu_load_bad_param. rewrite !orb_false_iff, !Z.ltb_ge.
    intros [[[_ ?] ?] Hz]. split; [done |]. intros E. rewrite E in Hz.
    destruct (Z.eqb_spec k 0); [done | discriminate]. }
  pose proof (zlen_nonneg data). cbv zeta.
  set (st := dfu_start_block k bc (dfu s)) in *.
  assert (zlen (dfu_bytes st) = DFU_BLOCKS_BUFFER_SIZE BLK /\ 0 <= wr_idx st <= DFU_BLOCKS_BUFFER_SIZE BLK /\
          (block_count st = 0 -> block_number st = 0 /\ wr_idx st = 0)) as (S1 & S2 & S3).
  { subst st. unfold dfu_start_block. destruct (Z.eqb_spec k 0); simpl; (split; [done |]; split; [lia |]); [done |].
    intros E. by destruct (n0 (Hz E)). }
  destruct (Z.ltb_spec (DFU_BLOCKS_BUFFER_SIZE BLK) (wr_idx st + zlen data)); simpl;
    [split; simpl; try done; lia |].
  assert (zlen (splice (wr_idx st) data (dfu_bytes st)) = DFU_BLOCKS_BUFFER_SIZE BLK)
    by (rewrite zlen_splice; lia).
  destruct ((_ <=? _) || _) eqn:Eq; split; simpl; try done; try lia.
  intros E _. destruct (S3 E) as [En Ew]. rewrite En, E, Ew in Eq. simpl in Eq.
  rewrite orb_false_r in Eq. apply Z.leb_le in Eq. unfold DFU_BLOCKS_WRITE_SIZE in Eq. lia.
Qed.

Lemma secondary_get_sem open_ret (d : D) h : sem_headers h = 1 ->
  exists c v h', dfu_version_secondary_get MB open_ret d h = Some (c, v, h') /\ sem_headers h' = 1.
Proof.
  intros E. unfold dfu_version_secondary_get, headers_take. rewrite E. simpl.
  repeat case_match; eexists _, _, _; (split; [done |]); reflexivity.
Qed.

Lemma secondary_check_sem open_ret crc (d : D) h : sem_headers h = 1 ->
  exists c h', dfu_secondary_check MB page open_ret crc d h = Some (c, h') /\ sem_headers h' = 1.
Proof.
  intros E. unfold dfu_secondary_check. destruct (secondary_get_sem open_ret d h E) as (c & v & h1 & -> & E1).
  simpl. unfold headers_take. rewrite E1. simpl.
  repeat case_match; eexists _, _; (split; [done |]); reflexivity.
Qed.

Lemma prepare_keeps s : 
  let s1 := (dfu_prepare s).2 in let n := (dfu_prepare s).1 in
  zlen (dfu_bytes s) mod 8 = 0 -> 0 <= wr_idx s <= zlen (dfu_bytes s) ->
  zlen (dfu_bytes s1) = zlen (dfu_bytes s) /\ wr_idx s1 = wr_idx s /\ block_count s1 = block_count s /\ 0 <= n.
Proof.
  intros s1 n H8 Hw. subst s1 n. unfold dfu_prepare, DFU_BLOCKS_WRITE_SIZE.
  destruct (block_number s =? _); simpl; [| split_and!; lia || done].
  pose proof (Z.mod_pos_bound (wr_idx s) 8 ltac:(lia)).
  destruct (Z.eqb_spec (wr_idx s mod 8) 0); simpl; split_and!; try done; try lia.
  assert (wr_idx s + (8 - wr_idx s mod 8) <= zlen (dfu_bytes s)) by zify_div.
  rewrite zlen_splice; zlen.
Qed.

(** What one block leaves: the buffer keeps its size, the write index its bounds. *)
Lemma process_block_inv open_ret (d : D) s :
  zlen (dfu_bytes s) = DFU_BLOCKS_BUFFER_SIZE BLK -> 0 <= wr_idx s <= DFU_BLOCKS_BUFFER_SIZE BLK ->
  block_count s <> 0 ->
  exists c s' d', dfu_process_block BLK SL open_ret d s = Some (c, s', d') /\
    zlen (dfu_bytes s') = DFU_BLOCKS_BUFFER_SIZE BLK /\ 0 <= wr_idx s' <= DFU_BLOCKS_BUFFER_SIZE BLK.
Proof.
  intros Hb Hw Hc. destruct dfu_zero_buf as [Zb ZB]. pose proof (buf_size BLK) as [_ B8].
  pose proof (prepare_keeps s ltac:(by rewrite Hb) ltac:(lia)) as (P1 & P2 & P3 & P4).
  unfold dfu_process_block. destruct (negb (open_ret =? 0)); [by eexists _, _, _ |].
  destruct (_ && _); [eexists _, _, _; split; [done |]; split; [done | simpl; lia] |].
  destruct (dfu_prepare s) as [n s1]. simpl in *.
  destruct (negb _); [eexists _, _, _; split; [done |]; rewrite P2; split; [congruence | lia] |].
  rewrite P3. bfalse (block_count s =? 0).
  destruct (negb _); [eexists _, _, _; split; [done |]; rewrite P2; split; [congruence | lia] |].
  eexists _, _, _. split; [done |]. unfold dfu_consume. simpl. rewrite P2.
  destruct (Z.leb_spec n (wr_idx s)); [| split; [congruence | lia]].
  assert (zlen (slice n (wr_idx s - n) (dfu_bytes s1)) = wr_idx s - n) by (apply zlen_slice; lia).
  rewrite zlen_splice by lia. split; [congruence | lia].
Qed.

Lemma turn_inv open_ret s h : dfu_inv (s, h) -> sem_dfu_full s = 1 ->
  exists c s' h', process_dfu_blocks_turn BLK SL MB page open_ret s h = Some (c, s', h') /\ dfu_inv (s', h').
Proof.
  intros [Ib Iw Is Ic Ih] Hf. simpl in *. unfold process_dfu_blocks_turn. rewrite Hf. simpl.
  destruct (state (dfu s)) eqn:Es.
  - destruct (process_block_inv open_ret (secondary s) (dfu s)) as (c & s1 & d1 & -> & B & W);
      [done | done | intros E; specialize (Ic E eq_refl); lia |].
    simpl. eexists _, _, _. split; [done |]. split; simpl; try done; lia.
  - destruct (secondary_check_sem open_ret (expected_crc32 (dfu s)) (secondary s) h Ih) as (c & h1 & -> & E1).
    simpl. eexists _, _, _. split; [done |]. split; simpl; try done; lia.
Qed.

Lemma dfu_step_inv p q : dfu_step p q -> dfu_inv p -> dfu_inv q.
Proof.
  intros [k bc data cb s h Hk Hb | crc cb s h | perm o pe sw s h c s' h' Hf E | o s h c s' h' E] I.
  - by apply dfu_load_inv.
  - destruct I as [Ib Iw Is Ic Ih]; simpl in *. unfold dfu_secondary_check_async.
    destruct (Z.eqb_spec (sem_dfu_free_space s) 0); [by split |].
    case_bool_decide as Es; split; simpl; try done; try lia. intros _ E. congruence.
  - destruct I as [Ib Iw Is Ic Ih]; simpl in *. destruct dfu_zero_buf as [Zb ZB].
    revert E. unfold dfu_secondary_activate.
    destruct (secondary_get_sem o (secondary s) h Ih) as (c1 & v & h1 & -> & E1). simpl.
    unfold headers_take. rewrite E1. simpl.
    repeat case_match; intros [= <- <- <-]; split; simpl; try done; lia.
  - assert (sem_dfu_full s = 1) as Hf.
    { destruct I as [_ _ Is _ _]. simpl in Is. revert E. unfold process_dfu_blocks_turn.
      destruct (Z.eqb_spec (sem_dfu_full s) 0); [done | lia]. }
    destruct (turn_inv o s h I Hf) as (c2 & s2 & h2 & E2 & I2). congruence.
Qed.
End Reach.

(** C28: Whatever blocks, checks and activations the host requests, in whatever order
    and with whatever arguments, activation only between blocks, and however the
    thread's turns and the flash errors fall: at
    most one block is in flight (the two semaphores add up to one), nothing is
    ever written outside the reception buffer, and the thread always completes
    its turn (no division by a zero block count, no deadlock on the header
    semaphore).  An activation while a block is in flight is
    [dfu_activate_in_flight_faults]. *)
Theorem dfu_requests_safe {D : Type} `{FlashDriver D} `{Crc} (BLK SL page : Z) (MB : mcuboot)
  (d : D) (h : dfu_headers) (HBLK : 0 < BLK < 64) (Hh : sem_headers h = 1)
  (s : @dfu_sys D) (h' : dfu_headers)
  (Hreach : rtc (dfu_step BLK SL page MB) (dfu_boot BLK d, h) (s, h')) :
  sem_dfu_free_space s + sem_dfu_full s = 1 /\
  zlen (dfu_bytes (dfu s)) = DFU_BLOCKS_BUFFER_SIZE BLK /\
  0 <= wr_idx (dfu s) <= DFU_BLOCKS_BUFFER_SIZE BLK /\
  (sem_dfu_full s = 1 -> forall open_ret,
     is_Some (process_dfu_blocks_turn BLK SL MB page open_ret s h')).
Proof.
  assert (dfu_inv BLK (s, h')) as I.
  { revert Hreach. apply (rtc_ind_r (fun q => dfu_inv BLK q)).
    - destruct (dfu_zero_buf BLK HBLK). split; simpl; try done; lia.
    - intros x y _ Hs Hi. by apply (dfu_step_inv BLK SL page MB HBLK x y Hs Hi). }
  destruct (I) as [Ib Iw Is _ _]. simpl in *. split; [lia |]. split; [done |]. split; [done |].
  intros Hf o. destruct (turn_inv BLK SL page MB HBLK o s h' I Hf) as (c & s2 & h2 & -> & _). by eexists.
Qed.

Lemma dfu_requests_safe_witness :
  let d : nor_w 8 := exist _ (Nor (fill 256 7) 8) eq_refl in
  let p := DfuHeaders (fill 4 0) (fill 4 0) 1 in
  let s := (dfu_load 32 0 1 (fill 32 9) true (dfu_boot 32 d)).2 in
  sem_dfu_free_space s + sem_dfu_full s = 1 /\ sem_dfu_full s = 1 /\
  is_Some (process_dfu_blocks_turn 32 7 mcuboot_demo 64 0 s p).
Proof.
  cbv zeta.
  destruct (dfu_requests_safe 32 7 64 mcuboot_demo (exist _ (Nor (fill 256 7) 8) eq_refl : nor_w 8)
              (DfuHeaders (fill 4 0) (fill 4 0) 1) ltac:(lia) eq_refl
              (dfu_load 32 0 1 (fill 32 9) true
                 (dfu_boot 32 (exist _ (Nor (fill 256 7) 8) eq_refl : nor_w 8))).2
              (DfuHeaders (fill 4 0) (fill 4 0) 1)) as (E & _ & _ & T).
  - apply rtc_once. by apply step_load.
  - split; [exact E |]. split; [reflexivity |]. by apply T.
Defined.

(** An activation request while a block is queued zeroes [dfu_state] under the
    thread: its turn divides by the zero block count. *)
Example dfu_activate_in_flight_faults :
  let d : nor_w 8 := exist _ (Nor (fill 256 0) 8) eq_refl in
  let h := DfuHeaders (fill 4 0) (fill 4 0) 1 in
  let s := (dfu_load 32 0 1 (fill 32 9) true (dfu_boot 32 d)).2 in
  match dfu_secondary_activate_permanently 32 mcuboot_demo 0 0 3 s h with
  | Some (r, s', h') => r = RET_SUCCESS /\ sem_dfu_full s' = 1 /\
      process_dfu_blocks_turn 32 7 mcuboot_demo 64 0 s' h' = None
  | None => False
  end.
Proof. vm_compute. done. Qed.

(** An image too large for the slot is refused without any write, but the
    host is never told: the state is zeroed, its callback included, before the
    callback is looked up.  (A block count whose product with the block size
    wraps around 2^32 passes the same test.) *)
Theorem dfu_too_large_not_acknowledged {D : Type} `{FlashDriver D} `{Crc} (BLK SL page : Z) (MB : mcuboot)
  (s : @dfu_sys D) (h : dfu_headers)
  (Hfull : sem_dfu_full s = 1) (Hst : state (dfu s) = DFU_IN_PROGRESS)
  (Hoff : flash_offset (dfu s) = 0)
  (Hbig : flash_size (secondary s) < u32 (block_count (dfu s) * BLK)) :
  process_dfu_blocks_turn BLK SL MB page 0 s h =
  Some (None, DfuSys (dfu_zero BLK) (Z.min 1 (sem_dfu_free_space s + 1)) 0 (thread_created s) (secondary s), h).
Proof.
  unfold process_dfu_blocks_turn, dfu_process_block. rewrite Hfull, Hst, Hoff. simpl.
  apply Z.ltb_lt in Hbig. by rewrite Hbig.
Qed.

Lemma dfu_too_large_not_acknowledged_witness :
  let d : nor_w 8 := exist _ (Nor (fill 256 0) 8) eq_refl in
  let s := (dfu_load 32 0 2 (fill 32 9) true (dfu_boot 32 d)).2 in
  let s1 := (dfu_load 32 1 2 (fill 32 9) true s).2 in
  let big := DfuSys (DfuState (dfu_bytes (dfu s1)) 64 1 9 0 0 true DFU_IN_PROGRESS) 0 1 true d in
  process_dfu_blocks_turn 32 7 mcuboot_demo 64 0 big (DfuHeaders [] [] 1) =
  Some (None, DfuSys (dfu_zero 32) 1 0 true d, DfuHeaders [] [] 1).
Proof. cbv zeta. apply (dfu_too_large_not_acknowledged 32 7 64 mcuboot_demo); done. Defined.
