(* ===== verification/PubSub.v ===== *)
(** main_board/src/pubsub/pubsub.c: messages to the Jetson and the security
    MCU: sent on the CAN bus, stored for later, or discarded.

    The module is a client of the record storage and of the CAN transmission:
    [RecordStore] and [CanTx] are what it uses of them.  [storage_store] is the
    storage of [Storage], whose refinement theorem discharges the laws.
    Protobuf encoding is nanopb's: a parameter, with the sizes and tags the
    generated code defines. *)

From S2P Require Import Prelude Flash Storage Can.

(** ** Interfaces *)

(** [store_push]: code, content of the caller's buffer and new state;
    [store_peek]: code, buffer, size; [None] when the call does not return. *)
Class RecordStore (St : Type) := {
  store_push : St -> bytes -> option (Z * bytes * St);
  store_peek : St -> bytes -> Z -> option (Z * bytes * Z * St);
  store_free : St -> option (Z * St);
}.

Definition peek_result (q : list bytes) (buffer : bytes) (size : Z) : Z * bytes * Z :=
  match q with
  | [] => (RET_ERROR_NOT_FOUND, buffer, size)
  | r :: _ => if size <? zlen r then (RET_ERROR_NO_MEM, buffer, size)
              else (RET_SUCCESS, r ++ drop (length r) buffer, zlen r)
  end.

(** The promise: a first-in first-out queue of records. *)
Class RecordStoreLaws (St : Type) `{RecordStore St} := {
  store_holds : St -> list bytes -> Prop;
  store_peek_ok : forall s q buffer size, store_holds s q -> size <= zlen buffer ->
    store_peek s buffer size = Some (peek_result q buffer size, s);
  store_free_ok : forall s q, store_holds s q ->
    exists s', store_free s = Some (if bool_decide (q = []) then RET_ERROR_NOT_FOUND else RET_SUCCESS, s') /\
      store_holds s' (tail q);
  store_push_ok : forall s q r, store_holds s q ->
    exists ret s', store_push s r = Some (ret, r, s') /\
      store_holds s' (if ret =? RET_SUCCESS then q ++ [r] else q);
}.

#[export] Instance storage_store {D} `{FlashDriver D} `{Crc} (WBS : Z) : RecordStore (storage_sys D) := {
  store_push s r := storage_push WBS s (Some r);
  store_peek s b n := storage_peek WBS s b n;
  store_free s := storage_free WBS s;
}.

(** The storage component keeps the promise. *)
Definition storage_store_laws {D} {WBS : Z} `{FlashLaws D WBS} `{CrcLaws}
  (Hpos : 0 < WBS) (Hhdr : SIZEOF_HEADER mod WBS = 0) :
  @RecordStoreLaws (storage_sys D) (storage_store WBS).
Proof.
  refine {| store_holds := fun s q => exists f, Repr (WBS := WBS) s f /\ queue f = q |}.
  - intros s q b n (f & R & <-) Hn. simpl.
    pose proof (storage_peek_refines Hpos s f b n R Hn) as P.
    unfold fifo_peek, peek_result in *. destruct (queue f); [exact P |]. by destruct (n <? _).
  - intros s q (f & R & <-). simpl. pose proof (storage_free_refines Hpos Hhdr s f R) as P.
    unfold fifo_free in P. destruct (queue f) as [| r [| r' rest]] eqn:E; simpl in *;
      destruct P as (s' & -> & R'); exists s'; (split; [done |]).
    + exists f. by rewrite E.
    + destruct (room f <? _); by eexists.
    + by eexists.
  - intros s q r (f & R & <-). simpl. pose proof (storage_push_refines Hpos Hhdr s f r R) as P.
    unfold fifo_push in P. destruct (_ || _); [| destruct (room f <? _)]; destruct P as (s' & E & R');
      eexists _, s'; (split; [exact E |]); simpl; by eexists.
Defined.

(** The two transmit functions of lib/can_messaging: code and new state. *)
Class CanTx (Bus : Type) := {
  can_async_tx : Bus -> can_message -> Z * Bus;
  isotp_async_tx : Bus -> can_message -> Z * Bus;
}.

(** ** Data *)

Inductive sub_priority_e := SUB_PRIO_STORE | SUB_PRIO_TRY_SENDING | SUB_PRIO_DISCARD.

#[export] Instance sub_priority_eq_dec : EqDecision sub_priority_e.
Proof. solve_decision. Defined.

(** The payloads of McuToJetson that have a priority. *)
Inductive jetson_payload :=
| P_ack | P_power_button | P_battery_voltage | P_battery_capacity | P_gnss | P_versions
| P_temperature | P_fan_status | P_imu_data | P_voltage | P_log | P_motor_range | P_fatal_error
| P_battery_is_charging | P_battery_diag_common | P_tof_1d | P_gnss_partial | P_front_als
| P_hardware | P_hardware_diag | P_battery_reset_reason | P_battery_diag_safety
| P_battery_diag_permanent_fail | P_battery_info_hw_fw | P_battery_info_max_values
| P_battery_info_soc_and_statistics | P_cone_present | P_memfault_event
| P_battery_state_of_health | P_shutdown | P_hw_state.

Definition sub_prio (debug : bool) (p : jetson_payload) : sub_priority_e :=
  match p with
  | P_ack | P_power_button | P_battery_info_hw_fw | P_battery_info_max_values
  | P_battery_info_soc_and_statistics | P_shutdown => SUB_PRIO_TRY_SENDING
  | P_log => if debug then SUB_PRIO_TRY_SENDING else SUB_PRIO_STORE
  | P_fatal_error | P_battery_reset_reason => SUB_PRIO_STORE
  | _ => SUB_PRIO_DISCARD
  end.

(** Little-endian 32-bit fields. *)
Definition le32 (z : Z) : bytes := [z mod 256; z / 256 mod 256; z / 65536 mod 256; z / 16777216 mod 256].
Definition get32 (b : bytes) : Z :=
  nthZ b 0 + 256 * nthZ b 1 + 65536 * nthZ b 2 + 16777216 * nthZ b 3.

(** [struct pub_entry_s] as it is stored: destination, then the encoded message. *)
Definition entry_bytes (dest : Z) (data : bytes) : bytes := le32 dest ++ data.

(** A message as it was published: its destination and its encoding. *)
Abbreviation entry := (Z * bytes)%type.

Definition stored (e : entry) : bytes := entry_bytes e.1 e.2.

Record mcu_message := McuMessage { to_sec : bool; which_payload : Z; payload_bytes : bytes }.

Section PubSub.
Context {St Bus : Type} `{RecordStore St} `{CanTx Bus}.
(** Generated code and configuration: the tag of each payload, the size of
    [sub_prios], the sizes of the two payload unions, of [entry.data], and the
    address of the security MCU. *)
Context (payload_of_tag : Z -> option jetson_payload) (SUB_PRIOS_SIZE : Z) (debug : bool)
        (SEC_PAYLOAD_SIZE JETSON_PAYLOAD_SIZE DATA_SIZE MCU_TO_MCU : Z)
        (pb_encode : mcu_message -> option bytes).

Record pubsub := PubSub { active_remotes : list Z; pubsub_storage_area : St; bus : Bus }.

Definition publish_is_started (remote : Z) (s : pubsub) : bool :=
  bool_decide (remote ∈ active_remotes s).

(** [subscribe_add]: the first entry free or already equal is taken. *)
Fixpoint subscribe_scan (remote : Z) (l : list Z) : option (list Z) :=
  match l with
  | [] => None
  | x :: l' => if (x =? 0) || (x =? remote) then Some (remote :: l')
               else (fun k => x :: k) <$> subscribe_scan remote l'
  end.

Definition subscribe_add (remote : Z) (s : pubsub) : Z * pubsub :=
  match subscribe_scan remote (active_remotes s) with
  | Some l => (RET_SUCCESS, PubSub l (pubsub_storage_area s) (bus s))
  | None => (RET_ERROR_NO_MEM, s)
  end.

(** [sub_prios[which]]: an entry without an initialiser is 0, SUB_PRIO_STORE;
    [None] outside the array. *)
Definition sub_prios (which : Z) : option sub_priority_e :=
  if (0 <=? which) && (which <? SUB_PRIOS_SIZE)
  then Some (match payload_of_tag which with Some p => sub_prio debug p | None => SUB_PRIO_STORE end)
  else None.

Definition can_send (m : can_message) (s : pubsub) : Z * pubsub :=
  let r := if negb (Z.land (destination m) CAN_ADDR_IS_ISOTP =? 0)
           then isotp_async_tx (bus s) m else can_async_tx (bus s) m in
  (r.1, PubSub (active_remotes s) (pubsub_storage_area s) r.2).

(** [publish(payload, size, which, remote, force_store)]; [sem] is whether the
    semaphore was obtained in time.  [None]: a read of [sub_prios] or a copy of
    the payload out of bounds, or a storage call that does not return. *)
Definition publish (payload : bytes) (which remote : Z) (force_store sem : bool) (s : pubsub)
  : option (Z * pubsub) :=
  let size := zlen payload in
  let m2m := remote =? MCU_TO_MCU in
  if (m2m && (SEC_PAYLOAD_SIZE <? size)) ||
     (negb m2m && (SUB_PRIOS_SIZE <=? which) && (JETSON_PAYLOAD_SIZE <? size))
  then Some (RET_ERROR_INVALID_PARAM, s)
  else
    let idle := negb force_store && negb (publish_is_started remote s) && negb m2m in
    discard ← (if idle then p ← sub_prios which; Some (bool_decide (p = SUB_PRIO_DISCARD)) else Some false);
    if (discard : bool) then Some (RET_ERROR_OFFLINE, s)
    else if negb sem then Some (RET_ERROR_BUSY, s)
    else
      store ← (if m2m then Some false
               else if force_store then Some true
               else if publish_is_started remote s then Some false
               else p ← sub_prios which; Some (bool_decide (p = SUB_PRIO_STORE)));
      if (if m2m then SEC_PAYLOAD_SIZE else JETSON_PAYLOAD_SIZE) <? size then None
      else
        match pb_encode (McuMessage m2m which payload) with
        | None => Some (RET_ERROR_INTERNAL, s)
        | Some data =>
            if (store : bool) then
              '(ret, _, st) ← store_push (pubsub_storage_area s) (entry_bytes remote data);
              Some (if force_store then ret else RET_ERROR_OFFLINE, PubSub (active_remotes s) st (bus s))
            else Some (can_send (CanMessage remote data) s)
        end.

Definition publish_new (payload : bytes) (which remote : Z) (sem : bool) (s : pubsub) :=
  publish payload which remote false sem s.
Definition publish_store (payload : bytes) (which remote : Z) (sem : bool) (s : pubsub) :=
  publish payload which remote true sem s.

(** *** The thread that sends what was stored *)

(** One turn of the loop; [record] is the thread's buffer, and the boolean says
    whether it loops.  [None]: a read past the buffer. *)
Definition pub_stored_turn (record : bytes) (s : pubsub) : option (bool * bytes * pubsub) :=
  let with_store st := PubSub (active_remotes s) st (bus s) in
  '(err, record, size, st) ← store_peek (pubsub_storage_area s) record (zlen record);
  let s := with_store st in
  if err =? RET_ERROR_NOT_FOUND then Some (false, record, s)
  else if err =? RET_ERROR_NO_MEM then
    '(_, st) ← store_free (pubsub_storage_area s);
    Some (true, record, with_store st)
  else if negb (err =? RET_SUCCESS) then Some (false, record, s)
  else if negb (publish_is_started (get32 record) s) then Some (false, record, s)
  else if zlen record <? 4 + size then None
  else
    let r := can_send (CanMessage (get32 record) (slice 4 size record)) s in
    if (r.1 =? RET_SUCCESS) || (r.1 =? RET_ERROR_INVALID_PARAM) then
      '(_, st) ← store_free (pubsub_storage_area r.2);
      Some (true, record, PubSub (active_remotes r.2) st (bus r.2))
    else if (r.1 =? RET_ERROR_INVALID_STATE) || (r.1 =? RET_ERROR_BUSY) || (r.1 =? RET_ERROR_NO_MEM)
    then Some (false, record, r.2)
    else Some (true, record, r.2).

(** The thread, for at most [fuel] turns: whether it ended, and the state. *)
Fixpoint pub_stored_thread (fuel : nat) (record : bytes) (s : pubsub) : option (bool * pubsub) :=
  match fuel with
  | O => Some (false, s)
  | S f =>
      '(go, record, s) ← pub_stored_turn record s;
      if (go : bool) then pub_stored_thread f record s else Some (true, s)
  end.

(** [publish_flush]: a new thread is started when there is none yet or the
    previous one has ended ([joined]). *)
Definition publish_flush (started_once joined : bool) : bool * bool :=
  if negb started_once || joined then (true, true) else (started_once, false).

(** ** The queue-level specification *)

Definition send_on (b : Bus) (m : can_message) : Z * Bus :=
  if negb (Z.land (destination m) CAN_ADDR_IS_ISOTP =? 0) then isotp_async_tx b m else can_async_tx b m.

(** What sending the stored messages [es] may do with the bus [b], for a buffer of
    [size] bytes: [flushed es b k b'] takes the first [k] away and leaves the bus
    [b'].  A message is handed over with the destination and the bytes it was
    published with; the code appends four bytes, and what they are is left
    open here.  One the bus refuses for good is given up, as is one larger than the
    buffer; for any other answer, or without a listener, it waits with those
    behind it. *)
Inductive flushed (active : list Z) (size : Z) : list entry -> Bus -> nat -> Bus -> Prop :=
| flushed_all b : flushed active size [] b 0 b
| flushed_no_listener e es b : e.1 ∉ active -> flushed active size (e :: es) b 0 b
| flushed_too_large e es b k b' : size < zlen (stored e) ->
    flushed active size es b k b' -> flushed active size (e :: es) b (S k) b'
| flushed_handed_over e es b extra ret b1 k b' : e.1 ∈ active -> length extra = 4%nat ->
    send_on b (CanMessage e.1 (e.2 ++ extra)) = (ret, b1) -> ret = RET_SUCCESS \/ ret = RET_ERROR_INVALID_PARAM ->
    flushed active size es b1 k b' -> flushed active size (e :: es) b (S k) b'
| flushed_later e es b extra ret b1 : e.1 ∈ active -> length extra = 4%nat ->
    send_on b (CanMessage e.1 (e.2 ++ extra)) = (ret, b1) -> ret <> RET_SUCCESS -> ret <> RET_ERROR_INVALID_PARAM ->
    flushed active size (e :: es) b 0 b1.

Definition handled (ret : Z) : Prop :=
  ret = RET_SUCCESS \/ ret = RET_ERROR_INVALID_PARAM \/ ret = RET_ERROR_INVALID_STATE \/
  ret = RET_ERROR_BUSY \/ ret = RET_ERROR_NO_MEM.
End PubSub.

(** ** Lemmas *)

Lemma can_send_keeps {St Bus} `{CanTx Bus} m (s : @pubsub St Bus) :
  active_remotes (can_send m s).2 = active_remotes s /\
  pubsub_storage_area (can_send m s).2 = pubsub_storage_area s.
Proof. done. Qed.

Lemma can_send_code {St Bus} `{CanTx Bus} m (s : @pubsub St Bus) :
  let t := if negb (Z.land (destination m) CAN_ADDR_IS_ISOTP =? 0)
           then isotp_async_tx (bus s) m else can_async_tx (bus s) m in
  can_send m s = (t.1, PubSub (active_remotes s) (pubsub_storage_area s) t.2).
Proof. done. Qed.

#[local] Opaque can_send.
#[local] Arguments slice : simpl never.
#[local] Arguments get32 : simpl never.

Lemma zlen_record (r record : bytes) : zlen r <= zlen record -> zlen (r ++ drop (length r) record) = zlen record.
Proof. unfold zlen. intros. rewrite length_app, length_drop. lia. Qed.

(** The thread's buffer after a peek of the entry: the destination is read back,
    and the size of the record taken for that of the message adds four bytes. *)
Lemma peeked_entry dest (data record : bytes) : 0 <= dest < 2 ^ 32 -> zlen data + 8 <= zlen record ->
  let record' := entry_bytes dest data ++ drop (length (entry_bytes dest data)) record in
  get32 record' = dest /\
  slice 4 (4 + zlen data) record' = data ++ slice (4 + zlen data) 4 record.
Proof.
  intros Hdest L record'. split.
  { unfold record', entry_bytes, get32, nthZ. simpl. zify_div. }
  rewrite (slice_split 4 (zlen data) (4 + zlen data)) by (pose proof (zlen_nonneg data); lia).
  replace (4 + zlen data - zlen data) with 4 by lia.
  unfold record', entry_bytes. rewrite <- app_assoc.
  rewrite (slice_app_mid 4 (zlen data) (le32 dest) data) by done. f_equal.
  unfold slice. unfold zlen. rewrite app_assoc, drop_app_ge by (rewrite length_app; simpl; lia).
  rewrite drop_drop. f_equal. f_equal. rewrite length_app. simpl. lia.
Qed.

Lemma peeked_extra (data record : bytes) : zlen data + 8 <= zlen record ->
  length (slice (4 + zlen data) 4 record) = 4%nat.
Proof. unfold slice, zlen. intros L. rewrite length_take, length_drop. lia. Qed.

Section FlushLemmas.
Context {St Bus : Type} `{RecordStoreLaws St} `{CanTx Bus}.

Definition fits (n : Z) (r : bytes) : Prop := zlen r + 4 <= n \/ n < zlen r.

(** One turn, on the queue. *)
Lemma pub_stored_turn_spec (record : bytes) (s : @pubsub St Bus) q :
  store_holds (pubsub_storage_area s) q -> Forall (fits (zlen record)) q ->
  match q with
  | [] => pub_stored_turn record s = Some (false, record, s)
  | r :: q' =>
      if zlen record <? zlen r then
        exists st, pub_stored_turn record s = Some (true, record, PubSub (active_remotes s) st (bus s)) /\
          store_holds st q'
      else
        let record' := r ++ drop (length r) record in
        if negb (publish_is_started (get32 record') s)
        then pub_stored_turn record s = Some (false, record', s)
        else
          let t := can_send (CanMessage (get32 record') (slice 4 (zlen r) record')) s in
          if (t.1 =? RET_SUCCESS) || (t.1 =? RET_ERROR_INVALID_PARAM)
          then exists st, pub_stored_turn record s = Some (true, record', PubSub (active_remotes s) st (bus t.2)) /\
                 store_holds st q'
          else handled t.1 -> pub_stored_turn record s = Some (false, record', t.2)
  end.
Proof.
  intros Hq Hfit. unfold pub_stored_turn.
  rewrite (store_peek_ok _ q) by (done || lia). simpl.
  destruct q as [| r q']; simpl; [by destruct s |].
  apply Forall_cons in Hfit as [Hr _].
  destruct (store_free_ok _ _ Hq) as (st & Ef & Hst). simpl in Ef, Hst.
  destruct (Z.ltb_spec (zlen record) (zlen r)) as [L | L]; simpl.
  - rewrite Ef. simpl. by eexists.
  - set (record' := r ++ drop (length r) record).
    assert (publish_is_started (get32 record') (PubSub (active_remotes s) (pubsub_storage_area s) (bus s)) =
            publish_is_started (get32 record') s) as -> by done.
    destruct (publish_is_started (get32 record') s); simpl negb; cbv iota; [| by destruct s].
    assert (zlen record' = zlen record) as Lr by (apply zlen_record; lia).
    rewrite Lr. destruct Hr as [Hr | Hr]; [| lia]. bfalse (zlen record <? 4 + zlen r).
    replace (PubSub (active_remotes s) (pubsub_storage_area s) (bus s)) with s by (by destruct s).
    set (t := can_send (CanMessage (get32 record') (slice 4 (zlen r) record')) s).
    assert (active_remotes t.2 = active_remotes s /\ pubsub_storage_area t.2 = pubsub_storage_area s) as [E1 E2]
      by apply can_send_keeps.
    destruct ((t.1 =? RET_SUCCESS) || (t.1 =? RET_ERROR_INVALID_PARAM)) eqn:Eok.
    + rewrite E2, Ef, E1. simpl. by eexists.
    + apply orb_false_iff in Eok. rewrite !Z.eqb_neq in Eok. destruct Eok as [N1 N2].
      intros [Hh | [Hh | [Hh | [Hh | Hh]]]]; [done.. | | |]; by rewrite Hh.
Qed.
End FlushLemmas.

(** ** Theorems *)

(** Sizes the thread can read: within its buffer even with the four bytes it adds,
    or too large to be read at all. *)
Definition readable (size : Z) (e : entry) : Prop :=
  0 <= e.1 < 2 ^ 32 /\ (zlen e.2 + 8 <= size \/ size < zlen e.2 + 4).

Lemma zlen_stored e : zlen (stored e) = 4 + zlen e.2.
Proof. unfold stored, entry_bytes. by rewrite zlen_app. Qed.

(** C22: the thread that sends the stored messages, from a storage that
    holds [es] as they were published: for any answers of the bus among the
    codes it documents, the thread ends within one turn per message plus one,
    and what it did is a [flushed]: the messages go to the bus in their order of
    storage, each with its own destination and starting with the bytes that were
    published (four more follow: [flush_sends_stale_bytes]); it takes away those
    the bus took or refused for good and those larger than its buffer, and from the
    first that has to wait on, everything stays stored.  Messages are as the
    thread's buffer can hold them with the four bytes added; for those of the
    last four sizes it reads past its end. *)
Theorem flush_refines {St Bus : Type} `{RecordStoreLaws St} `{CanTx Bus}
  (record : bytes) (s : @pubsub St Bus) (es : list entry) (fuel : nat)
  (Hq : store_holds (pubsub_storage_area s) (stored <$> es)) (Hes : Forall (readable (zlen record)) es)
  (Hcan : forall b m, handled (can_async_tx (Bus := Bus) b m).1 /\ handled (isotp_async_tx (Bus := Bus) b m).1)
  (Hfuel : (length es < fuel)%nat) :
  exists s' k, pub_stored_thread fuel record s = Some (true, s') /\
    flushed (active_remotes s) (zlen record) es (bus s) k (bus s') /\
    active_remotes s' = active_remotes s /\ store_holds (pubsub_storage_area s') (stored <$> drop k es).
Proof.
  revert record s fuel Hq Hes Hfuel.
  induction es as [| [dest data] es IH]; intros record s fuel Hq Hes Hfuel;
    (destruct fuel as [| f]; [simpl in Hfuel; lia |]); simpl in Hfuel; cbn [pub_stored_thread fmap list_fmap] in *.
  - pose proof (pub_stored_turn_spec record s _ Hq ltac:(constructor)) as T. cbn in T. rewrite T.
    exists s, 0%nat. split; [done |]. split; [constructor | done].
  - apply Forall_cons in Hes as [[Hd Hr] Hes]. cbn [fst snd] in *.
    pose proof (zlen_stored (dest, data)) as Lr. cbn [snd] in Lr.
    assert (Forall (fits (zlen record)) (stored (dest, data) :: (stored <$> es))) as Hfits.
    { unfold fits. constructor; [rewrite Lr; lia |]. apply Forall_fmap.
      eapply Forall_impl; [exact Hes |]. intros e [_ He]. pose proof (zlen_stored e). unfold compose. lia. }
    pose proof (pub_stored_turn_spec record s _ Hq Hfits) as T. cbv iota in T.
    destruct (Z.ltb_spec (zlen record) (zlen (stored (dest, data)))) as [L | L].
    + destruct T as (st & -> & Hst). cbn [mbind option_bind].
      destruct (IH record (PubSub (active_remotes s) st (bus s)) f Hst Hes ltac:(lia)) as (s' & k & E & F & A & B).
      exists s', (S k). split; [exact E |]. split; [by apply flushed_too_large | by split].
    + assert (zlen data + 8 <= zlen record) as Hr' by lia.
      destruct (peeked_entry dest data record Hd Hr') as [Ed Em]. pose proof (peeked_extra data record Hr') as Lx.
      rewrite Lr in T. change (stored (dest, data)) with (entry_bytes dest data) in T.
      set (record' := entry_bytes dest data ++ drop (length (entry_bytes dest data)) record) in *.
      assert (zlen record' = zlen record) as Lr'.
      { apply zlen_record. change (zlen (entry_bytes dest data) = 4 + zlen data) in Lr. lia. }
      cbv zeta in T. rewrite Ed, Em in T. unfold publish_is_started in T.
      destruct (bool_decide_reflect (dest ∈ active_remotes s)) as [Ha | Ha]; cbn [negb] in T.
      2:{ rewrite T. exists s, 0%nat. split; [done |]. split; [by apply flushed_no_listener | done]. }
      rewrite can_send_code in T. cbv zeta in T. cbn [destination fst snd bus] in T.
      destruct (send_on (bus s) (CanMessage dest (data ++ slice (4 + zlen data) 4 record))) as [ret b1] eqn:Es.
      pose proof Es as Es'. unfold send_on in Es'. cbn [destination] in Es'. rewrite Es' in T. cbn [fst snd] in T.
      destruct ((ret =? RET_SUCCESS) || (ret =? RET_ERROR_INVALID_PARAM)) eqn:Eok.
      * destruct T as (st & -> & Hst). cbn [mbind option_bind].
        apply orb_true_iff in Eok. rewrite !Z.eqb_eq in Eok.
        destruct (IH record' (PubSub (active_remotes s) st b1) f Hst ltac:(by rewrite Lr') ltac:(lia))
          as (s' & k & E & F & A & B).
        exists s', (S k). split; [exact E |]. rewrite Lr' in F.
        split; [eapply flushed_handed_over; eauto | by split].
      * rewrite T.
        2:{ pose proof (f_equal fst Es') as Ec. cbn in Ec. rewrite <-Ec. destruct (negb _); apply Hcan. }
        apply orb_false_iff in Eok. rewrite !Z.eqb_neq in Eok.
        eexists _, 0%nat. split; [done |]. split; [| done]. eapply flushed_later; try apply Eok; eauto.
Qed.

(** A bus that records what it takes, and a storage on a blank flash. *)
#[export] Instance log_bus : CanTx (list can_message) := {
  can_async_tx b m := if CAN_FRAME_MAX_SIZE <? zlen (payload m) then (RET_ERROR_INVALID_PARAM, b) else (RET_SUCCESS, b ++ [m]);
  isotp_async_tx b m := (RET_SUCCESS, b ++ [m]);
}.

Definition demo_laws : @RecordStoreLaws (storage_sys (nor_w 8)) (storage_store 8) :=
  storage_store_laws (WBS := 8) ltac:(lia) ltac:(reflexivity).
#[local] Existing Instance demo_laws.
#[local] Instance demo_store : RecordStore (storage_sys (nor_w 8)) := storage_store 8.

Lemma flush_refines_witness :
  exists st : storage_sys (nor_w 8),
    let s := PubSub [896; 0] st ([] : list can_message) in
    exists s' k, pub_stored_thread (H := demo_store) 2 (fill 40 170) s = Some (true, s') /\
      flushed [896; 0] 40 [(896, [1; 2; 3])] [] k (bus s').
Proof.
  destruct (store_push_ok (RecordStoreLaws := demo_laws) (Sys 1 (Area (Some blank8) 0 0)) []
              (stored (896, [1; 2; 3]))) as (ret & st & E & Hst).
  { exists (Fifo [] 1024 1024). split; [apply Repr_blank8 | done]. }
  assert (ret = RET_SUCCESS) as -> by (vm_compute in E; injection E as E1 _; by rewrite <- E1).
  exists st. cbv zeta.
  destruct (flush_refines (H0 := demo_laws) (fill 40 170) (PubSub [896; 0] st ([] : list can_message))
              [(896, [1; 2; 3])] 2 Hst) as (s' & k & E' & F & _).
  - apply List.Forall_cons; [| constructor]. split; [split; [discriminate | reflexivity] | left; discriminate].
  - intros b m. split; simpl; [destruct (_ <? _) |]; unfold handled; auto.
  - simpl. lia.
  - exists s', k. split; [exact E' | exact F].
Defined.

(** A stored message is not sent as it was published: the thread passes
    the size of the whole record, destination included, as the size of the
    message, so the bus gets the encoded message followed by four bytes left
    over in the thread's buffer; and when the message is longer than the buffer
    less eight bytes, the copy reads past the end of the buffer. *)
Theorem flush_sends_stale_bytes {St Bus : Type} `{RecordStoreLaws St} `{CanTx Bus}
  (record data : bytes) (dest : Z) (q' : list bytes) (s : @pubsub St Bus)
  (Hq : store_holds (pubsub_storage_area s) (entry_bytes dest data :: q'))
  (Hdest : 0 <= dest < 2 ^ 32) (Hact : dest ∈ active_remotes s)
  (Hlen : 4 + zlen data <= zlen record) :
  if zlen data + 8 <=? zlen record then
    exists m go record' s', pub_stored_turn record s = Some (go, record', s') /\
      m = CanMessage dest (data ++ slice (4 + zlen data) 4 record) /\ bus s' = bus (can_send m s).2
  else pub_stored_turn record s = None.
Proof.
  set (r := entry_bytes dest data) in *.
  assert (zlen r = 4 + zlen data) as Lr by (unfold r, entry_bytes; rewrite zlen_app; done).
  set (record' := r ++ drop (length r) record).
  assert (zlen record' = zlen record) as Lr' by (apply zlen_record; lia).
  assert (get32 record' = dest) as Ed.
  { unfold record', r, entry_bytes, get32, nthZ. simpl. zify_div. }
  unfold pub_stored_turn. rewrite (store_peek_ok _ _ record (zlen record) Hq) by lia.
  unfold peek_result. bfalse (zlen record <? zlen r). fold record'. cbn [mbind option_bind fst snd].
  rewrite Ed, Lr', Lr.
  change (publish_is_started dest _) with (publish_is_started dest s).
  unfold publish_is_started. rewrite bool_decide_true by done. cbn [negb Z.eqb].
  change (RET_SUCCESS =? RET_ERROR_NOT_FOUND) with false. change (RET_SUCCESS =? RET_ERROR_NO_MEM) with false.
  change (RET_SUCCESS =? RET_SUCCESS) with true. cbn [negb]. cbv iota zeta.
  destruct (Z.leb_spec (zlen data + 8) (zlen record)) as [L | L].
  - bfalse (zlen record <? 4 + (4 + zlen data)).
    rewrite (proj2 (peeked_entry dest data record Hdest L) : slice 4 (4 + zlen data) record' = _).
    replace (PubSub (active_remotes s) (pubsub_storage_area s) (bus s)) with s by (by destruct s).
    set (m := CanMessage dest _). set (t := can_send m s). exists m.
    destruct (store_free_ok _ _ Hq) as (st & Ef & Hst).
    assert (pubsub_storage_area t.2 = pubsub_storage_area s) as E2 by apply can_send_keeps.
    destruct (_ || _); [rewrite E2, Ef; simpl; by eexists _, _, _ |].
    destruct (_ || _ || _); by eexists _, _, _.
  - by btrue (zlen record <? 4 + (4 + zlen data)).
Qed.

Lemma flush_sends_stale_bytes_witness :
  exists st : storage_sys (nor_w 8),
    let s := PubSub [896; 0] st ([] : list can_message) in
    exists m go record' s',
      pub_stored_turn (H := demo_store) (fill 40 170) s = Some (go, record', s') /\
      m = CanMessage 896 ([1; 2; 3] ++ [170; 170; 170; 170]) /\ bus s' = bus (can_send m s).2.
Proof.
  destruct (store_push_ok (RecordStoreLaws := demo_laws) (Sys 1 (Area (Some blank8) 0 0)) []
              (entry_bytes 896 [1; 2; 3])) as (ret & st & E & Hst).
  { exists (Fifo [] 1024 1024). split; [apply Repr_blank8 | done]. }
  assert (ret = RET_SUCCESS) as -> by (vm_compute in E; injection E as E1 _; by rewrite <- E1).
  exists st.
  exact (flush_sends_stale_bytes (H0 := demo_laws) (fill 40 170) [1; 2; 3] 896 []
           (PubSub [896; 0] st ([] : list can_message)) Hst ltac:(split; [discriminate | reflexivity])
           ltac:(by left) ltac:(discriminate)).
Defined.

(** What becomes of a published message, case by case (sizes within the
    payload unions, tag within the table): to the security MCU it is always
    sent; to a listening remote it is sent; otherwise its priority decides:
    discarded before anything is encoded, stored, or sent anyway; a forced
    store always stores.  Only a forced store reports the result of the
    storage; a message stored for lack of a listener reports "offline", and a
    message that cannot be encoded changes nothing. *)
Theorem publish_outcomes {St Bus : Type} `{RecordStoreLaws St} `{CanTx Bus}
  (payload_of_tag : Z -> option jetson_payload) (N : Z) (debug : bool) (SEC JET MCU_TO_MCU : Z)
  (pb_encode : mcu_message -> option bytes) (payload : bytes) (which remote : Z) (force : bool)
  (s : @pubsub St Bus) (q : list bytes) (p : sub_priority_e)
  (Hq : store_holds (pubsub_storage_area s) q)
  (Hsize : zlen payload <= if remote =? MCU_TO_MCU then SEC else JET)
  (Hp : sub_prios payload_of_tag N debug which = Some p) :
  let m2m := remote =? MCU_TO_MCU in
  let started := publish_is_started remote s in
  let r := publish payload_of_tag N debug SEC JET MCU_TO_MCU pb_encode payload which remote force true s in
  let stored := negb m2m && (force || (negb started && bool_decide (p = SUB_PRIO_STORE))) in
  if negb m2m && negb force && negb started && bool_decide (p = SUB_PRIO_DISCARD)
  then r = Some (RET_ERROR_OFFLINE, s)
  else
    match pb_encode (McuMessage m2m which payload) with
    | None => r = Some (RET_ERROR_INTERNAL, s)
    | Some data =>
        if stored then
          exists ret st, r = Some (if force then ret else RET_ERROR_OFFLINE, PubSub (active_remotes s) st (bus s)) /\
            store_holds st (if ret =? RET_SUCCESS then q ++ [entry_bytes remote data] else q)
        else r = Some (can_send (CanMessage remote data) s)
    end.
Proof.
  cbv zeta. unfold publish. rewrite Hp.
  assert (0 <= which < N) as Hw.
  { unfold sub_prios in Hp. destruct (Z.leb_spec 0 which), (Z.ltb_spec which N); try discriminate. lia. }
  set (m2m := remote =? MCU_TO_MCU) in *. set (started := publish_is_started remote s).
  assert (((m2m && (SEC <? zlen payload)) || (negb m2m && (N <=? which) && (JET <? zlen payload))) = false) as ->.
  { bfalse (N <=? which). destruct m2m; simpl; [| done]. by bfalse (SEC <? zlen payload). }
  bfalse ((if m2m then SEC else JET) <? zlen payload).
  destruct (store_push_ok (pubsub_storage_area s) q (entry_bytes remote (default [] (pb_encode (McuMessage m2m which payload)))) Hq)
    as (ret & st & E & Hst).
  destruct m2m, force, started, p; simpl; try done;
    destruct (pb_encode _) as [data |] eqn:Ee; simpl in *; try done; rewrite E; simpl; by eexists _, _.
Qed.

Lemma publish_outcomes_witness :
  let s := PubSub [0; 0] (Sys 1 (Area (Some blank8) 0 0)) ([] : list can_message) in
  let prio := fun t => if t =? 3 then Some P_gnss else if t =? 4 then Some P_fatal_error else None in
  publish (H := demo_store) prio 5 false 8 8 1 (fun m => Some (payload_bytes m)) [1; 2] 3 896 false true s =
    Some (RET_ERROR_OFFLINE, s).
Proof.
  cbv zeta.
  apply (publish_outcomes (H0 := demo_laws)
    (fun t => if t =? 3 then Some P_gnss else if t =? 4 then Some P_fatal_error else None) 5 false 8 8 1
    (fun m => Some (payload_bytes m)) [1; 2] 3 896 false
    (PubSub [0; 0] (Sys 1 (Area (Some blank8) 0 0)) ([] : list can_message)) [] SUB_PRIO_DISCARD).
  - exists (Fifo [] 1024 1024). split; [apply Repr_blank8 | done].
  - discriminate.
  - reflexivity.
Defined.

(** The bounds check joins its two conditions with "and": a tag beyond the
    table with a small payload reads past [sub_prios], and a payload larger
    than the union is copied when its tag is in the table. *)
Example publish_bounds_hole :
  let s := PubSub [0; 0] (Sys 1 (Area (Some blank8) 0 0)) ([] : list can_message) in
  let pub := publish (H := demo_store) (fun _ => None) 5 false 8 8 1 (fun m => Some (payload_bytes m)) in
  pub [1; 2] 9 896 false true s = None /\ pub (fill 9 0) 3 896 false true s = None.
Proof. by vm_compute. Qed.

(** Subscriptions: a remote is added once, keeps its place, and is refused only
    when the table is full of others. *)
Lemma subscribe_scan_spec remote l : remote <> 0 ->
  match subscribe_scan remote l with
  | Some l' => remote ∈ l' /\ length l' = length l /\ (forall x, x ∈ l -> x <> 0 -> x ∈ l')
  | None => (0 ∉ l) /\ (remote ∉ l)
  end.
Proof.
  intros Hr. induction l as [| x l IH]; simpl; [split; apply not_elem_of_nil |].
  destruct (Z.eqb_spec x 0) as [-> | N0]; simpl.
  - split; [by left |]. split; [done |]. intros y Hy Hn. apply elem_of_cons in Hy as [-> | Hy]; [done | by right].
  - destruct (Z.eqb_spec x remote) as [-> | N1].
    + split; [by left |]. split; [done |]. done.
    + destruct (subscribe_scan remote l) as [l' |]; simpl.
      * destruct IH as (A & B & C). split; [by right |]. split; [by rewrite B |].
        intros y Hy Hn. apply elem_of_cons in Hy as [-> | Hy]; [by left | right; auto].
      * rewrite !not_elem_of_cons. destruct IH. split; split; done.
Qed.

Lemma subscribe_add_spec {St Bus} (remote : Z) (s : @pubsub St Bus) (Hr : remote <> 0) :
  let r := subscribe_add remote s in
  if bool_decide (0 ∈ active_remotes s \/ remote ∈ active_remotes s)
  then r.1 = RET_SUCCESS /\ publish_is_started remote r.2 = true /\
       (forall x, x <> 0 -> publish_is_started x s = true -> publish_is_started x r.2 = true)
  else r = (RET_ERROR_NO_MEM, s).
Proof.
  cbv zeta. unfold subscribe_add, publish_is_started.
  pose proof (subscribe_scan_spec remote (active_remotes s) Hr) as P.
  destruct (subscribe_scan remote (active_remotes s)) as [l |] eqn:E.
  - destruct P as (A & B & C). case_bool_decide as D.
    + split; [done |]. simpl. rewrite bool_decide_true by done. split; [done |].
      intros x Hx Hin. apply bool_decide_eq_true in Hin. apply bool_decide_eq_true. auto.
    + exfalso. clear -E D. revert l E. induction (active_remotes s) as [| x l IH]; simpl; intros l' E; [done |].
      rewrite !elem_of_cons in D. destruct (Z.eqb_spec x 0); [subst; tauto |].
      destruct (Z.eqb_spec x remote); [subst; tauto |]. simpl in E.
      destruct (subscribe_scan remote l) as [l2 |]; [| done]. apply (IH ltac:(tauto) l2 eq_refl).
  - case_bool_decide as D; [tauto | done].
Qed.
