(* ===== verification/Config.v ===== *)
(** main_board/src/system/config/config.c: the persistent configuration, one
    record of the storage in its own flash partition.

    The second client of [Storage].  [cfg_step] runs the module's calls, with
    restarts and power cuts, and [config_is_persistent] shows that they behave
    as one persistent variable. *)

From S2P Require Import Prelude Flash Storage.

(** ** Data *)

(** [orb_mcu_main_SetConfig_RebootBehavior]; the values are those the tests of
    the module give. *)
Definition BOOT_BUTTON_PRESS : Z := 0.
Definition BOOT_AUTO_ALWAYS_ON : Z := 1.

(** [persistent_config_t]: the packed enum is one byte, the padding seven. *)
Record persistent_config := PersistentConfig { boot : Z; _pad : bytes }.

Definition SIZEOF_CONFIG : Z := 8.
Definition config_bytes (c : persistent_config) : bytes := boot c :: _pad c.
Definition config_of (b : bytes) : persistent_config := PersistentConfig (nthZ b 0) (slice 1 7 b).
Definition config_zero : persistent_config := PersistentConfig 0 (fill 7 0).

Record config_sys (D : Type) := ConfigSys {
  config_storage_area : storage_sys D;
  current_config : persistent_config;
  initialized : bool;
  config_mutex : Z;   (* lock count *)
}.
Arguments ConfigSys {D}.
Arguments config_storage_area {D}.
Arguments current_config {D}.
Arguments initialized {D}.
Arguments config_mutex {D}.

Section Operations.
Context {D : Type} `{FlashDriver D} `{Crc} (WBS : Z).

Definition with_storage (st : storage_sys D) (s : config_sys D) : config_sys D :=
  ConfigSys st (current_config s) (initialized s) (config_mutex s).
Definition with_config (c : persistent_config) (s : config_sys D) : config_sys D :=
  ConfigSys (config_storage_area s) c (initialized s) (config_mutex s).
Definition with_initialized (i : bool) (s : config_sys D) : config_sys D :=
  ConfigSys (config_storage_area s) (current_config s) i (config_mutex s).
Definition lock (s : config_sys D) : config_sys D :=
  ConfigSys (config_storage_area s) (current_config s) (initialized s) (config_mutex s + 1).
Definition unlock (s : config_sys D) : config_sys D :=
  ConfigSys (config_storage_area s) (current_config s) (initialized s) (config_mutex s - 1).

(** [persist_config] up to the push: the old record is freed; a failure is
    only logged. *)
Definition free_old_record (s : config_sys D) : option (config_sys D) :=
  '(data, st) ← storage_has_data (config_storage_area s);
  if (data : bool) then
    '(_, st) ← storage_free WBS st;
    Some (with_storage st s)
  else Some (with_storage st s).

Definition persist_config (s : config_sys D) : option (Z * config_sys D) :=
  s ← free_old_record s;
  '(ret, _, st) ← storage_push WBS (config_storage_area s) (Some (config_bytes (current_config s)));
  Some (ret, with_storage st s).

(** The [while] of [config_init]; [None] also when the fuel runs out. *)
Fixpoint drain (fuel : nat) (st : storage_sys D) : option (storage_sys D) :=
  match fuel with
  | O => None
  | S f =>
      '(data, st) ← storage_has_data st;
      if negb data then Some st
      else
        '(last, st) ← storage_is_last_record WBS st;
        if (last : bool) then Some st
        else
          '(ret, st) ← storage_free WBS st;
          if negb (ret =? RET_SUCCESS) then Some st else drain f st
  end.

(** [opened] is the result of opening the partition. *)
Definition config_init (fuel : nat) (opened : Z * D) (s : config_sys D) : option (Z * config_sys D) :=
  let s := with_initialized false (with_config config_zero (lock s)) in
  '(ret, st) ← storage_init WBS (config_storage_area s) opened;
  if negb (ret =? RET_SUCCESS) then Some (ret, unlock (with_storage st s))
  else
    st ← drain fuel st;
    '(ret, tmp, _, st) ← storage_peek WBS st (fill SIZEOF_CONFIG 0) SIZEOF_CONFIG;
    let s := with_storage st s in
    let s := if ret =? RET_SUCCESS then with_config (config_of tmp) s else s in
    Some (RET_SUCCESS, unlock (with_initialized true s)).

(** The assertion that the module is initialised is the [None]. *)
Definition config_get_reboot_behavior (s : config_sys D) : option Z :=
  if initialized s then Some (boot (current_config s)) else None.

Definition config_set_reboot_behavior (behavior : Z) (s : config_sys D) : option (Z * config_sys D) :=
  let s := lock s in
  if negb (initialized s) then Some (RET_ERROR_NOT_INITIALIZED, unlock s)
  else if boot (current_config s) =? behavior then Some (RET_SUCCESS, unlock s)
  else if negb (behavior =? BOOT_BUTTON_PRESS) && negb (behavior =? BOOT_AUTO_ALWAYS_ON)
  then Some (RET_ERROR_INVALID_PARAM, unlock s)
  else
    let s := with_config (PersistentConfig behavior (_pad (current_config s))) s in
    '(ret, s) ← persist_config s;
    Some (ret, unlock s).

(** *** The module's life *)

Inductive cfg_cmd :=
| CfgSet (behavior : Z)    (* a call of config_set_reboot_behavior *)
| CfgInit                  (* a second call of config_init *)
| CfgReboot                (* RAM is lost, config_init runs *)
| CfgCut (behavior : Z).   (* power fails between the free and the push of a set, then a reboot *)

(** RAM as the C runtime leaves it; the flash keeps its content. *)
Definition power_on (fuel : nat) (s : config_sys D) : option (Z * config_sys D) :=
  d ← fa (area (config_storage_area s));
  config_init fuel (0, d) (ConfigSys (Sys 1 (Area None 0 0)) config_zero false 0).

Definition cut_in_set (behavior : Z) (s : config_sys D) : option (config_sys D) :=
  if negb (boot (current_config s) =? behavior) &&
     ((behavior =? BOOT_BUTTON_PRESS) || (behavior =? BOOT_AUTO_ALWAYS_ON))
  then free_old_record s else Some s.

Definition cfg_step (fuel : nat) (s : config_sys D) (c : cfg_cmd) : option (Z * config_sys D) :=
  match c with
  | CfgSet b => config_set_reboot_behavior b s
  | CfgInit => d ← fa (area (config_storage_area s)); config_init fuel (0, d) s
  | CfgReboot => power_on fuel s
  | CfgCut b => s ← cut_in_set b s; power_on fuel s
  end.

Fixpoint cfg_run (fuel : nat) (s : config_sys D) (cs : list cfg_cmd) : option (list Z * config_sys D) :=
  match cs with
  | [] => Some ([], s)
  | c :: cs =>
      '(r, s) ← cfg_step fuel s c;
      '(rs, s) ← cfg_run fuel s cs;
      Some (r :: rs, s)
  end.
End Operations.

(** ** The specification: one persistent variable *)

Definition valid_behavior (b : Z) : bool := (b =? BOOT_BUTTON_PRESS) || (b =? BOOT_AUTO_ALWAYS_ON).

Definition spec_step (v : Z) (c : cfg_cmd) : Z * Z :=
  match c with
  | CfgSet b => if valid_behavior b then (RET_SUCCESS, b) else (RET_ERROR_INVALID_PARAM, v)
  | CfgInit | CfgReboot => (RET_SUCCESS, v)
  | CfgCut b => (RET_SUCCESS, if valid_behavior b && negb (v =? b) then BOOT_BUTTON_PRESS else v)
  end.

Fixpoint spec_run (v : Z) (cs : list cfg_cmd) : list Z * Z :=
  match cs with
  | [] => ([], v)
  | c :: cs => let k := spec_run (spec_step v c).2 cs in ((spec_step v c).1 :: k.1, k.2)
  end.

(** ** Lemmas *)

Definition record_of (v : Z) : bytes := v :: fill 7 0.

#[local] Arguments storage_free : simpl never.
#[local] Arguments storage_push : simpl never.
#[local] Arguments storage_peek : simpl never.
#[local] Arguments storage_init : simpl never.
#[local] Arguments storage_has_data : simpl never.
#[local] Arguments storage_is_last_record : simpl never.
#[local] Arguments fill : simpl never.
#[local] Arguments SIZEOF_CONFIG : simpl never.

(** The bytes freed configuration records leave: zeros and ones, beginning
    with two zeros. *)
Definition bit (x : Z) : Prop := x = 0 \/ x = 1.
Definition quiet (pre : bytes) : Prop :=
  pre = [] \/ exists mid, pre = [0; 0] ++ mid /\ Forall bit mid.

Ltac bits := repeat apply Forall_cons_2; first [apply Forall_nil_2 | done | by left].

Lemma quiet_stale WBS pre v : SIZEOF_HEADER mod WBS = 0 -> bit v -> quiet pre ->
  quiet (pre ++ stale (WBS := WBS) (record_of v)).
Proof.
  intros Hw Hv Hq.
  assert (stale (WBS := WBS) (record_of v) = [0;0] ++ [0;0;0;0;0;0;v;0;0;0;0;0;0;0]) as ->.
  { unfold stale, padding_of. change (zlen (record_of v)) with SIZEOF_HEADER. rewrite Hw. done. }
  right. destruct Hq as [-> | (mid & -> & Hm)].
  - eexists. split; [done | bits].
  - eexists. split; [by rewrite <- app_assoc |]. apply Forall_app; split; [done | bits].
Qed.

Lemma quiet_bit pre tl k : quiet pre -> 0 <= k < zlen pre -> bit (nthZ (pre ++ tl) k).
Proof.
  intros Hq Hk. assert (Forall bit pre) as Hf.
  { destruct Hq as [-> | (mid & -> & Hm)]; [bits |]. apply Forall_app; split; [bits | done]. }
  unfold nthZ. unfold zlen in Hk. rewrite app_nth1 by lia. rewrite Forall_nth in Hf. apply Hf. lia.
Qed.

Lemma get16_slice (b : bytes) k : 0 <= k ->
  get16 (slice k 8 b) 0 = u8 (nthZ b k) + 256 * u8 (nthZ b (k + 1)).
Proof.
  intros. unfold get16, slice, nthZ. rewrite !nth_firstn, !nth_skipn. simpl.
  do 3 f_equal; f_equal; lia.
Qed.

(** Quiet bytes never look like a header, whatever follows them. *)
Lemma quiet_clean WBS pre tl : quiet pre -> clean_prefix (WBS := WBS) (pre ++ tl) (zlen pre).
Proof.
  intros Hq. split.
  - intros Hn. destruct Hq as [-> | (mid & -> & _)]; done.
  - intros k Hk _. unfold SIZEOF_HEADER. rewrite get16_slice by lia.
    pose proof (u8_range (nthZ (pre ++ tl) (k + 1))).
    unfold RECORD_VALID, RECORD_UNUSED.
    destruct (quiet_bit pre tl k Hq Hk) as [-> | ->]; [change (u8 0) with 0 | change (u8 1) with 1]; lia.
Qed.

Section Client.
Context {D : Type} {WBS : Z} `{FlashLaws D WBS} `{CrcLaws}.
Context (WBS_pos : 0 < WBS) (WBS_header : SIZEOF_HEADER mod WBS = 0).

Abbreviation Rat := (Repr_at (WBS := WBS)).

Lemma record_footprint v : footprint WBS (record_of v) = 16.
Proof. unfold footprint, padding_of. change (zlen (record_of v)) with SIZEOF_HEADER. by rewrite WBS_header. Qed.

(** The partition: freed configurations, at most one record, erased flash;
    whole records fit in it. *)
Record partition (q : fifo) (pre : bytes) (v : Z) : Prop := Partition {
  part_quiet : quiet pre;
  part_room : room q mod 16 = 0;
  part_cap : 512 <= cap q /\ cap q mod 16 = 0;
  part_queue : queue q = [] /\ v = 0 /\ 16 <= room q \/ queue q = [record_of v];
}.

Record CfgInv (s : config_sys D) (v : Z) : Prop := CfgInvI {
  inv_bit : bit v;
  inv_config : current_config s = PersistentConfig v (fill 7 0);
  inv_initialized : initialized s = true;
  inv_mutex : config_mutex s = 0;
  inv_flash : exists q pre, Rat (config_storage_area s) q pre /\ partition q pre v;
}.

(** Start-up on such a partition reads the value back. *)
Lemma storage_init_partition st d q pre v rd wr :
  sem_storage st = 1 -> layout (WBS := WBS) d pre q rd wr -> partition q pre v ->
  exists st', storage_init WBS st (0, d) = Some (RET_SUCCESS, st') /\ Rat st' q pre.
Proof.
  intros S L [Hq Hr Hc Hv].
  assert (recoverable (WBS := WBS) d q rd) as R.
  { split.
    - rewrite (lay_content _ _ _ _ _ L), <- (lay_rd _ _ _ _ _ L). by apply quiet_clean.
    - pose proof (lay_room _ _ _ _ _ L). destruct Hv as [(-> & _ & Hv) | ->]; [left; lia |].
      destruct (Z.eq_dec (room q) 0); [by right | left; zify_div]. }
  pose proof (init_area_recovers WBS_pos d pre q rd wr L R) as I.
  unfold storage_init, sem_take. rewrite S. cbn. rewrite I. cbn.
  eexists. split; [done |]. split; [done |]. cbn. eauto.
Qed.

Lemma config_init_reads fuel s d q pre v rd wr :
  sem_storage (config_storage_area s) = 1 -> config_mutex s = 0 -> bit v ->
  layout (WBS := WBS) d pre q rd wr -> partition q pre v -> (0 < fuel)%nat ->
  exists s', config_init WBS fuel (0, d) s = Some (RET_SUCCESS, s') /\ CfgInv s' v.
Proof.
  intros S M Hb L P Hf. destruct (storage_init_partition _ d q pre v rd wr S L P) as (st & I & R).
  pose proof (Repr_at_Repr _ _ _ R) as R'.
  unfold config_init. cbn [config_storage_area with_initialized with_config lock]. rewrite I. cbn.
  destruct fuel as [| f]; [lia |]. cbn [drain].
  rewrite (storage_has_data_refines WBS_pos _ _ R'). cbn.
  pose proof (storage_peek_refines WBS_pos st q (fill SIZEOF_CONFIG 0) SIZEOF_CONFIG R' ltac:(done)) as K.
  unfold fifo_peek in K. destruct P as [Hq Hr Hc [(Eq & -> & Hv) | Eq]]; rewrite Eq in *.
  - cbn. rewrite K. cbn. eexists. split; [done |]. split; cbn; try done; [lia |].
    exists q, pre. split; [done |]. split; auto.
  - cbn. rewrite (storage_is_last_refines WBS_pos _ _ R'), Eq. cbn.
    rewrite bool_decide_true by done. cbn.
    change (SIZEOF_CONFIG <? zlen (record_of v)) with false in K. rewrite K. cbn.
    eexists. split; [done |]. split; cbn; try done; [lia |].
    exists q, pre. split; [done |]. split; auto.
Qed.

Lemma free_old_record_inv s v : CfgInv s v ->
  exists st q pre, free_old_record WBS s = Some (with_storage st s) /\ Rat st q pre /\
    queue q = [] /\ 16 <= room q /\ room q mod 16 = 0 /\ 512 <= cap q /\ cap q mod 16 = 0 /\ quiet pre.
Proof.
  intros [Hb Hc Hi Hm (q & pre & R & [Hq Hr [Hcap Hc16] Hv])].
  unfold free_old_record. rewrite (storage_has_data_refines WBS_pos _ _ (Repr_at_Repr _ _ _ R)).
  destruct Hv as [(Eq & _ & Hv) | Eq]; rewrite Eq; cbn.
  - exists (config_storage_area s), q, pre. done.
  - destruct (storage_free_at WBS_pos WBS_header _ _ _ R) as (st & -> & R'). cbn.
    unfold fifo_free, free_pre in *. rewrite Eq in R'.
    destruct (Z.ltb_spec (room q) MINIMUM_EMPTY_SPACE); cbn in R'; exists st; eexists _, _;
      (split; [done |]); (split; [exact R' |]); cbn; unfold MINIMUM_EMPTY_SPACE in *;
      repeat split; try done; try lia.
    + by left.
    + by apply quiet_stale.
Qed.

(** The push that follows always finds room. *)
Lemma push_config v st q pre :
  Rat st q pre -> queue q = [] -> 16 <= room q -> room q mod 16 = 0 -> 512 <= cap q ->
  cap q mod 16 = 0 -> quiet pre ->
  exists st' q', storage_push WBS st (Some (record_of v)) = Some (RET_SUCCESS, record_of v, st') /\
    Rat st' q' pre /\ partition q' pre v.
Proof.
  intros R Eq Hr H16 Hc Hc16 Hq.
  destruct (storage_push_at WBS_pos WBS_header st q pre (record_of v) R) as (st' & E & R').
  { change (zlen (record_of v)) with 8. lia. }
  unfold fifo_push in *. rewrite record_footprint in *. change (zlen (record_of v)) with 8 in *.
  revert E R'. bfalse (cap q <? 8). bfalse (room q <? 16). cbn. rewrite Eq. intros E R'.
  exists st'. eexists. split; [exact E |]. split; [exact R' |].
  split; cbn; auto. rewrite Zminus_mod, H16. done.
Qed.

Lemma set_inv b s v : CfgInv s v ->
  exists s', config_set_reboot_behavior WBS b s =
      Some (if valid_behavior b then RET_SUCCESS else RET_ERROR_INVALID_PARAM, s') /\
    CfgInv s' (if valid_behavior b then b else v).
Proof.
  intros I. pose proof I as [Hb Hc Hi Hm Hf]. unfold config_set_reboot_behavior.
  cbn [initialized current_config lock]. rewrite Hi, Hc. cbn [negb boot].
  assert (unlock (lock s) = s) as Eu.
  { destruct s; unfold unlock, lock; cbn. f_equal. lia. }
  destruct (Z.eqb_spec v b) as [<- | Hne].
  { rewrite Eu. exists s. assert (valid_behavior v = true) as ->; [| done].
    unfold valid_behavior. destruct Hb as [-> | ->]; done. }
  rewrite <- negb_orb. fold (valid_behavior b).
  destruct (valid_behavior b) eqn:Ev; cbn [negb]; [| rewrite Eu; by exists s].
  set (s1 := with_config _ (lock s)).
  destruct (free_old_record_inv s v I) as (st & q & pre & Ef & R & Eq & Hr & H16 & Hcap & Hc16 & Hq).
  assert (free_old_record WBS s1 = Some (with_storage st s1)) as Ef1.
  { revert Ef. unfold free_old_record, s1. cbn [config_storage_area with_config lock].
    destruct (storage_has_data _) as [[[] st1] |]; cbn; [| | done].
    - destruct (storage_free WBS st1) as [[r st2] |]; cbn; [| done].
      intros [= E]. do 2 f_equal. done.
    - intros [= E]. do 2 f_equal. done. }
  unfold persist_config. rewrite Ef1. cbn [mbind option_bind config_storage_area with_storage current_config].
  change (config_bytes (current_config s1)) with (record_of b).
  destruct (push_config b st q pre) as (st' & q' & E & R' & P); try done.
  rewrite E. cbn. eexists. split; [done |].
  split; cbn; try done; [| lia | eauto].
  unfold valid_behavior, BOOT_BUTTON_PRESS, BOOT_AUTO_ALWAYS_ON in Ev. unfold bit. bdestruct_all; auto.
Qed.

Lemma power_on_inv fuel s q pre v : bit v -> (0 < fuel)%nat ->
  Rat (config_storage_area s) q pre -> partition q pre v ->
  exists s', power_on WBS fuel s = Some (RET_SUCCESS, s') /\ CfgInv s' v.
Proof.
  intros Hb Hf (S & d & F & L) P. unfold power_on. rewrite F. cbn [mbind option_bind].
  by eapply config_init_reads.
Qed.

Lemma step_inv fuel s v c : (0 < fuel)%nat -> CfgInv s v ->
  exists s', cfg_step WBS fuel s c = Some ((spec_step v c).1, s') /\ CfgInv s' (spec_step v c).2.
Proof.
  intros Hf I. pose proof I as [Hb Hc Hi Hm (q & pre & R & P)].
  destruct c as [b | | | b]; cbn [cfg_step spec_step].
  - destruct (set_inv b s v I) as (s' & E & I'). exists s'. destruct (valid_behavior b); done.
  - pose proof R as (S & d & F & L). rewrite F. cbn [mbind option_bind]. by eapply config_init_reads.
  - by eapply power_on_inv.
  - unfold cut_in_set. rewrite Hc. cbn [boot]. fold (valid_behavior b). rewrite andb_comm.
    destruct (valid_behavior b && negb (v =? b)) eqn:Ec; cbn [mbind option_bind].
    + destruct (free_old_record_inv s v I) as (st & q' & pre' & -> & R' & Eq & Hr & H16 & Hcap & Hc16 & Hq).
      cbn [mbind option_bind fst snd]. eapply power_on_inv; [by left | done | exact R' |].
      split; auto.
    + by eapply power_on_inv.
Qed.
End Client.

(** ** Theorems *)

Section Theorems.
Context {D : Type} {WBS : Z} `{FlashLaws D WBS} `{CrcLaws}.
Context (WBS_pos : 0 < WBS) (WBS_header : SIZEOF_HEADER mod WBS = 0).

(** C15: On a flash that works, the configuration is one persistent variable.
    Through any sequence of settings, re-initialisations, restarts and power cuts between the
    freeing of the old record and the writing of the new one, every call returns
    what the specification says, the value read is the last one successfully
    set, and a cut setting leaves BOOT_BUTTON_PRESS, which is the old value or
    the new one.  No call ever runs out of space in the partition.  A power cut
    while the record is being written is not among the commands:
    [torn_push_fails_next_set] is what it leaves. *)
Theorem config_is_persistent (fuel : nat) (cs : list cfg_cmd) : forall (s : config_sys D) (v : Z),
  CfgInv (WBS := WBS) s v -> (0 < fuel)%nat ->
  exists s', cfg_run WBS fuel s cs = Some ((spec_run v cs).1, s') /\
    config_get_reboot_behavior s' = Some (spec_run v cs).2 /\ config_mutex s' = 0.
Proof.
  induction cs as [| c cs IH]; intros s v I Hf; cbn [cfg_run spec_run].
  - exists s. destruct I as [_ Hc Hi Hm _]. unfold config_get_reboot_behavior. by rewrite Hi, Hc.
  - destruct (step_inv WBS_pos WBS_header fuel s v c Hf I) as (s1 & -> & I1).
    destruct (IH s1 _ I1 Hf) as (s' & E & G). cbn. rewrite E. by exists s'.
Qed.

Lemma last_drop {A} (l : list A) : last l = head (drop (length l - 1) l).
Proof.
  induction l as [| x [| y l] IH]; [done | done |]. cbn [length] in *.
  replace (S (S (length l)) - 1)%nat with (S (S (length l) - 1)) by lia. exact IH.
Qed.

Lemma drain_keeps_last : forall fuel (st : storage_sys D) (q : fifo),
  Repr (WBS := WBS) st q -> (length (queue q) < fuel)%nat ->
  exists st', drain WBS fuel st = Some st' /\
    Repr (WBS := WBS) st' (Fifo (drop (length (queue q) - 1) (queue q)) (room q) (cap q)).
Proof.
  induction fuel as [| f IH]; intros st q R Hf; [lia |]. cbn [drain].
  rewrite (storage_has_data_refines WBS_pos _ _ R). cbn [mbind option_bind].
  destruct q as [[| r [| r2 rest]] ro ca]; cbn [queue] in *; cbn [bool_decide negb length] in *.
  - rewrite bool_decide_true by done. cbn. by exists st.
  - rewrite bool_decide_false by done. cbn [negb].
    rewrite (storage_is_last_refines WBS_pos _ _ R). cbn. by exists st.
  - rewrite bool_decide_false by done. cbn [negb].
    rewrite (storage_is_last_refines WBS_pos _ _ R). cbn [mbind option_bind queue length].
    rewrite bool_decide_false by done.
    pose proof (storage_free_refines WBS_pos WBS_header _ _ R) as F. unfold fifo_free in F. cbn [queue] in F.
    destruct F as (st1 & -> & R1). cbn [mbind option_bind Z.eqb RET_SUCCESS negb].
    destruct (IH st1 _ R1) as (st' & E & R'); [cbn in *; lia |].
    exists st'. split; [exact E |]. cbn in *. by rewrite Nat.sub_0_r in *.
Qed.

(** Start-up keeps the last of several records, whatever an interrupted
    setting or an older firmware left: the others are freed, the last one is
    read, completed with zeros when it is shorter than the structure, and
    ignored (defaults) when it is longer. *)
Theorem config_init_keeps_last (fuel : nat) (d : D) (pre : bytes) (q : fifo) (rd wr : Z) (s : config_sys D)
  (L : layout (WBS := WBS) d pre q rd wr) (R : recoverable (WBS := WBS) d q rd)
  (S : sem_storage (config_storage_area s) = 1) (Hf : (length (queue q) < fuel)%nat) :
  exists s', config_init WBS fuel (0, d) s = Some (RET_SUCCESS, s') /\
    Repr (WBS := WBS) (config_storage_area s')
      (Fifo (drop (length (queue q) - 1) (queue q)) (room q) (cap q)) /\
    config_mutex s' = config_mutex s /\
    config_get_reboot_behavior s' =
      Some (match last (queue q) with
            | Some r => if SIZEOF_CONFIG <? zlen r then 0 else nthZ r 0
            | None => 0
            end).
Proof.
  pose proof (init_area_recovers WBS_pos d pre q rd wr L R) as I.
  set (st0 := Sys 1 (Area (Some d) wr rd)).
  assert (Repr (WBS := WBS) st0 q) as R0 by (split; [done | cbn; eauto]).
  assert (storage_init WBS (config_storage_area s) (0, d) = Some (RET_SUCCESS, st0)) as E0.
  { unfold storage_init, sem_take. rewrite S. cbn. by rewrite I. }
  destruct (drain_keeps_last fuel st0 q R0 Hf) as (st & Ed & Rd).
  unfold config_init. cbn [config_storage_area with_initialized with_config lock]. rewrite E0.
  cbn [mbind option_bind Z.eqb RET_SUCCESS negb]. rewrite Ed. cbn [mbind option_bind].
  pose proof (storage_peek_refines WBS_pos st _ (fill SIZEOF_CONFIG 0) SIZEOF_CONFIG Rd ltac:(done)) as K.
  unfold fifo_peek in K. cbn [queue] in K.
  rewrite last_drop.
  set (h := drop _ _) in *. destruct h as [| r rest]; [| destruct (SIZEOF_CONFIG <? zlen r) eqn:El];
    cbn [head]; rewrite K; cbn; eexists; (split; [done |]); (split; [exact Rd |]);
    (split; [cbn; lia |]); try done; unfold config_get_reboot_behavior; cbn.
  - by rewrite El.
  - rewrite El. by destruct r.
Qed.

(** A setting whose write failed is not repeated.  The value in RAM is
    changed before the record is written and stays changed, so asking again for
    the same behavior reports success and writes nothing: until the next
    restart the device answers with a value the flash does not hold. *)
Theorem config_failed_set_not_repeated (b ret : Z) (s s' : config_sys D)
  (Hi : initialized s = true) (Hv : valid_behavior b = true)
  (E : config_set_reboot_behavior WBS b s = Some (ret, s')) (Hret : ret <> RET_SUCCESS) :
  config_get_reboot_behavior s' = Some b /\
  exists s2, config_set_reboot_behavior WBS b s' = Some (RET_SUCCESS, s2) /\
    config_storage_area s2 = config_storage_area s'.
Proof.
  assert (initialized s' = true /\ boot (current_config s') = b) as [Ei Eb].
  { revert E. unfold config_set_reboot_behavior. cbn [lock initialized current_config].
    rewrite Hi. cbn [negb]. destruct (Z.eqb_spec (boot (current_config s)) b); [by intros [= <- _] |].
    rewrite <- negb_orb. fold (valid_behavior b). rewrite Hv. cbn [negb]. unfold persist_config, free_old_record.
    destruct (storage_has_data _) as [[[] st] |]; cbn; [| | done].
    - destruct (storage_free WBS st) as [[r st2] |]; cbn; [| done].
      destruct (storage_push WBS st2 _) as [[[r2 x] st3] |]; cbn; [| done]. by intros [= _ <-].
    - destruct (storage_push WBS st _) as [[[r2 x] st3] |]; cbn; [| done]. by intros [= _ <-]. }
  unfold config_get_reboot_behavior, config_set_reboot_behavior.
  cbn [lock initialized current_config]. rewrite Ei, Eb, Z.eqb_refl. cbn.
  split; [done |]. by eexists.
Qed.
End Theorems.

(** A blank partition, and one that cannot be written until it is erased. *)
Definition blank_config : config_sys (nor_w 8) :=
  ConfigSys (Sys 1 (Area (Some blank8) 0 0)) config_zero true 0.
Definition worn_config : config_sys (nor_w 8) :=
  ConfigSys (Sys 1 (Area (Some (exist _ (Nor (fill 1024 1) 8) eq_refl)) 0 0)) config_zero true 0.

Lemma blank_config_inv : CfgInv (WBS := 8) blank_config 0.
Proof.
  split; try done; [by left |]. exists (Fifo [] 1024 1024), [].
  split.
  - split; [done |]. exists blank8. split; [done |].
    split; cbn [queue room cap blank_config config_storage_area area rd_idx wr_idx]; try reflexivity; try lia. constructor.
  - split; cbn; [by left | done | done | left; repeat split; done].
Qed.

Lemma config_is_persistent_witness :
  exists s', cfg_run 8 1 blank_config [CfgSet 1; CfgReboot; CfgSet 7; CfgCut 0; CfgSet 1; CfgInit] =
      Some ([RET_SUCCESS; RET_SUCCESS; RET_ERROR_INVALID_PARAM; RET_SUCCESS; RET_SUCCESS; RET_SUCCESS], s') /\
    config_get_reboot_behavior s' = Some 1 /\ config_mutex s' = 0.
Proof.
  apply (config_is_persistent (WBS := 8) ltac:(lia) ltac:(reflexivity) 1
    [CfgSet 1; CfgReboot; CfgSet 7; CfgCut 0; CfgSet 1; CfgInit] blank_config 0 blank_config_inv).
  lia.
Defined.

(** Power fails while the new record is being written, after its data and before its
    header: the restart does not see the data, and the next setting writes into
    it, fails and erases the partition.  The setting is not stored. *)
Definition torn_config : config_sys (nor_w 8) :=
  ConfigSys (Sys 1 (Area (Some (exist _ (Nor (fill 8 255 ++ record_of 1 ++ fill 1008 255) 8) eq_refl)) 0 0)) config_zero false 0.

Example torn_push_fails_next_set :
  fst <$> cfg_run 8 1 torn_config [CfgReboot; CfgSet 1; CfgReboot; CfgSet 1] =
    Some [RET_SUCCESS; RET_ERROR_INTERNAL; RET_SUCCESS; RET_SUCCESS] /\
  (r ← cfg_run 8 1 torn_config [CfgReboot; CfgSet 1; CfgReboot]; config_get_reboot_behavior r.2) = Some BOOT_BUTTON_PRESS.
Proof. split; vm_compute; reflexivity. Qed.

Lemma config_init_keeps_last_witness :
  exists s', config_init 8 2 (0, used8) (ConfigSys (Sys 1 (Area None 0 0)) config_zero false 0) =
      Some (RET_SUCCESS, s') /\
    Repr (WBS := 8) (config_storage_area s') (Fifo [[4; 5]] 992 1024) /\ config_mutex s' = 0 /\
    config_get_reboot_behavior s' = Some 4.
Proof.
  apply (config_init_keeps_last (WBS := 8) ltac:(lia) ltac:(reflexivity) 2 used8 stale8 used_q 16 32).
  - exact used8_layout.
  - split; [exact used8_clean | left; reflexivity].
  - reflexivity.
  - cbn. lia.
Defined.

Lemma config_failed_set_not_repeated_witness :
  exists s', config_set_reboot_behavior 8 1 worn_config = Some (RET_ERROR_INTERNAL, s') /\
    config_get_reboot_behavior s' = Some 1.
Proof.
  destruct (config_set_reboot_behavior 8 1 worn_config) as [[ret s'] |] eqn:E;
    [| vm_compute in E; discriminate].
  assert (ret = RET_ERROR_INTERNAL) as -> by (vm_compute in E; by injection E as <- _).
  exists s'. split; [done |].
  apply (config_failed_set_not_repeated (WBS := 8) 1 RET_ERROR_INTERNAL worn_config s'
    eq_refl eq_refl E ltac:(discriminate)).
Defined.
