(* ===== verification/IrTimer.v ===== *)
(** main_board/src/optics/ir_camera_system/ir_camera_timer_settings.c: the
    timer settings of the infrared LEDs and cameras, with the eye-safety limits
    on the on-time and on the duty cycle.

    The duty-cycle test of the source is in double precision: it is modelled
    with the IEEE 754 operations of [SpecFloat], so that rounding is the one of
    the code. *)

From Stdlib Require Import SpecFloat.
From S2P Require Import Prelude Floats.

(** ** Limits *)

Definition IR_CAMERA_SYSTEM_MAX_IR_LED_ON_TIME_US (b : board) : Z :=
  match b with Pearl => 5000 | Diamond => 7500 end.
(** 0.15 and 0.25, as doubles. *)
Definition IR_CAMERA_SYSTEM_MAX_IR_LED_DUTY_CYCLE (b : board) : spec_float :=
  match b with Pearl => dbl 5404319552844595 (-55) | Diamond => dbl 1 (-2) end.
Definition IR_CAMERA_SYSTEM_NEXT_STROBE_END_MARGIN_US : Z := 50.
Definition IR_CAMERA_SYSTEM_MAX_FPS : Z := 60.
Definition TIMER_CLOCK_FREQ_HZ : Z := 170000000.
Definition TIMER_CLOCK_FREQ_MHZ : Z := TIMER_CLOCK_FREQ_HZ / 1000000.
Definition TIMER_COUNTER_WIDTH_BITS : Z := 16.

(** [1e6 / fps * IR_CAMERA_SYSTEM_MAX_IR_LED_DUTY_CYCLE]. *)
Definition max_on_time_for_fps (b : board) (fps : Z) : spec_float :=
  dmul (ddiv (dbl 1000000 0) (dbl fps 0)) (IR_CAMERA_SYSTEM_MAX_IR_LED_DUTY_CYCLE b).

(** [struct ir_camera_timer_settings]; the two [initial]/[max] fields only exist
    on Diamond and stay 0 on Pearl. *)
Record ir_camera_timer_settings := TimerSettings {
  fps : Z;
  master_psc : Z;
  master_arr : Z;
  master_initial_counter : Z;
  master_max_ir_leds_tick : Z;
  on_time_in_us : Z;
}.

#[export] Instance timer_settings_eq_dec : EqDecision ir_camera_timer_settings.
Proof. solve_decision. Defined.

Definition timer_settings_zero : ir_camera_timer_settings := TimerSettings 0 0 0 0 0 0.

(** ** Operations *)

Definition delay_us (ts : ir_camera_timer_settings) : Z :=
  u32 (1000000 / fps ts - on_time_in_us ts - IR_CAMERA_SYSTEM_NEXT_STROBE_END_MARGIN_US).

(** Microseconds to master ticks, with the roundings and wrap-arounds of the code. *)
Definition ticks_of_us (ts : ir_camera_timer_settings) (us : Z) : Z :=
  u32 (TIMER_CLOCK_FREQ_HZ / (master_psc ts + 1) * (us / 100)) / 10000.

Definition compute_master_timer_durations (b : board) (ts : ir_camera_timer_settings)
  : ir_camera_timer_settings :=
  if fps ts =? 0 then ts
  else
    let delay_ticks := ticks_of_us ts (delay_us ts) in
    TimerSettings (fps ts) (master_psc ts) (master_arr ts)
      (u16 (if delay_ticks <? master_arr ts then master_arr ts - delay_ticks else master_arr ts - 1))
      (ticks_of_us ts (IR_CAMERA_SYSTEM_MAX_IR_LED_ON_TIME_US b))
      (on_time_in_us ts).

Definition set_on_time (v : Z) (ts : ir_camera_timer_settings) : ir_camera_timer_settings :=
  TimerSettings (fps ts) (master_psc ts) (master_arr ts) (master_initial_counter ts)
    (master_max_ir_leds_tick ts) v.

(** [timer_settings_from_on_time_us(on_time_us, current, new)]: the return code
    and the content of [new]. *)
Definition timer_settings_from_on_time_us (b : board) (on_time_us : Z)
  (current new : ir_camera_timer_settings) : Z * ir_camera_timer_settings :=
  if IR_CAMERA_SYSTEM_MAX_IR_LED_ON_TIME_US b <? on_time_us then (RET_ERROR_INVALID_PARAM, new)
  else if negb (fps current =? 0) && dbl_ltb_int (max_on_time_for_fps b (fps current)) on_time_us
  then (RET_ERROR_INVALID_PARAM, new)
  else
    let ts := set_on_time on_time_us current in
    (RET_SUCCESS,
     if bool_decide (b = Diamond) && negb (fps ts =? 0)
     then compute_master_timer_durations b ts else ts).

Definition max_on_time_us_for_this_fps (b : board) (fps : Z) : Z :=
  let m := IR_CAMERA_SYSTEM_MAX_IR_LED_ON_TIME_US b in
  u16 (if dbl_ltb_int (max_on_time_for_fps b fps) m then dbl_trunc (max_on_time_for_fps b fps) else m).

Definition master_psc_for (fps : Z) : Z :=
  u16 (TIMER_CLOCK_FREQ_HZ / (2 ^ TIMER_COUNTER_WIDTH_BITS * fps)).
Definition master_arr_for (fps : Z) : Z :=
  u16 (TIMER_CLOCK_FREQ_HZ / ((master_psc_for fps + 1) * fps)).

Definition timer_settings_from_fps (b : board) (fps_ : Z)
  (current new : ir_camera_timer_settings) : Z * ir_camera_timer_settings :=
  if fps_ =? 0 then
    (RET_SUCCESS,
     TimerSettings 0 0 0 (master_initial_counter current) (master_max_ir_leds_tick current)
       (on_time_in_us current))
  else if IR_CAMERA_SYSTEM_MAX_FPS <? fps_ then (RET_ERROR_INVALID_PARAM, new)
  else
    let ts := TimerSettings fps_ (master_psc_for fps_) (master_arr_for fps_)
                (master_initial_counter current) (master_max_ir_leds_tick current)
                (on_time_in_us current) in
    if negb (on_time_in_us current =? 0) &&
       (max_on_time_us_for_this_fps b fps_ <? on_time_in_us current)
    then (RET_ERROR_INVALID_PARAM, new)
    else (RET_SUCCESS,
          if bool_decide (b = Diamond) then compute_master_timer_durations b ts else ts).

(** ** The limits *)

(** On-time and period, exactly: 15 % and 25 %. *)
Definition within_duty (b : board) (fps on : Z) : bool :=
  match b with
  | Pearl => 20 * on * fps <=? 3 * 1000000
  | Diamond => 4 * on * fps <=? 1000000
  end.

Definition settings_safe (b : board) (ts : ir_camera_timer_settings) : Prop :=
  0 <= on_time_in_us ts <= IR_CAMERA_SYSTEM_MAX_IR_LED_ON_TIME_US b /\
  0 <= fps ts <= IR_CAMERA_SYSTEM_MAX_FPS /\
  (fps ts <> 0 -> within_duty b (fps ts) (on_time_in_us ts) = true).

(** The timer registers agree with the frame rate. *)
Definition settings_consistent (b : board) (ts : ir_camera_timer_settings) : Prop :=
  if fps ts =? 0 then master_psc ts = 0 /\ master_arr ts = 0
  else master_psc ts = master_psc_for (fps ts) /\ master_arr ts = master_arr_for (fps ts) /\
       (b = Diamond -> compute_master_timer_durations b ts = ts).

(** ** Lemmas: the double-precision limit *)

(** Where the double product rounds just below an integer limit. *)
Definition rounds_below (b : board) (f : Z) : bool :=
  bool_decide (b = Pearl) &&
  ((f =? 3) || (f =? 6) || (f =? 12) || (f =? 24) || (f =? 48)).

Definition exact_limit (b : board) (f : Z) : Z :=
  match b with Pearl => 150000 / f | Diamond => 250000 / f end.

Definition dbl_limit_check (b : board) (f : Z) : bool :=
  (f =? 0) ||
  match max_on_time_for_fps b f with
  | S754_finite false m e =>
      dbl_trunc (S754_finite false m e) =? exact_limit b f - zbool (rounds_below b f)
  | _ => false
  end.

Lemma dbl_limit b f n : 0 < f <= IR_CAMERA_SYSTEM_MAX_FPS ->
  dbl_ltb_int (max_on_time_for_fps b f) n = (exact_limit b f - zbool (rounds_below b f) <? n) /\
  dbl_trunc (max_on_time_for_fps b f) = exact_limit b f - zbool (rounds_below b f).
Proof.
  unfold IR_CAMERA_SYSTEM_MAX_FPS. intros Hf.
  assert (dbl_limit_check b f = true) as E.
  { apply (all_below_spec 61 (dbl_limit_check b)); [| lia]. by destruct b; vm_compute. }
  unfold dbl_limit_check in E. replace (f =? 0) with false in E by lia. rewrite orb_false_l in E.
  destruct (max_on_time_for_fps b f) as [| | | [] m e]; [discriminate.. |].
  rewrite dbl_ltb_trunc. apply Z.eqb_eq in E. by rewrite E.
Qed.

Lemma le_div_iff a q c : 0 < c -> a <= q / c <-> a * c <= q.
Proof.
  intros. split; intros L.
  - pose proof (Z.mul_div_le q c ltac:(lia)). nia.
  - apply Z.div_le_lower_bound; lia.
Qed.

Lemma within_duty_spec b f on : 0 < f -> within_duty b f on = (on <=? exact_limit b f).
Proof.
  intros. apply eq_true_iff_eq. destruct b; simpl; rewrite !Z.leb_le, le_div_iff by lia; lia.
Qed.

Lemma exact_limit_bound b f : 0 < f <= IR_CAMERA_SYSTEM_MAX_FPS -> 2500 <= exact_limit b f.
Proof.
  unfold IR_CAMERA_SYSTEM_MAX_FPS. intros. destruct b; simpl; apply Z.div_le_lower_bound; lia.
Qed.

(** The only on-time of the limits that rounding refuses. *)
Definition refused_by_rounding (b : board) (f on : Z) : bool :=
  bool_decide (b = Pearl) && (f =? 48) && (on =? 3125).

Lemma rounds_below_only b f on : 0 < f <= IR_CAMERA_SYSTEM_MAX_FPS ->
  0 <= on <= IR_CAMERA_SYSTEM_MAX_IR_LED_ON_TIME_US b ->
  (exact_limit b f - zbool (rounds_below b f) <? on) =
  negb (within_duty b f on) || refused_by_rounding b f on.
Proof.
  intros Hf Ho. rewrite within_duty_spec by lia. unfold rounds_below, refused_by_rounding.
  destruct b; simpl in *; [| rewrite orb_false_r; bdestruct_all; lia].
  destruct (Z.eqb_spec f 48) as [-> | ].
  - simpl. change (150000 / 48) with 3125. bdestruct_all; done.
  - rewrite !orb_false_r. simpl.
    destruct (_ || _) eqn:E; simpl.
    + rewrite !orb_true_iff, !Z.eqb_eq in E. destruct E as [[[-> | ->] | ->] | ->];
        match goal with |- context [150000 / ?k] => let v := eval compute in (150000 / k) in change (150000 / k) with v end;
        bdestruct_all; done.
    + bdestruct_all; lia || done.
Qed.

(** *** The timer arithmetic, for every frame rate *)

Definition rate (f : Z) : Z := TIMER_CLOCK_FREQ_HZ / (master_psc_for f + 1).

Definition fps_check (f : Z) : bool :=
  (f =? 0) ||
  ((2 ^ 16 * f <=? TIMER_CLOCK_FREQ_HZ) &&
   (master_psc_for f =? TIMER_CLOCK_FREQ_HZ / (2 ^ 16 * f)) &&
   (master_arr_for f =? TIMER_CLOCK_FREQ_HZ / ((master_psc_for f + 1) * f)) &&
   (60000 <=? master_arr_for f) && (master_arr_for f <? 65536) &&
   (rate f * (1000000 / f / 100) <? 2 ^ 32) && (rate f * 75 <? 2 ^ 32) &&
   (master_psc_for f <? 2594) &&
   (rate f * ((1000000 / f - 50) / 100) / 10000 <? master_arr_for f)).

Lemma fps_facts f : 0 < f <= IR_CAMERA_SYSTEM_MAX_FPS ->
  master_psc_for f = TIMER_CLOCK_FREQ_HZ / (2 ^ 16 * f) /\
  master_arr_for f = TIMER_CLOCK_FREQ_HZ / ((master_psc_for f + 1) * f) /\
  60000 <= master_arr_for f < 65536 /\
  rate f * (1000000 / f / 100) < 2 ^ 32 /\ rate f * 75 < 2 ^ 32 /\
  master_psc_for f < 2594 /\
  rate f * ((1000000 / f - 50) / 100) / 10000 < master_arr_for f.
Proof.
  unfold IR_CAMERA_SYSTEM_MAX_FPS. intros Hf.
  assert (fps_check f = true) as E by (apply (all_below_spec 61 fps_check); [by vm_compute | lia]).
  unfold fps_check in E. replace (f =? 0) with false in E by lia. rewrite orb_false_l, !andb_true_iff in E.
  rewrite !Z.eqb_eq, !Z.leb_le, !Z.ltb_lt in E. tauto.
Qed.

Lemma compute_keeps b ts :
  let ts' := compute_master_timer_durations b ts in
  fps ts' = fps ts /\ master_psc ts' = master_psc ts /\ master_arr ts' = master_arr ts /\
  on_time_in_us ts' = on_time_in_us ts.
Proof. unfold compute_master_timer_durations. by destruct (fps ts =? 0). Qed.

Lemma compute_idem b ts :
  compute_master_timer_durations b (compute_master_timer_durations b ts) =
  compute_master_timer_durations b ts.
Proof.
  destruct ts as [f p a i m o]. unfold compute_master_timer_durations at 2 3. simpl.
  destruct (Z.eqb_spec f 0) as [-> | N]; simpl; [done |].
  unfold compute_master_timer_durations. simpl. by bfalse (f =? 0).
Qed.

Definition within_duty_all (b : board) (f on : Z) : bool := (f =? 0) || within_duty b f on.

Lemma settings_safe_intro b ts : 
  0 <= on_time_in_us ts <= IR_CAMERA_SYSTEM_MAX_IR_LED_ON_TIME_US b ->
  0 <= fps ts <= IR_CAMERA_SYSTEM_MAX_FPS ->
  (fps ts <> 0 -> within_duty b (fps ts) (on_time_in_us ts) = true) ->
  settings_safe b (compute_master_timer_durations b ts) /\ settings_safe b ts.
Proof.
  intros. unfold settings_safe. destruct (compute_keeps b ts) as (-> & _ & _ & ->). tauto.
Qed.

(** The decision of both setters, exactly. *)
Lemma from_on_time_code b v cur new : settings_safe b cur -> 0 <= v ->
  (timer_settings_from_on_time_us b v cur new).1 =
  if (v <=? IR_CAMERA_SYSTEM_MAX_IR_LED_ON_TIME_US b) &&
     within_duty_all b (fps cur) v && negb (refused_by_rounding b (fps cur) v)
  then RET_SUCCESS else RET_ERROR_INVALID_PARAM.
Proof.
  intros (_ & Hf & _) Hv. unfold timer_settings_from_on_time_us, within_duty_all.
  destruct (Z.ltb_spec (IR_CAMERA_SYSTEM_MAX_IR_LED_ON_TIME_US b) v).
  { by bfalse (v <=? IR_CAMERA_SYSTEM_MAX_IR_LED_ON_TIME_US b). }
  btrue (v <=? IR_CAMERA_SYSTEM_MAX_IR_LED_ON_TIME_US b).
  destruct (Z.eqb_spec (fps cur) 0) as [E | E]; simpl.
  - rewrite E. unfold refused_by_rounding. simpl. by rewrite andb_false_r.
  - destruct (dbl_limit b (fps cur) v) as [-> _]; [lia |].
    rewrite rounds_below_only by lia.
    by destruct (within_duty b (fps cur) v), (refused_by_rounding b (fps cur) v).
Qed.

Lemma from_fps_code b f cur new : settings_safe b cur -> 0 <= f ->
  (timer_settings_from_fps b f cur new).1 =
  if (f <=? IR_CAMERA_SYSTEM_MAX_FPS) && within_duty_all b f (on_time_in_us cur) &&
     negb (refused_by_rounding b f (on_time_in_us cur))
  then RET_SUCCESS else RET_ERROR_INVALID_PARAM.
Proof.
  intros (Ho & _ & _) Hf. unfold timer_settings_from_fps, within_duty_all.
  destruct (Z.eqb_spec f 0) as [-> | Nf].
  { simpl. unfold refused_by_rounding. simpl. by rewrite andb_false_r. }
  destruct (Z.ltb_spec IR_CAMERA_SYSTEM_MAX_FPS f).
  { by bfalse (f <=? IR_CAMERA_SYSTEM_MAX_FPS). }
  btrue (f <=? IR_CAMERA_SYSTEM_MAX_FPS). simpl orb. simpl andb.
  destruct (dbl_limit b f (IR_CAMERA_SYSTEM_MAX_IR_LED_ON_TIME_US b)) as [E1 E2]; [lia |].
  pose proof (rounds_below_only b f (on_time_in_us cur) ltac:(lia) Ho) as E3.
  pose proof (exact_limit_bound b f ltac:(lia)).
  assert (max_on_time_us_for_this_fps b f =
          Z.min (IR_CAMERA_SYSTEM_MAX_IR_LED_ON_TIME_US b) (exact_limit b f - zbool (rounds_below b f))) as ->.
  { unfold max_on_time_us_for_this_fps. rewrite E1, E2.
    assert (IR_CAMERA_SYSTEM_MAX_IR_LED_ON_TIME_US b <= 7500) by (destruct b; simpl; lia).
    assert (0 <= zbool (rounds_below b f) <= 1) by (destruct (rounds_below b f); simpl; lia).
    destruct (Z.ltb_spec (exact_limit b f - zbool (rounds_below b f)) (IR_CAMERA_SYSTEM_MAX_IR_LED_ON_TIME_US b));
      rewrite u16_small; lia || (destruct b; simpl; lia). }
  replace (Z.min _ _ <? on_time_in_us cur)
    with (exact_limit b f - zbool (rounds_below b f) <? on_time_in_us cur) by lia.
  rewrite E3. destruct (Z.eqb_spec (on_time_in_us cur) 0) as [-> | N]; simpl.
  - rewrite within_duty_spec by lia. btrue (0 <=? exact_limit b f). unfold refused_by_rounding.
    simpl. by rewrite andb_false_r.
  - by destruct (within_duty b f (on_time_in_us cur)), (refused_by_rounding b f (on_time_in_us cur)).
Qed.

(** Safety alone does not need the registers to be up to date. *)
Lemma setters_settings_safe b v ts : settings_safe b ts -> 0 <= v ->
  settings_safe b (timer_settings_from_on_time_us b v ts ts).2 /\
  settings_safe b (timer_settings_from_fps b v ts ts).2.
Proof.
  intros Hs Hv. pose proof (from_on_time_code b v ts ts Hs Hv) as E1.
  pose proof (from_fps_code b v ts ts Hs Hv) as E2. pose proof Hs as (Ho & Hf & Hd). split.
  - clear E2. revert E1. unfold timer_settings_from_on_time_us.
    destruct (_ <? v); [done |]. destruct (negb _ && _); [done |]. simpl.
    destruct ((_ <=? _) && _ && _) eqn:E; [intros _ | intros X; discriminate X].
    rewrite !andb_true_iff, negb_true_iff in E. destruct E as [[Em Ed] _]. apply Z.leb_le in Em.
    destruct (settings_safe_intro b (set_on_time v ts)) as [S1 S2]; simpl; [lia | done | | by destruct (_ && _)].
    intros N. unfold within_duty_all in Ed. by replace (fps ts =? 0) with false in Ed by lia.
  - clear E1. revert E2. unfold timer_settings_from_fps.
    destruct (Z.eqb_spec v 0) as [-> | Nf].
    { intros _. unfold settings_safe, IR_CAMERA_SYSTEM_MAX_FPS. simpl. split; [done |]. lia. }
    destruct (Z.ltb_spec IR_CAMERA_SYSTEM_MAX_FPS v); [done |]. destruct (negb _ && _); [done |]. simpl.
    destruct ((_ <=? _) && _ && _) eqn:E; [intros _ | intros X; discriminate X].
    rewrite !andb_true_iff, negb_true_iff in E. destruct E as [[_ Ed] _].
    set (t := TimerSettings v _ _ _ _ _).
    destruct (settings_safe_intro b t) as [S1 S2]; simpl; [lia | lia | | by case_bool_decide].
    intros N. unfold within_duty_all in Ed. by replace (v =? 0) with false in Ed by lia.
Qed.

Lemma from_on_time_safe b v ts : settings_safe b ts -> settings_consistent b ts -> 0 <= v ->
  let r := timer_settings_from_on_time_us b v ts ts in
  settings_safe b r.2 /\ settings_consistent b r.2 /\ (r.1 <> RET_SUCCESS -> r.2 = ts) /\
  (r.1 = RET_SUCCESS -> on_time_in_us r.2 = v /\ fps r.2 = fps ts).
Proof.
  intros Hs Hc Hv r. pose proof (from_on_time_code b v ts ts Hs Hv) as Ec. fold r in Ec.
  destruct Hs as (Ho & Hf & Hd). revert Ec. subst r. unfold timer_settings_from_on_time_us.
  destruct (_ <? v); [done |]. destruct (negb _ && _); [done |]. simpl.
  destruct (_ && _) eqn:E; [intros _ | done].
  rewrite !andb_true_iff, negb_true_iff in E. destruct E as [[Em Ed] _]. apply Z.leb_le in Em.
  assert (settings_safe b (compute_master_timer_durations b (set_on_time v ts)) /\
          settings_safe b (set_on_time v ts)) as [S1 S2].
  { apply settings_safe_intro; simpl; [lia | done |]. intros N. unfold within_duty_all in Ed.
    by replace (fps ts =? 0) with false in Ed by lia. }
  pose proof (compute_keeps b (set_on_time v ts)) as (K1 & K2 & K3 & K4). simpl in *.
  unfold settings_consistent in *.
  destruct (bool_decide (b = Diamond) && negb (fps ts =? 0)) eqn:Eb; simpl.
  - rewrite K1, K2, K3, K4. split; [done |]. split; [| done].
    rewrite andb_true_iff, negb_true_iff in Eb. destruct Eb as [_ Eb]. rewrite Eb in *.
    destruct Hc as (C1 & C2 & _). split; [done |]. split; [done |]. intros _. apply compute_idem.
  - split; [done |]. split; [| done].
    destruct (fps ts =? 0); [done |]. destruct Hc as (C1 & C2 & _). split; [done |]. split; [done |].
    intros ->. discriminate.
Qed.

Lemma from_fps_safe b f ts : settings_safe b ts -> settings_consistent b ts -> 0 <= f ->
  let r := timer_settings_from_fps b f ts ts in
  settings_safe b r.2 /\ settings_consistent b r.2 /\ (r.1 <> RET_SUCCESS -> r.2 = ts) /\
  (r.1 = RET_SUCCESS -> on_time_in_us r.2 = on_time_in_us ts /\ fps r.2 = f).
Proof.
  intros Hs Hc Hf r. pose proof (from_fps_code b f ts ts Hs Hf) as Ec. fold r in Ec.
  destruct Hs as (Ho & Hf0 & Hd). revert Ec. subst r. unfold timer_settings_from_fps.
  destruct (Z.eqb_spec f 0) as [-> | Nf].
  { intros _. unfold settings_safe, settings_consistent. simpl. split; [| done].
    split; [done |]. split; [unfold IR_CAMERA_SYSTEM_MAX_FPS; lia | done]. }
  destruct (Z.ltb_spec IR_CAMERA_SYSTEM_MAX_FPS f); [done |].
  destruct (negb _ && _); [done |].
  set (t := TimerSettings f _ _ _ _ _). simpl.
  destruct (_ && _) eqn:E; [intros _ | done].
  rewrite !andb_true_iff, negb_true_iff in E. destruct E as [[_ Ed] _].
  assert (settings_safe b (compute_master_timer_durations b t) /\ settings_safe b t) as [S1 S2].
  { apply settings_safe_intro; simpl; [lia | lia |]. intros N. unfold within_duty_all in Ed.
    by replace (f =? 0) with false in Ed by lia. }
  pose proof (compute_keeps b t) as (K1 & K2 & K3 & K4). simpl in *.
  unfold settings_consistent.
  case_bool_decide as Eb.
  - rewrite K1, K2, K3, K4. split; [done |]. split; [| done]. bfalse (f =? 0).
    split; [done |]. split; [done |]. intros _. apply compute_idem.
  - simpl. split; [done |]. split; [| done]. bfalse (f =? 0). done.
Qed.

(** ** Requests *)

Inductive timer_request := SetOnTime (v : Z) | SetFps (v : Z).

Definition request_arg (r : timer_request) : Z := match r with SetOnTime v | SetFps v => v end.

Definition timer_request_run (b : board) (ts : ir_camera_timer_settings) (r : timer_request)
  : ir_camera_timer_settings :=
  match r with
  | SetOnTime v => (timer_settings_from_on_time_us b v ts ts).2
  | SetFps v => (timer_settings_from_fps b v ts ts).2
  end.

Lemma request_run_safe b ts r : settings_safe b ts -> settings_consistent b ts -> 0 <= request_arg r ->
  settings_safe b (timer_request_run b ts r) /\ settings_consistent b (timer_request_run b ts r).
Proof.
  intros Hs Hc Ha. destruct r as [v | v]; simpl in *.
  - destruct (from_on_time_safe b v ts Hs Hc Ha) as (? & ? & _). done.
  - destruct (from_fps_safe b v ts Hs Hc Ha) as (? & ? & _). done.
Qed.

Lemma zero_safe b : settings_safe b timer_settings_zero /\ settings_consistent b timer_settings_zero.
Proof.
  unfold settings_safe, settings_consistent, IR_CAMERA_SYSTEM_MAX_FPS. simpl.
  split; [| done]. destruct b; simpl; lia.
Qed.

Lemma requests_safe b rs : Forall (fun r => 0 <= request_arg r) rs ->
  forall ts, settings_safe b ts -> settings_consistent b ts ->
  settings_safe b (fold_left (timer_request_run b) rs ts) /\
  settings_consistent b (fold_left (timer_request_run b) rs ts).
Proof.
  induction 1 as [| r rs Hr _ IH]; intros ts Hs Hc; simpl; [done |].
  destruct (request_run_safe b ts r Hs Hc Hr). by apply IH.
Qed.

(** ** Theorems *)

(** C4: Eye safety of the timer settings: whatever on-times and frame rates
    are requested, in whatever order, the settings in force never exceed the
    board's maximum on-time (5 ms on Pearl, 7.5 ms on Diamond), the maximum
    frame rate, nor the duty cycle (exactly 15 % and 25 % of the period), and
    the prescaler, the reload value and the strobe schedule always belong to
    the frame rate and on-time in force. *)
Theorem timer_settings_eye_safe (b : board) (rs : list timer_request)
  (Hrs : Forall (fun r => 0 <= request_arg r) rs) :
  let ts := fold_left (timer_request_run b) rs timer_settings_zero in
  settings_safe b ts /\ settings_consistent b ts.
Proof. destruct (zero_safe b). by apply requests_safe. Qed.

Lemma timer_settings_eye_safe_witness :
  let rs := [SetOnTime 7000; SetOnTime 4000; SetFps 30; SetOnTime 5000; SetFps 60] in
  let ts := fold_left (timer_request_run Pearl) rs timer_settings_zero in
  settings_safe Pearl ts /\ fps ts = 30 /\ on_time_in_us ts = 5000.
Proof.
  cbv zeta. split; [| by vm_compute].
  apply timer_settings_eye_safe. repeat constructor; discriminate.
Defined.

(** The two setters accept exactly the safe values: an on-time (a frame
    rate) is accepted if and only if it respects the maximum and the exact duty
    cycle with the frame rate (the on-time) in force, and is then in force; a
    refused value changes nothing.  One single safe setting is refused, by
    rounding in the double-precision product: 3125 us at 48 frames per second
    on Pearl, exactly 15 %. *)
Theorem timer_settings_accept_exactly (b : board) (v : Z) (ts : ir_camera_timer_settings)
  (Hs : settings_safe b ts) (Hc : settings_consistent b ts) (Hv : 0 <= v) :
  (let r := timer_settings_from_on_time_us b v ts ts in
   if (v <=? IR_CAMERA_SYSTEM_MAX_IR_LED_ON_TIME_US b) && within_duty_all b (fps ts) v &&
      negb (refused_by_rounding b (fps ts) v)
   then r.1 = RET_SUCCESS /\ on_time_in_us r.2 = v /\ fps r.2 = fps ts
   else r = (RET_ERROR_INVALID_PARAM, ts)) /\
  (let r := timer_settings_from_fps b v ts ts in
   if (v <=? IR_CAMERA_SYSTEM_MAX_FPS) && within_duty_all b v (on_time_in_us ts) &&
      negb (refused_by_rounding b v (on_time_in_us ts))
   then r.1 = RET_SUCCESS /\ on_time_in_us r.2 = on_time_in_us ts /\ fps r.2 = v
   else r = (RET_ERROR_INVALID_PARAM, ts)).
Proof.
  split; cbv zeta.
  - pose proof (from_on_time_code b v ts ts Hs Hv) as Ec.
    destruct (from_on_time_safe b v ts Hs Hc Hv) as (_ & _ & Hn & Hy).
    destruct (_ && _); [rewrite Ec in Hy; auto |].
    apply injective_projections; [done |]. apply Hn. by rewrite Ec.
  - pose proof (from_fps_code b v ts ts Hs Hv) as Ec.
    destruct (from_fps_safe b v ts Hs Hc Hv) as (_ & _ & Hn & Hy).
    destruct (_ && _); [rewrite Ec in Hy; auto |].
    apply injective_projections; [done |]. apply Hn. by rewrite Ec.
Qed.

Lemma timer_settings_accept_exactly_witness :
  let ts := timer_request_run Pearl timer_settings_zero (SetFps 48) in
  timer_settings_from_on_time_us Pearl 3125 ts ts = (RET_ERROR_INVALID_PARAM, ts) /\
  (timer_settings_from_on_time_us Pearl 3124 ts ts).1 = RET_SUCCESS.
Proof.
  cbv zeta. destruct (zero_safe Pearl) as [S0 C0].
  destruct (request_run_safe Pearl timer_settings_zero (SetFps 48) S0 C0 ltac:(simpl; lia)) as [S1 C1].
  split.
  - exact (proj1 (timer_settings_accept_exactly Pearl 3125 _ S1 C1 ltac:(lia))).
  - exact (proj1 (proj1 (timer_settings_accept_exactly Pearl 3124 _ S1 C1 ltac:(lia)))).
Defined.

(** The master timer runs at the requested rate: the prescaler and the
    reload value fit their 16-bit registers, the period they give,
    (psc+1)*arr ticks of the timer clock, is never longer than 1/fps, and it is
    shorter by less than one part in 60,000. *)
Theorem master_period_accurate (b : board) (ts : ir_camera_timer_settings)
  (Hs : settings_safe b ts) (Hc : settings_consistent b ts) (Hf : fps ts <> 0) :
  let period := (master_psc ts + 1) * master_arr ts in
  0 <= master_psc ts < 65536 /\ 0 < master_arr ts < 65536 /\
  period * fps ts <= TIMER_CLOCK_FREQ_HZ /\
  60000 * (TIMER_CLOCK_FREQ_HZ - period * fps ts) < TIMER_CLOCK_FREQ_HZ.
Proof.
  destruct Hs as (_ & Hb & _). unfold settings_consistent in Hc.
  replace (fps ts =? 0) with false in Hc by lia. destruct Hc as (Ep & Ea & _).
  destruct (fps_facts (fps ts) ltac:(lia)) as (F1 & F2 & F3 & _). rewrite Ep, Ea.
  pose proof (Z.div_pos TIMER_CLOCK_FREQ_HZ (2 ^ 16 * fps ts) ltac:(done) ltac:(lia)) as Pp.
  rewrite <- F1 in Pp. set (p := master_psc_for (fps ts)) in *.
  pose proof (u16_range (TIMER_CLOCK_FREQ_HZ / (2 ^ TIMER_COUNTER_WIDTH_BITS * fps ts))) as Rp.
  pose proof (Z.mul_div_le TIMER_CLOCK_FREQ_HZ ((p + 1) * fps ts) ltac:(nia)) as L1.
  pose proof (Z.mul_succ_div_gt TIMER_CLOCK_FREQ_HZ ((p + 1) * fps ts) ltac:(nia)) as L2.
  rewrite <- F2 in L1, L2. set (a := master_arr_for (fps ts)) in *.
  split; [exact Rp |]. split; [lia |]. split; [lia |]. nia.
Qed.

Lemma master_period_accurate_witness :
  let ts := timer_request_run Diamond timer_settings_zero (SetFps 30) in
  (master_psc ts + 1) * master_arr ts * fps ts <= TIMER_CLOCK_FREQ_HZ.
Proof.
  cbv zeta. destruct (zero_safe Diamond) as [S0 C0].
  destruct (request_run_safe Diamond timer_settings_zero (SetFps 30) S0 C0 ltac:(simpl; lia)) as [S1 C1].
  refine (proj1 (proj2 (proj2 (master_period_accurate Diamond _ S1 C1 _)))). by vm_compute.
Defined.

(** The strobe schedule on Diamond: no 32-bit wrap-around. *)
Lemma delay_us_exact b ts : settings_safe b ts -> fps ts <> 0 ->
  delay_us ts = 1000000 / fps ts - on_time_in_us ts - 50 /\ 0 < delay_us ts.
Proof.
  intros (Ho & Hf & Hd) N. specialize (Hd N). unfold IR_CAMERA_SYSTEM_MAX_FPS in Hf.
  rewrite within_duty_spec in Hd by lia. apply Z.leb_le in Hd.
  assert (4 * exact_limit b (fps ts) <= 1000000 / fps ts /\ 16666 <= 1000000 / fps ts <= 1000000) as (L1 & L2).
  { split; [| split; [apply Z.div_le_lower_bound | apply Z.div_le_upper_bound]; lia].
    destruct b; simpl; apply le_div_iff; try lia.
    - pose proof (Z.mul_div_le 150000 (fps ts) ltac:(lia)). nia.
    - pose proof (Z.mul_div_le 250000 (fps ts) ltac:(lia)). nia. }
  unfold delay_us, IR_CAMERA_SYSTEM_NEXT_STROBE_END_MARGIN_US. rewrite u32_small; lia.
Qed.

Lemma mul_div_100_le r c q : 0 <= r -> 0 <= q -> r * c <= 170000000 -> 0 < c ->
  r * (q / 100) / 10000 * c <= 170 * q.
Proof.
  intros. pose proof (Z.mul_div_le q 100 ltac:(lia)). pose proof (Z.div_pos q 100 ltac:(lia) ltac:(lia)).
  pose proof (Z.mul_div_le (r * (q / 100)) 10000 ltac:(lia)).
  assert (10000 * (r * (q / 100) / 10000 * c) <= 170000000 * (q / 100)) by nia. lia.
Qed.

Lemma mul_div_100_ge r c q : 0 <= r -> 0 <= q -> 170000000 < (r + 1) * c -> 0 < c -> q / 100 <= 10000 ->
  170 * (q - 99) - 2 * c <= r * (q / 100) / 10000 * c.
Proof.
  intros. pose proof (Z.mul_succ_div_gt q 100 ltac:(lia)). pose proof (Z.div_pos q 100 ltac:(lia) ltac:(lia)).
  pose proof (Z.mul_succ_div_gt (r * (q / 100)) 10000 ltac:(lia)).
  set (h := q / 100) in *. set (t := r * h / 10000) in *.
  assert (r * h * c < (10000 * t + 10000) * c) by nia.
  assert (170000000 * h <= (r * h + h) * c) by nia.
  assert (170000000 * h - h * c <= 10000 * (t * c) + 10000 * c) by nia.
  assert (h * c <= 10000 * c) by nia. lia.
Qed.

(** On Diamond the next infrared pulse is scheduled to end before the
    next strobe edge: on a falling edge the master timer is preset so that it
    fires after [delay] = 1/fps - on-time - 50 us, rounded down by less than
    0.1 ms and two timer ticks, never more; the counter preset lies strictly
    below the reload value, and none of the 32-bit products wraps around. *)
Theorem strobe_schedule_fits (ts : ir_camera_timer_settings)
  (Hs : settings_safe Diamond ts) (Hc : settings_consistent Diamond ts) (Hf : fps ts <> 0) :
  let ticks := master_arr ts - master_initial_counter ts in
  let delay := 1000000 / fps ts - on_time_in_us ts - 50 in
  0 <= master_initial_counter ts <= master_arr ts /\
  ticks * (master_psc ts + 1) <= TIMER_CLOCK_FREQ_MHZ * delay /\
  TIMER_CLOCK_FREQ_MHZ * (delay - 99) - 2 * (master_psc ts + 1) <= ticks * (master_psc ts + 1) /\
  master_max_ir_leds_tick ts * (master_psc ts + 1) <=
    TIMER_CLOCK_FREQ_MHZ * IR_CAMERA_SYSTEM_MAX_IR_LED_ON_TIME_US Diamond.
Proof.
  destruct (delay_us_exact Diamond ts Hs Hf) as [Ed Pd].
  pose proof Hs as (Ho & Hb & _). unfold settings_consistent in Hc.
  replace (fps ts =? 0) with false in Hc by lia. destruct Hc as (Ep & Ea & Ec).
  specialize (Ec eq_refl).
  destruct (fps_facts (fps ts) ltac:(lia)) as (F1 & F2 & F3 & F4 & F5 & F6 & F7).
  rewrite <- Ep in *. rewrite <- Ea in *. unfold IR_CAMERA_SYSTEM_MAX_FPS in Hb.
  pose proof (Z.div_pos TIMER_CLOCK_FREQ_HZ (2 ^ 16 * fps ts) ltac:(done) ltac:(lia)) as Pp.
  rewrite <- F1 in Pp. set (c := master_psc ts + 1) in *.
  assert (rate (fps ts) = TIMER_CLOCK_FREQ_HZ / c) as Er by (unfold rate; by rewrite <- Ep).
  pose proof (Z.mul_div_le TIMER_CLOCK_FREQ_HZ c ltac:(lia)) as R1.
  pose proof (Z.mul_succ_div_gt TIMER_CLOCK_FREQ_HZ c ltac:(lia)) as R2.
  pose proof (Z.div_pos TIMER_CLOCK_FREQ_HZ c ltac:(done) ltac:(lia)) as R0.
  rewrite <- Er in R1, R2, R0. unfold TIMER_CLOCK_FREQ_HZ in R1, R2.
  set (r := rate (fps ts)) in *. set (q := delay_us ts) in *.
  assert (0 <= q / 100 <= 1000000 / fps ts / 100) as Q1.
  { split; [apply Z.div_pos; lia | apply Z.div_le_mono; lia]. }
  assert (0 <= q / 100 <= (1000000 / fps ts - 50) / 100) as Q2.
  { split; [lia | apply Z.div_le_mono; lia]. }
  assert (1000000 / fps ts / 100 <= 10000) as Q3.
  { apply Z.div_le_upper_bound; [lia |]. apply Z.div_le_upper_bound; lia. }
  assert (ticks_of_us ts q = r * (q / 100) / 10000) as Et.
  { unfold ticks_of_us. fold c. rewrite <- Er. rewrite u32_small; [done |]. nia. }
  assert (ticks_of_us ts 7500 = r * 75 / 10000) as Em.
  { unfold ticks_of_us. fold c. rewrite <- Er. rewrite u32_small; [done |].
    change (7500 / 100) with 75. lia. }
  assert (ticks_of_us ts q < master_arr ts) as Lt.
  { rewrite Et. eapply Z.le_lt_trans; [| exact F7]. apply Z.div_le_mono; [lia |]. nia. }
  assert (0 <= ticks_of_us ts q) as Gt by (rewrite Et; apply Z.div_pos; nia).
  assert (master_initial_counter ts = master_arr ts - ticks_of_us ts q /\
          master_max_ir_leds_tick ts = ticks_of_us ts 7500) as [Ei Ex].
  { rewrite <- Ec. unfold compute_master_timer_durations. bfalse (fps ts =? 0). simpl.
    fold q. btrue (ticks_of_us ts q <? master_arr ts). rewrite u16_small by lia. done. }
  rewrite Ei, Ex, Em. replace (master_arr ts - (master_arr ts - ticks_of_us ts q)) with (ticks_of_us ts q) by lia.
  rewrite Et. rewrite Et in Lt, Gt. change TIMER_CLOCK_FREQ_MHZ with 170. fold q in Ed. rewrite <- Ed.
  split; [lia |]. split; [apply mul_div_100_le; lia |].
  split; [apply mul_div_100_ge; lia |].
  simpl IR_CAMERA_SYSTEM_MAX_IR_LED_ON_TIME_US. change 75 with (7500 / 100).
  apply mul_div_100_le; lia.
Qed.

Lemma strobe_schedule_fits_witness :
  let ts := fold_left (timer_request_run Diamond) [SetFps 30; SetOnTime 7500] timer_settings_zero in
  (master_arr ts - master_initial_counter ts) * (master_psc ts + 1) <= 170 * (1000000 / 30 - 7500 - 50).
Proof.
  cbv zeta. destruct (zero_safe Diamond) as [S0 C0].
  destruct (requests_safe Diamond [SetFps 30; SetOnTime 7500]
              ltac:(repeat constructor; discriminate) timer_settings_zero S0 C0) as [S1 C1].
  exact (proj1 (proj2 (strobe_schedule_fits _ S1 C1 ltac:(by vm_compute)))).
Defined.
