(* ===== verification/IrCamera.v ===== *)
(** main_board/src/optics/ir_camera_system/ir_camera_system.c and
    ir_camera_system_hw.c: the infrared cameras and LEDs.

    The state holds the module's static variables and the timer registers the
    code writes.  What comes from outside is an argument of each operation:
    whether the 1D time-of-flight sensor finds the distance safe, whether the
    eye-safety circuit has tripped, the level of the strobe line, the count of
    the master timer.  A sweep records the index of the focus or mirror position it
    asks for; what is sent for that index is in [Sweeps].  The notification of the
    front LEDs at the end of a pulse and the register set-up that never changes are
    not modelled. *)

From S2P Require Import Prelude IrTimer.

(** ** State *)

(** orb_mcu_main_InfraredLEDs_Wavelength. *)
Inductive wavelength_e :=
| WAVELENGTH_NONE | WAVELENGTH_740NM
| WAVELENGTH_850NM | WAVELENGTH_850NM_LEFT | WAVELENGTH_850NM_RIGHT
| WAVELENGTH_850NM_CENTER | WAVELENGTH_850NM_SIDE
| WAVELENGTH_940NM | WAVELENGTH_940NM_LEFT | WAVELENGTH_940NM_RIGHT | WAVELENGTH_940NM_SINGLE.

#[export] Instance wavelength_eq_dec : EqDecision wavelength_e.
Proof. solve_decision. Defined.

Inductive camera := IrEye | IrFace | Tof2d | RgbFace.

#[export] Instance camera_eq_dec : EqDecision camera.
Proof. solve_decision. Defined.

(** The channels of the two LED timers: left/center and right/side on the 850nm
    timer; left, right and single on the 940nm one. *)
Record led_channels := Leds { l850_a : bool; l850_b : bool; l940_l : bool; l940_r : bool; l940_s : bool }.

Definition leds_off : led_channels := Leds false false false false false.
Definition leds_or (x y : led_channels) : led_channels :=
  Leds (l850_a x || l850_a y) (l850_b x || l850_b y) (l940_l x || l940_l y)
    (l940_r x || l940_r y) (l940_s x || l940_s y).

Record timer_regs := TimerRegs {
  master_on : bool;
  master_psc_reg : Z;
  master_arr_reg : Z;
  master_cnt : option Z;      (* the last count written by the strobe handler *)
  master_updates : nat;       (* update events generated by software *)
  led850_arr : Z;
  led940_arr : Z;
  leds : led_channels;
  cam_arr : Z;
  cam_ch : camera -> bool;    (* channels of the camera trigger timer *)
  cam_it : bool;              (* its update interrupt *)
}.

Record sweeps := Sweeps {
  focus_sweep_in_progress : bool;
  mirror_sweep_in_progress : bool;
  sweep_index : Z;
  global_num_focus_values : Z;
  use_focus_sweep_polynomial : bool;
  mirror_number_of_frames : Z;
  positions : list Z;          (* positions asked for, latest first *)
}.

Record ir_sys := IrSys {
  ir_camera_system_initialized : bool;
  enabled_led_wavelength : wavelength_e;
  enabled_camera : camera -> bool;
  global_timer_settings : ir_camera_timer_settings;
  old_master_arr : Z;
  pvcc_high_demand : bool;
  auto_off_timer : bool;
  strobe_irq : bool;
  regs : timer_regs;
  sw : sweeps;
}.

Definition with_regs (r : timer_regs) (s : ir_sys) : ir_sys :=
  IrSys (ir_camera_system_initialized s) (enabled_led_wavelength s) (enabled_camera s)
    (global_timer_settings s) (old_master_arr s) (pvcc_high_demand s) (auto_off_timer s)
    (strobe_irq s) r (sw s).
Definition with_sweeps (w : sweeps) (s : ir_sys) : ir_sys :=
  IrSys (ir_camera_system_initialized s) (enabled_led_wavelength s) (enabled_camera s)
    (global_timer_settings s) (old_master_arr s) (pvcc_high_demand s) (auto_off_timer s)
    (strobe_irq s) (regs s) w.
Definition with_settings (t : ir_camera_timer_settings) (s : ir_sys) : ir_sys :=
  IrSys (ir_camera_system_initialized s) (enabled_led_wavelength s) (enabled_camera s)
    t (old_master_arr s) (pvcc_high_demand s) (auto_off_timer s) (strobe_irq s) (regs s) (sw s).
Definition with_leds (l : led_channels) (s : ir_sys) : ir_sys :=
  let r := regs s in
  with_regs (TimerRegs (master_on r) (master_psc_reg r) (master_arr_reg r) (master_cnt r)
    (master_updates r) (led850_arr r) (led940_arr r) l (cam_arr r) (cam_ch r) (cam_it r)) s.
Definition with_led_arr (v : Z) (s : ir_sys) : ir_sys :=
  let r := regs s in
  with_regs (TimerRegs (master_on r) (master_psc_reg r) (master_arr_reg r) (master_cnt r)
    (master_updates r) v v (leds r) (cam_arr r) (cam_ch r) (cam_it r)) s.
Definition with_cam (arr : Z) (ch : camera -> bool) (s : ir_sys) : ir_sys :=
  let r := regs s in
  with_regs (TimerRegs (master_on r) (master_psc_reg r) (master_arr_reg r) (master_cnt r)
    (master_updates r) (led850_arr r) (led940_arr r) (leds r) arr ch (cam_it r)) s.
Definition with_cam_it (it : bool) (s : ir_sys) : ir_sys :=
  let r := regs s in
  with_regs (TimerRegs (master_on r) (master_psc_reg r) (master_arr_reg r) (master_cnt r)
    (master_updates r) (led850_arr r) (led940_arr r) (leds r) (cam_arr r) (cam_ch r) it) s.
Definition with_master (on : bool) (psc arr : Z) (cnt : option Z) (s : ir_sys) : ir_sys :=
  let r := regs s in
  with_regs (TimerRegs on psc arr cnt (master_updates r) (led850_arr r) (led940_arr r) (leds r)
    (cam_arr r) (cam_ch r) (cam_it r)) s.
Definition master_update_event (s : ir_sys) : ir_sys :=
  let r := regs s in
  with_regs (TimerRegs (master_on r) (master_psc_reg r) (master_arr_reg r) (master_cnt r)
    (S (master_updates r)) (led850_arr r) (led940_arr r) (leds r) (cam_arr r) (cam_ch r) (cam_it r)) s.
Definition with_pvcc (h : bool) (s : ir_sys) : ir_sys :=
  IrSys (ir_camera_system_initialized s) (enabled_led_wavelength s) (enabled_camera s)
    (global_timer_settings s) (old_master_arr s) h (auto_off_timer s) (strobe_irq s) (regs s) (sw s).
Definition with_camera (c : camera) (v : bool) (s : ir_sys) : ir_sys :=
  IrSys (ir_camera_system_initialized s) (enabled_led_wavelength s)
    (fun c' => if decide (c' = c) then v else enabled_camera s c')
    (global_timer_settings s) (old_master_arr s) (pvcc_high_demand s) (auto_off_timer s)
    (strobe_irq s) (regs s) (sw s).
Definition with_wavelength (w : wavelength_e) (s : ir_sys) : ir_sys :=
  IrSys (ir_camera_system_initialized s) w (enabled_camera s) (global_timer_settings s)
    (old_master_arr s) (pvcc_high_demand s) (auto_off_timer s) (strobe_irq s) (regs s) (sw s).
Definition with_strobe_irq (v : bool) (s : ir_sys) : ir_sys :=
  IrSys (ir_camera_system_initialized s) (enabled_led_wavelength s) (enabled_camera s)
    (global_timer_settings s) (old_master_arr s) (pvcc_high_demand s) (auto_off_timer s) v (regs s) (sw s).

(** ** ir_camera_system_hw.c *)

Section Hw.
Context (b : board).

Definition IR_LED_TURN_ON_DELAY_US : Z := match b with Diamond => 50 | Pearl => 0 end.
Definition IR_LED_TIMER_START_DELAY_US : Z := 1.
Definition CAMERA_TRIGGER_TIMER_START_DELAY_US : Z := IR_LED_TURN_ON_DELAY_US + 1.
Definition max_start_delay : Z := Z.max CAMERA_TRIGGER_TIMER_START_DELAY_US IR_LED_TIMER_START_DELAY_US.

(** The channels the two [switch]es of [ir_leds_enable_pulse] enable. *)
Definition wavelength_channels (w : wavelength_e) : led_channels :=
  match b, w with
  | _, WAVELENGTH_850NM => Leds true true false false false
  | Pearl, WAVELENGTH_850NM_LEFT | Diamond, WAVELENGTH_850NM_CENTER => Leds true false false false false
  | Pearl, WAVELENGTH_850NM_RIGHT | Diamond, WAVELENGTH_850NM_SIDE => Leds false true false false false
  | Pearl, WAVELENGTH_940NM => Leds false false true true false
  | Diamond, WAVELENGTH_940NM => Leds false false true true true
  | _, WAVELENGTH_940NM_LEFT => Leds false false true false false
  | _, WAVELENGTH_940NM_RIGHT => Leds false false false true false
  | Diamond, WAVELENGTH_940NM_SINGLE => Leds false false false false true
  | _, _ => leds_off
  end.

Definition set_pvcc_converter_into_low_power_mode (s : ir_sys) : ir_sys := with_pvcc false s.
Definition set_pvcc_converter_into_high_demand_mode (s : ir_sys) : ir_sys :=
  if negb (bool_decide (enabled_led_wavelength s = WAVELENGTH_NONE)) then with_pvcc true s else s.

Definition ir_leds_disable_all (s : ir_sys) : ir_sys := with_leds leds_off s.

Definition ir_leds_enable_pulse (s : ir_sys) : ir_sys :=
  if on_time_in_us (global_timer_settings s) =? 0 then s
  else with_leds (leds_or (leds (regs s)) (wavelength_channels (enabled_led_wavelength s))) s.

(** [safe] is [distance_is_safe()]. *)
Definition ir_leds_set_pulse_length (safe : bool) (s : ir_sys) : ir_sys :=
  let s := if safe then s else with_settings (set_on_time 0 (global_timer_settings s)) s in
  let s := ir_leds_disable_all s in
  let on := on_time_in_us (global_timer_settings s) in
  let s := if on =? 0 then s else with_led_arr (on + max_start_delay) s in
  if (0 <? on) && (0 <? fps (global_timer_settings s))
  then set_pvcc_converter_into_high_demand_mode s
  else set_pvcc_converter_into_low_power_mode s.

Definition camera_enable_trigger (enabled : bool) (c : camera) (s : ir_sys) : ir_sys :=
  with_cam (on_time_in_us (global_timer_settings s) + max_start_delay)
    (fun c' => if decide (c' = c) then enabled && (0 <? fps (global_timer_settings s))
               else cam_ch (regs s) c') s.

Definition face_gates (s : ir_sys) : bool :=
  bool_decide (b = Diamond) && enabled_camera s IrFace.

Definition apply_new_timer_settings (safe : bool) (s : ir_sys) : ir_sys :=
  let g := global_timer_settings s in
  let on := if fps g =? 0 then false else if 0 <? fps g then true else master_on (regs s) in
  let s := with_master on (master_psc g) (master_arr g) (master_cnt (regs s)) s in
  let s :=
    match b with
    | Diamond => if face_gates s then s else camera_enable_trigger (enabled_camera s IrEye) IrEye s
    | Pearl => camera_enable_trigger (enabled_camera s IrFace) IrFace
                 (camera_enable_trigger (enabled_camera s IrEye) IrEye s)
    end in
  let s := camera_enable_trigger (enabled_camera s Tof2d) Tof2d s in
  let s := ir_leds_set_pulse_length safe s in
  let triggered := negb (face_gates s) in
  let s := if triggered then ir_leds_enable_pulse s else s in
  let s := if triggered && (old_master_arr s =? 0) && (0 <? master_arr (global_timer_settings s))
           then master_update_event s else s in
  IrSys (ir_camera_system_initialized s) (enabled_led_wavelength s) (enabled_camera s)
    (global_timer_settings s) (master_arr (global_timer_settings s)) (pvcc_high_demand s)
    (auto_off_timer s) (strobe_irq s) (regs s) (sw s).

Definition ir_leds_are_on (s : ir_sys) : bool :=
  match enabled_led_wavelength s with
  | WAVELENGTH_NONE | WAVELENGTH_740NM => false
  | _ => (0 <? fps (global_timer_settings s)) && (0 <? on_time_in_us (global_timer_settings s))
  end.

Definition configure_timeout (s : ir_sys) : ir_sys :=
  IrSys (ir_camera_system_initialized s) (enabled_led_wavelength s) (enabled_camera s)
    (global_timer_settings s) (old_master_arr s) (pvcc_high_demand s)
    (ir_leds_are_on s || enabled_camera s IrEye || enabled_camera s IrFace || enabled_camera s Tof2d)
    (strobe_irq s) (regs s) (sw s).

Definition ir_camera_system_set_fps_hw (safe : bool) (fps_ : Z) (s : ir_sys) : Z * ir_sys :=
  let r := timer_settings_from_fps b fps_ (global_timer_settings s) (global_timer_settings s) in
  let s := with_settings r.2 s in
  (r.1, configure_timeout (if r.1 =? RET_SUCCESS then apply_new_timer_settings safe s else s)).

Definition ir_camera_system_set_on_time_us_hw (safe : bool) (on : Z) (s : ir_sys) : Z * ir_sys :=
  let r := timer_settings_from_on_time_us b on (global_timer_settings s) (global_timer_settings s) in
  let s := with_settings r.2 s in
  let s := if (r.1 =? RET_SUCCESS) && negb (face_gates s) then apply_new_timer_settings safe s else s in
  (r.1, if negb (on =? 0) then configure_timeout s else s).

Definition ir_camera_system_enable_leds_hw (safe : bool) (s : ir_sys) : ir_sys :=
  configure_timeout (ir_leds_enable_pulse (ir_leds_set_pulse_length safe s)).

(** [ir_camera_system_{enable,disable}_<camera>_camera_hw]. *)
Definition camera_hw (enable : bool) (c : camera) (s : ir_sys) : ir_sys :=
  match c, b with
  | RgbFace, _ => s
  | IrFace, Diamond => configure_timeout (with_strobe_irq enable s)
  | _, _ => configure_timeout (camera_enable_trigger enable c s)
  end.

(** *** Sweeps *)

Definition sweep_goto (i next : Z) (s : ir_sys) : ir_sys :=
  let w := sw s in
  with_sweeps (Sweeps (focus_sweep_in_progress w) (mirror_sweep_in_progress w) next
    (global_num_focus_values w) (use_focus_sweep_polynomial w) (mirror_number_of_frames w)
    (i :: positions w)) s.

Definition sweep_flags (f m : bool) (index : Z) (s : ir_sys) : ir_sys :=
  let w := sw s in
  with_sweeps (Sweeps f m index (global_num_focus_values w) (use_focus_sweep_polynomial w)
    (mirror_number_of_frames w) (positions w)) s.

Definition camera_force (enable : bool) (c : camera) (s : ir_sys) : ir_sys :=
  camera_hw enable c (with_camera c enable s).

(** The interrupt at the end of an exposure; [cam_counting] is
    [LL_TIM_IsEnabledCounter(CAMERA_TRIGGER_TIMER)]. *)
Definition camera_exposure_completes_isr (cam_counting : bool) (s : ir_sys) : ir_sys :=
  if cam_counting then s
  else
    let w := sw s in
    let i := sweep_index w in
    if focus_sweep_in_progress w then
      if i =? global_num_focus_values w
      then sweep_flags false (mirror_sweep_in_progress w) (i + 1) (camera_force false IrEye (with_cam_it false s))
      else sweep_goto i (i + 1) s
    else if mirror_sweep_in_progress w then
      if i =? mirror_number_of_frames w
      then sweep_flags (focus_sweep_in_progress w) false (i + 1) (camera_force false IrEye (with_cam_it false s))
      else sweep_goto i (i + 1) s
    else sweep_flags (focus_sweep_in_progress w) (mirror_sweep_in_progress w) (i + 1) s.

Definition ir_camera_system_perform_focus_sweep_hw (s : ir_sys) : ir_sys :=
  if 0 <? global_num_focus_values (sw s) then
    camera_force true IrEye
      (with_cam_it true (sweep_goto 0 1 (sweep_flags true (mirror_sweep_in_progress (sw s)) (sweep_index (sw s)) s)))
  else s.

Definition ir_camera_system_perform_mirror_sweep_hw (s : ir_sys) : ir_sys :=
  if 0 <? mirror_number_of_frames (sw s) then
    camera_force true IrEye
      (with_cam_it true (sweep_flags (focus_sweep_in_progress (sw s)) true 0 s))
  else s.

(** *** The strobe of the RGB/IR face camera (Diamond) *)

Definition strobe_falling (safe : bool) (s : ir_sys) : ir_sys :=
  let g := global_timer_settings s in
  let s := if 0 <? fps g
           then with_master (master_on (regs s)) (master_psc g) (master_arr g)
                  (Some (master_initial_counter g)) s
           else with_master false (master_psc_reg (regs s)) (master_arr_reg (regs s)) (master_cnt (regs s)) s in
  let s := ir_leds_set_pulse_length safe s in
  let s := camera_enable_trigger (enabled_camera s IrEye) IrEye s in
  let s := camera_enable_trigger (enabled_camera s Tof2d) Tof2d s in
  ir_leds_enable_pulse s.

(** [count] is the master timer's counter. *)
Definition strobe_rising (count : Z) (s : ir_sys) : ir_sys :=
  let g := global_timer_settings s in
  if count <? master_initial_counter g then s
  else
    let remaining_ticks := u32 (master_arr g - count) in
    let remaining_us := u32 (remaining_ticks * (master_psc g + 1) / TIMER_CLOCK_FREQ_MHZ) in
    let max := IR_CAMERA_SYSTEM_MAX_IR_LED_ON_TIME_US b in
    if max <? u32 (remaining_us + on_time_in_us g) then
      with_led_arr max
        (with_master (master_on (regs s)) (master_psc_reg (regs s)) (master_arr_reg (regs s))
           (Some (u32 (master_arr g - (remaining_ticks - master_max_ir_leds_tick g)))) s)
    else master_update_event (with_led_arr (u32 (remaining_us + on_time_in_us g)) s).

Definition rgb_ir_strobe_isr (level count : Z) (safe : bool) (s : ir_sys) : ir_sys :=
  if level =? 0 then strobe_falling safe s
  else if level =? 1 then strobe_rising count s else s.

(** ** ir_camera_system.c *)

(** [triggered] is the eye-safety circuit. *)
Definition ir_camera_system_get_status (triggered : bool) (s : ir_sys) : Z :=
  if negb (ir_camera_system_initialized s) then RET_ERROR_NOT_INITIALIZED
  else if triggered then RET_ERROR_FORBIDDEN
  else if focus_sweep_in_progress (sw s) || mirror_sweep_in_progress (sw s) then RET_ERROR_BUSY
  else RET_SUCCESS.

(** Registers once the timers are set up: every output channel of the LED and
    camera timers is enabled, the counters reload at 0. *)
Definition regs_after_setup : timer_regs :=
  TimerRegs true 0 0 None 0 0 0 (Leds true true true true (bool_decide (b = Diamond))) 0
    (fun c => match c with IrEye | Tof2d => true | IrFace => bool_decide (b = Pearl) | RgbFace => false end)
    false.

Definition ir_camera_system_init (hw_ret : Z) (s : ir_sys) : Z * ir_sys :=
  if ir_camera_system_initialized s then (RET_ERROR_ALREADY_INITIALIZED, s)
  else if hw_ret =? RET_SUCCESS then
    (hw_ret, IrSys true (enabled_led_wavelength s) (enabled_camera s) (global_timer_settings s)
               (old_master_arr s) false (auto_off_timer s) (strobe_irq s) regs_after_setup (sw s))
  else (hw_ret, s).

Definition ir_camera_system_enable_camera (c : camera) (s : ir_sys) : Z * ir_sys :=
  if negb (ir_camera_system_initialized s) then (RET_ERROR_NOT_INITIALIZED, s)
  else if focus_sweep_in_progress (sw s) then (RET_ERROR_BUSY, s)
  else (RET_SUCCESS, camera_force true c s).

Definition ir_camera_system_disable_camera (c : camera) (s : ir_sys) : Z * ir_sys :=
  if negb (ir_camera_system_initialized s) then (RET_ERROR_NOT_INITIALIZED, s)
  else if focus_sweep_in_progress (sw s) then (RET_ERROR_BUSY, s)
  else (RET_SUCCESS, camera_force false c s).

(** The wavelengths the board does not support. *)
Definition deprecated_wavelength (w : wavelength_e) : bool :=
  match b, w with
  | Pearl, (WAVELENGTH_740NM | WAVELENGTH_850NM_CENTER | WAVELENGTH_850NM_SIDE | WAVELENGTH_940NM_SINGLE) => true
  | Diamond, (WAVELENGTH_740NM | WAVELENGTH_850NM_RIGHT | WAVELENGTH_850NM_LEFT) => true
  | _, _ => false
  end.

Definition ir_camera_system_enable_leds (triggered safe : bool) (w : wavelength_e) (s : ir_sys) : Z * ir_sys :=
  let ret := if negb (bool_decide (w = WAVELENGTH_NONE)) then ir_camera_system_get_status triggered s
             else RET_SUCCESS in
  if ret =? RET_SUCCESS then
    if deprecated_wavelength w then (RET_ERROR_INVALID_PARAM, s)
    else (RET_SUCCESS,
          if negb (bool_decide (enabled_led_wavelength s = w))
          then ir_camera_system_enable_leds_hw safe (with_wavelength w s) else s)
  else (ret, s).

Definition ir_camera_system_set_fps (triggered safe : bool) (fps_ : Z) (s : ir_sys) : Z * ir_sys :=
  let ret := if IR_CAMERA_SYSTEM_MAX_FPS <? fps_ then RET_ERROR_INVALID_PARAM
             else if negb (fps_ =? 0) then ir_camera_system_get_status triggered s else RET_SUCCESS in
  if ret =? RET_SUCCESS then ir_camera_system_set_fps_hw safe fps_ s else (ret, s).

Definition ir_camera_system_set_on_time_us (triggered safe : bool) (on : Z) (s : ir_sys) : Z * ir_sys :=
  let ret := if IR_CAMERA_SYSTEM_MAX_IR_LED_ON_TIME_US b <? on then RET_ERROR_INVALID_PARAM
             else if negb (on =? 0) then
               let st := ir_camera_system_get_status triggered s in
               if st =? RET_ERROR_BUSY then RET_SUCCESS else st
             else RET_SUCCESS in
  if ret =? RET_SUCCESS then ir_camera_system_set_on_time_us_hw safe on s else (ret, s).

(** [max_focus] is MAX_NUMBER_OF_FOCUS_VALUES (from the generated mcu.pb.h). *)
Definition ir_camera_system_set_focus_values_for_focus_sweep (max_focus num : Z) (s : ir_sys) : Z * ir_sys :=
  if max_focus <? num then (RET_ERROR_INVALID_PARAM, s)
  else if focus_sweep_in_progress (sw s) then (RET_ERROR_BUSY, s)
  else let w := sw s in
       (RET_SUCCESS, with_sweeps (Sweeps false (mirror_sweep_in_progress w) (sweep_index w) num false
                                    (mirror_number_of_frames w) (positions w)) s).

Definition ir_camera_system_set_polynomial_coefficients_for_focus_sweep (num : Z) (s : ir_sys) : Z * ir_sys :=
  if focus_sweep_in_progress (sw s) then (RET_ERROR_BUSY, s)
  else let w := sw s in
       (RET_SUCCESS, with_sweeps (Sweeps false (mirror_sweep_in_progress w) (sweep_index w) num true
                                    (mirror_number_of_frames w) (positions w)) s).

Definition ir_camera_system_set_polynomial_coefficients_for_mirror_sweep (num : Z) (s : ir_sys) : Z * ir_sys :=
  if mirror_sweep_in_progress (sw s) then (RET_ERROR_BUSY, s)
  else let w := sw s in
       (RET_SUCCESS, with_sweeps (Sweeps (focus_sweep_in_progress w) false (sweep_index w)
                                    (global_num_focus_values w) (use_focus_sweep_polynomial w) num (positions w)) s).

Definition perform_sweep (hw : ir_sys -> ir_sys) (triggered : bool) (s : ir_sys) : Z * ir_sys :=
  let ret := ir_camera_system_get_status triggered s in
  if ret =? RET_SUCCESS then
    if fps (global_timer_settings s) =? 0 then (RET_ERROR_INVALID_STATE, s)
    else if enabled_camera s IrEye then (RET_ERROR_INVALID_STATE, s)
    else (RET_SUCCESS, hw s)
  else (ret, s).

Definition ir_camera_system_perform_focus_sweep := perform_sweep ir_camera_system_perform_focus_sweep_hw.
Definition ir_camera_system_perform_mirror_sweep := perform_sweep ir_camera_system_perform_mirror_sweep_hw.

(** The handler of the auto-off timer. *)
Definition ir_camera_system_timeout_disable (safe : bool) (s : ir_sys) : ir_sys :=
  let s := (ir_camera_system_enable_leds false safe WAVELENGTH_NONE s).2 in
  let s := (ir_camera_system_disable_camera IrEye s).2 in
  let s := (ir_camera_system_disable_camera IrFace s).2 in
  (ir_camera_system_disable_camera Tof2d s).2.

Definition ir_boot : ir_sys :=
  IrSys false WAVELENGTH_NONE (fun _ => false) timer_settings_zero 0 false false false
    (TimerRegs false 0 0 None 0 0 0 leds_off 0 (fun _ => false) false)
    (Sweeps false false 0 0 false 0 []).
End Hw.

(** ** Events *)

Inductive ir_event :=
| EvInit (hw_ret : Z)
| EvEnableCamera (c : camera)
| EvDisableCamera (c : camera)
| EvLeds (triggered safe : bool) (w : wavelength_e)
| EvFps (triggered safe : bool) (f : Z)
| EvOnTime (triggered safe : bool) (v : Z)
| EvFocusValues (max_focus n : Z)
| EvFocusPoly (n : Z)
| EvMirrorPoly (n : Z)
| EvFocusSweep (triggered : bool)
| EvMirrorSweep (triggered : bool)
| EvTimeout (safe : bool)
| EvExposure (cam_counting : bool)
| EvStrobe (level count : Z) (safe : bool).

Definition ir_step (b : board) (s : ir_sys) (e : ir_event) : ir_sys :=
  match e with
  | EvInit r => (ir_camera_system_init b r s).2
  | EvEnableCamera c => (ir_camera_system_enable_camera b c s).2
  | EvDisableCamera c => (ir_camera_system_disable_camera b c s).2
  | EvLeds t sf w => (ir_camera_system_enable_leds b t sf w s).2
  | EvFps t sf f => (ir_camera_system_set_fps b t sf f s).2
  | EvOnTime t sf v => (ir_camera_system_set_on_time_us b t sf v s).2
  | EvFocusValues m n => (ir_camera_system_set_focus_values_for_focus_sweep m n s).2
  | EvFocusPoly n => (ir_camera_system_set_polynomial_coefficients_for_focus_sweep n s).2
  | EvMirrorPoly n => (ir_camera_system_set_polynomial_coefficients_for_mirror_sweep n s).2
  | EvFocusSweep t => (ir_camera_system_perform_focus_sweep b t s).2
  | EvMirrorSweep t => (ir_camera_system_perform_mirror_sweep b t s).2
  | EvTimeout sf => ir_camera_system_timeout_disable b sf s
  | EvExposure c => camera_exposure_completes_isr b c s
  | EvStrobe l c sf => rgb_ir_strobe_isr b l c sf s
  end.

(** The arguments of the setters are unsigned. *)
Definition event_ok (e : ir_event) : Prop :=
  match e with EvFps _ _ v | EvOnTime _ _ v => 0 <= v | _ => True end.

(** ** Lemmas: what an operation may change

    [pulse_view] is the part of the state the eye-safety properties are about;
    each elementary operation is described on it. *)

Record pulse_view := PulseView {
  pv_settings : ir_camera_timer_settings;
  pv_arr850 : Z; pv_arr940 : Z;
  pv_leds : led_channels;
  pv_wave : wavelength_e;
  pv_init : bool;
}.

Definition view (s : ir_sys) : pulse_view :=
  PulseView (global_timer_settings s) (led850_arr (regs s)) (led940_arr (regs s)) (leds (regs s))
    (enabled_led_wavelength s) (ir_camera_system_initialized s).

Definition led_arr_bound (b : board) : Z :=
  IR_CAMERA_SYSTEM_MAX_IR_LED_ON_TIME_US b + max_start_delay b.

Record view_safe (b : board) (v : pulse_view) : Prop := {
  vs_settings : settings_safe b (pv_settings v);
  vs_850 : 0 <= pv_arr850 v <= led_arr_bound b;
  vs_940 : 0 <= pv_arr940 v <= led_arr_bound b;
}.

(** Only channels of the wavelength in force are enabled. *)
Definition view_match (b : board) (v : pulse_view) : Prop :=
  leds_or (pv_leds v) (wavelength_channels b (pv_wave v)) = wavelength_channels b (pv_wave v).

Definition set_pulse_view (b : board) (safe : bool) (v : pulse_view) : pulse_view :=
  let g := if safe then pv_settings v else set_on_time 0 (pv_settings v) in
  let on := on_time_in_us g in
  PulseView g (if on =? 0 then pv_arr850 v else on + max_start_delay b)
    (if on =? 0 then pv_arr940 v else on + max_start_delay b) leds_off (pv_wave v) (pv_init v).

Definition enable_pulse_view (b : board) (v : pulse_view) : pulse_view :=
  if on_time_in_us (pv_settings v) =? 0 then v
  else PulseView (pv_settings v) (pv_arr850 v) (pv_arr940 v)
         (leds_or (pv_leds v) (wavelength_channels b (pv_wave v))) (pv_wave v) (pv_init v).

Lemma set_pulse_view_spec b safe s : view (ir_leds_set_pulse_length b safe s) = set_pulse_view b safe (view s).
Proof.
  unfold ir_leds_set_pulse_length, set_pulse_view, set_pvcc_converter_into_high_demand_mode. destruct safe; simpl.
  - destruct (on_time_in_us (global_timer_settings s) =? 0); simpl; repeat case_match; done.
  - done.
Qed.

Lemma enable_pulse_view_spec b s : view (ir_leds_enable_pulse b s) = enable_pulse_view b (view s).
Proof. unfold ir_leds_enable_pulse, enable_pulse_view. simpl. by destruct (_ =? 0). Qed.

Lemma camera_trigger_view b en c s : view (camera_enable_trigger b en c s) = view s.
Proof. done. Qed.

Lemma camera_force_view b en c s : view (camera_force b en c s) = view s.
Proof. unfold camera_force, camera_hw. by destruct c, b. Qed.

Lemma set_pulse_safe b safe v : view_safe b v -> view_safe b (set_pulse_view b safe v).
Proof.
  intros [S A B]. assert (0 <= max_start_delay b) by (by destruct b; vm_compute).
  assert (settings_safe b (if safe then pv_settings v else set_on_time 0 (pv_settings v))) as S'.
  { destruct safe; [done |]. destruct S as (S1 & S2 & S3). split; [simpl; destruct b; simpl; lia |].
    split; [done |]. intros N. specialize (S3 N). revert S3. destruct b; simpl; rewrite !Z.leb_le; lia. }
  split; simpl; [done | |]; destruct (Z.eqb_spec (on_time_in_us (if safe then pv_settings v else set_on_time 0 (pv_settings v))) 0);
    try done; destruct S' as (So & _); unfold led_arr_bound; lia.
Qed.

Lemma enable_pulse_safe b v : view_safe b v -> view_safe b (enable_pulse_view b v).
Proof. intros [S A B]. unfold enable_pulse_view. by destruct (_ =? 0). Qed.

Lemma leds_or_off x : leds_or leds_off x = x.
Proof. by destruct x. Qed.

Lemma leds_or_idem x : leds_or x x = x.
Proof. destruct x as [a b c d e]. by destruct a, b, c, d, e. Qed.

(** Setting the pulse length and enabling the channels again always leaves the
    channels of the wavelength, or none. *)
Lemma set_enable_match b safe v : view_match b (enable_pulse_view b (set_pulse_view b safe v)).
Proof.
  unfold view_match, enable_pulse_view. simpl. destruct (_ =? 0); simpl.
  - apply leds_or_off.
  - by rewrite leds_or_off, leds_or_idem.
Qed.

Lemma set_pulse_match b safe v : view_match b (set_pulse_view b safe v).
Proof. apply leds_or_off. Qed.

(** [apply_new_timer_settings] on the view. *)
Lemma apply_view b safe s :
  view (apply_new_timer_settings b safe s) =
  let v := set_pulse_view b safe (view s) in
  if face_gates b s then v else enable_pulse_view b v.
Proof.
  cbv zeta. rewrite <- set_pulse_view_spec, <- enable_pulse_view_spec.
  unfold apply_new_timer_settings. set (s1 := with_master _ _ _ _ s).
  set (s2 := match b with Pearl => _ | Diamond => _ end).
  assert (view s2 = view s /\ enabled_camera s2 = enabled_camera s) as [V2 E2].
  { subst s2. unfold face_gates. destruct b; [done |]. by destruct (_ && _). }
  set (s3 := camera_enable_trigger _ _ _ s2).
  assert (view s3 = view s /\ enabled_camera s3 = enabled_camera s) as [V3 E3] by done.
  set (s4 := ir_leds_set_pulse_length b safe s3).
  assert (enabled_camera s4 = enabled_camera s /\ view s4 = view (ir_leds_set_pulse_length b safe s)) as [E4 V4].
  { split; [| subst s4; by rewrite !set_pulse_view_spec, V3].
    rewrite <- E3. subst s4. unfold ir_leds_set_pulse_length, set_pvcc_converter_into_high_demand_mode.
    repeat case_match; done. }
  assert (face_gates b s4 = face_gates b s) as G4 by (unfold face_gates; by rewrite E4).
  rewrite G4. destruct (face_gates b s); simpl negb; cbv iota.
  - simpl andb. cbv iota. by rewrite <- V4.
  - set (s5 := ir_leds_enable_pulse b s4).
    assert (view s5 = view (ir_leds_enable_pulse b (ir_leds_set_pulse_length b safe s))) as <-
      by (subst s5; by rewrite !enable_pulse_view_spec, V4).
    by destruct (_ && _).
Qed.

Lemma timeout_view s : view (configure_timeout s) = view s.
Proof. done. Qed.

Lemma apply_safe b safe s : view_safe b (view s) -> view_safe b (view (apply_new_timer_settings b safe s)).
Proof.
  intros V. rewrite apply_view. cbv zeta. apply (set_pulse_safe b safe) in V.
  destruct (face_gates b s); [done |]. by apply enable_pulse_safe.
Qed.

Lemma apply_match b safe s : view_match b (view (apply_new_timer_settings b safe s)).
Proof.
  rewrite apply_view. cbv zeta. destruct (face_gates b s); [apply set_pulse_match | apply set_enable_match].
Qed.

Lemma with_settings_safe b t s : settings_safe b t -> view_safe b (view s) -> view_safe b (view (with_settings t s)).
Proof. intros T [_ A B]. by split. Qed.

(** What every operation preserves, on the view: the limits, and once the
    system is initialised the agreement of channels and wavelength. *)
Definition preserves (b : board) (s s' : ir_sys) : Prop :=
  (view_safe b (view s) -> view_safe b (view s')) /\
  (ir_camera_system_initialized s = true -> view_match b (view s) ->
   view_match b (view s') /\ ir_camera_system_initialized s' = true).

Lemma preserves_same b s s' : view s' = view s -> preserves b s s'.
Proof.
  intros E. split; rewrite E; [done |]. intros I M. split; [done |].
  change (pv_init (view s') = true). by rewrite E.
Qed.

Lemma preserves_trans b s1 s2 s3 : preserves b s1 s2 -> preserves b s2 s3 -> preserves b s1 s3.
Proof. intros [A1 M1] [A2 M2]. split; [auto |]. intros I M. destruct (M1 I M). auto. Qed.

Lemma apply_init b safe s : ir_camera_system_initialized (apply_new_timer_settings b safe s) = ir_camera_system_initialized s.
Proof.
  change (pv_init (view (apply_new_timer_settings b safe s)) = pv_init (view s)). rewrite apply_view. cbv zeta.
  unfold enable_pulse_view. repeat case_match; done.
Qed.

Lemma preserves_setting b safe t s (apply : bool) :
  (settings_safe b (global_timer_settings s) -> settings_safe b t) ->
  preserves b s (if apply then apply_new_timer_settings b safe (with_settings t s) else with_settings t s).
Proof.
  intros T. split.
  - intros V. pose proof (T (vs_settings _ _ V)) as T'. pose proof (with_settings_safe b t s T' V).
    destruct apply; [by apply apply_safe | done].
  - intros I M. destruct apply; [| done]. split; [apply apply_match | by rewrite apply_init].
Qed.

Lemma preserves_fps b t sf v s : 0 <= v -> preserves b s (ir_camera_system_set_fps b t sf v s).2.
Proof.
  intros Hv. unfold ir_camera_system_set_fps. destruct (_ =? RET_SUCCESS); [| by apply preserves_same].
  unfold ir_camera_system_set_fps_hw. simpl.
  eapply preserves_trans; [| apply preserves_same, timeout_view].
  apply preserves_setting. intros S. by apply setters_settings_safe.
Qed.

Lemma preserves_on_time b t sf v s : 0 <= v -> preserves b s (ir_camera_system_set_on_time_us b t sf v s).2.
Proof.
  intros Hv. unfold ir_camera_system_set_on_time_us. destruct (_ =? RET_SUCCESS); [| by apply preserves_same].
  unfold ir_camera_system_set_on_time_us_hw. simpl.
  match goal with |- preserves _ _ (if _ then configure_timeout ?x else _) => set (s1 := x) end.
  apply (preserves_trans _ _ s1).
  - apply preserves_setting. intros S. by apply setters_settings_safe.
  - apply preserves_same. destruct (negb (v =? 0)); [apply timeout_view | reflexivity].
Qed.

Lemma preserves_leds b t sf w s : preserves b s (ir_camera_system_enable_leds b t sf w s).2.
Proof.
  unfold ir_camera_system_enable_leds. destruct (_ =? RET_SUCCESS); [| by apply preserves_same].
  destruct (deprecated_wavelength b w); [by apply preserves_same |]. simpl.
  destruct (negb _); [| by apply preserves_same].
  set (s1 := with_wavelength w s).
  assert (view (ir_camera_system_enable_leds_hw b sf s1) = enable_pulse_view b (set_pulse_view b sf (view s1))) as E
    by (unfold ir_camera_system_enable_leds_hw; by rewrite timeout_view, enable_pulse_view_spec, set_pulse_view_spec).
  split.
  - intros [S A B]. rewrite E. apply enable_pulse_safe, set_pulse_safe. by split.
  - intros I _. split; [rewrite E; apply set_enable_match |].
    change (pv_init (view (ir_camera_system_enable_leds_hw b sf s1)) = true). rewrite E.
    unfold enable_pulse_view. by case_match.
Qed.

Lemma preserves_camera b en c s : preserves b s (camera_force b en c s).
Proof. apply preserves_same, camera_force_view. Qed.

Lemma preserves_disable b c s : preserves b s (ir_camera_system_disable_camera b c s).2.
Proof.
  unfold ir_camera_system_disable_camera. repeat case_match; simpl;
    [by apply preserves_same .. | apply preserves_camera].
Qed.

Lemma preserves_exposure b c s : preserves b s (camera_exposure_completes_isr b c s).
Proof.
  apply preserves_same. unfold camera_exposure_completes_isr, sweep_flags, sweep_goto.
  repeat case_match; try done; exact (camera_force_view b false IrEye (with_cam_it false s)).
Qed.

Lemma preserves_sweep b hw t s : (forall s, view (hw s) = view s) -> preserves b s (perform_sweep hw t s).2.
Proof.
  intros Hh. unfold perform_sweep. apply preserves_same. repeat case_match; simpl; done || apply Hh.
Qed.

Lemma preserves_strobe b l c sf s : preserves b s (rgb_ir_strobe_isr b l c sf s).
Proof.
  unfold rgb_ir_strobe_isr. destruct (l =? 0); [| destruct (l =? 1); [| by apply preserves_same]].
  - unfold strobe_falling. set (s1 := if 0 <? fps _ then _ else _).
    assert (view s1 = view s) as E1 by (subst s1; by destruct (0 <? _)).
    set (s2 := camera_enable_trigger _ _ _ _).
    assert (view s2 = set_pulse_view b sf (view s)) as E2 by (rewrite <- E1; apply set_pulse_view_spec).
    assert (view (ir_leds_enable_pulse b s2) = enable_pulse_view b (set_pulse_view b sf (view s))) as E
      by (by rewrite enable_pulse_view_spec, E2).
    split; rewrite E.
    + intros V. by apply enable_pulse_safe, set_pulse_safe.
    + intros I _. split; [apply set_enable_match |].
      change (pv_init (view (ir_leds_enable_pulse b s2)) = true). rewrite E.
      unfold enable_pulse_view. by case_match.
  - unfold strobe_rising. destruct (_ <? _); [by apply preserves_same |].
    assert (0 <= max_start_delay b /\ 0 <= IR_CAMERA_SYSTEM_MAX_IR_LED_ON_TIME_US b) as [] by (by destruct b).
    destruct (Z.ltb_spec (IR_CAMERA_SYSTEM_MAX_IR_LED_ON_TIME_US b)
                (u32 (u32 (u32 (master_arr (global_timer_settings s) - c) * (master_psc (global_timer_settings s) + 1)
                             / TIMER_CLOCK_FREQ_MHZ) + on_time_in_us (global_timer_settings s)))) as [L | L].
    + split; [| done]. intros [S A B]. split; simpl; [done | ..]; unfold led_arr_bound; lia.
    + split; [| done]. intros [S A B]. split; simpl; [done | ..]; unfold led_arr_bound;
        split; try (apply u32_range); lia.
Qed.

Lemma step_preserves b e s : event_ok e -> preserves b s (ir_step b s e).
Proof.
  intros Ok. destruct e as [r | c | c | t sf w | t sf f | t sf v | m n | n | n | t | t | sf | c | l c sf]; simpl.
  - unfold ir_camera_system_init. destruct (ir_camera_system_initialized s) eqn:E; [by apply preserves_same |].
    destruct (r =? RET_SUCCESS); [| by apply preserves_same]. split; [| congruence].
    intros [S _ _]. assert (0 <= led_arr_bound b) by (by destruct b). by split.
  - unfold ir_camera_system_enable_camera. repeat case_match; simpl;
      [by apply preserves_same .. | apply preserves_camera].
  - apply preserves_disable.
  - apply preserves_leds.
  - by apply preserves_fps.
  - by apply preserves_on_time.
  - apply preserves_same. unfold ir_camera_system_set_focus_values_for_focus_sweep. by repeat case_match.
  - apply preserves_same. unfold ir_camera_system_set_polynomial_coefficients_for_focus_sweep. by repeat case_match.
  - apply preserves_same. unfold ir_camera_system_set_polynomial_coefficients_for_mirror_sweep. by repeat case_match.
  - apply preserves_sweep. intros x. unfold ir_camera_system_perform_focus_sweep_hw. case_match; [| done].
    etransitivity; [apply camera_force_view | done].
  - apply preserves_sweep. intros x. unfold ir_camera_system_perform_mirror_sweep_hw. case_match; [| done].
    etransitivity; [apply camera_force_view | done].
  - unfold ir_camera_system_timeout_disable.
    eapply preserves_trans; [apply preserves_leds |].
    eapply preserves_trans; [apply preserves_disable |].
    eapply preserves_trans; apply preserves_disable.
  - apply preserves_exposure.
  - apply preserves_strobe.
Qed.

Lemma run_preserves b es : Forall event_ok es -> forall s, preserves b s (fold_left (ir_step b) es s).
Proof.
  induction 1 as [| e es He _ IH]; intros s; simpl; [by apply preserves_same |].
  eapply preserves_trans; [by apply step_preserves | apply IH].
Qed.

(** ** Theorems *)

Lemma boot_safe b : view_safe b (view (ir_boot)).
Proof.
  split; simpl; [apply zero_safe | |]; by destruct b.
Qed.

(** C3: Pulse length: whatever requests reach the infrared camera system, in
    whatever order and interleaved in whatever way with the end-of-exposure,
    strobe and auto-off interrupts, with any reading of the distance sensor, the
    safety circuit and the counters, the settings in force respect the on-time
    and duty-cycle limits, and neither LED timer is ever programmed for a pulse
    longer than the board's maximum on-time plus the turn-on delay (5.001 ms on
    Pearl, 7.551 ms on Diamond). *)
Theorem ir_pulses_bounded (b : board) (es : list ir_event) (Hok : Forall event_ok es) :
  let s := fold_left (ir_step b) es ir_boot in
  settings_safe b (global_timer_settings s) /\
  0 <= led850_arr (regs s) <= led_arr_bound b /\ 0 <= led940_arr (regs s) <= led_arr_bound b.
Proof.
  destruct (run_preserves b es Hok ir_boot) as [P _]. destruct (P (boot_safe b)). done.
Qed.

Lemma ir_pulses_bounded_witness :
  let es := [EvInit 0; EvFps false true 30; EvLeds false true WAVELENGTH_850NM; EvOnTime false true 9000;
             EvOnTime false true 7500; EvEnableCamera IrFace; EvStrobe 0 0 true; EvStrobe 1 65000 true] in
  let s := fold_left (ir_step Diamond) es ir_boot in
  led850_arr (regs s) <= 7551 /\ led850_arr (regs s) = 7500.
Proof.
  cbv zeta. split; [| by vm_compute].
  refine (proj2 (proj1 (proj2 (ir_pulses_bounded Diamond _ _)))).
  repeat constructor; discriminate.
Defined.

(** Only the LEDs of the requested wavelength are driven: once the
    channels agree with the wavelength in force (which every accepted frame
    rate, every new wavelength and every falling strobe edge establishes), they
    agree after any sequence of events; in particular no LED channel is enabled
    while the wavelength is NONE. *)
Theorem ir_leds_follow_wavelength (b : board) (s : ir_sys) (es : list ir_event)
  (Hinit : ir_camera_system_initialized s = true) (Hm : view_match b (view s))
  (Hok : Forall event_ok es) :
  let s' := fold_left (ir_step b) es s in
  leds_or (leds (regs s')) (wavelength_channels b (enabled_led_wavelength s')) =
    wavelength_channels b (enabled_led_wavelength s') /\
  (enabled_led_wavelength s' = WAVELENGTH_NONE -> leds (regs s') = leds_off).
Proof.
  cbv zeta. destruct (run_preserves b es Hok s) as [_ M]. destruct (M Hinit Hm) as [M' _].
  split; [exact M' |]. intros E. unfold view_match in M'. simpl in M'. rewrite E in M'.
  destruct (leds _) as [x1 x2 x3 x4 x5]. unfold leds_or in M'. simpl in M'.
  destruct b; simpl in M'; by destruct x1, x2, x3, x4, x5.
Qed.

Lemma ir_leds_follow_wavelength_witness :
  let s := fold_left (ir_step Pearl) [EvInit 0; EvFps false true 30] ir_boot in
  let s' := fold_left (ir_step Pearl)
              [EvOnTime false true 4000; EvLeds false true WAVELENGTH_940NM_LEFT; EvFps false true 30] s in
  leds_or (leds (regs s')) (wavelength_channels Pearl WAVELENGTH_940NM_LEFT) =
    wavelength_channels Pearl WAVELENGTH_940NM_LEFT /\ l940_l (leds (regs s')) = true.
Proof.
  cbv zeta. split; [| by vm_compute].
  refine (proj1 (ir_leds_follow_wavelength Pearl (fold_left (ir_step Pearl) [EvInit 0; EvFps false true 30] ir_boot)
    [EvOnTime false true 4000; EvLeds false true WAVELENGTH_940NM_LEFT; EvFps false true 30] _ _ _)).
  - reflexivity.
  - reflexivity.
  - repeat constructor; discriminate.
Defined.

(** Before any of these events the channels are as the timer set-up left them,
    all enabled: on Diamond, when the face camera is started first and the
    on-time is set before its first strobe edge, that edge pulses every LED
    although the wavelength is NONE. *)
Example ir_leds_on_before_first_apply :
  let es := [EvInit 0; EvEnableCamera IrFace; EvOnTime false true 5000; EvStrobe 1 0 true] in
  let s := fold_left (ir_step Diamond) es ir_boot in
  enabled_led_wavelength s = WAVELENGTH_NONE /\ leds (regs s) = Leds true true true true true /\
  led850_arr (regs s) = 5000 /\ master_updates (regs s) = 1%nat.
Proof. by vm_compute. Qed.

(** A rising strobe edge less than the maximum on-time before the scheduled
    pulse, but more than that minus the on-time: the subtraction of the two
    tick counts is negative, so the master counter is sent past its reload
    value instead of nearer to it. *)
Example strobe_rising_underflow :
  let es := [EvInit 0; EvFps false true 30; EvOnTime false true 7500; EvEnableCamera IrFace;
             EvStrobe 0 0 true; EvStrobe 1 (65134 - 9770) true] in
  let s := fold_left (ir_step Diamond) es ir_boot in
  master_arr (global_timer_settings s) = 65134 /\ master_cnt (regs s) = Some 70019.
Proof. vm_compute. done. Qed.

(** When the eye-safety circuit has tripped, or the system is not
    initialised, nothing that could drive the LEDs is accepted: a non-zero
    frame rate, a non-zero on-time, a wavelength and a sweep are all refused
    with the status of the system, and the state is untouched; while turning
    off (wavelength NONE, rate 0, on-time 0) succeeds in every state, sweeps
    included, and no LED channel stays enabled after NONE is newly set. *)
Theorem ir_unsafe_requests_refused (b : board) (triggered safe : bool) (s : ir_sys)
  (Hu : triggered = true \/ ir_camera_system_initialized s = false) :
  let st := ir_camera_system_get_status triggered s in
  (st = RET_ERROR_FORBIDDEN \/ st = RET_ERROR_NOT_INITIALIZED) /\
  (forall f, 0 < f <= IR_CAMERA_SYSTEM_MAX_FPS -> ir_camera_system_set_fps b triggered safe f s = (st, s)) /\
  (forall v, 0 < v <= IR_CAMERA_SYSTEM_MAX_IR_LED_ON_TIME_US b ->
     ir_camera_system_set_on_time_us b triggered safe v s = (st, s)) /\
  (forall w, w <> WAVELENGTH_NONE -> ir_camera_system_enable_leds b triggered safe w s = (st, s)) /\
  ir_camera_system_perform_focus_sweep b triggered s = (st, s) /\
  ir_camera_system_perform_mirror_sweep b triggered s = (st, s) /\
  (ir_camera_system_set_fps b triggered safe 0 s).1 = RET_SUCCESS /\
  (ir_camera_system_enable_leds b triggered safe WAVELENGTH_NONE s).1 = RET_SUCCESS /\
  (enabled_led_wavelength s <> WAVELENGTH_NONE ->
     leds (regs (ir_camera_system_enable_leds b triggered safe WAVELENGTH_NONE s).2) = leds_off).
Proof.
  intros st.
  assert (st = RET_ERROR_FORBIDDEN \/ st = RET_ERROR_NOT_INITIALIZED) as Hst.
  { subst st. unfold ir_camera_system_get_status. destruct Hu as [-> | ->]; [| by right].
    destruct (ir_camera_system_initialized s); [by left | by right]. }
  assert ((st =? RET_SUCCESS) = false /\ (st =? RET_ERROR_BUSY) = false) as [E1 E2]
    by (destruct Hst as [-> | ->]; done).
  split; [done |]. split; [| split; [| split; [| split; [| split; [| split; [| split]]]]]].
  - intros f Hf. unfold ir_camera_system_set_fps. bfalse (IR_CAMERA_SYSTEM_MAX_FPS <? f). bfalse (f =? 0).
    simpl negb. cbv iota zeta. fold st. by rewrite E1.
  - intros v Hv. unfold ir_camera_system_set_on_time_us.
    bfalse (IR_CAMERA_SYSTEM_MAX_IR_LED_ON_TIME_US b <? v). bfalse (v =? 0).
    simpl negb. cbv iota zeta. fold st. by rewrite E2, E1.
  - intros w Hw. unfold ir_camera_system_enable_leds. rewrite bool_decide_false by done.
    simpl negb. cbv iota zeta. fold st. by rewrite E1.
  - unfold ir_camera_system_perform_focus_sweep, perform_sweep. cbv zeta. fold st. by rewrite E1.
  - unfold ir_camera_system_perform_mirror_sweep, perform_sweep. cbv zeta. fold st. by rewrite E1.
  - done.
  - unfold ir_camera_system_enable_leds. rewrite bool_decide_true by done. by destruct b.
  - intros Hw. unfold ir_camera_system_enable_leds. rewrite (bool_decide_true (WAVELENGTH_NONE = WAVELENGTH_NONE)) by done.
    cbn [negb]. change (RET_SUCCESS =? RET_SUCCESS) with true. cbv iota zeta.
    assert (deprecated_wavelength b WAVELENGTH_NONE = false) as -> by (by destruct b).
    rewrite bool_decide_false by done. cbn [negb snd].
    set (s1 := with_wavelength WAVELENGTH_NONE s).
    change (pv_leds (view (ir_camera_system_enable_leds_hw b safe s1)) = leds_off).
    unfold ir_camera_system_enable_leds_hw. rewrite timeout_view, enable_pulse_view_spec, set_pulse_view_spec.
    unfold enable_pulse_view. simpl. destruct (_ =? 0); [done |]. by destruct b.
Qed.

Lemma ir_unsafe_requests_refused_witness :
  let s := fold_left (ir_step Pearl) [EvInit 0; EvFps false true 30] ir_boot in
  ir_camera_system_set_on_time_us Pearl true true 100 s = (RET_ERROR_FORBIDDEN, s).
Proof.
  cbv zeta.
  refine (proj1 (proj2 (proj2 (ir_unsafe_requests_refused Pearl true true _ _))) 100 _).
  - by left.
  - by split.
Defined.

(** The exposures of a sweep. *)
Definition exposures (b : board) (k : nat) (s : ir_sys) : ir_sys :=
  Nat.iter k (camera_exposure_completes_isr b false) s.

Lemma exposures_S b k s : exposures b (S k) s = camera_exposure_completes_isr b false (exposures b k s).
Proof. done. Qed.

Definition upto (n : nat) : list Z := rev (map Z.of_nat (seq 0 n)).

Lemma upto_S n : upto (S n) = Z.of_nat n :: upto n.
Proof. unfold upto. by rewrite seq_S, map_app, rev_app_distr. Qed.

(** The sweep state while it runs, and at its end. *)
Definition sweep_running (focus : bool) (index : Z) (pos : list Z) (s : ir_sys) : Prop :=
  focus_sweep_in_progress (sw s) = focus /\ mirror_sweep_in_progress (sw s) = negb focus /\
  sweep_index (sw s) = index /\ positions (sw s) = pos /\ enabled_camera s IrEye = true.

Definition sweep_done (pos : list Z) (s : ir_sys) : Prop :=
  focus_sweep_in_progress (sw s) = false /\ mirror_sweep_in_progress (sw s) = false /\
  positions (sw s) = pos /\ enabled_camera s IrEye = false.

Definition sweep_size (focus : bool) (s : ir_sys) : Z :=
  if focus then global_num_focus_values (sw s) else mirror_number_of_frames (sw s).

Lemma exposure_step b focus index pos s : sweep_running focus index pos s ->
  let s' := camera_exposure_completes_isr b false s in
  sweep_size focus s' = sweep_size focus s /\
  (index <> sweep_size focus s -> sweep_running focus (index + 1) (index :: pos) s') /\
  (index = sweep_size focus s -> sweep_done pos s').
Proof.
  intros (F & M & I & P & E). cbv zeta. unfold camera_exposure_completes_isr. rewrite F, M, I.
  unfold sweep_done, sweep_running.
  destruct focus; simpl.
  - destruct (Z.eqb_spec index (global_num_focus_values (sw s))); simpl; rewrite ?F, ?M, ?P; done.
  - destruct (Z.eqb_spec index (mirror_number_of_frames (sw s))); simpl; rewrite ?F, ?M, ?P; done.
Qed.

Lemma exposures_sweep b focus i0 pos s n k :
  sweep_running focus i0 pos s -> sweep_size focus s = n -> 0 <= i0 -> i0 + Z.of_nat k <= n ->
  sweep_size focus (exposures b k s) = n /\
  sweep_running focus (i0 + Z.of_nat k) (rev (map (fun j => i0 + Z.of_nat j) (seq 0 k)) ++ pos) (exposures b k s).
Proof.
  intros R Hn Hi Hk. induction k as [| k IH].
  - simpl. by rewrite Z.add_0_r.
  - destruct IH as [S1 R1]; [lia |]. rewrite exposures_S.
    destruct (exposure_step b focus _ _ _ R1) as (S2 & Hmid & _). rewrite S1 in *.
    split; [done |]. rewrite seq_S, map_app, rev_app_distr.
    replace (i0 + Z.of_nat (S k)) with (i0 + Z.of_nat k + 1) by lia.
    apply Hmid. lia.
Qed.

(** A focus sweep over [n] positions ends after exactly [n] exposures:
    position 0 is set at once, position i after the i-th exposure, in order;
    during the sweep the eye camera is on, after it is off, and the system is
    available again.  A mirror sweep over [n] frames starts from the present
    angles and asks for its positions 0 to n-1 after each exposure, so it takes
    [n]+1 exposures. *)
Theorem sweep_takes_its_frames (b : board) (n : nat) (s : ir_sys)
  (Hinit : ir_camera_system_initialized s = true)
  (Hfree : focus_sweep_in_progress (sw s) = false /\ mirror_sweep_in_progress (sw s) = false)
  (Hfps : fps (global_timer_settings s) <> 0) (Heye : enabled_camera s IrEye = false) (Hn : (0 < n)%nat) :
  (global_num_focus_values (sw s) = Z.of_nat n ->
   let r := ir_camera_system_perform_focus_sweep b false s in
   r.1 = RET_SUCCESS /\
   (forall k, (k < n)%nat -> sweep_running true (1 + Z.of_nat k) (upto (S k) ++ positions (sw s)) (exposures b k r.2)) /\
   sweep_done (upto n ++ positions (sw s)) (exposures b n r.2)) /\
  (mirror_number_of_frames (sw s) = Z.of_nat n ->
   let r := ir_camera_system_perform_mirror_sweep b false s in
   r.1 = RET_SUCCESS /\
   (forall k, (k <= n)%nat -> sweep_running false (Z.of_nat k) (upto k ++ positions (sw s)) (exposures b k r.2)) /\
   sweep_done (upto n ++ positions (sw s)) (exposures b (S n) r.2)).
Proof.
  destruct Hfree as [F M].
  assert (ir_camera_system_get_status false s = RET_SUCCESS) as Est
    by (unfold ir_camera_system_get_status; by rewrite Hinit, F, M).
  assert (forall hw, perform_sweep hw false s = (RET_SUCCESS, hw s)) as Ep.
  { intros hw. unfold perform_sweep. rewrite Est, Heye. simpl. by bfalse (fps (global_timer_settings s) =? 0). }
  assert (forall x, sw (camera_force b true IrEye x) = sw x /\ enabled_camera (camera_force b true IrEye x) IrEye = true)
    as Hforce by (intros x; by destruct b).
  split; intros Hnum; cbv zeta.
  - unfold ir_camera_system_perform_focus_sweep. rewrite Ep. split; [done |]. simpl snd.
    unfold ir_camera_system_perform_focus_sweep_hw. btrue (0 <? global_num_focus_values (sw s)).
    set (s0 := camera_force _ _ _ _).
    destruct (Hforce (with_cam_it true (sweep_goto 0 1 (sweep_flags true (mirror_sweep_in_progress (sw s)) (sweep_index (sw s)) s))))
      as [W1 W2]. fold s0 in W1, W2.
    assert (sweep_running true 1 (0 :: positions (sw s)) s0 /\ sweep_size true s0 = Z.of_nat n) as [R0 Z0].
    { unfold sweep_running, sweep_size. by rewrite W1, W2, <- Hnum. }
    assert (forall k, (k < n)%nat -> sweep_size true (exposures b k s0) = Z.of_nat n /\
              sweep_running true (1 + Z.of_nat k) (upto (S k) ++ positions (sw s)) (exposures b k s0)) as Hk.
    { intros k Hlt. destruct (exposures_sweep b true 1 _ s0 (Z.of_nat n) k R0 Z0) as [Sz R]; [lia | lia |].
      split; [done |]. unfold upto. rewrite <- cons_seq, <- seq_shift, map_cons, map_map. simpl.
      rewrite <- app_assoc. erewrite map_ext; [exact R |]. intros; simpl; lia. }
    split; [intros k Hlt; by apply Hk |]. destruct n as [| n]; [lia |].
    destruct (Hk n ltac:(lia)) as [Sz R]. rewrite exposures_S.
    destruct (exposure_step b true _ _ _ R) as (_ & _ & D). apply D. rewrite Sz. lia.
  - unfold ir_camera_system_perform_mirror_sweep. rewrite Ep. split; [done |]. simpl snd.
    unfold ir_camera_system_perform_mirror_sweep_hw. btrue (0 <? mirror_number_of_frames (sw s)).
    set (s0 := camera_force _ _ _ _).
    destruct (Hforce (with_cam_it true (sweep_flags (focus_sweep_in_progress (sw s)) true 0 s))) as [W1 W2].
    fold s0 in W1, W2.
    assert (sweep_running false 0 (positions (sw s)) s0 /\ sweep_size false s0 = Z.of_nat n) as [R0 Z0].
    { unfold sweep_running, sweep_size. rewrite W1, W2. simpl. by rewrite F. }
    assert (forall k, (k <= n)%nat -> sweep_size false (exposures b k s0) = Z.of_nat n /\
              sweep_running false (Z.of_nat k) (upto k ++ positions (sw s)) (exposures b k s0)) as Hk.
    { intros k Hlt. exact (exposures_sweep b false 0 _ s0 (Z.of_nat n) k R0 Z0 ltac:(lia) ltac:(lia)). }
    split; [intros k Hlt; by apply Hk |].
    destruct (Hk n ltac:(lia)) as [Sz R]. rewrite exposures_S.
    destruct (exposure_step b false _ _ _ R) as (_ & _ & D). apply D. by rewrite Sz.
Qed.

Lemma sweep_takes_its_frames_witness :
  let s := fold_left (ir_step Pearl) [EvInit 0; EvFps false true 30; EvFocusValues 100 3] ir_boot in
  let r := ir_camera_system_perform_focus_sweep Pearl false s in
  sweep_done (upto 3 ++ []) (exposures Pearl 3 r.2) /\ upto 3 = [2; 1; 0].
Proof.
  cbv zeta. split; [| reflexivity].
  refine (proj2 (proj2 (proj1 (sweep_takes_its_frames Pearl 3
    (fold_left (ir_step Pearl) [EvInit 0; EvFps false true 30; EvFocusValues 100 3] ir_boot) _ _ _ _ _) _)));
    [reflexivity | done | by vm_compute | reflexivity | lia | reflexivity].
Defined.

(** ** A stopped sweep *)

(** Requests and the auto-off timer, but no exposure and no strobe. *)
Definition api_event (e : ir_event) : Prop :=
  match e with EvExposure _ | EvStrobe _ _ _ => False | _ => event_ok e end.

Definition locked (s : ir_sys) : Prop :=
  ir_camera_system_initialized s = true /\ focus_sweep_in_progress (sw s) = true /\
  fps (global_timer_settings s) = 0.

Lemma pulse_length_sw b safe s : sw (ir_leds_set_pulse_length b safe s) = sw s.
Proof.
  unfold ir_leds_set_pulse_length, set_pvcc_converter_into_high_demand_mode.
  destruct safe; cbv zeta; repeat case_match; done.
Qed.

Lemma enable_pulse_sw b s : sw (ir_leds_enable_pulse b s) = sw s.
Proof. unfold ir_leds_enable_pulse. by case_match. Qed.

Lemma apply_keeps b safe s :
  sw (apply_new_timer_settings b safe s) = sw s /\
  fps (global_timer_settings (apply_new_timer_settings b safe s)) = fps (global_timer_settings s).
Proof.
  split.
  - unfold apply_new_timer_settings. set (s1 := with_master _ _ _ _ s).
    set (s2 := match b with Pearl => _ | Diamond => _ end).
    assert (sw s2 = sw s) as <- by (subst s2; destruct b; [done |]; by case_match).
    set (s3 := camera_enable_trigger _ _ _ s2). cbv zeta. set (s4 := ir_leds_set_pulse_length b safe s3).
    assert (sw s4 = sw s2) as <- by (subst s4; by rewrite pulse_length_sw).
    destruct (negb (face_gates b s4)); simpl andb; cbv iota; [| done].
    rewrite <- (enable_pulse_sw b s4). by destruct (_ && _).
  - change (fps (pv_settings (view (apply_new_timer_settings b safe s))) = fps (pv_settings (view s))).
    rewrite apply_view. cbv zeta. unfold enable_pulse_view, set_pulse_view. destruct safe; repeat case_match; done.
Qed.

Lemma status_locked triggered s : locked s ->
  ir_camera_system_get_status triggered s = if triggered then RET_ERROR_FORBIDDEN else RET_ERROR_BUSY.
Proof. intros (I & F & _). unfold ir_camera_system_get_status. rewrite I, F. by destruct triggered. Qed.

Lemma from_on_time_fps b v ts : fps (timer_settings_from_on_time_us b v ts ts).2 = fps ts.
Proof.
  unfold timer_settings_from_on_time_us. destruct (_ <? v); [done |]. destruct (negb _ && _); [done |].
  cbn [snd]. destruct (_ && _); [| done]. apply (compute_keeps b (set_on_time v ts)).
Qed.

Lemma locked_apply b safe t s (apply : bool) : locked s -> fps t = 0 ->
  locked (if apply then apply_new_timer_settings b safe (with_settings t s) else with_settings t s).
Proof.
  intros (I & F & Z0) T. destruct apply; [| done].
  destruct (apply_keeps b safe (with_settings t s)) as [E1 E2].
  split; [by rewrite apply_init |]. split; [by rewrite E1 | by rewrite E2].
Qed.

Lemma locked_leds b t sf w s : locked s -> locked (ir_camera_system_enable_leds b t sf w s).2.
Proof.
  intros L. pose proof L as (I & F & Z0). unfold ir_camera_system_enable_leds. destruct (_ =? RET_SUCCESS); [| done].
  destruct (deprecated_wavelength b w); [done |]. simpl. destruct (negb _); [| done].
  set (s1 := with_wavelength w s). unfold ir_camera_system_enable_leds_hw.
  assert (view (ir_leds_enable_pulse b (ir_leds_set_pulse_length b sf s1)) =
          enable_pulse_view b (set_pulse_view b sf (view s1))) as E
    by (by rewrite enable_pulse_view_spec, set_pulse_view_spec).
  split; [| split].
  - change (pv_init (view (ir_leds_enable_pulse b (ir_leds_set_pulse_length b sf s1))) = true).
    rewrite E. unfold enable_pulse_view. by case_match.
  - simpl. by rewrite enable_pulse_sw, pulse_length_sw.
  - change (fps (pv_settings (view (ir_leds_enable_pulse b (ir_leds_set_pulse_length b sf s1)))) = 0).
    rewrite E. unfold enable_pulse_view, set_pulse_view. destruct sf; repeat case_match; done.
Qed.

Lemma locked_disable b c s : locked s -> ir_camera_system_disable_camera b c s = (RET_ERROR_BUSY, s).
Proof. intros (I & F & _). unfold ir_camera_system_disable_camera. by rewrite I, F. Qed.

Lemma locked_step b e s : api_event e -> locked s -> locked (ir_step b s e).
Proof.
  intros A L. pose proof L as (I & F & Z0).
  destruct e as [r | c | c | t sf w | t sf f | t sf v | m n | n | n | t | t | sf | c | l c sf]; simpl; try done.
  - unfold ir_camera_system_init. by rewrite I.
  - unfold ir_camera_system_enable_camera. by rewrite I, F.
  - by rewrite locked_disable.
  - by apply locked_leds.
  - unfold ir_camera_system_set_fps. rewrite status_locked by done. simpl in A.
    destruct (Z.eqb_spec f 0) as [-> | Nf].
    + simpl. apply (locked_apply b sf _ s true); [done |]. reflexivity.
    + simpl negb. cbv iota. by destruct (IR_CAMERA_SYSTEM_MAX_FPS <? f), t.
  - unfold ir_camera_system_set_on_time_us. destruct (_ =? RET_SUCCESS); [| done].
    unfold ir_camera_system_set_on_time_us_hw. simpl.
    match goal with |- locked (if _ then configure_timeout ?x else _) => assert (locked x) end.
    { apply locked_apply; [done |]. by rewrite from_on_time_fps. }
    by destruct (negb (v =? 0)).
  - unfold ir_camera_system_set_focus_values_for_focus_sweep. rewrite F. by destruct (_ <? _).
  - unfold ir_camera_system_set_polynomial_coefficients_for_focus_sweep. by rewrite F.
  - unfold ir_camera_system_set_polynomial_coefficients_for_mirror_sweep. by destruct (mirror_sweep_in_progress _).
  - unfold ir_camera_system_perform_focus_sweep, perform_sweep. rewrite status_locked by done. by destruct t.
  - unfold ir_camera_system_perform_mirror_sweep, perform_sweep. rewrite status_locked by done. by destruct t.
  - unfold ir_camera_system_timeout_disable. cbv zeta.
    pose proof (locked_leds b false sf WAVELENGTH_NONE s L) as L1.
    set (s1 := (ir_camera_system_enable_leds _ _ _ _ _).2) in *.
    by rewrite !(locked_disable b _ s1 L1).
Qed.

(** Setting the frame rate to 0 during a focus sweep is accepted, but
    no request then ends it: without frames there is no end-of-exposure
    interrupt, and from then on, whatever is requested and whenever the
    auto-off timer fires, the rate stays 0, the sweep stays in progress, and
    every other rate is refused as busy (or forbidden). *)
Theorem focus_sweep_rate_zero_locks (b : board) (triggered safe : bool) (s : ir_sys) (es : list ir_event)
  (Hinit : ir_camera_system_initialized s = true) (Hsweep : focus_sweep_in_progress (sw s) = true)
  (Hes : Forall api_event es) :
  let r := ir_camera_system_set_fps b triggered safe 0 s in
  let s' := fold_left (ir_step b) es r.2 in
  r.1 = RET_SUCCESS /\
  fps (global_timer_settings s') = 0 /\ focus_sweep_in_progress (sw s') = true /\
  (forall f t sf, 0 < f <= IR_CAMERA_SYSTEM_MAX_FPS ->
     ir_camera_system_set_fps b t sf f s' = (if t then RET_ERROR_FORBIDDEN else RET_ERROR_BUSY, s')).
Proof.
  cbv zeta.
  assert (locked (ir_camera_system_set_fps b triggered safe 0 s).2) as L0.
  { set (g := global_timer_settings s).
    set (s1 := with_settings (TimerSettings 0 0 0 (master_initial_counter g) (master_max_ir_leds_tick g) (on_time_in_us g)) s).
    change (locked (configure_timeout (apply_new_timer_settings b safe s1))).
    destruct (apply_keeps b safe s1) as [E1 E2].
    split; [exact (eq_trans (apply_init b safe s1) Hinit) |].
    split; [exact (eq_trans (f_equal focus_sweep_in_progress E1) Hsweep) | exact E2]. }
  assert (locked (fold_left (ir_step b) es (ir_camera_system_set_fps b triggered safe 0 s).2)) as L.
  { generalize dependent ((ir_camera_system_set_fps b triggered safe 0 s).2).
    induction Hes as [| e es He _ IH]; intros s0 L0; simpl; [done |]. apply IH. by apply locked_step. }
  split; [done |]. pose proof L as (I & F & Z0). split; [done |]. split; [done |].
  intros f t sf Hf. unfold ir_camera_system_set_fps.
  bfalse (IR_CAMERA_SYSTEM_MAX_FPS <? f). bfalse (f =? 0). simpl negb. cbv iota zeta.
  rewrite status_locked by done. by destruct t.
Qed.

Lemma focus_sweep_rate_zero_locks_witness :
  let s := fold_left (ir_step Pearl) [EvInit 0; EvFps false true 30; EvFocusValues 100 3; EvFocusSweep false] ir_boot in
  let s' := fold_left (ir_step Pearl) [EvDisableCamera IrEye; EvTimeout true; EvFps false true 30]
              (ir_camera_system_set_fps Pearl false true 0 s).2 in
  ir_camera_system_set_fps Pearl false true 30 s' = (RET_ERROR_BUSY, s').
Proof.
  cbv zeta.
  refine (proj2 (proj2 (proj2 (focus_sweep_rate_zero_locks Pearl false true _
    [EvDisableCamera IrEye; EvTimeout true; EvFps false true 30] _ _ _))) 30 false true _).
  - reflexivity.
  - by vm_compute.
  - repeat constructor; discriminate.
  - by split.
Defined.
