(* ===== verification/Mirror.v ===== *)
(** main_board/src/optics/mirror: the two-axis mirror in front of the eye
    cameras, moved by stepper motors behind a TMC5041 controller.

    mirror.c (angles), mirror_private.c (geometry and SPI frames),
    homing_pearl.c and homing_diamond.c (search of the end stops), and the
    mirror commands of runner.c.  [sin] and [asin] are the C library's: any
    functions on doubles.  The controller is the list of the SPI frames sent to
    it; what is read from it is an argument. *)

From Stdlib Require Import SpecFloat.
From S2P Require Import Prelude Floats.

(** ** Data *)

Inductive motor_t := MOTOR_THETA_ANGLE | MOTOR_PHI_ANGLE.

#[export] Instance motor_eq_dec : EqDecision motor_t.
Proof. solve_decision. Defined.

(** The index of a motor: the order of the enumeration is not the same on the
    two boards. *)
Definition motor_index (b : board) (m : motor_t) : Z :=
  match b, m with
  | Pearl, MOTOR_THETA_ANGLE | Diamond, MOTOR_PHI_ANGLE => 0
  | _, _ => 1
  end.

Inductive mirror_homing_state :=
| AH_UNINIT | AH_SHIFTED_SIDEWAYS | AH_UP_TO_WALL | AH_THETA_TO_CENTER | AH_THETA_HOMED
| AH_GO_HOME | AH_WAIT_STANDSTILL | AH_SUCCESS.

#[export] Instance homing_state_eq_dec : EqDecision mirror_homing_state.
Proof. solve_decision. Defined.

(** *** Geometry: mirror_private.h, in millidegrees, millimeters and microsteps *)

Definition center_angle (m : motor_t) : Z :=
  match m with MOTOR_PHI_ANGLE => 45000 | MOTOR_THETA_ANGLE => 90000 end.
Definition angle_min (b : board) (m : motor_t) : Z :=
  match b, m with
  | Pearl, MOTOR_PHI_ANGLE => 45000 - 9500
  | Pearl, MOTOR_THETA_ANGLE => 90000 - 17500
  | Diamond, MOTOR_PHI_ANGLE => 0
  | Diamond, MOTOR_THETA_ANGLE => 90000 - 20000
  end.
Definition angle_max (b : board) (m : motor_t) : Z :=
  match b, m with
  | Pearl, MOTOR_PHI_ANGLE => 45000 + 9500
  | Pearl, MOTOR_THETA_ANGLE => 90000 + 17500
  | Diamond, MOTOR_PHI_ANGLE => 45000 + 23000
  | Diamond, MOTOR_THETA_ANGLE => 90000 + 20000
  end.

(** 12.0, 18.71, 18.0 and 16.0, as doubles. *)
Definition motors_arm_length_mm (b : board) (m : motor_t) : spec_float :=
  match b, m with
  | Pearl, MOTOR_THETA_ANGLE => dbl 12 0
  | Pearl, MOTOR_PHI_ANGLE => dbl 5266396814256374 (-48)
  | Diamond, MOTOR_THETA_ANGLE => dbl 18 0
  | Diamond, MOTOR_PHI_ANGLE => dbl 16 0
  end.

(** [turns * (360 / 18) * 256] with the turns a double: 15.4, 16.325, 30.15 and
    the rounded sum of the last two; conversion to [int32_t]. *)
Definition steps_of_turns (turns : spec_float) : Z :=
  default 0 (sf_trunc (dmul (dmul turns (dbl 20 0)) (dbl 256 0))).
Definition dadd : spec_float -> spec_float -> spec_float := SFadd 53 1024.

Definition center_from_end_steps (b : board) (m : motor_t) : Z :=
  match b, m with
  | Pearl, MOTOR_THETA_ANGLE => 55000
  | Pearl, MOTOR_PHI_ANGLE => 87000
  | Diamond, MOTOR_THETA_ANGLE => steps_of_turns (dbl 8669429282688205 (-49))
  | Diamond, MOTOR_PHI_ANGLE => steps_of_turns (dbl 4595078994801459 (-48))
  end.
Definition full_range_steps (b : board) (m : motor_t) : Z :=
  match b, m with
  | Pearl, _ => 2 * center_from_end_steps Pearl m
  | Diamond, MOTOR_THETA_ANGLE => 2 * center_from_end_steps Diamond MOTOR_THETA_ANGLE
  | Diamond, MOTOR_PHI_ANGLE =>
      steps_of_turns (dadd (dbl 4595078994801459 (-48)) (dbl 8486470547826278 (-48)))
  end.
Definition MOTOR_PHI_CENTER_FROM_FLAT_END_STEPS : Z := steps_of_turns (dbl 8486470547826278 (-48)).
Definition MOTOR_PHI_OFF_THE_WALL_STEPS : Z := 2 * (360 / 18) * 256.
Definition motors_full_stroke_steps_maximum_steps (m : motor_t) : Z :=
  match m with MOTOR_THETA_ANGLE => 500 * 256 | MOTOR_PHI_ANGLE => 700 * 256 end.

(** *** Controller registers and frames *)

Inductive tmc5041_register :=
| REG_RAMPMODE | REG_XACTUAL | REG_VACTUAL | REG_VSTART | REG_VMAX | REG_XTARGET
| REG_IHOLD_IRUN | REG_SW_MODE | REG_RAMP_STAT | REG_COOLCONF | REG_DRV_STATUS.

Definition TMC5041_REGISTERS (r : tmc5041_register) (index : Z) : Z :=
  let c := match r with
           | REG_RAMPMODE => (0x20, 0x40) | REG_XACTUAL => (0x21, 0x41) | REG_VACTUAL => (0x22, 0x42)
           | REG_VSTART => (0x23, 0x43) | REG_VMAX => (0x27, 0x47) | REG_XTARGET => (0x2D, 0x4D)
           | REG_IHOLD_IRUN => (0x30, 0x50) | REG_SW_MODE => (0x34, 0x54) | REG_RAMP_STAT => (0x35, 0x55)
           | REG_COOLCONF => (0x6D, 0x7D) | REG_DRV_STATUS => (0x6F, 0x7F)
           end in
  if index =? 0 then c.1 else c.2.

Definition MOTOR_FS_VMAX : Z := 800000.

(** [position_mode_full_speed]: 40-bit commands, register and value. *)
Definition position_mode_full_speed (index : Z) : list Z :=
  if index =? 0 then
    [0xEC000100C5; 0xB000011000; 0xA400008000; 0xA500000000 + MOTOR_FS_VMAX * 3 / 4; 0xA600001000;
     0xA700000000 + MOTOR_FS_VMAX; 0xA800001000; 0xAA00008000; 0xAB00000010; 0xA000000000]
  else
    [0xFC000100C5; 0xD000011000; 0xC400008000; 0xC500000000 + MOTOR_FS_VMAX * 3 / 4; 0xC600001000;
     0xC700000000 + MOTOR_FS_VMAX; 0xC800001000; 0xCA00008000; 0xCB00000010; 0xC000000000].

(** [motor_controller_spi_write]: the five bytes sent. *)
Definition spi_write_frame (reg value : Z) : bytes :=
  [Z.lor reg 128; Z.land (Z.shiftr value 24) 255; Z.land (Z.shiftr value 16) 255;
   Z.land (Z.shiftr value 8) 255; Z.land value 255].

(** [motor_controller_spi_read]: the value in the five bytes received. *)
Definition spi_read_value (rx : bytes) : Z :=
  u32 (Z.lor (Z.shiftl (nthZ rx 1) 24)
        (Z.lor (Z.shiftl (nthZ rx 2) 16) (Z.lor (Z.shiftl (nthZ rx 3) 8) (nthZ rx 4)))).

(** [motor_controller_spi_send_commands]: shifted, made big-endian, and the
    first five of the eight bytes sent. *)
Definition be64 (z : Z) : bytes :=
  (fun k => Z.land (Z.shiftr z k) 255) <$> [56; 48; 40; 32; 24; 16; 8; 0].
Definition command_frame (cmd : Z) : bytes := take 5 (be64 (u64 (Z.shiftl cmd 24))).

(** *** State *)

Record motors_refs_t := MotorRefs {
  steps_at_center_position : Z;
  full_stroke_steps : Z;
  motor_state : Z;
  angle_millidegrees : Z;
}.

(** [struct async_mirror_command]; [pending] is [k_work_delayable_busy_get]. *)
Record async_command := AsyncCommand { pending : bool; item_angle : Z }.

Record mirror_sys := MirrorSys {
  refs : motor_t -> motors_refs_t;
  items : motor_t -> async_command;
  spi : list bytes;                     (* frames sent, oldest first *)
  homing_sem : motor_t -> Z;            (* Diamond has one, under MOTOR_PHI_ANGLE *)
  ranges : list (motor_t * Z * Z);      (* motor ranges published *)
}.

Definition upd {A} (f : motor_t -> A) (m : motor_t) (x : A) : motor_t -> A :=
  fun n => if bool_decide (n = m) then x else f n.

Definition set_refs (m : motor_t) (r : motors_refs_t) (s : mirror_sys) : mirror_sys :=
  MirrorSys (upd (refs s) m r) (items s) (spi s) (homing_sem s) (ranges s).
Definition set_item (m : motor_t) (i : async_command) (s : mirror_sys) : mirror_sys :=
  MirrorSys (refs s) (upd (items s) m i) (spi s) (homing_sem s) (ranges s).
Definition send (fs : list bytes) (s : mirror_sys) : mirror_sys :=
  MirrorSys (refs s) (items s) (spi s ++ fs) (homing_sem s) (ranges s).
Definition set_sem (m : motor_t) (n : Z) (s : mirror_sys) : mirror_sys :=
  MirrorSys (refs s) (items s) (spi s) (upd (homing_sem s) m n) (ranges s).
Definition publish_range (r : motor_t * Z * Z) (s : mirror_sys) : mirror_sys :=
  MirrorSys (refs s) (items s) (spi s) (homing_sem s) (ranges s ++ [r]).

Definition set_motor_state (e : Z) (r : motors_refs_t) : motors_refs_t :=
  MotorRefs (steps_at_center_position r) (full_stroke_steps r) e (angle_millidegrees r).
Definition set_angle_field (a : Z) (r : motors_refs_t) : motors_refs_t :=
  MotorRefs (steps_at_center_position r) (full_stroke_steps r) (motor_state r) a.
Definition set_steps (center full : Z) (r : motors_refs_t) : motors_refs_t :=
  MotorRefs center full (motor_state r) (angle_millidegrees r).

(** The static initialisers: state 0, RET_SUCCESS. *)
Definition mirror_reset (b : board) : mirror_sys :=
  MirrorSys (fun m => MotorRefs (center_from_end_steps b m) (full_range_steps b m) 0 0)
    (fun _ => AsyncCommand false 0) [] (fun _ => 0) [].

Definition clamp (x lo hi : Z) : Z := if x <? lo then lo else if hi <? x then hi else x.

Section Mirror.
Context (b : board) (sin asin : spec_float -> spec_float).

(** ** Geometry *)

Definition M_PI : spec_float := dbl 7074237752028440 (-51).
Definition microsteps_per_mm : spec_float := dbl 12800 0.

Definition calculate_millidegrees_from_center_position (microsteps : Z) (arm : spec_float) : option Z :=
  let mm := ddiv (dbl microsteps 0) microsteps_per_mm in
  to_s32 (sf_trunc (ddiv (dmul (asin (ddiv mm arm)) (dbl 180000 0)) M_PI)).

Definition calculate_microsteps_from_center_position (millidegrees : Z) (arm : spec_float) : option Z :=
  let mm := dmul (sin (ddiv (dmul (dbl millidegrees 0) M_PI) (dbl 180000 0))) arm in
  to_s32 (sf_round (dmul mm microsteps_per_mm)).

(** ** Angles *)

Definition write_reg (r : tmc5041_register) (m : motor_t) (v : Z) : bytes :=
  spi_write_frame (TMC5041_REGISTERS r (motor_index b m)) v.
Definition send_commands (m : motor_t) : list bytes :=
  command_frame <$> position_mode_full_speed (motor_index b m).

Definition mirror_set_stepper_position (position_steps : Z) (m : motor_t) (s : mirror_sys) : mirror_sys :=
  send [write_reg REG_XTARGET m position_steps] s.

(** [None]: a conversion of a value out of the range of [int32_t]. *)
Definition mirror_set_angle_from_center (angle : Z) (m : motor_t) (s : mirror_sys)
  : option (Z * mirror_sys) :=
  if negb (motor_state (refs s m) =? 0) then Some (motor_state (refs s m), s)
  else
    let angle := if bool_decide (m = MOTOR_PHI_ANGLE) then - angle else angle in
    from_center ← calculate_microsteps_from_center_position angle (motors_arm_length_mm b m);
    let absolute := s32 (steps_at_center_position (refs s m) + from_center) in
    let s := set_refs m (set_angle_field (u32 (angle + center_angle m)) (refs s m)) s in
    Some (RET_SUCCESS, mirror_set_stepper_position absolute m s).

Definition mirror_check_angle (angle : Z) (m : motor_t) : Z :=
  if (angle_max b m <? angle) || (angle <? angle_min b m) then RET_ERROR_INVALID_PARAM else RET_SUCCESS.

(** [xactual] is the position read from the controller. *)
Definition mirror_set_angle_relative (angle xactual : Z) (m : motor_t) (s : mirror_sys)
  : option (Z * mirror_sys) :=
  let from_center := s32 (s32 xactual - steps_at_center_position (refs s m)) in
  let from_center := if bool_decide (m = MOTOR_PHI_ANGLE) then s32 (- from_center) else from_center in
  current ← calculate_millidegrees_from_center_position from_center (motors_arm_length_mm b m);
  let target := s32 (current + angle) in
  let target := clamp target (center_angle m - angle_max b m) (center_angle m - angle_min b m) in
  mirror_set_angle_from_center target m s.

Definition mirror_set_angle_phi_relative (angle xactual : Z) (s : mirror_sys) :=
  mirror_set_angle_relative angle xactual MOTOR_PHI_ANGLE s.
Definition mirror_set_angle_theta_relative (angle xactual : Z) (s : mirror_sys) :=
  mirror_set_angle_relative angle xactual MOTOR_THETA_ANGLE s.

(** The angle is a [uint32_t]. *)
Definition mirror_set_angle (angle : Z) (m : motor_t) (s : mirror_sys) : option (Z * mirror_sys) :=
  let ret := mirror_check_angle angle m in
  if negb (ret =? RET_SUCCESS) then Some (ret, s)
  else mirror_set_angle_from_center (s32 angle - center_angle m) m s.

Definition mirror_set_angle_phi (angle : Z) (s : mirror_sys) := mirror_set_angle angle MOTOR_PHI_ANGLE s.
Definition mirror_set_angle_theta (angle : Z) (s : mirror_sys) := mirror_set_angle angle MOTOR_THETA_ANGLE s.

(** The delayed commands, and the work items that run them. *)
Definition mirror_set_angle_async (angle : Z) (m : motor_t) (s : mirror_sys) : Z * mirror_sys :=
  let ret := mirror_check_angle (u32 angle) m in
  if negb (ret =? RET_SUCCESS) then (ret, s)
  else if pending (items s m) then (RET_ERROR_BUSY, s)
  else (RET_SUCCESS, set_item m (AsyncCommand true angle) s).

Definition mirror_angle_work_wrapper (m : motor_t) (s : mirror_sys) : option mirror_sys :=
  '(_, s) ← mirror_set_angle (u32 (item_angle (items s m))) m s;
  Some (set_item m (AsyncCommand false (item_angle (items s m))) s).

Definition mirror_homed_successfully (s : mirror_sys) : bool :=
  (motor_state (refs s MOTOR_PHI_ANGLE) =? RET_SUCCESS) &&
  (motor_state (refs s MOTOR_THETA_ANGLE) =? RET_SUCCESS).

Definition mirror_get_phi_angle_millidegrees (s : mirror_sys) : Z := angle_millidegrees (refs s MOTOR_PHI_ANGLE).
Definition mirror_get_theta_angle_millidegrees (s : mirror_sys) : Z :=
  angle_millidegrees (refs s MOTOR_THETA_ANGLE).

(** [ret |= ...] on return codes. *)
Definition mirror_go_home (s : mirror_sys) : option (Z * mirror_sys) :=
  match b with
  | Pearl =>
      '(r1, s) ← mirror_set_angle (center_angle MOTOR_THETA_ANGLE) MOTOR_THETA_ANGLE s;
      '(r2, s) ← mirror_set_angle (center_angle MOTOR_PHI_ANGLE) MOTOR_PHI_ANGLE s;
      Some (Z.lor r1 r2, s)
  | Diamond =>
      let a := mirror_set_angle_async (center_angle MOTOR_THETA_ANGLE) MOTOR_THETA_ANGLE s in
      let c := mirror_set_angle_async 0 MOTOR_PHI_ANGLE a.2 in
      Some (Z.lor a.1 c.1, c.2)
  end.

(** ** Homing *)

Definition standstill (status : Z) : bool := negb (Z.land status (Z.shiftl 1 31) =? 0).

(** [2 * calculate_millidegrees_from_center_position(full_stroke_steps / 2, arm)],
    published with the stroke. *)
Definition range_of (m : motor_t) (s : mirror_sys) : option (motor_t * Z * Z) :=
  let full := full_stroke_steps (refs s m) in
  a ← calculate_millidegrees_from_center_position (s32 (full / 2)) (motors_arm_length_mm b m);
  Some (m, full, u32 (2 * a)).

(** One turn of [mirror_auto_homing_one_end_thread] (Pearl), for one motor. *)
Definition homing_step_pearl (m : motor_t) (status : Z) (st : mirror_homing_state) (s : mirror_sys)
  : option (mirror_homing_state * mirror_sys) :=
  match st with
  | AH_UNINIT =>
      Some (AH_GO_HOME,
        send ([write_reg REG_XACTUAL m 0] ++ send_commands m ++
              [write_reg REG_XTARGET m (- motors_full_stroke_steps_maximum_steps m)]) s)
  | AH_GO_HOME =>
      if standstill status then
        let c := center_from_end_steps Pearl m in
        let s := send [write_reg REG_XACTUAL m 0] s in
        let s := set_refs m (set_steps c (full_range_steps Pearl m) (refs s m)) s in
        Some (AH_WAIT_STANDSTILL, send [write_reg REG_XTARGET m (steps_at_center_position (refs s m))] s)
      else Some (st, s)
  | AH_WAIT_STANDSTILL =>
      if standstill status then r ← range_of m s; Some (AH_SUCCESS, publish_range r s) else Some (st, s)
  | _ => Some (st, s)
  end.

(** One turn of [mirror_auto_homing_overreach_end_thread] (Diamond), both
    motors; the status is that of phi, then of theta. *)
Definition homing_step_diamond (status : Z * Z) (st : mirror_homing_state) (s : mirror_sys)
  : option (mirror_homing_state * mirror_sys) :=
  let are_standstill := standstill status.1 && standstill status.2 in
  let PHI := MOTOR_PHI_ANGLE in
  let THETA := MOTOR_THETA_ANGLE in
  match st with
  | AH_UNINIT =>
      Some (AH_SHIFTED_SIDEWAYS,
        send ([write_reg REG_XACTUAL PHI 0] ++ send_commands PHI ++ send_commands THETA ++
              [write_reg REG_XTARGET PHI (- MOTOR_PHI_CENTER_FROM_FLAT_END_STEPS)]) s)
  | AH_SHIFTED_SIDEWAYS =>
      if are_standstill then
        Some (AH_UP_TO_WALL, send [write_reg REG_XACTUAL PHI 0;
                                   write_reg REG_XTARGET PHI MOTOR_PHI_OFF_THE_WALL_STEPS] s)
      else Some (st, s)
  | AH_UP_TO_WALL =>
      if are_standstill then
        Some (AH_THETA_TO_CENTER, send [write_reg REG_XACTUAL THETA 0;
                                        write_reg REG_XTARGET THETA (- full_range_steps Diamond THETA)] s)
      else Some (st, s)
  | AH_THETA_TO_CENTER =>
      if are_standstill then
        Some (AH_THETA_HOMED, send [write_reg REG_XACTUAL THETA 0;
                                    write_reg REG_XTARGET THETA (steps_at_center_position (refs s THETA))] s)
      else Some (st, s)
  | AH_THETA_HOMED =>
      if are_standstill then r ← range_of THETA s; Some (AH_GO_HOME, publish_range r s) else Some (st, s)
  | AH_GO_HOME =>
      if are_standstill
      then Some (AH_WAIT_STANDSTILL, send [write_reg REG_XTARGET PHI (full_range_steps Diamond PHI)] s)
      else Some (st, s)
  | AH_WAIT_STANDSTILL =>
      if are_standstill then
        let s := send [write_reg REG_XACTUAL PHI (full_range_steps Diamond PHI)] s in
        r ← range_of PHI s; Some (AH_SUCCESS, publish_range r s)
      else Some (st, s)
  | AH_SUCCESS => Some (st, s)
  end.

(** The polling loop of both threads: [status n] is what is read with [n]
    polls left.  The result: state, polls left. *)
Fixpoint homing_loop {W} (step : W -> mirror_homing_state -> mirror_sys -> option (mirror_homing_state * mirror_sys))
  (status : nat -> W) (timeout : nat) (st : mirror_homing_state) (s : mirror_sys)
  : option (mirror_homing_state * nat * mirror_sys) :=
  if bool_decide (st = AH_SUCCESS) then Some (st, timeout, s)
  else
    match timeout with
    | O => Some (st, O, s)
    | S n => '(st, s) ← step (status timeout) st s; homing_loop step status n st s
    end.

Definition AUTOHOMING_TIMEOUT_LOOP_COUNT : nat :=
  Z.to_nat (match b with Pearl => 7000 / 30 | Diamond => 10000 / 30 end).

Definition homing_done (timeout : nat) (angle : Z) (m : motor_t) (s : mirror_sys) : mirror_sys :=
  let e := match timeout with O => RET_ERROR_INVALID_STATE | S _ => RET_SUCCESS end in
  set_refs m (set_angle_field angle (set_motor_state e (refs s m))) s.

(** The whole threads, the semaphore included. *)
Definition mirror_auto_homing_one_end_thread (m : motor_t) (status : nat -> Z) (s : mirror_sys)
  : option (mirror_homing_state * mirror_sys) :=
  '(st, timeout, s) ← homing_loop (homing_step_pearl m) status AUTOHOMING_TIMEOUT_LOOP_COUNT AH_UNINIT s;
  let s := homing_done timeout (center_angle m) m (send (send_commands m) s) in
  Some (st, set_sem m (Z.min 1 (homing_sem s m + 1)) s).

Definition mirror_auto_homing_overreach_end_thread (status : nat -> Z * Z) (s : mirror_sys)
  : option (mirror_homing_state * mirror_sys) :=
  '(st, timeout, s) ← homing_loop homing_step_diamond status
                        AUTOHOMING_TIMEOUT_LOOP_COUNT AH_UNINIT s;
  let s := send (send_commands MOTOR_THETA_ANGLE ++ send_commands MOTOR_PHI_ANGLE) s in
  let s := homing_done timeout (center_angle MOTOR_THETA_ANGLE) MOTOR_THETA_ANGLE s in
  let s := homing_done timeout 0 MOTOR_PHI_ANGLE s in
  Some (st, set_sem MOTOR_PHI_ANGLE (Z.min 1 (homing_sem s MOTOR_PHI_ANGLE + 1)) s).

(** [mirror_homing_one_end] (Pearl): the code and whether the thread is started. *)
Definition mirror_homing_one_end (m : motor_t) (s : mirror_sys) : Z * bool * mirror_sys :=
  if homing_sem s m =? 0 then (RET_ERROR_BUSY, false, s)
  else (RET_SUCCESS, true, set_sem m (homing_sem s m - 1) s).

Definition mirror_auto_homing_in_progress (s : mirror_sys) : bool :=
  match b with
  | Pearl => (homing_sem s MOTOR_THETA_ANGLE =? 0) || (homing_sem s MOTOR_PHI_ANGLE =? 0)
  | Diamond => homing_sem s MOTOR_PHI_ANGLE =? 0
  end.

(** ** Commands of the Jetson: runner.c *)

Definition ack_of_ret (ret : Z) : ack :=
  if ret =? RET_SUCCESS then ACK_SUCCESS else if ret =? RET_ERROR_INVALID_PARAM then ACK_RANGE else ACK_FAIL.

Inductive mirror_angle_msg := HorizontalVertical (horizontal vertical : Z) | PhiTheta (phi theta : Z).

Definition handle_mirror_angle_message (msg : mirror_angle_msg) (s : mirror_sys) : option (ack * mirror_sys) :=
  let '(phi, theta) :=
    match msg with
    | HorizontalVertical h v =>
        (u32 (- (s32 (s32 h - 45000) ÷ 2) + 45000), u32 (s32 v ÷ 2 + 90000))
    | PhiTheta p t => (p, t)
    end in
  if mirror_auto_homing_in_progress s then Some (ACK_IN_PROGRESS, s)
  else
    '(ret, s) ← mirror_set_angle_phi phi s;
    if ret =? RET_SUCCESS then
      '(ret, s) ← mirror_set_angle_theta theta s; Some (ack_of_ret ret, s)
    else Some (ack_of_ret ret, s).

(** The positions read from the controller are arguments. *)
Definition handle_mirror_angle_relative_message (msg : mirror_angle_msg) (xphi xtheta : Z) (s : mirror_sys)
  : option (ack * mirror_sys) :=
  let '(phi, theta) :=
    match msg with
    | HorizontalVertical h v => (- (h ÷ 2), v ÷ 2)
    | PhiTheta p t => (p, t)
    end in
  if mirror_auto_homing_in_progress s then Some (ACK_IN_PROGRESS, s)
  else
    '(ret, s) ← mirror_set_angle_phi_relative phi xphi s;
    if ret =? RET_SUCCESS then
      '(ret, s) ← mirror_set_angle_theta_relative theta xtheta s; Some (ack_of_ret ret, s)
    else Some (ack_of_ret ret, s).
End Mirror.

(** ** Sequences of angle commands *)

Inductive mirror_op :=
| OpAngle (m : motor_t) (angle : Z)
| OpRelative (m : motor_t) (angle xactual : Z)
| OpAsync (m : motor_t) (angle : Z)
| OpWork (m : motor_t)      (* the delayed command of a motor runs *)
| OpGoHome.

Section Theorems.
Context (b : board) (sin asin : spec_float -> spec_float).

Abbreviation microsteps_of := (calculate_microsteps_from_center_position sin).
Abbreviation millidegrees_of := (calculate_millidegrees_from_center_position asin).

Definition mirror_step (s : mirror_sys) (o : mirror_op) : option (Z * mirror_sys) :=
  match o with
  | OpAngle m a => mirror_set_angle b sin a m s
  | OpRelative m a x => mirror_set_angle_relative b sin asin a x m s
  | OpAsync m a => Some (mirror_set_angle_async b a m s)
  | OpWork m =>
      if pending (items s m)
      then s ← mirror_angle_work_wrapper b sin m s; Some (RET_SUCCESS, s)
      else Some (RET_SUCCESS, s)
  | OpGoHome => mirror_go_home b sin s
  end.

Fixpoint mirror_run (s : mirror_sys) (os : list mirror_op) : option (list Z * mirror_sys) :=
  match os with
  | [] => Some ([], s)
  | o :: os => '(r, s) ← mirror_step s o; '(rs, s) ← mirror_run s os; Some (r :: rs, s)
  end.

(** An offset from the center, in the direction of the motor: the phi axis
    is mounted the other way round. *)
Definition offset_in_range (m : motor_t) (a : Z) : Prop :=
  angle_min b m <= center_angle m + (if bool_decide (m = MOTOR_PHI_ANGLE) then - a else a) <= angle_max b m.

(** A frame that moves motor [m] to an angle within its mechanical range. *)
Definition legal_move (center : motor_t -> Z) (f : bytes) : Prop :=
  exists m a k, offset_in_range m a /\ microsteps_of a (motors_arm_length_mm b m) = Some k /\
    f = write_reg b REG_XTARGET m (s32 (center m + k)).

(** On Diamond the relative commands of phi are held between limits that belong to
    the other direction: offsets that reach beyond the range, by up to 22 degrees. *)
Definition far_offset (m : motor_t) (a : Z) : Prop :=
  b = Diamond /\ m = MOTOR_PHI_ANGLE /\ -45000 <= a <= 23000.

Definition far_move (center : motor_t -> Z) (f : bytes) : Prop :=
  exists m a k, far_offset m a /\ microsteps_of a (motors_arm_length_mm b m) = Some k /\
    f = write_reg b REG_XTARGET m (s32 (center m + k)).

Definition goes_far (o : mirror_op) : Prop :=
  b = Diamond /\ exists a x, o = OpRelative MOTOR_PHI_ANGLE a x.

(** The library's [sin] is finite on the angles used, and its [asin] on the
    positions an operation reads. *)
Definition sin_defined : Prop :=
  forall m a, offset_in_range m a \/ far_offset m a -> is_Some (microsteps_of a (motors_arm_length_mm b m)).

Definition position_from_center (center : motor_t -> Z) (m : motor_t) (xactual : Z) : Z :=
  let p := s32 (s32 xactual - center m) in if bool_decide (m = MOTOR_PHI_ANGLE) then s32 (- p) else p.

Definition op_ok (center : motor_t -> Z) (o : mirror_op) : Prop :=
  match o with
  | OpRelative m a x => is_Some (millidegrees_of (position_from_center center m x) (motors_arm_length_mm b m))
  | OpAngle m a => 0 <= a < 2 ^ 32
  | _ => True
  end.

Definition centers (s : mirror_sys) : motor_t -> Z := fun m => steps_at_center_position (refs s m).

(** Pending commands were checked when they were accepted. *)
Definition items_ok (s : mirror_sys) : Prop :=
  forall m, pending (items s m) = true -> mirror_check_angle b (u32 (item_angle (items s m))) m = RET_SUCCESS.

(** [far]: whether a command that may leave the range is among those considered. *)
Context (far : Prop).

Definition sent_move (center : motor_t -> Z) (f : bytes) : Prop :=
  legal_move center f \/ (far /\ far_move center f).

Record extends (s s' : mirror_sys) : Prop := Extends {
  ext_frames : exists fs, spi s' = spi s ++ fs /\ Forall (sent_move (centers s)) fs /\
    ((forall m, motor_state (refs s m) <> 0) -> fs = []);
  ext_refs : forall m, steps_at_center_position (refs s' m) = steps_at_center_position (refs s m) /\
    motor_state (refs s' m) = motor_state (refs s m);
}.

Lemma sent_move_ext c c' f : (forall m, c m = c' m) -> sent_move c f -> sent_move c' f.
Proof.
  intros E [(m & a & k & O & K & F) | (H & m & a & k & O & K & F)]; [left | right; split; [done |]];
    exists m, a, k; by rewrite <- E.
Qed.

Lemma extends_refl s s' : spi s' = spi s -> refs s' = refs s -> extends s s'.
Proof. intros E R. split; [exists []; by rewrite E, app_nil_r | by rewrite R]. Qed.

Lemma extends_trans s1 s2 s3 : extends s1 s2 -> extends s2 s3 -> extends s1 s3.
Proof.
  intros [(f1 & E1 & L1 & N1) R1] [(f2 & E2 & L2 & N2) R2]. split.
  - exists (f1 ++ f2). rewrite E2, E1, app_assoc. split; [done |]. split.
    + apply Forall_app. split; [done |]. eapply Forall_impl; [exact L2 |].
      intros f. apply sent_move_ext. intros m. apply R1.
    + intros H. rewrite N1, N2; [done | | done]. intros m. by rewrite (proj2 (R1 m)).
  - intros m. destruct (R1 m), (R2 m). split; congruence.
Qed.

Lemma from_center_ok (Hsin : sin_defined) (m : motor_t) (angle : Z) (s : mirror_sys) :
  angle_min b m <= center_angle m + angle <= angle_max b m \/
  (far /\ b = Diamond /\ m = MOTOR_PHI_ANGLE /\ -23000 <= angle <= 45000) ->
  exists ret s', mirror_set_angle_from_center b sin angle m s = Some (ret, s') /\
    extends s s' /\ items s' = items s.
Proof.
  intros Ha. unfold mirror_set_angle_from_center.
  destruct (Z.eqb_spec (motor_state (refs s m)) 0) as [E0 | E0]; cbn [negb].
  - set (a := if bool_decide (m = MOTOR_PHI_ANGLE) then - angle else angle).
    assert (offset_in_range m a \/ (far /\ far_offset m a)) as Ho.
    { unfold offset_in_range, far_offset, a. destruct Ha as [Ha | (Hf & Hb & -> & Ha)]; [left | right].
      - destruct (bool_decide _); lia.
      - rewrite bool_decide_true by done. split_and!; [done.. | lia | lia]. }
    destruct (Hsin m a ltac:(tauto)) as [k Ek]. rewrite Ek. cbn [mbind option_bind].
    eexists _, _. split; [done |]. split; [| done]. split.
    + eexists. split; [done |]. split; [| intros H; by destruct (H m)].
      apply Forall_singleton. destruct Ho as [Ho | [Hf Ho]]; [left | right; split; [done |]]; by exists m, a, k.
    + intros n. unfold mirror_set_stepper_position, send, set_refs. cbn. unfold upd.
      case_bool_decide; [by subst | done].
  - exists (motor_state (refs s m)), s. split; [done |]. split; [by apply extends_refl | done].
Qed.

Lemma check_angle_ok a m : mirror_check_angle b a m = RET_SUCCESS <-> angle_min b m <= a <= angle_max b m.
Proof. unfold mirror_check_angle. split; bdestruct_all; done || lia. Qed.

Lemma angle_bounds m : 0 <= angle_min b m /\ angle_max b m <= 110000 /\ 45000 <= center_angle m <= 90000.
Proof. destruct b, m; cbn; lia. Qed.

Lemma set_angle_ok (Hsin : sin_defined) m a s : 0 <= a < 2 ^ 32 ->
  exists ret s', mirror_set_angle b sin a m s = Some (ret, s') /\ extends s s' /\ items s' = items s.
Proof.
  intros Ha. unfold mirror_set_angle. pose proof (angle_bounds m).
  destruct (Z.eqb_spec (mirror_check_angle b a m) RET_SUCCESS) as [E | E]; cbn [negb].
  - apply check_angle_ok in E. rewrite s32_small by lia. apply from_center_ok; [done | lia].
  - eexists _, s. split; [done |]. split; [by apply extends_refl | done].
Qed.

Lemma clamp_range x lo hi : lo <= hi -> lo <= clamp x lo hi <= hi.
Proof. intros. unfold clamp. bdestruct_all; lia. Qed.

Lemma relative_ok (Hsin : sin_defined) m a x s :
  op_ok (centers s) (OpRelative m a x) -> (goes_far (OpRelative m a x) -> far) ->
  exists ret s', mirror_set_angle_relative b sin asin a x m s = Some (ret, s') /\ extends s s' /\ items s' = items s.
Proof.
  intros [d Ed] Hf. unfold mirror_set_angle_relative.
  change (if bool_decide (m = MOTOR_PHI_ANGLE) then _ else _) with (position_from_center (centers s) m x).
  rewrite Ed. cbn [mbind option_bind]. apply from_center_ok; [done |].
  pose proof (clamp_range (s32 (d + a)) (center_angle m - angle_max b m) (center_angle m - angle_min b m)) as P.
  unfold goes_far in Hf. destruct b, m; cbn in *; specialize (P ltac:(lia)); try (left; lia).
  right. split; [apply Hf; eauto | done].
Qed.

Lemma async_ok m a s : items_ok s ->
  let s' := (mirror_set_angle_async b a m s).2 in
  extends s s' /\ items_ok s'.
Proof.
  intros I. unfold mirror_set_angle_async.
  destruct (Z.eqb_spec (mirror_check_angle b (u32 a) m) RET_SUCCESS) as [E | E]; cbn [negb]; cbv iota zeta.
  - destruct (pending (items s m)); cbn [snd]; (split; [by apply extends_refl |]); [exact I |].
    intros n. unfold set_item. cbn [items]. unfold upd. case_bool_decide; [by subst | apply I].
  - split; [by apply extends_refl | exact I].
Qed.

Lemma step_ok (Hsin : sin_defined) o s : items_ok s -> op_ok (centers s) o -> (goes_far o -> far) ->
  exists ret s', mirror_step s o = Some (ret, s') /\ extends s s' /\ items_ok s'.
Proof.
  intros I O Hf. destruct o as [m a | m a x | m a | m |]; cbn [mirror_step].
  - destruct (set_angle_ok Hsin m a s O) as (r & s' & E & X & J). exists r, s'.
    split; [done |]. split; [done |]. intros n. rewrite J. apply I.
  - destruct (relative_ok Hsin m a x s O Hf) as (r & s' & E & X & J). exists r, s'.
    split; [done |]. split; [done |]. intros n. rewrite J. apply I.
  - destruct (async_ok m a s I) as [X J]. destruct (mirror_set_angle_async b a m s) as [r s1]. by exists r, s1.
  - destruct (pending (items s m)) eqn:Ep; [| exists RET_SUCCESS, s; split; [done |]; split; [by apply extends_refl | done]].
    unfold mirror_angle_work_wrapper.
    destruct (set_angle_ok Hsin m (u32 (item_angle (items s m))) s (u32_range _)) as (r & s' & -> & X & J).
    cbn [mbind option_bind]. eexists _, _. split; [done |]. split.
    + eapply extends_trans; [exact X | by apply extends_refl].
    + intros n. unfold set_item. cbn [items]. unfold upd. case_bool_decide; [done | rewrite J; apply I].
  - unfold mirror_go_home. destruct b eqn:Eb; rewrite <- Eb in *.
    + destruct (set_angle_ok Hsin MOTOR_THETA_ANGLE (center_angle MOTOR_THETA_ANGLE) s) as (r1 & s1 & -> & X1 & J1); [done |].
      cbn [mbind option_bind].
      destruct (set_angle_ok Hsin MOTOR_PHI_ANGLE (center_angle MOTOR_PHI_ANGLE) s1) as (r2 & s2 & -> & X2 & J2); [done |].
      cbn [mbind option_bind]. eexists _, _. split; [done |].
      split; [by eapply extends_trans |]. intros n. rewrite J2, J1. apply I.
    + destruct (async_ok MOTOR_THETA_ANGLE (center_angle MOTOR_THETA_ANGLE) s I) as [X1 J1].
      destruct (async_ok MOTOR_PHI_ANGLE 0 _ J1) as [X2 J2].
      eexists _, _. split; [done |]. split; [by eapply extends_trans | done].
Qed.

Lemma run_ok (Hsin : sin_defined) os : forall s, items_ok s -> Forall (op_ok (centers s)) os ->
  Forall (fun o => goes_far o -> far) os ->
  exists rets s', mirror_run s os = Some (rets, s') /\ extends s s'.
Proof.
  induction os as [| o os IH]; intros s I O Hf; cbn [mirror_run].
  - exists [], s. split; [done | by apply extends_refl].
  - apply Forall_cons in O as [O Os]. apply Forall_cons in Hf as [Hf Hfs].
    destruct (step_ok Hsin o s I O Hf) as (r & s1 & -> & X & I1). cbn [mbind option_bind].
    destruct (IH s1 I1) as (rs & s2 & -> & X2); [| done |].
    { eapply Forall_impl; [exact Os |]. intros p. destruct p; cbn; try done.
      unfold position_from_center, centers. destruct (ext_refs _ _ X m) as [-> _]. done. }
    cbn [mbind option_bind]. eexists _, _. split; [done |]. by eapply extends_trans.
Qed.
End Theorems.

(** ** Theorems *)


(** On Diamond a relative phi command is clamped to the wrong interval:
    the range of phi is not symmetric about its center, and the bounds of the
    clamp are those of the opposite direction.  A command that adds up to more
    than the limit of +23 degrees is not stopped at the limit but only at 45
    degrees from the center, an angle that the absolute command refuses. *)
Theorem diamond_relative_phi_too_far (sin asin : spec_float -> spec_float)
  (s : mirror_sys) (angle xactual d k : Z)
  (Hhomed : motor_state (refs s MOTOR_PHI_ANGLE) = RET_SUCCESS)
  (Hd : calculate_millidegrees_from_center_position asin
          (position_from_center (centers s) MOTOR_PHI_ANGLE xactual)
          (motors_arm_length_mm Diamond MOTOR_PHI_ANGLE) = Some d)
  (Hsum : 23000 < d + angle < 2 ^ 31)
  (Hk : calculate_microsteps_from_center_position sin (- Z.min (d + angle) 45000)
          (motors_arm_length_mm Diamond MOTOR_PHI_ANGLE) = Some k) :
  let target := center_angle MOTOR_PHI_ANGLE + Z.min (d + angle) 45000 in
  (exists s', mirror_set_angle_phi_relative Diamond sin asin angle xactual s = Some (RET_SUCCESS, s') /\
     spi s' = spi s ++ [write_reg Diamond REG_XTARGET MOTOR_PHI_ANGLE (s32 (centers s MOTOR_PHI_ANGLE + k))]) /\
  mirror_set_angle_phi Diamond sin target s = Some (RET_ERROR_INVALID_PARAM, s).
Proof.
  cbv zeta. split.
  - unfold mirror_set_angle_phi_relative, mirror_set_angle_relative.
    change (if bool_decide (MOTOR_PHI_ANGLE = MOTOR_PHI_ANGLE) then _ else _)
      with (position_from_center (centers s) MOTOR_PHI_ANGLE xactual).
    rewrite Hd. cbn [mbind option_bind]. rewrite s32_small by lia.
    assert (clamp (d + angle) (center_angle MOTOR_PHI_ANGLE - angle_max Diamond MOTOR_PHI_ANGLE)
              (center_angle MOTOR_PHI_ANGLE - angle_min Diamond MOTOR_PHI_ANGLE)
            = Z.min (d + angle) 45000) as -> by (unfold clamp; cbn; bdestruct_all).
    unfold mirror_set_angle_from_center. rewrite Hhomed. cbn [negb Z.eqb RET_SUCCESS].
    rewrite bool_decide_true by done. rewrite Hk. cbn [mbind option_bind]. by eexists.
  - unfold mirror_set_angle_phi, mirror_set_angle, mirror_check_angle. cbn [angle_max center_angle].
    btrue (45000 + 23000 <? 45000 + Z.min (d + angle) 45000). done.
Qed.

(** The phi angle reads back mirrored: after an accepted [mirror_set_angle_phi a]
    the module answers 90000 - a (the theta angle reads back as it was set),
    so that setting the mirror to the angle it reports moves it, unless it is
    at the center. *)
Theorem mirror_phi_reads_mirrored (b : board) (sin : spec_float -> spec_float) (s s' : mirror_sys) (a : Z)
  (E : mirror_set_angle_phi b sin a s = Some (RET_SUCCESS, s')) :
  mirror_get_phi_angle_millidegrees s' = 90000 - a /\ angle_min b MOTOR_PHI_ANGLE <= a <= angle_max b MOTOR_PHI_ANGLE.
Proof.
  revert E. unfold mirror_set_angle_phi, mirror_set_angle.
  destruct (Z.eqb_spec (mirror_check_angle b a MOTOR_PHI_ANGLE) RET_SUCCESS) as [C | C]; cbn [negb]; [| by intros [= Er _]].
  apply check_angle_ok in C. pose proof (angle_bounds b MOTOR_PHI_ANGLE) as B.
  rewrite s32_small by lia. unfold mirror_set_angle_from_center.
  destruct (Z.eqb_spec (motor_state (refs s MOTOR_PHI_ANGLE)) 0) as [E0 | E0]; cbn [negb]; [| by intros [= Er _]].
  rewrite bool_decide_true by done.
  destruct (calculate_microsteps_from_center_position _ _ _) as [k |]; cbn [mbind option_bind]; [| done].
  intros [= <-]. split; [| done].
  unfold mirror_get_phi_angle_millidegrees, mirror_set_stepper_position, send, set_refs. cbn. unfold upd.
  rewrite bool_decide_true by done. cbn. rewrite u32_small; destruct b; cbn in C; lia.
Qed.

(** *** Homing *)

Definition homing_prefix (b : board) (s : mirror_sys) (m : motor_t) (st : mirror_homing_state) : list bytes :=
  let w := write_reg b in
  let PHI := MOTOR_PHI_ANGLE in
  let THETA := MOTOR_THETA_ANGLE in
  match b with
  | Pearl =>
      let far := [w REG_XACTUAL m 0] ++ send_commands b m ++
                 [w REG_XTARGET m (- motors_full_stroke_steps_maximum_steps m)] in
      let center := [w REG_XACTUAL m 0; w REG_XTARGET m (center_from_end_steps Pearl m)] in
      match st with
      | AH_GO_HOME => far
      | AH_WAIT_STANDSTILL | AH_SUCCESS => far ++ center
      | _ => []
      end
  | Diamond =>
      let sideways := [w REG_XACTUAL PHI 0] ++ send_commands b PHI ++ send_commands b THETA ++
                      [w REG_XTARGET PHI (- MOTOR_PHI_CENTER_FROM_FLAT_END_STEPS)] in
      let off := [w REG_XACTUAL PHI 0; w REG_XTARGET PHI MOTOR_PHI_OFF_THE_WALL_STEPS] in
      let up := [w REG_XACTUAL THETA 0; w REG_XTARGET THETA (- full_range_steps Diamond THETA)] in
      let center := [w REG_XACTUAL THETA 0; w REG_XTARGET THETA (centers s THETA)] in
      let home := [w REG_XTARGET PHI (full_range_steps Diamond PHI)] in
      match st with
      | AH_UNINIT => []
      | AH_SHIFTED_SIDEWAYS => sideways
      | AH_UP_TO_WALL => sideways ++ off
      | AH_THETA_TO_CENTER => sideways ++ off ++ up
      | AH_THETA_HOMED | AH_GO_HOME => sideways ++ off ++ up ++ center
      | AH_WAIT_STANDSTILL => sideways ++ off ++ up ++ center ++ home
      | AH_SUCCESS => sideways ++ off ++ up ++ center ++ home ++
                      [w REG_XACTUAL PHI (full_range_steps Diamond PHI)]
      end
  end.

#[local] Arguments write_reg : simpl never.
#[local] Arguments send_commands : simpl never.
#[local] Arguments full_range_steps : simpl never.
#[local] Arguments center_from_end_steps : simpl never.
#[local] Arguments motors_full_stroke_steps_maximum_steps : simpl never.
#[local] Arguments MOTOR_PHI_CENTER_FROM_FLAT_END_STEPS : simpl never.
#[local] Arguments MOTOR_PHI_OFF_THE_WALL_STEPS : simpl never.
#[local] Arguments range_of : simpl never.
#[local] Arguments homing_prefix : simpl never.

Section HomingLoop.
Context {W : Type} (step : W -> mirror_homing_state -> mirror_sys -> option (mirror_homing_state * mirror_sys)).
Context (R : mirror_homing_state -> mirror_sys -> Prop) (rank : mirror_homing_state -> nat) (still : W -> bool).
Hypothesis rank_zero : forall st, rank st = 0%nat -> st = AH_SUCCESS.
Hypothesis step_spec : forall w st s, st <> AH_SUCCESS -> R st s ->
  exists st' s', step w st s = Some (st', s') /\ R st' s' /\ (rank st' <= rank st)%nat /\
    (still w = true -> rank st' < rank st)%nat.

(** The loop ends; with a poll left only in AH_SUCCESS, and always so when the
    motors stand still during more of the last polls than there are steps. *)
Lemma homing_loop_spec status : forall timeout st s, R st s ->
  exists st' n s', homing_loop step status timeout st s = Some (st', n, s') /\ R st' s' /\
    ((0 < n)%nat -> st' = AH_SUCCESS) /\
    forall j, (rank st < j)%nat -> (j <= timeout)%nat ->
      (forall k, (0 < k <= j)%nat -> still (status k) = true) -> (0 < n)%nat.
Proof.
  induction timeout as [| t IH]; intros st s HR; cbn [homing_loop].
  - case_bool_decide as E; exists st, 0%nat, s; (split; [done |]); (split; [done |]); split; try lia; done.
  - case_bool_decide as E.
    + exists st, (S t), s. split; [done |]. split; [done |]. split; [done | lia].
    + destruct (step_spec (status (S t)) st s E HR) as (st1 & s1 & -> & R1 & L1 & L2). cbn [mbind option_bind].
      destruct (IH st1 s1 R1) as (st' & n & s' & -> & R' & D & Lv). exists st', n, s'.
      split; [done |]. split; [done |]. split; [done |]. intros j Hr Hj Hs.
      destruct (decide (j <= t)%nat) as [Hle | Hgt].
      * apply (Lv j); [lia | done | done].
      * assert (j = S t) as -> by lia. specialize (L2 (Hs (S t) ltac:(lia))).
        destruct (decide (t = 0%nat)) as [-> | Ht].
        -- exfalso. assert (rank st = 0%nat) as E0 by lia. by apply rank_zero in E0.
        -- apply (Lv t); [lia | done | intros; apply Hs; lia].
Qed.
End HomingLoop.

Definition homing_rank (st : mirror_homing_state) : nat :=
  match st with
  | AH_UNINIT => 7 | AH_SHIFTED_SIDEWAYS => 6 | AH_UP_TO_WALL => 5 | AH_THETA_TO_CENTER => 4
  | AH_THETA_HOMED => 3 | AH_GO_HOME => 2 | AH_WAIT_STANDSTILL => 1 | AH_SUCCESS => 0
  end.

(** The published range can be computed. *)
Definition range_defined (b : board) (asin : spec_float -> spec_float) : Prop :=
  forall n, is_Some (calculate_millidegrees_from_center_position asin (s32 (full_range_steps b n / 2))
                       (motors_arm_length_mm b n)).

Section Homing.
Context (asin : spec_float -> spec_float) (s0 : mirror_sys) (m : motor_t).

Record pearl_inv (st : mirror_homing_state) (s : mirror_sys) : Prop := PearlInv {
  pi_spi : spi s = spi s0 ++ homing_prefix Pearl s0 m st;
  pi_sem : homing_sem s = homing_sem s0;
  pi_state : st = AH_UNINIT \/ st = AH_GO_HOME \/ st = AH_WAIT_STANDSTILL \/ st = AH_SUCCESS;
  pi_refs : st = AH_WAIT_STANDSTILL \/ st = AH_SUCCESS ->
    steps_at_center_position (refs s m) = center_from_end_steps Pearl m /\
    full_stroke_steps (refs s m) = full_range_steps Pearl m;
}.

Record diamond_inv (st : mirror_homing_state) (s : mirror_sys) : Prop := DiamondInv {
  di_spi : spi s = spi s0 ++ homing_prefix Diamond s0 m st;
  di_sem : homing_sem s = homing_sem s0;
  di_refs : refs s = refs s0;
}.

Ltac turn_done := eexists _, _; split; [reflexivity |]; split; [| cbn; split; [lia | intros; first [discriminate | lia]]].

Lemma step_pearl (Hrange : range_defined Pearl asin) w st s : st <> AH_SUCCESS -> pearl_inv st s ->
  exists st' s', homing_step_pearl Pearl asin m w st s = Some (st', s') /\ pearl_inv st' s' /\
    (homing_rank st' <= homing_rank st)%nat /\ (standstill w = true -> homing_rank st' < homing_rank st)%nat.
Proof.
  intros Hne [Hs Hsem Hp Hr].
  destruct Hp as [-> | [-> | [-> | ->]]]; [| | | done]; cbn [homing_step_pearl].
  - turn_done. split; try done; [| by right; left | by intros [? | ?]].
    unfold send. cbn [spi]. rewrite Hs. unfold homing_prefix. by rewrite app_nil_r.
  - destruct (standstill w); turn_done; split; try done.
    + unfold send. cbn [spi set_refs refs]. rewrite Hs. unfold upd. rewrite bool_decide_true by done. cbn [set_steps steps_at_center_position].
      unfold homing_prefix. by rewrite <- !app_assoc.
    + by right; right; left.
    + intros _. unfold send. cbn. unfold upd. by rewrite bool_decide_true by done.
    + by right; left.
  - destruct (standstill w) eqn:Ew; [| turn_done; split; auto].
    unfold range_of. destruct (Hr (or_introl eq_refl)) as [Hc Hf]. rewrite Hf.
    destruct (Hrange m) as [d ->]. cbn [mbind option_bind]. turn_done.
    split; auto.
Qed.

Lemma step_diamond (Hrange : range_defined Diamond asin)
  (Hfull : forall n, full_stroke_steps (refs s0 n) = full_range_steps Diamond n) w st s :
  st <> AH_SUCCESS -> diamond_inv st s ->
  exists st' s', homing_step_diamond Diamond asin w st s = Some (st', s') /\ diamond_inv st' s' /\
    (homing_rank st' <= homing_rank st)%nat /\
    (standstill w.1 && standstill w.2 = true -> homing_rank st' < homing_rank st)%nat.
Proof.
  intros Hne [Hs Hsem Hr].
  assert (forall n, exists r, range_of Diamond asin n s = Some r) as Hra.
  { intros n. unfold range_of. rewrite Hr, Hfull. destruct (Hrange n) as [d ->]. by eexists. }
  unfold homing_step_diamond.
  destruct st; try done; cbv zeta;
    try (destruct (standstill w.1 && standstill w.2); [| turn_done; done]).
  1: turn_done; split; try done; unfold send; cbn [spi]; rewrite Hs; unfold homing_prefix; by rewrite app_nil_r.
  4: destruct (Hra MOTOR_THETA_ANGLE) as [r ->]; cbn [mbind option_bind]; turn_done; done.
  5: { destruct (Hra MOTOR_PHI_ANGLE) as [r Er]. unfold range_of in *. cbn [send refs].
       change (refs (send _ s)) with (refs s). rewrite Er. cbn [mbind option_bind]. turn_done.
       split; try done. unfold publish_range, send. cbn [spi]. rewrite Hs. unfold homing_prefix.
       by rewrite <- !app_assoc. }
  all: turn_done; split; try done; unfold send, centers; cbn [spi]; rewrite Hs, ?Hr;
    unfold homing_prefix, centers; by rewrite <- ?app_assoc.
Qed.
End Homing.

(** The thread of a board; [status k n] is the status read of motor [n] with
    [k] polls left. *)
Definition mirror_homing_thread (b : board) (asin : spec_float -> spec_float) (m : motor_t)
  (status : nat -> motor_t -> Z) (s : mirror_sys) : option (mirror_homing_state * mirror_sys) :=
  match b with
  | Pearl => mirror_auto_homing_one_end_thread Pearl asin m (fun k => status k m) s
  | Diamond => mirror_auto_homing_overreach_end_thread Diamond asin
                 (fun k => (status k MOTOR_PHI_ANGLE, status k MOTOR_THETA_ANGLE)) s
  end.

Definition ramp_frames (b : board) (m : motor_t) : list bytes :=
  match b with
  | Pearl => send_commands Pearl m
  | Diamond => send_commands Diamond MOTOR_THETA_ANGLE ++ send_commands Diamond MOTOR_PHI_ANGLE
  end.

#[local] Opaque homing_loop.

Lemma thread_result (b : board) (asin : spec_float -> spec_float) (m : motor_t)
  (status : nat -> motor_t -> Z) (s : mirror_sys)
  (Hrange : range_defined b asin)
  (Hfull : b = Diamond -> forall n, full_stroke_steps (refs s n) = full_range_steps Diamond n) :
  exists st n s', mirror_homing_thread b asin m status s = Some (st, s') /\
    spi s' = spi s ++ homing_prefix b s m st ++ ramp_frames b m /\
    motor_state (refs s' m) = match n with O => RET_ERROR_INVALID_STATE | S _ => RET_SUCCESS end /\
    ((0 < n)%nat -> st = AH_SUCCESS) /\
    ((forall k n, (0 < k <= 8)%nat -> standstill (status k n) = true) -> (0 < n)%nat) /\
    (let sm := match b with Pearl => m | Diamond => MOTOR_PHI_ANGLE end in
     homing_sem s' sm = Z.min 1 (homing_sem s sm + 1)).
Proof.
  destruct b; cbn [mirror_homing_thread].
  - destruct (homing_loop_spec (homing_step_pearl Pearl asin m) (pearl_inv s m) homing_rank standstill
               ltac:(by intros []) (step_pearl asin s m Hrange) (fun k => status k m)
               (AUTOHOMING_TIMEOUT_LOOP_COUNT Pearl) AH_UNINIT s) as (st & n & s' & E & [I1 I2 I3 I4] & D & L).
    { split; try done; [by rewrite app_nil_r | by left | by intros [? | ?]]. }
    unfold mirror_auto_homing_one_end_thread. rewrite E. cbn [mbind option_bind].
    exists st, n. eexists. split; [done |]. unfold homing_done, set_refs, set_sem, send. cbn. unfold upd.
    rewrite bool_decide_true by done. cbn. rewrite I1, I2, <- app_assoc. split; [done |].
    split; [by destruct n |]. split; [done |]. split; [| done].
    intros Hs. apply (L 8%nat); [cbn; lia | | intros; apply Hs; lia].
    apply Nat.leb_le. reflexivity.
  - specialize (Hfull eq_refl).
    destruct (homing_loop_spec (homing_step_diamond Diamond asin) (diamond_inv s m) homing_rank
               (fun w => standstill w.1 && standstill w.2)
               ltac:(by intros []) (step_diamond asin s m Hrange Hfull)
               (fun k => (status k MOTOR_PHI_ANGLE, status k MOTOR_THETA_ANGLE))
               (AUTOHOMING_TIMEOUT_LOOP_COUNT Diamond) AH_UNINIT s) as (st & n & s' & E & [I1 I2 I3] & D & L).
    { split; try done. by rewrite app_nil_r. }
    unfold mirror_auto_homing_overreach_end_thread. rewrite E. cbn [mbind option_bind].
    exists st, n. eexists. split; [done |]. unfold homing_done, set_refs, set_sem, send. cbn. unfold upd.
    rewrite I1, I2, <- app_assoc. split; [done |].
    split; [destruct m; cbn; by destruct n |]. split; [done |]. split; [| done].
    intros Hs. apply (L 8%nat); [cbn; lia | | intros; cbn; rewrite !Hs by lia; done].
    apply Nat.leb_le. reflexivity.
Qed.

(** Homing ends, does what it reports and gives its semaphore back.
    Whatever status the controller returns, the thread ends within its number
    of polls, having sent exactly the frames of the states it went through, in
    order; it reports success only when it went through all of them, leaving
    the axis zeroed at its stop and sent to the center; and it reports success
    whenever the motors stand still during the last eight polls. *)
Theorem homing_reports_what_it_did (b : board) (asin : spec_float -> spec_float) (m : motor_t)
  (status : nat -> motor_t -> Z) (s : mirror_sys)
  (Hrange : range_defined b asin)
  (Hfull : b = Diamond -> forall n, full_stroke_steps (refs s n) = full_range_steps Diamond n) :
  exists st s', mirror_homing_thread b asin m status s = Some (st, s') /\
    spi s' = spi s ++ homing_prefix b s m st ++ ramp_frames b m /\
    (motor_state (refs s' m) = RET_SUCCESS /\ st = AH_SUCCESS \/ motor_state (refs s' m) = RET_ERROR_INVALID_STATE) /\
    ((forall k n, (0 < k <= 8)%nat -> standstill (status k n) = true) -> motor_state (refs s' m) = RET_SUCCESS) /\
    (let sm := match b with Pearl => m | Diamond => MOTOR_PHI_ANGLE end in
     homing_sem s' sm = Z.min 1 (homing_sem s sm + 1)).
Proof.
  destruct (thread_result b asin m status s Hrange Hfull) as (st & n & s' & E & F & M & D & L & S).
  exists st, s'. split; [done |]. split; [done |]. rewrite M. split; [| split; [| done]].
  - destruct n; [by right | left; split; [done | apply D; lia]].
  - intros Hs. specialize (L Hs). destruct n; [lia | done].
Qed.

(** ** Concrete runs, with a coarse sine and the small-angle arc sine *)

Definition coarse_sin (x : spec_float) : spec_float :=
  match x with
  | S754_finite true _ _ => dbl (-1) (-2)
  | S754_finite false _ _ => dbl 1 (-2)
  | _ => dbl 0 0
  end.
Definition small_angle (x : spec_float) : spec_float := x.

Lemma coarse_sin_defined b : sin_defined b coarse_sin.
Proof.
  intros m a _. unfold calculate_microsteps_from_center_position.
  destruct (ddiv _ _) as [| | | []]; destruct b, m; vm_compute; by eexists.
Qed.

Definition demo_ops : list mirror_op :=
  [OpAngle MOTOR_PHI_ANGLE 40000; OpAngle MOTOR_THETA_ANGLE 107501; OpRelative MOTOR_THETA_ANGLE 2147483647 60000;
   OpRelative MOTOR_PHI_ANGLE 45000 83584; OpAsync MOTOR_PHI_ANGLE 50000; OpWork MOTOR_PHI_ANGLE; OpGoHome].


(** At the center, a relative command of +45 degrees. *)
Lemma diamond_relative_phi_too_far_witness :
  (exists s', mirror_set_angle_phi_relative Diamond coarse_sin small_angle 45000 83584 (mirror_reset Diamond)
       = Some (RET_SUCCESS, s') /\
     spi s' = [] ++ [write_reg Diamond REG_XTARGET MOTOR_PHI_ANGLE (s32 (83584 + -51200))]) /\
  mirror_set_angle_phi Diamond coarse_sin 90000 (mirror_reset Diamond) = Some (RET_ERROR_INVALID_PARAM, mirror_reset Diamond).
Proof.
  apply (diamond_relative_phi_too_far coarse_sin small_angle (mirror_reset Diamond) 45000 83584 0 (-51200)).
  - reflexivity.
  - vm_compute. reflexivity.
  - split; reflexivity.
  - vm_compute. reflexivity.
Defined.

Lemma mirror_phi_reads_mirrored_witness :
  exists s', mirror_set_angle_phi Pearl coarse_sin 40000 (mirror_reset Pearl) = Some (RET_SUCCESS, s') /\
    mirror_get_phi_angle_millidegrees s' = 50000.
Proof.
  destruct (mirror_set_angle_phi Pearl coarse_sin 40000 (mirror_reset Pearl)) as [[r s'] |] eqn:E;
    [| vm_compute in E; discriminate].
  assert (r = RET_SUCCESS) as -> by (vm_compute in E; by injection E as <- _).
  exists s'. split; [done |]. exact (proj1 (mirror_phi_reads_mirrored Pearl coarse_sin _ s' 40000 E)).
Defined.

Lemma homing_reports_what_it_did_witness :
  exists st s', mirror_homing_thread Diamond small_angle MOTOR_PHI_ANGLE (fun _ _ => 2147483648)
      (mirror_reset Diamond) = Some (st, s') /\
    motor_state (refs s' MOTOR_PHI_ANGLE) = RET_SUCCESS.
Proof.
  destruct (homing_reports_what_it_did Diamond small_angle MOTOR_PHI_ANGLE (fun _ _ => 2147483648)
              (mirror_reset Diamond)) as (st & s' & E & _ & _ & L & _).
  - intros []; vm_compute; by eexists.
  - done.
  - exists st, s'. split; [exact E |]. apply L. intros. reflexivity.
Defined.

(** A homing that completes on its very last poll is reported as failed. *)
Example homing_completed_on_last_poll_fails :
  match mirror_homing_thread Pearl small_angle MOTOR_PHI_ANGLE
          (fun k _ => if (k <=? 2)%nat then 2147483648 else 0) (mirror_reset Pearl) with
  | Some (st, s') => st = AH_SUCCESS /\ motor_state (refs s' MOTOR_PHI_ANGLE) = RET_ERROR_INVALID_STATE
  | None => False
  end.
Proof. vm_compute. split; reflexivity. Qed.

(** The value of a frame is read back from its four data bytes. *)
Lemma byte_testbit v k j : 0 <= k ->
  Z.testbit (Z.land (Z.shiftr v k) 255) j = (0 <=? j) && (j <? 8) && Z.testbit v (j + k).
Proof.
  intros. change 255 with (Z.ones 8). destruct (Z.leb_spec 0 j); [| by rewrite Z.testbit_neg_r by lia].
  rewrite Z.land_spec, Z.shiftr_spec, Z.testbit_ones by lia. btrue (0 <=? j). cbn [andb]. apply andb_comm.
Qed.

Lemma spi_frame_roundtrip (reg value : Z) : spi_read_value (spi_write_frame reg value) = u32 value.
Proof.
  unfold spi_read_value, spi_write_frame, nthZ, u32.
  change (nth (Z.to_nat 1) _ 0) with (Z.land (Z.shiftr value 24) 255).
  change (nth (Z.to_nat 2) _ 0) with (Z.land (Z.shiftr value 16) 255).
  change (nth (Z.to_nat 3) _ 0) with (Z.land (Z.shiftr value 8) 255).
  change (nth (Z.to_nat 4) _ 0) with (Z.land value 255).
  replace (Z.land value 255) with (Z.land (Z.shiftr value 0) 255) by (by rewrite Z.shiftr_0_r).
  rewrite <- !Z.land_ones by lia. apply Z.bits_inj'. intros n Hn.
  rewrite !Z.land_spec, !Z.lor_spec, !Z.shiftl_spec, !byte_testbit, Z.testbit_ones by lia.
  replace (n - 24 + 24) with n by lia. replace (n - 16 + 16) with n by lia.
  replace (n - 8 + 8) with n by lia. replace (n + 0) with n by lia.
  destruct (Z.testbit value n); rewrite ?andb_true_r, ?andb_false_r; [| done].
  bdestruct_all; reflexivity.
Qed.
