(* ===== verification/Fan.v ===== *)
(** main_board/src/temperature/fan/fan.c: the speed of the fans.

    A speed is a 16-bit value; the PWM pulse it gives is computed in single
    precision, modelled by exact products rounded to 24 significant bits.  The
    auxiliary fan of Pearl gets the same settings as the main one and is not
    repeated. *)

From Stdlib Require Import SpecFloat.
From S2P Require Import Prelude Floats.

(** ** Single precision on nonnegative integers *)

(** Division rounded to nearest, ties to even. *)
Definition div_rne (n q : Z) : Z :=
  let k := n / q in
  let r := n mod q in
  if 2 * r <? q then k else if q <? 2 * r then k + 1 else if Z.even k then k else k + 1.

(** [n >= 0] rounded to 24 significant bits. *)
Definition round24 (n : Z) : Z :=
  let d := 2 ^ Z.max 0 (Z.log2 n - 23) in div_rne n d * d.

(** [(uint32_t)(n * f)] for a [uint32_t] n and a float f = m / 2^k. *)
Definition mul_float (n m k : Z) : Z := round24 (round24 n * m) / 2 ^ k.

(** ** Fan *)

(** The hardware generations, with their duty cycle limits. *)
Inductive fan_hw := FAN_EV1_2 | FAN_EV3 | FAN_DIAMOND.

Definition min_duty_cycle_percent (h : fan_hw) : Z := match h with FAN_EV1_2 => 0 | FAN_EV3 => 40 | FAN_DIAMOND => 30 end.
Definition max_duty_cycle_percent (h : fan_hw) : Z := match h with FAN_EV1_2 => 80 | _ => 100 end.

(** [pwms = <... 40000 ...>] in the device trees, in nanoseconds. *)
Definition FAN_PERIOD : Z := 40000.
Definition UINT16_MAX : Z := 65535.

Record fan_sys := FanSys {
  fan_speed_by_value : Z;
  fan_is_off : bool;
  fan_enabled : bool;    (* the enable pin *)
  fan_pulse : Z;         (* last pulse given to the PWM driver *)
}.

(** [(float)(max - min) / 100.f], as mantissa and exponent: 0.8f, 0.6f, 0.7f. *)
Definition duty_float (h : fan_hw) : Z * Z :=
  match fdiv (flt (max_duty_cycle_percent h - min_duty_cycle_percent h) 0) (flt 100 0) with
  | S754_finite false m e => (Z.pos m, - e)
  | _ => (0, 0)
  end.

Definition compute_pulse_width_ns (h : fan_hw) (value : Z) : Z :=
  let scaled_fan_speed := mul_float (u32 (value * FAN_PERIOD)) (duty_float h).1 (duty_float h).2 / UINT16_MAX in
  let min_period := min_duty_cycle_percent h * FAN_PERIOD / 100 in
  u32 (scaled_fan_speed + min_period).

Definition fan_set_speed_by_value (h : fan_hw) (value : Z) (s : fan_sys) : fan_sys :=
  FanSys value (fan_is_off s) (negb (fan_is_off s) && (0 <? value))
    (if negb (value =? 0) then u32 (FAN_PERIOD - compute_pulse_width_ns h value) else fan_pulse s).

(** [UINT16_MAX * (MIN(percentage, 100) / 100.0f)], converted to [uint16_t]. *)
Definition value_of_percentage (percentage : Z) : Z :=
  u16 (default 0 (sf_trunc (fmul (flt UINT16_MAX 0) (fdiv (flt (Z.min percentage 100) 0) (flt 100 0))))).

Definition fan_set_speed_by_percentage (h : fan_hw) (percentage : Z) (s : fan_sys) : fan_sys :=
  fan_set_speed_by_value h (value_of_percentage percentage) s.

Definition fan_set_max_speed (h : fan_hw) (s : fan_sys) : fan_sys := fan_set_speed_by_percentage h 100 s.
Definition fan_get_speed_setting (s : fan_sys) : Z := fan_speed_by_value s.

Definition fan_turn_off (s : fan_sys) : fan_sys := FanSys (fan_speed_by_value s) true false (fan_pulse s).
Definition fan_turn_on (h : fan_hw) (s : fan_sys) : fan_sys :=
  fan_set_speed_by_value h (fan_speed_by_value s) (FanSys (fan_speed_by_value s) false true (fan_pulse s)).

Definition FAN_INITIAL_SPEED_PERCENT : Z := 1.

(** [fan_init] once the devices are ready. *)
Definition fan_init (h : fan_hw) : fan_sys :=
  fan_set_speed_by_percentage h FAN_INITIAL_SPEED_PERCENT (FanSys 0 false false 0).

(** ** Lemmas *)

Lemma div_rne_err n q : 0 <= n -> 0 < q -> 2 * Z.abs (div_rne n q * q - n) <= q /\ 0 <= div_rne n q.
Proof.
  intros Hn Hq. unfold div_rne. pose proof (Z.div_mod n q ltac:(lia)) as E.
  pose proof (Z.mod_pos_bound n q Hq). pose proof (Z.div_pos n q Hn Hq).
  set (k := n / q) in *. set (r := n mod q) in *. clearbody k r.
  destruct (Z.ltb_spec (2 * r) q); [| destruct (Z.ltb_spec q (2 * r)); [| destruct (Z.even k)]];
    rewrite ?Z.mul_add_distr_r, (Z.mul_comm k q); lia.
Qed.

Lemma round24_err n : 0 <= n -> Z.abs (round24 n - n) * 2 ^ 24 <= n /\ 0 <= round24 n.
Proof.
  intros Hn. unfold round24. remember (Z.max 0 (Z.log2 n - 23)) as d eqn:Ed.
  assert (0 < 2 ^ d) as Hd by (apply Z.pow_pos_nonneg; lia).
  destruct (div_rne_err n (2 ^ d) Hn Hd) as [E P]. split; [| nia].
  destruct (Z.le_gt_cases (Z.log2 n) 23) as [L | L].
  - replace d with 0 in * by lia. change (2 ^ 0) with 1 in *. lia.
  - assert (2 ^ d * 2 ^ 23 <= n) as B.
    { rewrite <- Z.pow_add_r by lia. replace (d + 23) with (Z.log2 n) by lia. apply Z.log2_spec.
      destruct (Z.eq_dec n 0) as [-> |]; [cbn in L; lia | lia]. }
    change (2 ^ 24) with (2 * 2 ^ 23). nia.
Qed.

Lemma value_of_percentage_100 : value_of_percentage 100 = UINT16_MAX.
Proof. vm_compute. reflexivity. Qed.

(** The duty cycle floats, as integers over 2^24. *)
Lemma duty_float_value h : duty_float h = (match h with FAN_EV1_2 => 13421773 | FAN_EV3 => 10066330 | FAN_DIAMOND => 11744051 end, 24).
Proof. destruct h; vm_compute; reflexivity. Qed.

(** The fan's pulse follows its setting: for every 16-bit value it is
    within one nanosecond of the linear interpolation between the duty cycle
    limits of the hardware, and within those limits, so that the difference
    "period minus pulse" given to the PWM driver never wraps. *)
Theorem fan_pulse_accurate (h : fan_hw) (value : Z) (Hv : 0 <= value <= UINT16_MAX) :
  let range := (max_duty_cycle_percent h - min_duty_cycle_percent h) * FAN_PERIOD / 100 in
  let floor := min_duty_cycle_percent h * FAN_PERIOD / 100 in
  let pulse := compute_pulse_width_ns h value in
  Z.abs (pulse - (floor + value * range / UINT16_MAX)) <= 1 /\
  floor <= pulse <= max_duty_cycle_percent h * FAN_PERIOD / 100 /\
  u32 (FAN_PERIOD - pulse) = FAN_PERIOD - pulse.
Proof.
  cbv zeta. unfold compute_pulse_width_ns, UINT16_MAX, FAN_PERIOD in *. rewrite duty_float_value.
  unfold mul_float. rewrite (u32_small (value * 40000)) by lia.
  remember (value * 40000) as n eqn:En. destruct (round24_err n ltac:(lia)) as [E1 P1]. cbn [fst snd].
  remember (round24 n) as r1 eqn:Er1. clear Er1.
  destruct h; cbn [min_duty_cycle_percent max_duty_cycle_percent];
    match goal with |- context [round24 (r1 * ?D)] =>
      destruct (round24_err (r1 * D) ltac:(lia)) as [E2 P2]; remember (round24 (r1 * D)) as r2 eqn:Er2 end;
    clear Er2; change (2 ^ 24) with 16777216 in *.
  all: repeat match goal with |- context [?a * 40000 / 100] =>
         let v := eval vm_compute in (a * 40000 / 100) in change (a * 40000 / 100) with v end.
  all: match goal with |- context [u32 ?x] => rewrite (u32_small x) by zify_div end.
  all: match goal with |- context [u32 ?x] => rewrite (u32_small x) by zify_div end.
  all: zify_div.
Qed.

Lemma fan_pulse_accurate_witness :
  let pulse := compute_pulse_width_ns FAN_DIAMOND 65535 in
  Z.abs (pulse - 40000) <= 1 /\ 12000 <= pulse <= 40000 /\ u32 (FAN_PERIOD - pulse) = FAN_PERIOD - pulse.
Proof. apply (fan_pulse_accurate FAN_DIAMOND 65535). split; discriminate. Defined.

(** The rounding used agrees with the IEEE 754 multiplication. *)
Example mul_float_ieee :
  let ieee h v := default 0 (sf_trunc (fmul (flt (v * FAN_PERIOD) 0)
                    (fdiv (flt (max_duty_cycle_percent h - min_duty_cycle_percent h) 0) (flt 100 0)))) in
  forallb (fun h => forallb (fun v => mul_float (v * FAN_PERIOD) (duty_float h).1 (duty_float h).2 =? ieee h v)
    [0; 1; 3; 655; 1234; 4096; 9999; 21845; 32767; 32768; 40001; 43691; 54321; 65534; 65535])
    [FAN_EV1_2; FAN_EV3; FAN_DIAMOND] = true.
Proof. vm_compute. reflexivity. Qed.
