(* ===== verification/Temperature.v ===== *)
(** main_board/src/temperature/sensors/temperature.c: sampling of the
    temperature sensors, over-temperature handling and critical shutdown, with
    the fan command of runner.c, client of the same fan.

    The readings (I2C sensors, die temperature) and the uptime are arguments of
    the thread's turns; the front-unit average of Diamond is the last sensor of
    the list, not sampled itself. *)

From S2P Require Import Prelude Floats Fan.

(** ** Data *)

Definition OVERTEMP_TO_CRITICAL_RISE_C : Z := 5.
Definition OVERTEMP_TO_NOMINAL_DROP_C : Z := 5.
Definition CRITICAL_TO_SHUTDOWN_DELAY_MS : Z := 10000.
Definition TEMPERATURE_AVERAGE_SAMPLE_COUNT : Z := 3.
Definition TEMPERATURE_SAMPLE_RETRY_COUNT : nat := 5.
Definition TEMPERATURE_SENTINEL_VALUE : Z := -2147483648.

Record overtemp_info := OvertempInfo {
  overtemp_c : Z;
  overtemp_drop_c : Z;
  in_overtemp : bool;
  critical_timer : Z;
}.

Record sensor_and_channel := Sensor {
  temperature_source : Z;
  state : option Z;                  (* status of the orb state, None for NULL *)
  cb : bool;                         (* whether overtemp_callback is set *)
  cb_data : option overtemp_info;
  history : list Z;
  wr_idx : Z;
  average : Z;
}.

Record temp_sys := TempSys {
  sensors : list sensor_and_channel;
  num_sensors_in_overtemp_conditions : Z;
  old_num_sensors_in_overtemp_conditions : Z;
  fan_speed_before_overtemperature : Z;
  fan : fan_sys;
  last_system_time : Z;
  sample_period_ticks : Z;
  reports : list (Z * Z);            (* published temperatures: source, value *)
  fatal_errors : list Z;             (* stored critical temperature events: source *)
  rebooted : bool;
}.

Definition set_cb_data (d : overtemp_info) (x : sensor_and_channel) : sensor_and_channel :=
  Sensor (temperature_source x) (state x) (cb x) (Some d) (history x) (wr_idx x) (average x).
Definition orb_state_set (v : Z) (x : sensor_and_channel) : sensor_and_channel :=
  Sensor (temperature_source x) (match state x with Some _ => Some v | None => None end)
    (cb x) (cb_data x) (history x) (wr_idx x) (average x).
Definition set_history (h : list Z) (w : Z) (x : sensor_and_channel) : sensor_and_channel :=
  Sensor (temperature_source x) (state x) (cb x) (cb_data x) h w (average x).
Definition set_average (a : Z) (x : sensor_and_channel) : sensor_and_channel :=
  Sensor (temperature_source x) (state x) (cb x) (cb_data x) (history x) (wr_idx x) a.

Definition set_counts (n old before : Z) (f : fan_sys) (s : temp_sys) : temp_sys :=
  TempSys (sensors s) n old before f (last_system_time s) (sample_period_ticks s) (reports s)
    (fatal_errors s) (rebooted s).
Definition set_last_time (t : Z) (s : temp_sys) : temp_sys :=
  TempSys (sensors s) (num_sensors_in_overtemp_conditions s) (old_num_sensors_in_overtemp_conditions s)
    (fan_speed_before_overtemperature s) (fan s) t (sample_period_ticks s) (reports s) (fatal_errors s) (rebooted s).
Definition set_sensors (l : list sensor_and_channel) (s : temp_sys) : temp_sys :=
  TempSys l (num_sensors_in_overtemp_conditions s) (old_num_sensors_in_overtemp_conditions s)
    (fan_speed_before_overtemperature s) (fan s) (last_system_time s) (sample_period_ticks s) (reports s)
    (fatal_errors s) (rebooted s).
Definition set_fan (f : fan_sys) (s : temp_sys) : temp_sys :=
  set_counts (num_sensors_in_overtemp_conditions s) (old_num_sensors_in_overtemp_conditions s)
    (fan_speed_before_overtemperature s) f s.
Definition set_ticks (t : Z) (s : temp_sys) : temp_sys :=
  TempSys (sensors s) (num_sensors_in_overtemp_conditions s) (old_num_sensors_in_overtemp_conditions s)
    (fan_speed_before_overtemperature s) (fan s) (last_system_time s) t (reports s) (fatal_errors s) (rebooted s).
Definition add_report (r : Z * Z) (s : temp_sys) : temp_sys :=
  TempSys (sensors s) (num_sensors_in_overtemp_conditions s) (old_num_sensors_in_overtemp_conditions s)
    (fan_speed_before_overtemperature s) (fan s) (last_system_time s) (sample_period_ticks s)
    (reports s ++ [r]) (fatal_errors s) (rebooted s).
Definition sys_reboot (source : Z) (s : temp_sys) : temp_sys :=
  TempSys (sensors s) (num_sensors_in_overtemp_conditions s) (old_num_sensors_in_overtemp_conditions s)
    (fan_speed_before_overtemperature s) (fan s) (last_system_time s) (sample_period_ticks s)
    (reports s) (fatal_errors s ++ [source]) true.

Section Temperature.
(** The fan's hardware generation; Zephyr's clock: ticks per second and the
    conversion of a delay to ticks; the sources averaged into the front unit. *)
Context (h : fan_hw) (TICKS_PER_SEC : Z) (ms_to_ticks : Z -> Z) (front_source : Z -> bool).

(** ** Over-temperature *)

Definition temperature_is_in_overtemp (s : temp_sys) : bool := 0 <? num_sensors_in_overtemp_conditions s.

Definition check_overtemp_conditions (s : temp_sys) : temp_sys :=
  let old := old_num_sensors_in_overtemp_conditions s in
  let n := num_sensors_in_overtemp_conditions s in
  if (old =? 1) && (n =? 0) then
    set_fan (fan_set_speed_by_value h (fan_speed_before_overtemperature s) (fan s)) s
  else if (old =? 0) && (0 <? n) then
    set_counts n old (fan_get_speed_setting (fan s)) (fan_set_max_speed h (fan s)) s
  else s.

Definition inc_overtemp_condition (s : temp_sys) : temp_sys :=
  let n := num_sensors_in_overtemp_conditions s in
  check_overtemp_conditions (set_counts (u8 (n + 1)) n (fan_speed_before_overtemperature s) (fan s) s).
Definition dec_overtemp_condition (s : temp_sys) : temp_sys :=
  let n := num_sensors_in_overtemp_conditions s in
  check_overtemp_conditions (set_counts (u8 (n - 1)) n (fan_speed_before_overtemperature s) (fan s) s).

(** Milliseconds of one measurement, from the sampling period. *)
Definition measure_period_ms (s : temp_sys) : Z :=
  sample_period_ticks s * TEMPERATURE_AVERAGE_SAMPLE_COUNT * 1000 / TICKS_PER_SEC.

(** The critical part of [overtemp_callback]: the new timer, uptime reference
    and sensor, before the comparison with the delay. *)
Definition critical_update (now : Z) (info : overtemp_info) (x : sensor_and_channel) (s : temp_sys) : Z * temp_sys :=
  let timer := if critical_timer info =? 0 then 0
               else u32 (critical_timer info + u64 (now - last_system_time s)) in
  (u32 (timer + measure_period_ms s), set_last_time now s).

(** [overtemp_callback]: code, sensor and state; when it reboots, the state
    says so. *)
Definition overtemp_callback (now : Z) (x : sensor_and_channel) (s : temp_sys)
  : Z * sensor_and_channel * temp_sys :=
  match cb_data x with
  | None => (RET_ERROR_INVALID_PARAM, x, s)
  | Some info =>
      let x := if average x <=? overtemp_c info then orb_state_set RET_SUCCESS x else x in
      let critical := overtemp_c info + OVERTEMP_TO_CRITICAL_RISE_C <? average x in
      let '(timer, s) := if critical then critical_update now info x s else (0, s) in
      let x := if critical then orb_state_set RET_ERROR_UNSAFE x else x in
      let info := OvertempInfo (overtemp_c info) (overtemp_drop_c info) (in_overtemp info) timer in
      let x := set_cb_data info x in
      if critical && (CRITICAL_TO_SHUTDOWN_DELAY_MS <? timer)
      then (-1, x, sys_reboot (temperature_source x) s)
      else if negb (in_overtemp info) && (overtemp_c info <? average x) then
        let x := orb_state_set RET_ERROR_UNSAFE x in
        (RET_SUCCESS, set_cb_data (OvertempInfo (overtemp_c info) (overtemp_drop_c info) true timer) x,
         inc_overtemp_condition s)
      else if in_overtemp info && (average x <? overtemp_c info - overtemp_drop_c info) then
        let x := orb_state_set RET_SUCCESS x in
        (RET_SUCCESS, set_cb_data (OvertempInfo (overtemp_c info) (overtemp_drop_c info) false timer) x,
         dec_overtemp_condition s)
      else (RET_SUCCESS, x, s)
  end.

(** ** Sampling *)

Definition init_sensor_and_channel (x : sensor_and_channel) : sensor_and_channel :=
  set_history (fill TEMPERATURE_AVERAGE_SAMPLE_COUNT TEMPERATURE_SENTINEL_VALUE) 0 x.

(** [average]: the mean rounded to nearest; it is never halfway. *)
Definition average_of (l : list Z) : Z :=
  let sum := fold_left Z.add l 0 in
  let n := TEMPERATURE_AVERAGE_SAMPLE_COUNT in
  if 0 <=? sum then (2 * sum + n) / (2 * n) else - ((- 2 * sum + n) / (2 * n)).

Definition temperature_report_internal (now : Z) (x : sensor_and_channel) (s : temp_sys)
  : sensor_and_channel * temp_sys :=
  let s := add_report (temperature_source x, average x) s in
  if cb x then let r := overtemp_callback now x s in (r.1.2, r.2) else (x, s).

(** The retry loop; [readings k] is the code and the value of the attempt with
    [k] attempts left.  Whether a reading was accepted, and the sensor. *)
Fixpoint sample_attempts (k : nat) (readings : nat -> Z * Z) (x : sensor_and_channel)
  : bool * sensor_and_channel :=
  match k with
  | O => (false, x)
  | S k' =>
      let '(ret, value) := readings k in
      if negb (ret =? RET_SUCCESS) then sample_attempts k' readings x
      else
        let x := set_history (<[Z.to_nat (wr_idx x) := value]> (history x)) (wr_idx x) x in
        if (if average x =? TEMPERATURE_SENTINEL_VALUE
            then (-25 <? value) && (value <? 120)
            else Z.abs (s32 (value - average x)) <? 8)
        then (true, x) else sample_attempts k' readings x
  end.

(** The new sample counts: every third one makes a measurement. *)
Definition sample_accepted (now : Z) (x : sensor_and_channel) (s : temp_sys) : sensor_and_channel * temp_sys :=
  let x := set_history (history x) ((wr_idx x + 1) mod TEMPERATURE_AVERAGE_SAMPLE_COUNT) x in
  if wr_idx x =? 0 then temperature_report_internal now (set_average (average_of (history x)) x) s
  else (x, s).

Definition sample_and_report_temperature (readings : nat -> Z * Z) (now : Z) (x : sensor_and_channel) (s : temp_sys)
  : sensor_and_channel * temp_sys :=
  let '(ok, x) := sample_attempts TEMPERATURE_SAMPLE_RETRY_COUNT readings x in
  if negb ok then (orb_state_set RET_ERROR_TIMEOUT (init_sensor_and_channel x), s)
  else sample_accepted now x s.

(** The front unit of Diamond: the mean of the measured front sensors. *)
Definition front_unit_sample (l : list sensor_and_channel) : option Z :=
  let front := filter (fun x => front_source (temperature_source x) = true /\
                                average x <> TEMPERATURE_SENTINEL_VALUE) l in
  match front with
  | [] => None
  | _ => Some (fold_left Z.add (average <$> front) 0 ÷ zlen front)
  end.

(** One sensor of the thread's turn, in place. *)
Definition update_sensor (i : nat) (f : sensor_and_channel -> temp_sys -> sensor_and_channel * temp_sys) (s : temp_sys)
  : temp_sys :=
  if rebooted s then s
  else match sensors s !! i with
       | None => s
       | Some x => let r := f x s in set_sensors (<[i := r.1]> (sensors r.2)) r.2
       end.

(** One turn of [temperature_thread] on a board with [n] sampled sensors, the
    front-unit average being sensor [n] when [diamond]. *)
Definition temperature_turn (n : nat) (diamond : bool) (readings : nat -> nat -> Z * Z) (now : Z) (s : temp_sys)
  : temp_sys :=
  let s := fold_left (fun s i => update_sensor i (sample_and_report_temperature (readings i) now) s) (seq 0 n) s in
  if diamond then
    match front_unit_sample (take n (sensors s)) with
    | None => s
    | Some v =>
        update_sensor n (fun x s => sample_accepted now
          (set_history (<[Z.to_nat (wr_idx x) := v]> (history x)) (wr_idx x) x) s) s
    end
  else s.

Definition temperature_set_sampling_period_ms (sample_period : Z) (s : temp_sys) : Z * temp_sys :=
  if (sample_period <? 100) || (15000 <? sample_period) then (RET_ERROR_INVALID_PARAM, s)
  else (RET_SUCCESS, set_ticks (ms_to_ticks (sample_period / TEMPERATURE_AVERAGE_SAMPLE_COUNT)) s).

(** ** Commands of the Jetson: runner.c *)

Inductive fan_payload := FanLegacy | FanPercentage | FanValue | FanUnknown.

Definition handle_fan_speed (p : fan_payload) (fan_speed : Z) (s : temp_sys) : ack * temp_sys :=
  if temperature_is_in_overtemp s then (ACK_OVER_TEMPERATURE, s)
  else
    match p with
    | FanLegacy | FanPercentage =>
        if 100 <? fan_speed then (ACK_RANGE, s)
        else (ACK_SUCCESS, set_fan (fan_set_speed_by_percentage h fan_speed (fan s)) s)
    | FanValue =>
        if UINT16_MAX <? fan_speed then (ACK_RANGE, s)
        else (ACK_SUCCESS, set_fan (fan_set_speed_by_value h fan_speed (fan s)) s)
    | FanUnknown => (ACK_NOT_SUPPORTED, s)
    end.

Definition handle_temperature_sample_period_message (sample_period_ms : Z) (s : temp_sys) : ack * temp_sys :=
  let r := temperature_set_sampling_period_ms sample_period_ms s in
  (if r.1 =? RET_SUCCESS then ACK_SUCCESS else ACK_RANGE, r.2).
End Temperature.

(** ** The fan and the over-temperature count *)

#[local] Opaque fan_set_speed_by_value.
#[local] Arguments u8 : simpl never.

Definition is_over (x : sensor_and_channel) : bool :=
  match cb_data x with Some i => in_overtemp i | None => false end.

Definition over_count (l : list sensor_and_channel) : Z := zlen (filter (fun x => is_over x = true) l).

Lemma over_count_cons x l : over_count (x :: l) = zbool (is_over x) + over_count l.
Proof. unfold over_count. rewrite filter_cons. destruct (is_over x); cbn [decide decide_rel]; case_decide; zlen; done. Qed.

Lemma over_count_insert l : forall i x y, l !! i = Some x ->
  over_count (<[i := y]> l) = over_count l + zbool (is_over y) - zbool (is_over x).
Proof.
  induction l as [| z l IH]; intros [| i] x y E; cbn in E; try done.
  - injection E as ->. change (<[0%nat := y]> (x :: l)) with (y :: l). rewrite !over_count_cons. lia.
  - change (<[S i := y]> (z :: l)) with (z :: <[i := y]> l). rewrite !over_count_cons, (IH i x y E). lia.
Qed.

Lemma over_count_bound l i x : l !! i = Some x -> 0 <= over_count l - zbool (is_over x) /\
  over_count l - zbool (is_over x) < zlen l.
Proof.
  revert i. induction l as [| z l IH]; intros [| i] E; cbn in E; try done.
  - injection E as ->. rewrite over_count_cons. unfold over_count, zlen.
    pose proof (length_filter (fun x => is_over x = true) l). cbn. lia.
  - destruct (IH i E). rewrite over_count_cons. zlen. destruct (is_over z); cbn; lia.
Qed.

Section Invariant.
Context (h : fan_hw) (TPS : Z) (ms_to_ticks : Z -> Z) (front : Z -> bool).

(** What the fan's outputs are for a speed. *)
Record fan_at (speed : Z) (f : fan_sys) : Prop := FanAt {
  at_speed : fan_speed_by_value f = speed;
  at_on : fan_is_off f = false;
  at_enabled : fan_enabled f = (0 <? speed);
  at_pulse : speed <> 0 -> fan_pulse f = u32 (FAN_PERIOD - compute_pulse_width_ns h speed);
}.

(** The fan follows [req], the speed last accepted, unless [n] sensors are too
    hot, when it is at its maximum and [req] is kept for later. *)
Definition FanInv (req : Z) (s : temp_sys) : Prop :=
  if 0 <? num_sensors_in_overtemp_conditions s
  then fan_at UINT16_MAX (fan s) /\ fan_speed_before_overtemperature s = req
  else fan_at req (fan s).

Lemma fan_at_set v sp f : fan_at sp f -> fan_at v (fan_set_speed_by_value h v f).
Proof.
  #[local] Transparent fan_set_speed_by_value.
  intros [A B C D]. unfold fan_set_speed_by_value. split; cbn; rewrite ?B; try done.
  intros Hv. by rewrite (proj2 (Z.eqb_neq v 0) Hv).
Qed.
#[local] Opaque fan_set_speed_by_value.

Lemma fan_at_max sp f : fan_at sp f -> fan_at UINT16_MAX (fan_set_max_speed h f).
Proof.
  unfold fan_set_max_speed, fan_set_speed_by_percentage. rewrite value_of_percentage_100. apply fan_at_set.
Qed.

Record same_but_fan (s s' : temp_sys) : Prop := SameButFan {
  sb_sensors : sensors s' = sensors s;
  sb_rebooted : rebooted s' = rebooted s;
}.

Lemma inc_inv req s : FanInv req s -> 0 <= num_sensors_in_overtemp_conditions s < 255 ->
  let s' := inc_overtemp_condition h s in
  FanInv req s' /\ num_sensors_in_overtemp_conditions s' = num_sensors_in_overtemp_conditions s + 1 /\ same_but_fan s s'.
Proof.
  unfold FanInv. intros I Hn. unfold inc_overtemp_condition, check_overtemp_conditions.
  cbn [num_sensors_in_overtemp_conditions old_num_sensors_in_overtemp_conditions set_counts fan fan_speed_before_overtemperature].
  set (n := num_sensors_in_overtemp_conditions s) in *. rewrite (u8_small (n + 1)) by lia.
  bfalse (n + 1 =? 0). rewrite andb_false_r. btrue (0 <? n + 1). rewrite andb_true_r.
  destruct (Z.eqb_spec n 0) as [E | E].
  - rewrite E in *. cbn in I. cbv zeta. cbn. split; [| done]. split; [by eapply fan_at_max |].
    unfold fan_get_speed_setting. apply I.
  - cbv zeta. cbn [num_sensors_in_overtemp_conditions set_counts fan fan_speed_before_overtemperature].
    btrue (0 <? n + 1). btrue (0 <? n) . revert I. btrue (0 <? n). intros I. split; [exact I |]. split; [done | done].
Qed.

Lemma dec_inv req s : FanInv req s -> 0 < num_sensors_in_overtemp_conditions s <= 255 ->
  let s' := dec_overtemp_condition h s in
  FanInv req s' /\ num_sensors_in_overtemp_conditions s' = num_sensors_in_overtemp_conditions s - 1 /\ same_but_fan s s'.
Proof.
  unfold FanInv. intros I Hn. unfold dec_overtemp_condition, check_overtemp_conditions.
  cbn [num_sensors_in_overtemp_conditions old_num_sensors_in_overtemp_conditions set_counts fan fan_speed_before_overtemperature].
  set (n := num_sensors_in_overtemp_conditions s) in *. rewrite (u8_small (n - 1)) by lia.
  revert I. btrue (0 <? n). intros [I B].
  destruct (Z.eqb_spec n 1) as [E | E]; cbn [andb].
  - rewrite E in *. cbv zeta. cbn. split; [| done]. rewrite B. by eapply fan_at_set.
  - bfalse (n =? 0). cbv zeta.
    cbn [num_sensors_in_overtemp_conditions set_counts fan fan_speed_before_overtemperature andb].
    btrue (0 <? n - 1). done.
Qed.

(** A piece of code that handles sensor [x]: it keeps the fan's invariant, and
    the count follows the flag of the sensor. *)
Definition handles (req : Z) (x x' : sensor_and_channel) (s s' : temp_sys) : Prop :=
  FanInv req s' /\ sensors s' = sensors s /\
  num_sensors_in_overtemp_conditions s' =
    num_sensors_in_overtemp_conditions s + zbool (is_over x') - zbool (is_over x).

Definition room_for (x : sensor_and_channel) (s : temp_sys) : Prop :=
  0 <= num_sensors_in_overtemp_conditions s - zbool (is_over x) < 255.

Lemma handles_refl req x x' s s' : FanInv req s -> is_over x' = is_over x ->
  fan s' = fan s -> num_sensors_in_overtemp_conditions s' = num_sensors_in_overtemp_conditions s ->
  fan_speed_before_overtemperature s' = fan_speed_before_overtemperature s -> sensors s' = sensors s ->
  handles req x x' s s'.
Proof. unfold handles, FanInv. intros I E F N B S. rewrite E, F, N, B, S. split; [done |]. split; [done | lia]. Qed.

Lemma callback_handles req now x s : FanInv req s -> room_for x s ->
  let r := overtemp_callback h TPS now x s in handles req x r.1.2 s r.2.
Proof.
  intros I Hn. unfold overtemp_callback, room_for in *. destruct (cb_data x) as [info |] eqn:Ed; cbv zeta.
  2: by apply handles_refl.
  assert (is_over x = in_overtemp info) as Eo by (unfold is_over; by rewrite Ed).
  set (x1 := if average x <=? overtemp_c info then _ else x).
  set (c := overtemp_c info + OVERTEMP_TO_CRITICAL_RISE_C <? average x1).
  set (ts := if c then critical_update TPS now info x1 s else (0, s)).
  assert (fan ts.2 = fan s /\ num_sensors_in_overtemp_conditions ts.2 = num_sensors_in_overtemp_conditions s /\
          fan_speed_before_overtemperature ts.2 = fan_speed_before_overtemperature s /\ sensors ts.2 = sensors s)
    as (Tf & Tn & Tb & Ts) by (unfold ts; by destruct c).
  assert (FanInv req ts.2) as It by (unfold FanInv; by rewrite Tf, Tn, Tb).
  destruct ts as [timer s1]; cbn [fst snd] in *.
  match goal with |- context [if ?e then (-1, _, _) else _] => destruct e end.
  { apply handles_refl; try done; by rewrite Eo. }
  cbn [in_overtemp overtemp_c overtemp_drop_c].
  destruct (in_overtemp info) eqn:Ei; cbn [negb andb]; rewrite Eo in Hn; cbn [zbool] in Hn.
  - match goal with |- context [if ?e then _ else _] => destruct e end.
    + destruct (dec_inv req s1 It ltac:(lia)) as (I' & N' & [S' _]). unfold handles. cbn [fst snd].
      split; [exact I' |]. split; [by rewrite S' |]. rewrite N', Tn, Eo. cbn. lia.
    + apply handles_refl; try done; by rewrite Eo.
  - match goal with |- context [if ?e then _ else _] => destruct e end.
    + destruct (inc_inv req s1 It ltac:(lia)) as (I' & N' & [S' _]). unfold handles. cbn [fst snd].
      split; [exact I' |]. split; [by rewrite S' |]. rewrite N', Tn, Eo. cbn. lia.
    + apply handles_refl; try done; by rewrite Eo.
Qed.

Lemma attempts_over k readings : forall x, is_over (sample_attempts k readings x).2 = is_over x.
Proof.
  induction k as [| k IH]; intros x; cbn [sample_attempts]; [done |].
  destruct (readings (S k)) as [ret v]. destruct (negb _); [apply IH |].
  match goal with |- context [if ?e then (true, _) else _] => destruct e end; [done | by rewrite IH].
Qed.

Lemma accepted_handles req now x s : FanInv req s -> room_for x s ->
  let r := sample_accepted h TPS now x s in handles req x r.1 s r.2.
Proof.
  intros I Hn. unfold sample_accepted, temperature_report_internal. cbn [wr_idx set_history].
  destruct (_ =? 0); [| by apply handles_refl].
  set (x1 := set_average _ _). set (s1 := add_report _ s). cbn [cb set_average set_history].
  change (cb x1) with (cb x). destruct (cb x); [| by apply handles_refl].
  exact (callback_handles req now x1 s1 I Hn).
Qed.

Lemma sample_handles req readings now x s : FanInv req s -> room_for x s ->
  let r := sample_and_report_temperature h TPS readings now x s in handles req x r.1 s r.2.
Proof.
  intros I Hn. unfold sample_and_report_temperature.
  pose proof (attempts_over TEMPERATURE_SAMPLE_RETRY_COUNT readings x) as E.
  destruct (sample_attempts _ _ _) as [ok x1]; cbn [snd] in E. destruct ok; cbn [negb].
  - assert (room_for x1 s) as Hn1 by (unfold room_for; by rewrite E).
    pose proof (accepted_handles req now x1 s I Hn1) as H. unfold handles in *. by rewrite E in H.
  - by apply handles_refl.
Qed.

Definition Inv (req : Z) (s : temp_sys) : Prop :=
  FanInv req s /\ num_sensors_in_overtemp_conditions s = over_count (sensors s) /\ zlen (sensors s) <= 255.

Lemma update_inv req i f s :
  (forall x s, FanInv req s -> room_for x s -> handles req x (f x s).1 s (f x s).2) ->
  Inv req s -> Inv req (update_sensor i f s).
Proof.
  intros Hf (I & N & L). unfold update_sensor. destruct (rebooted s); [done |].
  destruct (sensors s !! i) as [x |] eqn:Ex; [| done].
  pose proof (over_count_bound _ _ _ Ex) as B.
  destruct (Hf x s I) as (I' & S' & N'); [unfold room_for; lia |].
  destruct (f x s) as [x' s']; cbn [fst snd] in *. split; [exact I' |]. cbn [sensors set_sensors].
  rewrite S' in *. split.
  - change (num_sensors_in_overtemp_conditions (set_sensors _ s')) with (num_sensors_in_overtemp_conditions s').
    rewrite N', (over_count_insert _ _ _ _ Ex). lia.
  - unfold zlen in *. by rewrite length_insert.
Qed.

Lemma thermal_turn_inv req n diamond readings now s : Inv req s ->
  Inv req (temperature_turn h TPS front n diamond readings now s).
Proof.
  intros I. unfold temperature_turn.
  set (s1 := fold_left _ (seq 0 n) s).
  assert (Inv req s1) as I1.
  { unfold s1. revert s I s1. induction (seq 0 n) as [| i l IH]; intros s I; cbn [fold_left]; [done |].
    apply IH. apply update_inv; [| done]. intros x t. apply sample_handles. }
  destruct diamond; [| done]. destruct (front_unit_sample _ _) as [v |]; [| done].
  apply update_inv; [| done]. intros x t It Ht. 
  exact (accepted_handles req now (set_history (<[Z.to_nat (wr_idx x) := v]> (history x)) (wr_idx x) x) t It Ht).
Qed.
End Invariant.

(** ** Theorems *)

Inductive temp_event :=
| TempTurn (readings : nat -> nat -> Z * Z) (now : Z)
| FanCommand (p : fan_payload) (speed : Z)
| SamplePeriod (ms : Z).

Section Theorems.
Context (h : fan_hw) (TPS : Z) (ms_to_ticks : Z -> Z) (front : Z -> bool) (n : nat) (diamond : bool).

Definition temp_event_step (s : temp_sys) (e : temp_event) : option ack * temp_sys :=
  if rebooted s then (None, s)
  else match e with
       | TempTurn readings now => (None, temperature_turn h TPS front n diamond readings now s)
       | FanCommand p v => let r := handle_fan_speed h p v s in (Some r.1, r.2)
       | SamplePeriod ms => let r := handle_temperature_sample_period_message ms_to_ticks ms s in (Some r.1, r.2)
       end.

(** The fan speed the Jetson last had accepted. *)
Definition requested_after (req : Z) (e : temp_event) (a : option ack) : Z :=
  match e, a with
  | FanCommand (FanLegacy | FanPercentage) v, Some ACK_SUCCESS => value_of_percentage v
  | FanCommand _ v, Some ACK_SUCCESS => v
  | _, _ => req
  end.

Fixpoint temp_run (req : Z) (s : temp_sys) (es : list temp_event) : Z * temp_sys :=
  match es with
  | [] => (req, s)
  | e :: es =>
      let r := temp_event_step s e in temp_run (requested_after req e r.1) r.2 es
  end.

Lemma event_inv req s e : Inv h req s ->
  let r := temp_event_step s e in
  Inv h (requested_after req e r.1) r.2.
Proof.
  intros I. unfold temp_event_step. destruct (rebooted s); [by destruct e as [| [] |] |].
  destruct e as [readings now | p v | ms]; cbn [fst snd requested_after].
  - by apply thermal_turn_inv.
  - unfold handle_fan_speed. pose proof I as (F & N & L). unfold FanInv in F. unfold temperature_is_in_overtemp.
    destruct (0 <? num_sensors_in_overtemp_conditions s) eqn:E; [by destruct p |].
    assert (forall w, Inv h w (set_fan (fan_set_speed_by_value h w (fan s)) s)) as A.
    { intros w. split; [| done]. unfold FanInv. cbn. rewrite E. by eapply fan_at_set. }
    destruct p; try (destruct (100 <? v)); try (destruct (UINT16_MAX <? v)); try exact I; apply A.
  - unfold handle_temperature_sample_period_message, temperature_set_sampling_period_ms.
    destruct (_ || _); exact I.
Qed.

Lemma temp_run_inv es : forall req s, Inv h req s -> let r := temp_run req s es in Inv h r.1 r.2.
Proof. induction es as [| e es IH]; intros req s I; cbn [temp_run]; [done |]. apply IH. by apply event_inv. Qed.

(** The rule of the fan: the count is right, the fan has the speed [req] or its maximum, and refuses commands while hot. *)
Definition fan_rule (req : Z) (s : temp_sys) : Prop :=
  num_sensors_in_overtemp_conditions s = over_count (sensors s) /\
  fan_at h (if 0 <? over_count (sensors s) then UINT16_MAX else req) (fan s) /\
  (0 < over_count (sensors s) -> forall p v, handle_fan_speed h p v s = (ACK_OVER_TEMPERATURE, s)).

Lemma inv_fan_rule req s : Inv h req s -> fan_rule req s.
Proof.
  intros (F & N & L). unfold fan_rule, FanInv in *. rewrite <- N. split; [done |]. split.
  - destruct (0 <? _); [apply F | exact F].
  - intros H p v. unfold handle_fan_speed, temperature_is_in_overtemp.
    btrue (0 <? num_sensors_in_overtemp_conditions s). done.
Qed.

(** The fan obeys the over-temperature rule.  Through any sequence of
    sampling turns (any readings), fan commands and period changes, the count
    of hot sensors is right; while it is not zero the fan runs enabled at full
    speed and every fan command is refused; and whenever it is zero the fan has
    the speed last accepted from the Jetson, restored after an emergency. *)
Theorem overtemp_fan_rule (es : list temp_event) : forall (req : Z) (s : temp_sys),
  Inv h req s ->
  let r := temp_run req s es in
  num_sensors_in_overtemp_conditions r.2 = over_count (sensors r.2) /\
  fan_at h (if 0 <? over_count (sensors r.2) then UINT16_MAX else r.1) (fan r.2) /\
  (0 < over_count (sensors r.2) -> forall p v, handle_fan_speed h p v r.2 = (ACK_OVER_TEMPERATURE, r.2)).
Proof. intros req s I. by apply inv_fan_rule, temp_run_inv. Qed.
End Theorems.

Section Shutdown.
Context (h : fan_hw) (TPS : Z).

#[local] Opaque inc_overtemp_condition dec_overtemp_condition.

(** Successive measurements of one sensor at the times [ts], its average
    unchanged; the device stops at a reboot. *)
Fixpoint critical_calls (ts : list Z) (x : sensor_and_channel) (s : temp_sys) : sensor_and_channel * temp_sys :=
  match ts with
  | [] => (x, s)
  | t :: ts =>
      let r := overtemp_callback h TPS t x s in
      if rebooted r.2 then (r.1.2, r.2) else critical_calls ts r.1.2 r.2
  end.

Lemma inc_keeps s :
  let s' := inc_overtemp_condition h s in
  rebooted s' = rebooted s /\ last_system_time s' = last_system_time s /\
  sample_period_ticks s' = sample_period_ticks s /\ fatal_errors s' = fatal_errors s.
Proof.
  #[local] Transparent inc_overtemp_condition.
  unfold inc_overtemp_condition, check_overtemp_conditions. destruct (_ && _); [done |]. by destruct (_ && _).
Qed.
#[local] Opaque inc_overtemp_condition.

(** One critical measurement. *)
Lemma callback_critical now x info s (T : Z) :
  cb_data x = Some info -> overtemp_c info + OVERTEMP_TO_CRITICAL_RISE_C < average x ->
  0 <= overtemp_drop_c info -> rebooted s = false ->
  (critical_update TPS now info x s).1 = T ->
  let r := overtemp_callback h TPS now x s in
  rebooted r.2 = (CRITICAL_TO_SHUTDOWN_DELAY_MS <? T) /\
  fatal_errors r.2 = (if CRITICAL_TO_SHUTDOWN_DELAY_MS <? T then fatal_errors s ++ [temperature_source x] else fatal_errors s) /\
  average r.1.2 = average x /\ temperature_source r.1.2 = temperature_source x /\
  last_system_time r.2 = now /\ sample_period_ticks r.2 = sample_period_ticks s /\
  exists info', cb_data r.1.2 = Some info' /\ overtemp_c info' = overtemp_c info /\
    overtemp_drop_c info' = overtemp_drop_c info /\ critical_timer info' = T.
Proof.
  unfold OVERTEMP_TO_CRITICAL_RISE_C. intros Ed Hc Hd Hr HT. unfold overtemp_callback. rewrite Ed.
  bfalse (average x <=? overtemp_c info). unfold OVERTEMP_TO_CRITICAL_RISE_C.
  btrue (overtemp_c info + 5 <? average x). unfold critical_update in *. cbn [fst] in HT. rewrite HT.
  cbv zeta. cbn [andb in_overtemp overtemp_c overtemp_drop_c].
  destruct (CRITICAL_TO_SHUTDOWN_DELAY_MS <? T); [cbn; repeat split; eauto |].
  change (average (set_cb_data _ (orb_state_set RET_ERROR_UNSAFE x))) with (average x).
  btrue (overtemp_c info <? average x). bfalse (average x <? overtemp_c info - overtemp_drop_c info).
  rewrite andb_false_r. rewrite andb_true_r. destruct (in_overtemp info); cbn [negb fst snd].
  - cbn. repeat split; eauto.
  - destruct (inc_keeps (set_last_time now s)) as (R & L & P & F). rewrite R, L, P, F. cbn. repeat split; eauto.
Qed.

Fixpoint increasing (l : Z) (ts : list Z) : Prop :=
  match ts with [] => True | t :: ts => l <= t /\ increasing t ts end.
Fixpoint last_time (l : Z) (ts : list Z) : Z :=
  match ts with [] => l | t :: ts => last_time t ts end.

Lemma last_time_ge ts : forall l, increasing l ts -> l <= last_time l ts.
Proof. induction ts as [| t ts IH]; intros l I; cbn in *; [lia |]. destruct I as [A B]. specialize (IH t B). lia. Qed.

(** Once the timer runs. *)
Lemma critical_calls_running ts : forall x info s l,
  cb_data x = Some info -> overtemp_c info + OVERTEMP_TO_CRITICAL_RISE_C < average x ->
  0 <= overtemp_drop_c info -> rebooted s = false -> last_system_time s = l ->
  0 < critical_timer info <= CRITICAL_TO_SHUTDOWN_DELAY_MS -> 0 < measure_period_ms TPS s <= 20000 ->
  increasing l ts -> last_time l ts - l < 2 ^ 31 ->
  let r := critical_calls ts x s in
  let total := critical_timer info + zlen ts * measure_period_ms TPS s + (last_time l ts - l) in
  rebooted r.2 = negb (bool_decide (ts = [])) && (CRITICAL_TO_SHUTDOWN_DELAY_MS <? total) /\
  fatal_errors r.2 = if rebooted r.2 then fatal_errors s ++ [temperature_source x] else fatal_errors s.
Proof.
  unfold CRITICAL_TO_SHUTDOWN_DELAY_MS.
  induction ts as [| t ts IH]; intros x info s l Ed Hc Hd Hr Hl HT HP Hi Hb; cbv zeta.
  { cbn. by rewrite Hr. }
  cbn [critical_calls increasing last_time] in *. destruct Hi as [Hlt Hi]. pose proof (last_time_ge ts t Hi) as Hge.
  set (P := measure_period_ms TPS s) in *.
  assert ((critical_update TPS t info x s).1 = critical_timer info + (t - l) + P) as HU.
  { unfold critical_update. cbn [fst]. fold P. bfalse (critical_timer info =? 0). rewrite Hl.
    rewrite (u64_small (t - l)) by lia. rewrite (u32_small (critical_timer info + _)) by lia.
    rewrite u32_small by lia. lia. }
  destruct (callback_critical t x info s _ Ed Hc Hd Hr HU) as (R & F & A & S & L & K & info' & E1 & E2 & E3 & E4).
  unfold CRITICAL_TO_SHUTDOWN_DELAY_MS in *.
  rewrite (bool_decide_false (t :: ts = [])) by done. cbn [negb andb]. rewrite zlen_cons.
  pose proof (zlen_nonneg ts) as Hz.
  destruct (Z.ltb_spec 10000 (critical_timer info + (t - l) + P)) as [Hgt | Hle]; rewrite R; cbn [fst snd].
  - rewrite R, F. split; [| done]. symmetry. apply Z.ltb_lt. nia.
  - assert (measure_period_ms TPS (overtemp_callback h TPS t x s).2 = P) as EP.
    { unfold P, measure_period_ms. by rewrite K. }
    destruct (IH _ info' (overtemp_callback h TPS t x s).2 t E1) as (R2 & F2);
      rewrite ?E2, ?E3, ?E4, ?A, ?EP; try done; try lia.
    rewrite R2, F2, R2, F, S, EP, E4. split; [| done].
    case_bool_decide as Ets; [| cbn [negb andb]; f_equal; lia].
    subst ts. cbn. rewrite zlen_nil. symmetry. apply Z.ltb_ge. lia.
Qed.
End Shutdown.

(** When a sensor that alone is critical shuts the device down.  At its
    measurements, at the times [t :: ts], the device has rebooted (and stored
    one critical-temperature event naming the sensor) exactly when the number
    of measurements times the measurement period, plus the time since the first
    one, exceeds 10 s.  Time is thus counted twice, by the period and by the
    uptime: with measurements one period apart the device shuts down after about
    half of the 10 s of CRITICAL_TO_SHUTDOWN_DELAY_MS. *)
Theorem critical_shutdown_time (h : fan_hw) (TPS : Z) (x : sensor_and_channel) (info : overtemp_info)
  (s : temp_sys) (t : Z) (ts : list Z)
  (Ed : cb_data x = Some info) (Ht : critical_timer info = 0) (Hdrop : 0 <= overtemp_drop_c info)
  (Hc : overtemp_c info + OVERTEMP_TO_CRITICAL_RISE_C < average x) (Hr : rebooted s = false)
  (HP : 0 < measure_period_ms TPS s <= CRITICAL_TO_SHUTDOWN_DELAY_MS)
  (Hts : increasing t ts) (Hspan : last_time t ts - t < 2 ^ 31) :
  let r := critical_calls h TPS (t :: ts) x s in
  rebooted r.2 = (CRITICAL_TO_SHUTDOWN_DELAY_MS <?
                  zlen (t :: ts) * measure_period_ms TPS s + (last_time t ts - t)) /\
  fatal_errors r.2 = if rebooted r.2 then fatal_errors s ++ [temperature_source x] else fatal_errors s.
Proof.
  cbv zeta. cbn [critical_calls]. unfold CRITICAL_TO_SHUTDOWN_DELAY_MS in *.
  set (P := measure_period_ms TPS s) in *.
  assert ((critical_update TPS t info x s).1 = P) as HU.
  { unfold critical_update. rewrite Ht. cbn [fst Z.eqb]. fold P. rewrite u32_small; lia. }
  destruct (callback_critical h TPS t x info s _ Ed Hc Hdrop Hr HU) as (R & F & A & S & L & K & info' & E1 & E2 & E3 & E4).
  unfold CRITICAL_TO_SHUTDOWN_DELAY_MS in *. revert R F. bfalse (10000 <? P). intros R F. rewrite R.
  assert (measure_period_ms TPS (overtemp_callback h TPS t x s).2 = P) as EP.
  { unfold P, measure_period_ms. by rewrite K. }
  destruct (critical_calls_running h TPS ts _ info' (overtemp_callback h TPS t x s).2 t E1) as (R2 & F2);
    rewrite ?E2, ?E3, ?E4, ?A, ?EP; unfold CRITICAL_TO_SHUTDOWN_DELAY_MS; try done; try lia.
  rewrite R2, F2, R2, F, S, EP, E4, zlen_cons. unfold CRITICAL_TO_SHUTDOWN_DELAY_MS. split; [| done].
  case_bool_decide as Ets; [| cbn [negb andb]; f_equal; lia].
  subst ts. cbn. rewrite zlen_nil. symmetry. apply Z.ltb_ge. lia.
Qed.

(** *** Lock-out *)

(** Successive sampling turns of one sensor: its readings, and the time. *)
Fixpoint sample_rounds (h : fan_hw) (TPS : Z) (rounds : list ((nat -> Z * Z) * Z)) (x : sensor_and_channel) (s : temp_sys)
  : sensor_and_channel * temp_sys :=
  match rounds with
  | [] => (x, s)
  | (readings, now) :: rounds =>
      let r := sample_and_report_temperature h TPS readings now x s in sample_rounds h TPS rounds r.1 r.2
  end.

Definition rejected (a : Z) (readings : nat -> Z * Z) : Prop :=
  forall k, (readings k).1 <> RET_SUCCESS \/ 8 <= Z.abs (s32 ((readings k).2 - a)).

Lemma attempts_rejected a readings : rejected a readings -> a <> TEMPERATURE_SENTINEL_VALUE ->
  forall k x, average x = a ->
  exists hist, sample_attempts k readings x = (false, set_history hist (wr_idx x) x).
Proof.
  intros Hr Ha. induction k as [| k IH]; intros x Hx; cbn [sample_attempts].
  - exists (history x). by destruct x.
  - pose proof (Hr (S k)) as Hk. destruct (readings (S k)) as [ret v]; cbn [fst snd] in Hk.
    destruct (Z.eqb_spec ret RET_SUCCESS) as [-> | Hne]; cbn [negb].
    + cbn [average set_history]. rewrite Hx. bfalse (a =? TEMPERATURE_SENTINEL_VALUE).
      destruct Hk as [Hk | Hk]; [done |]. bfalse (Z.abs (s32 (v - a)) <? 8).
      destruct (IH (set_history (<[Z.to_nat (wr_idx x) := v]> (history x)) (wr_idx x) x) Hx) as [hist ->].
      by exists hist.
    + by apply IH.
Qed.

(** A temperature that moves by 8 degrees or more from the last
    measurement locks its sensor out.  The samples are taken for outliers and
    the history is reset, but not the average they are compared with: as long
    as the readings stay that far from it, whatever they are, the sensor makes
    no measurement, its over-temperature flag and critical timer do not move,
    and neither the fan nor the shutdown reacts. *)
Theorem sensor_lockout (h : fan_hw) (TPS : Z) (rounds : list ((nat -> Z * Z) * Z)) : forall (x : sensor_and_channel) (s : temp_sys)
  (Ha : average x <> TEMPERATURE_SENTINEL_VALUE)
  (Hrej : Forall (fun r => rejected (average x) r.1) rounds),
  let r := sample_rounds h TPS rounds x s in
  average r.1 = average x /\ cb_data r.1 = cb_data x /\ r.2 = s.
Proof.
  induction rounds as [| [readings now] rounds IH]; intros x s Ha Hrej; cbn [sample_rounds]; [done |].
  apply Forall_cons in Hrej as [H0 Hrej]. cbn [fst] in H0. unfold sample_and_report_temperature.
  destruct (attempts_rejected _ _ H0 Ha TEMPERATURE_SAMPLE_RETRY_COUNT x eq_refl) as [hist ->]. cbn [negb fst snd].
  set (x1 := orb_state_set _ _). destruct (IH x1 s Ha Hrej) as (A & B & C). done.
Qed.

(** ** Concrete runs: Pearl's sensors, one measurement per second *)

Definition pearl_sensor (source limit : Z) : sensor_and_channel :=
  Sensor source (Some 0) true (Some (OvertempInfo limit OVERTEMP_TO_NOMINAL_DROP_C false 0))
    (fill 3 TEMPERATURE_SENTINEL_VALUE) 0 TEMPERATURE_SENTINEL_VALUE.
Definition pearl_start : temp_sys :=
  TempSys [pearl_sensor 1 80; pearl_sensor 2 80; pearl_sensor 3 65; pearl_sensor 4 70]
    0 0 0 (fan_init FAN_EV3) 0 3330 [] [] false.

Definition hot (_ k : nat) : Z * Z := (0, 82).
Definition demo_events : list temp_event :=
  [FanCommand FanPercentage 50; TempTurn hot 1000; TempTurn hot 1333; TempTurn hot 1666; FanCommand FanValue 0].

Lemma pearl_start_inv : Inv FAN_EV3 (value_of_percentage 1) pearl_start.
Proof. vm_compute. repeat split; discriminate. Qed.

Lemma overtemp_fan_rule_witness :
  let r := temp_run FAN_EV3 10000 (fun ms => ms * 10) (fun _ => false) 4 false (value_of_percentage 1) pearl_start demo_events in
  num_sensors_in_overtemp_conditions r.2 = 4 /\ fan_at FAN_EV3 UINT16_MAX (fan r.2).
Proof.
  destruct (overtemp_fan_rule FAN_EV3 10000 (fun ms => ms * 10) (fun _ => false) 4 false demo_events
              (value_of_percentage 1) pearl_start pearl_start_inv) as (A & B & _).
  split; [vm_compute; reflexivity | exact B].
Defined.

(** A sensor at 90 degrees with a limit of 80, measured every 1000 ms: the
    device is off after 5 seconds. *)
Definition burning : sensor_and_channel := set_average 90 (pearl_sensor 1 80).

Lemma critical_shutdown_time_witness :
  rebooted (critical_calls FAN_EV3 10000 [0; 1000; 2000; 3000; 4000] burning pearl_start).2 = false /\
  rebooted (critical_calls FAN_EV3 10000 [0; 1000; 2000; 3000; 4000; 5000] burning pearl_start).2 = true.
Proof.
  split.
  - destruct (critical_shutdown_time FAN_EV3 10000 burning (OvertempInfo 80 5 false 0) pearl_start 0 [1000; 2000; 3000; 4000])
      as (R & _); try done; rewrite R; reflexivity.
  - destruct (critical_shutdown_time FAN_EV3 10000 burning (OvertempInfo 80 5 false 0) pearl_start 0 [1000; 2000; 3000; 4000; 5000])
      as (R & _); try done; rewrite R; reflexivity.
Defined.

(** A sensor that read 30 degrees and now reads 100. *)
Lemma sensor_lockout_witness :
  let x := set_average 30 (pearl_sensor 1 80) in
  let r := sample_rounds FAN_EV3 10000 (replicate 1000 (fun _ => (0, 100), 5000)) x pearl_start in
  average r.1 = 30 /\ cb_data r.1 = cb_data x /\ r.2 = pearl_start.
Proof.
  apply (sensor_lockout FAN_EV3 10000 (replicate 1000 (fun _ => (0, 100), 5000)) (set_average 30 (pearl_sensor 1 80)) pearl_start).
  - discriminate.
  - apply Forall_replicate. intros k. right. discriminate.
Defined.
