(* ===== verification/Drv8434s.v ===== *)
(** main_board/src/optics/polarizer_wheel/drv8434s: the driver of the polarizer
    wheel's stepper motor controller, DRV8434S, over SPI.

    drv8434s.c (operations) and drv8434s_private.c (register frames).  The driver
    keeps a shadow of the chip's registers, filled by reads only.  The chip and
    its bus are a parameter: [xfer] is one SPI transfer of two bytes.
    [ChipLaws] is what the data sheet says of it: a write frame sets the register
    it addresses, a read frame returns it; [ideal_chip] is an instance. *)

From S2P Require Import Prelude.

(** ** Registers: drv8434s_registers.h, drv8434s_defines.h *)

Inductive drv_reg :=
| FAULT | DIAGSTATUS1 | DIAGSTATUS2 | CTRL1 | CTRL2 | CTRL3 | CTRL4 | CTRL5 | CTRL6 | CTRL7 | CTRL8 | CTRL9.

#[export] Instance drv_reg_eq_dec : EqDecision drv_reg.
Proof. solve_decision. Defined.

Definition reg_addr (r : drv_reg) : Z :=
  match r with
  | FAULT => 0x00 | DIAGSTATUS1 => 0x01 | DIAGSTATUS2 => 0x02 | CTRL1 => 0x03 | CTRL2 => 0x04
  | CTRL3 => 0x05 | CTRL4 => 0x06 | CTRL5 => 0x07 | CTRL6 => 0x08 | CTRL7 => 0x09 | CTRL8 => 0x0A
  | CTRL9 => 0x0B
  end.

Definition all_regs : list drv_reg :=
  [FAULT; DIAGSTATUS1; DIAGSTATUS2; CTRL1; CTRL2; CTRL3; CTRL4; CTRL5; CTRL6; CTRL7; CTRL8; CTRL9].

(** [switch (address)]. *)
Definition reg_of_addr (a : Z) : option drv_reg := find (fun r => reg_addr r =? a) all_regs.

(** [validate_register_operation]. *)
Definition validate_register_operation (address : Z) (write : bool) : bool :=
  match reg_of_addr address with
  | Some (CTRL1 | CTRL2 | CTRL3 | CTRL4 | CTRL5 | CTRL6 | CTRL7) => true
  | Some (FAULT | DIAGSTATUS1 | DIAGSTATUS2 | CTRL8 | CTRL9) => negb write
  | None => false
  end.

(** Bit fields, from the least significant bit. *)
Definition EN_OUT : Z := 7.
Definition CLR_FLT : Z := 7.
Definition EN_STL : Z := 4.
Definition assign_bit (i : Z) (b : bool) (raw : Z) : Z := if b then Z.setbit raw i else Z.clearbit raw i.
Definition set_TRQ_DAC (v raw : Z) : Z := Z.lor (Z.land raw 15) (Z.shiftl (Z.land v 15) 4).
Definition set_LOCK (v raw : Z) : Z := Z.lor (Z.land raw 143) (Z.shiftl (Z.land v 7) 4).
Definition LOCK : Z := 6.
Definition UNLOCK : Z := 3.

(** ** Frames *)

Definition SPI_TX_ADDRESS_START_POS : Z := 9.
Definition SPI_TX_RW_START_POS : Z := 14.

Definition tx_bytes (tx_word : Z) : bytes := [Z.land (Z.shiftr tx_word 8) 255; Z.land tx_word 255].

Definition read_frame (address : Z) : bytes :=
  tx_bytes (Z.lor (u16 (Z.shiftl address SPI_TX_ADDRESS_START_POS)) (u16 (Z.shiftl 1 SPI_TX_RW_START_POS))).
Definition write_frame (address data : Z) : bytes :=
  tx_bytes (Z.lor (u16 (Z.shiftl address SPI_TX_ADDRESS_START_POS)) data).

(** What the chip reads in a frame: read or write, register address, data. *)
Definition decode_frame (tx : bytes) : bool * Z * Z :=
  let word := 256 * nthZ tx 0 + nthZ tx 1 in
  (Z.testbit word SPI_TX_RW_START_POS, Z.land (Z.shiftr word SPI_TX_ADDRESS_START_POS) 31, Z.land word 255).

(** ** State *)

(** [DRV8434S_DeviceCfg_t]. *)
Record device_cfg_t := DeviceCfg { cfg_ctrl2 : Z; cfg_ctrl3 : Z; cfg_ctrl4 : Z; cfg_ctrl7 : Z }.

(** [DRV8434S_Instance_t] and the frames sent, oldest first. *)
Record drv := Drv { device_cfg : device_cfg_t; registers : drv_reg -> Z; frames : list bytes }.

Definition set_shadow (r : drv_reg) (v : Z) (d : drv) : drv :=
  Drv (device_cfg d) (fun q => if decide (q = r) then v else registers d q) (frames d).
Definition add_frame (tx : bytes) (d : drv) : drv := Drv (device_cfg d) (registers d) (frames d ++ [tx]).
Definition set_device_cfg (c : device_cfg_t) (d : drv) : drv := Drv c (registers d) (frames d).

(** [drv8434s_init]: the instance wiped. *)
Definition drv8434s_init : Z * drv := (RET_SUCCESS, Drv (DeviceCfg 0 0 0 0) (fun _ => 0) []).

(** The configuration of polarizer_wheel_init. *)
Definition polarizer_cfg : device_cfg_t := DeviceCfg 0x07 0x09 (set_LOCK UNLOCK 0) 0x20.

Section Drv.
(** One transfer: what the chip is afterwards, the driver's return code and the
    bytes received. *)
Context {chip : Type} (xfer : bytes -> chip -> Z * bytes * chip).

Definition sys : Type := drv * chip.

(** The shadow of the register at [address]. *)
Definition populate_shadow_register (address data : Z) (d : drv) : drv :=
  match reg_of_addr address with Some r => set_shadow r data d | None => d end.

Definition drv8434s_private_reg_read (address : Z) (s : sys) : Z * sys :=
  if negb (validate_register_operation address false) then (RET_ERROR_INVALID_ADDR, s)
  else
    let tx := read_frame address in
    let '(ret, rx, c) := xfer tx s.2 in
    let d := add_frame tx s.1 in
    if negb (ret =? 0) then (RET_ERROR_BUSY, (d, c))
    else (RET_SUCCESS, (populate_shadow_register address (nthZ rx 1) (set_shadow FAULT (nthZ rx 0) d), c)).

Definition drv8434s_private_reg_write (address data : Z) (s : sys) : Z * sys :=
  if negb (validate_register_operation address true) then (RET_ERROR_INVALID_ADDR, s)
  else
    let tx := write_frame address data in
    let '(ret, rx, c) := xfer tx s.2 in
    let d := add_frame tx s.1 in
    if negb (ret =? 0) then (RET_ERROR_BUSY, (d, c))
    else (RET_SUCCESS, (set_shadow FAULT (nthZ rx 0) d, c)).

Definition reg_write (r : drv_reg) (data : Z) (s : sys) : Z * sys :=
  drv8434s_private_reg_write (reg_addr r) data s.

Definition drv8434s_disable (s : sys) : Z * sys := reg_write CTRL2 (assign_bit EN_OUT false (registers s.1 CTRL2)) s.
Definition drv8434s_enable (s : sys) : Z * sys := reg_write CTRL2 (assign_bit EN_OUT true (registers s.1 CTRL2)) s.
Definition drv8434s_clear_fault (s : sys) : Z * sys := reg_write CTRL4 (assign_bit CLR_FLT true (registers s.1 CTRL4)) s.
Definition drv8434s_unlock_control_registers (s : sys) : Z * sys := reg_write CTRL4 (set_LOCK UNLOCK (registers s.1 CTRL4)) s.
Definition drv8434s_lock_control_registers (s : sys) : Z * sys := reg_write CTRL4 (set_LOCK LOCK (registers s.1 CTRL4)) s.
Definition drv8434s_enable_stall_guard (s : sys) : Z * sys := reg_write CTRL5 (assign_bit EN_STL true (registers s.1 CTRL5)) s.
Definition drv8434s_scale_current (current : Z) (s : sys) : Z * sys := reg_write CTRL1 (set_TRQ_DAC current (registers s.1 CTRL1)) s.

(** Calls in order, up to the first error. *)
Fixpoint run_ops (ops : list (sys -> Z * sys)) (s : sys) : Z * sys :=
  match ops with
  | [] => (RET_SUCCESS, s)
  | op :: ops => let '(ret, s) := op s in if negb (ret =? 0) then (ret, s) else run_ops ops s
  end.

Definition drv8434s_write_config (cfg : device_cfg_t) (s : sys) : Z * sys :=
  run_ops [reg_write CTRL4 (cfg_ctrl4 cfg); reg_write CTRL2 (cfg_ctrl2 cfg);
           reg_write CTRL3 (cfg_ctrl3 cfg); reg_write CTRL7 (cfg_ctrl7 cfg)]
    (set_device_cfg cfg s.1, s.2).

Definition drv8434s_read_config (s : sys) : Z * sys :=
  run_ops [drv8434s_private_reg_read (reg_addr CTRL2); drv8434s_private_reg_read (reg_addr CTRL3);
           drv8434s_private_reg_read (reg_addr CTRL4); drv8434s_private_reg_read (reg_addr CTRL7)] s.

Definition drv8434s_verify_config (s : sys) : Z :=
  let c := device_cfg s.1 in
  let q := registers s.1 in
  if (cfg_ctrl2 c =? q CTRL2) && (cfg_ctrl3 c =? q CTRL3) && (cfg_ctrl4 c =? q CTRL4) &&
     (cfg_ctrl7 c =? q CTRL7) then RET_SUCCESS else RET_ERROR_INTERNAL.

(** One attempt of polarizer_wheel_init. *)
Definition configure (cfg : device_cfg_t) (s : sys) : Z * sys :=
  run_ops [drv8434s_clear_fault; drv8434s_write_config cfg; drv8434s_read_config;
           fun s => (drv8434s_verify_config s, s)] s.
End Drv.

(** ** Frames decode to what they were built from *)

Definition control_reg (r : drv_reg) : bool := validate_register_operation (reg_addr r) true.

Lemma reg_of_addr_addr r : reg_of_addr (reg_addr r) = Some r.
Proof. by destruct r. Qed.

Lemma decode_write_frame r d : 0 <= d < 256 -> decode_frame (write_frame (reg_addr r) d) = (false, reg_addr r, d).
Proof.
  intros Hd.
  assert (all_below 256 (fun d => forallb (fun r =>
    bool_decide (decode_frame (write_frame (reg_addr r) d) = (false, reg_addr r, d))) all_regs) = true) as H
    by (vm_compute; reflexivity).
  pose proof (all_below_spec _ _ H d Hd) as Hr. rewrite forallb_forall in Hr.
  eapply bool_decide_eq_true_1, Hr. destruct r; cbn; tauto.
Qed.

Lemma decode_read_frame r : decode_frame (read_frame (reg_addr r)) = (true, reg_addr r, 0).
Proof. by destruct r. Qed.

(** Two bytes, addressing a register of the chip; a write addresses a control
    register. *)
Definition frame_ok (tx : bytes) : Prop :=
  length tx = 2%nat /\ Forall is_byte tx /\
  exists rw r d, decode_frame tx = (rw, reg_addr r, d) /\ (rw = false -> control_reg r = true).

Definition byte_range (v : Z) : Prop := 0 <= v < 256.

Record drv_ok (d : drv) : Prop := {
  do_registers : forall r, byte_range (registers d r);
  do_cfg : byte_range (cfg_ctrl2 (device_cfg d)) /\ byte_range (cfg_ctrl3 (device_cfg d)) /\
           byte_range (cfg_ctrl4 (device_cfg d)) /\ byte_range (cfg_ctrl7 (device_cfg d));
  do_frames : Forall frame_ok (frames d);
}.

Definition cfg_ok (c : device_cfg_t) : Prop :=
  byte_range (cfg_ctrl2 c) /\ byte_range (cfg_ctrl3 c) /\ byte_range (cfg_ctrl4 c) /\ byte_range (cfg_ctrl7 c).

(** The bit-field updates stay in a byte, for every byte. *)
Lemma fields_in_byte raw : byte_range raw ->
  (forall i b, 0 <= i < 8 -> byte_range (assign_bit i b raw)) /\
  (forall v, byte_range (set_TRQ_DAC v raw)) /\ (forall v, byte_range (set_LOCK v raw)).
Proof.
  intros Hr. unfold byte_range in *.
  assert (forall z, 0 <= z -> (forall i, 8 <= i -> Z.testbit z i = false) -> 0 <= z < 256) as Hb.
  { intros z Hz Ht. split; [done |]. destruct (Z.eq_dec z 0) as [->|]; [lia |].
    apply Z.log2_lt_pow2 with (b := 8); [lia |].
    destruct (Z.lt_ge_cases (Z.log2 z) 8); [done |].
    pose proof (Z.bit_log2 z ltac:(lia)) as Hl. rewrite Ht in Hl by lia. done. }
  assert (forall i, 8 <= i -> Z.testbit raw i = false) as Ht.
  { intros i Hi. destruct (Z.eq_dec raw 0) as [->|]; [apply Z.bits_0 |].
    apply Z.bits_above_log2; [lia |]. apply Z.log2_lt_pow2; [lia |].
    pose proof (Z.pow_le_mono_r 2 8 i). lia. }
  assert (forall m v i, 0 <= m < 16 -> 8 <= i -> Z.testbit (Z.shiftl (Z.land v m) 4) i = false) as Hs.
  { intros m v i Hm Hi. rewrite Z.shiftl_spec, Z.land_spec by lia.
    replace (Z.testbit m (i - 4)) with false; [apply andb_false_r |]. symmetry.
    destruct (Z.eq_dec m 0) as [->|]; [apply Z.bits_0 |].
    apply Z.bits_above_log2; [lia |]. apply Z.log2_lt_pow2; [lia |].
    pose proof (Z.pow_le_mono_r 2 4 (i - 4)). lia. }
  split_and!.
  - intros i b Hi. apply Hb.
    + destruct b; cbn [assign_bit]; unfold Z.setbit, Z.clearbit;
        [apply Z.lor_nonneg | apply Z.ldiff_nonneg; left]; [split |]; try lia. apply Z.shiftl_nonneg. lia.
    + intros j Hj. destruct b; cbn [assign_bit].
      * rewrite Z.setbit_eqb by lia. rewrite Ht by done. destruct (Z.eqb_spec i j); [lia | done].
      * rewrite Z.clearbit_eqb. by rewrite Ht.
  - intros v. apply Hb.
    + apply Z.lor_nonneg. split; [apply Z.land_nonneg; lia |]. apply Z.shiftl_nonneg, Z.land_nonneg. lia.
    + intros j Hj. unfold set_TRQ_DAC. rewrite Z.lor_spec, Z.land_spec, Ht, Hs by lia. done.
  - intros v. apply Hb.
    + apply Z.lor_nonneg. split; [apply Z.land_nonneg; lia |]. apply Z.shiftl_nonneg, Z.land_nonneg. lia.
    + intros j Hj. unfold set_LOCK. rewrite Z.lor_spec, Z.land_spec, Ht, Hs by lia. done.
Qed.

(** ** The chip *)

(** [reg c r] is the chip's register; DRV8434S data sheet: a write sets the
    register addressed (the fault-clearing bit of CTRL4 clears itself) and no
    other control register, a read returns the register in the second byte and
    changes none. *)
Class ChipLaws {chip : Type} (xfer : bytes -> chip -> Z * bytes * chip) (reg : chip -> drv_reg -> Z) : Prop := {
  xfer_bytes tx c : byte_range (nthZ (xfer tx c).1.2 0) /\ byte_range (nthZ (xfer tx c).1.2 1);
  xfer_write tx c r d : decode_frame tx = (false, reg_addr r, d) -> control_reg r = true ->
    (xfer tx c).1.1 = 0 -> forall q, control_reg q = true ->
    reg (xfer tx c).2 q =
      if decide (q = r) then (if decide (r = CTRL4) then assign_bit CLR_FLT false d else d) else reg c q;
  xfer_read tx c r d : decode_frame tx = (true, reg_addr r, d) -> (xfer tx c).1.1 = 0 ->
    nthZ (xfer tx c).1.2 1 = reg c r /\ forall q, control_reg q = true -> reg (xfer tx c).2 q = reg c q;
}.

(** A chip whose registers are a function, on a bus that never fails. *)
Definition ideal_xfer (tx : bytes) (c : drv_reg -> Z) : Z * bytes * (drv_reg -> Z) :=
  let '(rw, a, d) := decode_frame tx in
  match reg_of_addr a with
  | Some r =>
      if (rw : bool) then (0, [0; Z.land (c r) 255], c)
      else (0, [0; 0], fun q => if decide (q = r) then (if decide (r = CTRL4) then assign_bit CLR_FLT false d else d) else c q)
  | None => (0, [0; 0], c)
  end.
Definition ideal_reg (c : drv_reg -> Z) (r : drv_reg) : Z := Z.land (c r) 255.

Lemma decode_byte tx rw a d : decode_frame tx = (rw, a, d) -> Z.land d 255 = d.
Proof. intros [= _ _ <-]. rewrite <- Z.land_assoc. reflexivity. Qed.

#[export] Instance ideal_chip : ChipLaws ideal_xfer ideal_reg.
Proof.
  assert (forall z, byte_range (Z.land z 255)) as Hb.
  { intros z. unfold byte_range. change 255 with (Z.ones 8). rewrite Z.land_ones by lia.
    apply Z.mod_pos_bound. lia. }
  split.
  - intros tx c. unfold ideal_xfer. destruct (decode_frame tx) as [[rw a] d].
    destruct (reg_of_addr a); [destruct rw |]; cbn [fst snd nthZ]; (split; [done |]); try done. apply Hb.
  - intros tx c r d E Hr _ q Hq. unfold ideal_xfer, ideal_reg. rewrite E, reg_of_addr_addr. cbn [snd].
    destruct (decide (q = r)); [| done]. pose proof (decode_byte _ _ _ _ E) as Hd.
    destruct (decide (r = CTRL4)); [| done]. cbn [assign_bit]. rewrite <- Hd at 2. unfold Z.clearbit.
    rewrite <- Hd at 1. apply Z.bits_inj'. intros n Hn. rewrite !Z.land_spec, !Z.ldiff_spec, !Z.land_spec.
    by destruct (Z.testbit d n), (Z.testbit 255 n), (Z.testbit (Z.shiftl 1 CLR_FLT) n).
  - intros tx c r d E _. unfold ideal_xfer. rewrite E, reg_of_addr_addr. by split.
Qed.

Section Laws.
Context {chip : Type} (xfer : bytes -> chip -> Z * bytes * chip) (reg : chip -> drv_reg -> Z)
  `{!ChipLaws xfer reg}.

(** A successful write. *)
Lemma reg_write_ok r v s s' : control_reg r = true -> byte_range v -> reg_write xfer r v s = (RET_SUCCESS, s') ->
  device_cfg s'.1 = device_cfg s.1 /\ (forall q, q <> FAULT -> registers s'.1 q = registers s.1 q) /\
  (forall q, control_reg q = true -> reg s'.2 q =
     if decide (q = r) then (if decide (r = CTRL4) then assign_bit CLR_FLT false v else v) else reg s.2 q).
Proof.
  intros Hr Hv. unfold reg_write, drv8434s_private_reg_write. fold (control_reg r). rewrite Hr. cbn [negb].
  pose proof (xfer_write (write_frame (reg_addr r) v) s.2 r v (decode_write_frame r v Hv) Hr) as H.
  destruct (xfer (write_frame (reg_addr r) v) s.2) as [[ret rx] c]. cbn [fst snd] in H.
  destruct (Z.eqb_spec ret 0); cbn [negb]; [| done]. intros [= <-]. cbn.
  split_and!; [done | | by apply H]. intros q Hq. by rewrite decide_False.
Qed.

(** A successful read. *)
Lemma reg_read_ok r s s' : r <> FAULT -> drv8434s_private_reg_read xfer (reg_addr r) s = (RET_SUCCESS, s') ->
  device_cfg s'.1 = device_cfg s.1 /\ registers s'.1 r = reg s.2 r /\
  (forall q, q <> FAULT -> q <> r -> registers s'.1 q = registers s.1 q) /\
  (forall q, control_reg q = true -> reg s'.2 q = reg s.2 q).
Proof.
  intros Hr. unfold drv8434s_private_reg_read.
  assert (validate_register_operation (reg_addr r) false = true) as -> by (by destruct r). cbn [negb].
  pose proof (xfer_read (read_frame (reg_addr r)) s.2 r 0 (decode_read_frame r)) as H.
  destruct (xfer (read_frame (reg_addr r)) s.2) as [[ret rx] c]. cbn [fst snd] in H.
  destruct (Z.eqb_spec ret 0) as [E|]; cbn [negb]; [| done]. destruct (H E) as [H1 H2]. intros [= <-].
  unfold populate_shadow_register. rewrite reg_of_addr_addr. cbn.
  split_and!; [done | by rewrite decide_True | | exact H2].
  intros q Hq Hqr. by rewrite !decide_False.
Qed.

Lemma run_ops_cons op ops (s s' : sys) : run_ops (chip := chip) (op :: ops) s = (RET_SUCCESS, s') ->
  exists s1, op s = (RET_SUCCESS, s1) /\ run_ops ops s1 = (RET_SUCCESS, s').
Proof.
  cbn [run_ops]. destruct (op s) as [ret s1]. destruct (Z.eqb_spec ret 0) as [->|]; cbn [negb]; [eauto |].
  by intros [= -> ->].
Qed.

(** The chip holds the configuration. *)
Definition configured (cfg : device_cfg_t) (c : chip) : Prop :=
  reg c CTRL2 = cfg_ctrl2 cfg /\ reg c CTRL3 = cfg_ctrl3 cfg /\ reg c CTRL4 = cfg_ctrl4 cfg /\
  reg c CTRL7 = cfg_ctrl7 cfg.

Lemma reg_write_cfg r v s : device_cfg (reg_write xfer r v s).2.1 = device_cfg s.1.
Proof.
  unfold reg_write, drv8434s_private_reg_write. case_match; [done |].
  destruct (xfer _ _) as [[ret rx] c]. by case_match.
Qed.

Lemma write_config_cfg cfg s s' : drv8434s_write_config xfer cfg s = (RET_SUCCESS, s') -> device_cfg s'.1 = cfg.
Proof.
  unfold drv8434s_write_config.
  intros (s1 & E1 & (s2 & E2 & (s3 & E3 & (s4 & E4 & [= <-])%run_ops_cons)%run_ops_cons)%run_ops_cons)%run_ops_cons.
  pose proof (reg_write_cfg CTRL4 (cfg_ctrl4 cfg) (set_device_cfg cfg s.1, s.2)) as H1. rewrite E1 in H1.
  pose proof (reg_write_cfg CTRL2 (cfg_ctrl2 cfg) s1) as H2. rewrite E2 in H2.
  pose proof (reg_write_cfg CTRL3 (cfg_ctrl3 cfg) s2) as H3. rewrite E3 in H3.
  pose proof (reg_write_cfg CTRL7 (cfg_ctrl7 cfg) s3) as H4. rewrite E4 in H4.
  cbn in *. congruence.
Qed.

Lemma read_config_shadow s s' : drv8434s_read_config xfer s = (RET_SUCCESS, s') ->
  device_cfg s'.1 = device_cfg s.1 /\
  (forall q, q = CTRL2 \/ q = CTRL3 \/ q = CTRL4 \/ q = CTRL7 -> registers s'.1 q = reg s'.2 q).
Proof.
  unfold drv8434s_read_config.
  intros (s1 & E1 & (s2 & E2 & (s3 & E3 & (s4 & E4 & [= <-])%run_ops_cons)%run_ops_cons)%run_ops_cons)%run_ops_cons.
  apply reg_read_ok in E1 as (C1 & V1 & _ & R1); [| done].
  apply reg_read_ok in E2 as (C2 & V2 & K2 & R2); [| done].
  apply reg_read_ok in E3 as (C3 & V3 & K3 & R3); [| done].
  apply reg_read_ok in E4 as (C4 & V4 & K4 & R4); [| done].
  split; [congruence |]. intros q [-> | [-> | [-> | ->]]].
  - rewrite K4, K3, K2, V1, R4, R3, R2, R1 by done. done.
  - rewrite K4, K3, V2, R4, R3, R2 by done. done.
  - rewrite K4, V3, R4, R3 by done. done.
  - rewrite V4, R4 by done. done.
Qed.

(** A configuration that succeeds is in the chip, and CTRL2 in the shadow. *)
Lemma configure_ok cfg s s' : configure xfer cfg s = (RET_SUCCESS, s') ->
  configured cfg s'.2 /\ registers s'.1 CTRL2 = cfg_ctrl2 cfg.
Proof.
  unfold configure.
  intros (s1 & _ & (s2 & E2 & (s3 & E3 & (s4 & E4 & [= <-])%run_ops_cons)%run_ops_cons)%run_ops_cons)%run_ops_cons.
  injection E4 as Ev <-. apply write_config_cfg in E2. apply read_config_shadow in E3 as [Ec Er].
  unfold drv8434s_verify_config in Ev. rewrite Ec, E2 in Ev.
  destruct (Z.eqb_spec (cfg_ctrl2 cfg) (registers s3.1 CTRL2)) as [F2|]; [| done].
  destruct (Z.eqb_spec (cfg_ctrl3 cfg) (registers s3.1 CTRL3)) as [F3|]; [| done].
  destruct (Z.eqb_spec (cfg_ctrl4 cfg) (registers s3.1 CTRL4)) as [F4|]; [| done].
  destruct (Z.eqb_spec (cfg_ctrl7 cfg) (registers s3.1 CTRL7)) as [F7|]; [| done].
  unfold configured. rewrite F2, F3, F4, F7, !Er by tauto. done.
Qed.
End Laws.

(** The motor's configuration.  For every chip that follows its data sheet: if
    an attempt to configure it succeeds (fault cleared, registers written, read
    back and compared), the chip holds the configuration, and from then on turning
    the outputs on and changing the motor's current keeps it: CTRL2 is the
    configured value with only the output bit set, CTRL3 (microsteps), CTRL4 and
    CTRL7 are as configured, and CTRL1 holds the current asked for. *)
Theorem configuration_kept {chip} (xfer : bytes -> chip -> Z * bytes * chip) reg `{!ChipLaws xfer reg}
  cfg v s s1 s2 s3 :
  cfg_ok cfg -> 0 <= v < 16 -> byte_range (registers s1.1 CTRL1) ->
  configure xfer cfg s = (RET_SUCCESS, s1) -> drv8434s_enable xfer s1 = (RET_SUCCESS, s2) ->
  drv8434s_scale_current xfer v s2 = (RET_SUCCESS, s3) ->
  configured reg cfg s1.2 /\
  reg s3.2 CTRL2 = Z.setbit (cfg_ctrl2 cfg) EN_OUT /\ reg s3.2 CTRL3 = cfg_ctrl3 cfg /\
  reg s3.2 CTRL4 = cfg_ctrl4 cfg /\ reg s3.2 CTRL7 = cfg_ctrl7 cfg /\ Z.shiftr (reg s3.2 CTRL1) 4 = v.
Proof.
  intros (B2 & _) Hv B1 E1 E2 E3.
  destruct (configure_ok xfer reg cfg s s1 E1) as [(C2 & C3 & C4 & C7) Sh].
  destruct (fields_in_byte (registers s1.1 CTRL2)) as [Fb _]; [by rewrite Sh |].
  unfold drv8434s_enable in E2. apply (reg_write_ok xfer reg) in E2 as (_ & K2 & R2); [| done | apply Fb; done].
  unfold drv8434s_scale_current in E3. rewrite K2 in E3 by done.
  apply (reg_write_ok xfer reg) in E3 as (_ & _ & R3); [| done | by apply fields_in_byte].
  rewrite !R3 by done. cbn [decide]. rewrite !R2 by done.
  split; [by repeat split |]. rewrite Sh. split_and!; try done.
  change (Z.shiftr (set_TRQ_DAC v (registers s1.1 CTRL1)) 4 = v).
  unfold set_TRQ_DAC. rewrite Z.shiftr_lor, Z.shiftr_land, Z.shiftr_shiftl_l by lia.
  change (Z.shiftr 15 4) with 0. rewrite Z.land_0_r, Z.lor_0_l. cbn [Z.sub Z.opp Z.add].
  change 15 with (Z.ones 4). rewrite Z.land_ones by lia. change (2 ^ 4) with 16. rewrite Z.mod_small by lia.
  by rewrite Z.shiftl_0_r.
Qed.

Lemma configuration_kept_witness :
  exists s1 s2 s3, configure ideal_xfer polarizer_cfg (drv8434s_init.2, fun _ => 0) = (RET_SUCCESS, s1) /\
    drv8434s_enable ideal_xfer s1 = (RET_SUCCESS, s2) /\ drv8434s_scale_current ideal_xfer 12 s2 = (RET_SUCCESS, s3) /\
    ideal_reg s3.2 CTRL2 = 0x87.
Proof.
  assert (forall p : Z * (drv * (drv_reg -> Z)), p.1 = RET_SUCCESS -> p = (RET_SUCCESS, p.2)) as Hp
    by (intros [x y]; cbn; intros ->; reflexivity).
  pose (s1 := (configure ideal_xfer polarizer_cfg (drv8434s_init.2, fun _ => 0)).2).
  pose (s2 := (drv8434s_enable ideal_xfer s1).2). pose (s3 := (drv8434s_scale_current ideal_xfer 12 s2).2).
  assert (configure ideal_xfer polarizer_cfg (drv8434s_init.2, fun _ => 0) = (RET_SUCCESS, s1)) as E1
    by (apply Hp; vm_compute; reflexivity).
  assert (drv8434s_enable ideal_xfer s1 = (RET_SUCCESS, s2)) as E2 by (apply Hp; vm_compute; reflexivity).
  assert (drv8434s_scale_current ideal_xfer 12 s2 = (RET_SUCCESS, s3)) as E3 by (apply Hp; vm_compute; reflexivity).
  exists s1, s2, s3. split; [exact E1 |]. split; [exact E2 |]. split; [exact E3 |].
  refine (eq_trans (proj1 (proj2 (configuration_kept ideal_xfer ideal_reg polarizer_cfg 12
    (drv8434s_init.2, fun _ => 0) s1 s2 s3 _ _ _ E1 E2 E3))) _).
  - repeat split; vm_compute; intuition discriminate.
  - lia.
  - vm_compute. intuition discriminate.
  - vm_compute. reflexivity.
Defined.

(** ** Every frame is well formed *)

(** The driver's calls. *)
Inductive drv_op :=
| OpDisable | OpEnable | OpClearFault | OpUnlock | OpLock | OpStallGuard | OpScaleCurrent (current : Z)
| OpWriteConfig (cfg : device_cfg_t) | OpReadConfig.

Definition drv_op_ok (op : drv_op) : Prop :=
  match op with OpWriteConfig cfg => cfg_ok cfg | _ => True end.

Definition run_op {chip} (xfer : bytes -> chip -> Z * bytes * chip) (op : drv_op) (s : sys) : Z * sys :=
  match op with
  | OpDisable => drv8434s_disable xfer s
  | OpEnable => drv8434s_enable xfer s
  | OpClearFault => drv8434s_clear_fault xfer s
  | OpUnlock => drv8434s_unlock_control_registers xfer s
  | OpLock => drv8434s_lock_control_registers xfer s
  | OpStallGuard => drv8434s_enable_stall_guard xfer s
  | OpScaleCurrent v => drv8434s_scale_current xfer v s
  | OpWriteConfig cfg => drv8434s_write_config xfer cfg s
  | OpReadConfig => drv8434s_read_config xfer s
  end.

Lemma tx_bytes_ok word : 0 <= word -> length (tx_bytes word) = 2%nat /\ Forall is_byte (tx_bytes word).
Proof.
  intros H. split; [done |]. unfold is_byte. change 255 with (Z.ones 8).
  repeat constructor; unfold tx_bytes; change 255 with (Z.ones 8); rewrite Z.land_ones by lia;
    apply Z.mod_pos_bound; lia.
Qed.

Section Typed.
Context {chip : Type} (xfer : bytes -> chip -> Z * bytes * chip).
Hypothesis Hx : forall tx c, byte_range (nthZ (xfer tx c).1.2 0) /\ byte_range (nthZ (xfer tx c).1.2 1).

Lemma set_shadow_ok r v d : drv_ok d -> byte_range v -> drv_ok (set_shadow r v d).
Proof. intros [H1 H2 H3] Hv. split; try done. intros q. cbn. destruct (decide (q = r)); [done | apply H1]. Qed.

Lemma add_frame_ok tx d : drv_ok d -> frame_ok tx -> drv_ok (add_frame tx d).
Proof. intros [] Ht. split; try done. by apply Forall_app_2; [| constructor]. Qed.

Lemma write_frame_ok r v : control_reg r = true -> byte_range v -> frame_ok (write_frame (reg_addr r) v).
Proof.
  intros Hr Hv. destruct (tx_bytes_ok (Z.lor (u16 (Z.shiftl (reg_addr r) SPI_TX_ADDRESS_START_POS)) v)) as [L F].
  { apply Z.lor_nonneg. pose proof (u16_range (Z.shiftl (reg_addr r) SPI_TX_ADDRESS_START_POS)).
    unfold byte_range in Hv. lia. }
  split_and!; [done | done |]. eexists false, r, v. split; [by apply decode_write_frame | done].
Qed.

Lemma read_frame_ok r : frame_ok (read_frame (reg_addr r)).
Proof.
  split_and!; [done | by destruct r; repeat constructor |].
  eexists true, r, 0. split; [apply decode_read_frame | done].
Qed.

Lemma reg_write_typed r v s : control_reg r = true -> byte_range v -> drv_ok s.1 -> drv_ok (reg_write xfer r v s).2.1.
Proof.
  intros Hr Hv Hs. unfold reg_write, drv8434s_private_reg_write. fold (control_reg r). rewrite Hr. cbn [negb].
  destruct (Hx (write_frame (reg_addr r) v) s.2) as [H0 _].
  destruct (xfer (write_frame (reg_addr r) v) s.2) as [[ret rx] c]. cbn [fst snd] in H0.
  pose proof (add_frame_ok _ _ Hs (write_frame_ok r v Hr Hv)).
  case_match; cbn [fst snd]; [done | by apply set_shadow_ok].
Qed.

Lemma reg_read_typed r s : drv_ok s.1 -> drv_ok (drv8434s_private_reg_read xfer (reg_addr r) s).2.1.
Proof.
  intros Hs. unfold drv8434s_private_reg_read. case_match; [done |].
  destruct (Hx (read_frame (reg_addr r)) s.2) as [H0 H1].
  destruct (xfer (read_frame (reg_addr r)) s.2) as [[ret rx] c]. cbn [fst snd] in H0, H1.
  pose proof (add_frame_ok _ _ Hs (read_frame_ok r)).
  case_match; cbn [fst snd]; [done |]. unfold populate_shadow_register. rewrite reg_of_addr_addr.
  by repeat apply set_shadow_ok.
Qed.

Lemma run_ops_typed (ops : list (sys -> Z * sys)) : (forall op s, op ∈ ops -> drv_ok s.1 -> drv_ok (op s).2.1) ->
  forall s : sys (chip := chip), drv_ok s.1 -> drv_ok (run_ops ops s).2.1.
Proof.
  induction ops as [|op ops IH]; intros Ho s Hs; [done |]. cbn [run_ops].
  pose proof (Ho op s ltac:(by left) Hs) as H1. destruct (op s) as [ret s1]. cbn [fst snd] in H1.
  case_match; [done |]. apply IH; [| done]. intros op' s' Hin. apply Ho. by right.
Qed.

Lemma run_op_typed op s : drv_op_ok op -> drv_ok s.1 -> drv_ok (run_op xfer op s).2.1.
Proof.
  intros Hop Hs. pose proof (fun r => fields_in_byte (registers s.1 r) (do_registers _ Hs r)) as Hf.
  destruct op; cbn [run_op];
    try (apply reg_write_typed; [done | apply Hf; done | done]).
  - destruct Hop as (C2 & C3 & C4 & C7). apply run_ops_typed.
    + intros op v Hin. rewrite !elem_of_cons, elem_of_nil in Hin.
      destruct Hin as [-> | [-> | [-> | [-> | []]]]]; by apply reg_write_typed.
    + destruct Hs. by split.
  - apply run_ops_typed; [| done]. intros op v Hin. rewrite !elem_of_cons, elem_of_nil in Hin.
    destruct Hin as [-> | [-> | [-> | [-> | []]]]]; apply reg_read_typed.
Qed.
End Typed.

(** The driver's frames are well formed, whatever the chip answers: after any
    sequence of calls every frame sent is two bytes that decode to a register of
    the chip, writes address the seven control registers only, and the shadow
    registers hold bytes. *)
Theorem drv_frames_typed {chip} (xfer : bytes -> chip -> Z * bytes * chip) ops c :
  (forall tx c, byte_range (nthZ (xfer tx c).1.2 0) /\ byte_range (nthZ (xfer tx c).1.2 1)) ->
  Forall drv_op_ok ops ->
  drv_ok (foldl (fun s op => (run_op xfer op s).2) (drv8434s_init.2, c) ops).1.
Proof.
  intros Hx Ho. assert (drv_ok (drv8434s_init.2, c).1) as H0.
  { split; cbn; unfold byte_range; [intros r; lia | lia | done]. }
  revert H0. generalize (drv8434s_init.2, c). induction Ho as [|op ops Hop _ IH]; intros s Hs; [done |].
  cbn [foldl]. apply IH. by apply run_op_typed.
Qed.

Lemma drv_frames_typed_witness :
  length (frames (foldl (fun s op => (run_op ideal_xfer op s).2) (drv8434s_init.2, fun _ => 0)
    [OpWriteConfig polarizer_cfg; OpReadConfig; OpEnable]).1) = 9%nat /\
  drv_ok (foldl (fun s op => (run_op ideal_xfer op s).2) (drv8434s_init.2, fun _ => 0)
    [OpWriteConfig polarizer_cfg; OpReadConfig; OpEnable]).1.
Proof.
  split; [vm_compute; reflexivity |]. apply drv_frames_typed.
  - apply ideal_chip.
  - repeat constructor; vm_compute; intuition discriminate.
Defined.
