(* ===== verification/Polarizer.v ===== *)
(** main_board/src/optics/polarizer_wheel/polarizer_wheel.c: the wheel that
    puts a polarizing glass in front of a camera, turned by a stepper motor and
    checked by an optical encoder.

    This file has the data, the geometry, the speed ramp, the interrupts, the
    moves ([execute_set_angle], [process_step_event],
    [process_encoder_event_positioning]) and the calls other threads make.
    Homing, calibration and the thread's loop are in PolarizerHoming.

    The wheel's state is [wheel]: the C instance, its three semaphores, the two
    run-time settings, and the hardware as last programmed (step PWM, step
    interrupt, encoder, motor current).  What the drivers return is an argument,
    [hw_ret]: one result per kind of call, for the calls of one handler. *)

From S2P Require Import Prelude.

(** ** Data *)

(** *** Geometry and speeds: polarizer_wheel.h, in microsteps *)

(** [micro_step_res] of the device tree. *)
Definition MICROSTEPS_PER_STEP : Z := 128.
Definition MICROSTEPS_360 : Z := Eval cbv in 48 * MICROSTEPS_PER_STEP.
Definition MICROSTEPS_120 : Z := Eval cbv in MICROSTEPS_360 / 3.
Definition NOTCH_EDGE_TO_CENTER : Z := Eval cbv in MICROSTEPS_PER_STEP * 3 / 4.

(** [POLARIZER_MICROSTEPS_PER_SECOND], for an unsigned argument. *)
Definition microsteps_per_second (ms : Z) : Z := MICROSTEPS_360 * 1000 / ms.

Definition FREQUENCY_MINIMUM : Z := Eval cbv in MICROSTEPS_360 / 4.
Definition FREQUENCY_DEFAULT : Z := Eval cbv in MICROSTEPS_360 / 3.
Definition ACCEL_MIN_SPEED_MS_PER_TURN : Z := 2000.
Definition FREQUENCY_ACCEL_MIN_SPEED : Z :=
  Eval cbv in microsteps_per_second ACCEL_MIN_SPEED_MS_PER_TURN.
Definition LINEAR_ACCELERATION_DEFAULT_STEPS_PER_S2 : Z := 8000.
Definition MAX_SPEED_DEFAULT_MS_PER_TURN : Z := 200.
Definition NSEC_PER_SEC : Z := 1000000000.
Definition IDLE_CURRENT_DELAY_MS : Z := 2000.

(** [lia] with the constants above. *)
Ltac lia_wheel :=
  unfold MICROSTEPS_PER_STEP, MICROSTEPS_360, MICROSTEPS_120, NOTCH_EDGE_TO_CENTER,
    FREQUENCY_MINIMUM, FREQUENCY_DEFAULT, FREQUENCY_ACCEL_MIN_SPEED, ACCEL_MIN_SPEED_MS_PER_TURN,
    MAX_SPEED_DEFAULT_MS_PER_TURN, NSEC_PER_SEC in *; lia.

(** *** Enumerations *)

Inductive direction_t := BACKWARD | FORWARD.
Inductive state_t :=
| STATE_UNINITIALIZED | STATE_IDLE | STATE_HOMING | STATE_CALIBRATING
| STATE_POSITIONING_WITH_ENCODER | STATE_POSITIONING.
Inductive cmd_t := CMD_NONE | CMD_HOME | CMD_SET_ANGLE | CMD_CALIBRATE.
Inductive position_t := UNKNOWN | PASS_THROUGH | VERTICAL | HORIZONTAL.

#[export] Instance direction_eq_dec : EqDecision direction_t.
Proof. solve_decision. Defined.
#[export] Instance state_eq_dec : EqDecision state_t.
Proof. solve_decision. Defined.
#[export] Instance cmd_eq_dec : EqDecision cmd_t.
Proof. solve_decision. Defined.
#[export] Instance position_eq_dec : EqDecision position_t.
Proof. solve_decision. Defined.

(** *** The instance: [polarizer_wheel_instance_t] and its inner structures *)

Record calibration_t := Calibration {
  bump_width_pass_through : Z;
  bump_width_vertical : Z;
  bump_width_horizontal : Z;
  bump_index : Z;
  bump_entry_position : Z;
  inside_bump : bool;
  calibration_complete : bool;
  needs_calibration : bool;
}.

Record step_count_t := StepCount { current : Z; target : Z; direction : direction_t }.

Record positioning_t := Positioning {
  target_notch_edge : Z;
  encoder_enabled : bool;
  encoder_triggered : bool;
  start_time_ms : Z;
  previous_position : position_t;
  target_position : position_t;
  step_diff_microsteps : Z;
}.

(** [active]: the state is [ACCELERATION_ACTIVE]. *)
Record acceleration_t := Acceleration {
  min_frequency : Z; active : bool; start_position : Z; total_distance : Z;
}.

Record set_angle_cmd := SetAngle { c_frequency : Z; c_angle : Z; c_shortest : bool }.

(** The hardware: period and pulse of the step PWM (0 when stopped), the step
    interrupt, the encoder's supply and interrupt, the motor's outputs and current
    in percent. *)
Inductive encoder_irq := IRQ_DISABLED | IRQ_RISING | IRQ_BOTH.
Record hardware := Hardware {
  pwm : Z * Z; step_irq : bool; enc_power : bool; enc_irq : encoder_irq;
  motor_on : bool; motor_current : Z;
}.

(** [orb_mcu_main_PolarizerWheelState] as published. *)
Record report := Report {
  rep_previous : position_t; rep_current : position_t; rep_step_loss : Z; rep_time_ms : Z;
  rep_acceleration : Z; rep_max_speed : Z; rep_widths : option (Z * Z * Z);
}.

Record wheel := Wheel {
  state : state_t;
  scale_down_time : Z;                  (* idle_current_scale_down_time_ms *)
  notch_count : Z;
  homed : bool;                         (* homing.success *)
  calib : calibration_t;
  step_count : step_count_t;
  positioning : positioning_t;
  acceleration : acceleration_t;
  pending : cmd_t;
  pending_angle : set_angle_cmd;
  linear_acceleration : Z;              (* g_linear_acceleration_steps_per_s2 *)
  max_speed : Z;                        (* g_max_speed_ms_per_turn *)
  step_sem : bool; encoder_sem : bool; cmd_sem : bool;
  hw : hardware;
  reports : list report;
}.

(** Return values of the drivers: [drv8434s_scale_current], [pwm_set_dt] with a
    frequency, [gpio_pin_set_dt] on the direction pin, [gpio_pin_configure_dt]
    and [gpio_pin_interrupt_configure_dt] of the encoder, [drv8434s_enable] and
    [drv8434s_disable].  Stopping the PWM has
    no result of its own: the code ignores it, and the stopped PWM is what it
    relies on. *)
Record hw_ret := HwRet {
  r_scale : Z; r_pwm : Z; r_dir : Z; r_enc_power : Z; r_enc_irq : Z; r_drv : Z;
}.
Definition hw_ok : hw_ret := HwRet 0 0 0 0 0 0.

(** *** Updates *)

Definition set_state (x : state_t) (w : wheel) : wheel :=
  Wheel x (scale_down_time w) (notch_count w) (homed w) (calib w) (step_count w) (positioning w)
    (acceleration w) (pending w) (pending_angle w) (linear_acceleration w) (max_speed w)
    (step_sem w) (encoder_sem w) (cmd_sem w) (hw w) (reports w).
Definition set_scale_down_time (x : Z) (w : wheel) : wheel :=
  Wheel (state w) x (notch_count w) (homed w) (calib w) (step_count w) (positioning w)
    (acceleration w) (pending w) (pending_angle w) (linear_acceleration w) (max_speed w)
    (step_sem w) (encoder_sem w) (cmd_sem w) (hw w) (reports w).
Definition set_homing (n : Z) (x : bool) (w : wheel) : wheel :=
  Wheel (state w) (scale_down_time w) n x (calib w) (step_count w) (positioning w)
    (acceleration w) (pending w) (pending_angle w) (linear_acceleration w) (max_speed w)
    (step_sem w) (encoder_sem w) (cmd_sem w) (hw w) (reports w).
Definition set_calib (x : calibration_t) (w : wheel) : wheel :=
  Wheel (state w) (scale_down_time w) (notch_count w) (homed w) x (step_count w) (positioning w)
    (acceleration w) (pending w) (pending_angle w) (linear_acceleration w) (max_speed w)
    (step_sem w) (encoder_sem w) (cmd_sem w) (hw w) (reports w).
Definition set_steps (x : step_count_t) (w : wheel) : wheel :=
  Wheel (state w) (scale_down_time w) (notch_count w) (homed w) (calib w) x (positioning w)
    (acceleration w) (pending w) (pending_angle w) (linear_acceleration w) (max_speed w)
    (step_sem w) (encoder_sem w) (cmd_sem w) (hw w) (reports w).
Definition set_positioning (x : positioning_t) (w : wheel) : wheel :=
  Wheel (state w) (scale_down_time w) (notch_count w) (homed w) (calib w) (step_count w) x
    (acceleration w) (pending w) (pending_angle w) (linear_acceleration w) (max_speed w)
    (step_sem w) (encoder_sem w) (cmd_sem w) (hw w) (reports w).
Definition set_acceleration (x : acceleration_t) (w : wheel) : wheel :=
  Wheel (state w) (scale_down_time w) (notch_count w) (homed w) (calib w) (step_count w)
    (positioning w) x (pending w) (pending_angle w) (linear_acceleration w) (max_speed w)
    (step_sem w) (encoder_sem w) (cmd_sem w) (hw w) (reports w).
Definition set_pending (x : cmd_t) (w : wheel) : wheel :=
  Wheel (state w) (scale_down_time w) (notch_count w) (homed w) (calib w) (step_count w)
    (positioning w) (acceleration w) x (pending_angle w) (linear_acceleration w) (max_speed w)
    (step_sem w) (encoder_sem w) (cmd_sem w) (hw w) (reports w).
Definition set_pending_angle (x : set_angle_cmd) (w : wheel) : wheel :=
  Wheel (state w) (scale_down_time w) (notch_count w) (homed w) (calib w) (step_count w)
    (positioning w) (acceleration w) (pending w) x (linear_acceleration w) (max_speed w)
    (step_sem w) (encoder_sem w) (cmd_sem w) (hw w) (reports w).
Definition set_settings (a m : Z) (w : wheel) : wheel :=
  Wheel (state w) (scale_down_time w) (notch_count w) (homed w) (calib w) (step_count w)
    (positioning w) (acceleration w) (pending w) (pending_angle w) a m
    (step_sem w) (encoder_sem w) (cmd_sem w) (hw w) (reports w).
Definition set_sems (s e c : bool) (w : wheel) : wheel :=
  Wheel (state w) (scale_down_time w) (notch_count w) (homed w) (calib w) (step_count w)
    (positioning w) (acceleration w) (pending w) (pending_angle w) (linear_acceleration w)
    (max_speed w) s e c (hw w) (reports w).
Definition set_hw (x : hardware) (w : wheel) : wheel :=
  Wheel (state w) (scale_down_time w) (notch_count w) (homed w) (calib w) (step_count w)
    (positioning w) (acceleration w) (pending w) (pending_angle w) (linear_acceleration w)
    (max_speed w) (step_sem w) (encoder_sem w) (cmd_sem w) x (reports w).
Definition publish (r : report) (w : wheel) : wheel :=
  Wheel (state w) (scale_down_time w) (notch_count w) (homed w) (calib w) (step_count w)
    (positioning w) (acceleration w) (pending w) (pending_angle w) (linear_acceleration w)
    (max_speed w) (step_sem w) (encoder_sem w) (cmd_sem w) (hw w) (reports w ++ [r]).

Definition set_current (c : Z) (w : wheel) : wheel :=
  set_steps (StepCount c (target (step_count w)) (direction (step_count w))) w.
Definition set_target (t : Z) (w : wheel) : wheel :=
  set_steps (StepCount (current (step_count w)) t (direction (step_count w))) w.
Definition set_dir_field (d : direction_t) (w : wheel) : wheel :=
  set_steps (StepCount (current (step_count w)) (target (step_count w)) d) w.
Definition set_encoder_enabled (b : bool) (w : wheel) : wheel :=
  let p := positioning w in
  set_positioning (Positioning (target_notch_edge p) b (encoder_triggered p) (start_time_ms p)
    (previous_position p) (target_position p) (step_diff_microsteps p)) w.
Definition give_step (w : wheel) : wheel := set_sems true (encoder_sem w) (cmd_sem w) w.
Definition give_encoder (w : wheel) : wheel := set_sems (step_sem w) true (cmd_sem w) w.
Definition give_cmd (w : wheel) : wheel := set_sems (step_sem w) (encoder_sem w) true w.
Definition reset_encoder_sem (w : wheel) : wheel := set_sems (step_sem w) false (cmd_sem w) w.

(** ** Settings *)

(** [uint32_t] arithmetic. *)
Definition get_linear_acceleration_usteps_per_s2 (w : wheel) : Z :=
  u32 (linear_acceleration w * MICROSTEPS_PER_STEP).
Definition get_max_frequency (w : wheel) : Z := microsteps_per_second (max_speed w).

Definition polarizer_wheel_set_acceleration (a : Z) (w : wheel) : wheel :=
  if a =? 0 then set_settings LINEAR_ACCELERATION_DEFAULT_STEPS_PER_S2 (max_speed w) w
  else set_settings a (max_speed w) w.

Definition polarizer_wheel_set_max_speed (ms : Z) (w : wheel) : wheel :=
  if ms =? 0 then set_settings (linear_acceleration w) MAX_SPEED_DEFAULT_MS_PER_TURN w
  else if ms <=? ACCEL_MIN_SPEED_MS_PER_TURN then set_settings (linear_acceleration w) ms w
  else w.

(** ** Distances and ramp *)

Definition circular_signed_distance (from to : Z) : Z :=
  let diff := to - from in
  let half_range := MICROSTEPS_360 / 2 in
  if half_range <? diff then diff - MICROSTEPS_360
  else if diff <? - half_range then diff + MICROSTEPS_360
  else diff.

(** [while (y < x) { x = y; y = (x + n / x) / 2; }], in [uint64_t]; [None]: out
    of fuel. *)
Fixpoint newton (fuel : nat) (n x y : Z) : option Z :=
  match fuel with
  | O => None
  | S k => if y <? x then newton k n y (u64 (y + n / y) / 2) else Some x
  end.

Definition calculate_linear_ramp_frequency (w : wheel) (ramp_step min_freq max_freq : Z) : option Z :=
  let min_freq_sq := u64 (min_freq * min_freq) in
  let accel_term := u64 (u64 (2 * get_linear_acceleration_usteps_per_s2 w) * ramp_step) in
  let freq_sq := u64 (min_freq_sq + accel_term) in
  x ← newton 65 freq_sq freq_sq (u64 (freq_sq + 1) / 2);
  Some (u32 (Z.min x max_freq)).

Definition calculate_ramp_step (distance_traveled total_dist : Z) : Z :=
  if (total_dist =? 0) || (total_dist <=? distance_traveled) then 0
  else
    let midpoint := total_dist / 2 in
    if distance_traveled <? midpoint then distance_traveled
    else total_dist - distance_traveled - 1.

(** ** Motor, encoder, reports *)

Definition set_pwm (p : Z * Z) (w : wheel) : wheel :=
  set_hw (Hardware p (step_irq (hw w)) (enc_power (hw w)) (enc_irq (hw w)) (motor_on (hw w)) (motor_current (hw w))) w.
Definition set_step_irq (b : bool) (w : wheel) : wheel :=
  set_hw (Hardware (pwm (hw w)) b (enc_power (hw w)) (enc_irq (hw w)) (motor_on (hw w)) (motor_current (hw w))) w.
Definition set_enc_power (b : bool) (w : wheel) : wheel :=
  set_hw (Hardware (pwm (hw w)) (step_irq (hw w)) b (enc_irq (hw w)) (motor_on (hw w)) (motor_current (hw w))) w.
Definition set_enc_irq (i : encoder_irq) (w : wheel) : wheel :=
  set_hw (Hardware (pwm (hw w)) (step_irq (hw w)) (enc_power (hw w)) i (motor_on (hw w)) (motor_current (hw w))) w.
Definition set_motor_current (c : Z) (w : wheel) : wheel :=
  set_hw (Hardware (pwm (hw w)) (step_irq (hw w)) (enc_power (hw w)) (enc_irq (hw w)) (motor_on (hw w)) c) w.
Definition set_motor_on (b : bool) (w : wheel) : wheel :=
  set_hw (Hardware (pwm (hw w)) (step_irq (hw w)) (enc_power (hw w)) (enc_irq (hw w)) b (motor_current (hw w))) w.

Definition polarizer_set_frequency (h : hw_ret) (f : Z) (w : wheel) : Z * wheel :=
  if (get_max_frequency w <? f) || (f <? FREQUENCY_MINIMUM) then (RET_ERROR_INVALID_PARAM, w)
  else if r_pwm h =? 0 then (0, set_pwm (NSEC_PER_SEC / f, NSEC_PER_SEC / f / 2) w)
  else (r_pwm h, w).

Definition polarizer_halt (w : wheel) : wheel :=
  let w := set_step_irq false (set_pwm (0, 0) w) in
  let a := acceleration w in
  set_acceleration (Acceleration 0 false (start_position a) (total_distance a)) w.

Definition enable_encoder (h : hw_ret) (w : wheel) : Z * wheel :=
  if negb (r_enc_power h =? 0) then (r_enc_power h, w)
  else if negb (r_enc_irq h =? 0) then (r_enc_irq h, set_enc_power true w)
  else (RET_SUCCESS, set_encoder_enabled true (set_enc_irq IRQ_RISING (set_enc_power true w))).

Definition disable_encoder (h : hw_ret) (w : wheel) : Z * wheel :=
  if negb (r_enc_power h =? 0) then (r_enc_power h, w)
  else if negb (r_enc_irq h =? 0) then (r_enc_irq h, set_enc_power false w)
  else (RET_SUCCESS, set_encoder_enabled false (set_enc_irq IRQ_DISABLED (set_enc_power false w))).

Definition set_direction (h : hw_ret) (d : direction_t) (w : wheel) : Z * wheel :=
  if r_dir h =? 0 then (0, set_dir_field d w) else (r_dir h, w).

Definition polarizer_rotate (h : hw_ret) (f : Z) (w : wheel) : Z * wheel :=
  let w := set_scale_down_time 0 w in
  if negb (r_scale h =? 0) then (r_scale h, w)
  else polarizer_set_frequency h f (set_step_irq true (set_motor_current 100 w)).

(** [now]: [k_uptime_get_32()]. *)
Definition report_reached_state (now : Z) (w : wheel) : wheel :=
  let p := positioning w in
  let c := calib w in
  publish (Report (previous_position p) (target_position p) (step_diff_microsteps p)
    (u32 (now - start_time_ms p)) (linear_acceleration w) (max_speed w)
    (if calibration_complete c
     then Some (bump_width_pass_through c, bump_width_vertical c, bump_width_horizontal c)
     else None)) w.

(** ** Positions *)

Definition angle_to_position (angle : Z) : position_t :=
  if angle =? 0 then PASS_THROUGH
  else if angle =? 1200 then VERTICAL
  else if angle =? 2400 then HORIZONTAL
  else UNKNOWN.

Definition get_current_position (w : wheel) : position_t :=
  let angle := u32 (u32 (current (step_count w)) * 3600) / MICROSTEPS_360 in
  let tolerance := MICROSTEPS_PER_STEP / 7 in
  if (angle <=? tolerance) || (3600 - tolerance <=? angle) then PASS_THROUGH
  else if (1200 - tolerance <=? angle) && (angle <=? 1200 + tolerance) then VERTICAL
  else if (2400 - tolerance <=? angle) && (angle <=? 2400 + tolerance) then HORIZONTAL
  else UNKNOWN.

Definition get_edge_to_center_for_position (c : calibration_t) (target_step : Z) : Z :=
  if negb (calibration_complete c) then NOTCH_EDGE_TO_CENTER
  else
    let tolerance := MICROSTEPS_PER_STEP in
    if (Z.abs target_step <? tolerance) || (Z.abs (target_step - MICROSTEPS_360) <? tolerance)
    then bump_width_pass_through c / 2
    else if Z.abs (target_step - MICROSTEPS_120) <? tolerance then bump_width_vertical c / 2
    else if Z.abs (target_step - MICROSTEPS_120 * 2) <? tolerance then bump_width_horizontal c / 2
    else NOTCH_EDGE_TO_CENTER.

Definition calculate_notch_edge (c : calibration_t) (target_step : Z) (d : direction_t) : Z :=
  let edge_to_center := s32 (get_edge_to_center_for_position c target_step) in
  match d with
  | FORWARD =>
      let edge := target_step - edge_to_center in
      if edge <? 0 then edge + MICROSTEPS_360 else edge
  | BACKWARD =>
      let edge := target_step + edge_to_center in
      if MICROSTEPS_360 <=? edge then edge - MICROSTEPS_360 else edge
  end.

(** ** Interrupts *)

(** [level]: the encoder pin; the callback runs on the edges its interrupt is
    configured for. *)
Definition encoder_callback (level : bool) (w : wheel) : wheel :=
  if bool_decide (state w = STATE_CALIBRATING) then give_encoder w
  else if level then give_encoder w
  else w.

(** [captured]: the capture flag of the step PWM's channel. *)
Definition polarizer_wheel_step_isr (captured : bool) (w : wheel) : wheel :=
  if captured then
    let c := current (step_count w) in
    let c := match direction (step_count w) with BACKWARD => c - 1 | FORWARD => c + 1 end in
    let c := if MICROSTEPS_360 <=? c then 0 else c in
    let c := if c <? 0 then MICROSTEPS_360 - 1 else c in
    give_step (set_current c w)
  else w.

(** ** Thread handlers *)

Definition encoder_state (w : wheel) : bool :=
  bool_decide (state w = STATE_POSITIONING_WITH_ENCODER).

(** [None]: the square root's loop out of fuel. *)
Definition process_step_event (h : hw_ret) (now : Z) (w : wheel) : option wheel :=
  let current_pos := current (step_count w) in
  if target (step_count w) =? current_pos then
    if encoder_state w && negb (encoder_triggered (positioning w)) then
      Some (give_cmd (set_pending CMD_HOME (polarizer_halt w)))
    else
      let w := polarizer_halt w in
      let encoder_ok := negb (encoder_state w) || encoder_triggered (positioning w) in
      let standard := bool_decide (target_position (positioning w) <> UNKNOWN) in
      let w := if standard && encoder_ok then report_reached_state now w else w in
      let w := if encoder_enabled (positioning w) then (disable_encoder h w).2 else w in
      Some (set_scale_down_time (u32 (now + IDLE_CURRENT_DELAY_MS)) (set_state STATE_IDLE w))
  else if active (acceleration w) then
    let a := acceleration w in
    let distance_traveled := Z.abs (circular_signed_distance (start_position a) current_pos) in
    let ramp_step := calculate_ramp_step distance_traveled (total_distance a) in
    new_freq ← calculate_linear_ramp_frequency w ramp_step (min_frequency a) (get_max_frequency w);
    Some (polarizer_set_frequency h new_freq w).2
  else Some w.

Definition process_encoder_event_positioning (w : wheel) : wheel :=
  let p := positioning w in
  if encoder_triggered p then w
  else
    let step_diff := circular_signed_distance (target_notch_edge p) (current (step_count w)) in
    let step_loss := match direction (step_count w) with FORWARD => - step_diff | BACKWARD => step_diff end in
    set_current (target_notch_edge p)
      (set_positioning (Positioning (target_notch_edge p) (encoder_enabled p) true (start_time_ms p)
         (previous_position p) (target_position p) (Z.abs step_loss)) w).

Definition polarizer_wheel_step_relative (h : hw_ret) (f step_count_arg : Z) (w : wheel) : Z * wheel :=
  if (f =? 0) || (step_count_arg =? 0) || (MICROSTEPS_360 <? Z.abs step_count_arg)
  then (RET_ERROR_INVALID_PARAM, w)
  else
    let w :=
      if step_count_arg <? 0 then
        let w := (set_direction h BACKWARD w).2 in
        let target := current (step_count w) + step_count_arg in
        set_target (if target <? 0 then target + MICROSTEPS_360 else target) w
      else
        let w := (set_direction h FORWARD w).2 in
        set_target (Z.rem (current (step_count w) + step_count_arg) MICROSTEPS_360) w in
    polarizer_rotate h f w.

(** The signed distance of a move, after the direction is set. *)
Definition choose_direction (h : hw_ret) (short : bool) (target_step : Z) (w : wheel) : Z * wheel :=
  if short then
    let signed_dist := circular_signed_distance (current (step_count w)) target_step in
    (signed_dist, (set_direction h (if 0 <? signed_dist then FORWARD else BACKWARD) w).2)
  else
    let w := (set_direction h FORWARD w).2 in
    let signed_dist := target_step - current (step_count w) in
    (if signed_dist <=? 0 then signed_dist + MICROSTEPS_360 else signed_dist, w).

Definition angle_to_step (angle : Z) : Z := Z.rem (Z.quot (s32 angle * MICROSTEPS_360) 3600) MICROSTEPS_360.

(** The encoder's part of a move, and the speed's: the first frequency. *)
Definition arm_encoder (h : hw_ret) (target_step : Z) (w : wheel) : wheel :=
  let edge := calculate_notch_edge (calib w) target_step (direction (step_count w)) in
  let p := positioning w in
  (enable_encoder h (set_positioning (Positioning edge false false (start_time_ms p)
     (previous_position p) (target_position p) (step_diff_microsteps p)) w)).2.

Definition arm_speed (f signed_dist : Z) (w : wheel) : Z * wheel :=
  if f =? 0 then
    (FREQUENCY_ACCEL_MIN_SPEED,
     set_acceleration (Acceleration FREQUENCY_ACCEL_MIN_SPEED true (current (step_count w))
       (Z.abs signed_dist)) w)
  else
    (f, set_acceleration (Acceleration f false (start_position (acceleration w))
          (total_distance (acceleration w))) w).

Definition execute_set_angle (h : hw_ret) (now f angle : Z) (short : bool) (w : wheel) : Z * wheel :=
  if bool_decide (state w = STATE_UNINITIALIZED) then (RET_ERROR_NOT_INITIALIZED, w)
  else if negb (bool_decide (state w = STATE_IDLE)) then (RET_ERROR_BUSY, w)
  else
    let target_step := angle_to_step angle in
    let p := positioning w in
    let previous := get_current_position w in
    let wanted := angle_to_position angle in
    let w := set_positioning (Positioning (target_notch_edge p) (encoder_enabled p)
               (encoder_triggered p) now previous wanted 0) w in
    if bool_decide (previous = wanted) && negb (bool_decide (previous = UNKNOWN))
    then (RET_SUCCESS, report_reached_state now w)
    else
      let '(signed_dist, w) := choose_direction h short target_step w in
      let use_encoder := negb (bool_decide (wanted = UNKNOWN)) && negb (f =? 0) in
      let w := if use_encoder then arm_encoder h target_step w else w in
      let '(f, w) := arm_speed f signed_dist w in
      let '(ret, w) := polarizer_rotate h f (set_target target_step w) in
      if ret =? 0
      then (ret, set_state (if use_encoder then STATE_POSITIONING_WITH_ENCODER else STATE_POSITIONING) w)
      else (ret, set_state STATE_IDLE w).

(** ** Calls made by the other threads *)

(** [locked]: the mutex was obtained within its 100 ms. *)
Definition polarizer_wheel_set_angle (locked : bool) (f angle : Z) (short : bool) (w : wheel) : Z * wheel :=
  if (3600 <? angle) || (get_max_frequency w <? f) || (negb (f =? 0) && (f <? FREQUENCY_MINIMUM))
  then (RET_ERROR_INVALID_PARAM, w)
  else if negb locked then (RET_ERROR_BUSY, w)
  else if bool_decide (state w = STATE_UNINITIALIZED) then (RET_ERROR_NOT_INITIALIZED, w)
  else if negb (bool_decide (state w = STATE_IDLE)) then (RET_ERROR_BUSY, w)
  else (RET_SUCCESS, give_cmd (set_pending_angle (SetAngle f angle short) (set_pending CMD_SET_ANGLE w))).

Definition polarizer_wheel_home_async (locked : bool) (w : wheel) : Z * wheel :=
  if negb locked then (RET_ERROR_BUSY, w)
  else if negb (bool_decide (state w = STATE_IDLE)) && negb (bool_decide (state w = STATE_UNINITIALIZED))
  then (RET_ERROR_BUSY, w)
  else (RET_SUCCESS, give_cmd (set_homing (notch_count w) false (set_pending CMD_HOME w))).

Definition polarizer_wheel_calibrate_async (locked : bool) (w : wheel) : Z * wheel :=
  if negb locked then (RET_ERROR_BUSY, w)
  else if bool_decide (state w = STATE_UNINITIALIZED) || negb (homed w)
  then (RET_ERROR_NOT_INITIALIZED, w)
  else if negb (bool_decide (state w = STATE_IDLE)) then (RET_ERROR_BUSY, w)
  else if negb (bool_decide (get_current_position w = PASS_THROUGH)) then (RET_ERROR_INVALID_STATE, w)
  else (RET_SUCCESS, give_cmd (set_pending CMD_CALIBRATE w)).

(** The widths, and whether they are valid. *)
Definition polarizer_wheel_get_bump_widths (w : wheel) : Z * (Z * Z * Z * bool) :=
  let c := calib w in
  if negb (calibration_complete c) then (RET_ERROR_NOT_INITIALIZED, (0, 0, 0, false))
  else (RET_SUCCESS, (bump_width_pass_through c, bump_width_vertical c, bump_width_horizontal c, true)).

(** *** The commands of runner.c *)

Inductive polarizer_command :=
| POLARIZER_HOME | POLARIZER_PASS_THROUGH | POLARIZER_0_HORIZONTAL | POLARIZER_90_VERTICAL
| POLARIZER_CUSTOM_ANGLE | POLARIZER_CALIBRATE_HOME | POLARIZER_OTHER.

(** The speed is in milliseconds per turn. *)
Definition handle_polarizer_frequency (speed : Z) : Z :=
  if negb (speed =? 0) then microsteps_per_second speed else 0.

Definition handle_polarizer (locked : bool) (cmd : polarizer_command) (speed angle : Z) (short : bool) (w : wheel)
  : ack * wheel :=
  let f := handle_polarizer_frequency speed in
  let queued (r : Z * wheel) :=
    (if r.1 =? RET_SUCCESS then ACK_SUCCESS else if r.1 =? RET_ERROR_BUSY then ACK_IN_PROGRESS
     else ACK_INVALID_STATE, r.2) in
  let turned (r : Z * wheel) :=
    (if r.1 =? RET_SUCCESS then ACK_SUCCESS else if r.1 =? RET_ERROR_BUSY then ACK_IN_PROGRESS
     else if r.1 =? RET_ERROR_INVALID_PARAM then ACK_RANGE else ACK_FAIL, r.2) in
  match cmd with
  | POLARIZER_HOME => queued (polarizer_wheel_home_async locked w)
  | POLARIZER_PASS_THROUGH => turned (polarizer_wheel_set_angle locked f 0 short w)
  | POLARIZER_0_HORIZONTAL => turned (polarizer_wheel_set_angle locked f 2400 short w)
  | POLARIZER_90_VERTICAL => turned (polarizer_wheel_set_angle locked f 1200 short w)
  | POLARIZER_CUSTOM_ANGLE => turned (polarizer_wheel_set_angle locked f angle short w)
  | POLARIZER_CALIBRATE_HOME => queued (polarizer_wheel_calibrate_async locked w)
  | POLARIZER_OTHER => (ACK_NOT_SUPPORTED, w)
  end.

Definition handle_polarizer_wheel_settings (acceleration max_speed : Z) (w : wheel) : ack * wheel :=
  (ACK_SUCCESS, polarizer_wheel_set_max_speed max_speed (polarizer_wheel_set_acceleration acceleration w)).

(** ** The run of a move: a step interrupt, then the thread *)

Definition one_step (h : hw_ret) (now : Z) (w : wheel) : option wheel :=
  if step_irq (hw w) then
    let w := polarizer_wheel_step_isr true w in
    process_step_event h now (set_sems false (encoder_sem w) (cmd_sem w) w)
  else Some w.

Fixpoint run_steps (h : hw_ret) (now : Z) (n : nat) (w : wheel) : option wheel :=
  match n with
  | O => Some w
  | S k => w ← one_step h now w; run_steps h now k w
  end.

(** Where the counter is after [k] steps. *)
Definition advance (d : direction_t) (c k : Z) : Z :=
  match d with FORWARD => (c + k) mod MICROSTEPS_360 | BACKWARD => (c - k) mod MICROSTEPS_360 end.

(** The number of steps of a move. *)
Definition move_length (short : bool) (start goal : Z) : Z :=
  let d := (goal - start) mod MICROSTEPS_360 in
  if short then
    if d =? 0 then MICROSTEPS_360 else Z.min d (MICROSTEPS_360 - d)
  else if d =? 0 then MICROSTEPS_360 else d.

(** ** Well-formedness *)

Definition stopped (w : wheel) : Prop := pwm (hw w) = (0, 0) /\ step_irq (hw w) = false.

(** The step PWM runs, half of the time high, at a frequency of at least the
    minimum, at which a turn takes no less than [ms] milliseconds. *)
Definition pwm_range (ms : Z) (p : Z * Z) : Prop :=
  exists f, FREQUENCY_MINIMUM <= f /\ f * ms <= MICROSTEPS_360 * 1000 /\
    p = (NSEC_PER_SEC / f, NSEC_PER_SEC / f / 2).

Definition calib_ok (c : calibration_t) : Prop :=
  0 <= bump_width_pass_through c < MICROSTEPS_360 /\ 0 <= bump_width_vertical c < MICROSTEPS_360 /\
  0 <= bump_width_horizontal c < MICROSTEPS_360 /\ 0 <= bump_entry_position c < MICROSTEPS_360.

Definition acceleration_ok (a : acceleration_t) : Prop :=
  0 <= total_distance a <= MICROSTEPS_360 /\ 0 <= start_position a < MICROSTEPS_360 /\
  (active a = true -> min_frequency a = FREQUENCY_ACCEL_MIN_SPEED).

Record wheel_ok (w : wheel) : Prop := {
  ok_current : 0 <= current (step_count w) < MICROSTEPS_360;
  ok_target : 0 <= target (step_count w) < MICROSTEPS_360;
  ok_edge : 0 <= target_notch_edge (positioning w) < MICROSTEPS_360;
  ok_calib : calib_ok (calib w);
  ok_acceleration : acceleration_ok (acceleration w);
  ok_max_speed : 1 <= max_speed w <= ACCEL_MIN_SPEED_MS_PER_TURN;
  ok_angle : 0 <= c_angle (pending_angle w) <= 3600;
  ok_pwm : pwm (hw w) = (0, 0) \/ pwm_range 1 (pwm (hw w));   (* [max_speed] may change during a move *)
  ok_idle : state w = STATE_IDLE \/ state w = STATE_UNINITIALIZED -> pwm (hw w) = (0, 0);
}.

(** After [memset] and the static initialisers. *)
Definition wheel_reset : wheel :=
  Wheel STATE_UNINITIALIZED 0 0 false (Calibration 0 0 0 0 0 false false false)
    (StepCount 0 0 FORWARD) (Positioning 0 false false 0 UNKNOWN UNKNOWN 0)
    (Acceleration 0 false 0 0) CMD_NONE (SetAngle 0 0 false)
    LINEAR_ACCELERATION_DEFAULT_STEPS_PER_S2 MAX_SPEED_DEFAULT_MS_PER_TURN
    false false false (Hardware (0, 0) false false IRQ_DISABLED false 100) [].

(** Homed and calibrated, at rest at [c]. *)
Definition wheel_at (c : Z) : wheel :=
  set_current c (set_state STATE_IDLE (set_homing 5 true
    (set_calib (Calibration 190 194 188 4 5950 false true false) wheel_reset))).

(** ** The square root and the ramp *)

(** One turn of Newton's iteration stays above the root and halves the
    distance to it. *)
Lemma newton_step n s x : 1 <= s -> s * s <= n -> n < (s + 1) * (s + 1) -> s <= x ->
  s <= (x + n / x) / 2 /\ (s < x -> 2 * ((x + n / x) / 2 - s) <= x - s) /\ (s = x -> x <= (x + n / x) / 2).
Proof.
  intros Hs Hl Hu Hx.
  pose proof (Z.div_mod n x ltac:(lia)) as E. pose proof (Z.mod_pos_bound n x ltac:(lia)) as B.
  set (q := n / x) in *. set (r := n mod x) in *.
  assert (2 * s <= x + q).
  { destruct (Z.le_gt_cases (2 * s) (x + q)); [done |].
    assert ((q + 1) * x <= (2 * s - x) * x) by nia. nia. }
  assert (s < x -> q <= s) by (intros; nia).
  Z.div_mod_to_equations. lia.
Qed.

Lemma newton_sqrt n : 1 <= n < 2 ^ 63 -> forall k x,
  Z.sqrt n <= x <= n -> x - Z.sqrt n < 2 ^ Z.of_nat k ->
  newton (S k) n x ((x + n / x) / 2) = Some (Z.sqrt n).
Proof.
  intros Hn. destruct (Z.sqrt_spec n ltac:(lia)) as [Hl Hu].
  assert (1 <= Z.sqrt n) as Hs by (apply Z.sqrt_le_square; lia).
  set (s := Z.sqrt n) in *. clearbody s. unfold Z.succ in Hu.
  induction k as [|k IH]; intros x Hx Hk.
  - change (2 ^ Z.of_nat 0) with 1 in Hk. replace x with s in * by lia. cbn [newton].
    destruct (newton_step n s s Hs Hl Hu ltac:(lia)) as (_ & _ & H).
    bfalse ((s + n / s) / 2 <? s). done.
  - destruct (newton_step n s x Hs Hl Hu ltac:(lia)) as (H1 & H2 & H3).
    cbn [newton]. destruct (Z.ltb_spec ((x + n / x) / 2) x) as [L|L].
    + set (y := (x + n / x) / 2) in *.
      assert (0 <= n / y <= n).
      { split; [apply Z.div_pos; lia |]. apply Z.div_le_upper_bound; nia. }
      rewrite u64_small by lia. apply IH; [lia |].
      rewrite Nat2Z.inj_succ, Z.pow_succ_r in Hk by lia. lia.
    + f_equal. destruct (Z.eq_dec s x); [done | lia].
Qed.

Lemma newton_is_sqrt n : 0 <= n < 2 ^ 63 -> newton 65 n n (u64 (n + 1) / 2) = Some (Z.sqrt n).
Proof.
  intros Hn. rewrite u64_small by lia. destruct (Z.eq_dec n 0) as [->|N]; [done |].
  replace (n + 1) with (n + n / n) by (rewrite Z.div_same; lia).
  apply newton_sqrt; [lia | split; [apply Z.sqrt_le_lin; lia | lia] |].
  pose proof (Z.sqrt_nonneg n). change (2 ^ Z.of_nat 64) with (2 * 2 ^ 63). lia.
Qed.

(** The squared frequency, as a mathematical integer: no wrap-around. *)
Definition ramp_square (w : wheel) (ramp_step min_freq : Z) : Z :=
  min_freq * min_freq + 2 * get_linear_acceleration_usteps_per_s2 w * ramp_step.

Lemma ramp_frequency_spec w ramp_step min_freq max_freq :
  0 <= ramp_step <= MICROSTEPS_360 -> 0 <= min_freq < 2 ^ 24 -> 0 <= max_freq < 2 ^ 32 ->
  calculate_linear_ramp_frequency w ramp_step min_freq max_freq =
    Some (Z.min (Z.sqrt (ramp_square w ramp_step min_freq)) max_freq).
Proof.
  intros Hr Hm HM. unfold calculate_linear_ramp_frequency.
  pose proof (u32_range (linear_acceleration w * MICROSTEPS_PER_STEP)) as Ha.
  fold (get_linear_acceleration_usteps_per_s2 w) in Ha.
  unfold ramp_square. set (a := get_linear_acceleration_usteps_per_s2 w) in *.
  assert (0 <= min_freq * min_freq < 2 ^ 48) by nia.
  assert (0 <= 2 * a * ramp_step < 2 ^ 46) by (unfold MICROSTEPS_360 in Hr; nia).
  rewrite (u64_small (2 * a)) by lia. rewrite (u64_small (2 * a * ramp_step)) by lia.
  rewrite (u64_small (min_freq * min_freq)) by lia. rewrite (u64_small (_ + _)) by lia.
  rewrite newton_is_sqrt by lia. cbn. rewrite u32_small; [done |].
  pose proof (Z.sqrt_nonneg (min_freq * min_freq + 2 * a * ramp_step)). lia.
Qed.

Lemma max_frequency_range w : 1 <= max_speed w <= ACCEL_MIN_SPEED_MS_PER_TURN ->
  FREQUENCY_ACCEL_MIN_SPEED <= get_max_frequency w <= microsteps_per_second 1.
Proof.
  unfold get_max_frequency, microsteps_per_second. intros H. split.
  - apply Z.div_le_lower_bound; lia_wheel.
  - apply Z.div_le_compat_l; lia_wheel.
Qed.

(** A frequency the driver accepts respects the maximum speed. *)
Lemma frequency_in_range w f : 1 <= max_speed w -> FREQUENCY_MINIMUM <= f <= get_max_frequency w ->
  pwm_range (max_speed w) (NSEC_PER_SEC / f, NSEC_PER_SEC / f / 2).
Proof.
  unfold get_max_frequency, microsteps_per_second. intros H [H1 H2]. exists f. split; [done |]. split; [| done].
  pose proof (Z.mul_div_le (MICROSTEPS_360 * 1000) (max_speed w) ltac:(lia)). nia.
Qed.

Lemma pwm_range_any ms p : 1 <= ms -> pwm_range ms p -> pwm_range 1 p.
Proof. intros H (f & H1 & H2 & ->). exists f. split; [done |]. split; [| done]. unfold FREQUENCY_MINIMUM in H1. nia. Qed.

Lemma set_frequency_ok h f w : r_pwm h = 0 -> FREQUENCY_MINIMUM <= f <= get_max_frequency w ->
  polarizer_set_frequency h f w = (0, set_pwm (NSEC_PER_SEC / f, NSEC_PER_SEC / f / 2) w).
Proof.
  intros E H. unfold polarizer_set_frequency.
  bfalse (get_max_frequency w <? f). bfalse (f <? FREQUENCY_MINIMUM). by rewrite E.
Qed.

(** What the ramp asks for is between the initial and the maximum speed. *)
Lemma ramp_bounds w ramp_step :
  1 <= max_speed w <= ACCEL_MIN_SPEED_MS_PER_TURN -> 0 <= ramp_step ->
  FREQUENCY_ACCEL_MIN_SPEED <=
    Z.min (Z.sqrt (ramp_square w ramp_step FREQUENCY_ACCEL_MIN_SPEED)) (get_max_frequency w)
    <= get_max_frequency w.
Proof.
  intros Hs Hr. pose proof (max_frequency_range w Hs) as HM. split; [| lia].
  apply Z.min_glb; [| lia].
  rewrite <- (Z.sqrt_square FREQUENCY_ACCEL_MIN_SPEED) at 1 by lia_wheel. apply Z.sqrt_le_mono.
  unfold ramp_square, get_linear_acceleration_usteps_per_s2.
  pose proof (u32_range (linear_acceleration w * MICROSTEPS_PER_STEP)). nia.
Qed.

Lemma ramp_step_range k total : 0 <= k -> 0 <= total -> 0 <= calculate_ramp_step k total <= total.
Proof. intros. unfold calculate_ramp_step. Z.div_mod_to_equations. repeat bdestruct1; cbn [orb]; lia. Qed.

(** The speed ramp: whatever the acceleration and the maximum speed have been
    set to, the frequency computed for a step of the ramp is the exact integer
    square root of [v0^2 + 2*a*s] cut at the maximum speed (Newton's loop ends
    within 65 turns and no product wraps around), it is never below the initial
    speed nor above the maximum, and the motor accepts it. *)
Theorem ramp_frequency_exact w ramp_step h :
  1 <= max_speed w <= ACCEL_MIN_SPEED_MS_PER_TURN ->
  0 <= ramp_step <= MICROSTEPS_360 ->
  let f := Z.min (Z.sqrt (FREQUENCY_ACCEL_MIN_SPEED * FREQUENCY_ACCEL_MIN_SPEED +
                          2 * u32 (linear_acceleration w * MICROSTEPS_PER_STEP) * ramp_step))
                 (get_max_frequency w) in
  calculate_linear_ramp_frequency w ramp_step FREQUENCY_ACCEL_MIN_SPEED (get_max_frequency w) = Some f /\
  FREQUENCY_ACCEL_MIN_SPEED <= f <= get_max_frequency w /\
  (polarizer_set_frequency h f w).1 = r_pwm h.
Proof.
  intros Hs Hr f. pose proof (max_frequency_range w Hs) as HM.
  change (microsteps_per_second 1) with 6144000 in HM.
  assert (FREQUENCY_ACCEL_MIN_SPEED <= f <= get_max_frequency w) as Hf by (apply ramp_bounds; lia).
  split_and!; [| lia | lia |].
  - rewrite ramp_frequency_spec; [done | done | lia_wheel | lia_wheel].
  - unfold polarizer_set_frequency. bfalse (get_max_frequency w <? f).
    replace (f <? FREQUENCY_MINIMUM) with false by (symmetry; apply Z.ltb_ge; lia_wheel).
    cbn [orb]. destruct (Z.eqb_spec (r_pwm h) 0); cbn; lia.
Qed.

Lemma ramp_frequency_exact_witness :
  calculate_linear_ramp_frequency (wheel_at 0) 100 FREQUENCY_ACCEL_MIN_SPEED
    (get_max_frequency (wheel_at 0)) = Some 14636.
Proof.
  destruct (ramp_frequency_exact (wheel_at 0) 100 hw_ok ltac:(vm_compute; intuition discriminate)
    ltac:(vm_compute; intuition discriminate)) as (E & _). rewrite E. vm_compute. reflexivity.
Defined.

(** ** The counter on the circle *)

Lemma advance_range d c k : 0 <= advance d c k < MICROSTEPS_360.
Proof. destruct d; apply Z.mod_pos_bound; lia_wheel. Qed.

Lemma advance_add d c j k : advance d (advance d c j) k = advance d c (j + k).
Proof.
  destruct d; cbn [advance].
  - rewrite Zminus_mod_idemp_l. f_equal. lia.
  - rewrite Zplus_mod_idemp_l. f_equal. lia.
Qed.

Lemma advance_0 d c : 0 <= c < MICROSTEPS_360 -> advance d c 0 = c.
Proof. intros. destruct d; cbn [advance]; rewrite ?Z.sub_0_r, ?Z.add_0_r; by apply Z.mod_small. Qed.

Lemma mod_360 z : exists q, z mod MICROSTEPS_360 = z - MICROSTEPS_360 * q /\
  0 <= z mod MICROSTEPS_360 < MICROSTEPS_360.
Proof. exists (z / MICROSTEPS_360). unfold MICROSTEPS_360. zify_div. Qed.

(** Decide a goal about positions on the circle. *)
Ltac circle :=
  repeat match goal with
  | |- context [?z mod MICROSTEPS_360] =>
      let q := fresh "q" in let E := fresh "E" in destruct (mod_360 z) as (q & E & ?); rewrite E in *; clear E
  end; repeat bdestruct1; lia_wheel.

(** The interrupt moves the counter by one on the circle. *)
Lemma isr_advances w : 0 <= current (step_count w) < MICROSTEPS_360 ->
  polarizer_wheel_step_isr true w =
    give_step (set_current (advance (direction (step_count w)) (current (step_count w)) 1) w).
Proof.
  intros H. unfold polarizer_wheel_step_isr. f_equal. f_equal.
  destruct (direction (step_count w)); cbn [advance].
  - circle.
  - circle.
Qed.

Lemma csd_range from to : 0 <= from < MICROSTEPS_360 -> 0 <= to < MICROSTEPS_360 ->
  let d := circular_signed_distance from to in
  Z.abs d = Z.min ((to - from) mod MICROSTEPS_360) (MICROSTEPS_360 - (to - from) mod MICROSTEPS_360) /\
  (0 < d -> (to - from) mod MICROSTEPS_360 = d) /\
  (d < 0 -> (to - from) mod MICROSTEPS_360 = d + MICROSTEPS_360) /\
  (d = 0 -> to = from).
Proof.
  intros H1 H2. cbv zeta. unfold circular_signed_distance.
  change (MICROSTEPS_360 / 2) with 3072.
  destruct (mod_360 (to - from)) as (q & E & ?). rewrite E in *.
  repeat bdestruct1; lia_wheel.
Qed.

(** The direction chosen leads to the goal after [move_length] steps, and not
    before. *)
Lemma choose_direction_spec h short goal w :
  r_dir h = 0 -> 0 <= current (step_count w) < MICROSTEPS_360 -> 0 <= goal < MICROSTEPS_360 ->
  let start := current (step_count w) in
  let n := move_length short start goal in
  exists d s, choose_direction h short goal w = (s, set_dir_field d w) /\
    1 <= n <= MICROSTEPS_360 /\ advance d start n = goal /\
    (forall j, 1 <= j < n -> advance d start j <> goal) /\
    0 <= Z.abs s <= MICROSTEPS_360.
Proof.
  intros Hd Hc Hg. cbv zeta.
  destruct (csd_range (current (step_count w)) goal Hc Hg) as (Ha & Hp & Hn & Hz).
  unfold choose_direction, move_length, set_direction. rewrite Hd. cbn [Z.eqb].
  set (c := current (step_count w)) in *. set (s := circular_signed_distance c goal) in *.
  destruct (mod_360 (goal - c)) as (q & E & B). rewrite E in *.
  destruct short.
  - exists (if 0 <? s then FORWARD else BACKWARD), s. split; [done |].
    destruct (Z.ltb_spec 0 s); cbn [advance]; split_and!; intros; circle.
  - exists FORWARD, (if goal - c <=? 0 then goal - c + MICROSTEPS_360 else goal - c).
    split; [by cbn |]. cbn [advance]. split_and!; intros; circle.
Qed.

#[local] Arguments newton : simpl never.
#[local] Arguments calculate_linear_ramp_frequency : simpl never.
#[local] Arguments microsteps_per_second : simpl never.
#[local] Arguments get_max_frequency : simpl never.
#[local] Arguments circular_signed_distance : simpl never.
#[local] Arguments calculate_ramp_step : simpl never.
#[local] Arguments polarizer_set_frequency : simpl never.
#[local] Arguments Z.div : simpl never.
#[local] Arguments Z.modulo : simpl never.

(** ** Moves *)

(** A move in direction [d] to [t], under way. *)
Record on_course (d : direction_t) (t : Z) (w : wheel) : Prop := {
  oc_irq : step_irq (hw w) = true;
  oc_target : target (step_count w) = t;
  oc_direction : direction (step_count w) = d;
  oc_current : 0 <= current (step_count w) < MICROSTEPS_360;
  oc_acceleration : acceleration_ok (acceleration w);
  oc_max_speed : 1 <= max_speed w <= ACCEL_MIN_SPEED_MS_PER_TURN;
}.

(** [w'] is [w] with the counter at [c]; the semaphore of the steps has been
    taken and the speed may have changed. *)
Definition moved (c : Z) (w w' : wheel) : Prop :=
  exists p s, w' = set_pwm p (set_sems s (encoder_sem w) (cmd_sem w) (set_current c w)) /\
    (p = pwm (hw w) \/ pwm_range (max_speed w) p).

Lemma moved_refl w : moved (current (step_count w)) w w.
Proof. exists (pwm (hw w)), (step_sem w). split; [| by left]. by destruct w as [??????? ????? ??? [] ?]; destruct step_count0. Qed.

Lemma moved_trans a b w w' w'' : moved a w w' -> moved b w' w'' -> moved b w w''.
Proof.
  intros (p & s & -> & Hp) (p' & s' & -> & Hp'). exists p', s'. split; [done |].
  cbn in Hp'. destruct Hp' as [-> | ?]; [done | by right].
Qed.

Lemma moved_on_course d t c w w' : moved c w w' -> on_course d t w ->
  0 <= c < MICROSTEPS_360 -> on_course d t w'.
Proof.
  intros (p & s & -> & _) [] Hc. by split.
Qed.

Lemma moved_current c w w' : moved c w w' -> current (step_count w') = c.
Proof. by intros (p & s & -> & _). Qed.

Lemma csd_abs_range from to : 0 <= from < MICROSTEPS_360 -> 0 <= to < MICROSTEPS_360 ->
  0 <= Z.abs (circular_signed_distance from to) <= MICROSTEPS_360 / 2.
Proof.
  intros. destruct (csd_range from to) as (E & _); [done.. |]. rewrite E.
  change (MICROSTEPS_360 / 2) with 3072. circle.
Qed.

(** One more step, the goal not reached. *)
Lemma one_step_on_course h now d t w :
  r_pwm h = 0 -> on_course d t w ->
  let c := advance d (current (step_count w)) 1 in
  c <> t -> exists w', one_step h now w = Some w' /\ moved c w w'.
Proof.
  intros Hp [H1 H2 H2' H3 (Ht & Hs & Hm) H5] c Hc.
  unfold one_step. rewrite H1, (isr_advances _ H3), H2'. fold c.
  unfold process_step_event. cbn. rewrite H2. bfalse (t =? c).
  destruct (active (acceleration w)) eqn:Ea.
  - rewrite (Hm eq_refl).
    pose proof (csd_abs_range (start_position (acceleration w)) c Hs (advance_range _ _ _)).
    pose proof (ramp_step_range (Z.abs (circular_signed_distance (start_position (acceleration w)) c))
      (total_distance (acceleration w)) ltac:(lia) ltac:(lia)) as Hr.
    match goal with |- context [calculate_linear_ramp_frequency ?v _ _ _] => set (v0 := v) end.
    change (get_max_frequency w) with (get_max_frequency v0).
    pose proof (max_frequency_range v0 H5) as HM. change (microsteps_per_second 1) with 6144000 in HM.
    rewrite ramp_frequency_spec; [| lia_wheel..].
    pose proof (ramp_bounds v0 _ H5 (proj1 Hr)) as Hf. cbn.
    rewrite set_frequency_ok; [| done | lia_wheel]. cbn.
    eexists. split; [done |]. eexists _, false. split; [reflexivity |]. right.
    apply frequency_in_range; [lia |]. change (get_max_frequency w) with (get_max_frequency v0). lia_wheel.
  - eexists. split; [done |]. exists (pwm (hw w)), false. split; [| by left].
    destruct w as [??????? ????? ??? [] ?]. reflexivity.
Qed.

(** [k] steps, the goal not reached on the way. *)
Lemma run_on_course h now d t : r_pwm h = 0 -> forall k w,
  on_course d t w ->
  (forall j, 1 <= j <= Z.of_nat k -> advance d (current (step_count w)) j <> t) ->
  exists w', run_steps h now k w = Some w' /\
    moved (advance d (current (step_count w)) (Z.of_nat k)) w w'.
Proof.
  intros Hp. induction k as [|k IH]; intros w Hw Hk.
  - exists w. split; [done |]. cbn [Z.of_nat]. rewrite advance_0 by apply Hw. apply moved_refl.
  - destruct (one_step_on_course h now d t w Hp Hw (Hk 1 ltac:(lia))) as (w1 & E1 & M1).
    pose proof (moved_on_course _ _ _ _ _ M1 Hw (advance_range _ _ _)) as Hw1.
    destruct (IH w1 Hw1) as (w2 & E2 & M2).
    { intros j Hj. rewrite (moved_current _ _ _ M1), advance_add. apply Hk. lia. }
    exists w2. cbn [run_steps]. rewrite E1. split; [done |].
    rewrite (moved_current _ _ _ M1), advance_add in M2.
    replace (Z.of_nat (S k)) with (1 + Z.of_nat k) by lia. by eapply moved_trans.
Qed.

Lemma run_steps_app h now k l w :
  run_steps h now (k + l) w = (w ← run_steps h now k w; run_steps h now l w).
Proof.
  revert w. induction k as [|k IH]; intros w; cbn; [done |].
  destruct (one_step h now w); cbn; [apply IH | done].
Qed.

(** The last step of a move: the wheel stops at its goal; the position is
    published when it is a standard one.  [enc]: the move used the encoder. *)
Record arrived (h : hw_ret) (now : Z) (w w' : wheel) : Prop := {
  ar_state : state w' = STATE_IDLE;
  ar_current : current (step_count w') = target (step_count w);
  ar_stopped : stopped w';
  ar_timer : scale_down_time w' = u32 (now + IDLE_CURRENT_DELAY_MS);
  ar_pending : pending w' = pending w;
  ar_encoder : encoder_enabled (positioning w) = true -> r_enc_power h = 0 -> r_enc_irq h = 0 ->
    enc_irq (hw w') = IRQ_DISABLED;
  ar_reports : reports w' =
    if bool_decide (target_position (positioning w) = UNKNOWN) then reports w
    else reports w ++ [Report (previous_position (positioning w)) (target_position (positioning w))
           (step_diff_microsteps (positioning w)) (u32 (now - start_time_ms (positioning w)))
           (linear_acceleration w) (max_speed w)
           (if calibration_complete (calib w)
            then Some (bump_width_pass_through (calib w), bump_width_vertical (calib w),
                       bump_width_horizontal (calib w))
            else None)];
}.

Lemma one_step_arrives h now d t w :
  on_course d t w -> advance d (current (step_count w)) 1 = t ->
  encoder_state w = false \/ encoder_triggered (positioning w) = true ->
  exists w', one_step h now w = Some w' /\ arrived h now w w'.
Proof.
  intros [H1 H2 H2' H3 _ _] Ha He. unfold one_step. rewrite H1, (isr_advances _ H3), H2', Ha.
  unfold process_step_event. cbn. rewrite H2, Z.eqb_refl.
  change (encoder_state (set_sems _ _ _ _)) with (encoder_state w).
  change (encoder_state (polarizer_halt _)) with (encoder_state w).
  assert (encoder_state w && negb (encoder_triggered (positioning w)) = false) as ->
    by (destruct He as [-> | ->]; [done | apply andb_false_r]).
  assert (negb (encoder_state w) || encoder_triggered (positioning w) = true) as ->
    by (destruct He as [-> | ->]; [done | apply orb_true_r]).
  eexists. split; [reflexivity |]. rewrite andb_true_r.
  unfold disable_encoder.
  destruct (decide (target_position (positioning w) = UNKNOWN)) as [E|E];
    [rewrite (bool_decide_false (_ <> _)) by tauto | rewrite (bool_decide_true (_ <> _)) by done];
    cbn; destruct (encoder_enabled (positioning w)) eqn:Ee; cbn;
    destruct (Z.eqb_spec (r_enc_power h) 0); cbn; try destruct (Z.eqb_spec (r_enc_irq h) 0); cbn;
    (split; cbn; [done | done | done | done | done | done || congruence |]);
    rewrite ?bool_decide_true by done; rewrite ?bool_decide_false by done; done.
Qed.

Lemma angle_to_step_range angle : 0 <= angle <= 3600 -> 0 <= angle_to_step angle < MICROSTEPS_360.
Proof.
  intros H. unfold angle_to_step. rewrite s32_small by lia. apply Z.rem_bound_pos; [| lia_wheel].
  apply Z.quot_pos; lia_wheel.
Qed.

(** Every driver call succeeds. *)
Definition hw_works (h : hw_ret) : Prop :=
  r_scale h = 0 /\ r_pwm h = 0 /\ r_dir h = 0 /\ r_enc_power h = 0 /\ r_enc_irq h = 0.

(** The command moves the wheel: it is not at the standard position asked for. *)
Definition must_move (angle : Z) (w : wheel) : Prop :=
  get_current_position w <> angle_to_position angle \/ angle_to_position angle = UNKNOWN.

Definition frequency_valid (f : Z) (w : wheel) : Prop :=
  f = 0 \/ FREQUENCY_MINIMUM <= f <= get_max_frequency w.

(** What [execute_set_angle] leaves when the wheel starts moving in direction
    [d]. *)
Record started (now f angle : Z) (d : direction_t) (w w' : wheel) : Prop := {
  st_course : on_course d (angle_to_step angle) w';
  st_current : current (step_count w') = current (step_count w);
  st_pwm : pwm_range (max_speed w) (pwm (hw w'));
  st_state : state w' = if negb (bool_decide (angle_to_position angle = UNKNOWN)) && negb (f =? 0)
                        then STATE_POSITIONING_WITH_ENCODER else STATE_POSITIONING;
  st_encoder : encoder_state w' = true ->
    target_notch_edge (positioning w') = calculate_notch_edge (calib w) (angle_to_step angle) d /\
    encoder_triggered (positioning w') = false /\ encoder_enabled (positioning w') = true /\
    enc_irq (hw w') = IRQ_RISING;
  st_positions : previous_position (positioning w') = get_current_position w /\
    target_position (positioning w') = angle_to_position angle /\
    step_diff_microsteps (positioning w') = 0 /\ start_time_ms (positioning w') = now;
  st_same : calib w' = calib w /\ reports w' = reports w /\ pending w' = pending w /\
    linear_acceleration w' = linear_acceleration w /\ max_speed w' = max_speed w;
}.

Lemma rotate_works h f w : hw_works h -> FREQUENCY_MINIMUM <= f <= get_max_frequency w ->
  polarizer_rotate h f w =
    (0, set_pwm (NSEC_PER_SEC / f, NSEC_PER_SEC / f / 2)
          (set_step_irq true (set_motor_current 100 (set_scale_down_time 0 w)))).
Proof.
  intros (Hs & Hp & _) Hf. unfold polarizer_rotate. rewrite Hs. cbn [Z.eqb negb].
  by rewrite set_frequency_ok.
Qed.

Lemma execute_set_angle_starts h now f angle short w :
  wheel_ok w -> state w = STATE_IDLE -> hw_works h -> 0 <= angle <= 3600 ->
  frequency_valid f w -> must_move angle w ->
  let start := current (step_count w) in
  let goal := angle_to_step angle in
  let n := move_length short start goal in
  exists d w', execute_set_angle h now f angle short w = (0, w') /\ started now f angle d w w' /\
    1 <= n <= MICROSTEPS_360 /\ advance d start n = goal /\
    (forall j, 1 <= j < n -> advance d start j <> goal).
Proof.
  intros Hw Hst Hh Ha Hf Hm. cbv zeta. pose proof Hh as (_ & _ & Hd & He1 & He2).
  unfold execute_set_angle. rewrite Hst. cbn [bool_decide negb].
  rewrite (bool_decide_false (STATE_IDLE = STATE_UNINITIALIZED)) by done.
  rewrite (bool_decide_true (STATE_IDLE = STATE_IDLE)) by done. cbn [negb].
  replace (bool_decide (get_current_position w = angle_to_position angle) &&
    negb (bool_decide (get_current_position w = UNKNOWN))) with false.
  2:{ symmetry. destruct Hm as [Hm|Hm]; [by rewrite bool_decide_false |].
      destruct (decide (get_current_position w = angle_to_position angle)) as [E|E];
        [| by rewrite bool_decide_false].
      rewrite (bool_decide_true (_ = UNKNOWN)) by congruence. apply andb_false_r. }
  match goal with |- context [choose_direction h short _ ?v] => set (w1 := v) end.
  pose proof (angle_to_step_range angle Ha) as Hg.
  destruct (choose_direction_spec h short (angle_to_step angle) w1 Hd (ok_current w Hw) Hg)
    as (d & s & -> & Hn & Harr & Hnot & Hs). cbn in Hn, Harr, Hnot.
  exists d. pose proof (max_frequency_range w (ok_max_speed w Hw)) as HM.
  change (microsteps_per_second 1) with 6144000 in HM.
  destruct (ok_acceleration w Hw) as (Ht & Hsp & _).
  set (enc := negb (bool_decide (angle_to_position angle = UNKNOWN)) && negb (f =? 0)).
  assert (arm_encoder h (angle_to_step angle) (set_dir_field d w1) =
    set_encoder_enabled true (set_enc_irq IRQ_RISING (set_enc_power true (set_positioning
      (Positioning (calculate_notch_edge (calib w) (angle_to_step angle) d) false false now
         (get_current_position w) (angle_to_position angle) 0) (set_dir_field d w1))))) as Henc.
  { unfold arm_encoder, enable_encoder. rewrite He1, He2. done. }
  unfold arm_speed. destruct (Z.eqb_spec f 0) as [E|E].
  - assert (enc = false) as -> by apply andb_false_r.
    rewrite rotate_works; [| done | cbn; change (get_max_frequency _) with (get_max_frequency w); lia_wheel].
    eexists. split; [reflexivity |]. split; [| done]. split; cbn; try done.
    + split; cbn; try done; [apply Hw | | apply Hw].
      split_and!; cbn; [lia | lia | apply Hw | apply Hw | done].
    + apply frequency_in_range; [apply Hw | lia_wheel].
    + by rewrite E, andb_false_r.
  - destruct Hf as [?|Hf]; [done |].
    rewrite rotate_works; [| done | destruct enc; [rewrite Henc |]; cbn; done].
    eexists. split; [reflexivity |]. split; [| done]. rewrite Henc.
    destruct enc eqn:Ee; split; cbn; try done.
    all: try (apply Z.eqb_neq in E; rewrite E; subst enc; by rewrite Ee).
    all: try (by apply frequency_in_range; [apply Hw |]).
    all: split; cbn; try done; try apply Hw.
Qed.

Lemma arrived_moved h now c w w' w'' : moved c w w' -> arrived h now w' w'' -> arrived h now w w''.
Proof. by intros (p & s & -> & _) []. Qed.

(** The last of [n] steps. *)
Lemma run_arrives h now d t w n :
  r_pwm h = 0 -> on_course d t w -> 1 <= n -> advance d (current (step_count w)) n = t ->
  (forall j, 1 <= j < n -> advance d (current (step_count w)) j <> t) ->
  encoder_state w = false \/ encoder_triggered (positioning w) = true ->
  exists w', run_steps h now (Z.to_nat n) w = Some w' /\ arrived h now w w'.
Proof.
  intros Hp Hw Hn Ha Hnot He.
  replace (Z.to_nat n) with (Z.to_nat (n - 1) + 1)%nat by lia. rewrite run_steps_app.
  destruct (run_on_course h now d t Hp (Z.to_nat (n - 1)) w Hw) as (w1 & E1 & M).
  { intros j Hj. apply Hnot. lia. }
  rewrite E1. cbn [mbind option_bind run_steps].
  rewrite Z2Nat.id in M by lia.
  pose proof (moved_on_course _ _ _ _ _ M Hw (advance_range _ _ _)) as Hw1.
  destruct (one_step_arrives h now d t w1 Hw1) as (w2 & E2 & A).
  - rewrite (moved_current _ _ _ M), advance_add. rewrite <- Ha. f_equal. lia.
  - destruct M as (p & s & -> & _). exact He.
  - exists w2. rewrite E2. split; [done |]. by eapply arrived_moved.
Qed.

(** Until then the wheel moves, within the speeds allowed. *)
Lemma run_moving h now t f angle d w w1 k :
  r_pwm h = 0 -> started now f angle d w w1 ->
  (forall j, 1 <= j <= Z.of_nat k -> advance d (current (step_count w)) j <> angle_to_step angle) ->
  exists w', run_steps h t k w1 = Some w' /\
    moved (advance d (current (step_count w)) (Z.of_nat k)) w1 w' /\ pwm_range (max_speed w) (pwm (hw w')).
Proof.
  intros Hp Hs Hk. rewrite <- (st_current _ _ _ _ _ _ Hs) in Hk |- *.
  destruct (run_on_course h t d _ Hp k w1 (st_course _ _ _ _ _ _ Hs) Hk) as (w' & E & M).
  exists w'. split_and!; [done.. |]. destruct (st_same _ _ _ _ _ _ Hs) as (_ & _ & _ & _ & Ev).
  destruct M as (p & s & -> & [-> | Hm]); cbn; [| by rewrite <-Ev]. apply (st_pwm _ _ _ _ _ _ Hs).
Qed.

(** C16: a move without the encoder (a ramp, or an angle that is no standard
    position), started from rest, turns the wheel one microstep at a time in one
    direction, with the step frequency always between the minimum and the speed that
    was configured: a whole turn takes at least [max_speed] milliseconds.  After
    exactly [move_length] steps it stops the motor at the step of the angle
    asked for, is idle again, has scheduled the reduction of the motor's current
    and has published the position if it is a standard one. *)
Theorem move_reaches_target h now t f angle short w :
  wheel_ok w -> state w = STATE_IDLE -> hw_works h -> 0 <= angle <= 3600 ->
  frequency_valid f w -> must_move angle w -> f = 0 \/ angle_to_position angle = UNKNOWN ->
  let start := current (step_count w) in
  let n := Z.to_nat (move_length short start (angle_to_step angle)) in
  exists d w1 w2, execute_set_angle h now f angle short w = (0, w1) /\
    (forall k, (k < n)%nat -> exists wk, run_steps h t k w1 = Some wk /\
       state wk = STATE_POSITIONING /\ pwm_range (max_speed w) (pwm (hw wk)) /\
       current (step_count wk) = advance d start (Z.of_nat k)) /\
    run_steps h t n w1 = Some w2 /\ state w2 = STATE_IDLE /\ stopped w2 /\
    current (step_count w2) = angle_to_step angle /\
    scale_down_time w2 = u32 (t + IDLE_CURRENT_DELAY_MS) /\
    length (reports w2) =
      (length (reports w) + if bool_decide (angle_to_position angle = UNKNOWN) then 0 else 1)%nat.
Proof.
  intros Hw Hst Hh Ha Hf Hm Ho. cbv zeta. pose proof Hh as (_ & Hp & _).
  destruct (execute_set_angle_starts h now f angle short w) as (d & w1 & E & S & Hn & Harr & Hnot); [done.. |].
  assert (state w1 = STATE_POSITIONING) as Hs1.
  { rewrite (st_state _ _ _ _ _ _ S). destruct Ho as [-> | ->]; [by rewrite andb_false_r |].
    by rewrite bool_decide_true. }
  pose proof S as [_ Hc _ _ _ (_ & Htp & _) (_ & Hr & _)].
  destruct (run_arrives h t d (angle_to_step angle) w1
    (move_length short (current (step_count w)) (angle_to_step angle))) as (w2 & E2 & A);
    [done | apply S | lia | by rewrite Hc | by rewrite Hc | |].
  { left. unfold encoder_state. by rewrite Hs1. }
  exists d, w1, w2. split; [done |]. split; [| split; [done |]].
  - intros k Hk. destruct (run_moving h now t f angle d w w1 k Hp S) as (wk & Ek & M & Hpw).
    { intros j Hj. apply Hnot. lia. }
    exists wk. split_and!; [done | | done | by eapply moved_current].
    destruct M as (p & s & -> & _). exact Hs1.
  - destruct A as [A1 A2 A3 A4 A5 A6 A7]. split_and!; [done | done | | done |].
    + rewrite A2. apply S.
    + rewrite A7, Htp, Hr. destruct (bool_decide (angle_to_position angle = UNKNOWN));
        rewrite ?length_app; cbn; lia.
Qed.

Lemma wheel_at_ok c : 0 <= c < MICROSTEPS_360 -> wheel_ok (wheel_at c).
Proof.
  intros H. unfold wheel_at, wheel_reset. unfold MICROSTEPS_360 in H.
  split; cbn; unfold calib_ok, acceleration_ok, stopped; cbn; try (split_and!); try lia_wheel; try done.
  by left.
Qed.

Lemma move_reaches_target_witness :
  let w := wheel_at 0 in
  exists w1 w2, execute_set_angle hw_ok 7 0 1200 true w = (0, w1) /\
    run_steps hw_ok 9 2048 w1 = Some w2 /\ current (step_count w2) = 2048.
Proof.
  destruct (move_reaches_target hw_ok 7 9 0 1200 true (wheel_at 0)) as (d & w1 & w2 & E & _ & E2 & _ & _ & E3 & _).
  - apply wheel_at_ok. vm_compute. intuition discriminate.
  - reflexivity.
  - repeat split.
  - lia.
  - left. reflexivity.
  - left. vm_compute. discriminate.
  - left. reflexivity.
  - exists w1, w2. split_and!; [exact E | exact E2 | exact E3].
Defined.

(** ** The encoder *)

Lemma edge_to_center_range c t : calib_ok c ->
  0 <= get_edge_to_center_for_position c t < MICROSTEPS_360 / 2.
Proof.
  intros (H1 & H2 & H3 & _). change (MICROSTEPS_360 / 2) with 3072. unfold MICROSTEPS_360 in *.
  unfold get_edge_to_center_for_position. destruct (calibration_complete c); cbn [negb]; [| lia_wheel].
  repeat (bdestruct1; cbn [orb]); Z.div_mod_to_equations; lia_wheel.
Qed.

(** From the edge of the notch, the center is [edge_to_center] steps ahead. *)
Lemma notch_edge_distance c t d : calib_ok c -> 0 <= t < MICROSTEPS_360 ->
  0 <= calculate_notch_edge c t d < MICROSTEPS_360 /\
  advance d (calculate_notch_edge c t d) (get_edge_to_center_for_position c t) = t /\
  (forall j, 1 <= j < get_edge_to_center_for_position c t -> advance d (calculate_notch_edge c t d) j <> t).
Proof.
  intros Hc Ht. pose proof (edge_to_center_range c t Hc) as He. change (MICROSTEPS_360 / 2) with 3072 in He.
  unfold calculate_notch_edge. rewrite s32_small by lia.
  set (e := get_edge_to_center_for_position c t) in *. clearbody e.
  destruct d; cbn [advance]; split_and!; intros; circle.
Qed.

(** Enough of a run: the encoder's event, then the way to the center. *)
Lemma encoder_event_course d t w : on_course d t w ->
  0 <= target_notch_edge (positioning w) < MICROSTEPS_360 ->
  on_course d t (process_encoder_event_positioning w).
Proof.
  intros H He. unfold process_encoder_event_positioning.
  destruct (encoder_triggered (positioning w)); [done |]. split; cbn; try done; apply H.
Qed.

(** A move with the encoder: the wheel may have lost or gained steps, so the
    notch of the position asked for can show up after any number [k] of counted
    steps short of the end of the move.  Then the counter is set to the edge of
    that notch, exactly the distance from the edge to the center (half the width
    measured by the calibration, 96 microsteps without) is still travelled, the
    motor stops at the angle asked for, the encoder's interrupt is disabled, and
    the position is published with the correction that was made. *)
Theorem encoder_corrects_position h now t f angle short w k :
  wheel_ok w -> state w = STATE_IDLE -> hw_works h -> 0 <= angle <= 3600 ->
  FREQUENCY_MINIMUM <= f <= get_max_frequency w -> get_current_position w <> angle_to_position angle ->
  angle_to_position angle <> UNKNOWN ->
  let start := current (step_count w) in
  let goal := angle_to_step angle in
  Z.of_nat k < move_length short start goal ->
  let e := get_edge_to_center_for_position (calib w) goal in
  1 <= e ->
  exists d w1 wk w2 r, execute_set_angle h now f angle short w = (0, w1) /\
    encoder_state w1 = true /\ run_steps h t k w1 = Some wk /\
    run_steps h t (Z.to_nat e) (process_encoder_event_positioning wk) = Some w2 /\
    state w2 = STATE_IDLE /\ stopped w2 /\ current (step_count w2) = goal /\
    enc_irq (hw w2) = IRQ_DISABLED /\ pending w2 = pending w /\
    reports w2 = reports w ++ [r] /\ rep_current r = angle_to_position angle /\
    rep_step_loss r =
      Z.abs (circular_signed_distance (calculate_notch_edge (calib w) goal d) (advance d start (Z.of_nat k))).
Proof.
  intros Hw Hst Hh Ha Hf Hm1 Hm2 start goal Hk e He. pose proof Hh as (_ & Hp & _ & Hq1 & Hq2).
  destruct (execute_set_angle_starts h now f angle short w) as (d & w1 & E & S & Hn & Harr & Hnot);
    [done.. | by right | by left |].
  assert (encoder_state w1 = true) as Hs1.
  { unfold encoder_state. rewrite (st_state _ _ _ _ _ _ S).
    rewrite (bool_decide_false (angle_to_position angle = UNKNOWN)) by done.
    replace (f =? 0) with false by (symmetry; apply Z.eqb_neq; lia_wheel). done. }
  destruct (run_moving h now t f angle d w w1 k Hp S) as (wk & Ek & M & _).
  { intros j Hj. apply Hnot. subst start goal. lia. }
  pose proof S as [Hcourse Hc _ _ Hedge (Hpp & Htp & _) (Hcal & Hr & Hpend & _)].
  destruct (Hedge Hs1) as (Hne & Htr & Hen & Hirq).
  destruct (notch_edge_distance (calib w) goal d (ok_calib w Hw) (angle_to_step_range angle Ha))
    as (Hrange & Hadv & Hfirst).
  pose proof (moved_on_course _ _ _ _ _ M Hcourse (advance_range _ _ _)) as Hck.
  destruct M as (p & s & -> & _). change (current (step_count w)) with start in Ek, Hck.
  match type of Ek with _ = Some ?v => set (wk := v) in * end.
  assert (on_course d goal (process_encoder_event_positioning wk)) as Hce.
  { apply encoder_event_course; [done |]. cbn. by rewrite Hne. }
  assert (process_encoder_event_positioning wk = set_current (target_notch_edge (positioning w1))
    (set_positioning (Positioning (target_notch_edge (positioning w1)) true true
       (start_time_ms (positioning w1)) (previous_position (positioning w1))
       (target_position (positioning w1))
       (Z.abs (circular_signed_distance (target_notch_edge (positioning w1)) (advance d start (Z.of_nat k))))) wk))
    as Hev.
  { unfold process_encoder_event_positioning. subst wk. cbn. rewrite Htr, Hen.
    destruct (direction (step_count w1)); [done |]. by rewrite Z.abs_opp. }
  destruct (run_arrives h t d goal (process_encoder_event_positioning wk) e) as (w2 & E2 & A);
    [done | done | lia | | | |].
  { rewrite Hev. cbn. by rewrite Hne. }
  { rewrite Hev. cbn. rewrite Hne. done. }
  { right. by rewrite Hev. }
  destruct A as [A1 A2 A3 A4 A5 A6 A7]. rewrite Hev in A2, A5, A6, A7. cbn in A2, A5, A6, A7.
  rewrite Htp, bool_decide_false in A7 by done.
  eexists d, w1, wk, w2, _. do 6 (split; [assumption |]). split_and!.
  - rewrite A2. apply Hcourse.
  - by apply A6.
  - by rewrite A5.
  - rewrite A7, Hr. reflexivity.
  - done.
  - cbn. by rewrite Hne.
Qed.

Lemma encoder_corrects_position_witness :
  exists w1 wk w2, execute_set_angle hw_ok 7 2048 1200 true (wheel_at 0) = (0, w1) /\
    run_steps hw_ok 9 1900 w1 = Some wk /\
    run_steps hw_ok 9 97 (process_encoder_event_positioning wk) = Some w2 /\
    current (step_count w2) = 2048.
Proof.
  destruct (encoder_corrects_position hw_ok 7 9 2048 1200 true (wheel_at 0) 1900)
    as (d & w1 & wk & w2 & r & E & _ & Ek & E2 & _ & _ & Ec & _).
  - apply wheel_at_ok. vm_compute. intuition discriminate.
  - reflexivity.
  - repeat split.
  - lia.
  - vm_compute. intuition discriminate.
  - vm_compute. discriminate.
  - vm_compute. discriminate.
  - vm_compute. reflexivity.
  - vm_compute. discriminate.
  - exists w1, wk, w2. split_and!; [exact E | exact Ek | exact E2 | exact Ec].
Defined.

(** When the notch never shows up, the motor is stopped at the end of the
    move all the same, nothing is published, and the wheel asks itself for a new
    homing: the counter is not trusted any more. *)
Theorem encoder_missed_rehomes h now t f angle short w :
  wheel_ok w -> state w = STATE_IDLE -> hw_works h -> 0 <= angle <= 3600 ->
  FREQUENCY_MINIMUM <= f <= get_max_frequency w -> get_current_position w <> angle_to_position angle ->
  angle_to_position angle <> UNKNOWN ->
  exists w1 w2, execute_set_angle h now f angle short w = (0, w1) /\
    run_steps h t (Z.to_nat (move_length short (current (step_count w)) (angle_to_step angle))) w1 = Some w2 /\
    stopped w2 /\ state w2 = STATE_POSITIONING_WITH_ENCODER /\ pending w2 = CMD_HOME /\
    cmd_sem w2 = true /\ reports w2 = reports w.
Proof.
  intros Hw Hst Hh Ha Hf Hm1 Hm2. pose proof Hh as (_ & Hp & _).
  destruct (execute_set_angle_starts h now f angle short w) as (d & w1 & E & S & Hn & Harr & Hnot);
    [done.. | by right | by left |].
  assert (state w1 = STATE_POSITIONING_WITH_ENCODER) as Hs1.
  { rewrite (st_state _ _ _ _ _ _ S). rewrite (bool_decide_false (_ = UNKNOWN)) by done.
    replace (f =? 0) with false by (symmetry; apply Z.eqb_neq; lia_wheel). done. }
  set (n := move_length short (current (step_count w)) (angle_to_step angle)) in *.
  pose proof S as [Hcourse Hc _ _ Hedge _ (_ & Hr & _)].
  destruct (Hedge ltac:(unfold encoder_state; by rewrite Hs1)) as (_ & Htr & _). clear Hedge.
  destruct (run_moving h now t f angle d w w1 (Z.to_nat (n - 1)) Hp S) as (wk & Ek & M & _).
  { intros j Hj. apply Hnot. lia. }
  rewrite Z2Nat.id in M by lia.
  pose proof (moved_on_course _ _ _ _ _ M Hcourse (advance_range _ _ _)) as [K1 K2 K2' K3 _ _].
  replace (Z.to_nat n) with (Z.to_nat (n - 1) + 1)%nat by lia.
  pose proof (moved_current _ _ _ M) as Mc. destruct M as (p & s & Ewk & _).
  eexists w1, _. split; [done |]. rewrite run_steps_app, Ek. cbn [mbind option_bind run_steps].
  unfold one_step. rewrite K1, (isr_advances _ K3), K2', Mc, advance_add.
  replace (n - 1 + 1) with n by lia. rewrite Harr.
  unfold process_step_event. cbn. rewrite K2, Z.eqb_refl, Ewk.
  change (encoder_state (set_sems _ _ _ _)) with (encoder_state w1).
  assert (encoder_state w1 = true) as -> by (unfold encoder_state; by rewrite Hs1).
  cbn. rewrite Htr. split; [reflexivity |]. by split_and!.
Qed.

Lemma encoder_missed_rehomes_witness :
  exists w1 w2, execute_set_angle hw_ok 7 2048 1200 true (wheel_at 0) = (0, w1) /\
    run_steps hw_ok 9 2048 w1 = Some w2 /\ pending w2 = CMD_HOME.
Proof.
  destruct (encoder_missed_rehomes hw_ok 7 9 2048 1200 true (wheel_at 0))
    as (w1 & w2 & E & E2 & _ & _ & Ep & _).
  - apply wheel_at_ok. vm_compute. intuition discriminate.
  - reflexivity.
  - repeat split.
  - lia.
  - vm_compute. intuition discriminate.
  - vm_compute. discriminate.
  - vm_compute. discriminate.
  - exists w1, w2. split_and!; [exact E | exact E2 | exact Ep].
Defined.

(** ** The profile of the ramp *)

(** Over a move of at most half a turn (every move by the shortest path) the
    ramp is symmetric: the step used for the speed rises with the distance
    travelled up to the middle and falls back to 0 at the last microstep.  The
    distance travelled is measured as the shortest distance to the start, so over
    a longer forward move it is wrong from half a turn on: the speed rises again
    and the last microstep is made at the ramp step given below, the top of the
    ramp for two thirds of a turn. *)
Theorem ramp_profile d start total k :
  0 <= start < MICROSTEPS_360 -> 0 <= k < total -> total <= MICROSTEPS_360 ->
  let step k := calculate_ramp_step (Z.abs (circular_signed_distance start (advance d start k))) total in
  (total <= MICROSTEPS_360 / 2 -> step k = if k <? total / 2 then k else total - 1 - k) /\
  (MICROSTEPS_360 / 2 < total -> step (total - 1) = Z.min (2 * total - MICROSTEPS_360 - 2) (MICROSTEPS_360 + 1 - total)).
Proof.
  intros Hs Hk Ht step. change (MICROSTEPS_360 / 2) with 3072. subst step. cbv beta.
  assert (forall j, 0 <= j < MICROSTEPS_360 -> Z.abs (circular_signed_distance start (advance d start j)) =
    Z.min j (MICROSTEPS_360 - j)) as E.
  { intros j Hj. destruct (csd_range start (advance d start j) Hs (advance_range _ _ _)) as (E & _).
    rewrite E. destruct d; cbn [advance]; circle. }
  unfold calculate_ramp_step. split; intros; rewrite !E by lia_wheel;
    Z.div_mod_to_equations; repeat (bdestruct1; cbn [orb]); lia_wheel.
Qed.

Lemma ramp_profile_witness :
  calculate_ramp_step (Z.abs (circular_signed_distance 6000 (advance FORWARD 6000 2047))) 2048 = 0.
Proof.
  destruct (ramp_profile FORWARD 6000 2048 2047) as (H & _); [lia_wheel.. |].
  rewrite H; [vm_compute; reflexivity | vm_compute; discriminate].
Defined.

(** Two thirds of a turn forward at the default settings: one microstep before
    the end the motor still runs at the maximum speed, 30720 microsteps per
    second, where it is stopped. *)
Example long_forward_ramp_stops_at_full_speed :
  let w := (execute_set_angle hw_ok 0 0 2400 false (wheel_at 0)).2 in
  (one_step hw_ok 0 (set_current 4094 w) ≫= fun w => Some (current (step_count w), fst (pwm (hw w))))
    = Some (4095, NSEC_PER_SEC / 30720).
Proof. vm_compute. reflexivity. Qed.

(** Asked for the angle it is already at (not a standard one) by the shortest
    path, the wheel makes a whole turn backwards. *)
Example shortest_path_full_turn :
  current (step_count (wheel_at 512)) = angle_to_step 300 /\
  direction (step_count (execute_set_angle hw_ok 0 0 300 true (wheel_at 512)).2) = BACKWARD /\
  must_move 300 (wheel_at 512) /\ move_length true 512 (angle_to_step 300) = MICROSTEPS_360.
Proof. split_and!; [reflexivity | reflexivity | right; reflexivity | reflexivity]. Qed.

(** A speed slower than 6144 s per turn is taken for the ramp's 0. *)
Example slow_speed_is_ramp : handle_polarizer_frequency 6144001 = 0.
Proof. reflexivity. Qed.
