(* ===== verification/PolarizerHoming.v ===== *)
(** main_board/src/optics/polarizer_wheel/polarizer_wheel.c, continued: homing,
    calibration, the thread's loop and the start-up, on top of Polarizer.

    Homing and calibration block the wheel's thread: it waits for the encoder or
    for a step while the motor turns.  What happens during a wait is an entry of
    a tape ([wait]): how many microsteps the motor made, whether the semaphore
    was obtained, the level of the encoder's pin, and the uptime when the thread
    runs again.  The procedures consume the tape; [None] is a tape too short for
    the code to return. *)

From S2P Require Import Prelude Polarizer.

(** ** Waiting *)

Record wait := Wait { w_steps : nat; w_got : bool; w_level : bool; w_time : Z }.

(** [n] step interrupts; the interrupt is on only while the motor turns. *)
Definition turn (n : nat) (w : wheel) : wheel :=
  Nat.iter n (fun w => polarizer_wheel_step_isr (step_irq (hw w)) w) w.

(** [k_sem_take(&encoder_sem, ...)]. *)
Definition wait_encoder (x : wait) (w : wheel) : wheel := reset_encoder_sem (turn (w_steps x) w).

(** [k_sem_take(&step_sem, K_MSEC(10))]: a step already counted returns at once;
    one made during the wait ends it. *)
Definition wait_step (x : wait) (w : wheel) : wheel :=
  let w' := turn (w_steps x) w in
  let left := if step_sem w then (0 <? Z.of_nat (w_steps x)) else (1 <? Z.of_nat (w_steps x)) in
  set_sems left (encoder_sem w') (cmd_sem w') w'.

(** ** Homing *)

Definition CLOSE_NOTCH_MAX : Z := Eval cbv in 4 * MICROSTEPS_PER_STEP.
(** 2.5 * 128 *)
Definition CLOSE_NOTCH_MIN : Z := 320.
Definition HOMING_SPIN_ATTEMPTS : Z := 3.
Definition NOTCH_DETECT_ATTEMPTS : Z := 9.

Definition disable_drv (h : hw_ret) (w : wheel) : wheel :=
  let w := set_scale_down_time 0 w in
  if r_drv h =? 0 then set_motor_on false w else w.

(** [POLARIZER_HOMING_FAIL]. *)
Definition homing_fail (h : hw_ret) (w : wheel) : wheel :=
  let w := set_state STATE_UNINITIALIZED (set_homing (notch_count w) false w) in
  disable_drv h (disable_encoder h (polarizer_halt w)).2.

Inductive spin_result := SpinFailed | SpinDone (spin_attempt : Z).

(** The inner loop: spin until a notch is seen, three times at most. *)
Fixpoint homing_spin (h : hw_ret) (fuel : nat) (spin_attempt : Z) (tape : list wait) (w : wheel)
  : option (spin_result * list wait * wheel) :=
  match fuel with
  | O => None
  | S k =>
      if spin_attempt <? HOMING_SPIN_ATTEMPTS then
        let w := reset_encoder_sem (set_current 0 w) in
        let '(ret, w) := polarizer_wheel_step_relative h FREQUENCY_DEFAULT (MICROSTEPS_120 * 2) w in
        if negb (ret =? RET_SUCCESS) then Some (SpinFailed, tape, homing_fail h w)
        else
          match tape with
          | [] => None
          | x :: tape =>
              let w := wait_encoder x w in
              if w_got x then Some (SpinDone spin_attempt, tape, polarizer_halt w)
              else homing_spin h k (spin_attempt + 1) tape w
          end
      else Some (SpinDone spin_attempt, tape, w)
  end.

Inductive search_result := SearchFailed | NotchFound | NotchMissing.

(** The outer loop: notches, until two of them are close to each other. *)
Fixpoint homing_search (h : hw_ret) (fuel : nat) (tape : list wait) (w : wheel)
  : option (search_result * list wait * wheel) :=
  match fuel with
  | O => None
  | S k =>
      if notch_count w <? NOTCH_DETECT_ATTEMPTS then
        '(r, tape, w) ← homing_spin h 4 0 tape w;
        match r with
        | SpinFailed => Some (SearchFailed, tape, w)
        | SpinDone a =>
            if a =? HOMING_SPIN_ATTEMPTS then Some (SearchFailed, tape, homing_fail h w)
            else
              let c := current (step_count w) in
              let found := negb (notch_count w =? 0) && (c <? CLOSE_NOTCH_MAX) && (CLOSE_NOTCH_MIN <? c) in
              let w := set_current 0 (set_homing (u8 (notch_count w + 1)) (homed w) w) in
              if found then Some (NotchFound, tape, w) else homing_search h k tape w
        end
      else Some (NotchMissing, tape, w)
  end.

(** [while (current != target && uptime - start < 1000)]; [now] is the uptime. *)
Fixpoint settle (goal start now : Z) (tape : list wait) (w : wheel) : option (Z * list wait * wheel) :=
  if (current (step_count w) =? goal) || (1000 <=? u32 (now - start)) then Some (now, tape, w)
  else match tape with
       | [] => None
       | x :: tape => settle goal start (w_time x) tape (wait_step x w)
       end.

(** From the close pair of notches to the center of the pass-through glass. *)
Definition homing_approach (h : hw_ret) (now : Z) (tape : list wait) (w : wheel)
  : option (Z * list wait * wheel) :=
  let w := reset_encoder_sem w in
  let w := (polarizer_wheel_step_relative h FREQUENCY_DEFAULT (NOTCH_EDGE_TO_CENTER + MICROSTEPS_120) w).2 in
  match tape with
  | [] => None
  | x :: tape =>
      let w := wait_encoder x w in
      '(now, tape, w) ←
        (if w_got x then
           let goal := MICROSTEPS_120 + NOTCH_EDGE_TO_CENTER in
           settle goal (w_time x) (w_time x) tape (set_target goal (set_current MICROSTEPS_120 w))
         else Some (w_time x, tape, w));
      Some (now, tape, polarizer_halt (disable_encoder h w).2)
  end.

(** [execute_homing] up to the search. *)
Definition homing_start (h : hw_ret) (now : Z) (w : wheel) : wheel :=
  let w := if r_drv h =? 0 then set_motor_on true w else w in
  let p := positioning w in
  let a := acceleration w in
  let w := set_acceleration (Acceleration (min_frequency a) false (start_position a) (total_distance a))
             (set_state STATE_HOMING w) in
  let w := set_positioning (Positioning (target_notch_edge p) (encoder_enabled p) (encoder_triggered p)
             now UNKNOWN PASS_THROUGH 0) w in
  let w := set_homing 0 (homed w) (enable_encoder h w).2 in
  (set_direction h FORWARD w).2.

(** [execute_homing] up to the calibration it may start; whether it got there. *)
Definition homing_core (h : hw_ret) (now : Z) (tape : list wait) (w : wheel)
  : option (bool * Z * list wait * wheel) :=
  '(r, tape, w) ← homing_search h 10 tape (homing_start h now w);
  match r with
  | SearchFailed => Some (false, now, tape, w)
  | NotchMissing => Some (false, now, tape, homing_fail h w)
  | NotchFound =>
      '(now, tape, w) ← homing_approach h now tape w;
      let w := set_current 0 (set_homing (notch_count w) true (set_state STATE_IDLE w)) in
      Some (true, now, tape, report_reached_state now w)
  end.

(** ** Calibration *)

Definition set_widths (p v z : Z) (c : calibration_t) : calibration_t :=
  Calibration p v z (bump_index c) (bump_entry_position c) (inside_bump c) (calibration_complete c)
    (needs_calibration c).

(** A falling edge: the width is recorded the first time the bump is seen. *)
Definition record_width (bump_width : Z) (c : calibration_t) : calibration_t :=
  let p := bump_width_pass_through c in
  let v := bump_width_vertical c in
  let z := bump_width_horizontal c in
  let index := bump_index c mod 4 in
  if index =? 0 then set_widths p (if v =? 0 then bump_width else v) z c
  else if index =? 2 then set_widths p v (if z =? 0 then bump_width else z) c
  else if index =? 3 then set_widths (if p =? 0 then bump_width else p) v z c
  else c.

Definition all_measured (c : calibration_t) : bool :=
  (MICROSTEPS_PER_STEP <? bump_width_pass_through c) && (MICROSTEPS_PER_STEP <? bump_width_vertical c) &&
  (MICROSTEPS_PER_STEP <? bump_width_horizontal c).

(** An edge of the encoder at position [pos]; whether every bump is measured. *)
Definition calibration_edge (is_high : bool) (pos : Z) (c : calibration_t) : calibration_t * bool :=
  if is_high then
    (Calibration (bump_width_pass_through c) (bump_width_vertical c) (bump_width_horizontal c)
       (bump_index c) (u32 pos) true (calibration_complete c) (needs_calibration c), false)
  else if inside_bump c then
    let width := pos - s32 (bump_entry_position c) in
    let width := u32 (if width <? 0 then width + MICROSTEPS_360 else width) in
    let c := record_width width c in
    let c := Calibration (bump_width_pass_through c) (bump_width_vertical c) (bump_width_horizontal c)
               (u8 (bump_index c + 1)) (bump_entry_position c) false (calibration_complete c)
               (needs_calibration c) in
    (c, all_measured c)
  else (c, false).

(** One spin: until every bump is measured, the motor is at its target, or four
    seconds have passed. *)
Fixpoint calibration_watch (start now : Z) (tape : list wait) (w : wheel)
  : option (bool * Z * list wait * wheel) :=
  if 4000 <=? u32 (now - start) then Some (false, now, tape, w)
  else match tape with
       | [] => None
       | x :: tape =>
           let w := wait_encoder x w in
           let '(c, done) := if w_got x then calibration_edge (w_level x) (current (step_count w)) (calib w)
                             else (calib w, false) in
           let w := set_calib c w in
           if done then Some (true, w_time x, tape, w)
           else if current (step_count w) =? target (step_count w) then Some (false, w_time x, tape, w)
           else calibration_watch start (w_time x) tape w
       end.

(** The encoder's interrupt reconfigured by calibration. *)
Definition config_enc_irq (h : hw_ret) (i : encoder_irq) (w : wheel) : wheel :=
  if r_enc_irq h =? 0 then set_enc_irq i w else w.

(** [for (spin = 0; spin < 2 && !calibration_done; spin++)]; the boolean is
    false when the wheel could not be started. *)
Fixpoint calibration_spins (h : hw_ret) (n : nat) (now : Z) (tape : list wait) (w : wheel)
  : option (bool * Z * list wait * wheel) :=
  match n with
  | O => Some (true, now, tape, w)
  | S n =>
      let w := reset_encoder_sem w in
      let '(ret, w) := polarizer_wheel_step_relative h FREQUENCY_DEFAULT (MICROSTEPS_360 * 3 / 4) w in
      if negb (ret =? RET_SUCCESS)
      then Some (false, now, tape, set_state STATE_IDLE (config_enc_irq h IRQ_DISABLED w))
      else
        '(done, now, tape, w) ← calibration_watch now now tape w;
        let w := polarizer_halt w in
        if (done : bool) then Some (true, now, tape, w) else calibration_spins h n now tape w
  end.

(** [execute_calibration] up to the homing that ends it; whether it got there. *)
Definition calibration_core (h : hw_ret) (now : Z) (tape : list wait) (w : wheel)
  : option (bool * Z * list wait * wheel) :=
  if negb (bool_decide (state w = STATE_IDLE)) then Some (false, now, tape, w)
  else if negb (homed w) then Some (false, now, tape, w)
  else if negb (bool_decide (get_current_position w = PASS_THROUGH)) then Some (false, now, tape, w)
  else
    let a := acceleration w in
    let w := set_acceleration (Acceleration (min_frequency a) false (start_position a) (total_distance a))
               (set_state STATE_CALIBRATING w) in
    let w := set_calib (Calibration 0 0 0 0 0 false false (needs_calibration (calib w))) w in
    if negb (r_enc_power h =? 0) then Some (false, now, tape, set_state STATE_IDLE w)
    else
      let w := set_enc_power true w in
      if negb (r_enc_irq h =? 0) then Some (false, now, tape, set_state STATE_IDLE w)
      else
        let w := reset_encoder_sem (config_enc_irq h IRQ_BOTH w) in
        let w := (set_direction h FORWARD w).2 in
        '(ok, now, tape, w) ← calibration_spins h 2 now tape w;
        if negb (ok : bool) then Some (false, now, tape, w)
        else
          let w := config_enc_irq h IRQ_DISABLED (polarizer_halt w) in
          let c := calib w in
          let complete := (0 <? bump_width_pass_through c) && (0 <? bump_width_vertical c) &&
                          (0 <? bump_width_horizontal c) in
          let w := set_calib (Calibration (bump_width_pass_through c) (bump_width_vertical c)
                     (bump_width_horizontal c) (bump_index c) (bump_entry_position c) (inside_bump c)
                     (complete || calibration_complete c) false) w in
          Some (true, now, tape, set_homing (notch_count w) false (set_state STATE_IDLE w)).

Definition set_needs_calibration (b : bool) (w : wheel) : wheel :=
  let c := calib w in
  set_calib (Calibration (bump_width_pass_through c) (bump_width_vertical c) (bump_width_horizontal c)
    (bump_index c) (bump_entry_position c) (inside_bump c) (calibration_complete c) b) w.

(** Homing starts the calibration, which ends with a homing. *)
Fixpoint execute_homing (fuel : nat) (h : hw_ret) (now : Z) (tape : list wait) (w : wheel)
  : option (Z * list wait * wheel) :=
  match fuel with
  | O => None
  | S k =>
      '(ok, now, tape, w) ← homing_core h now tape w;
      if negb (ok : bool) then Some (now, tape, w)
      else if needs_calibration (calib w) then
        '(ok, now, tape, w) ← calibration_core h now tape (set_needs_calibration false w);
        if (ok : bool) then execute_homing k h now tape w else Some (now, tape, w)
      else Some (now, tape, set_scale_down_time (u32 (now + IDLE_CURRENT_DELAY_MS)) w)
  end.

Definition execute_calibration (h : hw_ret) (now : Z) (tape : list wait) (w : wheel)
  : option (Z * list wait * wheel) :=
  '(ok, now, tape, w) ← calibration_core h now tape w;
  if (ok : bool) then execute_homing 1 h now tape w else Some (now, tape, w).

(** ** The thread *)

(** [get_poll_timeout]: [None] is [K_FOREVER], otherwise milliseconds. *)
Definition get_poll_timeout (now : Z) (w : wheel) : option Z :=
  if scale_down_time w =? 0 then None
  else
    let remaining_ms := s32 (u32 (scale_down_time w - now)) in
    if remaining_ms <=? 0 then Some 0 else Some remaining_ms.

Definition take_step_sem (w : wheel) : wheel := set_sems false (encoder_sem w) (cmd_sem w) w.
Definition take_cmd_sem (w : wheel) : wheel := set_sems (step_sem w) (encoder_sem w) false w.

Definition moving_state (s : state_t) : bool :=
  bool_decide (s = STATE_POSITIONING_WITH_ENCODER) || bool_decide (s = STATE_POSITIONING) ||
  bool_decide (s = STATE_HOMING).

Definition thread_steps (h : hw_ret) (now : Z) (w : wheel) : option wheel :=
  let w := take_step_sem w in
  if moving_state (state w) then process_step_event h now w else Some w.

Definition thread_encoder (w : wheel) : wheel :=
  let w := reset_encoder_sem w in
  if encoder_state w then process_encoder_event_positioning w else w.

Definition thread_command (h : hw_ret) (now : Z) (tape : list wait) (w : wheel) : option (Z * wheel) :=
  let w := take_cmd_sem w in
  let cmd := pending w in
  let w := set_pending CMD_NONE w in
  match cmd with
  | CMD_HOME => '(now, _, w) ← execute_homing 2 h now tape w; Some (now, w)
  | CMD_SET_ANGLE =>
      let c := pending_angle w in
      Some (now, (execute_set_angle h now (c_frequency c) (c_angle c) (c_shortest c) w).2)
  | CMD_CALIBRATE => '(now, _, w) ← execute_calibration h now tape w; Some (now, w)
  | CMD_NONE => Some (now, w)
  end.

Definition thread_idle (h : hw_ret) (now : Z) (w : wheel) : wheel :=
  if negb (scale_down_time w =? 0) && (scale_down_time w <=? now) then
    let w := set_scale_down_time 0 w in
    if bool_decide (state w = STATE_IDLE) && (r_scale h =? 0) then set_motor_current 25 w else w
  else w.

(** One turn of the loop: what [k_poll] saw is decided before any handler runs. *)
Definition thread_turn (h : hw_ret) (now : Z) (tape : list wait) (w : wheel) : option wheel :=
  let events := (step_sem w, encoder_sem w, cmd_sem w) in
  w ← (if events.1.1 then thread_steps h now w else Some w);
  let w := if events.1.2 then thread_encoder w else w in
  '(now, w) ← (if events.2 then thread_command h now tape w else Some (now, w));
  Some (thread_idle h now w).

(** ** Start *)

(** Results of the calls of [polarizer_wheel_init]: the devices are ready, the
    configuration calls in order (chip select, enable, encoder supply, direction,
    encoder, callback, encoder off, driver), the attempts at the driver's
    configuration, its enabling, and the mutex of the queued homing. *)
Record init_ret := InitRet {
  i_ready : bool; i_config : list Z; i_drv : list Z; i_enable : Z; i_locked : bool;
}.

(** [do { ... } while (--timeout >= 0 && ret_val != RET_SUCCESS)], from 3: the
    attempts made, at most four. *)
Fixpoint drv_attempts (timeout : nat) (rs : list Z) (last : Z) : Z :=
  match timeout, rs with
  | S k, r :: rs => if r =? RET_SUCCESS then RET_SUCCESS else drv_attempts k rs r
  | _, _ => last
  end.

(** The settings are not part of the instance and survive its [memset]; the
    motor and the interrupts are not running before the first start. *)
Definition polarizer_wheel_init (hw_version : bool) (i : init_ret) (w : wheel) : Z * wheel :=
  if negb hw_version then (RET_ERROR_INVALID_PARAM, w)
  else if negb (i_ready i) then (RET_ERROR_INVALID_STATE, set_state STATE_UNINITIALIZED w)
  else
    let w := set_hw (hw w) (set_sems (step_sem w) (encoder_sem w) (cmd_sem w)
               (set_settings (linear_acceleration w) (max_speed w) wheel_reset)) in
    match find (fun r => negb (r =? 0)) (i_config i) with
    | Some _ => (RET_ERROR_INTERNAL, w)
    | None =>
        let w := set_enc_irq IRQ_DISABLED (set_enc_power false w) in
        let ret := drv_attempts 4 (i_drv i) RET_SUCCESS in
        if negb (ret =? RET_SUCCESS) then (ret, w)
        else if negb (i_enable i =? RET_SUCCESS) then (i_enable i, w)
        else
          let '(ret, w) := polarizer_wheel_home_async (i_locked i)
                             (set_needs_calibration true (set_motor_on true w)) in
          if negb (ret =? RET_SUCCESS) then (ret, set_state STATE_UNINITIALIZED w) else (ret, w)
    end.

(** ** Interleavings *)

Inductive event :=
| EvStep (captured : bool)
| EvEncoder (level : bool)
| EvTurn (h : hw_ret) (now : Z) (tape : list wait)
| EvSetAngle (locked : bool) (f angle : Z) (short : bool)
| EvHome (locked : bool)
| EvCalibrate (locked : bool)
| EvSettings (acceleration max_speed : Z).

(** The wheel's events, between two of which the state is at rest in memory.
    The step interrupt runs only while enabled and the motor is driven, the
    encoder's callback only when its interrupt is enabled. *)
Inductive event_step : event -> wheel -> wheel -> Prop :=
| step_isr c w : step_irq (hw w) = true -> pwm (hw w) <> (0, 0) -> event_step (EvStep c) w (polarizer_wheel_step_isr c w)
| step_encoder l w : enc_irq (hw w) <> IRQ_DISABLED -> event_step (EvEncoder l) w (encoder_callback l w)
| step_turn h now tape w w' : thread_turn h now tape w = Some w' -> event_step (EvTurn h now tape) w w'
| step_set_angle locked f a short w : 0 <= a -> 0 <= f ->
    event_step (EvSetAngle locked f a short) w (polarizer_wheel_set_angle locked f a short w).2
| step_home locked w : event_step (EvHome locked) w (polarizer_wheel_home_async locked w).2
| step_calibrate locked w : event_step (EvCalibrate locked) w (polarizer_wheel_calibrate_async locked w).2
| step_settings a m w : 0 <= a -> 0 <= m ->
    event_step (EvSettings a m) w (polarizer_wheel_set_max_speed m (polarizer_wheel_set_acceleration a w)).

Inductive reachable : wheel -> Prop :=
| reachable_init i w : polarizer_wheel_init true i wheel_reset = (RET_SUCCESS, w) -> reachable w
| reachable_step e w w' : reachable w -> event_step e w w' -> reachable w'.

(** ** The invariant *)

#[local] Arguments MICROSTEPS_360 : simpl never.
#[local] Arguments newton : simpl never.
#[local] Arguments calculate_linear_ramp_frequency : simpl never.
#[local] Arguments microsteps_per_second : simpl never.
#[local] Arguments get_max_frequency : simpl never.
#[local] Arguments circular_signed_distance : simpl never.
#[local] Arguments calculate_ramp_step : simpl never.
#[local] Arguments Z.div : simpl never.
#[local] Arguments Z.modulo : simpl never.

(** [wheel_ok] without its last clause, which the handlers break on their way. *)
Record bounds_ok (w : wheel) : Prop := {
  bo_current : 0 <= current (step_count w) < MICROSTEPS_360;
  bo_target : 0 <= target (step_count w) < MICROSTEPS_360;
  bo_edge : 0 <= target_notch_edge (positioning w) < MICROSTEPS_360;
  bo_calib : calib_ok (calib w);
  bo_acceleration : acceleration_ok (acceleration w);
  bo_max_speed : 1 <= max_speed w <= ACCEL_MIN_SPEED_MS_PER_TURN;
  bo_angle : 0 <= c_angle (pending_angle w) <= 3600;
  bo_pwm : pwm (hw w) = (0, 0) \/ pwm_range 1 (pwm (hw w));
}.

Definition at_rest (w : wheel) : Prop := state w = STATE_IDLE \/ state w = STATE_UNINITIALIZED -> pwm (hw w) = (0, 0).

Lemma wheel_ok_split w : wheel_ok w <-> bounds_ok w /\ at_rest w.
Proof. split; [intros []; split; [split |]; done | intros [[] ?]; by split]. Qed.

(** Updates that touch nothing the bounds speak of. *)
Lemma bo_set_state x w : bounds_ok w -> bounds_ok (set_state x w).
Proof. by intros []. Qed.
Lemma bo_set_scale_down_time x w : bounds_ok w -> bounds_ok (set_scale_down_time x w).
Proof. by intros []. Qed.
Lemma bo_set_homing n x w : bounds_ok w -> bounds_ok (set_homing n x w).
Proof. by intros []. Qed.
Lemma bo_set_pending x w : bounds_ok w -> bounds_ok (set_pending x w).
Proof. by intros []. Qed.
Lemma bo_set_sems a b c w : bounds_ok w -> bounds_ok (set_sems a b c w).
Proof. by intros []. Qed.
Lemma bo_publish r w : bounds_ok w -> bounds_ok (publish r w).
Proof. by intros []. Qed.
Lemma bo_set_motor_on b w : bounds_ok w -> bounds_ok (set_motor_on b w).
Proof. by intros []. Qed.
Lemma bo_set_motor_current b w : bounds_ok w -> bounds_ok (set_motor_current b w).
Proof. by intros []. Qed.
Lemma bo_set_step_irq b w : bounds_ok w -> bounds_ok (set_step_irq b w).
Proof. by intros []. Qed.
Lemma bo_set_enc_irq b w : bounds_ok w -> bounds_ok (set_enc_irq b w).
Proof. by intros []. Qed.
Lemma bo_set_enc_power b w : bounds_ok w -> bounds_ok (set_enc_power b w).
Proof. by intros []. Qed.
Lemma bo_set_encoder_enabled b w : bounds_ok w -> bounds_ok (set_encoder_enabled b w).
Proof. by intros []. Qed.
Lemma bo_set_dir_field b w : bounds_ok w -> bounds_ok (set_dir_field b w).
Proof. by intros []. Qed.
Lemma bo_set_pwm p w : p = (0, 0) \/ pwm_range 1 p -> bounds_ok w -> bounds_ok (set_pwm p w).
Proof. intros ? []; by split. Qed.
Lemma bo_set_current c w : 0 <= c < MICROSTEPS_360 -> bounds_ok w -> bounds_ok (set_current c w).
Proof. intros ? []; by split. Qed.
Lemma bo_set_target c w : 0 <= c < MICROSTEPS_360 -> bounds_ok w -> bounds_ok (set_target c w).
Proof. intros ? []; by split. Qed.
Lemma bo_set_calib c w : calib_ok c -> bounds_ok w -> bounds_ok (set_calib c w).
Proof. intros ? []; by split. Qed.
Lemma bo_set_acceleration a w : acceleration_ok a -> bounds_ok w -> bounds_ok (set_acceleration a w).
Proof. intros ? []; by split. Qed.
Lemma bo_set_positioning p w :
  0 <= target_notch_edge p < MICROSTEPS_360 -> bounds_ok w -> bounds_ok (set_positioning p w).
Proof. intros ? []; by split. Qed.

Create HintDb wheel discriminated.
#[export] Hint Resolve bo_set_state bo_set_scale_down_time bo_set_homing bo_set_pending bo_set_sems
  bo_publish bo_set_motor_on bo_set_motor_current bo_set_step_irq bo_set_enc_irq bo_set_enc_power
  bo_set_encoder_enabled bo_set_dir_field bo_set_pwm bo_set_current bo_set_target bo_set_calib
  bo_set_acceleration bo_set_positioning bo_edge bo_current bo_target bo_calib bo_acceleration : wheel.

Lemma pwm_range_0 : (0, 0) = (0, 0) \/ pwm_range 1 (0, 0).
Proof. by left. Qed.

Lemma acceleration_ok_stop a x : acceleration_ok a ->
  acceleration_ok (Acceleration x false (start_position a) (total_distance a)).
Proof. by intros (H1 & H2 & _). Qed.
#[export] Hint Resolve pwm_range_0 acceleration_ok_stop : wheel.

Lemma bo_halt w : bounds_ok w -> bounds_ok (polarizer_halt w).
Proof. intros. unfold polarizer_halt. eauto 8 with wheel. Qed.

Lemma halt_stopped w : stopped (polarizer_halt w).
Proof. done. Qed.

Lemma bo_set_frequency h f w : bounds_ok w -> bounds_ok (polarizer_set_frequency h f w).2.
Proof.
  intros Hw. unfold polarizer_set_frequency. pose proof (max_frequency_range w (bo_max_speed w Hw)) as HM.
  destruct (Z.ltb_spec (get_max_frequency w) f); cbn [orb]; [done |].
  destruct (Z.ltb_spec f FREQUENCY_MINIMUM); cbn [orb]; [done |].
  destruct (r_pwm h =? 0); [| done]. apply bo_set_pwm; [| done]. right.
  eapply pwm_range_any; [| apply (frequency_in_range w)]; [apply Hw | apply Hw | lia].
Qed.

Lemma bo_enable_encoder h w : bounds_ok w -> bounds_ok (enable_encoder h w).2.
Proof. intros. unfold enable_encoder. repeat case_match; cbn [snd]; eauto 8 with wheel. Qed.

Lemma bo_disable_encoder h w : bounds_ok w -> bounds_ok (disable_encoder h w).2.
Proof. intros. unfold disable_encoder. repeat case_match; cbn [snd]; eauto 8 with wheel. Qed.

Lemma bo_set_direction h d w : bounds_ok w -> bounds_ok (set_direction h d w).2.
Proof. intros. unfold set_direction. case_match; cbn [snd]; eauto with wheel. Qed.

Lemma bo_rotate h f w : bounds_ok w -> bounds_ok (polarizer_rotate h f w).2.
Proof.
  intros. unfold polarizer_rotate. case_match; cbn [snd]; [eauto with wheel |].
  apply bo_set_frequency. eauto with wheel.
Qed.

Lemma bo_report now w : bounds_ok w -> bounds_ok (report_reached_state now w).
Proof. intros. unfold report_reached_state. eauto with wheel. Qed.
#[export] Hint Resolve bo_halt bo_set_frequency bo_enable_encoder bo_disable_encoder bo_set_direction
  bo_rotate bo_report : wheel.

Lemma bo_step_isr c w : bounds_ok w -> bounds_ok (polarizer_wheel_step_isr c w).
Proof.
  intros Hw. destruct c; [| done]. rewrite isr_advances by apply Hw.
  unfold give_step. apply bo_set_sems, bo_set_current; [apply advance_range | done].
Qed.

Lemma bo_process_step h now w : bounds_ok w ->
  exists w', process_step_event h now w = Some w' /\ bounds_ok w'.
Proof.
  intros Hw. unfold process_step_event.
  destruct (target (step_count w) =? current (step_count w)).
  - case_match; (eexists; split; [reflexivity |]); unfold give_cmd; [eauto 6 with wheel |].
    repeat case_match; eauto 8 with wheel.
  - destruct (active (acceleration w)) eqn:Ea; [| eauto].
    destruct (bo_acceleration w Hw) as (Ht & Hs & Hm). rewrite (Hm Ea).
    pose proof (csd_abs_range _ _ Hs (bo_current w Hw)) as Hc.
    pose proof (ramp_step_range _ (total_distance (acceleration w)) (proj1 Hc) (proj1 Ht)) as Hr.
    pose proof (max_frequency_range w (bo_max_speed w Hw)) as HM.
    change (microsteps_per_second 1) with 6144000 in HM.
    rewrite ramp_frequency_spec; [| lia_wheel..]. cbn [mbind option_bind].
    eexists. split; [reflexivity |]. eauto with wheel.
Qed.

Lemma bo_encoder_event w : bounds_ok w -> bounds_ok (process_encoder_event_positioning w).
Proof.
  intros Hw. unfold process_encoder_event_positioning. case_match; [done |].
  apply bo_set_current; [apply Hw |]. apply bo_set_positioning; [apply Hw | done].
Qed.
#[export] Hint Resolve bo_step_isr bo_encoder_event : wheel.

Lemma bo_step_relative h f n w : bounds_ok w -> bounds_ok (polarizer_wheel_step_relative h f n w).2.
Proof.
  intros Hw. unfold polarizer_wheel_step_relative.
  destruct (_ || _) eqn:E; [done |]. apply orb_false_elim in E as [_ E]. apply Z.ltb_ge in E.
  apply bo_rotate.
  assert (forall d, 0 <= current (step_count (set_direction h d w).2) < MICROSTEPS_360) as Hc.
  { intros d. apply bo_current. by apply bo_set_direction. }
  destruct (Z.ltb_spec n 0).
  - specialize (Hc BACKWARD). apply bo_set_target; [| by apply bo_set_direction]. bdestruct1; lia_wheel.
  - specialize (Hc FORWARD). apply bo_set_target; [| by apply bo_set_direction].
    apply Z.rem_bound_pos; lia_wheel.
Qed.

Lemma bo_turn n w : bounds_ok w -> bounds_ok (turn n w).
Proof. intros Hw. unfold turn. induction n; cbn; auto with wheel. Qed.

Lemma bo_wait_encoder x w : bounds_ok w -> bounds_ok (wait_encoder x w).
Proof. intros. by apply bo_set_sems, bo_turn. Qed.

Lemma bo_wait_step x w : bounds_ok w -> bounds_ok (wait_step x w).
Proof. intros. by apply bo_set_sems, bo_turn. Qed.

Lemma bo_disable_drv h w : bounds_ok w -> bounds_ok (disable_drv h w).
Proof. intros. unfold disable_drv. case_match; eauto with wheel. Qed.

Lemma bo_homing_fail h w : bounds_ok w -> bounds_ok (homing_fail h w).
Proof. intros. unfold homing_fail. apply bo_disable_drv. eauto 6 with wheel. Qed.

Lemma bo_config_enc_irq h i w : bounds_ok w -> bounds_ok (config_enc_irq h i w).
Proof. intros. unfold config_enc_irq. case_match; eauto with wheel. Qed.

Lemma bo_choose_direction h short t w : bounds_ok w -> bounds_ok (choose_direction h short t w).2.
Proof. intros. unfold choose_direction. case_match; cbn [snd]; eauto with wheel. Qed.
#[export] Hint Resolve bo_step_relative bo_turn bo_wait_encoder bo_wait_step bo_disable_drv bo_homing_fail
  bo_config_enc_irq : wheel.

Lemma choose_direction_bounds h short t w : bounds_ok w -> 0 <= t < MICROSTEPS_360 ->
  bounds_ok (choose_direction h short t w).2 /\
  0 <= Z.abs (choose_direction h short t w).1 <= MICROSTEPS_360 /\
  current (step_count (choose_direction h short t w).2) = current (step_count w).
Proof.
  intros Hw Ht. pose proof (bo_current w Hw) as Hc.
  pose proof (csd_abs_range _ _ Hc Ht) as Hr. change (MICROSTEPS_360 / 2) with 3072 in Hr.
  assert (current (step_count (set_direction h FORWARD w).2) = current (step_count w)) as Ec.
  { unfold set_direction. by case_match. }
  split; [by apply bo_choose_direction |]. unfold choose_direction. destruct short; cbn [fst snd].
  - split; [lia_wheel |]. unfold set_direction. by repeat case_match.
  - rewrite Ec. split; [bdestruct1; lia_wheel | done].
Qed.

Lemma bo_arm_encoder h t w : bounds_ok w -> 0 <= t < MICROSTEPS_360 -> bounds_ok (arm_encoder h t w).
Proof.
  intros Hw Ht. unfold arm_encoder. apply bo_enable_encoder, bo_set_positioning; [| done].
  by apply notch_edge_distance; [apply Hw |].
Qed.

Lemma bo_arm_speed f s w : bounds_ok w -> 0 <= Z.abs s <= MICROSTEPS_360 -> bounds_ok (arm_speed f s w).2.
Proof.
  intros Hw Hs. unfold arm_speed. case_match; cbn [snd]; apply bo_set_acceleration; try done.
  - split_and!; cbn; [lia | lia | apply Hw | apply Hw | done].
  - apply acceleration_ok_stop, Hw.
Qed.

Lemma bo_execute_set_angle h now f angle short w :
  0 <= angle <= 3600 -> bounds_ok w -> bounds_ok (execute_set_angle h now f angle short w).2.
Proof.
  intros Ha Hw. unfold execute_set_angle. do 2 (case_match; [done |]).
  pose proof (angle_to_step_range angle Ha) as Hg.
  match goal with |- context [choose_direction h short _ ?v] => set (w1 := v) end.
  assert (bounds_ok w1) as B1 by (apply bo_set_positioning; [apply Hw | done]).
  case_match; [cbn [snd]; eauto with wheel |].
  destruct (choose_direction_bounds h short (angle_to_step angle) w1 B1 Hg) as (B2 & B3 & _).
  destruct (choose_direction h short (angle_to_step angle) w1) as [s w2]. cbn [fst snd] in B2, B3.
  match goal with |- context [arm_speed f s ?v] => assert (bounds_ok v) as B4 end.
  { case_match; [by apply bo_arm_encoder | done]. }
  pose proof (bo_arm_speed f s _ B4 B3) as B5.
  destruct (arm_speed f s _) as [f' w3]. cbn [snd] in B5.
  pose proof (bo_rotate h f' _ (bo_set_target _ _ Hg B5)) as B6.
  destruct (polarizer_rotate h f' _) as [ret w4]. cbn [snd] in B6.
  destruct (ret =? 0); cbn [snd]; eauto with wheel.
Qed.

(** *** Homing and calibration *)

Lemma bo_homing_spin h fuel : forall a tape w r tape' w', bounds_ok w ->
  homing_spin h fuel a tape w = Some (r, tape', w') -> bounds_ok w'.
Proof.
  induction fuel as [|k IH]; intros a tape w r tape' w' Hw; cbn [homing_spin]; [done |].
  destruct (a <? HOMING_SPIN_ATTEMPTS); [| by intros [= <- <- <-]].
  match goal with |- context [polarizer_wheel_step_relative h ?f ?n ?v] =>
    assert (bounds_ok (polarizer_wheel_step_relative h f n v).2) as H1
      by (apply bo_step_relative, bo_set_sems, bo_set_current; [lia_wheel | done]);
    destruct (polarizer_wheel_step_relative h f n v) as [ret w1]; cbn [snd] in H1
  end.
  case_match; [intros [= <- <- <-]; eauto with wheel |].
  destruct tape as [|x tape]; [done |].
  case_match; [intros [= <- <- <-]; eauto with wheel |]. apply IH. eauto with wheel.
Qed.

Lemma bo_homing_search h fuel : forall tape w r tape' w', bounds_ok w ->
  homing_search h fuel tape w = Some (r, tape', w') -> bounds_ok w'.
Proof.
  induction fuel as [|k IH]; intros tape w r tape' w' Hw; cbn [homing_search]; [done |].
  case_match; [| by intros [= <- <- <-]].
  destruct (homing_spin h 4 0 tape w) as [[[[|a] tape1] w1]|] eqn:E; cbn [mbind option_bind]; [| | done].
  - intros [= <- <- <-]. eauto using bo_homing_spin.
  - pose proof (bo_homing_spin _ _ _ _ _ _ _ _ Hw E) as H1.
    case_match; [intros [= <- <- <-]; eauto with wheel |].
    assert (bounds_ok (set_current 0 (set_homing (u8 (notch_count w1 + 1)) (homed w1) w1)))
      by (apply bo_set_current; [lia_wheel | eauto with wheel]).
    case_match; [by intros [= <- <- <-] |]. by apply IH.
Qed.

Lemma bo_settle goal start : forall tape now w now' tape' w', bounds_ok w ->
  settle goal start now tape w = Some (now', tape', w') -> bounds_ok w'.
Proof.
  induction tape as [|x tape IH]; intros now w now' tape' w' Hw; cbn [settle];
    (case_match; [by intros [= <- <- <-] |]); [done |].
  apply IH. eauto with wheel.
Qed.

Lemma bo_homing_approach h now tape w now' tape' w' : bounds_ok w ->
  homing_approach h now tape w = Some (now', tape', w') -> bounds_ok w'.
Proof.
  intros Hw. unfold homing_approach. destruct tape as [|x tape]; [done |].
  match goal with |- context [wait_encoder x ?v] => assert (bounds_ok (wait_encoder x v)) as H1 end.
  { apply bo_wait_encoder, bo_step_relative. unfold reset_encoder_sem. eauto with wheel. }
  destruct (w_got x).
  - match goal with |- context [settle ?g ?s ?n tape ?v] =>
      destruct (settle g s n tape v) as [[[now1 tape1] w1]|] eqn:E; [| done] end.
    cbn [mbind option_bind]. intros [= <- <- <-].
    apply bo_settle in E; [eauto with wheel |].
    apply bo_set_target; [lia_wheel |]. apply bo_set_current; [lia_wheel | done].
  - cbn [mbind option_bind]. intros [= <- <- <-]. eauto with wheel.
Qed.

(** A failed homing, and the approach, leave the motor stopped. *)
Lemma homing_fail_stops h w : pwm (hw (homing_fail h w)) = (0, 0) /\ state (homing_fail h w) = STATE_UNINITIALIZED /\
  homed (homing_fail h w) = false.
Proof. unfold homing_fail, disable_drv, disable_encoder. by repeat case_match. Qed.

Lemma homing_spin_failed h fuel : forall a tape w tape' w',
  homing_spin h fuel a tape w = Some (SpinFailed, tape', w') -> exists w1, w' = homing_fail h w1.
Proof.
  induction fuel as [|k IH]; intros a tape w tape' w'; cbn [homing_spin]; [done |].
  case_match; [| done]. destruct (polarizer_wheel_step_relative h _ _ _) as [ret w1].
  case_match; [intros [= <- <-]; eauto |]. destruct tape as [|x tape]; [done |].
  case_match; [done |]. apply IH.
Qed.

Lemma homing_search_failed h fuel : forall tape w tape' w',
  homing_search h fuel tape w = Some (SearchFailed, tape', w') -> exists w1, w' = homing_fail h w1.
Proof.
  induction fuel as [|k IH]; intros tape w tape' w'; cbn [homing_search]; [done |].
  case_match; [| done].
  destruct (homing_spin h 4 0 tape w) as [[[[|a] tape1] w1]|] eqn:E; cbn [mbind option_bind]; [| | done].
  - intros [= <- <-]. by eapply homing_spin_failed.
  - case_match; [intros [= <- <-]; eauto |]. case_match; [done |]. apply IH.
Qed.

Lemma homing_approach_stops h now tape w now' tape' w' :
  homing_approach h now tape w = Some (now', tape', w') -> stopped w'.
Proof.
  unfold homing_approach. destruct tape as [|x tape]; [done |].
  destruct (if w_got x then _ else _) as [[[n1 t1] w1]|]; [| done]. by intros [= <- <- <-].
Qed.

Lemma bo_homing_start h now w : bounds_ok w -> bounds_ok (homing_start h now w).
Proof.
  intros Hw. apply bo_set_direction, bo_set_homing, bo_enable_encoder, bo_set_positioning.
  - destruct (r_drv h =? 0); apply Hw.
  - apply bo_set_acceleration.
    + apply acceleration_ok_stop. destruct (r_drv h =? 0); apply Hw.
    + destruct (r_drv h =? 0); eauto with wheel.
Qed.

Lemma bo_homing_core h now tape w ok now' tape' w' : bounds_ok w ->
  homing_core h now tape w = Some (ok, now', tape', w') -> bounds_ok w' /\ pwm (hw w') = (0, 0).
Proof.
  intros Hw. unfold homing_core.
  pose proof (bo_homing_start h now w Hw) as H1.
  match goal with |- context [homing_search h 10 tape ?v] =>
    destruct (homing_search h 10 tape v) as [[[r tape1] w1]|] eqn:E; [| done] end.
  cbn [mbind option_bind]. pose proof (bo_homing_search _ _ _ _ _ _ _ H1 E) as H2.
  destruct r.
  - intros [= <- <- <- <-]. split; [done |]. apply homing_search_failed in E as [w2 ->]. apply homing_fail_stops.
  - destruct (homing_approach h now tape1 w1) as [[[now1 tape2] w2]|] eqn:E2; [| done].
    cbn [mbind option_bind]. intros [= <- <- <- <-].
    pose proof (bo_homing_approach _ _ _ _ _ _ _ H2 E2) as H3. split.
    + apply bo_report, bo_set_current; [lia_wheel |]. eauto with wheel.
    + apply homing_approach_stops in E2 as [E2 _]. exact E2.
  - intros [= <- <- <- <-]. split; [eauto with wheel | apply homing_fail_stops].
Qed.

Lemma calibration_edge_ok is_high pos c : calib_ok c -> 0 <= pos < MICROSTEPS_360 ->
  calib_ok (calibration_edge is_high pos c).1.
Proof.
  intros (H1 & H2 & H3 & H4) Hp. unfold calibration_edge. unfold MICROSTEPS_360 in *.
  destruct is_high; [unfold calib_ok; cbn; rewrite u32_small by lia; lia_wheel |].
  destruct (inside_bump c); [| unfold calib_ok; cbn [fst]; lia_wheel].
  rewrite s32_small by lia.
  set (width := u32 (if pos - bump_entry_position c <? 0 then _ else _)).
  assert (0 <= width < 6144) as Hw.
  { subst width. destruct (Z.ltb_spec (pos - bump_entry_position c) 0); rewrite u32_small; lia. }
  unfold calib_ok, record_width. repeat bdestruct1; cbn; lia_wheel.
Qed.

Lemma bo_calibration_watch start : forall tape now w done now' tape' w', bounds_ok w ->
  calibration_watch start now tape w = Some (done, now', tape', w') -> bounds_ok w'.
Proof.
  induction tape as [|x tape IH]; intros now w fin now' tape' w' Hw; cbn [calibration_watch];
    (case_match; [by intros [= <- <- <- <-] |]); [done |].
  pose proof (bo_wait_encoder x w Hw) as H1. set (w1 := wait_encoder x w) in *.
  match goal with |- context [if w_got x then ?a else ?b] =>
    assert (calib_ok (if w_got x then a else b).1) as H2;
      [case_match; [apply calibration_edge_ok; apply H1 | apply H1] |];
    destruct (if w_got x then a else b) as [c fin1] end.
  cbn [fst] in H2.
  pose proof (bo_set_calib c w1 H2 H1) as H3.
  destruct fin1; [by intros [= <- <- <- <-] |]. case_match; [by intros [= <- <- <- <-] |]. by apply IH.
Qed.

(** A rotation that could not be started leaves the PWM as it was. *)
Lemma step_relative_failed h f n w :
  (polarizer_wheel_step_relative h f n w).1 <> 0 ->
  pwm (hw (polarizer_wheel_step_relative h f n w).2) = pwm (hw w).
Proof.
  unfold polarizer_wheel_step_relative, polarizer_rotate, polarizer_set_frequency, set_direction.
  repeat case_match; cbn; done.
Qed.

Lemma bo_calibration_spins h n : forall now tape w ok now' tape' w',
  bounds_ok w -> pwm (hw w) = (0, 0) ->
  calibration_spins h n now tape w = Some (ok, now', tape', w') -> bounds_ok w' /\ pwm (hw w') = (0, 0).
Proof.
  induction n as [|n IH]; intros now tape w ok now' tape' w' Hw Hp; cbn [calibration_spins].
  { intros [= <- <- <- <-]. done. }
  match goal with |- context [polarizer_wheel_step_relative h ?f ?m ?v] =>
    pose proof (step_relative_failed h f m v) as Hf;
    assert (bounds_ok (polarizer_wheel_step_relative h f m v).2) as H1
      by (apply bo_step_relative; unfold reset_encoder_sem; eauto with wheel);
    destruct (polarizer_wheel_step_relative h f m v) as [ret w1]
  end. cbn [fst snd] in Hf, H1.
  destruct (Z.eqb_spec ret RET_SUCCESS) as [E|E]; cbn [negb].
  - destruct (calibration_watch now now tape w1) as [[[[fin now1] tape1] w2]|] eqn:Ew; [| done].
    cbn [mbind option_bind]. apply bo_calibration_watch in Ew; [| done].
    destruct fin; [intros [= <- <- <- <-]; eauto with wheel |].
    apply IH; [eauto with wheel | done].
  - intros [= <- <- <- <-]. unfold config_enc_irq.
    split; [destruct (r_enc_irq h =? 0); eauto with wheel |].
    transitivity (pwm (hw w1)); [by destruct (r_enc_irq h =? 0) |]. rewrite Hf; done.
Qed.

Definition rest (w : wheel) : Prop := bounds_ok w /\ pwm (hw w) = (0, 0).

Lemma rest_set_state x w : rest w -> rest (set_state x w).
Proof. intros []; split; [by apply bo_set_state | done]. Qed.
Lemma rest_set_calib c w : calib_ok c -> rest w -> rest (set_calib c w).
Proof. intros ? []; split; [by apply bo_set_calib | done]. Qed.
Lemma rest_ok w : rest w -> wheel_ok w.
Proof. intros [H1 H2]. apply wheel_ok_split. split; [exact H1 | intros _; exact H2]. Qed.

Lemma rest_calibration_core h now tape w ok now' tape' w' : wheel_ok w ->
  calibration_core h now tape w = Some (ok, now', tape', w') -> wheel_ok w' /\ (ok = true -> rest w').
Proof.
  intros Hok. pose proof Hok as [Hw Hr]%wheel_ok_split. unfold calibration_core.
  destruct (decide (state w = STATE_IDLE)) as [Ei|Ei];
    [rewrite bool_decide_true by done | rewrite bool_decide_false by done; by intros [= <- <- <- <-]].
  cbn [negb]. case_match; [by intros [= <- <- <- <-] |]. case_match; [by intros [= <- <- <- <-] |].
  match goal with |- context [set_calib ?c ?v] => assert (rest (set_calib c v)) as R1 end.
  { apply rest_set_calib; [unfold calib_ok; cbn; lia_wheel |].
    split; [| by apply Hr; left]. apply bo_set_acceleration; [apply acceleration_ok_stop, Hw |].
    eauto with wheel. }
  match goal with |- context [set_calib ?c ?v] => set (w1 := set_calib c v) in * end.
  case_match; [intros [= <- <- <- <-]; split; [by apply rest_ok, rest_set_state | done] |].
  case_match; [intros [= <- <- <- <-]; split; [apply rest_ok, rest_set_state; split;
    [apply bo_set_enc_power |]; apply R1 | done] |].
  match goal with |- context [calibration_spins h 2 now tape ?v] =>
    assert (rest v) as R2;
    [| destruct (calibration_spins h 2 now tape v) as [[[[ok1 now1] tape1] w2]|] eqn:E; [| done]] end.
  { unfold set_direction, config_enc_irq, reset_encoder_sem. destruct R1 as [R1 R1'].
    split; [repeat case_match; cbn [snd]; eauto 8 with wheel | by repeat case_match]. }
  destruct R2 as [R2 R2']. pose proof (bo_calibration_spins _ _ _ _ _ _ _ _ _ R2 R2' E) as R3.
  cbn [mbind option_bind]. destruct ok1; cbn [negb].
  - intros [= <- <- <- <-]. match goal with |- wheel_ok ?v /\ _ => assert (rest v) as Hv end.
    { split; [apply bo_set_homing, bo_set_state, bo_set_calib |].
      - destruct R3 as [[_ _ _ R3 _ _ _ _] _].
        unfold config_enc_irq. destruct (r_enc_irq h =? 0); exact R3.
      - destruct R3. eauto with wheel.
      - cbn. unfold config_enc_irq. by destruct (r_enc_irq h =? 0). }
    split; [by apply rest_ok | done].
  - intros [= <- <- <- <-]. split; [by apply rest_ok | done].
Qed.

Lemma execute_homing_ok fuel h : forall now tape w now' tape' w', wheel_ok w \/ bounds_ok w ->
  execute_homing fuel h now tape w = Some (now', tape', w') -> wheel_ok w'.
Proof.
  induction fuel as [|k IH]; intros now tape w now' tape' w' Hw; cbn [execute_homing]; [done |].
  assert (bounds_ok w) as Hb by (destruct Hw as [[]%wheel_ok_split |]; done).
  destruct (homing_core h now tape w) as [[[[ok now1] tape1] w1]|] eqn:E; [| done].
  cbn [mbind option_bind]. apply bo_homing_core in E; [| done].
  destruct ok; cbn [negb]; [| intros [= <- <- <-]; by apply rest_ok].
  case_match; [| intros [= <- <- <-]; apply rest_ok; destruct E; split; eauto with wheel].
  assert (rest (set_needs_calibration false w1)) as R1
    by (apply rest_set_calib; [apply E | done]).
  destruct (calibration_core h now1 tape1 _) as [[[[ok2 now2] tape2] w2]|] eqn:E2; [| done].
  cbn [mbind option_bind]. apply rest_calibration_core in E2 as [R2 R2']; [| by apply rest_ok].
  destruct ok2; [| by intros [= <- <- <-]]. apply IH. by left.
Qed.

Lemma execute_calibration_ok h now tape w now' tape' w' : wheel_ok w ->
  execute_calibration h now tape w = Some (now', tape', w') -> wheel_ok w'.
Proof.
  intros Hw. unfold execute_calibration.
  destruct (calibration_core h now tape w) as [[[[ok1 now1] tape1] w1]|] eqn:E; [| done].
  cbn [mbind option_bind]. apply rest_calibration_core in E as [R1 R1']; [| done].
  destruct ok1; [| by intros [= <- <- <-]]. apply execute_homing_ok. by left.
Qed.

(** *** The thread and the interleavings *)

(** Same state and PWM: the last clause of the invariant is kept. *)
Lemma at_rest_same w w' : state w' = state w -> pwm (hw w') = pwm (hw w) -> at_rest w -> at_rest w'.
Proof. unfold at_rest. intros -> ->. done. Qed.

Lemma wheel_ok_same w w' : bounds_ok w' -> state w' = state w -> pwm (hw w') = pwm (hw w) ->
  wheel_ok w -> wheel_ok w'.
Proof.
  intros Hb Es Ep [_ Hr]%wheel_ok_split. apply wheel_ok_split. split; [done |]. by eapply at_rest_same.
Qed.

Lemma wheel_ok_bounds w : wheel_ok w -> bounds_ok w.
Proof. by intros []%wheel_ok_split. Qed.
#[export] Hint Resolve wheel_ok_bounds : wheel.

Lemma process_step_ok h now w : wheel_ok w -> moving_state (state w) = true ->
  exists w', process_step_event h now w = Some w' /\ wheel_ok w'.
Proof.
  intros [Hb Hr]%wheel_ok_split Hm. destruct (bo_process_step h now w Hb) as (w' & E & Hb').
  exists w'. split; [done |]. apply wheel_ok_split. split; [done |]. revert E.
  unfold process_step_event. case_match.
  - case_match; intros [= <-]; [by intros _ |]. intros _.
    unfold disable_encoder. repeat case_match; done.
  - intros E. assert (state w' = state w) as Es.
    { revert E. case_match; [| by intros [= <-]].
      destruct (calculate_linear_ramp_frequency _ _ _ _); [| done]. cbn [mbind option_bind].
      intros [= <-]. unfold polarizer_set_frequency. by repeat case_match. }
    unfold at_rest. rewrite Es. intros [Ei | Ei]; rewrite Ei in Hm; done.
Qed.

Lemma rotate_state h f w : state (polarizer_rotate h f w).2 = state w /\
  ((polarizer_rotate h f w).1 <> 0 -> pwm (hw (polarizer_rotate h f w).2) = pwm (hw w)).
Proof. unfold polarizer_rotate, polarizer_set_frequency. by repeat case_match. Qed.

Lemma prepare_pwm h short t f b w :
  let w1 := (choose_direction h short t w).2 in
  let w2 := if b : bool then arm_encoder h t w1 else w1 in
  pwm (hw (arm_speed f (choose_direction h short t w).1 w2).2) = pwm (hw w).
Proof.
  cbv zeta. unfold arm_speed, arm_encoder, enable_encoder, choose_direction, set_direction.
  by repeat case_match.
Qed.

Lemma execute_set_angle_ok h now f angle short w :
  0 <= angle <= 3600 -> wheel_ok w -> wheel_ok (execute_set_angle h now f angle short w).2.
Proof.
  intros Ha Hw. pose proof Hw as [Hb Hr]%wheel_ok_split.
  apply wheel_ok_split. split; [by apply bo_execute_set_angle |].
  unfold execute_set_angle. case_match; [done |].
  destruct (decide (state w = STATE_IDLE)) as [Ei|Ei];
    [rewrite bool_decide_true by done | by rewrite bool_decide_false].
  cbn [negb]. case_match; [done |].
  match goal with |- context [choose_direction h short ?t ?v] =>
    pose proof (prepare_pwm h short t f (negb (bool_decide (angle_to_position angle = UNKNOWN)) && negb (f =? 0)) v) as Hp;
    destruct (choose_direction h short t v) as [s w1] end.
  cbv zeta in Hp. cbn [fst snd] in Hp.
  destruct (arm_speed f s _) as [f' w2]. cbn [snd] in Hp.
  pose proof (rotate_state h f' (set_target (angle_to_step angle) w2)) as [_ Hq].
  destruct (polarizer_rotate h f' _) as [ret w3]. cbn [fst snd] in Hq.
  destruct (Z.eqb_spec ret 0); cbn [snd].
  - unfold at_rest. cbn. case_match; intros [|]; done.
  - intros _. cbn. rewrite (Hq ltac:(done)). cbn. rewrite Hp. cbn. apply Hr. by left.
Qed.

Lemma thread_turn_ok h now tape w w' : wheel_ok w -> thread_turn h now tape w = Some w' -> wheel_ok w'.
Proof.
  intros Hw. unfold thread_turn. cbn [fst snd].
  assert (exists w1, (if step_sem w then thread_steps h now w else Some w) = Some w1 /\ wheel_ok w1)
    as (w1 & -> & Hw1).
  { destruct (step_sem w); [| eauto]. unfold thread_steps.
    assert (wheel_ok (take_step_sem w))
      by (eapply wheel_ok_same; [apply bo_set_sems; eauto with wheel | | | exact Hw]; done).
    destruct (moving_state _) eqn:Em; [by apply process_step_ok | eauto]. }
  cbn [mbind option_bind].
  set (w2 := if encoder_sem w then thread_encoder w1 else w1).
  assert (wheel_ok w2) as Hw2.
  { subst w2. destruct (encoder_sem w); [| done]. unfold thread_encoder. case_match.
    - eapply wheel_ok_same; [apply bo_encoder_event, bo_set_sems; eauto with wheel | | | exact Hw1];
        unfold process_encoder_event_positioning; by case_match.
    - eapply wheel_ok_same; [apply bo_set_sems; eauto with wheel | | | exact Hw1]; done. }
  destruct (if cmd_sem w then thread_command h now tape w2 else Some (now, w2)) as [[now1 w3]|] eqn:E; [| done].
  cbn [mbind option_bind]. intros [= <-].
  assert (wheel_ok w3) as Hw3.
  { destruct (cmd_sem w); [| by injection E as <- <-]. unfold thread_command in E.
    assert (wheel_ok (set_pending CMD_NONE (take_cmd_sem w2))) as Hc.
    { eapply wheel_ok_same; [apply bo_set_pending, bo_set_sems; eauto with wheel | | | exact Hw2]; done. }
    destruct (pending (take_cmd_sem w2)); [by injection E as <- <- | | |].
    - destruct (execute_homing _ _ _ _ _) as [[[n1 t1] v]|] eqn:Eh; [| done]. injection E as <- <-.
      eapply execute_homing_ok; [left; exact Hc | exact Eh].
    - injection E as <- <-. apply execute_set_angle_ok; [apply Hc | done].
    - destruct (execute_calibration _ _ _ _) as [[[n1 t1] v]|] eqn:Eh; [| done]. injection E as <- <-.
      eapply execute_calibration_ok; [exact Hc | exact Eh]. }
  unfold thread_idle. destruct (negb _ && _); [| exact Hw3]. cbv zeta.
  destruct (bool_decide _ && _); (eapply wheel_ok_same; [| | | exact Hw3]); try reflexivity;
    eauto with wheel.
Qed.

Lemma init_ok i w : wheel_ok w -> state w = STATE_UNINITIALIZED -> wheel_ok (polarizer_wheel_init true i w).2.
Proof.
  intros Hw Hu. unfold polarizer_wheel_init. cbn [negb].
  case_match; [cbn [snd]; eapply wheel_ok_same; [| | | exact Hw]; try done; eauto with wheel |].
  match goal with |- context [set_hw (hw w) ?v] => set (u := set_hw (hw w) v) end.
  assert (wheel_ok u) as Hb.
  { pose proof (ok_max_speed w Hw). pose proof (ok_idle w Hw (or_intror Hu)).
    split; cbn; unfold calib_ok, acceleration_ok; cbn; try split_and!; try lia_wheel; try done; by left. }
  case_match; [exact Hb |].
  assert (wheel_ok (set_enc_irq IRQ_DISABLED (set_enc_power false u))) as Hb1.
  { eapply wheel_ok_same; [| | | exact Hb]; try done; eauto with wheel. }
  destruct (negb (drv_attempts _ _ _ =? _)); [exact Hb1 |]. case_match; [exact Hb1 |].
  unfold polarizer_wheel_home_async. repeat case_match; simplify_eq; cbn [snd];
    (eapply wheel_ok_same; [| | | exact Hb]; try done); unfold give_cmd, set_needs_calibration;
    eauto 12 with wheel.
Qed.

Lemma wheel_reset_ok : wheel_ok wheel_reset.
Proof.
  unfold wheel_reset. split; cbn; unfold calib_ok, acceleration_ok; cbn; try split_and!; try lia_wheel; try done.
  by left.
Qed.

Lemma set_acceleration_ok a w : 0 <= a -> wheel_ok w -> wheel_ok (polarizer_wheel_set_acceleration a w).
Proof. intros Ha Hw. destruct Hw. unfold polarizer_wheel_set_acceleration. destruct (a =? 0); (split; cbn; try done; lia_wheel). Qed.

Lemma set_max_speed_ok m w : 0 <= m -> wheel_ok w -> wheel_ok (polarizer_wheel_set_max_speed m w).
Proof.
  intros Hm Hw. unfold polarizer_wheel_set_max_speed. destruct (Z.eqb_spec m 0); [| destruct (Z.leb_spec m ACCEL_MIN_SPEED_MS_PER_TURN); [| done]];
    destruct Hw; (split; cbn; try done; lia_wheel).
Qed.

Lemma event_step_ok e w w' : event_step e w w' -> wheel_ok w -> wheel_ok w'.
Proof.
  intros Hs Hw. destruct Hs.
  - apply wheel_ok_split. split; [by apply bo_step_isr, wheel_ok_bounds |].
    apply wheel_ok_split in Hw as [Hb Hr]. destruct c; [| done].
    rewrite isr_advances by apply Hb. exact Hr.
  - eapply wheel_ok_same; [| | | exact Hw]; unfold encoder_callback, give_encoder; repeat case_match;
      try done; eauto with wheel.
  - by eapply thread_turn_ok.
  - unfold polarizer_wheel_set_angle. destruct (Z.ltb_spec 3600 a); [done |]. cbn [orb].
    repeat case_match; cbn [snd]; try exact Hw.
    destruct Hw. split; try done.
  - eapply wheel_ok_same; [| | | exact Hw]; unfold polarizer_wheel_home_async, give_cmd; repeat case_match;
      cbn [snd]; try done; eauto 6 with wheel.
  - eapply wheel_ok_same; [| | | exact Hw]; unfold polarizer_wheel_calibrate_async, give_cmd; repeat case_match;
      cbn [snd]; try done; eauto 6 with wheel.
  - by apply set_max_speed_ok, set_acceleration_ok.
Qed.

(** C18: every interleaving of the wheel's events (step pulses, encoder edges,
    turns of the thread with the homing and calibration they run, calls from the
    other threads, changes of the speed settings), whatever the drivers return and
    however long the waits: the step counter and the target stay on the circle,
    the measured widths and the notch edge too, the step frequency is between the
    minimum and the maximum whenever the motor turns, and the motor does not turn
    while the wheel says it is idle or uninitialized. *)
Theorem wheel_always_ok w : reachable w -> wheel_ok w.
Proof.
  induction 1 as [i w E | e w w' _ IH S].
  - pose proof (init_ok i wheel_reset wheel_reset_ok eq_refl) as H. by rewrite E in H.
  - by eapply event_step_ok.
Qed.
