(* ===== verification/PolarizerRuns.v ===== *)
(** The polarizer wheel's blocking procedures, run: homing on an ideal wheel, and
    their termination.

    On top of PolarizerHoming: the homing finds the pass-through glass from
    wherever the wheel is ([homing_finds_pass_through]), says it did even when the
    glass was not seen ([homed_without_pass_through]), and a turn of the thread
    always ends ([thread_turn_returns]). *)

From S2P Require Import Prelude Polarizer PolarizerHoming.

#[local] Arguments MICROSTEPS_360 : simpl never.
#[local] Arguments newton : simpl never.
#[local] Arguments calculate_linear_ramp_frequency : simpl never.
#[local] Arguments microsteps_per_second : simpl never.
#[local] Arguments get_max_frequency : simpl never.
#[local] Arguments circular_signed_distance : simpl never.
#[local] Arguments calculate_ramp_step : simpl never.
#[local] Arguments Z.div : simpl never.
#[local] Arguments Z.modulo : simpl never.

(** ** Homing on an ideal wheel *)

(** What the homing leaves alone. *)
Record kept (w w' : wheel) : Prop := {
  kp_state : state w' = state w;
  kp_homed : homed w' = homed w;
  kp_calib : calib w' = calib w;
  kp_positioning : positioning w' = positioning w;
  kp_pending : pending w' = pending w;
  kp_reports : reports w' = reports w;
  kp_settings : linear_acceleration w' = linear_acceleration w /\ max_speed w' = max_speed w;
}.

#[global] Instance kept_preorder : PreOrder kept.
Proof.
  split; [by split |]. intros a b c [] []. split; try congruence.
  destruct kp_settings0, kp_settings1. split; congruence.
Qed.

(** [n] pulses on the way. *)
Lemma turn_advances n : forall w, step_irq (hw w) = true -> 0 <= current (step_count w) < MICROSTEPS_360 ->
  exists s, turn n w = set_sems s (encoder_sem w) (cmd_sem w)
    (set_current (advance (direction (step_count w)) (current (step_count w)) (Z.of_nat n)) w).
Proof.
  induction n as [|n IH]; intros w Hi Hc.
  - exists (step_sem w). cbn [turn Nat.iter Z.of_nat]. rewrite advance_0 by done.
    by destruct w as [??????? ????? ??? ??]; destruct step_count.
  - destruct (IH w Hi Hc) as [s E]. exists true.
    change (turn (S n) w) with (polarizer_wheel_step_isr (step_irq (hw (turn n w))) (turn n w)).
    rewrite E. cbn [hw set_sems set_current set_steps].
    rewrite Hi, isr_advances by apply advance_range. cbn. rewrite advance_add.
    replace (Z.of_nat n + 1) with (Z.of_nat (S n)) by lia. done.
Qed.

(** A forward rotation that starts. *)
Lemma step_relative_works h n w : hw_works h -> bounds_ok w -> 0 < n <= MICROSTEPS_360 ->
  let w1 := set_target ((current (step_count w) + n) mod MICROSTEPS_360) (set_dir_field FORWARD w) in
  polarizer_wheel_step_relative h FREQUENCY_DEFAULT n w =
    (0, set_pwm (NSEC_PER_SEC / FREQUENCY_DEFAULT, NSEC_PER_SEC / FREQUENCY_DEFAULT / 2)
          (set_step_irq true (set_motor_current 100 (set_scale_down_time 0 w1)))).
Proof.
  intros Hh Hb Hn w1. pose proof Hh as (_ & _ & Hd & _). unfold polarizer_wheel_step_relative.
  replace ((FREQUENCY_DEFAULT =? 0) || (n =? 0) || (MICROSTEPS_360 <? Z.abs n)) with false.
  2:{ symmetry. rewrite !orb_false_iff. split_and!; [done | apply Z.eqb_neq; lia | apply Z.ltb_ge; lia]. }
  bfalse (n <? 0). pose proof (max_frequency_range w (bo_max_speed w Hb)) as HM.
  rewrite rotate_works; [| done |].
  - unfold set_direction. rewrite Hd. cbn [Z.eqb snd]. subst w1. rewrite Z.rem_mod_nonneg; [done | | lia_wheel].
    cbn. pose proof (bo_current w Hb). lia_wheel.
  - unfold set_direction. rewrite Hd. cbn [Z.eqb snd].
    change (get_max_frequency (set_target _ _)) with (get_max_frequency w). lia_wheel.
Qed.

(** One search for a notch that shows up after [d] microsteps. *)
Lemma homing_spin_finds h d l t tape w : hw_works h -> bounds_ok w -> 0 <= Z.of_nat d < MICROSTEPS_360 ->
  exists w', homing_spin h 4 0 (Wait d true l t :: tape) w = Some (SpinDone 0, tape, w') /\
    bounds_ok w' /\ kept w w' /\ notch_count w' = notch_count w /\ current (step_count w') = Z.of_nat d.
Proof.
  intros Hh Hb Hd. cbn [homing_spin].
  change (0 <? HOMING_SPIN_ATTEMPTS) with true. cbv iota.
  assert (bounds_ok (reset_encoder_sem (set_current 0 w))) as Hb0
    by (apply bo_set_sems, bo_set_current; [lia_wheel | done]).
  rewrite (step_relative_works h _ _ Hh Hb0) by lia_wheel. cbv iota beta zeta.
  cbn [negb Z.eqb w_got RET_SUCCESS].
  match goal with |- context [wait_encoder _ ?v] => set (w1 := v) end.
  assert (bounds_ok w1) as Hb1.
  { subst w1. pose proof (bo_step_relative h FREQUENCY_DEFAULT (MICROSTEPS_120 * 2) _ Hb0) as H.
    rewrite (step_relative_works h _ _ Hh Hb0) in H by lia_wheel. exact H. }
  destruct (turn_advances d w1 eq_refl (bo_current _ Hb1)) as [s E].
  eexists. split; [reflexivity |]. split; [by apply bo_halt, bo_wait_encoder |].
  unfold wait_encoder. cbn [w_steps]. rewrite E. subst w1. split; [done |]. split; [done |].
  cbn. rewrite Z.add_0_l. by apply Z.mod_small.
Qed.

Definition close_gap (c : Z) : bool := (c <? CLOSE_NOTCH_MAX) && (CLOSE_NOTCH_MIN <? c).

(** One notch of the search. *)
Lemma homing_search_step h k x tape w :
  hw_works h -> bounds_ok w -> w_got x = true -> Z.of_nat (w_steps x) < MICROSTEPS_360 ->
  0 <= notch_count w < NOTCH_DETECT_ATTEMPTS ->
  exists w1, homing_search h (S k) (x :: tape) w =
      (if negb (notch_count w =? 0) && close_gap (Z.of_nat (w_steps x))
       then Some (NotchFound, tape, w1) else homing_search h k tape w1) /\
    bounds_ok w1 /\ kept w w1 /\ notch_count w1 = notch_count w + 1 /\ current (step_count w1) = 0.
Proof.
  intros Hh Hb Hg Hd Hn. destruct x as [d g l t]. cbn [w_got w_steps] in Hg, Hd |- *. subst g.
  cbn [homing_search]. btrue (notch_count w <? NOTCH_DETECT_ATTEMPTS).
  destruct (homing_spin_finds h d l t tape w Hh Hb ltac:(lia)) as (w1 & E & Hb1 & K & En & Ec).
  rewrite E. cbn [mbind option_bind]. change (0 =? HOMING_SPIN_ATTEMPTS) with false. cbv iota.
  rewrite En, Ec, <- andb_assoc. fold (close_gap (Z.of_nat d)).
  eexists. split; [reflexivity |]. split; [apply bo_set_current; [lia_wheel | eauto with wheel] |].
  split_and!; [etransitivity; [exact K | done] | | done].
  cbn. rewrite u8_small; unfold NOTCH_DETECT_ATTEMPTS in Hn; lia.
Qed.

(** The wheel: rising edges of the vertical, the extra, the horizontal and the
    pass-through bumps when turning forward, from the edge of the pass-through;
    the extra bump is [delta] microsteps before the horizontal one. *)
Definition next_edge (delta p : Z) : Z :=
  if p <? MICROSTEPS_120 then MICROSTEPS_120 - p
  else if p <? MICROSTEPS_120 * 2 - delta then MICROSTEPS_120 * 2 - delta - p
  else if p <? MICROSTEPS_120 * 2 then MICROSTEPS_120 * 2 - p
  else MICROSTEPS_360 - p.

(** The waits of a motor that loses no step, from [p]: one per edge. *)
Fixpoint ideal_waits (delta : Z) (ts : list Z) (p : Z) : list wait :=
  match ts with
  | [] => []
  | t :: ts =>
      let d := next_edge delta p in
      Wait (Z.to_nat d) true true t :: ideal_waits delta ts ((p + d) mod MICROSTEPS_360)
  end.

Definition single_steps (ts : list Z) : list wait := (fun t => Wait 1 true true t) <$> ts.

Definition total_steps (tape : list wait) : Z := foldr (fun x n => Z.of_nat (w_steps x) + n) 0 tape.

(** The edges seen by a homing from [p]: the first one, those up to the close
    pair, and the one of the pass-through glass. *)
Definition homing_edges (delta p : Z) : nat :=
  if p <? MICROSTEPS_120 then 4
  else if p <? MICROSTEPS_120 * 2 - delta then 3
  else if p <? MICROSTEPS_120 * 2 then 6
  else 5.

(** The last 96 microsteps, one at a time. *)
Lemma settle_steps goal start h rest : forall ts now w,
  hw_works h -> bounds_ok w -> step_irq (hw w) = true -> direction (step_count w) = FORWARD ->
  goal < MICROSTEPS_360 -> current (step_count w) = goal - zlen ts ->
  0 <= now - start < 1000 -> Forall (fun t => 0 <= t - start < 1000) ts ->
  exists now' w', settle goal start now (single_steps ts ++ rest) w = Some (now', rest, w') /\
    bounds_ok w' /\ kept w w' /\ current (step_count w') = goal.
Proof.
  induction ts as [|t ts IH]; intros now w Hh Hb Hi Hd Hg Hc Hn Ht.
  - rewrite zlen_nil, Z.sub_0_r in Hc. exists now, w. cbn [single_steps fmap list_fmap app].
    split; [| done]. destruct rest; cbn [settle]; by rewrite Hc, Z.eqb_refl.
  - rewrite zlen_cons in Hc. pose proof (zlen_nonneg ts). inversion Ht as [|? ? Ht1 Ht2]; subst.
    cbn [single_steps fmap list_fmap app settle].
    bfalse (current (step_count w) =? goal). rewrite u32_small by lia.
    bfalse (1000 <=? now - start). cbn [orb w_time].
    destruct (turn_advances 1 w Hi (bo_current _ Hb)) as [s E].
    assert (exists s', wait_step (Wait 1 true true t) w =
      set_sems s' (encoder_sem w) (cmd_sem w) (set_current (current (step_count w) + 1) w)) as [s' Es].
    { unfold wait_step. cbn [w_steps]. rewrite E, Hd. cbn [advance Z.of_nat Pos.of_succ_nat].
      rewrite Z.mod_small by (pose proof (bo_current _ Hb); lia). by eexists. }
    rewrite Es. destruct (IH t (set_sems s' (encoder_sem w) (cmd_sem w) (set_current (current (step_count w) + 1) w)))
      as (now' & w' & E' & Hb' & K & Ec); try done.
    + apply bo_set_sems, bo_set_current; [| done]. pose proof (bo_current _ Hb). lia.
    + cbn. lia.
    + exists now', w'. split_and!; [exact E' | done | | done]. etransitivity; [| exact K]. done.
Qed.

(** The end of the homing, once the close pair is found. *)
Lemma homing_approach_ends h now d l t ps rest w :
  hw_works h -> bounds_ok w -> zlen ps = NOTCH_EDGE_TO_CENTER ->
  Forall (fun p => 0 <= p - t < 1000) ps ->
  exists now' w', homing_approach h now (Wait d true l t :: single_steps ps ++ rest) w = Some (now', rest, w') /\
    stopped w' /\ enc_irq (hw w') = IRQ_DISABLED /\ calib w' = calib w /\ reports w' = reports w /\
    target_position (positioning w') = target_position (positioning w).
Proof.
  intros Hh Hb Hl Ht. unfold homing_approach.
  assert (bounds_ok (reset_encoder_sem w)) as Hb0 by (by apply bo_set_sems).
  rewrite (step_relative_works h _ _ Hh Hb0) by lia_wheel. cbn [snd w_got w_time].
  match goal with |- context [wait_encoder _ ?v] => set (w1 := v) end.
  assert (bounds_ok w1) as Hb1.
  { pose proof (bo_step_relative h FREQUENCY_DEFAULT (NOTCH_EDGE_TO_CENTER + MICROSTEPS_120) _ Hb0) as H.
    rewrite (step_relative_works h _ _ Hh Hb0) in H by lia_wheel. exact H. }
  destruct (turn_advances d w1 eq_refl (bo_current _ Hb1)) as [s E].
  pose proof (bo_turn d w1 Hb1) as Hb2. unfold wait_encoder. cbn [w_steps]. rewrite E in Hb2 |- *.
  match goal with |- context [settle ?g t t _ ?v] =>
    destruct (settle_steps g t h rest ps t v) as (now' & w' & Es & Hb' & K & Ec) end.
  - exact Hh.
  - apply bo_set_target; [lia_wheel |]. apply bo_set_current; [lia_wheel |]. by apply bo_set_sems.
  - reflexivity.
  - reflexivity.
  - lia_wheel.
  - cbn [current step_count set_target set_current set_steps]. rewrite Hl. lia_wheel.
  - lia.
  - exact Ht.
  - rewrite Es. cbn [mbind option_bind]. eexists now', _. split; [reflexivity |].
    destruct Hh as (_ & _ & _ & He1 & He2). unfold disable_encoder. rewrite He1, He2.
    destruct K as [_ _ K1 K2 _ K3 _]. cbn. rewrite K1, K2, K3. split_and!; done.
Qed.

Lemma next_edge_range delta p : 0 < delta < MICROSTEPS_120 -> 0 <= p < MICROSTEPS_360 ->
  0 < next_edge delta p <= MICROSTEPS_120.
Proof. intros. unfold next_edge. repeat bdestruct1; lia_wheel. Qed.

Section IdealSearch.
Context (h : hw_ret) (delta : Z) (rest : list wait).
Hypothesis Hh : hw_works h.
Hypothesis Hdelta : CLOSE_NOTCH_MIN < delta < CLOSE_NOTCH_MAX.

(** The search from [p] over the edges at [ts] leaves the last one to the
    approach; the wheel is then at the edge of the pass-through glass. *)
Definition search_ends (k : nat) (ts : list Z) (p : Z) (w : wheel) : Prop :=
  exists w1 d t, homing_search h k (ideal_waits delta ts p ++ rest) w =
      Some (NotchFound, Wait d true true t :: rest, w1) /\
    bounds_ok w1 /\ kept w w1 /\ last ts = Some t /\
    (p + total_steps (ideal_waits delta ts p)) mod MICROSTEPS_360 = 0.

(** [n] more notches from [p], the search being past its first one. *)
Definition search_from (p : Z) (n : nat) : Prop :=
  forall k ts w, bounds_ok w -> 0 < notch_count w -> notch_count w + Z.of_nat n <= NOTCH_DETECT_ATTEMPTS ->
    (n <= k)%nat -> length ts = S n -> search_ends k ts p w.

Lemma total_cons p t ts : 0 <= p < MICROSTEPS_360 ->
  (p + total_steps (ideal_waits delta (t :: ts) p)) mod MICROSTEPS_360 =
  ((p + next_edge delta p) mod MICROSTEPS_360 +
     total_steps (ideal_waits delta ts ((p + next_edge delta p) mod MICROSTEPS_360))) mod MICROSTEPS_360.
Proof.
  intros Hp. pose proof (next_edge_range delta p ltac:(unfold CLOSE_NOTCH_MIN, CLOSE_NOTCH_MAX in *; lia_wheel) Hp).
  cbn [ideal_waits total_steps foldr w_steps]. rewrite Z2Nat.id by lia.
  rewrite Zplus_mod_idemp_l. f_equal. unfold total_steps. lia.
Qed.

Lemma search_far k t ts p n w :
  0 <= p < MICROSTEPS_360 -> search_from ((p + next_edge delta p) mod MICROSTEPS_360) n ->
  bounds_ok w -> 0 <= notch_count w -> notch_count w + Z.of_nat (S n) <= NOTCH_DETECT_ATTEMPTS ->
  notch_count w = 0 \/ close_gap (next_edge delta p) = false ->
  (n <= k)%nat -> length ts = S n -> search_ends (S k) (t :: ts) p w.
Proof.
  intros Hp Hn Hb H0 Hm Hc Hk Hl.
  pose proof (next_edge_range delta p ltac:(unfold CLOSE_NOTCH_MIN, CLOSE_NOTCH_MAX in *; lia_wheel) Hp).
  cbn [ideal_waits app]. destruct (homing_search_step h k (Wait (Z.to_nat (next_edge delta p)) true true t)
    (ideal_waits delta ts ((p + next_edge delta p) mod MICROSTEPS_360) ++ rest) w) as (w1 & E & Hb1 & K1 & N1 & _);
    [done | done | done | cbn; lia_wheel | lia |].
  cbn [w_steps] in E. rewrite Z2Nat.id in E by lia.
  replace (negb (notch_count w =? 0) && close_gap (next_edge delta p)) with false in E
    by (destruct Hc as [-> | ->]; [done | by rewrite andb_false_r]).
  destruct (Hn k ts w1) as (w2 & d2 & t2 & E2 & Hb2 & K2 & L2 & T2); [done | lia | lia | done | done |].
  exists w2, d2, t2. split; [cbn [ideal_waits app]; by rewrite E, E2 |]. split; [done |].
  split; [by transitivity w1 |]. split; [by destruct ts |]. by rewrite total_cons.
Qed.

Lemma search_from_far p n : 0 <= p < MICROSTEPS_360 -> close_gap (next_edge delta p) = false ->
  search_from ((p + next_edge delta p) mod MICROSTEPS_360) n -> search_from p (S n).
Proof.
  intros Hp Hc Hn k ts w Hb H0 Hm Hk Hl. destruct ts as [|t ts]; [done |]. destruct k as [|k]; [lia |].
  apply (search_far k t ts p n); try done; [lia | by right | lia | by injection Hl].
Qed.

Lemma next_edges : next_edge delta 0 = MICROSTEPS_120 /\ next_edge delta MICROSTEPS_120 = MICROSTEPS_120 - delta /\
  next_edge delta (MICROSTEPS_120 * 2 - delta) = delta /\ next_edge delta (MICROSTEPS_120 * 2) = MICROSTEPS_120.
Proof. unfold next_edge, CLOSE_NOTCH_MIN, CLOSE_NOTCH_MAX in *. split_and!; repeat bdestruct1; lia_wheel. Qed.

(** From the extra bump the next edge closes the pair. *)
Lemma search_from_extra : search_from (MICROSTEPS_120 * 2 - delta) 1.
Proof.
  intros k ts w Hb H0 Hm Hk Hl. destruct ts as [|t1 [|t2 [|]]]; try done. destruct k as [|k]; [lia |].
  destruct next_edges as (_ & _ & E3 & E4). unfold search_ends.
  assert (Hd : 0 < delta < MICROSTEPS_120) by (unfold CLOSE_NOTCH_MIN, CLOSE_NOTCH_MAX in *; lia_wheel).
  assert ((MICROSTEPS_120 * 2 - delta + delta) mod MICROSTEPS_360 = MICROSTEPS_120 * 2) as Em
    by (replace (MICROSTEPS_120 * 2 - delta + delta) with 4096 by lia_wheel; reflexivity).
  rewrite total_cons, E3, Em, total_cons, E4 by lia_wheel.
  cbn [ideal_waits app]. rewrite E3, Em, E4.
  edestruct (homing_search_step h k (Wait (Z.to_nat delta) true true t1)) as (w1 & E & Hb1 & K1 & _);
    [exact Hh | exact Hb | done | cbn; lia_wheel | lia |].
  cbn [w_steps] in E. rewrite Z2Nat.id in E by lia.
  replace (negb (notch_count w =? 0) && close_gap delta) with true in E.
  2:{ symmetry. unfold close_gap. rewrite !andb_true_iff, negb_true_iff, Z.eqb_neq, !Z.ltb_lt. lia. }
  exists w1, (Z.to_nat MICROSTEPS_120), t2. split; [exact E |]. split_and!; done.
Qed.

Lemma search_from_vertical : search_from MICROSTEPS_120 2.
Proof.
  destruct next_edges as (_ & E2 & _). apply search_from_far; [lia_wheel | |].
  - rewrite E2. unfold close_gap, CLOSE_NOTCH_MIN, CLOSE_NOTCH_MAX in *. rewrite andb_false_iff, !Z.ltb_ge. lia_wheel.
  - rewrite E2. replace (MICROSTEPS_120 + (MICROSTEPS_120 - delta)) with (MICROSTEPS_120 * 2 - delta) by lia.
    rewrite Z.mod_small by (unfold CLOSE_NOTCH_MIN, CLOSE_NOTCH_MAX in *; lia_wheel). exact search_from_extra.
Qed.

Lemma search_from_pass_through : search_from 0 3.
Proof.
  destruct next_edges as (E1 & _). apply search_from_far; [lia_wheel | by rewrite E1 |].
  rewrite E1. exact search_from_vertical.
Qed.

Lemma search_from_horizontal : search_from (MICROSTEPS_120 * 2) 4.
Proof.
  destruct next_edges as (_ & _ & _ & E4). apply search_from_far; [lia_wheel | by rewrite E4 |].
  rewrite E4. exact search_from_pass_through.
Qed.

(** From anywhere: the first notch is not compared with anything. *)
Lemma homing_search_ideal p ts w : bounds_ok w -> notch_count w = 0 -> 0 <= p < MICROSTEPS_360 ->
  length ts = homing_edges delta p -> search_ends 10 ts p w.
Proof.
  intros Hb Hn Hp Hl.
  assert (exists n, homing_edges delta p = S (S n) /\ (n <= 4)%nat /\
    search_from ((p + next_edge delta p) mod MICROSTEPS_360) n) as (n & En & Hn4 & Hs).
  { unfold homing_edges, next_edge, CLOSE_NOTCH_MIN, CLOSE_NOTCH_MAX in *. repeat bdestruct1.
    - exists 2%nat. replace (p + (MICROSTEPS_120 - p)) with MICROSTEPS_120 by lia.
      split_and!; [done | lia | exact search_from_vertical].
    - exists 1%nat. replace (p + (MICROSTEPS_120 * 2 - delta - p)) with (MICROSTEPS_120 * 2 - delta) by lia.
      rewrite Z.mod_small by lia_wheel. split_and!; [done | lia | exact search_from_extra].
    - exists 4%nat. replace (p + (MICROSTEPS_120 * 2 - p)) with (MICROSTEPS_120 * 2) by lia.
      split_and!; [done | lia | exact search_from_horizontal].
    - exists 3%nat. replace (p + (MICROSTEPS_360 - p)) with MICROSTEPS_360 by lia.
      split_and!; [done | lia | exact search_from_pass_through]. }
  destruct ts as [|t ts]; [by rewrite En in Hl |]. rewrite En in Hl. injection Hl as Hl.
  apply (search_far 9 t ts p n); try done; [lia | unfold NOTCH_DETECT_ATTEMPTS; lia | by left | lia].
Qed.
End IdealSearch.

Lemma homing_start_frame h now w : hw_works h ->
  calib (homing_start h now w) = calib w /\ reports (homing_start h now w) = reports w /\
  notch_count (homing_start h now w) = 0 /\
  target_position (positioning (homing_start h now w)) = PASS_THROUGH.
Proof.
  intros (_ & _ & Hd & He1 & He2). unfold homing_start, set_direction, enable_encoder. rewrite Hd, He1, He2.
  by destruct (r_drv h =? 0).
Qed.

Lemma total_steps_app a b : total_steps (a ++ b) = total_steps a + total_steps b.
Proof. unfold total_steps. induction a as [|x a IH]; cbn [app foldr]; [done | rewrite IH; lia]. Qed.

Lemma total_single_steps ps : total_steps (single_steps ps) = zlen ps.
Proof.
  induction ps as [|t ps IH]; [done |]. rewrite zlen_cons.
  change (1 + total_steps (single_steps ps) = 1 + zlen ps). by rewrite IH.
Qed.

(** C17: homing finds the pass-through glass.  On a wheel whose bumps are where
    they should be (the extra bump between 18.75 and 30 degrees before the
    horizontal one) and whose motor loses no step, from whatever angle [p] the
    wheel was left at: after the edges the code waits for and the last 96
    microsteps, made one at a time within a second, the homing is over, the motor
    is stopped with the pass-through glass centered (96 microsteps past the edge of
    its bump), the step counter is 0 there, the encoder is off, the wheel is homed
    and idle and the position has been published. *)
Theorem homing_finds_pass_through h now delta p ts ps rest w :
  hw_works h -> bounds_ok w -> needs_calibration (calib w) = false ->
  CLOSE_NOTCH_MIN < delta < CLOSE_NOTCH_MAX -> 0 <= p < MICROSTEPS_360 ->
  length ts = homing_edges delta p -> zlen ps = NOTCH_EDGE_TO_CENTER ->
  Forall (fun t => 0 <= t - default 0 (last ts) < 1000) ps ->
  let tape := ideal_waits delta ts p ++ single_steps ps in
  exists now' w' r, execute_homing 1 h now (tape ++ rest) w = Some (now', rest, w') /\
    (p + total_steps tape) mod MICROSTEPS_360 = NOTCH_EDGE_TO_CENTER /\
    current (step_count w') = 0 /\ stopped w' /\ state w' = STATE_IDLE /\ homed w' = true /\
    enc_irq (hw w') = IRQ_DISABLED /\ reports w' = reports w ++ [r] /\ rep_current r = PASS_THROUGH.
Proof.
  intros Hh Hb Hn Hd Hp Hl Hl2 Ht tape. subst tape. rewrite <- app_assoc.
  destruct (homing_start_frame h now w Hh) as (F1 & F2 & F3 & F4).
  destruct (homing_search_ideal h delta (single_steps ps ++ rest) Hh Hd p ts (homing_start h now w))
    as (w1 & d & t & E & Hb1 & K & L & T); [by apply bo_homing_start | done | done | done |].
  rewrite L in Ht. cbn [default] in Ht.
  destruct (homing_approach_ends h now d true t ps rest w1 Hh Hb1 Hl2 Ht)
    as (now' & w2 & E2 & S2 & I2 & C2 & R2 & P2).
  destruct K as [_ _ K1 K2 _ K3 _].
  cbn [execute_homing]. unfold homing_core. rewrite E. cbn [mbind option_bind]. rewrite E2.
  cbn [mbind option_bind negb]. unfold report_reached_state, publish at 1.
  cbn [calib set_current set_steps set_homing set_state]. rewrite C2, K1, F1, Hn.
  eexists now', _, _. split; [reflexivity |].
  split; [rewrite total_steps_app, total_single_steps, Hl2, Z.add_assoc, <- Zplus_mod_idemp_l, T; reflexivity |].
  cbn. split; [done |]. split; [exact S2 |]. split_and!; try done.
  - rewrite R2, K3, F2. reflexivity.
  - cbn. by rewrite P2, K2, F4.
Qed.

Lemma homing_finds_pass_through_witness :
  exists now' w', execute_homing 1 hw_ok 0
      (ideal_waits 400 [1; 2; 3] 3000 ++ single_steps (replicate 96 50)) wheel_reset = Some (now', [], w') /\
    homed w' = true /\
    (3000 + total_steps (ideal_waits 400 [1; 2; 3] 3000 ++ single_steps (replicate 96 50))) mod 6144 = 96.
Proof.
  destruct (homing_finds_pass_through hw_ok 0 400 3000 [1; 2; 3] (replicate 96 50) [] wheel_reset)
    as (now' & w' & r & E & T & _ & _ & _ & Eh & _).
  - repeat split.
  - apply wheel_ok_bounds, wheel_reset_ok.
  - reflexivity.
  - vm_compute. intuition discriminate.
  - vm_compute. intuition discriminate.
  - reflexivity.
  - reflexivity.
  - apply Forall_replicate. vm_compute. intuition discriminate.
  - exists now', w'. rewrite app_nil_r in E. split; [exact E |]. split; [exact Eh | exact T].
Defined.

(** The wheel is said to be homed, and its counter is set to 0, even when the
    notch of the pass-through glass did not show up within the four seconds the
    code waits for it: only the close pair of notches decides. *)
Theorem homed_without_pass_through h now tape w d l t rest w1 :
  homing_search h 10 tape (homing_start h now w) = Some (NotchFound, Wait d false l t :: rest, w1) ->
  exists w', homing_core h now tape w = Some (true, t, rest, w') /\
    homed w' = true /\ state w' = STATE_IDLE /\ current (step_count w') = 0 /\ stopped w'.
Proof.
  intros E. unfold homing_core. rewrite E. cbn [mbind option_bind]. unfold homing_approach.
  cbn [w_got w_time mbind option_bind]. eexists. split; [reflexivity |]. done.
Qed.

Lemma homed_without_pass_through_witness :
  exists w', homing_core hw_ok 0 [Wait 100 true true 1; Wait 400 true true 2; Wait 1000 false false 4002]
      wheel_reset = Some (true, 4002, [], w') /\ homed w' = true.
Proof.
  destruct (homing_search hw_ok 10 [Wait 100 true true 1; Wait 400 true true 2; Wait 1000 false false 4002]
    (homing_start hw_ok 0 wheel_reset)) as [[[[] tape] w1]|] eqn:E; vm_compute in E; try discriminate E.
  injection E as E1 E2. subst tape.
  destruct (homed_without_pass_through hw_ok 0 [Wait 100 true true 1; Wait 400 true true 2; Wait 1000 false false 4002]
    wheel_reset 1000 false 4002 [] w1) as (w' & Ew & Hw & _).
  - rewrite <- E2. vm_compute. reflexivity.
  - exists w'. split; [exact Ew | exact Hw].
Defined.

(** ** The thread always comes back to its loop *)

Definition times (now : Z) (tape : list wait) : list Z := now :: (w_time <$> tape).

(** The uptime never goes back, advances by a millisecond at least every [m]
    waits, and does not go round within the tape. *)
Record paced (m : nat) (now : Z) (tape : list wait) : Prop := {
  pc_rate : forall i x y, times now tape !! i = Some x -> times now tape !! (i + m)%nat = Some y -> x < y;
  pc_range : forall i j x y, (i <= j)%nat -> times now tape !! i = Some x -> times now tape !! j = Some y ->
    0 <= y - x < 2 ^ 32;
}.

(** The uptime after the waits [a]. *)
Definition end_time (now : Z) (a : list wait) : Z := foldl (fun _ x => w_time x) now a.

Lemma times_drop a tape : forall now, drop (length a) (times now (a ++ tape)) = times (end_time now a) tape.
Proof. induction a as [|x a IH]; intros now; [done | apply (IH (w_time x))]. Qed.

Lemma paced_app m now a tape : paced m now (a ++ tape) -> paced m (end_time now a) tape.
Proof.
  intros [H1 H2]. split; rewrite <- times_drop.
  - intros i x y. rewrite !lookup_drop, Nat.add_assoc. apply H1.
  - intros i j x y Hij. rewrite !lookup_drop. apply H2. lia.
Qed.

Lemma paced_elapsed m now tape : paced m now tape -> forall k x,
  times now tape !! (k * m)%nat = Some x -> now + Z.of_nat k <= x.
Proof.
  intros [H1 H2]. induction k as [|k IH]; intros x Hx; [injection Hx; lia |].
  replace (S k * m)%nat with (k * m + m)%nat in Hx by lia.
  destruct (times now tape !! (k * m)%nat) as [y|] eqn:E.
  - specialize (IH y eq_refl). specialize (H1 _ _ _ E Hx). lia.
  - apply lookup_ge_None in E. apply lookup_lt_Some in Hx. lia.
Qed.

(** A loop that runs while less than [limit] milliseconds have passed since
    [now], and has used up the waits [a]. *)
Fixpoint runs_within (limit start now : Z) (a : list wait) : Prop :=
  match a with
  | [] => True
  | x :: a => u32 (now - start) < limit /\ runs_within limit start (w_time x) a
  end.

Lemma runs_within_lookup limit start a tape : forall now i x, runs_within limit start now a ->
  (i < length a)%nat -> times now (a ++ tape) !! i = Some x -> u32 (x - start) < limit.
Proof.
  induction a as [|y a IH]; intros now i x; cbn [runs_within length]; [lia |].
  intros [H1 H2] Hi. destruct i as [|i]; [intros [= <-]; exact H1 |].
  apply (IH (w_time y)); [exact H2 | lia].
Qed.

(** Such a loop uses at most [limit * m] waits. *)
Lemma runs_within_bound m limit now a tape : paced m now (a ++ tape) ->
  runs_within (Z.of_nat limit) now now a -> (length a <= limit * m)%nat.
Proof.
  intros Hp Hr. destruct (decide (length a <= limit * m)%nat) as [|N]; [done |]. exfalso.
  destruct (lookup_lt_is_Some_2 (times now (a ++ tape)) (limit * m)) as [x Hx].
  { unfold times. cbn. rewrite length_fmap, length_app. lia. }
  pose proof (runs_within_lookup _ _ _ tape _ (limit * m)%nat _ Hr ltac:(lia) Hx) as H.
  pose proof (paced_elapsed _ _ _ Hp _ _ Hx).
  pose proof (pc_range _ _ _ Hp 0%nat (limit * m)%nat now x ltac:(lia) eq_refl Hx).
  rewrite u32_small in H by lia. lia.
Qed.

(** Enough waits are left for the loop to see its deadline. *)
Lemma paced_deadline m limit now tape : paced m now tape -> (limit * m <= length tape)%nat -> (0 < limit)%nat ->
  exists x, x ∈ times now tape /\ Z.of_nat limit <= u32 (x - now).
Proof.
  intros Hp Hl H0. destruct (lookup_lt_is_Some_2 (times now tape) (limit * m)) as [x Hx].
  { unfold times. cbn. rewrite length_fmap. lia. }
  exists x. split; [by eapply list_elem_of_lookup_2 |].
  pose proof (paced_elapsed _ _ _ Hp _ _ Hx).
  pose proof (pc_range _ _ _ Hp 0%nat (limit * m)%nat now x ltac:(lia) eq_refl Hx). rewrite u32_small by lia. lia.
Qed.

Lemma settle_runs goal start : forall tape now w,
  match settle goal start now tape w with
  | Some (now', tape', _) => exists a, tape = a ++ tape' /\ now' = end_time now a /\ runs_within 1000 start now a
  | None => Forall (fun t => u32 (t - start) < 1000) (times now tape)
  end.
Proof.
  induction tape as [|x tape IH]; intros now w; cbn [settle];
    (destruct ((current (step_count w) =? goal) || (1000 <=? u32 (now - start))) eqn:E;
      [exists []; done | apply orb_false_iff in E as [_ E%Z.leb_gt]]).
  - by repeat constructor.
  - specialize (IH (w_time x) (wait_step x w)).
    destruct (settle goal start (w_time x) tape (wait_step x w)) as [[[now' tape'] w']|].
    + destruct IH as (a & -> & -> & H). by exists (x :: a).
    + by constructor.
Qed.

Lemma calibration_watch_runs start : forall tape now w,
  match calibration_watch start now tape w with
  | Some (_, now', tape', _) => exists a, tape = a ++ tape' /\ now' = end_time now a /\ runs_within 4000 start now a
  | None => Forall (fun t => u32 (t - start) < 4000) (times now tape)
  end.
Proof.
  induction tape as [|x tape IH]; intros now w; cbn [calibration_watch];
    (destruct (Z.leb_spec 4000 (u32 (now - start))) as [E|E]; [exists []; done |]).
  - by repeat constructor.
  - destruct (if w_got x then _ else _) as [c fin].
    destruct fin; [by exists [x] |].
    destruct (current _ =? target _); [by exists [x] |].
    match goal with |- context [calibration_watch start (w_time x) tape ?v] =>
      specialize (IH (w_time x) v); destruct (calibration_watch start (w_time x) tape v) as [[[[f n] tape'] w']|] end.
    + destruct IH as (a & -> & -> & H). by exists (x :: a).
    + by constructor.
Qed.

(** [o] is a result that used up at most [n] waits and left [now'] as the uptime. *)
Definition used_up (n : nat) (now : Z) (tape : list wait) (now' : Z) (tape' : list wait) : Prop :=
  exists a, tape = a ++ tape' /\ now' = end_time now a /\ (length a <= n)%nat.

Lemma end_time_app now a b : end_time now (a ++ b) = end_time (end_time now a) b.
Proof. apply foldl_app. Qed.

Lemma used_up_trans n k now tape now1 tape1 now2 tape2 :
  used_up n now tape now1 tape1 -> used_up k now1 tape1 now2 tape2 -> used_up (n + k) now tape now2 tape2.
Proof.
  intros (a & -> & -> & Ha) (b & -> & -> & Hb). exists (a ++ b). rewrite end_time_app, length_app, <- app_assoc.
  split_and!; [done.. | lia].
Qed.

Lemma used_up_none now tape n : used_up n now tape now tape.
Proof. exists []. split_and!; [done.. | cbn; lia]. Qed.

Lemma used_up_weaken n k now tape now' tape' : (n <= k)%nat ->
  used_up n now tape now' tape' -> used_up k now tape now' tape'.
Proof. intros H (a & ? & ? & ?). exists a. split_and!; [done.. | lia]. Qed.

Lemma used_up_paced m n now tape now' tape' : paced m now tape -> used_up n now tape now' tape' ->
  paced m now' tape' /\ (length tape <= n + length tape')%nat.
Proof.
  intros Hp (a & -> & -> & Ha). split; [by apply paced_app | rewrite length_app; lia].
Qed.

Lemma settle_returns m goal now tape w : paced m now tape -> (1000 * m <= length tape)%nat ->
  exists now' tape' w', settle goal now now tape w = Some (now', tape', w') /\
    used_up (1000 * m) now tape now' tape'.
Proof.
  intros Hp Hl. pose proof (settle_runs goal now tape now w) as H.
  destruct (settle goal now now tape w) as [[[now' tape'] w']|].
  - destruct H as (a & -> & -> & H). eexists _, _, _. split; [done |]. exists a. split_and!; [done.. |].
    by eapply runs_within_bound.
  - destruct (paced_deadline m 1000 now tape Hp Hl ltac:(lia)) as (x & Hx & Hd).
    rewrite Forall_forall in H. specialize (H x Hx). lia.
Qed.

Lemma calibration_watch_returns m now tape w : paced m now tape -> (4000 * m <= length tape)%nat ->
  exists fin now' tape' w', calibration_watch now now tape w = Some (fin, now', tape', w') /\
    used_up (4000 * m) now tape now' tape'.
Proof.
  intros Hp Hl. pose proof (calibration_watch_runs now tape now w) as H.
  destruct (calibration_watch now now tape w) as [[[[fin now'] tape'] w']|].
  - destruct H as (a & -> & -> & H). eexists _, _, _, _. split; [done |]. exists a. split_and!; [done.. |].
    by eapply runs_within_bound.
  - destruct (paced_deadline m 4000 now tape Hp Hl ltac:(lia)) as (x & Hx & Hd).
    rewrite Forall_forall in H. specialize (H x Hx). lia.
Qed.

(** The search counts its notches, and its attempts. *)
Lemma step_relative_notches h f n w :
  notch_count (polarizer_wheel_step_relative h f n w).2 = notch_count w.
Proof.
  unfold polarizer_wheel_step_relative, polarizer_rotate, polarizer_set_frequency, set_direction.
  by repeat case_match.
Qed.

Lemma turn_notches n w : notch_count (turn n w) = notch_count w.
Proof.
  induction n as [|n IH]; [done |].
  change (turn (S n) w) with (polarizer_wheel_step_isr (step_irq (hw (turn n w))) (turn n w)).
  transitivity (notch_count (turn n w)); [| exact IH].
  unfold polarizer_wheel_step_isr. by case_match.
Qed.

Lemma homing_spin_returns h fuel : forall a tape w now, 0 <= a <= HOMING_SPIN_ATTEMPTS ->
  (Z.to_nat (HOMING_SPIN_ATTEMPTS - a) < fuel)%nat -> (3 <= length tape + Z.to_nat a)%nat ->
  exists r tape' w' now', homing_spin h fuel a tape w = Some (r, tape', w') /\
    used_up (3 - Z.to_nat a) now tape now' tape' /\
    (r <> SpinFailed -> notch_count w' = notch_count w).
Proof.
  unfold HOMING_SPIN_ATTEMPTS. induction fuel as [|k IH]; intros a tape w now Ha Hf Hl; [lia |].
  cbn [homing_spin]. unfold HOMING_SPIN_ATTEMPTS. destruct (Z.ltb_spec a 3).
  - match goal with |- context [polarizer_wheel_step_relative h ?f ?n ?v] =>
      pose proof (step_relative_notches h f n v) as Hn;
      destruct (polarizer_wheel_step_relative h f n v) as [ret w1] end. cbn [snd] in Hn.
    destruct (negb (ret =? RET_SUCCESS)).
    { eexists _, _, _, _. split; [reflexivity |]. split; [apply used_up_none | done]. }
    destruct tape as [|x tape]; [cbn in Hl; lia |]. cbn [length] in Hl.
    assert (notch_count (wait_encoder x w1) = notch_count w) as Hx
      by (unfold wait_encoder; cbn; rewrite turn_notches; exact Hn).
    destruct (w_got x).
    { eexists _, _, _, (w_time x). split; [reflexivity |]. split; [| intros _; exact Hx].
      exists [x]. split_and!; [done.. | cbn; lia]. }
    destruct (IH (a + 1) tape (wait_encoder x w1) (w_time x)) as (r & tape' & w' & now' & E & U & N);
      [lia | lia | lia |].
    eexists _, _, _, now'. split; [exact E |]. split; [| intros Hr; by rewrite (N Hr)].
    apply (used_up_weaken (1 + (3 - Z.to_nat (a + 1)))); [lia |].
    eapply used_up_trans; [| exact U]. exists [x]. by split_and!.
  - eexists _, _, _, _. split; [reflexivity |]. split; [apply used_up_none | done].
Qed.

Lemma homing_search_returns h : forall k tape w now,
  0 <= notch_count w -> (Z.to_nat (9 - notch_count w) < k)%nat ->
  (3 * Z.to_nat (9 - notch_count w) <= length tape)%nat ->
  exists r tape' w' now', homing_search h k tape w = Some (r, tape', w') /\
    used_up (3 * Z.to_nat (9 - notch_count w)) now tape now' tape'.
Proof.
  induction k as [|k IH]; intros tape w now H0 Hk Hl; [lia |]. cbn [homing_search].
  unfold NOTCH_DETECT_ATTEMPTS. destruct (Z.ltb_spec (notch_count w) 9).
  - destruct (homing_spin_returns h 4 0 tape w now) as (r & tape1 & w1 & now1 & E & U & N);
      [done | by vm_compute; lia | cbn; lia |].
    rewrite E. cbn [mbind option_bind]. destruct r as [|a].
    { eexists _, _, _, _. split; [reflexivity |]. eapply used_up_weaken; [| exact U]. cbn. lia. }
    specialize (N ltac:(done)). destruct (a =? HOMING_SPIN_ATTEMPTS).
    { eexists _, _, _, _. split; [reflexivity |]. eapply used_up_weaken; [| exact U]. cbn. lia. }
    case_match.
    { eexists _, _, _, _. split; [reflexivity |]. eapply used_up_weaken; [| exact U]. cbn. lia. }
    assert (length tape <= 3 + length tape1)%nat as Hl1.
    { destruct U as (b & -> & _ & Hb). rewrite length_app. cbn in Hb. lia. }
    match goal with |- context [homing_search h k tape1 ?v] => destruct (IH tape1 v now1) as (r & tape2 & w2 & now2 & E2 & U2) end.
    + cbn. pose proof (u8_range (notch_count w1 + 1)). lia.
    + cbn. rewrite N, u8_small by lia. lia.
    + cbn. rewrite N, u8_small by lia. lia.
    + eexists _, _, _, _. split; [exact E2 |]. eapply used_up_weaken; [| exact (used_up_trans _ _ _ _ _ _ _ _ U U2)].
      cbn [notch_count set_current set_steps set_homing]. rewrite N, u8_small by lia. cbn. lia.
  - eexists _, _, _, _. split; [reflexivity |]. apply used_up_none.
Qed.

Lemma used_up_cons now x tape : used_up 1 now (x :: tape) (w_time x) tape.
Proof. exists [x]. by split_and!. Qed.

Lemma homing_approach_returns m h now tape w now0 : paced m now tape -> (1 + 1000 * m <= length tape)%nat ->
  exists now' tape' w', homing_approach h now0 tape w = Some (now', tape', w') /\
    used_up (1 + 1000 * m) now tape now' tape'.
Proof.
  intros Hp Hl. unfold homing_approach. destruct tape as [|x tape]; [cbn in Hl; lia |]. cbn [length] in Hl.
  pose proof (used_up_cons now x tape) as U1. destruct (used_up_paced _ _ _ _ _ _ Hp U1) as [Hp1 _].
  destruct (w_got x).
  - match goal with |- context [settle ?g _ _ tape ?v] =>
      destruct (settle_returns m g (w_time x) tape v Hp1 ltac:(lia)) as (now1 & tape1 & w1 & E & U) end.
    rewrite E. cbn [mbind option_bind]. eexists _, _, _. split; [reflexivity |]. exact (used_up_trans _ _ _ _ _ _ _ _ U1 U).
  - cbn [mbind option_bind]. eexists _, _, _. split; [reflexivity |]. by eapply used_up_weaken; [| exact U1]; lia.
Qed.

Lemma homing_core_returns m h now tape w : paced m now tape -> (28 + 1000 * m <= length tape)%nat ->
  exists ok now' tape' w', homing_core h now tape w = Some (ok, now', tape', w') /\
    (ok = true -> used_up (28 + 1000 * m) now tape now' tape').
Proof.
  intros Hp Hl. unfold homing_core.
  assert (notch_count (homing_start h now w) = 0) as Hn
    by (unfold homing_start, set_direction, enable_encoder; by repeat case_match).
  destruct (homing_search_returns h 10 tape (homing_start h now w) now) as (r & tape1 & w1 & now1 & E & U);
    [by rewrite Hn | rewrite Hn; vm_compute; lia | rewrite Hn; change (3 * Z.to_nat (9 - 0))%nat with 27%nat; lia |].
  rewrite Hn in U. change (3 * Z.to_nat (9 - 0))%nat with 27%nat in U.
  rewrite E. cbn [mbind option_bind]. destruct (used_up_paced _ _ _ _ _ _ Hp U) as [Hp1 Hl1]. destruct r.
  - eexists _, _, _, _. by split.
  - destruct (homing_approach_returns m h now1 tape1 w1 now Hp1 ltac:(lia)) as (now2 & tape2 & w2 & E2 & U2).
    rewrite E2. cbn [mbind option_bind]. eexists _, _, _, _. split; [reflexivity |]. intros _.
    eapply used_up_weaken; [| exact (used_up_trans _ _ _ _ _ _ _ _ U U2)]. lia.
  - eexists _, _, _, _. by split.
Qed.

Lemma calibration_spins_returns m h : forall n now tape w, paced m now tape -> (n * (4000 * m) <= length tape)%nat ->
  exists ok now' tape' w', calibration_spins h n now tape w = Some (ok, now', tape', w') /\
    used_up (n * (4000 * m)) now tape now' tape'.
Proof.
  induction n as [|n IH]; intros now tape w Hp Hl; cbn [calibration_spins].
  { eexists _, _, _, _. split; [reflexivity |]. apply used_up_none. }
  destruct (polarizer_wheel_step_relative _ _ _ _) as [ret w1].
  destruct (negb (ret =? RET_SUCCESS)).
  { eexists _, _, _, _. split; [reflexivity |]. apply used_up_none. }
  destruct (calibration_watch_returns m now tape w1 Hp ltac:(lia)) as (fin & now1 & tape1 & w2 & E & U).
  rewrite E. cbn [mbind option_bind]. destruct (used_up_paced _ _ _ _ _ _ Hp U) as [Hp1 Hl1]. destruct fin.
  - eexists _, _, _, _. split; [reflexivity |]. eapply used_up_weaken; [| exact U]. lia.
  - destruct (IH now1 tape1 (polarizer_halt w2) Hp1 ltac:(lia)) as (ok & now2 & tape2 & w3 & E2 & U2).
    eexists _, _, _, _. split; [exact E2 |]. exact (used_up_trans _ _ _ _ _ _ _ _ U U2).
Qed.

Lemma calibration_core_returns m h now tape w : paced m now tape -> (2 * (4000 * m) <= length tape)%nat ->
  exists ok now' tape' w', calibration_core h now tape w = Some (ok, now', tape', w') /\
    used_up (2 * (4000 * m)) now tape now' tape' /\ (ok = true -> needs_calibration (calib w') = false).
Proof.
  intros Hp Hl. unfold calibration_core.
  assert (forall v, exists ok now' tape' w', Some (false, now, tape, v) = Some (ok, now', tape', w') /\
    used_up (2 * (4000 * m)) now tape now' tape' /\ (ok = true -> needs_calibration (calib w') = false)) as Hfail.
  { intros v. eexists _, _, _, _. split; [reflexivity |]. split; [apply used_up_none | done]. }
  do 5 (case_match; [apply Hfail |]).
  match goal with |- context [calibration_spins h 2 now tape ?v] =>
    destruct (calibration_spins_returns m h 2 now tape v Hp Hl) as (ok & now1 & tape1 & w1 & E & U) end.
  rewrite E. cbn [mbind option_bind]. destruct ok; cbn [negb];
    (eexists _, _, _, _; split; [reflexivity |]; split; [exact U | done]).
Qed.

(** Homing keeps the calibration. *)
Lemma step_relative_calib h f n w : calib (polarizer_wheel_step_relative h f n w).2 = calib w.
Proof.
  unfold polarizer_wheel_step_relative, polarizer_rotate, polarizer_set_frequency, set_direction.
  by repeat case_match.
Qed.

Lemma turn_calib n w : calib (turn n w) = calib w.
Proof.
  induction n as [|n IH]; [done |].
  change (turn (S n) w) with (polarizer_wheel_step_isr (step_irq (hw (turn n w))) (turn n w)).
  transitivity (calib (turn n w)); [| exact IH]. unfold polarizer_wheel_step_isr. by case_match.
Qed.

Lemma homing_fail_calib h w : calib (homing_fail h w) = calib w.
Proof. unfold homing_fail, disable_drv, disable_encoder. by repeat case_match. Qed.

Lemma homing_spin_calib h fuel : forall a tape w r tape' w',
  homing_spin h fuel a tape w = Some (r, tape', w') -> calib w' = calib w.
Proof.
  induction fuel as [|k IH]; intros a tape w r tape' w'; cbn [homing_spin]; [done |].
  destruct (a <? HOMING_SPIN_ATTEMPTS); [| by intros [= <- <- <-]].
  match goal with |- context [polarizer_wheel_step_relative h ?f ?n ?v] =>
    pose proof (step_relative_calib h f n v) as Hn;
    destruct (polarizer_wheel_step_relative h f n v) as [ret w1] end. cbn [snd] in Hn.
  destruct (negb (ret =? RET_SUCCESS)); [intros [= <- <- <-]; by rewrite homing_fail_calib |].
  destruct tape as [|x tape]; [done |].
  assert (calib (wait_encoder x w1) = calib w) as Hx by (unfold wait_encoder; cbn; by rewrite turn_calib).
  destruct (w_got x); [by intros [= <- <- <-] |]. intros E. by rewrite (IH _ _ _ _ _ _ E).
Qed.

Lemma homing_search_calib h fuel : forall tape w r tape' w',
  homing_search h fuel tape w = Some (r, tape', w') -> calib w' = calib w.
Proof.
  induction fuel as [|k IH]; intros tape w r tape' w'; cbn [homing_search]; [done |].
  destruct (_ <? _); [| by intros [= <- <- <-]].
  destruct (homing_spin h 4 0 tape w) as [[[r1 tape1] w1]|] eqn:E; [| done]. cbn [mbind option_bind].
  apply homing_spin_calib in E. destruct r1 as [|a]; [by intros [= <- <- <-] |].
  destruct (a =? _); [intros [= <- <- <-]; by rewrite homing_fail_calib |].
  destruct (_ && _); [by intros [= <- <- <-] |]. intros E2. by rewrite (IH _ _ _ _ _ E2).
Qed.

Lemma settle_calib goal start : forall tape now w now' tape' w',
  settle goal start now tape w = Some (now', tape', w') -> calib w' = calib w.
Proof.
  induction tape as [|x tape IH]; intros now w now' tape' w'; cbn [settle];
    (destruct (_ || _); [by intros [= <- <- <-] |]); [done |].
  intros E. rewrite (IH _ _ _ _ _ E). unfold wait_step. cbn. by rewrite turn_calib.
Qed.

Lemma homing_core_needs h now tape w ok now' tape' w' :
  homing_core h now tape w = Some (ok, now', tape', w') -> calib w' = calib w.
Proof.
  unfold homing_core. destruct (homing_search _ _ _ _) as [[[r tape1] w1]|] eqn:E; [| done].
  cbn [mbind option_bind]. apply homing_search_calib in E.
  assert (calib w1 = calib w) as E1.
  { rewrite E. unfold homing_start, set_direction, enable_encoder. by repeat case_match. }
  destruct r; [by intros [= <- <- <- <-] | | intros [= <- <- <- <-]; by rewrite homing_fail_calib].
  destruct (homing_approach h now tape1 w1) as [[[now2 tape2] w2]|] eqn:Ea; [| done].
  cbn [mbind option_bind]. intros [= <- <- <- <-]. cbn. rewrite <- E1. revert Ea.
  unfold homing_approach. destruct tape1 as [|x tape1]; [done |].
  destruct (w_got x).
  - match goal with |- context [settle ?g ?s ?n tape1 ?v] =>
      assert (calib v = calib w1) as Ev by (unfold wait_encoder; cbn; by rewrite turn_calib, step_relative_calib);
      destruct (settle g s n tape1 v) as [[[n3 t3] w3]|] eqn:Es; [| done] end.
    cbn [mbind option_bind]. intros [= <- <- <-]. apply settle_calib in Es. rewrite <- Ev, <- Es.
    unfold disable_encoder. by repeat case_match.
  - cbn [mbind option_bind]. intros [= <- <- <-].
    match goal with |- context [wait_encoder x ?v] =>
      assert (calib (wait_encoder x v) = calib w1) as Ev
        by (unfold wait_encoder; cbn; by rewrite turn_calib, step_relative_calib);
      set (v1 := wait_encoder x v) in * end.
    rewrite <- Ev. unfold disable_encoder. by repeat case_match.
Qed.

(** Waits that are enough for a homing, a calibration and another homing. *)
Definition enough_waits (m : nat) : nat := 56 + 10 * (1000 * m).

Lemma execute_homing_again m h now tape w : paced m now tape -> (28 + 1000 * m <= length tape)%nat ->
  needs_calibration (calib w) = false ->
  exists now' tape' w', execute_homing 1 h now tape w = Some (now', tape', w').
Proof.
  intros Hp Hl Hc. cbn [execute_homing].
  destruct (homing_core_returns m h now tape w Hp Hl) as (ok & now1 & tape1 & w1 & E & U).
  rewrite E. cbn [mbind option_bind]. destruct ok; cbn [negb]; [| eauto].
  assert (needs_calibration (calib w1) = false) as ->; [| eauto].
  by rewrite (homing_core_needs _ _ _ _ _ _ _ _ E).
Qed.

Lemma execute_homing_returns m h now tape w : paced m now tape -> (enough_waits m <= length tape)%nat ->
  exists now' tape' w', execute_homing 2 h now tape w = Some (now', tape', w').
Proof.
  unfold enough_waits. intros Hp Hl. remember 1%nat as k eqn:Ek. cbn [execute_homing].
  destruct (homing_core_returns m h now tape w Hp ltac:(lia)) as (ok & now1 & tape1 & w1 & E & U).
  rewrite E. cbn [mbind option_bind]. destruct ok; cbn [negb]; [| eauto].
  destruct (needs_calibration (calib w1)); [| eauto].
  destruct (used_up_paced _ _ _ _ _ _ Hp (U eq_refl)) as [Hp1 Hl1].
  destruct (calibration_core_returns m h now1 tape1 (set_needs_calibration false w1) Hp1 ltac:(lia))
    as (ok & now2 & tape2 & w2 & E2 & U2 & N).
  rewrite E2. cbn [mbind option_bind]. destruct (used_up_paced _ _ _ _ _ _ Hp1 U2) as [Hp2 Hl2].
  destruct ok; [| eauto]. subst k. apply (execute_homing_again m); [done | lia | by apply N].
Qed.

(** C40: a turn of the thread always ends, with whatever homing and calibration it
    runs: the waits it can make are bounded.  [m] waits advance the uptime by one
    millisecond at least; then the nine notches of three attempts, the second the
    wheel is given to reach its center, the two spins of four seconds and the
    homing after them use at most [enough_waits m] waits. *)
Theorem thread_turn_returns m h now tape w :
  wheel_ok w -> paced m now tape -> (enough_waits m <= length tape)%nat ->
  exists w', thread_turn h now tape w = Some w'.
Proof.
  unfold enough_waits. intros Hw Hp Hl. unfold thread_turn. cbn [fst snd].
  assert (exists w1, (if step_sem w then thread_steps h now w else Some w) = Some w1) as (w1 & ->).
  { destruct (step_sem w); [| eauto]. unfold thread_steps.
    destruct (moving_state _); [| eauto].
    destruct (bo_process_step h now (take_step_sem w)) as (w1 & E & _); [| eauto].
    by apply bo_set_sems, wheel_ok_bounds. }
  cbn [mbind option_bind].
  set (w2 := if encoder_sem w then thread_encoder w1 else w1).
  assert (exists r, (if cmd_sem w then thread_command h now tape w2 else Some (now, w2)) = Some r) as ([now1 w3] & ->);
    [| eauto].
  destruct (cmd_sem w); [| eauto]. unfold thread_command. set (v := set_pending CMD_NONE _). destruct (pending _); [eauto | | eauto |].
  - destruct (execute_homing_returns m h now tape v Hp Hl) as (n & t & v' & ->). cbn. eauto.
  - unfold execute_calibration.
    destruct (calibration_core_returns m h now tape v Hp ltac:(lia)) as (ok & now1 & tape1 & v1 & E & U & N).
    rewrite E. cbn [mbind option_bind]. destruct (used_up_paced _ _ _ _ _ _ Hp U) as [Hp1 Hl1].
    destruct ok; [| cbn; eauto].
    destruct (execute_homing_again m h now1 tape1 v1 Hp1 ltac:(lia) (N eq_refl)) as (n & t & v' & ->). cbn. eauto.
Qed.

(** A clock that ticks once per wait. *)
Definition clock_waits (n : nat) : list wait := (fun i => Wait 1 false false (Z.of_nat i)) <$> seq 1 n.

Lemma clock_waits_paced n : Z.of_nat n < 2 ^ 32 -> paced 1 0 (clock_waits n).
Proof.
  intros Hn. assert (times 0 (clock_waits n) = Z.of_nat <$> seq 0 (S n)) as E.
  { unfold times, clock_waits. cbn [seq fmap list_fmap]. f_equal. by rewrite <- list_fmap_compose. }
  assert (forall i x, times 0 (clock_waits n) !! i = Some x -> x = Z.of_nat i /\ (i <= n)%nat) as L.
  { intros i x. rewrite E, list_lookup_fmap. destruct (seq 0 (S n) !! i) eqn:Ei; [| done].
    apply lookup_seq in Ei as [-> Hi]. intros [= <-]. split; lia. }
  split.
  - intros i x y [-> _]%L [-> _]%L. lia.
  - intros i j x y Hij [-> _]%L [-> ?]%L. lia.
Qed.

(** Initialized, the first homing queued. *)
Definition wheel_started : wheel :=
  (polarizer_wheel_init true (InitRet true (replicate 8 0) [5; 0] 0 true) wheel_reset).2.

Lemma wheel_started_reachable : reachable wheel_started.
Proof. apply (reachable_init (InitRet true (replicate 8 0) [5; 0] 0 true)). vm_compute. reflexivity. Qed.

Lemma thread_turn_returns_witness :
  exists w', thread_turn hw_ok 0 (clock_waits (enough_waits 1)) wheel_started = Some w'.
Proof.
  apply (thread_turn_returns 1).
  - exact (init_ok (InitRet true (replicate 8 0) [5; 0] 0 true) wheel_reset wheel_reset_ok eq_refl).
  - apply clock_waits_paced. vm_compute. reflexivity.
  - unfold clock_waits. rewrite length_fmap, length_seq. reflexivity.
Defined.

(** No encoder: three attempts, and the wheel is given up. *)
Lemma wheel_always_ok_witness :
  exists w, thread_turn hw_ok 100 [Wait 9 false false 4100; Wait 9 false false 8100; Wait 9 false false 12100]
      wheel_started = Some w /\ state w = STATE_UNINITIALIZED /\ wheel_ok w.
Proof.
  destruct (thread_turn hw_ok 100 [Wait 9 false false 4100; Wait 9 false false 8100; Wait 9 false false 12100]
    wheel_started) as [w|] eqn:E; [| vm_compute in E; discriminate E].
  exists w. split; [reflexivity |]. split.
  - vm_compute in E. injection E as <-. reflexivity.
  - apply wheel_always_ok. eapply reachable_step; [exact wheel_started_reachable |]. by eapply step_turn.
Defined.
