(* ===== verification/Power.v ===== *)
(** Power supplies and start of the Orb: main_board/src/power/boot/boot.c, up to
    the start of the Jetson.  The pins are seen through the operations on them,
    in order: a [trace].  [power_configure_gpios], [power_vbat_5v_3v3_supplies_on]
    and the others are the code's sequences of driver calls, [power_until_button_press]
    the wait for the user, [app_init_state] the decision to wait,
    [boot_turn_on_jetson] the start of the Jetson and [power_cycle_supply] the
    interruption of a supply; the end of the Orb's life is in [Reboot]. *)

From S2P Require Import Prelude.

(** ** Hardware versions

    The protobuf values of the hardware versions ([orb_mcu_Hardware_OrbVersion])
    are generated; the code compares with these. *)

Class HwVersions := {
  HW_VERSION_UNKNOWN : Z;
  HW_VERSION_PEARL_EV1 : Z;
  HW_VERSION_PEARL_EV2 : Z;
  HW_VERSION_PEARL_EV3 : Z;
  HW_VERSION_PEARL_EV4 : Z;
  HW_VERSION_PEARL_EV5 : Z;
  HW_VERSION_DIAMOND_EVT : Z;
}.

(** Distinct values, for the witnesses. *)
Definition sample_versions : HwVersions := {|
  HW_VERSION_UNKNOWN := 0; HW_VERSION_PEARL_EV1 := 1; HW_VERSION_PEARL_EV2 := 2;
  HW_VERSION_PEARL_EV3 := 3; HW_VERSION_PEARL_EV4 := 4; HW_VERSION_PEARL_EV5 := 5;
  HW_VERSION_DIAMOND_EVT := 10 |}.

(** ** Pins and operations on them *)

Inductive pin :=
| VBAT_SW | SUPPLY_5V | SUPPLY_3V3 | SUPPLY_1V8 | SUPPLY_12V | SUPPLY_12V_CAPS | SUPPLY_3V8
| SUPPLY_3V3_SSD | SUPPLY_3V3_WIFI | SUPPLY_3V3_LTE | SUPPLY_2V8 | SUPPLY_3V6 | SUPPLY_5V_RGB
| SUPER_CAP | PVCC
| LTE_RESET | LTE_GPS_USB_RESET | USB_HUB_RESET | PULLING_3V3 (i : Z) | USER_LED0 | USER_LED1
| MEAS_ENABLE | PVCC_IN | POWER_BUTTON
| JETSON_SLEEP_WAKE | JETSON_POWER_ENABLE | JETSON_SYSTEM_RESET | JETSON_SHUTDOWN_REQUEST.

#[export] Instance pin_eq_dec : EqDecision pin.
Proof. solve_decision. Defined.

Inductive mode := OUTPUT_INACTIVE | OUTPUT_ACTIVE | INPUT | DISCONNECTED.

#[export] Instance mode_eq_dec : EqDecision mode.
Proof. solve_decision. Defined.

(** What takes effect, in order; [Msleep] is a delay, [Leds] the operator LEDs. *)
Inductive op :=
| Conf (p : pin) (m : mode)
| Put (p : pin) (v : bool)
| Msleep (ms : Z)
| Leds (mask : Z).

Abbreviation trace := (list op).

(** What an operation leaves on the pin [p]. *)
Definition op_level (p : pin) (o : op) (l : option bool) : option bool :=
  match o with
  | Conf q m =>
      if decide (q = p) then
        match m with OUTPUT_INACTIVE => Some false | OUTPUT_ACTIVE => Some true | _ => None end
      else l
  | Put q v => if decide (q = p) then Some v else l
  | _ => l
  end.

(** The logical level a pin is driven to, [None] when it is not an output. *)
Definition level (p : pin) (t : trace) : option bool := fold_left (fun l o => op_level p o l) t None.

(** The driver's return codes: a call that fails has no effect. *)
Record gpio := Gpio { ready : pin -> bool; conf_ret : pin -> Z; set_ret : pin -> Z }.

Definition gpio_ok : gpio := Gpio (fun _ => true) (fun _ => 0) (fun _ => 0).

Definition gpio_pin_configure (g : gpio) (p : pin) (m : mode) (t : trace) : Z * trace :=
  (conf_ret g p, if conf_ret g p =? 0 then t ++ [Conf p m] else t).

Definition gpio_pin_set (g : gpio) (p : pin) (v : bool) (t : trace) : Z * trace :=
  (set_ret g p, if set_ret g p =? 0 then t ++ [Put p v] else t).

(** A function that only calls the driver is the list of its calls: checks that
    ports are ready, calls whose error is returned as [RET_ERROR_INTERNAL] and
    calls whose error is only counted ([ASSERT_SOFT]). *)
Inductive action :=
| NeedReady (ps : list pin)
| Configure (p : pin) (m : mode)
| ConfigureSoft (p : pin) (m : mode)
| SetSoft (p : pin) (v : bool)
| Sleep (ms : Z).

Fixpoint run (g : gpio) (acts : list action) (t : trace) : Z * trace :=
  match acts with
  | [] => (RET_SUCCESS, t)
  | NeedReady ps :: acts => if forallb (ready g) ps then run g acts t else (RET_ERROR_INTERNAL, t)
  | Configure p m :: acts =>
      let '(ret, t) := gpio_pin_configure g p m t in
      if negb (ret =? 0) then (RET_ERROR_INTERNAL, t) else run g acts t
  | ConfigureSoft p m :: acts => run g acts (gpio_pin_configure g p m t).2
  | SetSoft p v :: acts => run g acts (gpio_pin_set g p v t).2
  | Sleep ms :: acts => run g acts (t ++ [Msleep ms])
  end.

(** Lines whose supply can be interrupted, and the time each line's work is due,
    if it is scheduled. *)
Inductive power_line := WIFI_3V3 | LTE_3V3 | SD_SSD_3V3 | HEAT_CAMERA_2V8 | OTHER_LINE.

#[export] Instance power_line_eq_dec : EqDecision power_line.
Proof. solve_decision. Defined.

Abbreviation works := (power_line -> option Z).

Section Board.
Context (b : board) `{HwVersions}.

Definition has_3v8 (version : Z) : bool :=
  (version =? HW_VERSION_PEARL_EV1) || (version =? HW_VERSION_PEARL_EV2) ||
  (version =? HW_VERSION_PEARL_EV3) || (version =? HW_VERSION_PEARL_EV4).

Definition has_ssd_wifi (version : Z) : bool :=
  (version =? HW_VERSION_PEARL_EV5) || (HW_VERSION_DIAMOND_EVT <=? version).

(** [for (i = 0; i < ARRAY_SIZE(pulling_3v3); ++i) ... &pulling_3v3[0] ...] *)
Definition pulling_3v3_loop : list action :=
  [ConfigureSoft (PULLING_3V3 0) OUTPUT_INACTIVE; ConfigureSoft (PULLING_3V3 0) OUTPUT_INACTIVE;
   ConfigureSoft (PULLING_3V3 0) OUTPUT_INACTIVE].

Definition configure_actions (version : Z) : list action :=
  [NeedReady ([VBAT_SW; SUPPLY_5V] ++
     match b with Pearl => [SUPPLY_12V; SUPPLY_3V8] | Diamond => [SUPPLY_12V_CAPS] end ++
     [SUPPLY_3V3; SUPPLY_1V8; SUPER_CAP; PVCC; POWER_BUTTON; JETSON_SLEEP_WAKE; JETSON_POWER_ENABLE;
      JETSON_SYSTEM_RESET; JETSON_SHUTDOWN_REQUEST; MEAS_ENABLE]);
   Configure VBAT_SW OUTPUT_INACTIVE] ++
  match b with
  | Pearl => [Configure SUPPLY_12V OUTPUT_INACTIVE]
  | Diamond => [ConfigureSoft USER_LED0 OUTPUT_INACTIVE; ConfigureSoft USER_LED1 OUTPUT_INACTIVE;
                Configure SUPPLY_12V_CAPS OUTPUT_INACTIVE]
  end ++
  [Configure SUPPLY_5V OUTPUT_INACTIVE] ++
  match b with
  | Pearl => (if has_3v8 version then [Configure SUPPLY_3V8 OUTPUT_INACTIVE] else []) ++
             [Configure LTE_GPS_USB_RESET OUTPUT_INACTIVE] ++ pulling_3v3_loop
  | Diamond => []
  end ++
  [Configure SUPPLY_3V3 OUTPUT_INACTIVE; Configure SUPPLY_1V8 OUTPUT_INACTIVE;
   Configure SUPER_CAP OUTPUT_INACTIVE; Configure PVCC OUTPUT_INACTIVE;
   Configure POWER_BUTTON INPUT; Configure JETSON_SLEEP_WAKE OUTPUT_INACTIVE;
   Configure JETSON_POWER_ENABLE OUTPUT_INACTIVE; Configure JETSON_SYSTEM_RESET INPUT;
   Configure JETSON_SHUTDOWN_REQUEST INPUT; Configure MEAS_ENABLE OUTPUT_INACTIVE] ++
  (if has_ssd_wifi version then
     [NeedReady [SUPPLY_3V3_SSD; SUPPLY_3V3_WIFI]; Configure SUPPLY_3V3_SSD OUTPUT_INACTIVE;
      Configure SUPPLY_3V3_WIFI OUTPUT_INACTIVE]
   else []) ++
  match b with
  | Pearl => []
  | Diamond =>
      [NeedReady [LTE_RESET; SUPPLY_3V3_LTE; SUPPLY_2V8; SUPPLY_3V6; SUPPLY_5V_RGB; USB_HUB_RESET];
       Configure LTE_RESET OUTPUT_INACTIVE; Configure SUPPLY_3V3_LTE OUTPUT_INACTIVE;
       Configure SUPPLY_2V8 OUTPUT_INACTIVE; Configure SUPPLY_3V6 OUTPUT_INACTIVE;
       Configure SUPPLY_5V_RGB OUTPUT_INACTIVE; Configure USB_HUB_RESET OUTPUT_ACTIVE]
  end.

Definition power_configure_gpios (g : gpio) (version : Z) (t : trace) : Z * trace :=
  run g (configure_actions version) t.

Definition supplies_on_actions : list action :=
  [SetSoft VBAT_SW true; Sleep 20; SetSoft SUPPLY_5V true; Sleep 20; SetSoft SUPPLY_3V3 true; Sleep 20].

Definition power_vbat_5v_3v3_supplies_on (g : gpio) (t : trace) : trace := (run g supplies_on_actions t).2.

Definition power_vbat_5v_3v3_supplies_off (g : gpio) (t : trace) : trace :=
  (run g (match b with Pearl => pulling_3v3_loop | Diamond => [] end ++
     [SetSoft VBAT_SW false; Sleep 20; SetSoft SUPPLY_5V false; Sleep 20; SetSoft SUPPLY_3V3 false]) t).2.

Definition turn_on_actions (version : Z) : list action :=
  supplies_on_actions ++
  match b with
  | Diamond =>
      [SetSoft SUPPLY_12V_CAPS true; Sleep 20; SetSoft SUPPLY_5V_RGB true; Sleep 20;
       SetSoft SUPPLY_3V6 true; Sleep 20; SetSoft SUPPLY_3V3_LTE true; Sleep 20;
       SetSoft SUPPLY_2V8 true; Sleep 20; SetSoft SUPPLY_3V3_SSD true; Sleep 20;
       SetSoft SUPPLY_3V3_WIFI true]
  | Pearl =>
      [SetSoft SUPPLY_12V true] ++
      (if has_3v8 version then [SetSoft SUPPLY_3V8 true] else []) ++
      (if version =? HW_VERSION_PEARL_EV5
       then [SetSoft SUPPLY_3V3_SSD true; Sleep 20; SetSoft SUPPLY_3V3_WIFI true] else [])
  end ++
  [Sleep 100; SetSoft SUPPLY_1V8 true; Sleep 100].

Definition turn_on_power_supplies (g : gpio) (version : Z) (t : trace) : Z * trace :=
  (0, (run g (turn_on_actions version) t).2).

(** ** Waiting for the user: [power_until_button_press]

    A pass of the loop reads the pins (raw values, negative on error) and may
    run the self-test of the optics. *)

Record sample := Sample { pvcc_in : Z; power_button : Z; optics_self_test : Z }.

Definition pressed (x : sample) : bool := negb (power_button x =? 0).

Definition OPERATOR_LEDS_COUNT : Z := match b with Pearl => 5 | Diamond => 1 end.
Definition OPERATOR_LEDS_ITERATIONS_COUNT : Z :=
  if 1 <? OPERATOR_LEDS_COUNT then OPERATOR_LEDS_COUNT else 12.
Definition BUTTON_PRESS_TIME_MS : Z := match b with Pearl => 600 | Diamond => 800 end.

(** One pass: the index the loop continues from, whether the self-test is still
    to be done, the mask of the LEDs. *)
Definition button_pass (g : gpio) (x : sample) (s : Z * bool * Z) (t : trace) : (Z * bool * Z) * trace :=
  let '(i, self_test_pending, mask) := s in
  let '(self_test_pending, t) :=
    if self_test_pending && (mask =? 0) && (pvcc_in x =? 0) && (optics_self_test x =? 0)
    then (false, (gpio_pin_set g MEAS_ENABLE false t).2 ++ [Msleep 1000])
    else (self_test_pending, t) in
  let '(i, mask, t) :=
    if power_button x =? 0 then
      (0, 0, if 1 <? i then power_vbat_5v_3v3_supplies_off g (t ++ [Leds 0]) ++ [Msleep 1000] else t)
    else (i, if 1 <? OPERATOR_LEDS_COUNT then Z.lor (u32 (Z.shiftl mask 1)) 1 else 1, t) in
  let t := if i =? 1 then power_vbat_5v_3v3_supplies_on g t else t in
  ((i, self_test_pending, mask),
   t ++ [Leds mask; Msleep (BUTTON_PRESS_TIME_MS / OPERATOR_LEDS_ITERATIONS_COUNT)]).

(** The loop over what the passes read; [None]: still waiting. *)
Fixpoint button_loop (g : gpio) (xs : list sample) (s : Z * bool * Z) (t : trace)
  : option (trace * list sample) :=
  match xs with
  | [] => None
  | x :: xs =>
      let '((i, p, m), t) := button_pass g x s t in
      if i + 1 <=? OPERATOR_LEDS_ITERATIONS_COUNT then button_loop g xs (i + 1, p, m) t
      else Some (t, xs)
  end.

Definition power_until_button_press (g : gpio) (xs : list sample) (t : trace)
  : option (Z * trace * list sample) :=
  let t := (gpio_pin_set g MEAS_ENABLE true t).2 ++ [Msleep 1] in
  let '(ret, t) := gpio_pin_configure g PVCC_IN INPUT t in
  if negb (ret =? 0) then Some (RET_ERROR_INVALID_STATE, t, xs)
  else
    '(t, xs) ← button_loop g xs (0, true, 0) (t ++ [Leds 0]);
    let '(ret, t) := gpio_pin_configure g PVCC_IN DISCONNECTED t in
    Some (if negb (ret =? 0) then RET_ERROR_INVALID_STATE else RET_SUCCESS, t, xs).

(** ** [app_init_state]

    What it reads: the primary slot (mcuboot), the byte of the backup registers,
    the persistent configuration and a build option. *)
Record boot_inputs := BootInputs {
  image_ok_unset : bool;        (* primary_slot.image_ok == BOOT_FLAG_UNSET *)
  magic_unset : bool;           (* primary_slot.magic == BOOT_MAGIC_UNSET *)
  flag_ret : Z;                 (* backup_regs_read_byte: code and byte *)
  boot_flag : Z;
  config_init_ret : Z;          (* config_init and the behaviour it loaded *)
  always_on : bool;
  insta_boot : bool;            (* CONFIG_INSTA_BOOT *)
  readback_ret : Z;             (* dfu_readback_protection *)
}.

Definition REBOOT_INSTABOOT : Z := 176.

Record boot_state := BootState {
  post_update : bool;
  latched_reboot_cmd : bool;
  config_auto_boot : bool;
  image_confirmed : bool;       (* dfu_primary_confirm called *)
  self_test_skipped : bool;
}.

Definition app_init_state (g : gpio) (c : boot_inputs) (xs : list sample) (t : trace)
  : option (Z * boot_state * trace * list sample) :=
  let t := t ++ [Msleep 2000] in
  let post := image_ok_unset c && negb (magic_unset c) in
  let latched := (flag_ret c =? 0) && (boot_flag c =? REBOOT_INSTABOOT) in
  let auto := (config_init_ret c =? 0) && always_on c in
  if post || latched || auto || insta_boot c then
    Some (config_init_ret c, BootState post latched auto true true,
          power_vbat_5v_3v3_supplies_on g t, xs)
  else
    '(ret, t, xs) ← power_until_button_press g xs t;
    Some (ret, BootState post latched auto false false, t, xs).

(** ** [boot_turn_on_jetson]

    [polls] are the readings of the reset pin, one a millisecond: the result is
    the code returned, or the restart of the microcontroller. *)
Inductive jetson_result := JetsonRet (ret : Z) | JetsonSystemReset.

Fixpoint await_reset (polls : list Z) (timeout_ms : Z) (t : trace)
  : option (option Z * trace * list Z) :=
  match polls with
  | [] => None
  | reset :: polls =>
      if reset <? 0 then Some (None, t, polls)
      else if reset =? 0 then Some (Some timeout_ms, t, polls)
      else
        let t := t ++ [Msleep 1] in
        if 0 <? timeout_ms - 1 then await_reset polls (timeout_ms - 1) t
        else Some (Some (timeout_ms - 1), t, polls)
  end.

(** On success, the interrupt of the shutdown request is enabled and the thread
    that reboots is started (see [Reboot]). *)
Definition boot_turn_on_jetson (g : gpio) (polls : list Z) (t : trace)
  : option (jetson_result * trace) :=
  let t := (gpio_pin_set g JETSON_POWER_ENABLE true t).2 in
  '(timeout, t, _) ← await_reset polls 1000 t;
  match timeout with
  | None => Some (JetsonRet RET_ERROR_INTERNAL, t)
  | Some timeout_ms =>
      if timeout_ms =? 0 then Some (JetsonSystemReset, t ++ [Msleep 1000])
      else
        let t := (gpio_pin_set g JETSON_SLEEP_WAKE true t).2 in
        let t := (gpio_pin_set g (match b with Pearl => LTE_GPS_USB_RESET | Diamond => USB_HUB_RESET end)
                    false t).2 in
        Some (JetsonRet RET_SUCCESS, t)
  end.

Definition boot_turn_on_super_cap_charger (g : gpio) (t : trace) : Z * trace :=
  let '(ret, t) := gpio_pin_set g SUPER_CAP true t in
  if negb (ret =? 0) then (ret, t) else (RET_SUCCESS, t ++ [Msleep 1000]).

Definition boot_turn_off_pvcc (g : gpio) (t : trace) : Z * trace :=
  (RET_SUCCESS, (gpio_pin_set g PVCC false t).2).

Definition boot_turn_on_pvcc (g : gpio) (t : trace) : Z * trace :=
  (RET_SUCCESS, (gpio_pin_set g PVCC true t).2).

(** ** [power_cycle_supply]

    A line that is cut comes back when its delayed work runs. *)

(** The pin of a line that may be cut, [debug] being [CONFIG_DEBUG]. *)
Definition line_pin (debug : bool) (line : power_line) : option pin :=
  match line, b with
  | WIFI_3V3, _ => if debug then Some SUPPLY_3V3_WIFI else None
  | SD_SSD_3V3, _ => if debug then Some SUPPLY_3V3_SSD else None
  | LTE_3V3, Pearl => if debug then Some LTE_GPS_USB_RESET else None
  | LTE_3V3, Diamond => Some SUPPLY_3V3_LTE
  | HEAT_CAMERA_2V8, Diamond => Some SUPPLY_2V8
  | _, _ => None
  end.

(** [k_work_schedule]: nothing when the work is already scheduled. *)
Definition k_work_schedule (line : power_line) (due : Z) (w : works) : works :=
  fun l => if decide (l = line) then match w line with Some d => Some d | None => Some due end else w l.

Definition power_cycle_supply (g : gpio) (debug : bool) (now : Z) (line : power_line) (duration_off_ms : Z)
  (w : works) (t : trace) : Z * works * trace :=
  if 60000 <? duration_off_ms then (RET_ERROR_INVALID_PARAM, w, t)
  else match line_pin debug line with
  | Some p =>
      let '(ret, t) := gpio_pin_configure g p OUTPUT_INACTIVE t in
      (ret, k_work_schedule line (now + (if duration_off_ms =? 0 then 3000 else duration_off_ms)) w, t)
  | None =>
      (if bool_decide (line = HEAT_CAMERA_2V8) then RET_ERROR_NOT_FOUND else RET_ERROR_FORBIDDEN, w, t)
  end.

(** The work of a line runs: [power_cycle_..._line_work_handler]. *)
Definition power_cycle_line_work_handler (g : gpio) (debug : bool) (line : power_line) (w : works) (t : trace)
  : works * trace :=
  (fun l => if decide (l = line) then None else w l,
   match line_pin debug line with Some p => (gpio_pin_configure g p OUTPUT_ACTIVE t).2 | None => t end).

(** runner.c *)
Definition handle_power_cycle (g : gpio) (debug : bool) (now : Z) (line : power_line) (duration_ms : Z)
  (w : works) (t : trace) : ack * works * trace :=
  let '(ret, w, t) := power_cycle_supply g debug now line duration_ms w t in
  (if ret =? RET_SUCCESS then ACK_SUCCESS
   else if ret =? RET_ERROR_NOT_FOUND then ACK_NOT_SUPPORTED
   else if ret =? RET_ERROR_INVALID_PARAM then ACK_RANGE
   else if ret =? RET_ERROR_FORBIDDEN then ACK_FORBIDDEN
   else ACK_FAIL, w, t).
End Board.

(** ** Lemmas *)

(** What an operation does to a pin that is not its own. *)
Definition op_pin (o : op) : option pin :=
  match o with Conf p _ | Put p _ => Some p | _ => None end.

Lemma level_snoc p t o : level p (t ++ [o]) = op_level p o (level p t).
Proof. unfold level. by rewrite fold_left_app. Qed.

Lemma level_app p t u : level p (t ++ u) = fold_left (fun l o => op_level p o l) u (level p t).
Proof. unfold level. by rewrite fold_left_app. Qed.

Lemma level_other p t u : Forall (fun o => op_pin o <> Some p) u -> level p (t ++ u) = level p t.
Proof.
  rewrite level_app. generalize (level p t). induction u as [|o u IH]; intros l; [done |].
  intros Hu. apply Forall_cons in Hu as [Ho Hu]. cbn [fold_left]. rewrite IH by done.
  destruct o as [q m | q v | |]; cbn in *; try rewrite decide_False by congruence; done.
Qed.

(** The effect of a list of calls that cannot return early. *)
Definition effect (g : gpio) (a : action) : trace :=
  match a with
  | NeedReady _ => []
  | Configure p m | ConfigureSoft p m => if conf_ret g p =? 0 then [Conf p m] else []
  | SetSoft p v => if set_ret g p =? 0 then [Put p v] else []
  | Sleep ms => [Msleep ms]
  end.

Lemma run_success g acts : forall t t', run g acts t = (RET_SUCCESS, t') -> t' = t ++ flat_map (effect g) acts.
Proof.
  induction acts as [|a acts IH]; intros t t'; cbn [run flat_map].
  - intros [= <-]. by rewrite app_nil_r.
  - destruct a as [ps | p m | p m | p v | ms]; unfold gpio_pin_configure, gpio_pin_set; cbn [effect fst snd].
    + destruct (forallb _ _); [apply IH | done].
    + destruct (conf_ret g p =? 0); cbn [negb]; [| done]. intros E. rewrite (IH _ _ E). by rewrite <- app_assoc.
    + intros E. rewrite (IH _ _ E). destruct (conf_ret g p =? 0); [by rewrite <- app_assoc | done].
    + intros E. rewrite (IH _ _ E). destruct (set_ret g p =? 0); [by rewrite <- app_assoc | done].
    + intros E. rewrite (IH _ _ E). by rewrite <- app_assoc.
Qed.

(** Calls whose errors are only counted never stop the sequence. *)
Definition soft (a : action) : bool :=
  match a with ConfigureSoft _ _ | SetSoft _ _ | Sleep _ => true | _ => false end.

Lemma run_soft g acts t : forallb soft acts = true -> run g acts t = (RET_SUCCESS, t ++ flat_map (effect g) acts).
Proof.
  intros Hs. assert (exists t', run g acts t = (RET_SUCCESS, t')) as [t' E].
  { revert t Hs. induction acts as [|a acts IH]; intros t Hs; [by eexists |].
    cbn [forallb] in Hs. apply andb_true_iff in Hs as [Ha Hs].
    destruct a; try done; cbn [run]; by apply IH. }
  rewrite E. f_equal. by apply run_success in E.
Qed.

Lemma run_prefix g acts : forall t, exists k, (run g acts t).2 = t ++ flat_map (effect g) (take k acts).
Proof.
  induction acts as [|a acts IH]; intros t; [exists 0%nat; cbn; by rewrite app_nil_r |].
  destruct a as [ps | p m | p m | p v | ms]; cbn [run]; unfold gpio_pin_configure, gpio_pin_set; cbn [snd].
  - destruct (forallb _ _); [destruct (IH t) as [k E]; exists (S k) | exists 0%nat]; cbn; [done | by rewrite app_nil_r].
  - destruct (conf_ret g p =? 0) eqn:Ec; cbn [negb]; [| exists 0%nat; cbn; by rewrite app_nil_r].
    destruct (IH (t ++ [Conf p m])) as [k E]. exists (S k). cbn. by rewrite E, Ec, <- app_assoc.
  - destruct (IH (if conf_ret g p =? 0 then t ++ [Conf p m] else t)) as [k E]. exists (S k). cbn. rewrite E.
    destruct (conf_ret g p =? 0); by rewrite <- ?app_assoc.
  - destruct (IH (if set_ret g p =? 0 then t ++ [Put p v] else t)) as [k E]. exists (S k). cbn. rewrite E.
    destruct (set_ret g p =? 0); by rewrite <- ?app_assoc.
  - destruct (IH (t ++ [Msleep ms])) as [k E]. exists (S k). cbn. by rewrite E, <- app_assoc.
Qed.

Lemma run_configured g acts t t' p m :
  run g acts t = (RET_SUCCESS, t') -> In (Configure p m) acts -> conf_ret g p = 0.
Proof.
  revert t. induction acts as [|a acts IH]; intros t E Hi; [done |].
  destruct Hi as [-> | Hi]; cbn [run] in E.
  - unfold gpio_pin_configure in E. destruct (Z.eqb_spec (conf_ret g p) 0); [done | done].
  - destruct a; cbn [run] in E; unfold gpio_pin_configure in E;
      repeat case_match; try done; eauto.
Qed.

(** A pin that a sequence configures low, and nothing else, ends up low. *)
Definition only_low (p : pin) (a : action) : bool :=
  match a with
  | Configure q m | ConfigureSoft q m => if decide (q = p) then bool_decide (m = OUTPUT_INACTIVE) else true
  | SetSoft q v => if decide (q = p) then negb v else true
  | _ => true
  end.

Lemma only_low_fold g p acts : forallb (only_low p) acts = true ->
  forall l, l = Some false -> fold_left (fun l o => op_level p o l) (flat_map (effect g) acts) l = Some false.
Proof.
  induction acts as [|a acts IH]; intros Hl l ->; [done |].
  cbn [forallb] in Hl. apply andb_true_iff in Hl as [Ha Hl]. cbn [flat_map]. rewrite fold_left_app.
  apply IH; [done |]. destruct a as [ps | q m | q m | q v | ms]; cbn in *; try done.
  all: destruct (_ =? 0); cbn; [| done]; destruct (decide (q = p)); [| done].
  - by apply bool_decide_eq_true_1 in Ha as ->.
  - by apply bool_decide_eq_true_1 in Ha as ->.
  - by destruct v.
Qed.

Lemma configured_low g p acts t t' :
  run g acts t = (RET_SUCCESS, t') -> In (Configure p OUTPUT_INACTIVE) acts ->
  forallb (only_low p) acts = true -> level p t' = Some false.
Proof.
  intros E Hi Hl. pose proof (run_configured _ _ _ _ _ _ E Hi) as Hc.
  rewrite (run_success _ _ _ _ E), level_app.
  apply in_split in Hi as (l1 & l2 & ->). rewrite forallb_app in Hl. cbn [forallb] in Hl.
  apply andb_true_iff in Hl as [_ Hl]. apply andb_true_iff in Hl as [_ Hl].
  rewrite flat_map_app, fold_left_app. cbn [flat_map effect]. rewrite Hc. cbn [Z.eqb app fold_left].
  apply only_low_fold; [done |]. cbn. by rewrite decide_True.
Qed.

(** ** Configuration of the pins *)

(** The pin an operation, or an action, drives high. *)
Definition raises (o : op) : option pin :=
  match o with Conf p OUTPUT_ACTIVE => Some p | Put p true => Some p | _ => None end.

Definition action_raises (a : action) : option pin :=
  match a with
  | Configure p OUTPUT_ACTIVE | ConfigureSoft p OUTPUT_ACTIVE | SetSoft p true => Some p
  | _ => None
  end.

Definition raises_only (ps : list pin) (q : option pin) : bool :=
  match q with Some p => bool_decide (p ∈ ps) | None => true end.

Lemma not_raised p ps t : ~ p ∈ ps -> forallb (fun o => raises_only ps (raises o)) t = true ->
  forall l, l <> Some true -> fold_left (fun l o => op_level p o l) t l <> Some true.
Proof.
  intros Hp. induction t as [|o t IH]; intros Ht l Hl; [done |].
  cbn [forallb] in Ht. apply andb_true_iff in Ht as [Ho Ht]. cbn [fold_left]. apply IH; [done |].
  destruct o as [q [] | q [] | |]; cbn in *; try done;
    try (apply bool_decide_eq_true_1 in Ho); destruct (decide (q = p)); by subst.
Qed.

Lemma effect_raises_only ps g acts : forallb (fun a => raises_only ps (action_raises a)) acts = true ->
  forallb (fun o => raises_only ps (raises o)) (flat_map (effect g) acts) = true.
Proof.
  induction acts as [|a acts IH]; [done |]. cbn [forallb flat_map]. intros [Ha Hr]%andb_true_iff.
  rewrite forallb_app. apply andb_true_iff. split; [| auto].
  destruct a as [| p [] | p [] | p [] |]; cbn [effect] in *; try done;
    destruct (_ =? 0); cbn [forallb]; try done; apply andb_true_iff; done.
Qed.

Lemma forallb_take {A} (f : A -> bool) l n : forallb f l = true -> forallb f (take n l) = true.
Proof. intros Hl. rewrite <- (take_drop n l), forallb_app in Hl. by apply andb_true_iff in Hl as [? _]. Qed.

Section Supplies.
Context (b : board) `{HwVersions}.

(** The pins the firmware turns on later. *)
Definition turned_on_later (version : Z) (p : pin) : Prop :=
  In (SetSoft p true) (turn_on_actions b version) \/
  In p [SUPER_CAP; PVCC; JETSON_POWER_ENABLE; JETSON_SLEEP_WAKE; MEAS_ENABLE].

Lemma configure_raises version :
  forallb (fun a => raises_only [USB_HUB_RESET] (action_raises a)) (configure_actions b version) = true.
Proof.
  unfold configure_actions, pulling_3v3_loop.
  by destruct b, (has_3v8 version), (has_ssd_wifi version).
Qed.

Lemma configure_low version p : (b = Diamond -> HW_VERSION_DIAMOND_EVT <= version) -> turned_on_later version p ->
  In (Configure p OUTPUT_INACTIVE) (configure_actions b version) /\
  forallb (only_low p) (configure_actions b version) = true.
Proof.
  intros Hv Hp. unfold turned_on_later, turn_on_actions, supplies_on_actions, configure_actions, pulling_3v3_loop in *.
  assert (has_ssd_wifi version = true \/ b = Pearl /\ (version =? HW_VERSION_PEARL_EV5) = false) as Hw.
  { unfold has_ssd_wifi. destruct b; [destruct (version =? _); auto | left].
    apply orb_true_iff. right. apply Z.leb_le. auto. }
  destruct Hw as [Hw | [-> Hw]]; rewrite ?Hw in *; [destruct b | destruct (has_ssd_wifi version)];
    destruct (has_3v8 version); try destruct (version =? HW_VERSION_PEARL_EV5);
    cbn [In app] in Hp;
    repeat match goal with H : _ \/ _ |- _ => destruct H as [H | H] end;
    try discriminate; try contradiction; try injection Hp as <-; subst; (split; [cbn; tauto | done]).
Qed.

(** Nothing is powered before the firmware decides to: whatever the drivers
    return, [power_configure_gpios] never drives a supply, the charger of the
    super capacitors or the Jetson's power pin high, not even for a moment; when
    it succeeds, every one of these pins that is turned on later is an output
    and low. *)
Theorem supplies_configured_off g version ret t :
  power_configure_gpios b g version [] = (ret, t) ->
  (forall p k, p <> USB_HUB_RESET -> level p (take k t) <> Some true) /\
  (ret = RET_SUCCESS -> (b = Diamond -> HW_VERSION_DIAMOND_EVT <= version) ->
   forall p, turned_on_later version p -> level p t = Some false).
Proof.
  unfold power_configure_gpios. intros E. split.
  - intros p k Hp. unfold level. apply (not_raised p [USB_HUB_RESET]); [set_solver | apply forallb_take | done].
    destruct (run_prefix g (configure_actions b version) []) as [n En]. rewrite E in En. cbn [snd app] in En.
    rewrite En. apply effect_raises_only, forallb_take, configure_raises.
  - intros -> Hv p Hp. destruct (configure_low version p Hv Hp) as [Hi Hl]. by eapply configured_low.
Qed.
End Supplies.

Lemma supplies_configured_off_witness :
  let t := (power_configure_gpios (H := sample_versions) Diamond gpio_ok 10 []).2 in
  level PVCC t = Some false /\ level SUPPLY_1V8 t = Some false.
Proof.
  cbv zeta. destruct (power_configure_gpios (H := sample_versions) Diamond gpio_ok 10 []) as [ret t] eqn:E.
  assert (ret = RET_SUCCESS) as Hr by (vm_compute in E; by injection E).
  destruct (supplies_configured_off (H := sample_versions) Diamond gpio_ok 10 ret t E) as [_ Hl].
  split; apply Hl; try done; [right; cbn; auto | left; cbn; tauto].
Defined.

(** The pins that pull lines to 3.3 V are to be driven low before the supply is
    on ("providing a voltage to the 3.3v power supply output before it is online
    can trigger the safety circuit"); the loops over them use the index 0 three
    times, so the other two are never configured. *)
Theorem pulling_pins_forgotten `{HwVersions} b g version i : i <> 0 ->
  Forall (fun o => op_pin o <> Some (PULLING_3V3 i)) (power_configure_gpios b g version []).2 /\
  Forall (fun o => op_pin o <> Some (PULLING_3V3 i)) (power_vbat_5v_3v3_supplies_off b g []).
Proof.
  intros Hi.
  assert (forall acts, Forall (fun a => forall g, Forall (fun o => op_pin o <> Some (PULLING_3V3 i)) (effect g a)) acts ->
    Forall (fun o => op_pin o <> Some (PULLING_3V3 i)) (run g acts []).2) as Hrun.
  { intros acts Ha. destruct (run_prefix g acts []) as [k ->]. cbn [app].
    apply Forall_forall. intros o Ho. apply list_elem_of_In, in_flat_map in Ho as (a & Ha1 & Ho).
    apply list_elem_of_In in Ho, Ha1. apply elem_of_take in Ha1 as (n & Ha1 & _).
    apply list_elem_of_lookup_2 in Ha1.
    rewrite Forall_forall in Ha. specialize (Ha _ Ha1 g). rewrite Forall_forall in Ha. auto. }
  split.
  - apply Hrun. unfold configure_actions, pulling_3v3_loop.
    destruct b, (has_3v8 version), (has_ssd_wifi version); cbn [app];
      repeat (apply List.Forall_cons; [intros g'; cbn; try case_match; repeat constructor; cbn; congruence |]); constructor.
  - apply Hrun. unfold pulling_3v3_loop.
    destruct b; cbn [app];
      repeat (apply List.Forall_cons; [intros g'; cbn; try case_match; repeat constructor; cbn; congruence |]); constructor.
Qed.

(** ** Order of the supplies *)

(** When a pin is first driven high. *)
Fixpoint enabled_at (p : pin) (now : Z) (t : trace) : option Z :=
  match t with
  | [] => None
  | Put q true :: t => if decide (q = p) then Some now else enabled_at p now t
  | Msleep ms :: t => enabled_at p (now + ms) t
  | _ :: t => enabled_at p now t
  end.

Fixpoint planned_at (p : pin) (now : Z) (acts : list action) : option Z :=
  match acts with
  | [] => None
  | SetSoft q true :: acts => if decide (q = p) then Some now else planned_at p now acts
  | Sleep ms :: acts => planned_at p (now + ms) acts
  | _ :: acts => planned_at p now acts
  end.

Lemma enabled_planned g p acts : forall now,
  enabled_at p now (flat_map (effect g) acts) = if set_ret g p =? 0 then planned_at p now acts else None.
Proof.
  induction acts as [|a acts IH]; intros now; cbn [flat_map planned_at]; [by destruct (_ =? 0) |].
  destruct a as [ps | q m | q m | q v | ms]; cbn [effect app]; try apply IH;
    try (destruct (conf_ret g q =? 0); cbn [app enabled_at]; apply IH).
  destruct (set_ret g q =? 0) eqn:Eq, v; cbn [app enabled_at]; try case_decide; subst; rewrite ?IH, ?Eq; done.
Qed.

(** The first three supplies are turned on 20 ms apart, every other one after
    them and, for the 1.8 V supply, at least 100 ms after all the others, 20 ms or
    more before the end of the function; a driver that fails leaves its supply
    off but does not change this order. *)
Theorem supplies_in_order `{HwVersions} b g version p x :
  let t := (turn_on_power_supplies b g version []).2 in
  enabled_at p 0 t = Some x ->
  match p with
  | VBAT_SW => x = 0
  | SUPPLY_5V => x = 20
  | SUPPLY_3V3 => x = 40
  | SUPPLY_1V8 => forall q y, q <> SUPPLY_1V8 -> enabled_at q 0 t = Some y -> y + 100 <= x
  | _ => 60 <= x
  end.
Proof.
  cbv zeta. unfold turn_on_power_supplies. cbn [snd].
  assert (forallb soft (turn_on_actions b version) = true) as Hs.
  { unfold turn_on_actions. by destruct b, (has_3v8 version), (version =? HW_VERSION_PEARL_EV5). }
  rewrite (run_soft _ _ _ Hs). cbn [snd app].
  assert (forall q y, enabled_at q 0 (flat_map (effect g) (turn_on_actions b version)) = Some y ->
    planned_at q 0 (turn_on_actions b version) = Some y) as Hq.
  { intros q y. rewrite enabled_planned. by destruct (_ =? 0). }
  intros Hx%Hq. assert (forall q y, planned_at q 0 (turn_on_actions b version) = Some y ->
    match q with
    | VBAT_SW => y = 0 | SUPPLY_5V => y = 20 | SUPPLY_3V3 => y = 40
    | SUPPLY_1V8 => y = match b with Pearl => if version =? HW_VERSION_PEARL_EV5 then 180 else 160 | Diamond => 280 end
    | _ => 60 <= y <= match b with Pearl => if version =? HW_VERSION_PEARL_EV5 then 80 else 60 | Diamond => 180 end
    end) as Hall.
  { clear. intros q y. unfold turn_on_actions.
    destruct b, (has_3v8 version), (version =? HW_VERSION_PEARL_EV5); destruct q; vm_compute;
      try discriminate; intros [= <-]; done. }
  pose proof (Hall _ _ Hx) as Hp. destruct p; try done; try lia.
  intros q y Hne Hy%Hq%Hall. destruct q, b; try done; try destruct (version =? _); lia.
Qed.

(** ** The wait for the button *)

(** How many of the last samples saw the button pressed, in a row. *)
Definition trail (xs : list sample) : Z :=
  fold_left (fun n x => if pressed x then n + 1 else 0) xs 0.

Lemma trail_snoc xs x : trail (xs ++ [x]) = if pressed x then trail xs + 1 else 0.
Proof. unfold trail. by rewrite fold_left_app. Qed.

Lemma trail_nonneg xs : 0 <= trail xs.
Proof.
  induction xs as [|x xs IH] using rev_ind; [done |]. rewrite trail_snoc. destruct (pressed x); lia.
Qed.

(** The state after some passes, while the wait goes on. *)
Definition passes (b : board) (g : gpio) (xs : list sample) (s : Z * bool * Z) (t : trace)
  : (Z * bool * Z) * trace :=
  fold_left (fun st x => let '((i, p, m), t) := button_pass b g x st.1 st.2 in ((i + 1, p, m), t)) xs (s, t).

(** The first sample is read at the index 0, which the next pass leaves. *)
Definition first_pass (b : board) (g : gpio) (x : sample) (t : trace) : (Z * bool * Z) * trace :=
  passes b g [x] (0, true, 0) t.

Section Button.
Context (b : board).

(** The index of a pass: 0 when the button is released, else unchanged. *)
Lemma button_pass_index g x i p m t :
  (button_pass b g x (i, p, m) t).1.1.1 = if pressed x then i else 0.
Proof.
  unfold button_pass, pressed. destruct (_ && _); destruct (power_button x =? 0); done.
Qed.

Lemma button_loop_passes g xs : forall s t,
  button_loop b g xs s t =
  match xs with
  | [] => None
  | x :: xs =>
      let st := passes b g [x] s t in
      if st.1.1.1 <=? OPERATOR_LEDS_ITERATIONS_COUNT b then button_loop b g xs st.1 st.2 else Some (st.2, xs)
  end.
Proof.
  destruct xs as [|x xs]; [done |]. intros s t. cbn [button_loop passes fold_left].
  cbn [fst snd]. by destruct (button_pass b g x s t) as [[[i p] m] t1].
Qed.

Lemma passes_snoc g xs x s t :
  passes b g (xs ++ [x]) s t =
  (let st := passes b g xs s t in
   let '((i, p, m), t) := button_pass b g x st.1 st.2 in ((i + 1, p, m), t)).
Proof. unfold passes. by rewrite fold_left_app. Qed.

Lemma passes_cons g x xs s t :
  passes b g (x :: xs) s t = passes b g xs (passes b g [x] s t).1 (passes b g [x] s t).2.
Proof. unfold passes. cbn [fold_left fst snd]. by destruct (button_pass b g x s t) as [[[??]?]?]. Qed.

(** After the first sample, the index counts the presses in a row. *)
Lemma passes_index g x0 xs t : (passes b g (x0 :: xs) (0, true, 0) t).1.1.1 = 1 + trail xs.
Proof.
  induction xs as [|x xs IH] using rev_ind.
  - unfold passes. cbn [fold_left fst snd]. pose proof (button_pass_index g x0 0 true 0 t) as E.
    destruct (button_pass b g x0 (0, true, 0) t) as [[[i p] m] t1]. cbn in *. destruct (pressed x0); lia.
  - rewrite app_comm_cons, passes_snoc, trail_snoc. cbv zeta.
    destruct (passes b g (x0 :: xs) (0, true, 0) t) as [[[i p] m] t1]. cbn [fst snd] in *.
    pose proof (button_pass_index g x i p m t1) as E.
    destruct (button_pass b g x (i, p, m) t1) as [[[i' p'] m'] t2]. cbn in *. destruct (pressed x); lia.
Qed.

(** The loop goes on as long as fewer than N presses in a row were seen. *)
Lemma button_loop_waits g x0 xs ys t :
  (forall k, trail (take k xs) < OPERATOR_LEDS_ITERATIONS_COUNT b) ->
  button_loop b g (x0 :: xs ++ ys) (0, true, 0) t =
  (let st := passes b g (x0 :: xs) (0, true, 0) t in button_loop b g ys st.1 st.2).
Proof.
  intros Hk. induction xs as [|x xs IH] using rev_ind in ys, Hk |- *.
  - cbn [app]. rewrite button_loop_passes. cbv zeta. rewrite (passes_index g x0 [] t).
    replace (1 + trail [] <=? _) with true; [done |]. symmetry. apply Z.leb_le. specialize (Hk 0%nat).
    change (trail (take 0 [])) with 0 in Hk. change (trail []) with 0. lia.
  - rewrite <- app_assoc, IH.
    2:{ intros k. specialize (Hk (k `min` length xs)%nat). rewrite take_app_le in Hk by lia.
        destruct (decide (k <= length xs)%nat); [by rewrite Nat.min_l in Hk by lia |].
        rewrite Nat.min_r in Hk by lia. rewrite take_ge in Hk by lia. by rewrite take_ge by lia. }
    cbv zeta. cbn [app]. rewrite button_loop_passes. cbv zeta.
    assert (passes b g [x] (passes b g (x0 :: xs) (0, true, 0) t).1 (passes b g (x0 :: xs) (0, true, 0) t).2 =
            passes b g (x0 :: xs ++ [x]) (0, true, 0) t) as ->.
    { rewrite (app_comm_cons xs [x] x0), passes_snoc. unfold passes at 1. cbn [fold_left].
      by destruct (passes b g (x0 :: xs) (0, true, 0) t). }
    rewrite passes_index. specialize (Hk (length (xs ++ [x]))). rewrite take_ge in Hk by done.
    replace (1 + trail (xs ++ [x]) <=? _) with true; [done |]. symmetry. apply Z.leb_le. lia.
Qed.

Definition main_supply (p : pin) : Prop := In p [VBAT_SW; SUPPLY_5V; SUPPLY_3V3].

Definition gpio_works (g : gpio) : Prop := forall p, ready g p = true /\ conf_ret g p = 0 /\ set_ret g p = 0.

Lemma works_set g p v t : gpio_works g -> (gpio_pin_set g p v t).2 = t ++ [Put p v].
Proof. intros Hg. unfold gpio_pin_set. by destruct (Hg p) as (_ & _ & ->). Qed.

Lemma works_conf g p m t : gpio_works g -> gpio_pin_configure g p m t = (0, t ++ [Conf p m]).
Proof. intros Hg. unfold gpio_pin_configure. by destruct (Hg p) as (_ & -> & _). Qed.

Lemma effect_works g acts : gpio_works g -> flat_map (effect g) acts = flat_map (effect gpio_ok) acts.
Proof.
  intros Hg. induction acts as [|a acts IH]; [done |]. cbn [flat_map]. rewrite IH. f_equal.
  destruct a as [| p m | p m | p v |]; cbn; try done; destruct (Hg p) as (_ & E1 & E2); by rewrite ?E1, ?E2.
Qed.

Lemma level_on g p t : gpio_works g -> main_supply p -> level p (power_vbat_5v_3v3_supplies_on g t) = Some true.
Proof.
  intros Hg Hp. unfold power_vbat_5v_3v3_supplies_on. rewrite run_soft, effect_works by done. cbn [snd].
  rewrite level_app. destruct Hp as [<- | [<- | [<- | []]]]; done.
Qed.

Lemma level_off g p t : gpio_works g -> main_supply p -> level p (power_vbat_5v_3v3_supplies_off b g t) = Some false.
Proof.
  intros Hg Hp. unfold power_vbat_5v_3v3_supplies_off, pulling_3v3_loop.
  rewrite run_soft, effect_works by (by destruct b). cbn [snd].
  rewrite level_app. destruct Hp as [<- | [<- | [<- | []]]]; by destruct b.
Qed.

Lemma level_same p t o : op_pin o <> Some p -> level p (t ++ [o]) = level p t.
Proof. intros Ho. apply level_other. by repeat constructor. Qed.

(** A pass turns the supplies on at the first press and off at a release. *)
Lemma button_pass_level g x i q m t p : gpio_works g -> main_supply p ->
  level p (button_pass b g x (i, q, m) t).2 =
  if pressed x then if i =? 1 then Some true else level p t
  else if 1 <? i then Some false else level p t.
Proof.
  intros Hg Hp. unfold button_pass, pressed.
  assert (forall u k n, level p (u ++ [Leds k; Msleep n]) = level p u) as Hl.
  { intros. apply level_other. by repeat constructor. }
  assert (op_pin (Put MEAS_ENABLE false) <> Some p) as Hm.
  { destruct Hp as [<- | [<- | [<- | []]]]; done. }
  rewrite works_set by done.
  assert (level p ((t ++ [Put MEAS_ENABLE false]) ++ [Msleep 1000]) = level p t) as Ht.
  { rewrite !level_same; done. }
  destruct (q && _ && _ && _); destruct (power_button x =? 0); cbn [negb snd fst].
  all: try (cbn [Z.eqb]; rewrite Hl; destruct (1 <? i); rewrite ?level_same by done; rewrite ?level_off by done; done).
  all: rewrite Hl; destruct (i =? 1); rewrite ?level_on by done; done.
Qed.

Lemma passes_level g x0 xs t p : gpio_works g -> main_supply p -> level p t = Some false ->
  level p (passes b g (x0 :: xs) (0, true, 0) t).2 = Some (0 <? trail xs).
Proof.
  intros Hg Hp Ht. induction xs as [|x xs IH] using rev_ind.
  - unfold passes. cbn [fold_left fst snd]. pose proof (button_pass_level g x0 0 true 0 t p Hg Hp) as E.
    destruct (button_pass b g x0 (0, true, 0) t) as [[[i q] m] t1]. cbn [fst snd] in *.
    rewrite E. cbn. rewrite Ht. by destruct (pressed x0).
  - pose proof (passes_index g x0 xs t) as Ei.
    rewrite app_comm_cons, passes_snoc, trail_snoc. cbv zeta.
    destruct (passes b g (x0 :: xs) (0, true, 0) t) as [[[i q] m] t1]. cbn [fst snd] in *.
    pose proof (button_pass_level g x i q m t1 p Hg Hp) as E.
    destruct (button_pass b g x (i, q, m) t1) as [[[i' q'] m'] t2]. cbn [fst snd] in *.
    rewrite E, IH, Ei. pose proof (trail_nonneg xs). destruct (pressed x); bdestruct_all; done.
Qed.

(** C20: the Orb starts on a full press of the button, and only then.  The samples
    after the first one decide: as long as the button was never seen pressed
    [OPERATOR_LEDS_ITERATIONS_COUNT] times in a row the wait goes on, the main
    supplies on exactly while the button is held and off again once it is
    released; the sample that completes such a row ends the wait with success and
    the supplies on. *)
Theorem boots_on_full_press g x0 xs rest t :
  gpio_works g -> (forall p, main_supply p -> level p t = Some false) ->
  let N := OPERATOR_LEDS_ITERATIONS_COUNT b in
  let start := t ++ [Put MEAS_ENABLE true; Msleep 1; Conf PVCC_IN INPUT; Leds 0] in
  (forall k, (k < length xs)%nat -> trail (take k xs) < N) ->
  (trail xs < N -> power_until_button_press b g (x0 :: xs) t = None /\
     forall p, main_supply p -> level p (passes b g (x0 :: xs) (0, true, 0) start).2 = Some (0 <? trail xs)) /\
  (trail xs = N -> exists t', power_until_button_press b g (x0 :: xs ++ rest) t = Some (RET_SUCCESS, t', rest) /\
     forall p, main_supply p -> level p t' = Some true).
Proof.
  intros Hg Ht N start Hk.
  assert (forall p, main_supply p -> level p start = Some false) as Hs.
  { intros p Hp. rewrite <- (Ht p Hp). apply level_other.
    destruct Hp as [<- | [<- | [<- | []]]]; repeat constructor; done. }
  assert (forall ys, power_until_button_press b g ys t =
    ('(t, zs) ← button_loop b g ys (0, true, 0) start; Some (RET_SUCCESS, t ++ [Conf PVCC_IN DISCONNECTED], zs)))
    as Hu.
  { intros ys. unfold power_until_button_press. rewrite works_set, !works_conf by done. cbn [negb Z.eqb].
    rewrite <- !app_assoc. cbn [app]. destruct (button_loop b g ys (0, true, 0) start) as [[t1 zs] |] eqn:E;
      fold start; rewrite E; cbn [mbind option_bind]; [by rewrite works_conf |]; done. }
  split.
  - intros Hw. split; [| intros p Hp; by apply passes_level; auto].
    rewrite Hu. rewrite <- (app_nil_r xs), button_loop_waits; [done |].
    intros k. destruct (decide (k < length xs)%nat); [auto |]. by rewrite take_ge by lia.
  - intros HN. destruct xs as [|x xs _] using rev_ind.
    { change (trail []) with 0 in HN. subst N. unfold OPERATOR_LEDS_ITERATIONS_COUNT in HN. by destruct b. }
    rewrite Hu, <- app_assoc. rewrite button_loop_waits.
    2:{ intros k. specialize (Hk (k `min` length xs)%nat). rewrite length_app in Hk. cbn in Hk.
        rewrite take_app_le in Hk by lia. destruct (decide (k <= length xs)%nat).
        - rewrite Nat.min_l in Hk by lia. apply Hk. lia.
        - rewrite Nat.min_r, take_ge in Hk by lia. rewrite take_ge by lia. apply Hk. lia. }
    cbv zeta. cbn [app]. rewrite button_loop_passes. cbv zeta.
    assert (passes b g [x] (passes b g (x0 :: xs) (0, true, 0) start).1 (passes b g (x0 :: xs) (0, true, 0) start).2 =
            passes b g (x0 :: xs ++ [x]) (0, true, 0) start) as ->.
    { rewrite (app_comm_cons xs [x] x0), passes_snoc. unfold passes at 1. cbn [fold_left].
      by destruct (passes b g (x0 :: xs) (0, true, 0) start). }
    rewrite passes_index. replace (1 + trail (xs ++ [x]) <=? _) with false by (symmetry; apply Z.leb_gt; subst N; lia).
    cbn [mbind option_bind]. eexists. split; [reflexivity |]. intros p Hp.
    rewrite level_same by (destruct Hp as [<- | [<- | [<- | []]]]; done).
    rewrite passes_level by auto. rewrite HN. subst N. unfold OPERATOR_LEDS_ITERATIONS_COUNT. by destruct b.
Qed.
End Button.

Lemma boots_on_full_press_witness :
  let press := Sample 0 1 0 in let release := Sample 0 0 0 in
  exists t', power_until_button_press Pearl gpio_ok
    (release :: [press; press; release; press; press; press; press; press] ++ [])
    [Conf VBAT_SW OUTPUT_INACTIVE; Conf SUPPLY_5V OUTPUT_INACTIVE; Conf SUPPLY_3V3 OUTPUT_INACTIVE]
    = Some (RET_SUCCESS, t', []) /\ level SUPPLY_3V3 t' = Some true.
Proof.
  intros press release.
  destruct (boots_on_full_press Pearl gpio_ok release
    [press; press; release; press; press; press; press; press] []
    [Conf VBAT_SW OUTPUT_INACTIVE; Conf SUPPLY_5V OUTPUT_INACTIVE; Conf SUPPLY_3V3 OUTPUT_INACTIVE])
    as [_ H].
  - by repeat split.
  - intros p [<- | [<- | [<- | []]]]; reflexivity.
  - intros k Hk. do 8 (destruct k as [|k]; [reflexivity |]). cbn in Hk. lia.
  - destruct (H eq_refl) as (t' & E & Hl). exists t'. split; [exact E |]. apply Hl. cbn. tauto.
Defined.

(** ** The start of the Jetson *)

Lemma await_reset_high ps : forall rest timeout_ms t,
  Forall (fun r => 0 < r) ps -> zlen ps < timeout_ms ->
  await_reset (ps ++ rest) timeout_ms t =
  await_reset rest (timeout_ms - zlen ps) (t ++ replicate (length ps) (Msleep 1)).
Proof.
  induction ps as [|r ps IH]; intros rest timeout_ms t Hp Hl; cbn [app length replicate].
  - by rewrite zlen_nil, Z.sub_0_r, app_nil_r.
  - apply Forall_cons in Hp as [Hr Hp]. rewrite zlen_cons in Hl. pose proof (zlen_nonneg ps). cbn [await_reset].
    bfalse (r <? 0). bfalse (r =? 0). btrue (0 <? timeout_ms - 1).
    rewrite IH by (done || lia). rewrite <- app_assoc, zlen_cons. f_equal. lia.
Qed.

(** The start of the Jetson ends after at most 1000 polls of its reset line:
    with success when the line goes low (and then with the Jetson powered and
    awake), with an error when it cannot be read, and with a restart of the
    microcontroller when the Jetson does not answer. *)
Theorem jetson_start_ends b g ps r rest t :
  gpio_works g -> Forall (fun r => 0 < r) ps -> zlen ps < 1000 -> r <= 0 \/ zlen ps = 999 ->
  exists res t', boot_turn_on_jetson b g (ps ++ r :: rest) t = Some (res, t') /\
    (r = 0 -> res = JetsonRet RET_SUCCESS /\
       level JETSON_POWER_ENABLE t' = Some true /\ level JETSON_SLEEP_WAKE t' = Some true) /\
    (r < 0 -> res = JetsonRet RET_ERROR_INTERNAL) /\
    (0 < r -> res = JetsonSystemReset).
Proof.
  intros Hg Hp Hl Hr. pose proof (zlen_nonneg ps) as H0. unfold boot_turn_on_jetson. rewrite works_set by done.
  rewrite await_reset_high by (done || lia). cbn [await_reset].
  set (u := (t ++ [Put JETSON_POWER_ENABLE true]) ++ replicate (length ps) (Msleep 1)).
  assert (level JETSON_POWER_ENABLE u = Some true) as Hu.
  { subst u. rewrite level_other by (by apply Forall_replicate). by rewrite level_snoc. }
  destruct (Z.ltb_spec r 0) as [Hneg | Hneg].
  { cbn [mbind option_bind]. eexists _, _. split; [reflexivity |]. repeat split; try done; lia. }
  destruct (Z.eqb_spec r 0) as [-> | Hne].
  - cbn [mbind option_bind]. bfalse (1000 - zlen ps =? 0).
    eexists _, _. split; [reflexivity |]. split; [| split; lia]. intros _. rewrite !works_set by done.
    split; [done |]. split.
    + rewrite !level_same by (by destruct b). done.
    + rewrite level_same by (by destruct b). by rewrite level_snoc.
  - bfalse (0 <? 1000 - zlen ps - 1). cbn [mbind option_bind]. btrue (1000 - zlen ps - 1 =? 0).
    eexists _, _. split; [reflexivity |]. repeat split; try done; lia.
Qed.

Lemma jetson_start_ends_witness :
  exists t', boot_turn_on_jetson Pearl gpio_ok ([1; 1] ++ 0 :: []) [] = Some (JetsonRet RET_SUCCESS, t') /\
    level JETSON_POWER_ENABLE t' = Some true.
Proof.
  destruct (jetson_start_ends Pearl gpio_ok [1; 1] 0 [] []) as (res & t' & E & H & _).
  - by repeat split.
  - by repeat constructor.
  - done.
  - by left.
  - destruct (H eq_refl) as (-> & Hl & _). by exists t'.
Defined.

(** ** Lines that are cut come back *)

(** Every line cut by [power_cycle_supply] is back within a minute: its work is
    due between now and a minute from now, and a second command while it is off
    does not postpone it. *)
Definition works_ok (b : board) (debug : bool) (now : Z) (w : works) : Prop :=
  forall line due, w line = Some due -> due <= now + 60000 /\ line_pin b debug line <> None.

Theorem power_cycle_bounded b g debug now line d w t :
  works_ok b debug now w -> 0 <= d ->
  let '(ret, w', t') := power_cycle_supply b g debug now line d w t in
  works_ok b debug now w' /\
  (forall due, w line = Some due -> w' line = Some due) /\
  (ret = RET_SUCCESS -> exists p due, line_pin b debug line = Some p /\ w' line = Some due /\
     t' = t ++ [Conf p OUTPUT_INACTIVE] /\
     (power_cycle_line_work_handler b gpio_ok debug line w' t').2 = t' ++ [Conf p OUTPUT_ACTIVE]).
Proof.
  intros Hw Hd. unfold power_cycle_supply. destruct (Z.ltb_spec 60000 d); [done |].
  destruct (line_pin b debug line) as [p |] eqn:Ep.
  - cbn [gpio_pin_configure]. unfold gpio_pin_configure. split; [| split].
    + intros l due. unfold k_work_schedule. case_decide as Hl; [subst l | apply Hw].
      destruct (w line) eqn:E; [intros [= <-]; by apply Hw |]. intros [= <-]. rewrite Ep. split; [| done].
      destruct (d =? 0); lia.
    + intros due Hdue. unfold k_work_schedule. rewrite decide_True by done. by rewrite Hdue.
    + intros Hc. rewrite Hc. cbn [Z.eqb RET_SUCCESS].
      exists p. unfold k_work_schedule. rewrite decide_True by done.
      destruct (w line) as [due |]; eexists; split_and!; try reflexivity;
        unfold power_cycle_line_work_handler; rewrite Ep; reflexivity.
  - split; [done |]. split; [done |]. case_bool_decide; discriminate.
Qed.
