(* ===== verification/Reboot.v ===== *)
(** The end of the Orb's life: the thread of power/boot/boot.c that restarts the
    microcontroller, the requests that reach it ([reboot], the Jetson's
    SHUTDOWN_REQ line) as a step relation, and the commands of runner.c that
    reboot, with the flag they leave in the backup registers
    (lib/storage/backup_regs.c). *)

From S2P Require Import Prelude Power.

(** ** State

    [reboot_tid]: whether the thread was started; [sem_reboot] is 0 or 1; the
    atomic variables hold [reboot_delay_s] and [jetson_shutdown_req];
    [work_pending]: the work of the shutdown line is submitted; [uptime] in
    milliseconds. *)

(** Where the thread is: [rem] is what remains of a sleep, [woken] that
    [k_wakeup] ended it. *)
Inductive thread_pc :=
| NotStarted
| WaitSem
| ShutdownUi (delay rem : Z) (woken : bool)   (* the second of the shutdown UI *)
| LoopTop
| LoopSleep (rem : Z) (woken : bool)
| UiSleep (rem : Z) (woken : bool)            (* SYSTEM_RESET_UI_DELAY_MS *)
| Down.                                        (* NVIC_SystemReset called *)

Record boot_sys := BootSys {
  reboot_tid : bool;
  sem_reboot : Z;
  reboot_delay_s : Z;
  jetson_shutdown_req : Z;
  work_pending : bool;
  thread : thread_pc;
  uptime : Z;
  pins : list op;
}.

Definition set_thread (p : thread_pc) (s : boot_sys) : boot_sys :=
  BootSys (reboot_tid s) (sem_reboot s) (reboot_delay_s s) (jetson_shutdown_req s) (work_pending s) p
    (uptime s) (pins s).
Definition set_delay (d : Z) (s : boot_sys) : boot_sys :=
  BootSys (reboot_tid s) (sem_reboot s) d (jetson_shutdown_req s) (work_pending s) (thread s) (uptime s) (pins s).
Definition set_pins (t : list op) (s : boot_sys) : boot_sys :=
  BootSys (reboot_tid s) (sem_reboot s) (reboot_delay_s s) (jetson_shutdown_req s) (work_pending s) (thread s)
    (uptime s) t.

Definition SYSTEM_RESET_UI_DELAY_MS : Z := 200.

(** ** Requests *)

(** [k_wakeup]: ends a sleep of the thread, does nothing when it is not asleep. *)
Definition k_wakeup (p : thread_pc) : thread_pc :=
  match p with
  | ShutdownUi d l _ => ShutdownUi d l true
  | LoopSleep l _ => LoopSleep l true
  | UiSleep l _ => UiSleep l true
  | p => p
  end.

Definition wake_and_give (s : boot_sys) : boot_sys :=
  BootSys (reboot_tid s) 1 (reboot_delay_s s) (jetson_shutdown_req s) (work_pending s) (k_wakeup (thread s))
    (uptime s) (pins s).

Definition reboot (delay_s : Z) (s : boot_sys) : Z * boot_sys :=
  if negb (reboot_tid s) then (RET_ERROR_NOT_INITIALIZED, s)
  else (RET_SUCCESS, wake_and_give (set_delay delay_s s)).

(** The interrupt of SHUTDOWN_REQ, and the work it submits.  The interrupt is
    enabled just before the thread is started; one that fires in between would
    wake a thread that does not exist yet and is left out. *)
Definition shutdown_requested (s : boot_sys) : boot_sys :=
  BootSys (reboot_tid s) (sem_reboot s) (reboot_delay_s s) (jetson_shutdown_req s) true (thread s)
    (uptime s) (pins s).

Definition shutdown_requested_work_handler (g : gpio) (s : boot_sys) : boot_sys :=
  let t := (gpio_pin_set g JETSON_POWER_ENABLE false (pins s)).2 in
  wake_and_give (BootSys (reboot_tid s) (sem_reboot s) 1 1 false (thread s) (uptime s) t).

(** ** The thread

    [msleep] is Zephyr's [k_msleep]: how long a call with this argument sleeps. *)
Section Thread.
Context `{HwVersions} (msleep : Z -> Z) (version : Z).

Definition power_down (g : gpio) (t : list op) : list op :=
  let t := (gpio_pin_set g SUPPLY_3V3 false t).2 in
  let t := if has_ssd_wifi version then
             (gpio_pin_set g SUPPLY_3V3_WIFI false (gpio_pin_set g SUPPLY_3V3_SSD false t).2).2
           else t in
  (gpio_pin_set g SUPPLY_1V8 false t).2.

(** One step of the thread (the LEDs and the fan it turns off on its way are not
    part of this state); [reset] is what it reads on the Jetson's reset line.
    The first second of the shutdown UI ends by writing the delay back. *)
Definition thread_step (g : gpio) (reset : Z) (s : boot_sys) : option boot_sys :=
  match thread s with
  | WaitSem =>
      if sem_reboot s =? 0 then None
      else
        let delay := reboot_delay_s s in
        let s := BootSys (reboot_tid s) 0 (reboot_delay_s s) (jetson_shutdown_req s) (work_pending s)
                   (thread s) (uptime s) (pins s) in
        Some (set_thread (if 1 <? delay then ShutdownUi delay (msleep 1000) false else LoopTop) s)
  | ShutdownUi delay rem woken =>
      if woken || (rem =? 0) then Some (set_thread LoopTop (set_delay (delay - 1) s)) else None
  | LoopTop =>
      if negb (jetson_shutdown_req s =? 0) && (reset =? 0) then Some s
      else
        let t := if negb (jetson_shutdown_req s =? 0) then power_down g (pins s) else pins s in
        Some (set_thread (LoopSleep (msleep (s32 (u32 (reboot_delay_s s * 1000 - SYSTEM_RESET_UI_DELAY_MS)))) false)
               (set_pins t s))
  | LoopSleep rem woken =>
      if rem =? 0 then Some (set_thread (UiSleep (msleep SYSTEM_RESET_UI_DELAY_MS) false) s)
      else if woken then Some (set_thread LoopTop s)
      else None
  | UiSleep rem woken => if woken || (rem =? 0) then Some (set_thread Down s) else None
  | NotStarted | Down => None
  end.

(** Time passes: a sleep that is not over gets shorter. *)
Definition pass (ms : Z) (s : boot_sys) : boot_sys :=
  let go l := Z.max 0 (l - ms) in
  let p := match thread s with
           | ShutdownUi d l w => ShutdownUi d (go l) w
           | LoopSleep l w => LoopSleep (go l) w
           | UiSleep l w => UiSleep (go l) w
           | p => p
           end in
  BootSys (reboot_tid s) (sem_reboot s) (reboot_delay_s s) (jetson_shutdown_req s) (work_pending s) p
    (uptime s + ms) (pins s).

(** ** Steps: the requests, the works, the thread and time interleave *)

Inductive boot_event :=
| EvStart                              (* boot_turn_on_jetson starts the thread *)
| EvReboot (delay_s : Z)
| EvShutdownLine                       (* the interrupt *)
| EvWork (g : gpio)
| EvThread (g : gpio) (reset : Z)
| EvPass (ms : Z).

Definition boot_step (e : boot_event) (s : boot_sys) : option boot_sys :=
  match e with
  | EvStart => if reboot_tid s then None
               else Some (BootSys true (sem_reboot s) (reboot_delay_s s) (jetson_shutdown_req s)
                            (work_pending s) WaitSem (uptime s) (pins s))
  | EvReboot d => Some (reboot d s).2
  | EvShutdownLine => if reboot_tid s then Some (shutdown_requested s) else None
  | EvWork g => if work_pending s then Some (shutdown_requested_work_handler g s) else None
  | EvThread g reset => thread_step g reset s
  | EvPass ms => if 0 <=? ms then Some (pass ms s) else None
  end.

Fixpoint boot_run (es : list boot_event) (s : boot_sys) : option boot_sys :=
  match es with
  | [] => Some s
  | e :: es => s ← boot_step e s; boot_run es s
  end.

(** The state when the Jetson is being started, from the pins [t] on. *)
Definition boot_sys_init (t : list op) : boot_sys := BootSys false 0 0 0 false NotStarted 0 t.

(** The work of the shutdown line, in a run where its write to POWER_EN succeeds:
    a failed write is only counted ([ASSERT_SOFT]) and the shutdown goes on. *)
Definition power_en_written (e : boot_event) : Prop :=
  forall g, e = EvWork g -> set_ret g JETSON_POWER_ENABLE = 0.

(** What the data sheet asks of the cut, for the rails this board has: 3.3 V off
    first (within 1.5 ms of the reset), 1.8 V last (within 4 ms). *)
Definition rails_off (ssd_wifi : bool) : list op :=
  [Put SUPPLY_3V3 false] ++
  (if ssd_wifi then [Put SUPPLY_3V3_SSD false; Put SUPPLY_3V3_WIFI false] else []) ++
  [Put SUPPLY_1V8 false].

(** The writes that reach their pin. *)
Definition written (g : gpio) (os : list op) : list op :=
  List.filter (fun o => match o with Put p _ => set_ret g p =? 0 | _ => true end) os.

(** The thread is at the top of its loop, the Jetson asked to be shut down and
    its reset line is read asserted. *)
Definition cut_due (e : boot_event) (s : boot_sys) : Prop :=
  exists g reset, e = EvThread g reset /\ thread s = LoopTop /\ jetson_shutdown_req s <> 0 /\ reset <> 0.

(** A thread that runs as soon as it can: the steps it can take, and exactly the
    time its sleeps last. *)
Fixpoint prompt (n : nat) (g : gpio) (reset : Z) (s : boot_sys) : boot_sys :=
  match n with
  | O => s
  | S n =>
      match thread_step g reset s with
      | Some s => prompt n g reset s
      | None =>
          match thread s with
          | ShutdownUi _ rem _ | LoopSleep rem _ | UiSleep rem _ => prompt n g reset (pass rem s)
          | _ => s
          end
      end
  end.

(** ** Lemmas and theorems *)

Definition req_inv (s : boot_sys) : Prop :=
  jetson_shutdown_req s <> 0 -> level JETSON_POWER_ENABLE (pins s) = Some false.

Lemma power_down_level g t : level JETSON_POWER_ENABLE (power_down g t) = level JETSON_POWER_ENABLE t.
Proof.
  unfold power_down, gpio_pin_set. cbn [snd].
  assert (forall p v u, p <> JETSON_POWER_ENABLE ->
    level JETSON_POWER_ENABLE (if set_ret g p =? 0 then u ++ [Put p v] else u) = level JETSON_POWER_ENABLE u) as E.
  { intros p v u Hp. destruct (_ =? 0); [| done]. apply level_same. cbn. congruence. }
  destruct (has_ssd_wifi version); by rewrite !E.
Qed.

Lemma power_down_trace g t : power_down g t = t ++ written g (rails_off (has_ssd_wifi version)).
Proof.
  unfold power_down, gpio_pin_set, written, rails_off. cbn [snd].
  destruct (has_ssd_wifi version); cbn [app List.filter];
    repeat case_match; cbn [app]; rewrite <-?(assoc_L (++)), ?app_nil_r; done.
Qed.

Lemma thread_step_pins g reset s s' : thread_step g reset s = Some s' ->
  jetson_shutdown_req s' = jetson_shutdown_req s /\
  ((pins s' = pins s /\ ~ cut_due (EvThread g reset) s) \/
   (pins s' = power_down g (pins s) /\ cut_due (EvThread g reset) s)).
Proof.
  unfold thread_step. intros E. destruct (thread s) as [| | d l w | | l w | l w |] eqn:Et.
  4:{ destruct (Z.eqb_spec (jetson_shutdown_req s) 0) as [Hq | Hq], (Z.eqb_spec reset 0) as [Hr | Hr];
        cbn [negb andb] in E; simplify_eq; split; try done.
      1,2,3: left; split; [done |]; intros (? & ? & ? & _ & ? & ?); simplify_eq; congruence.
      right. split; [done |]. by exists g, reset. }
  all: repeat case_match; simplify_eq; (split; [done |]); left; (split; [done |]);
    intros (? & ? & ? & ? & _); congruence.
Qed.

Lemma boot_step_inv e s s' : req_inv s -> boot_step e s = Some s' -> power_en_written e -> req_inv s'.
Proof.
  unfold req_inv. intros Hi E Hg. destruct e as [| d | | g | g reset | ms]; cbn [boot_step] in E.
  - case_match; simplify_eq; exact Hi.
  - simplify_eq. unfold reboot. destruct (negb _); exact Hi.
  - case_match; simplify_eq; exact Hi.
  - case_match; simplify_eq. intros _. unfold shutdown_requested_work_handler, wake_and_give, gpio_pin_set.
    cbn [snd pins]. rewrite (Hg g) by done. cbn [Z.eqb]. by rewrite level_snoc.
  - destruct (thread_step_pins _ _ _ _ E) as [-> [[-> _] | [-> _]]]; [exact Hi |]. rewrite power_down_level. exact Hi.
  - case_match; simplify_eq. exact Hi.
Qed.

Lemma boot_run_inv es : forall s s', req_inv s -> boot_run es s = Some s' -> Forall power_en_written es -> req_inv s'.
Proof.
  induction es as [|e es IH]; intros s s' Hi E Hg; [by injection E as <- |].
  cbn [boot_run] in E. apply bind_Some in E as (s1 & E1 & E). apply Forall_cons in Hg as [Hg1 Hg].
  eapply IH; [by eapply boot_step_inv | done | done].
Qed.

(** C19: the Jetson is powered down in the order of its data sheet, whatever
    reboots, shutdown requests and thread steps come and whenever they come, as
    long as the writes to POWER_EN succeed.  In a run from the start of the Jetson,
    a step is one of three: it leaves the pins alone and no cut is due; it is the
    work of the SHUTDOWN_REQ line, which takes POWER_EN away; or it is the step of
    the thread that a cut is due at - the Jetson asked for it and its reset line has
    been read asserted -, with POWER_EN already low, and then the rails are turned
    off, 3.3 V first and 1.8 V last, apart from those whose write fails.  A
    reboot the Jetson did not ask for touches no supply before the reset of the
    microcontroller. *)
Theorem power_down_in_order t es s e s' :
  boot_run es (boot_sys_init t) = Some s -> boot_step e s = Some s' -> Forall power_en_written (es ++ [e]) ->
  (pins s' = pins s /\ ~ cut_due e s) \/
  (exists g, e = EvWork g /\ pins s' = pins s ++ [Put JETSON_POWER_ENABLE false]) \/
  (exists g reset, e = EvThread g reset /\ cut_due e s /\ level JETSON_POWER_ENABLE (pins s) = Some false /\
     pins s' = pins s ++ written g (rails_off (has_ssd_wifi version))).
Proof.
  intros Hr E Hg. apply Forall_app in Hg as [Hg1 Hg]. apply Forall_cons in Hg as [Hg _].
  assert (req_inv s) as Hi by (eapply boot_run_inv; [| done | done]; intros Hq; by destruct Hq).
  destruct e as [| d | | g | g reset | ms]; cbn [boot_step] in E.
  4:{ right; left. exists g. case_match; simplify_eq. split; [done |].
      unfold shutdown_requested_work_handler, wake_and_give, gpio_pin_set. cbn [snd pins]. by rewrite (Hg g). }
  4:{ destruct (thread_step_pins _ _ _ _ E) as [_ [[Hp Hn] | (Hp & Hc)]]; [left; by split |]. right; right.
      exists g, reset. split; [done |]; split; [done |]; split; [| by rewrite Hp, power_down_trace].
      apply Hi. by destruct Hc as (? & ? & _ & _ & ? & _). }
  all: left; split; [| by intros (? & ? & ? & _)].
  all: try (case_match; simplify_eq; done).
  simplify_eq. unfold reboot. by destruct (negb _).
Qed.

Context (msleep_pos : forall n, 0 <= n -> msleep n = n).

Lemma prompt_step n g reset s s1 : thread_step g reset s = Some s1 ->
  prompt (S n) g reset s = prompt n g reset s1.
Proof. intros E. cbn [prompt]. by rewrite E. Qed.

(** A sleep nobody interrupts lasts what remains of it. *)
Definition sleeping (p : thread_pc) : option Z :=
  match p with
  | ShutdownUi _ rem false | LoopSleep rem false | UiSleep rem false => Some rem
  | _ => None
  end.

Lemma prompt_sleep n g reset s rem : sleeping (thread s) = Some rem -> rem <> 0 ->
  prompt (S n) g reset s = prompt n g reset (pass rem s).
Proof.
  intros E Hr. cbn [prompt]. unfold thread_step. destruct (thread s) as [| | d l [] | | l [] | l [] |]; try done;
    injection E as ->; cbn [orb]; by bfalse (rem =? 0).
Qed.

Lemma prompt_down n g reset s : thread s = Down -> prompt n g reset s = s.
Proof. intros E. destruct n; [done |]. cbn [prompt]. unfold thread_step. by rewrite !E. Qed.

(** From the top of the loop, with nothing else happening. *)
Lemma prompt_loop n g reset s : thread s = LoopTop -> jetson_shutdown_req s = 0 \/ reset <> 0 ->
  1 <= reboot_delay_s s <= 2147483 ->
  let s' := prompt (5 + n) g reset s in
  thread s' = Down /\ uptime s' = uptime s + reboot_delay_s s * 1000.
Proof.
  intros Ht Hq Hd. destruct s as [tid sem d req wp p up t]. cbn [thread reboot_delay_s jetson_shutdown_req uptime] in *.
  subst p. cbn [Nat.add]. set (t' := if negb (req =? 0) then power_down g t else t).
  erewrite prompt_step.
  2:{ unfold thread_step. cbn [thread jetson_shutdown_req reboot_delay_s pins].
      replace (negb (req =? 0) && (reset =? 0)) with false.
      2:{ destruct Hq as [-> | Hq]; [done |]. apply Z.eqb_neq in Hq. by rewrite Hq, andb_false_r. }
      rewrite u32_small, s32_small by (unfold SYSTEM_RESET_UI_DELAY_MS; lia).
      rewrite msleep_pos by (unfold SYSTEM_RESET_UI_DELAY_MS; lia). reflexivity. }
  unfold SYSTEM_RESET_UI_DELAY_MS. erewrite prompt_sleep; [| reflexivity | lia].
  unfold pass, set_thread, set_pins. cbn [thread reboot_tid sem_reboot reboot_delay_s jetson_shutdown_req work_pending uptime pins].
  rewrite Z.sub_diag. change (Z.max 0 0) with 0. erewrite prompt_step; [| reflexivity].
  unfold SYSTEM_RESET_UI_DELAY_MS, set_thread. rewrite msleep_pos by lia. erewrite prompt_sleep; [| reflexivity | lia].
  erewrite prompt_step; [| reflexivity]. rewrite prompt_down by reflexivity. cbn [thread uptime set_thread pass].
  split; [done |]. cbn. lia.
Qed.

(** A reboot asked for while the thread waits happens after exactly the delay
    asked for: [d] seconds between the request and the reset. *)
Theorem reboot_after_delay g reset d s :
  reboot_tid s = true -> thread s = WaitSem -> jetson_shutdown_req s = 0 -> 1 <= d <= 2147483 ->
  (reboot d s).1 = RET_SUCCESS /\
  (let s' := prompt 8 g reset (reboot d s).2 in thread s' = Down /\ uptime s' = uptime s + d * 1000).
Proof.
  intros Htid Ht Hq Hd. unfold reboot. rewrite Htid. cbn [negb fst snd]. split; [done |].
  destruct s as [tid sem d0 req wp p up t]. cbn [thread jetson_shutdown_req uptime reboot_tid] in *. subst.
  unfold wake_and_give, set_delay. cbn [reboot_tid sem_reboot reboot_delay_s jetson_shutdown_req work_pending thread uptime pins k_wakeup].
  erewrite prompt_step; [| reflexivity]. cbn [reboot_delay_s reboot_tid sem_reboot jetson_shutdown_req work_pending thread uptime pins].
  rewrite msleep_pos by lia. destruct (Z.ltb_spec 1 d) as [H1 | H1].
  - erewrite prompt_sleep; [| reflexivity | lia]. erewrite prompt_step; [| reflexivity].
    match goal with |- context [prompt _ _ _ ?x] => set (s1 := x) end.
    destruct (prompt_loop 0 g reset s1) as [E1 E2]; [done | by left | cbn; lia |].
    split; [exact E1 |]. etransitivity; [exact E2 |]. cbn. lia.
  - match goal with |- context [prompt _ _ _ ?x] => set (s1 := x) end.
    destruct (prompt_loop 2 g reset s1) as [E1 E2]; [done | by left | cbn; lia |].
    split; [exact E1 |]. etransitivity; [exact E2 |]. cbn. lia.
Qed.

(** While the thread sleeps before a reset, a new reboot takes precedence, as
    the code means it to: the reset comes exactly [d] seconds after the new
    request.  But during the second in which the thread shows the shutdown on the
    LEDs, a new delay is lost: the thread writes back the delay it read before, so
    the reset comes after what was left of the first one, even when the Jetson has
    asked to be shut down within a second. *)
Theorem reboot_precedence g reset d s :
  reboot_tid s = true -> 1 <= d <= 2147483 -> jetson_shutdown_req s = 0 ->
  (forall rem w, thread s = LoopSleep rem w -> 0 < rem ->
     let s' := prompt 6 g reset (reboot d s).2 in thread s' = Down /\ uptime s' = uptime s + d * 1000) /\
  (forall d0 rem w, thread s = ShutdownUi d0 rem w -> 1 < d0 <= 2147483 ->
     (let s' := prompt 6 g reset (reboot d s).2 in thread s' = Down /\ uptime s' = uptime s + (d0 - 1) * 1000) /\
     (reset <> 0 ->
      let s' := prompt 6 g reset (shutdown_requested_work_handler g s) in
      thread s' = Down /\ uptime s' = uptime s + (d0 - 1) * 1000)).
Proof.
  intros Htid Hd Hq. destruct s as [tid sem dl req wp p up t].
  cbn [thread jetson_shutdown_req uptime reboot_tid] in *. subst. unfold reboot. cbn [negb fst snd reboot_tid].
  split; [| split].
  - intros rem w -> Hr. erewrite prompt_step.
    2:{ unfold thread_step. cbn. by bfalse (rem =? 0). }
    match goal with |- context [prompt _ _ _ ?x] => set (s1 := x) end.
    exact (prompt_loop 0 g reset s1 eq_refl (or_introl eq_refl) Hd).
  - subst p. erewrite prompt_step; [| reflexivity].
    match goal with |- context [prompt _ _ _ ?x] => set (s1 := x) end.
    apply (prompt_loop 0 g reset s1); [done | by left | cbn; lia].
  - intros Hr. subst p. erewrite prompt_step; [| reflexivity].
    match goal with |- context [prompt _ _ _ ?x] => set (s1 := x) end.
    apply (prompt_loop 0 g reset s1); [done | by right | cbn; lia].
Qed.
End Thread.

Lemma power_down_in_order_witness :
  let H := sample_versions in
  let es := [EvStart; EvShutdownLine; EvWork gpio_ok; EvThread gpio_ok 1] in
  let t := [Put JETSON_POWER_ENABLE true; Put SUPPLY_3V3 true; Put SUPPLY_1V8 true] in
  exists s s', boot_run (fun n => n) 5 es (boot_sys_init t) = Some s /\
    boot_step (fun n => n) 5 (EvThread gpio_ok 1) s = Some s' /\
    pins s' = pins s ++ [Put SUPPLY_3V3 false; Put SUPPLY_3V3_SSD false; Put SUPPLY_3V3_WIFI false;
                         Put SUPPLY_1V8 false].
Proof.
  intros H es t.
  destruct (boot_run (fun n => n) 5 es (boot_sys_init t)) as [s |] eqn:E; [| discriminate E].
  destruct (boot_step (fun n => n) 5 (EvThread gpio_ok 1) s) as [s' |] eqn:E'.
  2:{ vm_compute in E. injection E as <-. discriminate E'. }
  exists s, s'. split; [reflexivity |]. split; [exact E' |].
  destruct (power_down_in_order (H := H) (fun n => n) 5 t es s _ s' E E')
    as [[_ Hn] | [(g & Eg & _) | (g & r & Eg & _ & _ & Ep)]].
  - repeat (apply List.Forall_cons; [intros g Eg; by (discriminate || injection Eg as <-) |]). constructor.
  - destruct Hn. exists gpio_ok, 1. split; [reflexivity |]. vm_compute in E. injection E as <-.
    split; [reflexivity |]. split; discriminate.
  - discriminate Eg.
  - injection Eg as <- <-. exact Ep.
Defined.

Lemma reboot_after_delay_witness :
  let H := sample_versions in
  let s := BootSys true 0 0 0 false WaitSem 100 [] in
  uptime (prompt (fun n => n) 5 8 gpio_ok 1 (reboot 60 s).2) = 60100.
Proof.
  intros H s. destruct (reboot_after_delay (H := H) (fun n => n) 5 (fun n _ => eq_refl) gpio_ok 1 60 s) as (_ & _ & E);
    [done | done | done | lia | exact E].
Defined.

Lemma reboot_precedence_witness :
  let H := sample_versions in
  let s := BootSys true 0 60 0 false (ShutdownUi 60 400 false) 100 [] in
  uptime (prompt (fun n => n) 5 6 gpio_ok 1 (reboot 5 s).2) = 59100.
Proof.
  intros H s.
  destruct (reboot_precedence (H := H) (fun n => n) 5 (fun n _ => eq_refl) gpio_ok 1 5 s eq_refl ltac:(lia) eq_refl)
    as [_ F].
  destruct (F 60 400 false eq_refl ltac:(lia)) as [[_ E] _]. exact E.
Defined.

(** ** Backup registers: lib/storage/backup_regs.c

    The battery-backed memory is Zephyr's driver: its size, reads and writes. *)
Class BBRam (M : Type) := {
  bbram_get_size : M -> Z * Z;                      (* code, size *)
  bbram_read : M -> Z -> Z -> Z * bytes;            (* offset, size: code, bytes written *)
  bbram_write : M -> Z -> bytes -> Z * M;           (* offset, data *)
}.

(** Documented: a read inside the memory gives as many bytes as asked for and
    reads back what was written. *)
Class BBRamLaws (M : Type) `{BBRam M} := {
  bbram_get : M -> bytes;
  bbram_size_ok m : bbram_get_size m = (0, zlen (bbram_get m));
  bbram_read_ok m off n : 0 <= off -> 0 <= n -> off + n <= zlen (bbram_get m) ->
    bbram_read m off n = (0, slice off n (bbram_get m));
  bbram_read_fails m off n : zlen (bbram_get m) < off + n -> (bbram_read m off n).1 <> 0;
  bbram_write_ok m off d : 0 <= off -> off + zlen d <= zlen (bbram_get m) ->
    exists m', bbram_write m off d = (0, m') /\ bbram_get m' = splice off d (bbram_get m);
}.

Definition SIZEOF_POINTER : Z := 4.

Section BackupRegs.
Context {M : Type} `{BBRam M}.

(** [sizeof(data)] is the size of the pointer: the bytes written from [*data] on. *)
Definition backup_regs_read_byte (offset : Z) (m : M) : Z * bytes :=
  let '(ret, size) := bbram_get_size m in
  if (ret =? 0) && (size <=? offset) then (- EINVAL, [])
  else bbram_read m offset SIZEOF_POINTER.

(** Here [data] is the byte itself. *)
Definition backup_regs_write_byte (offset data : Z) (m : M) : Z * M :=
  let '(ret, size) := bbram_get_size m in
  if (ret =? 0) && (size <=? offset) then (- EINVAL, m)
  else bbram_write m offset [data].

Definition REBOOT_FLAG_OFFSET_BYTE : Z := 0.

Definition backup_clear_reboot_flag (m : M) : Z * M := backup_regs_write_byte REBOOT_FLAG_OFFSET_BYTE 0 m.

(** ** Commands of runner.c: the acknowledgements sent, in order *)

Definition handle_shutdown (delay : Z) (s : boot_sys) : list ack * boot_sys :=
  if 30 <? delay then ([ACK_RANGE], s)
  else
    let '(ret, s) := reboot delay s in
    ([if ret =? RET_SUCCESS then ACK_SUCCESS else ACK_FAIL], s).

(** The message sent to the Jetson: the milliseconds until the shutdown. *)
Definition handle_reboot_message (delay : Z) (s : boot_sys) : list ack * option Z * boot_sys :=
  if 60 <? delay then ([ACK_RANGE], None, s)
  else
    let '(ret, s) := reboot delay s in
    if ret =? RET_SUCCESS then ([ACK_SUCCESS], Some (u32 (delay * 1000)), s) else ([ACK_FAIL], None, s).

(** The end of [handle_reboot_orb] that every error reaches. *)
Definition reboot_orb_fails (acks : list ack) (m : M) (s : boot_sys) : list ack * M * boot_sys :=
  (acks ++ [ACK_FAIL], (backup_regs_write_byte REBOOT_FLAG_OFFSET_BYTE 0 m).2, s).

Definition handle_reboot_orb (delay : Z) (m : M) (s : boot_sys) : list ack * M * boot_sys :=
  if negb (delay =? 0) && ((60 <? delay) || (delay <? 10)) then reboot_orb_fails [ACK_RANGE] m s
  else
    let '(ret, m) := backup_regs_write_byte REBOOT_FLAG_OFFSET_BYTE REBOOT_INSTABOOT m in
    if ret =? 0 then
      let '(ret, s) := if negb (delay =? 0) then reboot delay s else (0, s) in
      if ret =? 0 then ([ACK_SUCCESS], m, s) else reboot_orb_fails [] m s
    else reboot_orb_fails [] m s.

(** What [app_init_state] reads of the backup registers. *)
Definition with_flag (m : M) (c : boot_inputs) : boot_inputs :=
  let '(ret, d) := backup_regs_read_byte REBOOT_FLAG_OFFSET_BYTE m in
  BootInputs (image_ok_unset c) (magic_unset c) ret (nthZ d 0) (config_init_ret c) (always_on c) (insta_boot c)
    (readback_ret c).
End BackupRegs.

(** The driver of the witnesses. *)
#[export] Instance ram_bbram : BBRam bytes := {|
  bbram_get_size m := (0, zlen m);
  bbram_read m off n := if (0 <=? off) && (off + n <=? zlen m) then (0, slice off n m) else (- EINVAL, []);
  bbram_write m off d := if (0 <=? off) && (off + zlen d <=? zlen m) then (0, splice off d m) else (- EINVAL, m);
|}.

#[export, refine] Instance ram_bbram_laws : BBRamLaws bytes := {| bbram_get m := m |}.
Proof.
  - done.
  - intros m off n H1 H2 H3. cbn. btrue (0 <=? off). by btrue (off + n <=? zlen m).
  - intros m off n H1. cbn. bfalse (off + n <=? zlen m). by rewrite andb_false_r.
  - intros m off d H1 H2. cbn. btrue (0 <=? off). btrue (off + zlen d <=? zlen m). by eexists.
Defined.

Section RebootOrb.
Context {M : Type} `{BBRamLaws M} `{HwVersions}.

(** The command that reboots the Orb survives the reset: when it is accepted
    (the delay is 0 or between 10 and 60 seconds), it is acknowledged once, the
    reset is scheduled unless the delay is 0, and the next start powers the
    supplies without waiting for the button, whatever else it reads.  A delay out of
    range is answered twice, first with the range error and then with a failure. *)
Theorem reboot_orb_boots_again b g delay m s c xs t :
  SIZEOF_POINTER <= zlen (bbram_get m) -> reboot_tid s = true ->
  let '(acks, m', s') := handle_reboot_orb delay m s in
  (delay = 0 \/ 10 <= delay <= 60 ->
     acks = [ACK_SUCCESS] /\ s' = (if delay =? 0 then s else (reboot delay s).2) /\
     exists ret st, app_init_state b g (with_flag m' c) xs t =
       Some (ret, st, power_vbat_5v_3v3_supplies_on g (t ++ [Msleep 2000]), xs) /\ latched_reboot_cmd st = true) /\
  (delay <> 0 -> delay < 10 \/ 60 < delay -> acks = [ACK_RANGE; ACK_FAIL] /\ s' = s).
Proof.
  intros Hm Htid. unfold SIZEOF_POINTER in Hm.
  assert (forall v, exists m', backup_regs_write_byte REBOOT_FLAG_OFFSET_BYTE v m = (0, m') /\
    bbram_get m' = splice 0 [v] (bbram_get m)) as Hw.
  { intros v. unfold backup_regs_write_byte, REBOOT_FLAG_OFFSET_BYTE. rewrite bbram_size_ok.
    bfalse (zlen (bbram_get m) <=? 0). cbn [Z.eqb andb].
    apply bbram_write_ok; [lia |]. change (zlen [v]) with 1. lia. }
  unfold handle_reboot_orb.
  destruct (negb (delay =? 0) && ((60 <? delay) || (delay <? 10))) eqn:Er.
  { unfold reboot_orb_fails. cbn. apply andb_true_iff in Er as [E1 E2].
    apply negb_true_iff, Z.eqb_neq in E1. apply orb_true_iff in E2. rewrite !Z.ltb_lt in E2.
    split; [lia | done]. }
  destruct (Hw REBOOT_INSTABOOT) as (m' & E & G). rewrite E. cbn [Z.eqb].
  assert (exists s', (if negb (delay =? 0) then reboot delay s else (0, s)) = (0, s') /\
    s' = (if delay =? 0 then s else (reboot delay s).2)) as (s' & Es & Es').
  { unfold reboot. rewrite Htid. cbn [negb snd]. destruct (delay =? 0); by eexists. }
  rewrite Es. cbn [Z.eqb]. split.
  - intros _. split; [done |]. split; [done |].
    unfold with_flag, backup_regs_read_byte, REBOOT_FLAG_OFFSET_BYTE, SIZEOF_POINTER.
    assert (zlen (bbram_get m') = zlen (bbram_get m)) as Hz.
    { rewrite G. apply zlen_splice; [lia |]. change (zlen [REBOOT_INSTABOOT]) with 1. lia. }
    rewrite bbram_size_ok. bfalse (zlen (bbram_get m') <=? 0). cbn [Z.eqb andb].
    rewrite bbram_read_ok by lia. rewrite G. change (splice 0 [REBOOT_INSTABOOT] (bbram_get m))
      with (REBOOT_INSTABOOT :: drop 1 (bbram_get m)).
    unfold app_init_state. cbn. rewrite orb_true_r. cbn. eexists _, _. split; reflexivity.
  - intros R1 R2. apply andb_false_iff in Er as [Er | Er].
    + by apply negb_false_iff, Z.eqb_eq in Er.
    + apply orb_false_iff in Er as [E1%Z.ltb_ge E2%Z.ltb_ge]. lia.
Qed.

(** The byte read from the backup registers is written with the size of a pointer:
    four bytes at the address of a one-byte variable. *)
Theorem backup_read_overflows off m ret d :
  0 <= off -> backup_regs_read_byte off m = (ret, d) -> ret = 0 -> off + SIZEOF_POINTER <= zlen (bbram_get m) ->
  zlen d = 4.
Proof.
  unfold backup_regs_read_byte, SIZEOF_POINTER. intros Ho E -> Hl. rewrite bbram_size_ok in E.
  rewrite (proj2 (Z.leb_gt _ _)) in E by lia. cbn [Z.eqb andb] in E. rewrite bbram_read_ok in E by lia. injection E as <-. by apply zlen_slice; lia.
Qed.
End RebootOrb.

Lemma reboot_orb_boots_again_witness :
  let H := sample_versions in
  let c := BootInputs false true 0 0 1 false false 0 in
  let s := BootSys true 0 0 0 false WaitSem 0 [] in
  exists acks m' s', handle_reboot_orb 10 [0; 0; 0; 0] s = (acks, m', s') /\ acks = [ACK_SUCCESS] /\ m' = [176; 0; 0; 0].
Proof.
  intros H c s.
  pose proof (reboot_orb_boots_again Pearl gpio_ok 10 [0; 0; 0; 0] s c [] []) as T.
  destruct (handle_reboot_orb 10 [0; 0; 0; 0] s) as [[acks m'] s'] eqn:E.
  exists acks, m', s'. split; [reflexivity |].
  destruct T as [T _]; [done | done |]. destruct T as [T _]; [right; lia |]. split; [exact T |].
  vm_compute in E. by injection E as _ <- _.
Defined.
