(* ===== verification/BatteryRuby.v ===== *)
(** Battery of the Pearl: main_board/src/power/battery/battery_ruby.c.  The
    battery speaks on its own CAN bus; every message it sends is kept with a flag
    ([handle_M...], called in interrupt context), and a thread publishes what was
    received, asks the battery for its identity, and restarts the Orb when the
    battery is low or gone.  Interrupts may fall between any two stages of a turn
    of the thread. *)

From S2P Require Import Prelude Power Reboot.

(** ** Constants: battery.h and battery_ruby.c *)

Definition BATTERY_MINIMUM_VOLTAGE_STARTUP_MV : Z := 13750.
Definition BATTERY_MINIMUM_VOLTAGE_RUNTIME_MV : Z := 12500.
Definition BATTERY_MINIMUM_CAPACITY_STARTUP_PERCENT : Z := 5.
Definition BATTERY_INFO_SEND_PERIOD_MS : Z := 1100.
Definition BATTERY_MESSAGES_REMOVED_TIMEOUT_MS : Z := BATTERY_INFO_SEND_PERIOD_MS * 3.
Definition BATTERY_MESSAGES_FORCE_REBOOT_TIMEOUT_MS : Z := BATTERY_INFO_SEND_PERIOD_MS * 10.
Definition WAIT_FOR_VOLTAGES_CHECKS : nat := 20.   (* 2000 ms / 100 ms *)
Definition BATTERY_ID_REQUEST_ATTEMPTS : Z := 3.
Definition IS_CHARGING_BIT : Z := 3.

(** ** Messages of the battery: battery_can.h *)

Inductive bat_msg :=
| M400 | M410 | M411 | M412 | M414 | M415 | M490 | M491 | M492 | M499 | M522 | M523 | M524 | M525.

#[export] Instance bat_msg_eq_dec : EqDecision bat_msg.
Proof. solve_decision. Defined.

(** The size of the packed structure. *)
Definition msg_len (id : bat_msg) : Z :=
  match id with
  | M400 => 1 | M410 => 6 | M411 => 6 | M412 => 8 | M414 => 8 | M415 => 4
  | M490 => 8 | M491 => 8 | M492 => 8 | M499 => 6
  | M522 => 4 | M523 => 8 | M524 => 4 | M525 => 8
  end.

(** Fields of the packed structures. *)
Definition u8_at (b : bytes) (i : Z) : Z := u8 (nthZ b i).
Definition s16_at (b : bytes) (i : Z) : Z := s16 (get16 b i).
Definition u32_at (b : bytes) (i : Z) : Z := get16 b i + 65536 * get16 b (i + 2).

(** ** Messages handed to [publish_new]

    [None] stands for the generated constants of an undetected hardware version
    and an unknown state of charge. *)

Inductive bat_pub :=
| PubVoltages (cell1 cell2 cell3 cell4 corded_power_supply_mv : Z)
| PubCapacity (percentage : Z)
| PubIsCharging (charging : bool)
| PubTemperature (source : bat_msg) (pack : bool) (celsius : Z)
| PubResetReason (reason : Z)
| PubDiagCommon (flags control_status status fet_status balancer current_ma : Z)
| PubDiagSafety (fields : bytes)
| PubDiagPermanentFail (fields : bytes)
| PubInfoHwFw (mcu_id : bytes) (hw_version : option Z) (main major minor commit_hash : Z)
| PubInfoSocAndStatistics (soc_state_calibration : option (Z * Z)) (charges written presses insertions : Z)
| PubInfoMaxValues (capacity cell_temp pcb_temp charge_current discharge_current : Z)
| PubShutdown (ms_until_shutdown : Z).

(** ** State: the static variables, and the locals of the thread *)

Record battery := Battery {
  states : bat_msg -> bytes;
  received : bat_msg -> bool;
  battery_cap : Z;                          (* battery_cap.percentage *)
  is_charging : bool;
  corded_power_supply : bool;
  publish_battery_info_request : bool;
  request_battery_info_left_attempts : Z;
  (* locals of battery_rx_thread *)
  battery_messages_timeout : Z;
  shutdown_scheduled_sent : Z;
  battery_mcu_id_request_pending : bool;
  (* what the module does: messages published, reboots asked for (in seconds),
     restarts of the CAN controller *)
  published : list bat_pub;
  reboots : list Z;
  can_restarts : nat;
}.

Definition set_states f r (s : battery) : battery :=
  Battery f r (battery_cap s) (is_charging s) (corded_power_supply s) (publish_battery_info_request s)
    (request_battery_info_left_attempts s) (battery_messages_timeout s) (shutdown_scheduled_sent s)
    (battery_mcu_id_request_pending s) (published s) (reboots s) (can_restarts s).
Definition set_cap p c (s : battery) : battery :=
  Battery (states s) (received s) p c (corded_power_supply s) (publish_battery_info_request s)
    (request_battery_info_left_attempts s) (battery_messages_timeout s) (shutdown_scheduled_sent s)
    (battery_mcu_id_request_pending s) (published s) (reboots s) (can_restarts s).
Definition set_corded c (s : battery) : battery :=
  Battery (states s) (received s) (battery_cap s) (is_charging s) c (publish_battery_info_request s)
    (request_battery_info_left_attempts s) (battery_messages_timeout s) (shutdown_scheduled_sent s)
    (battery_mcu_id_request_pending s) (published s) (reboots s) (can_restarts s).
Definition set_info_request r a p (s : battery) : battery :=
  Battery (states s) (received s) (battery_cap s) (is_charging s) (corded_power_supply s) r a
    (battery_messages_timeout s) (shutdown_scheduled_sent s) p (published s) (reboots s) (can_restarts s).
Definition set_timeout t sent (s : battery) : battery :=
  Battery (states s) (received s) (battery_cap s) (is_charging s) (corded_power_supply s)
    (publish_battery_info_request s) (request_battery_info_left_attempts s) t sent
    (battery_mcu_id_request_pending s) (published s) (reboots s) (can_restarts s).
Definition set_effects p r c (s : battery) : battery :=
  Battery (states s) (received s) (battery_cap s) (is_charging s) (corded_power_supply s)
    (publish_battery_info_request s) (request_battery_info_left_attempts s) (battery_messages_timeout s)
    (shutdown_scheduled_sent s) (battery_mcu_id_request_pending s) p r c.

Definition publish (p : bat_pub) (s : battery) : battery := set_effects (published s ++ [p]) (reboots s) (can_restarts s) s.
Definition ask_reboot (delay_s : Z) (s : battery) : battery :=
  set_effects (published s) (reboots s ++ [delay_s]) (can_restarts s) s.
Definition can_restart (s : battery) : battery := set_effects (published s) (reboots s) (S (can_restarts s)) s.

(** ** Reception *)

Definition upd {A} (id : bat_msg) (x : A) (f : bat_msg -> A) : bat_msg -> A :=
  fun j => if decide (j = id) then x else f j.

Definition set_received id b (s : battery) : battery := set_states (states s) (upd id b (received s)) s.

(** [CAN_MESSAGE_HANDLER] *)
Definition handle (id : bat_msg) (data : bytes) (s : battery) : battery :=
  set_states (upd id (take (Z.to_nat (msg_len id)) data) (states s)) (upd id true (received s)) s.

(** [frame]: its length in bytes ([can_dlc_to_bytes] of its DLC) and its data. *)
Definition message_checker (id : bat_msg) (frame : Z * bytes) (s : battery) : battery :=
  if frame.1 =? msg_len id then handle id frame.2 s else s.

(** The interrupts between two stages of the thread. *)
Abbreviation frames := (list (bat_msg * (Z * bytes))).

Definition interrupts (fs : frames) (s : battery) : battery :=
  fold_left (fun s f => message_checker f.1 f.2 s) fs s.

Definition cleared (id : bat_msg) : bool := negb (bool_decide (id = M400)).
Definition flag_cleared (id : bat_msg) : bool :=
  match id with M400 | M490 | M491 | M492 => false | _ => true end.

Definition clear_can_message_buffers (s : battery) : battery :=
  set_states (fun id => if cleared id then fill (msg_len id) 0 else states s id)
    (fun id => if flag_cleared id then false else received s id) s.

(** ** [strtol(s, NULL, 16)], with a 32-bit [long]

    [l] is the memory from the string on. *)
Definition hex_digit (c : Z) : option Z :=
  if (48 <=? c) && (c <=? 57) then Some (c - 48)
  else if (97 <=? c) && (c <=? 102) then Some (c - 87)
  else if (65 <=? c) && (c <=? 70) then Some (c - 55)
  else None.

Definition is_space (c : Z) : bool := (c =? 32) || ((9 <=? c) && (c <=? 13)).

Fixpoint hex_value (l : bytes) (acc : Z) : Z :=
  match l with
  | c :: l => match hex_digit c with Some d => hex_value l (acc * 16 + d) | None => acc end
  | [] => acc
  end.

Fixpoint skip_spaces (l : bytes) : bytes :=
  match l with c :: k => if is_space c then skip_spaces k else l | [] => [] end.

(** The prefix 0x counts when a digit follows. *)
Definition skip_0x (l : bytes) : bytes :=
  match l with
  | z :: x :: d :: k =>
      if (z =? 48) && ((x =? 120) || (x =? 88)) && bool_decide (hex_digit d <> None) then d :: k else l
  | _ => l
  end.

Definition strtol16 (l : bytes) : Z :=
  let l := skip_spaces l in
  let '(negative, l) :=
    match l with
    | c :: k => if c =? 45 then (true, k) else if c =? 43 then (false, k) else (false, l)
    | [] => (false, l)
    end in
  let v := hex_value (skip_0x l) 0 in
  Z.max (- 2 ^ 31) (Z.min (2 ^ 31 - 1) (if negative then - v else v)).

(** ** What the thread publishes *)

Definition publish_battery_reset_reason (s : battery) : battery :=
  publish (PubResetReason (u8_at (states s M400) 0)) s.

Definition publish_battery_diagnostics (s : battery) : battery :=
  if received s M410 && received s M411 && received s M412 && received s M415 && received s M499 then
    let s410 := states s M410 in
    publish (PubDiagPermanentFail (take 8 (states s M412)))
      (publish (PubDiagSafety (take 6 (states s M411)))
         (publish (PubDiagCommon (u8_at (states s M499) 4) (get16 s410 0) (get16 s410 2) (u8_at s410 4) (u8_at s410 5)
                     (s16_at (states s M415) 0)) s))
  else s.

(** [after]: the memory after [state_523.git_hash], which has no terminator. *)
Definition publish_battery_info (after : bytes) (s : battery) : battery :=
  let commit_hash := u32 (strtol16 (take 8 (states s M523) ++ after)) in
  let mcu_id := take 4 (states s M524) ++ take 8 (states s M525) in
  let s490 := states s M490 in let s491 := states s M491 in let s492 := states s M492 in let s522 := states s M522 in
  let hw_version :=
    if received s M522 then Some (u8_at s522 0)
    else if received s M491 then Some (u8_at s491 7) else None in
  let soc := if received s M492 then Some (u8_at s492 0, u8_at s492 1) else None in
  publish (PubInfoMaxValues (get16 s490 2) (get16 s490 4) (get16 s490 6) (get16 s491 0) (get16 s491 2))
    (publish (PubInfoSocAndStatistics soc (get16 s490 0)
                (Z.lor (get16 s491 4) (Z.shiftl (u8_at s491 6) 16))
                (Z.lor (get16 s492 2) (Z.shiftl (u8_at s492 4) 16))
                (Z.lor (get16 s492 5) (Z.shiftl (u8_at s492 7) 16)))
       (publish (PubInfoHwFw mcu_id hw_version (u8_at s522 1) (u8_at s522 2) (u8_at s522 3) commit_hash) s)).

(** ** Requests to the battery: [send_rtr_message], [request_battery_info]

    What the driver does with one request: an error of [can_send], or a
    transmission that is still pending for some polls, one a millisecond, each
    with whether the controller has gone bus-off meanwhile. *)
Inductive rtr :=
| SendUnreachable | SendTimeout | SendFails
| Sent (polls : list bool).

Fixpoint rtr_wait (polls : list bool) (transmission_complete_timeout_ms : Z) (s : battery) : Z * battery :=
  match polls with
  | [] => (RET_SUCCESS, s)
  | bus_off :: polls =>
      let timeout := transmission_complete_timeout_ms - 1 in
      if bus_off then (RET_ERROR_INTERNAL, can_restart s)
      else if timeout <=? 0 then (RET_ERROR_INTERNAL, can_restart s)
      else rtr_wait polls timeout s
  end.

Definition send_rtr_message (r : rtr) (s : battery) : Z * battery :=
  match r with
  | SendUnreachable | SendTimeout => (RET_ERROR_INTERNAL, can_restart s)
  | SendFails => (RET_ERROR_INTERNAL, s)
  | Sent polls => rtr_wait polls 100 s
  end.

(** The messages 0x522 to 0x525, up to the first error. *)
Fixpoint request_battery_info (rs : list rtr) (s : battery) : Z * battery :=
  match rs with
  | [] => (RET_SUCCESS, s)
  | r :: rs =>
      let '(ret, s) := send_rtr_message r s in
      if negb (ret =? RET_SUCCESS) then (ret, s) else request_battery_info rs s
  end.

(** ** The thread

    What a turn reads: whether the controller went bus-off, the voltage of the
    supply (code and millivolts) for the corded branch and for the check of the
    battery, the result of publishing the shutdown, whether the Jetson is
    listening, what becomes of the four requests, the memory after the hash. *)
Record turn := Turn {
  in_bus_off : bool;
  in_corded_mv : Z * Z;
  in_vbat_mv : Z * Z;
  in_shutdown_ret : Z;
  in_started : bool;
  in_rtrs : rtr * rtr * rtr * rtr;
  in_after : bytes;
}.

Definition can_stage (i : turn) (s : battery) : battery := if in_bus_off i then can_restart s else s.

Definition check_battery_voltage (battery_voltage_mv : Z) (s : battery) : battery :=
  if u16 battery_voltage_mv <? BATTERY_MINIMUM_VOLTAGE_RUNTIME_MV then ask_reboot 1 s else s.

(** The compound literal of the corded branch resets the field it reads. *)
Definition voltage_stage (i : turn) (s : battery) : battery :=
  if received s M414 then
    let b := states s M414 in
    let c1 := s16_at b 0 in let c2 := s16_at b 2 in let c3 := s16_at b 4 in let c4 := s16_at b 6 in
    publish (PubVoltages c1 c2 c3 c4 0) (check_battery_voltage (u32 (c1 + c2 + c3 + c4)) s)
  else if corded_power_supply s then
    if (in_corded_mv i).1 =? RET_SUCCESS then
      let q := Z.quot (in_corded_mv i).2 4 in publish (PubVoltages q q q q 0) s
    else s
  else s.

Definition capacity_stage (s : battery) : battery :=
  if received s M499 then
    let b := states s M499 in
    let soc := u8_at b 5 in
    let s := if negb (battery_cap s =? soc)
             then set_info_request (publish_battery_info_request s) BATTERY_ID_REQUEST_ATTEMPTS
                    (battery_mcu_id_request_pending s) s else s in
    let s := publish (PubCapacity soc) (set_cap soc (is_charging s) s) in
    let charging := Z.testbit (u8_at b 4) IS_CHARGING_BIT in
    let s := publish (PubIsCharging charging) (set_cap (battery_cap s) charging s) in
    publish (PubTemperature M499 true (Z.quot (s16_at b 2) 10))
      (publish (PubTemperature M499 false (Z.quot (s16_at b 0) 10)) s)
  else if corded_power_supply s then
    publish (PubIsCharging true) (set_cap 100 true (publish (PubCapacity 100) (set_cap 100 (is_charging s) s)))
  else s.

Definition cell_stage (s : battery) : battery :=
  if received s M415 then publish (PubTemperature M415 false (Z.quot (s16_at (states s M415) 2) 10)) s else s.

Definition info_stage (i : turn) (s : battery) : battery :=
  if publish_battery_info_request s then
    publish_battery_info (in_after i)
      (set_info_request false (request_battery_info_left_attempts s) (battery_mcu_id_request_pending s) s)
  else s.

Definition reason_stage (s : battery) : battery :=
  if received s M400 then publish_battery_reset_reason (set_received M400 false s) else s.

(** The battery has answered the requests. *)
Definition answer_stage (s : battery) : battery :=
  let s :=
    if received s M522 && received s M523 && received s M524 && received s M525 then
      set_info_request true 0 false
        (set_received M525 false (set_received M524 false (set_received M523 false (set_received M522 false s))))
    else s in
  if battery_mcu_id_request_pending s && (request_battery_info_left_attempts s =? 0)
  then set_info_request true (request_battery_info_left_attempts s) false s
  else s.

(** The flag of the voltage message is read and cleared with interrupts off. *)
Definition take_stage (s : battery) : bool * battery := (received s M414, set_received M414 false s).

Definition wants_info (i : turn) (s : battery) : bool :=
  negb (request_battery_info_left_attempts s =? 0) && in_started i.

Definition request_stage (i : turn) (s : battery) : battery :=
  let '(r1, r2, r3, r4) := in_rtrs i in
  let s := (request_battery_info [r1; r2; r3; r4] s).2 in
  set_info_request (publish_battery_info_request s) (request_battery_info_left_attempts s - 1)
    (battery_mcu_id_request_pending s) s.

Definition present_stage (s : battery) : battery := set_timeout 0 RET_ERROR_NOT_INITIALIZED (set_corded false s).

(** No voltage message since the last turn. *)
Definition absent_stage (i : turn) (s : battery) : battery :=
  let '(err_code, vbat_sw_voltage_mv) := in_vbat_mv i in
  if negb (err_code =? RET_SUCCESS) || (vbat_sw_voltage_mv <? BATTERY_MINIMUM_VOLTAGE_RUNTIME_MV) then
    let t := u32 (battery_messages_timeout s + BATTERY_INFO_SEND_PERIOD_MS) in
    let s := set_timeout t (shutdown_scheduled_sent s)
               (set_info_request (publish_battery_info_request s) BATTERY_ID_REQUEST_ATTEMPTS
                  (battery_mcu_id_request_pending s) s) in
    let s :=
      if (BATTERY_MESSAGES_REMOVED_TIMEOUT_MS <=? t) && negb (shutdown_scheduled_sent s =? RET_SUCCESS)
      then set_timeout t (in_shutdown_ret i)
             (publish (PubShutdown (u32 (BATTERY_MESSAGES_FORCE_REBOOT_TIMEOUT_MS - t))) s)
      else s in
    if BATTERY_MESSAGES_FORCE_REBOOT_TIMEOUT_MS <=? t then ask_reboot 0 s else s
  else if (err_code =? RET_SUCCESS) && (BATTERY_MINIMUM_VOLTAGE_STARTUP_MV <? vbat_sw_voltage_mv) &&
          negb (corded_power_supply s)
  then set_corded true s
  else s.

(** A turn; [irq k]: the frames received after the k-th stage. *)
Definition battery_turn (i : turn) (irq : nat -> frames) (s : battery) : battery :=
  let s := interrupts (irq 0%nat) (can_stage i s) in
  let s := interrupts (irq 1%nat) (voltage_stage i s) in
  let s := interrupts (irq 2%nat) (capacity_stage s) in
  let s := interrupts (irq 3%nat) (cell_stage s) in
  let s := interrupts (irq 4%nat) (publish_battery_diagnostics s) in
  let s := interrupts (irq 5%nat) (info_stage i s) in
  let s := interrupts (irq 6%nat) (reason_stage s) in
  let s := interrupts (irq 7%nat) (answer_stage s) in
  let '(got, s) := take_stage s in
  let s := interrupts (irq 8%nat) s in
  let s :=
    if got then
      let s := if wants_info i s then
                 let s := clear_can_message_buffers s in
                 request_stage i (interrupts (irq 9%nat)
                   (set_info_request (publish_battery_info_request s) (request_battery_info_left_attempts s) true s))
               else s in
      present_stage s
    else absent_stage i s in
  interrupts (irq 10%nat) s.

Fixpoint battery_rx_thread (turns : list (turn * (nat -> frames))) (s : battery) : battery :=
  match turns with
  | [] => s
  | (i, irq) :: turns => battery_rx_thread turns (battery_turn i irq s)
  end.

(** ** Start: [battery_init], after the filters and the controller are set up

    [waits]: the frames received before each check, 100 ms apart; [vbat]: the
    supply voltage.  The result is the state in which the thread starts, or the
    restart of the microcontroller because the battery is low. *)
Inductive init_result := InitOk (s : battery) | InitLowBattery (s : battery).

Definition pack_voltage (s : battery) : Z :=
  let b := states s M414 in u32 (s16_at b 0 + s16_at b 2 + s16_at b 4 + s16_at b 6).

Definition charged (voltage_mv percentage : Z) : bool :=
  (BATTERY_MINIMUM_VOLTAGE_STARTUP_MV <=? voltage_mv) && (BATTERY_MINIMUM_CAPACITY_STARTUP_PERCENT <=? percentage).

(** The loop: the state, and what its last check read. *)
Fixpoint wait_for_voltages (waits : list frames) (last : Z * Z * bool) (s : battery) : (Z * Z * bool) * battery :=
  match waits with
  | [] => (last, s)
  | fs :: waits =>
      let s := interrupts fs s in
      let last := (pack_voltage s, u8_at (states s M499) 5, received s M414) in
      if charged last.1.1 last.1.2 then (last, s) else wait_for_voltages waits last s
  end.

Definition fake_414 : bytes := [160; 15; 160; 15; 160; 15; 160; 15].    (* 4000 mV each *)

Definition battery_init (waits : list frames) (vbat : Z * Z) (s : battery) : init_result :=
  let '((full_voltage_mv, percentage, got), s) :=
    wait_for_voltages (take WAIT_FOR_VOLTAGES_CHECKS waits) (0, 0, false) s in
  let '(full_voltage_mv, percentage, s) :=
    if got then (full_voltage_mv, percentage, s)
    else
      let full_voltage_mv := if vbat.1 =? RET_SUCCESS then u32 vbat.2 else full_voltage_mv in
      if BATTERY_MINIMUM_VOLTAGE_STARTUP_MV <=? full_voltage_mv then
        let f := upd M499 (splice 5 [100] (states s M499)) (upd M414 fake_414 (states s)) in
        (full_voltage_mv, 100,
         set_corded true (set_states f (upd M499 true (upd M414 true (received s))) s))
      else (full_voltage_mv, percentage, s) in
  if charged full_voltage_mv percentage then InitOk s else InitLowBattery s.

(** The static variables at power-up. *)
Definition battery_reset : battery :=
  Battery (fun id => fill (msg_len id) 0) (fun _ => false) 0 false false false BATTERY_ID_REQUEST_ATTEMPTS
    0 RET_ERROR_NOT_INITIALIZED false [] [] 0.

(** ** The battery is taken out *)

Definition notices (s : battery) : list Z :=
  omap (fun p => match p with PubShutdown ms => Some ms | _ => None end) (published s).

(** Nothing that matters for the removal has changed, and no voltage message came. *)
Record quiet (s s' : battery) : Prop := Quiet {
  q_timeout : battery_messages_timeout s' = battery_messages_timeout s;
  q_sent : shutdown_scheduled_sent s' = shutdown_scheduled_sent s;
  q_reboots : reboots s' = reboots s;
  q_notices : notices s' = notices s;
  q_no_voltage : received s' M414 = false;
}.

#[export] Instance quiet_trans : Transitive quiet.
Proof. intros s1 s2 s3 [] []. split; congruence. Qed.

Lemma quiet_refl s : received s M414 = false -> quiet s s.
Proof. by split. Qed.

Lemma notices_publish p s : notices (publish p s) =
  notices s ++ match p with PubShutdown ms => [ms] | _ => [] end.
Proof. unfold notices, publish. cbn. rewrite omap_app. by destruct p. Qed.

(** Reduce a chain of stages to the fields that were set. *)
Ltac battery_fields :=
  repeat first [progress cbn [states received battery_cap is_charging corded_power_supply
    publish_battery_info_request request_battery_info_left_attempts battery_messages_timeout
    shutdown_scheduled_sent battery_mcu_id_request_pending published reboots can_restarts
    publish ask_reboot can_restart set_states set_cap set_corded set_info_request set_timeout set_effects
    set_received] | rewrite notices_publish, app_nil_r].

Ltac quiet_stage := intros; split; repeat case_match; battery_fields; unfold notices; cbn [published];
  repeat progress (rewrite ?omap_app; cbn; rewrite ?app_nil_r); done.

Definition no_voltage (fs : frames) : Prop := Forall (fun f => f.1 <> M414) fs.

Lemma quiet_interrupts fs : forall s, no_voltage fs -> received s M414 = false -> quiet s (interrupts fs s).
Proof.
  induction fs as [|[id fr] fs IH]; intros s Hf Hr; [by apply quiet_refl |].
  apply Forall_cons in Hf as [Hid Hf]. cbn [interrupts fold_left fst snd].
  assert (quiet s (message_checker id fr s)) as Q.
  { unfold message_checker, handle. case_match; [| by apply quiet_refl]. split; try done. cbn.
    unfold upd. rewrite decide_False by (cbn in Hid; congruence). done. }
  etransitivity; [exact Q |]. apply IH; [done | apply Q].
Qed.

Lemma quiet_can i s : received s M414 = false -> quiet s (can_stage i s).
Proof. unfold can_stage. quiet_stage. Qed.

Lemma quiet_voltage i s : received s M414 = false -> quiet s (voltage_stage i s).
Proof. unfold voltage_stage. intros Hr. rewrite Hr. revert Hr. quiet_stage. Qed.

Lemma quiet_capacity s : received s M414 = false -> quiet s (capacity_stage s).
Proof. unfold capacity_stage. quiet_stage. Qed.

Lemma quiet_cell s : received s M414 = false -> quiet s (cell_stage s).
Proof. unfold cell_stage. quiet_stage. Qed.

Lemma quiet_diagnostics s : received s M414 = false -> quiet s (publish_battery_diagnostics s).
Proof. unfold publish_battery_diagnostics. quiet_stage. Qed.

Lemma quiet_info i s : received s M414 = false -> quiet s (info_stage i s).
Proof. unfold info_stage, publish_battery_info. quiet_stage. Qed.

Lemma quiet_reason s : received s M414 = false -> quiet s (reason_stage s).
Proof. unfold reason_stage, publish_battery_reset_reason. quiet_stage. Qed.

Lemma quiet_answer s : received s M414 = false -> quiet s (answer_stage s).
Proof. unfold answer_stage. quiet_stage. Qed.

(** A turn without a voltage message ends in the check of the supply. *)
Lemma silent_turn i irq s : (forall k, no_voltage (irq k)) -> received s M414 = false ->
  exists s1, quiet s s1 /\ battery_turn i irq s = interrupts (irq 10%nat) (absent_stage i s1).
Proof.
  intros Hi Hr. unfold battery_turn.
  assert (forall k u, quiet s u -> quiet s (interrupts (irq k) u)) as HI.
  { intros k u Q. etransitivity; [exact Q |]. apply quiet_interrupts; [done | apply Q]. }
  assert (forall (f : battery -> battery) u, (forall v, received v M414 = false -> quiet v (f v)) ->
    quiet s u -> quiet s (f u)) as HS.
  { intros f u Hf Q. etransitivity; [exact Q | apply Hf, Q]. }
  set (s8 := interrupts (irq 7%nat) _).
  assert (quiet s s8) as Q.
  { subst s8. apply HI, (HS answer_stage); [apply quiet_answer |].
    apply HI, (HS reason_stage); [apply quiet_reason |]. apply HI, (HS (info_stage i)); [apply quiet_info |].
    apply HI, (HS publish_battery_diagnostics); [apply quiet_diagnostics |].
    apply HI, (HS cell_stage); [apply quiet_cell |]. apply HI, (HS capacity_stage); [apply quiet_capacity |].
    apply HI, (HS (voltage_stage i)); [apply quiet_voltage |].
    apply HI, (HS (can_stage i)); [apply quiet_can | by apply quiet_refl]. }
  unfold take_stage. rewrite (q_no_voltage _ _ Q). eexists. split; [| reflexivity].
  apply HI. etransitivity; [exact Q |]. by split.
Qed.

Definition supply_lost (i : turn) : Prop :=
  (in_vbat_mv i).1 <> RET_SUCCESS \/ (in_vbat_mv i).2 < BATTERY_MINIMUM_VOLTAGE_RUNTIME_MV.

Lemma absent_lost i s t : supply_lost i -> u32 (battery_messages_timeout s + BATTERY_INFO_SEND_PERIOD_MS) = t ->
  let s' := absent_stage i s in
  let warn := (BATTERY_MESSAGES_REMOVED_TIMEOUT_MS <=? t) && negb (shutdown_scheduled_sent s =? RET_SUCCESS) in
  battery_messages_timeout s' = t /\ received s' = received s /\
  shutdown_scheduled_sent s' = (if warn then in_shutdown_ret i else shutdown_scheduled_sent s) /\
  notices s' = notices s ++ (if warn then [u32 (BATTERY_MESSAGES_FORCE_REBOOT_TIMEOUT_MS - t)] else []) /\
  reboots s' = reboots s ++ (if BATTERY_MESSAGES_FORCE_REBOOT_TIMEOUT_MS <=? t then [0] else []).
Proof.
  intros Hl Ht. unfold absent_stage, supply_lost in *. destruct (in_vbat_mv i) as [err mv]. cbn [fst snd] in Hl.
  replace (negb (err =? RET_SUCCESS) || (mv <? _)) with true.
  2:{ symmetry. apply orb_true_iff. rewrite negb_true_iff, Z.eqb_neq, Z.ltb_lt. done. }
  cbv zeta. rewrite Ht. destruct (_ && _), (BATTERY_MESSAGES_FORCE_REBOOT_TIMEOUT_MS <=? t);
    battery_fields; rewrite ?app_nil_r; split_and!; try done;
    unfold notices; cbn; rewrite ?omap_app; done.
Qed.

Lemma replicate_snoc {A} n (x : A) : replicate n x ++ [x] = replicate (S n) x.
Proof. rewrite replicate_S_end. done. Qed.

(** A battery that is taken out is noticed.  From a turn that saw the
    battery on, if no voltage message comes any more and the supply cannot be read
    or is below the minimum, the third turn tells the Jetson, once, that the Orb
    shuts down in 7.7 s, and from the tenth turn on (11 s) every turn asks for a
    reset; whatever else is received, and whatever interrupts the thread. *)
Theorem removed_battery_reboots (ts : list (turn * (nat -> frames))) s :
  battery_messages_timeout s = 0 -> shutdown_scheduled_sent s <> RET_SUCCESS -> received s M414 = false ->
  Forall (fun t => supply_lost t.1 /\ in_shutdown_ret t.1 = RET_SUCCESS /\ forall k, no_voltage (t.2 k)) ts ->
  zlen ts * BATTERY_INFO_SEND_PERIOD_MS < 2 ^ 32 ->
  let s' := battery_rx_thread ts s in
  notices s' = notices s ++ (if 3 <=? zlen ts then [7700] else []) /\
  reboots s' = reboots s ++ replicate (length ts - 9) 0.
Proof.
  intros H0 Hs Hr. unfold BATTERY_INFO_SEND_PERIOD_MS. change (2 ^ 32) with 4294967296.
  enough (forall us, Forall (fun t => supply_lost t.1 /\ in_shutdown_ret t.1 = RET_SUCCESS /\
            forall k, no_voltage (t.2 k)) us -> zlen us * 1100 < 4294967296 ->
    let s' := battery_rx_thread us s in
    (notices s' = notices s ++ (if 3 <=? zlen us then [7700] else []) /\
     reboots s' = reboots s ++ replicate (length us - 9) 0) /\
    battery_messages_timeout s' = zlen us * 1100 /\ received s' M414 = false /\
    (shutdown_scheduled_sent s' = RET_SUCCESS <-> 3 <= zlen us)) as E by (intros F L; apply (E ts F L)).
  intros us. induction us as [|[i irq] us IH] using rev_ind; intros F L.
  { cbn. rewrite !app_nil_r. split_and!; try done. }
  apply Forall_app in F as [F Fi]. apply Forall_singleton in Fi as (Hl & Hsh & Hi). cbn [fst snd] in *.
  rewrite zlen_app in L |- *. change (zlen [(i, irq)]) with 1 in L |- *. pose proof (zlen_nonneg us) as Hz.
  destruct IH as [(N & R) (T & G & S)]; [done | lia |].
  assert (battery_rx_thread (us ++ [(i, irq)]) s = battery_turn i irq (battery_rx_thread us s)) as ->.
  { clear. generalize s. induction us as [|[j jrq] us IH]; intros s1; [done | apply IH]. }
  destruct (silent_turn i irq _ Hi G) as (s1 & Q & ->).
  destruct (absent_lost i s1 ((zlen us + 1) * 1100) Hl) as (A1 & A2 & A3 & A4 & A5).
  { rewrite (q_timeout _ _ Q), T. unfold BATTERY_INFO_SEND_PERIOD_MS. rewrite u32_small; lia. }
  assert (quiet (absent_stage i s1) (interrupts (irq 10%nat) (absent_stage i s1))) as Q2.
  { apply quiet_interrupts; [done |]. rewrite A2. apply Q. }
  rewrite (q_notices _ _ Q2), (q_reboots _ _ Q2), (q_timeout _ _ Q2), (q_sent _ _ Q2), A1, A3, A4, A5.
  rewrite (q_notices _ _ Q), (q_reboots _ _ Q), (q_sent _ _ Q), N, R, <- !app_assoc, Hsh.
  unfold BATTERY_MESSAGES_REMOVED_TIMEOUT_MS, BATTERY_MESSAGES_FORCE_REBOOT_TIMEOUT_MS, BATTERY_INFO_SEND_PERIOD_MS.
  split; [split |].
  - f_equal. destruct (Z.eqb_spec (shutdown_scheduled_sent (battery_rx_thread us s)) RET_SUCCESS) as [E | E];
      cbn [negb]; rewrite ?andb_false_r, ?andb_true_r.
    + apply S in E. btrue (3 <=? zlen us). by btrue (3 <=? zlen us + 1).
    + assert (zlen us < 3) by (destruct (Z.le_gt_cases 3 (zlen us)); [tauto | done]).
      bfalse (3 <=? zlen us). cbn [app]. destruct (Z.leb_spec 3 (zlen us + 1)) as [H3 | H3].
      * btrue (1100 * 3 <=? (zlen us + 1) * 1100). replace (zlen us) with 2 by lia. reflexivity.
      * by bfalse (1100 * 3 <=? (zlen us + 1) * 1100).
  - f_equal. unfold zlen. rewrite length_app. cbn [length].
    destruct (Z.leb_spec (1100 * 10) ((Z.of_nat (length us) + 1) * 1100)) as [H3 | H3].
    + rewrite replicate_snoc. f_equal. lia.
    + rewrite app_nil_r. f_equal. lia.
  - split; [lia |]. split; [apply Q2 |].
    destruct (Z.eqb_spec (shutdown_scheduled_sent (battery_rx_thread us s)) RET_SUCCESS) as [E | E];
      cbn [negb]; rewrite ?andb_false_r, ?andb_true_r.
    + pose proof (proj1 S E). split; [lia | done].
    + destruct (Z.leb_spec (1100 * 3) ((zlen us + 1) * 1100)); split; try done; try lia.
Qed.

Definition gone : turn :=
  Turn false (0, 0) (0, 9000) 0 true (SendFails, SendFails, SendFails, SendFails) [].

Lemma removed_battery_reboots_witness :
  let s' := battery_rx_thread (replicate 12 (gone, fun _ => [(M415, (4, [1; 0; 200; 0]))])) battery_reset in
  notices s' = [7700] /\ reboots s' = [0; 0; 0].
Proof.
  apply (removed_battery_reboots (replicate 12 (gone, fun _ => [(M415, (4, [1; 0; 200; 0]))])) battery_reset);
    [done | done | done | | done].
  apply Forall_replicate. split; [right; reflexivity |]. split; [done |]. intros k. by repeat constructor.
Defined.

(** ** What is published was received *)

(** What [battery_init] writes itself for a corded supply: the message of the
    voltages, and the charge in that of the state of charge. *)
Definition invented (P : bat_msg -> bytes -> Prop) (id : bat_msg) (b : bytes) : Prop :=
  match id with
  | M414 => b = fake_414
  | M499 => exists b0, (P M499 b0 \/ b0 = fill (msg_len M499) 0) /\ b = splice 5 [100] b0
  | _ => False
  end.

(** Messages whose flag says that their data was received. *)
Definition strict (id : bat_msg) : Prop := flag_cleared id = true \/ id = M400.

Section Received.
(** [P id b]: the battery sent [b] as message [id]; [V mv]: [mv] was read as the
    voltage of the supply; [Corded]: a supply was found that needs no battery. *)
Context (P : bat_msg -> bytes -> Prop) (V : Z -> Prop) (Corded : Prop).

(** Where a flag was set for the data, and where it may have been cleared since. *)
Definition flagged (id : bat_msg) (b : bytes) : Prop := P id b \/ invented P id b.
Definition held (id : bat_msg) (b : bytes) : Prop := P id b \/ b = fill (msg_len id) 0.

Definition pub_genuine (p : bat_pub) : Prop :=
  match p with
  | PubVoltages c1 c2 c3 c4 m => m = 0 /\
      ((exists b, flagged M414 b /\ c1 = s16_at b 0 /\ c2 = s16_at b 2 /\ c3 = s16_at b 4 /\ c4 = s16_at b 6) \/
       (Corded /\ exists mv, V mv /\ c1 = Z.quot mv 4 /\ c2 = c1 /\ c3 = c1 /\ c4 = c1))
  | PubCapacity p => (Corded /\ p = 100) \/ exists b, flagged M499 b /\ p = u8_at b 5
  | PubIsCharging c => (Corded /\ c = true) \/
      exists b, flagged M499 b /\ c = Z.testbit (u8_at b 4) IS_CHARGING_BIT
  | PubTemperature source pack celsius => exists b, flagged source b /\
      ((source = M499 /\ celsius = Z.quot (s16_at b (if pack then 2 else 0)) 10) \/
       (source = M415 /\ pack = false /\ celsius = Z.quot (s16_at b 2) 10))
  | PubResetReason r => exists b, P M400 b /\ r = u8_at b 0
  | PubDiagCommon flags control_status status fet_status balancer current_ma =>
      exists b410 b415 b499, P M410 b410 /\ P M415 b415 /\ flagged M499 b499 /\
        flags = u8_at b499 4 /\ control_status = get16 b410 0 /\ status = get16 b410 2 /\
        fet_status = u8_at b410 4 /\ balancer = u8_at b410 5 /\ current_ma = s16_at b415 0
  | PubDiagSafety d => exists b, P M411 b /\ d = take 6 b
  | PubDiagPermanentFail d => exists b, P M412 b /\ d = take 8 b
  | PubInfoHwFw mcu_id hw main major minor hash =>
      exists b522 b523 b524 b525 after, held M522 b522 /\ held M523 b523 /\ held M524 b524 /\ held M525 b525 /\
        mcu_id = take 4 b524 ++ take 8 b525 /\ main = u8_at b522 1 /\ major = u8_at b522 2 /\ minor = u8_at b522 3 /\
        hash = u32 (strtol16 (take 8 b523 ++ after)) /\
        (hw = None \/ (P M522 b522 /\ hw = Some (u8_at b522 0)) \/
         exists b491, held M491 b491 /\ hw = Some (u8_at b491 7))
  | PubInfoSocAndStatistics soc charges bytes_written presses insertions =>
      exists b490 b491 b492, held M490 b490 /\ held M491 b491 /\ held M492 b492 /\
        (soc = None \/ soc = Some (u8_at b492 0, u8_at b492 1)) /\ charges = get16 b490 0 /\
        bytes_written = Z.lor (get16 b491 4) (Z.shiftl (u8_at b491 6) 16) /\
        presses = Z.lor (get16 b492 2) (Z.shiftl (u8_at b492 4) 16) /\
        insertions = Z.lor (get16 b492 5) (Z.shiftl (u8_at b492 7) 16)
  | PubInfoMaxValues capacity cell_temp pcb_temp charge_current discharge_current =>
      exists b490 b491, held M490 b490 /\ held M491 b491 /\
        capacity = get16 b490 2 /\ cell_temp = get16 b490 4 /\ pcb_temp = get16 b490 6 /\
        charge_current = get16 b491 0 /\ discharge_current = get16 b491 2
  | PubShutdown _ => True
  end.

Record bat_inv (s : battery) : Prop := BatInv {
  inv_genuine : forall id, strict id -> received s id = true -> flagged id (states s id);
  inv_held : forall id, held id (states s id) \/ invented P id (states s id);
  inv_corded : corded_power_supply s = true -> Corded;
  inv_published : Forall pub_genuine (published s);
  inv_attempts : 0 <= request_battery_info_left_attempts s <= BATTERY_ID_REQUEST_ATTEMPTS;
}.

(** Messages [battery_init] invents nothing for. *)
Lemma flagged_real id b : id <> M414 -> id <> M499 -> flagged id b -> P id b.
Proof. intros H1 H2 [H | H]; [done |]. by destruct id. Qed.

Lemma inv_real id s : bat_inv s -> strict id -> id <> M414 -> id <> M499 -> received s id = true -> P id (states s id).
Proof. intros Hs Hid H1 H2 Hr. apply flagged_real; [done | done |]. by apply inv_genuine. Qed.

Lemma inv_info_held id s : bat_inv s -> id <> M414 -> id <> M499 -> held id (states s id).
Proof. intros Hs H1 H2. destruct (inv_held s Hs id) as [H | H]; [done |]. by destruct id. Qed.

Lemma inv_publish p s : bat_inv s -> pub_genuine p -> bat_inv (publish p s).
Proof. intros [] Hp. split; try done. apply Forall_app. by repeat constructor. Qed.

Lemma inv_set_cap p c s : bat_inv s -> bat_inv (set_cap p c s).
Proof. by intros []. Qed.

Lemma inv_set_corded c s : bat_inv s -> (c = true -> Corded) -> bat_inv (set_corded c s).
Proof. by intros []. Qed.

Lemma inv_set_timeout t x s : bat_inv s -> bat_inv (set_timeout t x s).
Proof. by intros []. Qed.

Lemma inv_ask_reboot d s : bat_inv s -> bat_inv (ask_reboot d s).
Proof. by intros []. Qed.

Lemma inv_can_restart s : bat_inv s -> bat_inv (can_restart s).
Proof. by intros []. Qed.

Lemma inv_set_info r a p s : bat_inv s -> 0 <= a <= BATTERY_ID_REQUEST_ATTEMPTS -> bat_inv (set_info_request r a p s).
Proof. by intros [] ?. Qed.

Lemma inv_unset id s : bat_inv s -> bat_inv (set_received id false s).
Proof.
  intros [Hg Hh Hc Hp Ha]. split; try done. intros j Hj. cbn. unfold upd. case_decide; [done | by apply Hg].
Qed.

Lemma inv_clear s : bat_inv s -> bat_inv (clear_can_message_buffers s).
Proof.
  intros [Hg Hh Hc Hp Ha]. split; try done; intros j; cbn.
  - intros [-> | ->]; [done |]. cbn. apply Hg. by right.
  - destruct (cleared j); [left; by right | apply Hh].
Qed.

Definition genuine_frames (fs : frames) : Prop :=
  Forall (fun f => f.2.1 = msg_len f.1 -> P f.1 (take (Z.to_nat (msg_len f.1)) f.2.2)) fs.

Lemma inv_interrupts fs : forall s, genuine_frames fs -> bat_inv s -> bat_inv (interrupts fs s).
Proof.
  induction fs as [|[id [len d]] fs IH]; intros s Hf Hs; [done |].
  apply Forall_cons in Hf as [H1 Hf]. cbn [interrupts fold_left fst snd] in *. apply IH; [done |].
  unfold message_checker. cbn [fst snd]. destruct (Z.eqb_spec len (msg_len id)) as [E |]; [| done].
  destruct Hs as [Hg Hh Hc Hp Ha]. specialize (H1 E).
  split; try done; intros j; cbn; unfold upd; case_decide; try subst j; auto.
  - intros _ _. by left.
  - left. by left.
Qed.

Lemma attempts_max : 0 <= BATTERY_ID_REQUEST_ATTEMPTS <= BATTERY_ID_REQUEST_ATTEMPTS.
Proof. unfold BATTERY_ID_REQUEST_ATTEMPTS. lia. Qed.

(** Peel off what a stage does, one setter at a time. *)
Ltac bat :=
  repeat first [apply inv_publish | apply inv_set_cap | apply inv_set_corded | apply inv_set_timeout
    | apply inv_ask_reboot | apply inv_can_restart | apply inv_unset | apply inv_clear | apply inv_set_info];
  cbn [pub_genuine]; auto using attempts_max, inv_attempts.

Definition turn_read (i : turn) : Prop :=
  ((in_corded_mv i).1 = RET_SUCCESS -> V (in_corded_mv i).2) /\
  ((in_vbat_mv i).1 = RET_SUCCESS -> BATTERY_MINIMUM_VOLTAGE_STARTUP_MV < (in_vbat_mv i).2 -> Corded).

Lemma inv_voltage i s : turn_read i -> bat_inv s -> bat_inv (voltage_stage i s).
Proof.
  intros [Hi _] Hs. unfold voltage_stage. case_match eqn:E.
  - apply inv_publish; [unfold check_battery_voltage; case_match; bat |]. split; [done |]. left.
    eexists. split; [apply (inv_genuine s Hs); [by left | done] | done].
  - case_match eqn:Ec; [| done]. case_match eqn:Er; [| done]. apply Z.eqb_eq in Er.
    apply inv_publish; [done |]. split; [done |]. right. split; [by apply (inv_corded s) |].
    eexists. split; [by apply Hi | done].
Qed.

Lemma inv_capacity s : bat_inv s -> bat_inv (capacity_stage s).
Proof.
  intros Hs. unfold capacity_stage. case_match eqn:E.
  - assert (flagged M499 (states s M499)) as Hb by (apply (inv_genuine s Hs); [by left | done]).
    case_match; cbv zeta; bat; cbn [states set_cap publish set_effects set_info_request]; eauto 6.
  - case_match eqn:Ec; [| done]. apply (inv_corded s Hs) in Ec. bat.
Qed.

Lemma inv_cell s : bat_inv s -> bat_inv (cell_stage s).
Proof.
  intros Hs. unfold cell_stage. case_match eqn:E; [| done]. apply inv_publish; [done |].
  exists (states s M415). split; [apply (inv_genuine s Hs); [by left | done] | by right].
Qed.

Lemma inv_diagnostics s : bat_inv s -> bat_inv (publish_battery_diagnostics s).
Proof.
  intros Hs. unfold publish_battery_diagnostics. case_match eqn:E; [| done].
  rewrite !andb_true_iff in E. destruct E as [[[[E0 E1] E2] E5] E9]. cbv zeta.
  assert (forall id, id <> M414 -> id <> M499 -> flag_cleared id = true -> received s id = true -> P id (states s id))
    as HP by (intros; apply inv_real; auto; by left).
  repeat apply inv_publish; [done | | eexists; split; [by apply HP | done] | eexists; split; [by apply HP | done]].
  exists (states s M410), (states s M415), (states s M499).
  split; [by apply HP |]. split; [by apply HP |]. split; [apply (inv_genuine s Hs); [by left | done] | done].
Qed.

Lemma inv_publish_info after s : bat_inv s -> bat_inv (publish_battery_info after s).
Proof.
  intros Hs. unfold publish_battery_info. cbv zeta.
  assert (forall id, id <> M414 -> id <> M499 -> held id (states s id)) as HH by (intros; by apply inv_info_held).
  repeat apply inv_publish; [done | | |].
  - exists (states s M522), (states s M523), (states s M524), (states s M525), after.
    do 4 (split; [by apply HH |]). repeat (split; [done |]).
    case_match eqn:E2; [right; left; split; [by apply inv_real; [| left | | |] | done] |].
    case_match; [right; right; exists (states s M491); split; [by apply HH | done] | by left].
  - exists (states s M490), (states s M491), (states s M492). do 3 (split; [by apply HH |]).
    split; [case_match; auto | done].
  - exists (states s M490), (states s M491). do 2 (split; [by apply HH |]). done.
Qed.

Lemma inv_info i s : bat_inv s -> bat_inv (info_stage i s).
Proof. intros Hs. unfold info_stage. case_match; [| done]. apply inv_publish_info. bat. Qed.

Lemma inv_reason s : bat_inv s -> bat_inv (reason_stage s).
Proof.
  intros Hs. unfold reason_stage, publish_battery_reset_reason. case_match eqn:E; [| done].
  apply inv_publish; [bat |]. cbn [pub_genuine]. eexists.
  split; [apply inv_real; [done | by right | done | done | done] | done].
Qed.

Lemma inv_answer s : bat_inv s -> bat_inv (answer_stage s).
Proof.
  intros Hs. unfold answer_stage. case_match; case_match; bat; repeat apply inv_set_info; bat.
  all: unfold BATTERY_ID_REQUEST_ATTEMPTS; cbn; lia.
Qed.

Lemma inv_request_info rs : forall s, bat_inv s -> bat_inv (request_battery_info rs s).2.
Proof.
  assert (forall polls t s, bat_inv s -> bat_inv (rtr_wait polls t s).2) as Hw.
  { intros polls. induction polls as [|b polls IH]; intros t s Hs; [done |]. cbn [rtr_wait].
    destruct b; [bat |]. case_match; [bat | auto]. }
  induction rs as [|r rs IH]; intros s Hs; [done |]. cbn [request_battery_info].
  assert (bat_inv (send_rtr_message r s).2) as H1 by (destruct r; cbn; bat).
  destruct (send_rtr_message r s) as [ret s1]. cbn in H1. case_match; [done | auto].
Qed.

Lemma inv_absent i s : turn_read i -> bat_inv s -> bat_inv (absent_stage i s).
Proof.
  intros [_ Hi] Hs. unfold absent_stage. destruct (in_vbat_mv i) as [err mv]. cbn [fst snd] in Hi. case_match.
  - cbv zeta. case_match; case_match; bat.
  - case_match eqn:E; [| done]. rewrite !andb_true_iff, Z.eqb_eq, Z.ltb_lt in E.
    apply inv_set_corded; [done | intros _; tauto].
Qed.

Lemma attempts_request rs : forall u,
  request_battery_info_left_attempts (request_battery_info rs u).2 = request_battery_info_left_attempts u.
Proof.
  assert (forall polls t u, request_battery_info_left_attempts (rtr_wait polls t u).2 =
    request_battery_info_left_attempts u) as Hw.
  { intros polls. induction polls as [|b polls IH]; intros t u; [done |]. cbn [rtr_wait].
    destruct b; [done |]. case_match; [done | apply IH]. }
  induction rs as [|r rs IH]; intros u; [done |]. cbn [request_battery_info].
  assert (request_battery_info_left_attempts (send_rtr_message r u).2 = request_battery_info_left_attempts u) as E
    by (destruct r; cbn; auto).
  destruct (send_rtr_message r u) as [ret u1]. cbn in E. case_match; [done |]. by rewrite IH.
Qed.

Lemma attempts_interrupts fs : forall u,
  request_battery_info_left_attempts (interrupts fs u) = request_battery_info_left_attempts u.
Proof.
  induction fs as [|f fs IH]; intros u; [done |]. cbn [interrupts fold_left]. etransitivity; [apply IH |].
  unfold message_checker. by case_match.
Qed.

(** The interrupts of a turn come at eleven places. *)
Definition STAGES : nat := 11.

Lemma inv_turn i irq s : turn_read i -> (forall k, (k < STAGES)%nat -> genuine_frames (irq k)) ->
  bat_inv s -> bat_inv (battery_turn i irq s).
Proof.
  unfold STAGES. intros Ht Hi Hs. unfold battery_turn.
  set (s8 := interrupts (irq 7%nat) _).
  assert (bat_inv s8) as H8.
  { subst s8. repeat (apply inv_interrupts; [apply Hi; lia |];
      first [apply inv_answer | apply inv_reason | apply inv_info | apply inv_diagnostics | apply inv_cell
            | apply inv_capacity | apply inv_voltage; [done |] | idtac]).
    unfold can_stage. case_match; bat. }
  clearbody s8. unfold take_stage. apply inv_interrupts; [apply Hi; lia |].
  assert (bat_inv (interrupts (irq 8%nat) (set_received M414 false s8))) as H9
    by (apply inv_interrupts; [apply Hi; lia | bat]).
  revert H9. generalize (interrupts (irq 8%nat) (set_received M414 false s8)). intros s9 H9.
  destruct (received s8 M414); [| by apply inv_absent].
  unfold present_stage. apply inv_set_timeout, inv_set_corded; [| done]. destruct (wants_info i s9) eqn:Ew; [| done].
  unfold request_stage. destruct (in_rtrs i) as [[[r1 r2] r3] r4]. cbv zeta.
  apply andb_true_iff in Ew as [Ew _]. apply negb_true_iff, Z.eqb_neq in Ew.
  apply inv_set_info.
  - apply inv_request_info, inv_interrupts; [apply Hi; lia |]. apply inv_set_info; [bat |]. apply H9.
  - rewrite attempts_request, attempts_interrupts.
    cbn. pose proof (inv_attempts _ H9). lia.
Qed.

Lemma inv_thread ts : forall s, bat_inv s ->
  Forall (fun t => turn_read t.1 /\ forall k, (k < STAGES)%nat -> genuine_frames (t.2 k)) ts ->
  bat_inv (battery_rx_thread ts s).
Proof.
  induction ts as [|[i irq] ts IH]; intros s Hs Hf; [done |].
  apply Forall_cons in Hf as [[Ht Hi] Hf]. apply IH; [by apply inv_turn | done].
Qed.

(** The start: nothing is published, and only a corded supply is invented. *)
Record start_inv (s : battery) : Prop := StartInv {
  start_genuine : forall id, received s id = true -> P id (states s id);
  start_held : forall id, held id (states s id);
  start_voltage : received s M414 = false -> states s M414 = fill 8 0;
  start_corded : corded_power_supply s = false;
  start_published : published s = [];
  start_attempts : request_battery_info_left_attempts s = BATTERY_ID_REQUEST_ATTEMPTS;
}.

Lemma start_interrupts fs : forall s, genuine_frames fs -> start_inv s -> start_inv (interrupts fs s).
Proof.
  induction fs as [|[id [len d]] fs IH]; intros s Hf Hs; [done |].
  apply Forall_cons in Hf as [H1 Hf]. cbn [interrupts fold_left fst snd] in *. apply IH; [done |].
  unfold message_checker. cbn [fst snd]. destruct (Z.eqb_spec len (msg_len id)) as [E |]; [| done].
  destruct Hs as [Hg Hh Hv Hc Hp Ha]. specialize (H1 E).
  split; try done; cbn; unfold upd; [| |]; try intros j; case_decide; try subst; auto; try done.
  by left.
Qed.

Lemma start_wait ws : forall last s, Forall genuine_frames ws -> start_inv s ->
  (last.2 = received s M414 /\ (last.2 = false -> last.1.1 = 0)) ->
  let r := wait_for_voltages ws last s in
  start_inv r.2 /\ r.1.2 = received r.2 M414 /\ (r.1.2 = false -> r.1.1.1 = 0).
Proof.
  induction ws as [|fs ws IH]; intros last s Hf Hs Hl; [done |].
  apply Forall_cons in Hf as [H1 Hf]. cbn [wait_for_voltages].
  pose proof (start_interrupts fs s H1 Hs) as H2. set (s1 := interrupts fs s) in *.
  assert (received s1 M414 = false -> pack_voltage s1 = 0) as Hv.
  { intros Hr. unfold pack_voltage. by rewrite (start_voltage _ H2 Hr). }
  case_match; [done |]. by apply IH.
Qed.

Lemma start_bat_inv s : start_inv s -> bat_inv s.
Proof.
  intros [Hg Hh Hv Hc Hp Ha]. split.
  - intros id _ Hr. left. auto.
  - intros id. left. auto.
  - congruence.
  - rewrite Hp. constructor.
  - rewrite Ha. apply attempts_max.
Qed.

Lemma inv_init waits vbat : Forall genuine_frames waits ->
  (vbat.1 = RET_SUCCESS -> BATTERY_MINIMUM_VOLTAGE_STARTUP_MV <= u32 vbat.2 -> Corded) ->
  match battery_init waits vbat battery_reset with
  | InitOk s => bat_inv s
  | InitLowBattery s => published s = []
  end.
Proof.
  intros Hw Hc. unfold battery_init.
  assert (start_inv battery_reset) as H0 by (split; try done; intros; by right).
  pose proof (start_wait (take WAIT_FOR_VOLTAGES_CHECKS waits) (0, 0, false) battery_reset
    (Forall_take _ _ _ Hw) H0 ltac:(done)) as H1.
  destruct (wait_for_voltages _ _ _) as [[[mv pct] got] s]. cbn [fst snd] in H1. destruct H1 as (Hs & Hg & Hz).
  destruct got; cbv zeta.
  { destruct (charged _ _); [by apply start_bat_inv | by apply start_published]. }
  destruct (Z.leb_spec BATTERY_MINIMUM_VOLTAGE_STARTUP_MV (if vbat.1 =? RET_SUCCESS then u32 vbat.2 else mv)) as [Hl |];
    [| destruct (charged _ _); [by apply start_bat_inv | by apply start_published]].
  assert Corded as HC.
  { destruct (Z.eqb_spec vbat.1 RET_SUCCESS) as [E |]; [by apply Hc |]. rewrite (Hz eq_refl) in Hl. by destruct Hl. }
  destruct (charged _ _); [| exact (start_published _ Hs)].
  pose proof (start_bat_inv _ Hs) as [Hg' Hh' Hc' Hp Ha]. split; try done; intros id; cbn; unfold upd.
  - intros Hid Hr. case_decide; [subst; right; exists (states s M499); by split; [apply Hs |] |].
    case_decide; [subst; by right | auto].
  - case_decide; [subst; right; exists (states s M499); by split; [apply Hs |] |].
    case_decide; [subst; by right | auto].
Qed.
End Received.

(** The message [id] with data [b] is among the frames. *)
Definition sent_in (fs : frames) (id : bat_msg) (b : bytes) : Prop :=
  exists d, (id, (msg_len id, d)) ∈ fs /\ b = take (Z.to_nat (msg_len id)) d.

(** All that interrupts the start and the turns of the thread. *)
Definition all_frames (waits : list frames) (ts : list (turn * (nat -> frames))) : frames :=
  concat waits ++ flat_map (fun t => flat_map t.2 (seq 0 STAGES)) ts.

Definition supply_read (ts : list (turn * (nat -> frames))) (mv : Z) : Prop :=
  exists t, t ∈ ts /\ in_corded_mv t.1 = (RET_SUCCESS, mv).

Definition corded_found (vbat : Z * Z) (ts : list (turn * (nat -> frames))) : Prop :=
  (vbat.1 = RET_SUCCESS /\ BATTERY_MINIMUM_VOLTAGE_STARTUP_MV <= u32 vbat.2) \/
  exists t, t ∈ ts /\ (in_vbat_mv t.1).1 = RET_SUCCESS /\ BATTERY_MINIMUM_VOLTAGE_STARTUP_MV < (in_vbat_mv t.1).2.

Lemma sent_in_genuine fs all : (forall f, f ∈ fs -> f ∈ all) -> genuine_frames (sent_in all) fs.
Proof.
  intros Hs. apply Forall_forall. intros [id [len d]] Hf. cbn. intros ->. exists d. split; [by apply Hs | done].
Qed.

(** C21: every message the battery task publishes, from the start of the
    module on and whatever frames interrupt it where, is made of data that the
    battery has sent, each field taken from the message it belongs to.  Voltages,
    charge, temperatures, reset reasons and diagnostics are never taken from a
    buffer that was cleared; in the three messages of the battery's information,
    what the battery has not sent since the buffers were cleared for a new
    one is zero ([cleared_data_published]).  Without a battery the charge is
    invented, only after a supply was measured that needs none: a quarter of the
    measured voltage for each cell, or 4 V each at the start, 100 % and charging. *)
Theorem published_was_received waits vbat ts :
  match battery_init waits vbat battery_reset with
  | InitOk s =>
      Forall (pub_genuine (sent_in (all_frames waits ts)) (supply_read ts) (corded_found vbat ts))
        (published (battery_rx_thread ts s))
  | InitLowBattery s => published s = []
  end.
Proof.
  set (P := sent_in (all_frames waits ts)).
  pose proof (inv_init P (supply_read ts) (corded_found vbat ts) waits vbat) as Hi.
  destruct (battery_init waits vbat battery_reset) as [s | s].
  2:{ apply Hi; [| by intros ? ?; left]. apply Forall_forall. intros fs Hfs. apply sent_in_genuine. intros f Hf.
      apply elem_of_app. left. apply list_elem_of_In, in_concat. exists fs. by rewrite <-!list_elem_of_In. }
  apply inv_published, inv_thread.
  - apply Hi; [| by intros ? ?; left]. apply Forall_forall. intros fs Hfs. apply sent_in_genuine. intros f Hf.
    apply elem_of_app. left. apply list_elem_of_In, in_concat. exists fs. by rewrite <-!list_elem_of_In.
  - apply Forall_forall. intros [i irq] Ht. split.
    + split; cbn [fst].
      * intros E. exists (i, irq). split; [done |]. cbn. by rewrite <-E, <-surjective_pairing.
      * intros E Hl. right. by exists (i, irq).
    + intros k Hk. apply sent_in_genuine. intros f Hf. apply elem_of_app. right.
      apply list_elem_of_In, in_flat_map. exists (i, irq). rewrite <-list_elem_of_In. split; [done |].
      apply in_flat_map. exists k. split; [apply in_seq; cbn; lia | by apply list_elem_of_In].
Qed.

(** On a run: two voltage messages in the first turns, and what they publish. *)
Lemma published_was_received_witness :
  let fs := [(M414, (8, [16; 14; 16; 14; 16; 14; 16; 14])); (M499, (6, [0; 1; 0; 1; 8; 50]))] in
  let ts := [(gone, fun k => if (k =? 10)%nat then fs else [])] in
  exists s, battery_init [fs] (1, 0) battery_reset = InitOk s /\
    take 2 (published (battery_rx_thread ts s)) = [PubVoltages 3600 3600 3600 3600 0; PubCapacity 50] /\
    Forall (pub_genuine (sent_in (all_frames [fs] ts)) (supply_read ts) (corded_found (1, 0) ts))
      (published (battery_rx_thread ts s)).
Proof.
  intros fs ts. pose proof (published_was_received [fs] (1, 0) ts) as H.
  destruct (battery_init [fs] (1, 0) battery_reset) as [s | s] eqn:E; [| discriminate E].
  exists s. split; [reflexivity |]. split; [| exact H]. injection E as <-. reflexivity.
Defined.

(** The flags of 0x490 to 0x492 outlive the data: after the buffers are cleared
    for a new battery, the hardware revision and the state of charge that are
    published are zeros, though the battery has sent others and the new one has
    sent none. *)
Example cleared_data_published :
  let s := handle M491 [0; 0; 0; 0; 0; 0; 0; 5] (handle M492 [2; 3; 0; 0; 0; 0; 0; 0] battery_reset) in
  let info s := omap (fun p => match p with
                  | PubInfoHwFw _ hw _ _ _ _ => Some hw | PubInfoSocAndStatistics soc _ _ _ _ => option_map Some (option_map fst soc)
                  | _ => None end) (published (publish_battery_info [] s)) in
  info s = [Some 5; Some 2] /\ info (clear_can_message_buffers s) = [Some 0; Some 0].
Proof. split; reflexivity. Qed.

(** A corded supply found at the start is forgotten by the first turn, which takes
    the invented voltages for a battery, and found again by the second. *)
Example corded_forgotten :
  let corded := Turn false (0, 16000) (0, 16000) 0 false (SendFails, SendFails, SendFails, SendFails) [] in
  match battery_init [] (0, 16000) battery_reset with
  | InitOk s =>
      let s1 := battery_turn corded (fun _ => []) s in
      (corded_power_supply s, corded_power_supply s1, corded_power_supply (battery_turn corded (fun _ => []) s1))
      = (true, false, true)
  | InitLowBattery _ => False
  end.
Proof. reflexivity. Qed.

(** ** The firmware hash of the battery *)

(** The digits of a 32-bit value, as the battery sends them. *)
Definition hex_char (d : Z) : Z := if d <? 10 then 48 + d else 87 + d.

Fixpoint hex_digits (n : nat) (v : Z) : bytes :=
  match n with O => [] | S n => hex_digits n (v / 16) ++ [hex_char (v mod 16)] end.

Lemma hex_digit_char d : 0 <= d < 16 -> hex_digit (hex_char d) = Some d.
Proof.
  intros Hd. assert (all_below 16 (fun d => bool_decide (hex_digit (hex_char d) = Some d)) = true) as H by reflexivity.
  by apply (all_below_spec 16 _ H), bool_decide_eq_true_1 in Hd.
Qed.

Lemma hex_value_app l k acc : Forall (fun c => hex_digit c <> None) l ->
  hex_value (l ++ k) acc = hex_value k (hex_value l acc).
Proof.
  revert acc. induction l as [|c l IH]; intros acc Hl; [done |]. apply Forall_cons in Hl as [Hc Hl].
  cbn [app hex_value]. destruct (hex_digit c); [by apply IH | done].
Qed.

Lemma hex_digits_are n : forall v, Forall (fun c => hex_digit c <> None) (hex_digits n v).
Proof.
  induction n as [|n IH]; intros v; [constructor |]. apply Forall_app. split; [apply IH |].
  repeat constructor. rewrite hex_digit_char; [done |]. apply Z.mod_pos_bound. lia.
Qed.

Lemma hex_digits_value n : forall v acc, 0 <= v < 16 ^ Z.of_nat n ->
  hex_value (hex_digits n v) acc = acc * 16 ^ Z.of_nat n + v.
Proof.
  induction n as [|n IH]; intros v acc Hv.
  - change (16 ^ Z.of_nat 0) with 1 in *. cbn. lia.
  - rewrite Nat2Z.inj_succ, Z.pow_succ_r in * by lia. cbn [hex_digits].
    rewrite hex_value_app by apply hex_digits_are. rewrite IH by (split; [apply Z.div_pos | apply Z.div_lt_upper_bound]; lia).
    cbn [hex_value]. rewrite hex_digit_char by (apply Z.mod_pos_bound; lia).
    pose proof (Z.div_mod v 16). lia.
Qed.

Lemma hex_digit_range c : hex_digit c <> None -> 48 <= c <= 57 \/ 97 <= c <= 102 \/ 65 <= c <= 70.
Proof. unfold hex_digit. bdestruct_all; done. Qed.

(** A string of digits has no spaces, sign or prefix. *)
Lemma strtol16_digits l :
  (exists n, (2 <= n)%nat /\ length (take n l) = n /\ Forall (fun c => hex_digit c <> None) (take n l)) ->
  strtol16 l = Z.max (- 2 ^ 31) (Z.min (2 ^ 31 - 1) (hex_value l 0)).
Proof.
  intros (n & Hn & Hlen & Hf). destruct n as [|[|n]]; [lia | lia |].
  destruct l as [|c [|x l]]; [done | done |]. cbn [take] in Hf.
  apply Forall_cons in Hf as [Hc%hex_digit_range Hf]. apply Forall_cons in Hf as [Hx%hex_digit_range _].
  unfold strtol16. cbn [skip_spaces]. unfold is_space. bfalse (c =? 32). bfalse (c <=? 13). rewrite andb_false_r.
  cbn [orb]. bfalse (c =? 45). bfalse (c =? 43). unfold skip_0x.
  bfalse (x =? 120). bfalse (x =? 88). rewrite andb_false_r. by destruct l.
Qed.

(** The commit hash of the battery's firmware, eight hexadecimal digits, is
    published exactly when it is below 2^31; from 2^31 on, half of all hashes, the
    32-bit [strtol] saturates and 7fffffff is published instead.  The memory after
    the digits must not continue with another digit. *)
Theorem battery_hash_saturates s v after :
  0 <= v < 2 ^ 32 -> states s M523 = hex_digits 8 v ->
  match after with c :: _ => hex_digit c = None | [] => True end ->
  exists id hw a b c, In (PubInfoHwFw id hw a b c (if v <? 2 ^ 31 then v else 2 ^ 31 - 1))
    (published (publish_battery_info after s)).
Proof.
  intros Hv Hd Ha. unfold publish_battery_info. rewrite Hd.
  change (take 8 (hex_digits 8 v)) with (hex_digits 8 v). cbv zeta. do 5 eexists.
  cbn [publish set_effects published]. apply in_app_iff. left. apply in_app_iff. left. apply in_app_iff. right. left.
  f_equal. rewrite strtol16_digits.
  - rewrite hex_value_app by apply hex_digits_are. rewrite hex_digits_value by exact Hv. rewrite Z.mul_0_l, Z.add_0_l.
    assert (hex_value after v = v) as -> by (destruct after as [|c k]; [done | cbn; by rewrite Ha]).
    change (2 ^ 31) with 2147483648 in *. change (2 ^ 32) with 4294967296 in *.
    rewrite u32_small by lia. destruct (Z.ltb_spec v 2147483648); lia.
  - exists 8%nat. pose proof (hex_digits_are 8 v) as Hf. split; [lia |]. by rewrite take_app_length' by done.
Qed.

Lemma battery_hash_saturates_witness :
  let s := handle M523 [57; 97; 98; 99; 100; 101; 102; 48] battery_reset in     (* 9abcdef0 *)
  exists id hw a b c, In (PubInfoHwFw id hw a b c 2147483647) (published (publish_battery_info [1] s)).
Proof.
  intros s. apply (battery_hash_saturates s 2596069104 [1]); [lia | reflexivity | reflexivity].
Defined.
