(* ===== verification/BatteryAmber.v ===== *)
(** Battery of the Diamond: main_board/src/power/battery/battery_amber.c.  The
    battery's gauge (a BQ4050) is read over I2C, once a second; the thread
    publishes what it read and restarts the Orb when the battery is low or gone. *)

From S2P Require Import Prelude.
From S2P Require BatteryRuby.

(** The thresholds of battery.h are those of [BatteryRuby]. *)
Definition RUNTIME_MV : Z := BatteryRuby.BATTERY_MINIMUM_VOLTAGE_RUNTIME_MV.
Definition STARTUP_MV : Z := BatteryRuby.BATTERY_MINIMUM_VOLTAGE_STARTUP_MV.

Definition BATTERY_INFO_SEND_PERIOD_MS : Z := 1000.
Definition BATTERY_MESSAGES_REMOVED_TIMEOUT_MS : Z := BATTERY_INFO_SEND_PERIOD_MS * 4.
Definition BATTERY_MESSAGES_FORCE_REBOOT_TIMEOUT_MS : Z := BATTERY_INFO_SEND_PERIOD_MS * 10.

Definition BQ4050_CMD_CURRENT : Z := 10.
Definition BQ4050_CMD_RELATIVE_STATE_OF_CHARGE : Z := 13.
Definition BQ4050_CMD_FULL_CHARGE_CAPACITY : Z := 16.
Definition BQ4050_CMD_CYCLE_COUNT : Z := 23.
Definition BQ4050_CMD_SERIAL_NUMBER : Z := 28.
Definition BQ4050_CMD_MANUFACTURER_BLOCK_ACCESS : Z := 68.
Definition BQ4050_CMD_STATE_OF_HEALTH : Z := 79.
Definition BQ4050_BLK_CMD_FIRMWARE_VERSION : Z := 2.
Definition BQ4050_BLK_CMD_LIFETIME_DATA_1 : Z := 96.
Definition BQ4050_BLK_CMD_MANUFACTURER_INFO : Z := 112.
Definition BQ4050_BLK_CMD_DA_STATUS_1 : Z := 113.
Definition BQ4050_BLK_CMD_DA_STATUS_2 : Z := 114.

(** ** The bus

    Zephyr's I2C calls, as what the gauge answers: a write; a command and the
    bytes read after it; a command read in two parts, after the bytes last
    written.  The code is 0 when the transaction succeeds. *)
Record bus := Bus {
  i2c_write : bytes -> Z;
  i2c_write_read : Z -> Z -> Z * bytes;
  i2c_transfer : bytes -> Z -> Z -> Z -> Z * bytes * bytes;
}.

(** [data] is left as it was by a failed read. *)
Definition bq4050_read_block (i : bus) (command : Z) (data : bytes) (size : Z) : Z * bytes :=
  let tx_data := [BQ4050_CMD_MANUFACTURER_BLOCK_ACCESS; 2; u8 command; u8 (Z.shiftr command 8)] in
  let ret := i2c_write i tx_data in
  if negb (ret =? 0) then (ret, data)
  else
    let '(ret, _, rx) := i2c_transfer i tx_data BQ4050_CMD_MANUFACTURER_BLOCK_ACCESS 3 size in
    if negb (ret =? 0) then (ret, data) else (0, rx).

Definition bq4050_read_word (i : bus) (command : Z) : option Z :=
  let '(ret, rx) := i2c_write_read i command 2 in
  if negb (ret =? 0) then None else Some (Z.lor (Z.shiftl (u8 (nthZ rx 1)) 8) (u8 (nthZ rx 0))).

(** The readings: [None] is [RET_ERROR_INTERNAL]. *)
Definition bq4050_read_firmware_build_number (i : bus) : option Z :=
  let '(ret, d) := bq4050_read_block i BQ4050_BLK_CMD_FIRMWARE_VERSION (fill 6 0) 6 in
  if negb (ret =? 0) then None else Some (Z.lor (Z.shiftl (u8 (nthZ d 5)) 8) (u8 (nthZ d 4))).

Definition bq4050_read_cycle_count (i : bus) : option Z := bq4050_read_word i BQ4050_CMD_CYCLE_COUNT.
Definition bq4050_read_current (i : bus) : option Z := option_map s16 (bq4050_read_word i BQ4050_CMD_CURRENT).
Definition bq4050_read_relative_state_of_charge (i : bus) : option Z :=
  option_map u8 (bq4050_read_word i BQ4050_CMD_RELATIVE_STATE_OF_CHARGE).
Definition bq4050_read_full_charge_capacity (i : bus) : option Z := bq4050_read_word i BQ4050_CMD_FULL_CHARGE_CAPACITY.
Definition bq4050_read_serial_number (i : bus) : option Z := bq4050_read_word i BQ4050_CMD_SERIAL_NUMBER.
Definition bq4050_read_state_of_health (i : bus) : option Z := option_map u8 (bq4050_read_word i BQ4050_CMD_STATE_OF_HEALTH).

(** ** State, and what is handed to [publish_new] *)

Inductive amber_pub :=
| PubVoltages (cell1 cell2 cell3 cell4 corded_power_supply_mv : Z)
| PubCapacity (percentage : Z)
| PubIsCharging (charging : bool)
| PubPcbTemperature (celsius : Z)
| PubCellTemperature (celsius : Z)
| PubDiagCommon (current_ma : Z)
| PubInfoHwFw (mcu_id : bytes) (revision : option Z) (build_number : Z)    (* IDU139GA-R0n *)
| PubInfoSocAndStatistics (number_of_charges : Z)
| PubInfoMaxValues (capacity cell_temp pcb_temp charge_current discharge_current : Z)
| PubStateOfHealth (percentage : Z)
| PubShutdown (ms_until_shutdown : Z).

Record amber := Amber {
  battery_cap : Z;
  is_charging : bool;
  corded_power_supply : bool;
  battery_messages_timeout : Z;             (* locals of the thread *)
  shutdown_scheduled_sent : Z;
  published : list amber_pub;
  reboots : list Z;
}.

Definition publish (p : amber_pub) (s : amber) : amber :=
  Amber (battery_cap s) (is_charging s) (corded_power_supply s) (battery_messages_timeout s)
    (shutdown_scheduled_sent s) (published s ++ [p]) (reboots s).
Definition ask_reboot (delay_s : Z) (s : amber) : amber :=
  Amber (battery_cap s) (is_charging s) (corded_power_supply s) (battery_messages_timeout s)
    (shutdown_scheduled_sent s) (published s) (reboots s ++ [delay_s]).
Definition set_cap (c : Z) (s : amber) : amber :=
  Amber c (is_charging s) (corded_power_supply s) (battery_messages_timeout s)
    (shutdown_scheduled_sent s) (published s) (reboots s).
Definition set_charging (c : bool) (s : amber) : amber :=
  Amber (battery_cap s) c (corded_power_supply s) (battery_messages_timeout s)
    (shutdown_scheduled_sent s) (published s) (reboots s).
Definition set_link (corded : bool) (timeout sent : Z) (s : amber) : amber :=
  Amber (battery_cap s) (is_charging s) corded timeout sent (published s) (reboots s).

(** ** A turn of the thread

    Every stage returns how many readings succeeded. *)

Definition check_battery_voltage (battery_voltage_mv : Z) (s : amber) : amber :=
  if u16 battery_voltage_mv <? RUNTIME_MV then ask_reboot 1 s else s.

Definition voltage_stage (i : bus) (corded_mv : Z * Z) (s : amber) : Z * amber :=
  let '(ret, d) := bq4050_read_block i BQ4050_BLK_CMD_DA_STATUS_1 (fill 8 0) 8 in
  if ret =? 0 then
    let c1 := get16 d 0 in let c2 := get16 d 2 in let c3 := get16 d 4 in let c4 := get16 d 6 in
    (1, publish (PubVoltages c1 c2 c3 c4 0) (check_battery_voltage (u32 (c1 + c2 + c3 + c4)) s))
  else if corded_power_supply s && (corded_mv.1 =? RET_SUCCESS) then
    let mv := corded_mv.2 in let q := Z.quot mv 4 in
    (0, publish (PubVoltages q q q q mv) s)
  else (0, s).

Definition capacity_stage (i : bus) (s : amber) : Z * amber :=
  match bq4050_read_relative_state_of_charge i with
  | Some soc => (1, publish (PubCapacity soc) (set_cap soc s))
  | None => (0, if corded_power_supply s then publish (PubCapacity 100) (set_cap 100 s) else s)
  end.

Definition kelvin_offset_decidegrees : Z := -2732.

Definition temperature_stage (i : bus) (s : amber) : Z * amber :=
  let '(ret, d) := bq4050_read_block i BQ4050_BLK_CMD_DA_STATUS_2 (fill 14 0) 14 in
  if ret =? 0 then
    let decidegrees o := s16 (s16 (get16 d o) + kelvin_offset_decidegrees) in
    (1, publish (PubCellTemperature (Z.quot (decidegrees 6) 10))
          (publish (PubPcbTemperature (Z.quot (decidegrees 4) 10)) s))
  else (0, s).

Definition current_stage (i : bus) (s : amber) : Z * amber :=
  let '(n, s) :=
    match bq4050_read_current i with
    | Some current_ma => (1, set_charging (0 <? current_ma) (publish (PubDiagCommon current_ma) s))
    | None => (0, if corded_power_supply s then set_charging true s else s)
    end in
  (n, publish (PubIsCharging (is_charging s)) s).

(** "IDU139GA-R0", and the digit after it. *)
Definition pcb_version : bytes := [73; 68; 85; 49; 51; 57; 71; 65; 45; 82; 48].

Definition revision (info : bytes) : option Z :=
  if bool_decide (take 11 info = pcb_version) then
    let c := nthZ info 11 in if (48 <=? c) && (c <=? 51) then Some (c - 48) else None
  else None.

Definition info_stage (i : bus) (s : amber) : Z * amber :=
  let serial := bq4050_read_serial_number i in
  let serial_number := default 65535 serial in
  let mcu_id := fill 10 0 ++ [u8 (Z.shiftr serial_number 8); u8 serial_number] in
  let '(ret, info) := bq4050_read_block i BQ4050_BLK_CMD_MANUFACTURER_INFO (fill 33 0) 32 in
  let hw := if ret =? 0 then revision info else None in
  let n := zbool (bool_decide (serial <> None)) + zbool (ret =? 0) in
  match bq4050_read_firmware_build_number i with
  | Some build => (n + 1, publish (PubInfoHwFw mcu_id hw build) s)
  | None => (n, s)
  end.

Definition cycle_stage (i : bus) (s : amber) : Z * amber :=
  match bq4050_read_cycle_count i with
  | Some c => (1, publish (PubInfoSocAndStatistics c) s)
  | None => (0, s)
  end.

Definition max_values_stage (i : bus) (s : amber) : Z * amber :=
  let full := bq4050_read_full_charge_capacity i in
  let '(ret, d) := bq4050_read_block i BQ4050_BLK_CMD_LIFETIME_DATA_1 (fill 32 0) 32 in
  let n := zbool (bool_decide (full <> None)) in
  if ret =? 0 then
    let discharge := s16 (get16 d 20) in
    (n + 1, publish (PubInfoMaxValues (default 0 full)
       (Z.max (s8 (u8 (nthZ d 26))) 0 * 10) (Z.max (s8 (u8 (nthZ d 31))) 0 * 10) (get16 d 18)
       (if 0 <? discharge then 0 else - discharge)) s)
  else (n, s).

Definition health_stage (i : bus) (s : amber) : Z * amber :=
  match bq4050_read_state_of_health i with
  | Some h => (1, publish (PubStateOfHealth h) s)
  | None => (0, s)
  end.

(** What a turn sees besides the bus: the supply voltage (code and millivolts)
    for the corded branch and for the check of the battery, the result of
    publishing the shutdown. *)
Record turn := Turn {
  in_bus : bus;
  in_corded_mv : Z * Z;
  in_vbat_mv : Z * Z;
  in_shutdown_ret : Z;
}.

(** Nothing could be read.  The restart is asked for inside the branch that
    announces it. *)
Definition absent_stage (i : turn) (s : amber) : amber :=
  let '(err_code, mv) := in_vbat_mv i in
  let vbat_sw_voltage_mv := if err_code =? RET_SUCCESS then mv else 0 in
  if vbat_sw_voltage_mv <? RUNTIME_MV then
    let t := u32 (battery_messages_timeout s + BATTERY_INFO_SEND_PERIOD_MS) in
    let s := set_link (corded_power_supply s) t (shutdown_scheduled_sent s) s in
    if (BATTERY_MESSAGES_REMOVED_TIMEOUT_MS <=? t) && negb (shutdown_scheduled_sent s =? RET_SUCCESS) then
      let s := set_link (corded_power_supply s) t (in_shutdown_ret i)
                 (publish (PubShutdown (u32 (BATTERY_MESSAGES_FORCE_REBOOT_TIMEOUT_MS - t))) s) in
      if BATTERY_MESSAGES_FORCE_REBOOT_TIMEOUT_MS <=? t then ask_reboot 0 s else s
    else s
  else if (err_code =? RET_SUCCESS) && (STARTUP_MV <? vbat_sw_voltage_mv)
  then set_link true (battery_messages_timeout s) (shutdown_scheduled_sent s) s
  else s.

Definition stages (i : turn) : list (amber -> Z * amber) :=
  let b := in_bus i in
  [voltage_stage b (in_corded_mv i); capacity_stage b; temperature_stage b; current_stage b; info_stage b;
   cycle_stage b; max_values_stage b; health_stage b].

(** The stages in order, with the count of successful readings. *)
Fixpoint run_stages (fs : list (amber -> Z * amber)) (n : Z) (s : amber) : Z * amber :=
  match fs with
  | [] => (n, s)
  | f :: fs => let '(k, s) := f s in run_stages fs (n + k) s
  end.

Definition battery_turn (i : turn) (s : amber) : amber :=
  let '(got, s) := run_stages (stages i) 0 s in
  if 0 <? got then set_link false 0 RET_ERROR_NOT_INITIALIZED s else absent_stage i s.

Definition battery_rx_thread (ts : list turn) (s : amber) : amber := fold_left (fun s i => battery_turn i s) ts s.

(** ** Start: [battery_init], once the bus is ready

    The checks read the gauge every 100 ms, up to 20 times. *)
Inductive init_result := InitOk (s : amber) | InitLowBattery (s : amber).

Fixpoint wait_for_voltages (checks : list bus) (voltage percentage : Z) (got : bool) : Z * Z * bool :=
  match checks with
  | [] => (voltage, percentage, got)
  | i :: checks =>
      let '(ret, d) := bq4050_read_block i BQ4050_BLK_CMD_DA_STATUS_1 (fill 8 0) 8 in
      let got := got || (ret =? 0) in
      let voltage := u32 (get16 d 0 + get16 d 2 + get16 d 4 + get16 d 6) in
      let percentage := default percentage (bq4050_read_relative_state_of_charge i) in
      if BatteryRuby.charged voltage percentage then (voltage, percentage, got)
      else wait_for_voltages checks voltage percentage got
  end.

Definition battery_init (checks : list bus) (vbat : Z * Z) (s : amber) : init_result :=
  let '(full_voltage_mv, percentage, got) :=
    wait_for_voltages (take BatteryRuby.WAIT_FOR_VOLTAGES_CHECKS checks) 0 0 false in
  let '(full_voltage_mv, percentage, s) :=
    if got then (full_voltage_mv, percentage, s)
    else
      let full_voltage_mv := if vbat.1 =? RET_SUCCESS then u32 vbat.2 else full_voltage_mv in
      if STARTUP_MV <=? full_voltage_mv
      then (full_voltage_mv, 100, set_link true (battery_messages_timeout s) (shutdown_scheduled_sent s) s)
      else (full_voltage_mv, percentage, s) in
  if BatteryRuby.charged full_voltage_mv percentage then InitOk s else InitLowBattery s.

Definition amber_reset : amber := Amber 0 false false 0 RET_ERROR_NOT_INITIALIZED [] [].

(** ** The battery is taken out *)

Definition notices (s : amber) : list Z :=
  omap (fun p => match p with PubShutdown ms => Some ms | _ => None end) (published s).

Definition bus_dead (i : bus) : Prop :=
  (forall tx, i2c_write i tx <> 0) /\ (forall c n, (i2c_write_read i c n).1 <> 0).

Lemma dead_block i command data size : bus_dead i ->
  exists ret, bq4050_read_block i command data size = (ret, data) /\ (ret =? 0) = false.
Proof.
  intros [Hw _]. unfold bq4050_read_block. specialize (Hw [BQ4050_CMD_MANUFACTURER_BLOCK_ACCESS; 2; u8 command; u8 (Z.shiftr command 8)]).
  apply Z.eqb_neq in Hw. rewrite Hw. cbn [negb]. by eexists.
Qed.

Lemma dead_word i command : bus_dead i -> bq4050_read_word i command = None.
Proof.
  intros [_ Hr]. unfold bq4050_read_word. specialize (Hr command 2). destruct (i2c_write_read i command 2) as [ret rx].
  cbn in Hr. apply Z.eqb_neq in Hr. by rewrite Hr.
Qed.

(** A stage that reads nothing counts nothing and leaves the link alone. *)
Definition idle (f : amber -> Z * amber) : Prop :=
  forall s, (f s).1 = 0 /\ battery_messages_timeout (f s).2 = battery_messages_timeout s /\
    shutdown_scheduled_sent (f s).2 = shutdown_scheduled_sent s /\ reboots (f s).2 = reboots s /\
    notices (f s).2 = notices s.

Lemma amber_notices_publish p s : match p with PubShutdown _ => False | _ => True end -> notices (publish p s) = notices s.
Proof. intros Hp. unfold notices. cbn. rewrite omap_app. destruct p; try done; cbn; by rewrite app_nil_r. Qed.

Lemma dead_stages i : bus_dead (in_bus i) -> Forall idle (stages i).
Proof.
  intros Hd. unfold stages, idle. repeat (apply List.Forall_cons; [intros s |]); [.. | constructor].
  - unfold voltage_stage. edestruct dead_block as (r & -> & ->); [done |].
    destruct (_ && _); cbn [fst snd]; rewrite ?amber_notices_publish; done.
  - unfold capacity_stage, bq4050_read_relative_state_of_charge. rewrite dead_word by done. cbn [option_map fst snd].
    destruct (corded_power_supply s); rewrite ?amber_notices_publish; done.
  - unfold temperature_stage. edestruct dead_block as (r & -> & ->); done.
  - unfold current_stage, bq4050_read_current. rewrite dead_word by done. cbn [option_map fst snd].
    destruct (corded_power_supply s); rewrite ?amber_notices_publish; done.
  - unfold info_stage, bq4050_read_serial_number, bq4050_read_firmware_build_number. rewrite dead_word by done.
    edestruct (dead_block (in_bus i) BQ4050_BLK_CMD_MANUFACTURER_INFO) as (r & -> & ->); [done |].
    edestruct (dead_block (in_bus i) BQ4050_BLK_CMD_FIRMWARE_VERSION) as (r' & -> & ->); [done |]. by cbn.
  - unfold cycle_stage, bq4050_read_cycle_count. by rewrite dead_word by done.
  - unfold max_values_stage, bq4050_read_full_charge_capacity. rewrite dead_word by done.
    edestruct dead_block as (r & -> & ->); [done |]. by cbn.
  - unfold health_stage, bq4050_read_state_of_health. by rewrite dead_word by done.
Qed.

Lemma run_idle fs : forall n s, Forall idle fs ->
  (run_stages fs n s).1 = n /\ battery_messages_timeout (run_stages fs n s).2 = battery_messages_timeout s /\
  shutdown_scheduled_sent (run_stages fs n s).2 = shutdown_scheduled_sent s /\
  reboots (run_stages fs n s).2 = reboots s /\ notices (run_stages fs n s).2 = notices s.
Proof.
  induction fs as [|f fs IH]; intros n s Hf; [done |]. apply Forall_cons in Hf as [Hi Hf]. cbn [run_stages].
  destruct (Hi s) as (E1 & E2 & E3 & E4 & E5). destruct (f s) as [k s1]. cbn [fst snd] in *. subst k.
  destruct (IH (n + 0) s1 Hf) as (F1 & F2 & F3 & F4 & F5). rewrite F1, F2, F3, F4, F5. split_and!; (lia || congruence).
Qed.

Definition supply_lost (i : turn) : Prop :=
  (in_vbat_mv i).1 <> RET_SUCCESS \/ (in_vbat_mv i).2 < RUNTIME_MV.

(** A turn without a battery. *)
Lemma lost_turn i s t : bus_dead (in_bus i) -> supply_lost i ->
  u32 (battery_messages_timeout s + BATTERY_INFO_SEND_PERIOD_MS) = t ->
  let s' := battery_turn i s in
  let warn := (BATTERY_MESSAGES_REMOVED_TIMEOUT_MS <=? t) && negb (shutdown_scheduled_sent s =? RET_SUCCESS) in
  battery_messages_timeout s' = t /\
  shutdown_scheduled_sent s' = (if warn then in_shutdown_ret i else shutdown_scheduled_sent s) /\
  notices s' = notices s ++ (if warn then [u32 (BATTERY_MESSAGES_FORCE_REBOOT_TIMEOUT_MS - t)] else []) /\
  reboots s' = reboots s ++ (if warn && (BATTERY_MESSAGES_FORCE_REBOOT_TIMEOUT_MS <=? t) then [0] else []).
Proof.
  intros Hd Hl Ht. unfold battery_turn. destruct (run_idle (stages i) 0 s (dead_stages i Hd)) as (E1 & E2 & E3 & E4 & E5).
  destruct (run_stages (stages i) 0 s) as [got s1]. cbn [fst snd] in *. subst got. cbn [Z.ltb Z.compare].
  unfold absent_stage, supply_lost in *. destruct (in_vbat_mv i) as [err mv]. cbn [fst snd] in Hl.
  replace ((if err =? RET_SUCCESS then mv else 0) <? RUNTIME_MV) with true.
  2:{ symmetry. apply Z.ltb_lt. destruct (Z.eqb_spec err RET_SUCCESS); [tauto | done]. }
  rewrite E2, Ht. cbv zeta. cbn [shutdown_scheduled_sent set_link]. rewrite E3.
  destruct (_ && negb _); cbn [andb].
  - destruct (_ <=? t); cbn; rewrite ?app_nil_r, ?E4; split_and!; try done;
      unfold notices; cbn; rewrite omap_app; fold (notices s1); by rewrite E5.
  - cbn. rewrite !app_nil_r. by rewrite E4.
Qed.

Definition battery_gone (i : turn) : Prop := bus_dead (in_bus i) /\ supply_lost i.

(** The message is handed over: no reset. *)
Lemma heard_run ts s :
  battery_messages_timeout s = 0 -> shutdown_scheduled_sent s <> RET_SUCCESS -> Forall battery_gone ts ->
  Forall (fun i => in_shutdown_ret i = RET_SUCCESS) ts ->
  reboots (battery_rx_thread ts s) = reboots s /\
  ((zlen ts < 4 /\ shutdown_scheduled_sent (battery_rx_thread ts s) <> RET_SUCCESS /\
    battery_messages_timeout (battery_rx_thread ts s) = zlen ts * 1000 /\
    notices (battery_rx_thread ts s) = notices s) \/
   (4 <= zlen ts /\ shutdown_scheduled_sent (battery_rx_thread ts s) = RET_SUCCESS /\
    notices (battery_rx_thread ts s) = notices s ++ [6000])).
Proof.
  intros H0 Hs Hg Hp.
  induction ts as [|i ts IH] using rev_ind.
  { split; [done |]. left. split_and!; done. }
  apply Forall_app in Hg as [Hg [Hd Hl]%Forall_singleton]. apply Forall_app in Hp as [Hp Hi].
  rewrite Forall_singleton in Hi.
  destruct (IH Hg Hp) as [E1 D]. unfold battery_rx_thread. rewrite fold_left_app. cbn [fold_left].
  fold (battery_rx_thread ts s). set (u := battery_rx_thread ts s) in *.
  destruct (lost_turn i u _ Hd Hl eq_refl) as (A1 & A2 & A3 & A4). rewrite A1, A2, A3, A4, E1, Hi.
  rewrite zlen_app. change (zlen [i]) with 1. pose proof (zlen_nonneg ts).
  unfold BATTERY_MESSAGES_REMOVED_TIMEOUT_MS, BATTERY_MESSAGES_FORCE_REBOOT_TIMEOUT_MS, BATTERY_INFO_SEND_PERIOD_MS.
  destruct D as [(L & Hn & Ht & E2) | (L & Hn & E2)]; rewrite E2.
  + rewrite Ht, u32_small by lia. apply Z.eqb_neq in Hn. rewrite Hn. cbn [negb]. rewrite andb_true_r.
    bfalse (1000 * 10 <=? zlen ts * 1000 + 1000). rewrite andb_false_r, app_nil_r. split; [done |].
    destruct (Z.leb_spec (1000 * 4) (zlen ts * 1000 + 1000)).
    * right. split_and!; [lia | done |]. by replace (zlen ts) with 3 by lia.
    * left. rewrite app_nil_r. apply Z.eqb_neq in Hn. split_and!; (lia || done).
  + rewrite Hn. cbn [Z.eqb negb RET_SUCCESS Pos.eqb]. rewrite andb_false_r. cbn [andb]. rewrite !app_nil_r.
    split; [done |]. right. split_and!; (lia || done).
Qed.

(** It never is: a reset is asked for after ten seconds. *)
Lemma unheard_run ts s :
  battery_messages_timeout s = 0 -> shutdown_scheduled_sent s <> RET_SUCCESS -> Forall battery_gone ts ->
  Forall (fun i => in_shutdown_ret i <> RET_SUCCESS) ts -> zlen ts * 1000 < 4294967296 ->
  reboots (battery_rx_thread ts s) = reboots s ++ replicate (length ts - 9) 0 /\
  shutdown_scheduled_sent (battery_rx_thread ts s) <> RET_SUCCESS /\
  battery_messages_timeout (battery_rx_thread ts s) = zlen ts * 1000.
Proof.
  intros H0 Hs Hg Hp HL.
  induction ts as [|i ts IH] using rev_ind.
  { cbn. rewrite app_nil_r. done. }
  apply Forall_app in Hg as [Hg [Hd Hl]%Forall_singleton]. apply Forall_app in Hp as [Hp Hi].
  rewrite Forall_singleton in Hi.
  rewrite zlen_app in HL |- *. change (zlen [i]) with 1 in HL |- *. pose proof (zlen_nonneg ts).
  destruct IH as (E1 & Hn & Ht); [done | done | lia |].
  unfold battery_rx_thread. rewrite fold_left_app. cbn [fold_left]. fold (battery_rx_thread ts s).
  set (u := battery_rx_thread ts s) in *.
  destruct (lost_turn i u _ Hd Hl eq_refl) as (A1 & A2 & A3 & A4). rewrite A1, A2, A4, E1, Ht, <- app_assoc.
  unfold BATTERY_MESSAGES_REMOVED_TIMEOUT_MS, BATTERY_MESSAGES_FORCE_REBOOT_TIMEOUT_MS, BATTERY_INFO_SEND_PERIOD_MS.
  rewrite u32_small by lia. apply Z.eqb_neq in Hn. rewrite Hn. cbn [negb]. rewrite andb_true_r.
  split; [| split; [| lia]].
  + f_equal. rewrite length_app. cbn [length]. unfold zlen in *.
    destruct (Z.leb_spec (1000 * 10) (Z.of_nat (length ts) * 1000 + 1000)).
    * btrue (1000 * 4 <=? Z.of_nat (length ts) * 1000 + 1000). cbn [andb].
      rewrite BatteryRuby.replicate_snoc. f_equal. lia.
    * rewrite andb_false_r, app_nil_r. f_equal. lia.
  + destruct (1000 * 4 <=? _); [done | by apply Z.eqb_neq].
Qed.

(** When the battery of a Diamond is taken out and nothing else powers the
    Orb, the fourth turn tells the Jetson that it shuts down in six seconds.  If the
    message is handed over, the reset it announces never comes, however long the
    battery stays away: it is only asked for while the message still has to be
    sent.  If the message can never be sent, a reset is asked for on every turn from
    the tenth on. *)
Theorem removed_battery_outcome ts s :
  battery_messages_timeout s = 0 -> shutdown_scheduled_sent s <> RET_SUCCESS -> Forall battery_gone ts ->
  let s' := battery_rx_thread ts s in
  (Forall (fun i => in_shutdown_ret i = RET_SUCCESS) ts ->
     reboots s' = reboots s /\ notices s' = notices s ++ (if 4 <=? zlen ts then [6000] else [])) /\
  (Forall (fun i => in_shutdown_ret i <> RET_SUCCESS) ts -> zlen ts * BATTERY_INFO_SEND_PERIOD_MS < 2 ^ 32 ->
     reboots s' = reboots s ++ replicate (length ts - 9) 0).
Proof.
  intros H0 Hs Hg. split.
  - intros Hp. destruct (heard_run ts s) as [E1 [(L & _ & _ & E2) | (L & _ & E2)]]; [done.. | |]; rewrite E2.
    + bfalse (4 <=? zlen ts). by rewrite app_nil_r.
    + by btrue (4 <=? zlen ts).
  - intros Hp HL. by apply unheard_run.
Qed.

Definition dead_bus : bus := Bus (fun _ => 5) (fun _ _ => (5, [])) (fun _ _ _ _ => (5, [], [])).

Lemma removed_battery_outcome_witness :
  let lost ret := Turn dead_bus (0, 0) (0, 9000) ret in
  (reboots (battery_rx_thread (replicate 1000 (lost 0)) amber_reset) = [] /\
   notices (battery_rx_thread (replicate 1000 (lost 0)) amber_reset) = [6000]) /\
  reboots (battery_rx_thread (replicate 12 (lost 8)) amber_reset) = [0; 0; 0].
Proof.
  intros lost.
  assert (forall n r, Forall battery_gone (replicate n (lost r))) as Hg.
  { intros n r. apply Forall_replicate. split; [by split | by right]. }
  split.
  - destruct (removed_battery_outcome (replicate 1000 (lost 0)) amber_reset eq_refl ltac:(done) (Hg _ _)) as [H _].
    apply H. by apply Forall_replicate.
  - destruct (removed_battery_outcome (replicate 12 (lost 8)) amber_reset eq_refl ltac:(done) (Hg _ _)) as [_ H].
    apply H; [by apply Forall_replicate | done].
Defined.
