(* ===== verification/Voltage.v ===== *)
(** Measurement of the supply voltages: main_board/src/voltage_measurement.  The
    converters sample continuously and their callbacks keep the current, lowest and
    highest reading of every channel; a thread publishes them, and a self-test
    checks them against their ranges. *)

From S2P Require Import Prelude Floats Power.
From Stdlib Require Import SpecFloat.

(** ** Channels: voltage_measurement.h, the device tree *)

Inductive channel :=
| CHANNEL_VBAT_SW | CHANNEL_3V3_SSD_3V8 | CHANNEL_3V3_WIFI | CHANNEL_PVCC | CHANNEL_12V | CHANNEL_12V_CAPS
| CHANNEL_V_SCAP_LOW | CHANNEL_V_SCAP_HIGH | CHANNEL_DIE_TEMP | CHANNEL_3V3_UC | CHANNEL_1V8_SEC
| CHANNEL_4V7_SEC | CHANNEL_1V8 | CHANNEL_3V3 | CHANNEL_5V | CHANNEL_3V6 | CHANNEL_3V3_LTE | CHANNEL_3V3_LDO
| CHANNEL_2V8 | CHANNEL_VREFINT.

#[export] Instance channel_eq_dec : EqDecision channel.
Proof. solve_decision. Defined.

(** The enumeration of each board. *)
Definition channels (b : board) : list channel :=
  match b with
  | Pearl => [CHANNEL_VBAT_SW; CHANNEL_PVCC; CHANNEL_12V; CHANNEL_12V_CAPS; CHANNEL_DIE_TEMP; CHANNEL_3V3_UC;
              CHANNEL_1V8; CHANNEL_3V3; CHANNEL_5V; CHANNEL_3V3_SSD_3V8; CHANNEL_VREFINT]
  | Diamond => [CHANNEL_VBAT_SW; CHANNEL_3V3_SSD_3V8; CHANNEL_3V3_WIFI; CHANNEL_PVCC; CHANNEL_12V_CAPS;
                CHANNEL_V_SCAP_LOW; CHANNEL_V_SCAP_HIGH; CHANNEL_DIE_TEMP; CHANNEL_3V3_UC; CHANNEL_1V8_SEC;
                CHANNEL_4V7_SEC; CHANNEL_1V8; CHANNEL_3V3; CHANNEL_5V; CHANNEL_3V6; CHANNEL_3V3_LTE;
                CHANNEL_3V3_LDO; CHANNEL_2V8; CHANNEL_VREFINT]
  end.

Definition CHANNEL_COUNT (b : board) : Z := zlen (channels b).

Fixpoint index_of (c : channel) (l : list channel) : Z :=
  match l with
  | [] => 0
  | d :: l => if decide (d = c) then 0 else 1 + index_of c l
  end.

(** The value of the enumerator: its position. *)
Definition channel_index (b : board) (c : channel) : Z := index_of c (channels b).

(** The single-precision float of a decimal fraction n/d. *)
Definition dec (n d : Z) : spec_float := fdiv (flt n 0) (flt d 0).

(** [voltage_divider_scalings], [..._ev5] on the Pearl. *)
Definition voltage_divider_scalings (b : board) : list spec_float :=
  match b with
  | Pearl => [dec 542 100; dec 104 10; dec 57 10; dec 57 10; dec 1 1; dec 3 1; dec 1 1; dec 1213 1000; dec 2 1;
              dec 1213 1000; dec 1 1]
  | Diamond => [dec 104 10; dec 2 1; dec 2 1; dec 1981 100; dec 67 10; dec 1 1; dec 1 1; dec 1 1; dec 3 1; dec 1 1;
                dec 3 1; dec 1 1; dec 2 1; dec 3 1; dec 2 1; dec 2 1; dec 2 1; dec 2 1; dec 1 1]
  end.

Definition voltage_divider_scalings_ev5 : list spec_float :=
  [dec 104 10; dec 1981 100; dec 67 10; dec 67 10; dec 1 1; dec 3 1; dec 1 1; dec 2 1; dec 3 1; dec 2 1; dec 1 1].

(** [voltage_measurement_tests]: the range of a channel, (0, 0) where none is given. *)
Definition voltage_measurement_tests (c : channel) : Z * Z :=
  match c with
  | CHANNEL_VBAT_SW => (11880, 17000)
  | CHANNEL_PVCC => (30590, 32430)
  | CHANNEL_12V_CAPS => (11700, 12280)
  | CHANNEL_3V3_UC => (3159, 3389)
  | CHANNEL_1V8 => (1710, 1890)
  | CHANNEL_3V3 => (3265, 3456)
  | CHANNEL_5V => (5061, 5233)
  | CHANNEL_VREFINT => (1182, 1232)
  | _ => (0, 0)
  end.

(** lib/errors/app_assert.c *)
Definition app_assert_range (value range_min range_max : Z) : bool :=
  if negb (range_min =? 0) || negb (range_max =? 0)
  then negb ((value <? range_min) || (range_max <? value))
  else true.

(** ** Readings and statistics

    A converter's part of [adc_samples_buffers_t]; the arrays [raw], [raw_min] and
    [raw_max] of all channels are the parts one after the other. *)
Record adc_part := AdcPart { raw_ : list Z; raw_min_ : list Z; raw_max_ : list Z }.

Abbreviation adc_samples_buffers_t := (list adc_part).

Definition raw (a : adc_samples_buffers_t) : list Z := concat (map raw_ a).
Definition raw_min (a : adc_samples_buffers_t) : list Z := concat (map raw_min_ a).
Definition raw_max (a : adc_samples_buffers_t) : list Z := concat (map raw_max_ a).

(** NUMBER_OF_CHANNELS_ADC_1, _4 and _5. *)
Definition adc_sizes (b : board) : list Z := match b with Pearl => [6; 5] | Diamond => [9; 2; 8] end.

(** The callback of the [k]-th converter: the new samples, and the extremes. *)
Definition adc_callback (k : nat) (samples : list Z) (a : adc_samples_buffers_t) : adc_samples_buffers_t :=
  match a !! k with
  | Some p => <[k := AdcPart samples
                       (zip_with (fun s m => if s <? m then s else m) samples (raw_min_ p))
                       (zip_with (fun s m => if m <? s then s else m) samples (raw_max_ p))]> a
  | None => a
  end.

Definition reset_part (p : adc_part) : adc_part :=
  AdcPart (raw_ p) (map (fun _ => 65535) (raw_min_ p)) (map (fun _ => 0) (raw_max_ p)).

Definition reset_statistics (a : adc_samples_buffers_t) : adc_samples_buffers_t := map reset_part a.

Definition update_min_max_from_adc_samples_buffer (buffer_to_update input_buffer : adc_samples_buffers_t)
  : adc_samples_buffers_t :=
  zip_with (fun p q => AdcPart (raw_ p)
      (zip_with (fun i u => if i <? u then i else u) (raw_min_ q) (raw_min_ p))
      (zip_with (fun i u => if u <? i then i else u) (raw_max_ q) (raw_max_ p)))
    buffer_to_update input_buffer.

Definition adc_reset (b : board) : adc_samples_buffers_t :=
  map (fun n => AdcPart (fill n 0) (fill n 0) (fill n 0)) (adc_sizes b).

Section Voltages.
Context (b : board) `{HwVersions}.

(** Zephyr's [adc_raw_to_millivolts] with the gain 1 and 12 bits, from the
    reference voltage and the raw value; ST's macro that computes the reference
    from the internal one. *)
Context (adc_raw_to_millivolts : Z -> Z -> Z) (calc_vrefanalog : Z -> Z).

Definition vref_mv : Z := 2048.    (* device tree: vref-mv, ev5-vref-mv *)

Definition voltage_measurement_get_vref_mv_from_raw (hardware_version vrefint_raw : Z) : Z :=
  match b with
  | Pearl => u16 (if hardware_version =? HW_VERSION_PEARL_EV5 then vref_mv
                  else calc_vrefanalog (if vrefint_raw =? 0 then 1 else vrefint_raw))
  | Diamond => vref_mv
  end.

Definition scaling (hardware_version ch : Z) : spec_float :=
  nth (Z.to_nat ch)
    (match b with
     | Pearl => if hardware_version =? HW_VERSION_PEARL_EV5 then voltage_divider_scalings_ev5
                else voltage_divider_scalings b
     | Diamond => voltage_divider_scalings b
     end) (flt 0 0).

(** [(int32_t)((float)raw_value * voltage_divider_scaling)]; [None]: undefined. *)
Definition scaled (hardware_version ch mv : Z) : option Z :=
  to_s32 (sf_trunc (fmul (flt mv 0) (scaling hardware_version ch))).

(** The voltage of a raw value of the channel. *)
Definition to_voltage (hardware_version ch : Z) (a : adc_samples_buffers_t) (raw_value : Z) : option Z :=
  let vref := voltage_measurement_get_vref_mv_from_raw hardware_version
                (nthZ (raw a) (channel_index b CHANNEL_VREFINT)) in
  scaled hardware_version ch (adc_raw_to_millivolts vref raw_value).

Definition voltage_measurement_get_vref_mv (hardware_version : Z) (a : adc_samples_buffers_t) : Z :=
  let vrefint_raw := nthZ (raw a) (channel_index b CHANNEL_VREFINT) in
  if vrefint_raw =? 0 then 0 else u16 (voltage_measurement_get_vref_mv_from_raw hardware_version vrefint_raw).

(** The current, lowest and highest voltage; [None]: a conversion is undefined. *)
Definition voltage_measurement_get_stats (hardware_version : Z) (a : adc_samples_buffers_t) (ch : Z)
  : option (Z * (Z * Z * Z)) :=
  if CHANNEL_COUNT b <=? ch then Some (RET_ERROR_INVALID_PARAM, (0, 0, 0))
  else if hardware_version =? HW_VERSION_UNKNOWN then Some (RET_ERROR_NOT_INITIALIZED, (0, 0, 0))
  else
    v ← to_voltage hardware_version ch a (nthZ (raw a) ch);
    lo ← to_voltage hardware_version ch a (nthZ (raw_min a) ch);
    hi ← to_voltage hardware_version ch a (nthZ (raw_max a) ch);
    Some (RET_SUCCESS, (v, lo, hi)).

Definition voltage_measurement_get (hardware_version : Z) (a : adc_samples_buffers_t) (ch : Z) : option (Z * Z) :=
  if CHANNEL_COUNT b <=? ch then Some (RET_ERROR_INVALID_PARAM, 0)
  else if hardware_version =? HW_VERSION_UNKNOWN then Some (RET_ERROR_NOT_INITIALIZED, 0)
  else v ← to_voltage hardware_version ch a (nthZ (raw a) ch); Some (RET_SUCCESS, v).

Definition voltage_measurement_get_raw (hardware_version : Z) (a : adc_samples_buffers_t) (ch : Z) : Z * Z :=
  if CHANNEL_COUNT b <=? ch then (RET_ERROR_INVALID_PARAM, 0)
  else if hardware_version =? HW_VERSION_UNKNOWN then (RET_ERROR_NOT_INITIALIZED, 0)
  else (RET_SUCCESS, nthZ (raw a) ch).

(** ** Super capacitors of the Diamond

    [mux]: what the two channels read at each of the four positions of the
    multiplexer, when its mutex could be taken. *)
Definition super_cap_scaling_factors : list spec_float :=
  [dec 13333 10000; dec 2818 1000; dec 5343 1000; dec 5343 1000; dec 6757 1000; dec 111 10; dec 111 10; dec 111 10].

Definition super_cap_mv (i : nat) (raw_value : Z) : option Z :=
  to_s32 (sf_trunc (fmul (flt (adc_raw_to_millivolts vref_mv raw_value) 0)
    (nth i super_cap_scaling_factors (flt 0 0)))).

(** The eight voltages: the low channel gives the first four. *)
Definition voltage_measurement_sample_switched_channels (mux : list (Z * Z)) : option (list Z) :=
  low ← mapM (fun x => super_cap_mv x.1 x.2.1) (zip (seq 0 4) mux);
  high ← mapM (fun x => super_cap_mv (x.1 + 4) x.2.2) (zip (seq 0 4) mux);
  Some (low ++ high).

Definition differences (v : list Z) : list Z :=
  match v with [] => [] | x :: l => x :: zip_with (fun y z => y - z) l v end.

(** The number of capacitors out of range, the voltages and the differences;
    without the mutex the differences are cleared and the voltages stay. *)
Definition check_caps_voltages (mux : option (list (Z * Z))) (voltages : list Z)
  : option (Z * list Z * list Z) :=
  match b, mux with
  | Pearl, _ => Some (0, voltages, [])
  | Diamond, Some m =>
      v ← voltage_measurement_sample_switched_channels m;
      let d := differences v in
      Some (zlen (filter (fun x => app_assert_range x 1500 2500 = false) d), v, d)
  | Diamond, None => Some (0, voltages, fill 8 0)
  end.

(** ** Publication: [publish_all_voltages] *)

(** The [VoltageSource] values the code names. *)
Inductive source :=
| MAIN_MCU_INTERNAL | SECURITY_MCU_INTERNAL | SUPPLY_12V_SRC | SUPPLY_5V_SRC | SUPPLY_3V8_SRC | SUPPLY_3V3_SRC
| SUPPLY_1V8_SRC | VBAT | PVCC_SRC | CAPS_12V | VBAT_SW_SRC | SUPPLY_3V3_SSD_SRC | SUPPLY_3V3_WIFI_SRC
| SUPPLY_3V3_LTE_SRC | SUPPLY_3V6_SRC | SUPPLY_1V2_SRC | SUPPLY_2V8_SRC | SUPPLY_1V8_SEC_SRC | SUPPLY_4V7_SEC_SRC
| SUPPLY_17V_CAPS_SRC | SUPER_CAP_SRC (n : nat) | SUPPLY_3V3_LDO_SRC.

(** What the switch chooses for a source. *)
Inductive selection := Skip | FromChannel (c : channel) | FromSuperCap (mv : Z).

(** The boards EV1 to EV4 of the Pearl. *)
Definition early_pearl (hardware_version : Z) : bool := has_3v8 hardware_version.

(** [v], [d]: the voltages of the super capacitors and their differences. *)
Definition select (hardware_version : Z) (v d : list Z) (s : source) : selection :=
  match s with
  | MAIN_MCU_INTERNAL => FromChannel CHANNEL_3V3_UC
  | SECURITY_MCU_INTERNAL | VBAT => Skip
  | SUPPLY_12V_SRC => match b with Pearl => FromChannel CHANNEL_12V | Diamond => Skip end
  | SUPPLY_5V_SRC => FromChannel CHANNEL_5V
  | SUPPLY_3V8_SRC => if early_pearl hardware_version then FromChannel CHANNEL_3V3_SSD_3V8 else Skip
  | SUPPLY_3V3_SRC => FromChannel CHANNEL_3V3
  | SUPPLY_1V8_SRC => FromChannel CHANNEL_1V8
  | PVCC_SRC => FromChannel CHANNEL_PVCC
  | CAPS_12V => FromChannel CHANNEL_12V_CAPS
  | VBAT_SW_SRC => FromChannel CHANNEL_VBAT_SW
  | SUPPLY_3V3_SSD_SRC => if early_pearl hardware_version then Skip else FromChannel CHANNEL_3V3_SSD_3V8
  | _ =>
      match b with
      | Pearl => Skip
      | Diamond =>
          match s with
          | SUPPLY_3V3_WIFI_SRC => FromChannel CHANNEL_3V3_WIFI
          | SUPPLY_3V3_LTE_SRC => FromChannel CHANNEL_3V3_LTE
          | SUPPLY_3V6_SRC => FromChannel CHANNEL_3V6
          | SUPPLY_1V2_SRC => FromChannel CHANNEL_3V3_UC      (* the initial value of [channel] *)
          | SUPPLY_3V3_LDO_SRC => FromChannel CHANNEL_3V3_LDO
          | SUPPLY_2V8_SRC => FromChannel CHANNEL_2V8
          | SUPPLY_1V8_SEC_SRC => FromChannel CHANNEL_1V8_SEC
          | SUPPLY_4V7_SEC_SRC => FromChannel CHANNEL_4V7_SEC
          | SUPPLY_17V_CAPS_SRC => FromSuperCap (nthZ v 7)
          | SUPER_CAP_SRC n => FromSuperCap (nthZ d (Z.of_nat n))
          | _ => Skip
          end
      end
  end.

(** The loop's variables: the voltages of [voltage_msg] (current, lowest,
    highest), [is_super_cap_channel], [self_test_fail_count],
    [at_least_one_publish_successful], and the messages handed over. *)
Record publishing := Publishing {
  msg : Z * Z * Z;
  is_super_cap_channel : bool;
  self_test_fail_count : Z;
  at_least_one_publish_successful : bool;
  sent : list (source * (Z * Z * Z));
}.

(** Hand over the message of a source. *)
Definition hand_over (pub : source -> Z) (s : source) (p : publishing) : publishing :=
  Publishing (msg p) (is_super_cap_channel p) (self_test_fail_count p)
    (at_least_one_publish_successful p || (pub s =? RET_SUCCESS)) (sent p ++ [(s, msg p)]).

(** One source; [pub]: what [publish_new] returns for it. *)
Definition publish_source (hardware_version : Z) (no_super_caps : bool) (pub : source -> Z)
  (a : adc_samples_buffers_t) (v d : list Z) (s : source) (p : publishing) : option publishing :=
  match select hardware_version v d s with
  | Skip => Some p
  | FromSuperCap mv =>
      Some (hand_over pub s (Publishing (mv, mv, mv) true (self_test_fail_count p)
                               (at_least_one_publish_successful p) (sent p)))
  | FromChannel c =>
      if is_super_cap_channel p then Some (hand_over pub s p)
      else
        '(ret, m) ← voltage_measurement_get_stats hardware_version a (channel_index b c);
        if ret =? RET_SUCCESS then
          let r := voltage_measurement_tests c in
          let passed := (no_super_caps && bool_decide (c = CHANNEL_PVCC)) || app_assert_range m.1.1 r.1 r.2 in
          Some (hand_over pub s (Publishing m false (self_test_fail_count p + zbool (negb passed))
                                   (at_least_one_publish_successful p) (sent p)))
        else Some p
  end.

Fixpoint publish_sources hardware_version no_super_caps pub a v d (ss : list source) (p : publishing)
  : option publishing :=
  match ss with
  | [] => Some p
  | s :: ss => p ← publish_source hardware_version no_super_caps pub a v d s p;
               publish_sources hardware_version no_super_caps pub a v d ss p
  end.

(** The whole function over the sources in the order of their generated values
    [ss]; [cbs]: what the converters do while it runs.  The result: the buffers,
    what was published, and whether all voltages were in range. *)
Definition run_callbacks (cbs : list (nat * list Z)) (a : adc_samples_buffers_t) : adc_samples_buffers_t :=
  fold_left (fun a c => adc_callback c.1 c.2 a) cbs a.

Definition publish_all_voltages hardware_version no_super_caps pub (ss : list source) (v d : list Z)
  (cbs : list (nat * list Z)) (m0 : Z * Z * Z) (a : adc_samples_buffers_t)
  : option (adc_samples_buffers_t * publishing) :=
  let publish_adc_buffers := a in
  p ← publish_sources hardware_version no_super_caps pub publish_adc_buffers v d ss (Publishing m0 false 0 false []);
  let a := run_callbacks cbs (reset_statistics a) in
  Some (if at_least_one_publish_successful p then a
        else update_min_max_from_adc_samples_buffer a publish_adc_buffers, p).

(** [voltage_measurement_set_publish_period] *)
Definition MAX_VOLTAGE_TRANSMIT_PERIOD_MS : Z := 60000.
Definition voltage_measurement_set_publish_period (publish_period_ms : Z) : Z :=
  u16 (Z.max 0 (Z.min publish_period_ms MAX_VOLTAGE_TRANSMIT_PERIOD_MS)).

(** ** The self-test *)

(** One iteration: the number of failures, over the capacitors and the channels. *)
Fixpoint test_channels (hardware_version : Z) (no_super_caps : bool) (a : adc_samples_buffers_t)
  (cs : list channel) (fail_count : Z) : option Z :=
  match cs with
  | [] => Some fail_count
  | c :: cs =>
      if no_super_caps && bool_decide (c = CHANNEL_PVCC)
      then test_channels hardware_version no_super_caps a cs fail_count
      else
        '(ret, m) ← voltage_measurement_get_stats hardware_version a (channel_index b c);
        let r := voltage_measurement_tests c in
        test_channels hardware_version no_super_caps a cs
          (if negb (ret =? RET_SUCCESS) then fail_count
           else fail_count + zbool (negb (app_assert_range m.1.1 r.1 r.2)))
  end.
End Voltages.

Definition VOLTAGES_SELF_TEST_LOOP_COUNT_PASS : Z := 2.
Definition VOLTAGES_SELF_TEST_TIMEOUT : Z := 5.

(** The loop, from the number of failures of each iteration: the count of passed
    iterations and the value left in the 32-bit [timeout], which the loop's
    condition decrements even when it is 0. *)
Fixpoint self_test_loop (fails : list Z) (passed_loop_count timeout : Z) : option (Z * Z) :=
  if negb (passed_loop_count <? VOLTAGES_SELF_TEST_LOOP_COUNT_PASS) then Some (passed_loop_count, timeout)
  else if timeout =? 0 then Some (passed_loop_count, u32 (timeout - 1))
  else match fails with
  | [] => None
  | f :: fails =>
      self_test_loop fails
        (if f =? 0 then passed_loop_count + 1
         else if 1 <=? passed_loop_count then passed_loop_count - 1 else 0)
        (u32 (timeout - 1))
  end.

(** The state reported at the end, if any. *)
Definition voltage_measurement_self_test_thread (fails : list Z) : option (option Z) :=
  '(passed_loop_count, timeout) ← self_test_loop fails 0 VOLTAGES_SELF_TEST_TIMEOUT;
  Some (if timeout =? 0 then Some RET_ERROR_TIMEOUT
        else if passed_loop_count =? VOLTAGES_SELF_TEST_LOOP_COUNT_PASS then Some RET_SUCCESS
        else None).

(** ** The self-test's verdict *)

(** The iteration in which the test passes: two passes more than failures, never
    going below zero. *)
Fixpoint pass_iteration (fails : list Z) (count n : Z) : option Z :=
  match fails with
  | [] => None
  | f :: fails =>
      let count := if f =? 0 then count + 1 else Z.max 0 (count - 1) in
      if 2 <=? count then Some (n + 1) else pass_iteration fails count (n + 1)
  end.

(** What the voltage self-test reports.  It always ends, after five iterations
    at most.  A test that passes before the fifth iteration is reported as a
    success; one that passes in the fifth is reported as a timeout; and one that
    never passes reports nothing, because the counter it compares with 0 has
    wrapped around by then. *)
Theorem self_test_verdict fails : length fails = 5%nat ->
  voltage_measurement_self_test_thread fails =
  Some (match pass_iteration fails 0 0 with
        | Some n => Some (if n =? 5 then RET_ERROR_TIMEOUT else RET_SUCCESS)
        | None => None
        end).
Proof.
  intros Hl. destruct fails as [|f1 [|f2 [|f3 [|f4 [|f5 [|]]]]]]; try discriminate.
  unfold voltage_measurement_self_test_thread, VOLTAGES_SELF_TEST_TIMEOUT.
  cbn [self_test_loop pass_iteration].
  destruct (f1 =? 0), (f2 =? 0), (f3 =? 0), (f4 =? 0), (f5 =? 0); reflexivity.
Qed.

Lemma self_test_verdict_witness :
  voltage_measurement_self_test_thread [1; 1; 1; 1; 1] = Some None /\
  voltage_measurement_self_test_thread [1; 1; 1; 0; 0] = Some (Some RET_ERROR_TIMEOUT).
Proof. split; [exact (self_test_verdict [1; 1; 1; 1; 1] eq_refl) | exact (self_test_verdict [1; 1; 1; 0; 0] eq_refl)]. Defined.

(** ** Statistics *)

Definition part_ok (p : adc_part) : Prop :=
  length (raw_min_ p) = length (raw_ p) /\ length (raw_max_ p) = length (raw_ p) /\
  Forall (fun x => 0 <= x < 65536) (raw_min_ p) /\ Forall (fun x => 0 <= x < 65536) (raw_max_ p).

Definition samples_ok (a : adc_samples_buffers_t) (c : nat * list Z) : Prop :=
  Forall (fun x => 0 <= x < 65536) c.2 /\ forall p, a !! c.1 = Some p -> length c.2 = length (raw_ p).

Abbreviation lower := (fun s m => if s <? m then s else m).
Abbreviation higher := (fun s m => if m <? s then s else m).

Lemma zip_swap (f : Z -> Z -> Z) : (forall i s m, f i (f s m) = f s (f i m)) ->
  forall q s m, length s = length m -> length q = length m ->
  zip_with f q (zip_with f s m) = zip_with f s (zip_with f q m).
Proof.
  intros Hf q. induction q as [|i q IH]; intros [|s ss] [|m ms] H1 H2; try done.
  cbn. rewrite Hf. f_equal. apply IH; cbn in *; lia.
Qed.

Lemma lower_swap i s m : lower i (lower s m) = lower s (lower i m).
Proof. cbv beta. bdestruct_all. Qed.

Lemma higher_swap i s m : higher i (higher s m) = higher s (higher i m).
Proof. cbv beta. bdestruct_all. Qed.

Lemma zip_same_length {A B C} (f : A -> B -> C) l k : length l = length k -> length (zip_with f l k) = length k.
Proof. intros. rewrite length_zip_with. lia. Qed.

(** The sizes of the parts. *)
Definition shape (a : adc_samples_buffers_t) : list nat := map (fun p => length (raw_ p)) a.

Lemma lower_range l k : Forall (fun x => 0 <= x < 65536) l -> Forall (fun x => 0 <= x < 65536) k ->
  Forall (fun x => 0 <= x < 65536) (zip_with lower l k) /\ Forall (fun x => 0 <= x < 65536) (zip_with higher l k).
Proof.
  intros Hl. revert k. induction Hl as [|x l Hx Hl IH]; intros [|y k] Hk; try done.
  apply Forall_cons in Hk as [Hy Hk]. destruct (IH k Hk). split; constructor; try done; cbv beta; bdestruct_all.
Qed.

Lemma callback_ok k s a : Forall part_ok a -> samples_ok a (k, s) ->
  Forall part_ok (adc_callback k s a) /\ shape (adc_callback k s a) = shape a.
Proof.
  intros Ha [Hs Hl]. unfold adc_callback. cbn [fst snd] in *. destruct (a !! k) as [p |] eqn:E; [| done].
  pose proof (Forall_lookup_1 _ _ _ _ Ha E) as (H1 & H2 & H3 & H4). specialize (Hl p eq_refl).
  split.
  - apply Forall_insert; [done |]. destruct (lower_range s (raw_min_ p)) as [L _]; [done.. |].
    destruct (lower_range s (raw_max_ p)) as [_ U]; [done.. |].
    split_and!; cbn; rewrite ?length_zip_with; (done || lia).
  - unfold shape. rewrite list_fmap_insert. apply list_insert_id. rewrite list_lookup_fmap, E. cbn. by rewrite Hl.
Qed.

(** The buffers that the publication saved are merged part by part. *)
Lemma merge_callback k s x a : Forall part_ok x -> Forall part_ok a -> shape x = shape a -> samples_ok x (k, s) ->
  update_min_max_from_adc_samples_buffer (adc_callback k s x) a =
  adc_callback k s (update_min_max_from_adc_samples_buffer x a).
Proof.
  intros Hx Ha Hsh [_ Hs]. cbn [fst snd] in Hs. unfold adc_callback, update_min_max_from_adc_samples_buffer.
  rewrite lookup_zip_with. destruct (x !! k) as [p |] eqn:E; [| done]. cbn [mbind option_bind].
  assert (exists q, a !! k = Some q /\ length (raw_ p) = length (raw_ q)) as (q & Eq & Hpq).
  { assert (shape x !! k = Some (length (raw_ p))) as Hk by (unfold shape; by rewrite list_lookup_fmap, E).
    rewrite Hsh in Hk. unfold shape in Hk. rewrite list_lookup_fmap in Hk.
    destruct (a !! k) as [q |]; [| done]. injection Hk as Hk. by exists q. }
  rewrite Eq. cbn [mbind option_bind]. rewrite <- (list_insert_id a k q Eq) at 1. rewrite <- insert_zip_with.
  f_equal. cbn. specialize (Hs p eq_refl).
  pose proof (Forall_lookup_1 _ _ _ _ Hx E) as (P1 & P2 & _ & _).
  pose proof (Forall_lookup_1 _ _ _ _ Ha Eq) as (Q1 & Q2 & _ & _).
  f_equal; apply zip_swap; (apply lower_swap || apply higher_swap || lia).
Qed.

Lemma merge_reset a : Forall part_ok a -> update_min_max_from_adc_samples_buffer (reset_statistics a) a = a.
Proof.
  intros Ha. unfold update_min_max_from_adc_samples_buffer, reset_statistics.
  induction Ha as [|p a (H1 & H2 & H3 & H4) Ha IH]; [done |]. cbn [map zip_with]. rewrite IH. f_equal.
  destruct p as [r lo hi]. unfold reset_part. cbn in *. f_equal.
  - clear -H3. induction H3 as [|x l Hx Hl IHl]; [done |]. cbn. rewrite IHl. f_equal. bdestruct_all.
  - clear -H4. induction H4 as [|x l Hx Hl IHl]; [done |]. cbn. rewrite IHl. f_equal. bdestruct_all.
Qed.

Lemma run_callbacks_snoc cbs k s a : run_callbacks (cbs ++ [(k, s)]) a = adc_callback k s (run_callbacks cbs a).
Proof. unfold run_callbacks. by rewrite fold_left_app. Qed.

(** Samples of the sizes the converters give. *)
Definition callbacks_ok (a : adc_samples_buffers_t) (cbs : list (nat * list Z)) : Prop :=
  Forall (fun c => Forall (fun x => 0 <= x < 65536) c.2 /\
    forall n, shape a !! c.1 = Some n -> length c.2 = n) cbs.

Lemma callbacks_samples a a' c : (Forall (fun x => 0 <= x < 65536) c.2 /\
    forall n, shape a !! c.1 = Some n -> length c.2 = n) -> shape a' = shape a -> samples_ok a' c.
Proof.
  intros [H1 H2] E. split; [done |]. intros p Hp. apply H2. rewrite <- E. unfold shape.
  by rewrite list_lookup_fmap, Hp.
Qed.

Lemma reset_ok a : Forall part_ok a -> Forall part_ok (reset_statistics a) /\ shape (reset_statistics a) = shape a.
Proof.
  intros Ha. unfold reset_statistics, shape. split.
  - induction Ha as [|p a (H1 & H2 & H3 & H4) Ha IH]; [done |]. cbn. constructor; [| done].
    split_and!; cbn; rewrite ?length_map; try done; apply Forall_map, Forall_true; cbv beta; intros; lia.
  - rewrite map_map. by apply map_ext.
Qed.

Lemma callbacks_run_ok cbs a : Forall part_ok a -> callbacks_ok a cbs ->
  Forall part_ok (run_callbacks cbs a) /\ shape (run_callbacks cbs a) = shape a.
Proof.
  intros Ha. induction cbs as [|[k s] cbs IH] using rev_ind; [done |].
  intros [Hc Hk]%Forall_app. rewrite Forall_singleton in Hk. destruct (IH Hc) as [E1 E2].
  rewrite run_callbacks_snoc. destruct (callback_ok k s (run_callbacks cbs a)) as [F1 F2]; [done | |].
  - by eapply callbacks_samples.
  - split; [done | congruence].
Qed.

Lemma publish_none_succeed `{HwVersions} b mv vref hw nsc pub a v d :
  (forall s, pub s <> RET_SUCCESS) -> forall ss p0 q, at_least_one_publish_successful p0 = false ->
  publish_sources b mv vref hw nsc pub a v d ss p0 = Some q -> at_least_one_publish_successful q = false.
Proof.
  intros Hp ss. induction ss as [|s ss IH]; intros p0 q H0 E; cbn [publish_sources] in E; [congruence |].
  apply bind_Some in E as (p1 & E1 & E). apply (IH p1 q); [| done]. clear -Hp H0 E1.
  assert (forall q0, at_least_one_publish_successful q0 = false ->
    at_least_one_publish_successful (hand_over pub s q0) = false) as Hh.
  { intros q0 Hq. cbn. rewrite Hq. apply Z.eqb_neq, Hp. }
  unfold publish_source in E1. repeat case_match; simplify_eq; auto.
  apply bind_Some in E1 as ([ret m] & _ & E1). case_match; simplify_eq; auto.
Qed.

(** No extreme is lost when nothing could be published.  Whatever the
    converters measure while the publication runs, the lowest, highest and current
    readings afterwards are exactly those there would be if the publication had
    never reset the statistics. *)
Theorem failed_publication_keeps_extremes `{HwVersions} b mv vref hw nsc pub ss v d cbs m0 a a' p :
  Forall part_ok a -> callbacks_ok a cbs ->
  publish_all_voltages b mv vref hw nsc pub ss v d cbs m0 a = Some (a', p) ->
  (forall s, pub s <> RET_SUCCESS) ->
  a' = run_callbacks cbs a.
Proof.
  intros Ha Hc E Hp. unfold publish_all_voltages in E. apply bind_Some in E as (q & Eq & E). injection E as <- <-.
  erewrite (publish_none_succeed _ _ _ _ _ _ _ _ _ Hp ss _ q); [| | exact Eq]; [| done].
  clear -Ha Hc. induction cbs as [|[k s] cbs IH] using rev_ind; [by apply merge_reset |].
  apply Forall_app in Hc as [Hc Hk]. rewrite Forall_singleton in Hk.
  rewrite !run_callbacks_snoc. destruct (reset_ok a Ha) as [R1 R2].
  destruct (callbacks_run_ok cbs (reset_statistics a)) as [F1 F2]; [done | unfold callbacks_ok; by rewrite R2 |].
  rewrite merge_callback; [| done | done | congruence |].
  - by rewrite IH.
  - eapply callbacks_samples; [done | congruence].
Qed.

(** Zephyr's conversion, for the witnesses. *)
Definition sample_mv (vref raw : Z) : Z := vref * raw / 4096.

Lemma failed_publication_keeps_extremes_witness :
  let H := sample_versions in
  let a := run_callbacks [(0%nat, [10; 20; 30; 40; 50; 60]); (1%nat, [1; 2; 3; 4; 5])] (reset_statistics (adc_reset Pearl)) in
  match publish_all_voltages Pearl sample_mv (fun _ => 3300) 5 false (fun _ => 8) [SUPPLY_5V_SRC] [] []
          [(1%nat, [9; 9; 9; 9; 9])] (0, 0, 0) a with
  | Some (a', _) => raw_max a' = [10; 20; 30; 40; 50; 60; 9; 9; 9; 9; 9] /\ raw_min a' = [10; 20; 30; 40; 50; 60; 1; 2; 3; 4; 5]
  | None => False
  end.
Proof.
  intros H a.
  destruct (publish_all_voltages Pearl sample_mv (fun _ => 3300) 5 false (fun _ => 8) [SUPPLY_5V_SRC] [] []
          [(1%nat, [9; 9; 9; 9; 9])] (0, 0, 0) a) as [[a' p] |] eqn:E.
  - assert (a' = run_callbacks [(1%nat, [9; 9; 9; 9; 9])] a) as ->.
    { eapply (failed_publication_keeps_extremes (H := H)); [| | exact E | discriminate].
      - repeat constructor; cbn; lia.
      - unfold callbacks_ok. repeat constructor; cbn; try lia. by intros n [= <-]. }
    split; reflexivity.
  - vm_compute in E. discriminate E.
Defined.

(** ** The super capacitors' flag *)

(** On a Diamond, once a source of the super capacitors has been published,
    the sources after it that are measured by a channel are not measured any more:
    each is published with the voltages of the last capacitor, whatever its own
    channel reads, and is not checked against its range.  (The loop ends with the
    3.3 V LDO supply, whose value is the last one of the enumeration.) *)
Theorem stale_after_super_caps `{HwVersions} mv vref hw nsc pub a v d ss n p0 p :
  Forall (fun s => exists c, select Diamond hw v d s = FromChannel c) ss ->
  publish_sources Diamond mv vref hw nsc pub a v d (SUPER_CAP_SRC n :: ss) p0 = Some p ->
  let x := nthZ d (Z.of_nat n) in
  sent p = sent p0 ++ map (fun s => (s, (x, x, x))) (SUPER_CAP_SRC n :: ss) /\
  self_test_fail_count p = self_test_fail_count p0.
Proof.
  intros Hs E x. cbn [publish_sources publish_source select mbind option_bind] in E. fold x in E.
  set (p1 := hand_over _ _ _) in E.
  assert (msg p1 = (x, x, x) /\ is_super_cap_channel p1 = true /\ self_test_fail_count p1 = self_test_fail_count p0 /\
    sent p1 = sent p0 ++ [(SUPER_CAP_SRC n, (x, x, x))]) as (M & F & T & Q) by done.
  clearbody p1. cbn [map]. change (?a ++ ?y :: ?l) with (a ++ [y] ++ l). rewrite app_assoc, <- Q, <- T.
  clear T Q. revert p1 M F E. induction Hs as [|s ss [c Hc] Hs IH]; intros p1 M F E.
  { injection E as <-. cbn. by rewrite app_nil_r. }
  cbn [publish_sources] in E. unfold publish_source in E. rewrite Hc, F in E. cbn [mbind option_bind] in E.
  destruct (IH (hand_over pub s p1)) as [E1 E2]; [exact M | exact F | exact E |].
  rewrite E1, E2. cbn. rewrite M, <- app_assoc. done.
Qed.

Lemma stale_after_super_caps_witness :
  let H := sample_versions in
  let a := run_callbacks [(0%nat, fill 9 3000); (1%nat, fill 2 3000); (2%nat, fill 8 3000)] (adc_reset Diamond) in
  exists p, publish_sources Diamond sample_mv (fun _ => 0) 10 false (fun _ => 0) a [] [0; 0; 0; 0; 0; 0; 0; 2000]
    [SUPER_CAP_SRC 7; SUPPLY_3V3_LDO_SRC] (Publishing (0, 0, 0) false 0 false []) = Some p /\
    sent p = [(SUPER_CAP_SRC 7, (2000, 2000, 2000)); (SUPPLY_3V3_LDO_SRC, (2000, 2000, 2000))].
Proof.
  intros H a.
  destruct (publish_sources Diamond sample_mv (fun _ => 0) 10 false (fun _ => 0) a [] [0; 0; 0; 0; 0; 0; 0; 2000]
    [SUPER_CAP_SRC 7; SUPPLY_3V3_LDO_SRC] (Publishing (0, 0, 0) false 0 false [])) as [p |] eqn:E; [| discriminate E].
  exists p. split; [reflexivity |].
  destruct (stale_after_super_caps (H := H) sample_mv (fun _ => 0) 10 false (fun _ => 0) a [] [0; 0; 0; 0; 0; 0; 0; 2000]
    [SUPPLY_3V3_LDO_SRC] 7 (Publishing (0, 0, 0) false 0 false []) p) as [E1 _].
  - repeat constructor. by eexists.
  - exact E.
  - exact E1.
Defined.

(** The 1.2 V supply, which current boards do not have ("do nothing"), is
    published on the Diamond with the voltage of the microcontroller's supply. *)
Example supply_1v2_is_3v3_uc `{HwVersions} hw v d :
  select Diamond hw v d SUPPLY_1V2_SRC = select Diamond hw v d MAIN_MCU_INTERNAL.
Proof. reflexivity. Qed.

(** ** The order of the voltages *)

(** The scaling of a divider: rounding to single precision and truncating keep the
    order of the readings, checked for every 12-bit reading and every divider. *)
Definition divided (f : spec_float) (mv : Z) : option Z := to_s32 (sf_trunc (fmul (flt mv 0) f)).

Definition monotone_divider (f : spec_float) : Prop :=
  all_below 4095 (fun m => match divided f m, divided f (m + 1) with
                           | Some x, Some y => (0 <=? x) && (x <=? y)
                           | _, _ => false
                           end) = true.

Lemma monotone_1 : monotone_divider (dec 1 1). Proof. vm_compute. reflexivity. Qed.
Lemma monotone_1_213 : monotone_divider (dec 1213 1000). Proof. vm_compute. reflexivity. Qed.
Lemma monotone_2 : monotone_divider (dec 2 1). Proof. vm_compute. reflexivity. Qed.
Lemma monotone_3 : monotone_divider (dec 3 1). Proof. vm_compute. reflexivity. Qed.
Lemma monotone_5_42 : monotone_divider (dec 542 100). Proof. vm_compute. reflexivity. Qed.
Lemma monotone_5_7 : monotone_divider (dec 57 10). Proof. vm_compute. reflexivity. Qed.
Lemma monotone_6_7 : monotone_divider (dec 67 10). Proof. vm_compute. reflexivity. Qed.
Lemma monotone_10_4 : monotone_divider (dec 104 10). Proof. vm_compute. reflexivity. Qed.
Lemma monotone_19_81 : monotone_divider (dec 1981 100). Proof. vm_compute. reflexivity. Qed.

Ltac divider := lazymatch goal with
  | |- monotone_divider (dec 1 1) => exact monotone_1
  | |- monotone_divider (dec 1213 1000) => exact monotone_1_213
  | |- monotone_divider (dec 2 1) => exact monotone_2
  | |- monotone_divider (dec 3 1) => exact monotone_3
  | |- monotone_divider (dec 542 100) => exact monotone_5_42
  | |- monotone_divider (dec 57 10) => exact monotone_5_7
  | |- monotone_divider (dec 67 10) => exact monotone_6_7
  | |- monotone_divider (dec 104 10) => exact monotone_10_4
  | |- monotone_divider (dec 1981 100) => exact monotone_19_81
  end.

Lemma dividers_monotone b : Forall monotone_divider (voltage_divider_scalings b) /\
  Forall monotone_divider voltage_divider_scalings_ev5.
Proof.
  split; [destruct b |]; unfold voltage_divider_scalings, voltage_divider_scalings_ev5;
    repeat (apply List.Forall_cons; [divider |]); constructor.
Qed.

Lemma divided_step f m : monotone_divider f -> 0 <= m < 4095 ->
  exists x y, divided f m = Some x /\ divided f (m + 1) = Some y /\ 0 <= x <= y.
Proof.
  intros Hf Hm. pose proof (all_below_spec 4095 _ Hf m Hm) as H. cbv beta in H.
  destruct (divided f m) as [x |], (divided f (m + 1)) as [y |]; try done.
  exists x, y. apply andb_true_iff in H as [H1%Z.leb_le H2%Z.leb_le]. done.
Qed.

Lemma divided_monotone f m n : monotone_divider f -> 0 <= m -> m + Z.of_nat n <= 4095 -> (0 < m + Z.of_nat n \/ n = 0%nat) ->
  m < 4095 -> exists x y, divided f m = Some x /\ divided f (m + Z.of_nat n) = Some y /\ 0 <= x <= y.
Proof.
  intros Hf Hm. induction n as [|n IH]; intros Hn _ Hlt.
  - destruct (divided_step f m Hf) as (x & y & E & _ & Hxy); [lia |].
    exists x, x. rewrite Z.add_0_r. split_and!; (done || lia).
  - destruct IH as (x & y & E1 & E2 & Hxy); [lia | lia | done |].
    destruct (divided_step f (m + Z.of_nat n) Hf) as (y' & z & E3 & E4 & Hyz); [lia |].
    rewrite E2 in E3. injection E3 as <-. exists x, z. rewrite Nat2Z.inj_succ.
    replace (m + Z.succ (Z.of_nat n)) with (m + Z.of_nat n + 1) by lia. split_and!; (done || lia).
Qed.

Lemma divided_order f m m' : monotone_divider f -> 0 <= m <= m' -> m' <= 4094 ->
  exists x y, divided f m = Some x /\ divided f m' = Some y /\ 0 <= x <= y.
Proof.
  intros Hf Hm Hm'. destruct (divided_monotone f m (Z.to_nat (m' - m)) Hf) as (x & y & E); [lia.. |].
  replace (m + Z.of_nat (Z.to_nat (m' - m))) with m' in E by lia. eauto.
Qed.

(** Zephyr documents its conversion as proportional to the raw value: it keeps
    the order of readings, and a 12-bit reading is below the reference. *)
Class AdcLaws (mv : Z -> Z -> Z) := {
  adc_monotone vref r r' : 0 <= vref -> r <= r' -> mv vref r <= mv vref r';
  adc_range vref r : 0 <= vref -> 0 <= r < 4096 -> 0 <= mv vref r <= vref;
}.

#[export] Instance sample_adc_laws : AdcLaws sample_mv.
Proof.
  split; unfold sample_mv; intros.
  - apply Z.div_le_mono; nia.
  - split; [apply Z.div_pos; nia |]. apply Z.div_le_upper_bound; nia.
Qed.

(** The voltages published for a channel are in order.  When the readings of
    a channel are (12 bits each, the lowest, the current and the highest in order,
    as the callbacks keep them), the conversions are defined and the lowest voltage is at
    most the current one, which is at most the highest. *)
Theorem voltages_in_order `{HwVersions} b mv calc `{AdcLaws mv} hw a ch :
  0 <= ch < CHANNEL_COUNT b -> hw <> HW_VERSION_UNKNOWN ->
  (forall r, 0 <= calc r < 4095) ->
  0 <= nthZ (raw_min a) ch <= nthZ (raw a) ch -> nthZ (raw a) ch <= nthZ (raw_max a) ch < 4096 ->
  exists v lo hi, voltage_measurement_get_stats b mv calc hw a ch = Some (RET_SUCCESS, (v, lo, hi)) /\
    0 <= lo <= v /\ v <= hi.
Proof.
  intros Hch Hhw Hc Hlo Hhi. unfold voltage_measurement_get_stats.
  bfalse (CHANNEL_COUNT b <=? ch). apply Z.eqb_neq in Hhw. rewrite Hhw. unfold to_voltage.
  set (vref := voltage_measurement_get_vref_mv_from_raw _ _ _ _).
  assert (0 <= vref <= 4094) as Hv.
  { subst vref. unfold voltage_measurement_get_vref_mv_from_raw, vref_mv. destruct b; [| lia].
    destruct (hw =? HW_VERSION_PEARL_EV5); [rewrite u16_small; lia |].
    match goal with |- context [calc ?r] => generalize r end. intros r.
    pose proof (Hc r). rewrite u16_small; lia. }
  assert (monotone_divider (scaling b hw ch)) as Hf.
  { unfold scaling. destruct (dividers_monotone b) as [D1 D2]. unfold CHANNEL_COUNT, zlen in Hch.
    destruct b; cbn in Hch; [destruct (hw =? HW_VERSION_PEARL_EV5) |];
      [apply (Forall_forall monotone_divider voltage_divider_scalings_ev5); [exact D2 |]
      | apply (Forall_forall monotone_divider (voltage_divider_scalings Pearl)); [exact D1 |]
      | apply (Forall_forall monotone_divider (voltage_divider_scalings Diamond)); [exact D1 |]];
      apply list_elem_of_In, nth_In; cbn [length voltage_divider_scalings voltage_divider_scalings_ev5]; lia. }
  assert (forall r, 0 <= r < 4096 -> 0 <= mv vref r <= 4094) as Hr.
  { intros r Hr. pose proof (adc_range vref r ltac:(lia) Hr). lia. }
  pose proof (adc_monotone vref (nthZ (raw_min a) ch) (nthZ (raw a) ch) ltac:(lia) ltac:(lia)).
  pose proof (adc_monotone vref (nthZ (raw a) ch) (nthZ (raw_max a) ch) ltac:(lia) ltac:(lia)).
  pose proof (Hr (nthZ (raw_min a) ch) ltac:(lia)). pose proof (Hr (nthZ (raw_max a) ch) ltac:(lia)).
  destruct (divided_order (scaling b hw ch) (mv vref (nthZ (raw_min a) ch)) (mv vref (nthZ (raw a) ch)) Hf)
    as (x & y & E1 & E2 & L1); [lia.. |].
  destruct (divided_order (scaling b hw ch) (mv vref (nthZ (raw a) ch)) (mv vref (nthZ (raw_max a) ch)) Hf)
    as (y' & z & E3 & E4 & L2); [lia.. |].
  rewrite E2 in E3. injection E3 as <-. unfold scaled. unfold divided in E1, E2, E4.
  rewrite E1, E2, E4. cbn [mbind option_bind]. eexists _, _, _. split; [reflexivity |]. lia.
Qed.

Lemma voltages_in_order_witness :
  let H := sample_versions in
  let a := run_callbacks [(0%nat, [3000; 20; 30; 40; 50; 60]); (0%nat, [3100; 20; 30; 40; 50; 60]);
                          (1%nat, [1; 2; 3; 4; 5])] (reset_statistics (adc_reset Pearl)) in
  exists v lo hi, voltage_measurement_get_stats Pearl sample_mv (fun _ => 3300) 5 a 0 = Some (RET_SUCCESS, (v, lo, hi)) /\
    0 <= lo <= v /\ v <= hi.
Proof.
  intros H a. apply (voltages_in_order (H := H) Pearl sample_mv (fun _ => 3300) 5 a 0);
    [split; [lia | reflexivity] | discriminate | intros; lia | split; vm_compute; discriminate | split; [vm_compute; discriminate | vm_compute; reflexivity]].
Defined.
