(* ===== verification/Heartbeat.v ===== *)
(** lib/health_monitoring/heartbeat.c, the time-out handler of main_board/src/main.c
    and lib/watchdog/watchdog.c: what resets the microcontroller when the Jetson, or
    the firmware itself, is silent.

    The monitoring thread (priority 5) preempts the thread that beats (the
    runner, priority 6): a call runs it until it blocks, so that calls and the
    thread do not interleave further.  Times are in milliseconds since boot.
    [K_SECONDS] is the kernel's conversion of a delay in seconds. *)

From S2P Require Import Prelude.

(** ** State *)

(** [heartbeat_timeout_cb]: the handler of main.c, the default of heartbeat.c, or
    another one, which returns. *)
Inductive timeout_cb := HandlerMain | HandlerDefault | HandlerOther.

#[export] Instance timeout_cb_eq_dec : EqDecision timeout_cb.
Proof. solve_decision. Defined.

(** The thread: ended or never created, in [k_sem_take] until a time, in the
    [k_msleep] of the handler of main.c. *)
Inductive hb_thread := NoThread | Taking (until : Z) | Announcing (until : Z).

(** What the module does to the outside. *)
Inductive hb_output := TimedOut (t : Z) | ShutdownScheduled (ms : Z) | SystemReset (t : Z).

Record hb_sys := HbSys {
  thread_id : bool;                          (* thread_id != NULL *)
  thread : hb_thread;
  heartbeat_timeout_cb : option timeout_cb;
  global_delay_s : Z;
  heartbeat_sem : Z;
  now : Z;
  halted : bool;                             (* NVIC_SystemReset was called *)
  outputs : list hb_output;
}.

Definition hb_boot : hb_sys := HbSys false NoThread None 0 0 0 false [].

Definition set_thread (p : hb_thread) (s : hb_sys) : hb_sys :=
  HbSys (thread_id s) p (heartbeat_timeout_cb s) (global_delay_s s) (heartbeat_sem s) (now s) (halted s) (outputs s).
Definition set_id (b : bool) (s : hb_sys) : hb_sys :=
  HbSys b (thread s) (heartbeat_timeout_cb s) (global_delay_s s) (heartbeat_sem s) (now s) (halted s) (outputs s).
Definition set_cb (c : timeout_cb) (s : hb_sys) : hb_sys :=
  HbSys (thread_id s) (thread s) (Some c) (global_delay_s s) (heartbeat_sem s) (now s) (halted s) (outputs s).
Definition set_delay (d : Z) (s : hb_sys) : hb_sys :=
  HbSys (thread_id s) (thread s) (heartbeat_timeout_cb s) d (heartbeat_sem s) (now s) (halted s) (outputs s).
Definition set_sem (n : Z) (s : hb_sys) : hb_sys :=
  HbSys (thread_id s) (thread s) (heartbeat_timeout_cb s) (global_delay_s s) n (now s) (halted s) (outputs s).
Definition set_now (t : Z) (s : hb_sys) : hb_sys :=
  HbSys (thread_id s) (thread s) (heartbeat_timeout_cb s) (global_delay_s s) (heartbeat_sem s) t (halted s) (outputs s).
Definition out (o : hb_output) (s : hb_sys) : hb_sys :=
  HbSys (thread_id s) (thread s) (heartbeat_timeout_cb s) (global_delay_s s) (heartbeat_sem s) (now s) (halted s)
    (outputs s ++ [o]).
Definition system_reset (s : hb_sys) : hb_sys :=
  HbSys (thread_id s) (thread s) (heartbeat_timeout_cb s) (global_delay_s s) (heartbeat_sem s) (now s) true
    (outputs s ++ [SystemReset (now s)]).

Section Heartbeat.
Context (K_SECONDS : Z -> Z).

(** ** The monitoring thread *)

(** From the top of the loop until the thread blocks or ends: each turn with a
    count in the semaphore takes it and reads the delay again.  The fuel is the
    count of the semaphore plus one. *)
Fixpoint loop_top (fuel : nat) (s : hb_sys) : hb_sys :=
  match fuel with
  | O => s
  | S f =>
      if heartbeat_sem s =? 0 then set_thread (Taking (now s + K_SECONDS (global_delay_s s))) s
      else
        let s := set_sem (heartbeat_sem s - 1) s in
        if global_delay_s s =? 0 then set_id false (set_thread NoThread s) else loop_top f s
  end.

Definition run_thread (s : hb_sys) : hb_sys := loop_top (S (Z.to_nat (heartbeat_sem s))) s.

(** After [k_sem_take] or after the handler returned. *)
Definition after_take (s : hb_sys) : hb_sys :=
  if global_delay_s s =? 0 then set_id false (set_thread NoThread s) else run_thread s.

(** [heartbeat_timeout_handler] of main.c, up to its sleep. *)
Definition shutdown_delay_ms : Z := 5000.
Definition heartbeat_timeout_handler (s : hb_sys) : hb_sys :=
  set_thread (Announcing (now s + shutdown_delay_ms)) (out (ShutdownScheduled shutdown_delay_ms) s).

Definition timeout_default_handler (s : hb_sys) : hb_sys := system_reset s.

(** The call of a handler at the time-out, and what the thread does when it
    returns.  A call through NULL is a fault. *)
Definition call_handler (s : hb_sys) : option hb_sys :=
  let s := out (TimedOut (now s)) s in
  match heartbeat_timeout_cb s with
  | None => None
  | Some HandlerMain => Some (heartbeat_timeout_handler s)
  | Some HandlerDefault => Some (timeout_default_handler s)
  | Some HandlerOther => Some (after_take s)
  end.

(** [k_sem_give]: a thread that waits gets it at once. *)
Definition give_sem (s : hb_sys) : hb_sys :=
  match thread s with
  | Taking _ => after_take s
  | _ => set_sem (Z.min 1 (heartbeat_sem s + 1)) s
  end.

(** ** Calls *)

Definition heartbeat_boom (delay_s : Z) (s : hb_sys) : Z * hb_sys :=
  let s := set_delay delay_s s in
  let s :=
    if negb (thread_id s) && negb (global_delay_s s =? 0) then
      let s := set_id true (run_thread s) in
      match heartbeat_timeout_cb s with None => set_cb HandlerDefault s | Some _ => s end
    else s in
  (RET_SUCCESS, give_sem s).

Definition heartbeat_register_cb (cb : option timeout_cb) (s : hb_sys) : hb_sys :=
  set_cb (default HandlerDefault cb) s.

(** One millisecond passes: the wait times out, or the handler wakes up. *)
Definition tick (s : hb_sys) : option hb_sys :=
  let s := set_now (now s + 1) s in
  match thread s with
  | Taking t => if t <=? now s then call_handler (set_delay 0 s) else Some s
  | Announcing t => Some (if t <=? now s then system_reset s else s)
  | NoThread => Some s
  end.

(** ** Runs *)

Inductive hb_event := Beat (delay_s : Z) | Register (cb : option timeout_cb) | Tick.

Definition hb_step (s : hb_sys) (e : hb_event) : option hb_sys :=
  if halted s then Some s
  else
    match e with
    | Beat d => Some (heartbeat_boom d s).2
    | Register cb => Some (heartbeat_register_cb cb s)
    | Tick => tick s
    end.

Fixpoint hb_run (es : list hb_event) (s : hb_sys) : option hb_sys :=
  match es with
  | [] => Some s
  | e :: es => s ← hb_step s e; hb_run es s
  end.

(** ** Specification: a dead man's switch

    A beat with a delay arms the switch from now on, a beat with 0 disarms it.
    When it goes off, the handler is called once.  The handler of main.c
    announces a shutdown and resets five seconds later, the default resets. *)

Inductive switch := Off | Armed (until : Z) | Going (until : Z) | Dead.

Record spec := Spec { sw : switch; handler : option timeout_cb; clock : Z; history : list hb_output }.

Definition spec_boot : spec := Spec Off None 0 [].

Definition go_off (s : spec) : spec :=
  let h := history s ++ [TimedOut (clock s)] in
  match handler s with
  | Some HandlerMain => Spec (Going (clock s + shutdown_delay_ms)) (handler s) (clock s) (h ++ [ShutdownScheduled shutdown_delay_ms])
  | Some HandlerOther => Spec Off (handler s) (clock s) h
  | _ => Spec Dead (handler s) (clock s) (h ++ [SystemReset (clock s)])
  end.

Definition spec_step (s : spec) (e : hb_event) : spec :=
  match sw s, e with
  | Dead, _ => s
  | Going _, Beat _ => s
  | _, Beat d => Spec (if d =? 0 then Off else Armed (clock s + K_SECONDS d))
                   (if d =? 0 then handler s else Some (default HandlerDefault (handler s))) (clock s) (history s)
  | _, Register cb => Spec (sw s) (Some (default HandlerDefault cb)) (clock s) (history s)
  | w, Tick =>
      let s := Spec w (handler s) (clock s + 1) (history s) in
      match w with
      | Armed t => if t <=? clock s then go_off s else s
      | Going t => if t <=? clock s then Spec Dead (handler s) (clock s) (history s ++ [SystemReset (clock s)]) else s
      | _ => s
      end
  end.

(** ** The monitor is the switch *)

(** When no thread runs, the semaphore may keep a count of a beat that found
    none; a running thread never leaves one. *)
Record hb_rel (s : hb_sys) (a : spec) : Prop := HbRel {
  rel_clock : now s = clock a;
  rel_cb : heartbeat_timeout_cb s = handler a;
  rel_out : outputs s = history a;
  rel_sem : 0 <= heartbeat_sem s <= 1;
  rel_sw :
    match sw a with
    | Off => halted s = false /\ thread_id s = false /\ thread s = NoThread /\ global_delay_s s = 0
    | Armed t => halted s = false /\ thread_id s = true /\ thread s = Taking t /\ global_delay_s s <> 0 /\
                 heartbeat_sem s = 0 /\ handler a <> None
    | Going t => halted s = false /\ thread_id s = true /\ thread s = Announcing t
    | Dead => halted s = true
    end;
}.

Lemma run_thread_waits s : 0 <= heartbeat_sem s <= 1 -> global_delay_s s <> 0 ->
  run_thread s = set_thread (Taking (now s + K_SECONDS (global_delay_s s))) (set_sem 0 s).
Proof.
  intros Hs Hd. apply Z.eqb_neq in Hd. unfold run_thread.
  assert (heartbeat_sem s = 0 \/ heartbeat_sem s = 1) as [E | E] by lia; rewrite E; cbn.
  - rewrite E. cbn. destruct s; cbn in *. by subst.
  - rewrite E. cbn. by rewrite Hd.
Qed.

#[local] Arguments run_thread : simpl never.

Lemma boot_rel : hb_rel hb_boot spec_boot.
Proof. constructor; cbn; auto with lia. Qed.

(** A beat with no thread. *)
Lemma beat_off d s a : hb_rel s a -> sw a = Off -> hb_rel (heartbeat_boom d s).2 (spec_step a (Beat d)).
Proof.
  intros [Hc Hcb Ho Hs Hw] E. rewrite E in Hw. destruct Hw as (Hh & Hi & Ht & _).
  unfold heartbeat_boom, spec_step. rewrite E. cbn [global_delay_s set_delay thread_id].
  rewrite Hi. cbn [negb andb]. destruct (Z.eqb_spec d 0) as [-> | Hd]; cbn [negb].
  - unfold give_sem. cbn [thread set_delay]. rewrite Ht. constructor; cbn; auto; lia.
  - rewrite run_thread_waits by done. unfold give_sem.
    destruct (heartbeat_timeout_cb s) eqn:Ec; cbn; rewrite Ec; cbn; unfold after_take; cbn;
      (bfalse (d =? 0)); rewrite run_thread_waits by done; constructor; cbn; rewrite ?Hc, <- ?Hcb; cbn; auto with lia; done.
Qed.

(** A beat while the thread waits. *)
Lemma beat_armed d t s a : hb_rel s a -> sw a = Armed t -> hb_rel (heartbeat_boom d s).2 (spec_step a (Beat d)).
Proof.
  intros [Hc Hcb Ho Hs Hw] E. rewrite E in Hw. destruct Hw as (Hh & Hi & Ht & Hd0 & Hz & Hn).
  unfold heartbeat_boom, spec_step. rewrite E. cbn [global_delay_s set_delay thread_id].
  rewrite Hi. cbn [negb andb]. unfold give_sem, after_take. cbn [thread set_delay snd global_delay_s]. rewrite Ht.
  destruct (Z.eqb_spec d 0) as [-> | Hd].
  - constructor; cbn; auto.
  - rewrite run_thread_waits by done.
    assert (Some (default HandlerDefault (handler a)) = handler a) as Eh by (by destruct (handler a)).
    constructor; cbn; rewrite ?Eh, ?Hc; auto with lia. repeat split; auto.
Qed.

#[local] Ltac relate := constructor; cbn; repeat (match goal with H : sw _ = _ |- _ => rewrite H end);
  repeat split; try congruence; try lia.

Lemma tick_armed t s a : hb_rel s a -> sw a = Armed t -> exists s', tick s = Some s' /\ hb_rel s' (spec_step a Tick).
Proof.
  intros [Hc Hcb Ho Hs Hw] E. rewrite E in Hw. destruct Hw as (Hh & Hi & Ht & Hd & Hz & Hn).
  unfold tick, spec_step. cbn [thread set_now now]. rewrite Ht, E. cbn [clock]. rewrite Hc.
  destruct (t <=? clock a + 1); [| eexists; split; [done | relate; done]].
  unfold call_handler, go_off. cbn [heartbeat_timeout_cb out set_delay set_now now handler clock history].
  rewrite Hcb. destruct (handler a) as [[| |] |] eqn:Eh; [..| done]; eexists; (split; [done |]); relate.
Qed.

Lemma hb_step_refines s a e : hb_rel s a -> exists s', hb_step s e = Some s' /\ hb_rel s' (spec_step a e).
Proof.
  intros R. unfold hb_step. destruct (sw a) eqn:E; pose proof R as [Hc Hcb Ho Hs Hw]; rewrite E in Hw.
  - destruct Hw as (Hh & Hi & Ht & Hd). rewrite Hh. destruct e as [d | cb |].
    + eexists. split; [done |]. by apply beat_off.
    + eexists. split; [done |]. unfold spec_step. rewrite E. relate.
    + unfold tick. cbn [thread set_now]. rewrite Ht. eexists. split; [done |]. unfold spec_step. rewrite E. relate.
  - pose proof Hw as (Hh & Hi & Ht & Hd & Hz & Hn). rewrite Hh. destruct e as [d | cb |].
    + eexists. split; [done |]. by eapply beat_armed.
    + eexists. split; [done |]. unfold spec_step. rewrite E. relate; done.
    + by eapply tick_armed.
  - destruct Hw as (Hh & Hi & Ht). rewrite Hh. unfold spec_step. rewrite E. destruct e as [d | cb |].
    + eexists. split; [done |]. unfold heartbeat_boom, give_sem. cbn. rewrite Hi. cbn. rewrite Ht. relate.
    + eexists. split; [done |]. relate.
    + unfold tick. cbn [thread set_now now clock]. rewrite Ht, Hc.
      eexists. split; [done |]. destruct (until <=? clock a + 1); relate.
  - rewrite Hw. eexists. split; [done |]. unfold spec_step. by rewrite E.
Qed.

Lemma hb_run_refines es : forall s a, hb_rel s a ->
  exists s', hb_run es s = Some s' /\ hb_rel s' (fold_left spec_step es a).
Proof.
  induction es as [| e es IH]; intros s a R; [by eexists |].
  destruct (hb_step_refines s a e R) as (s1 & E & R1). destruct (IH s1 _ R1) as (s' & E' & R').
  exists s'. split; [| done]. cbn [hb_run]. by rewrite E.
Qed.

(** *** Beats in time, and silence *)

Definition ticks (n : Z) : list hb_event := replicate (Z.to_nat n) Tick.

(** Before the deadline nothing happens; at the deadline the switch goes off. *)
Lemma spec_ticks_armed t h n : forall c o, t = c + Z.of_nat n -> (0 < n)%nat ->
  fold_left spec_step (replicate n Tick) (Spec (Armed t) h c o) = go_off (Spec (Armed t) h t o) /\
  (forall k, (k < n)%nat -> fold_left spec_step (replicate k Tick) (Spec (Armed t) h c o) =
                            Spec (Armed t) h (c + Z.of_nat k) o).
Proof.
  induction n as [| n IH]; intros c o E Hn; [lia |].
  assert (spec_step (Spec (Armed t) h c o) Tick =
          if t <=? c + 1 then go_off (Spec (Armed t) h (c + 1) o) else Spec (Armed t) h (c + 1) o) as S1 by done.
  destruct n as [| n].
  - replace t with (c + 1) in * by lia. split.
    + cbn [replicate fold_left]. rewrite S1. btrue (c + 1 <=? c + 1). done.
    + intros k Hk. assert (k = 0%nat) as -> by lia. cbn. by rewrite Z.add_0_r.
  - destruct (IH (c + 1) o) as [I1 I2]; [lia | lia |]. rewrite <- I1. split.
    + cbn [replicate fold_left]. rewrite S1. bfalse (t <=? c + 1). done.
    + intros [| k] Hk; [cbn; by rewrite Z.add_0_r |]. cbn [replicate fold_left]. rewrite S1.
      bfalse (t <=? c + 1). change (if false then ?a else ?b) with b.
      change (fold_left spec_step (replicate k Tick) (Spec (Armed t) h (c + 1) o)
              = Spec (Armed t) h (c + Z.of_nat (S k)) o).
      rewrite I2 by lia. f_equal. lia.
Qed.

(** Once it is going, only time matters. *)
Fixpoint elapsed (es : list hb_event) : Z :=
  match es with [] => 0 | Tick :: es => 1 + elapsed es | _ :: es => elapsed es end.

Lemma elapsed_nonneg es : 0 <= elapsed es.
Proof. induction es as [| [] es IH]; cbn; lia. Qed.

Lemma elapsed_ticks n : 0 <= n -> elapsed (ticks n) = n.
Proof.
  intros H. unfold ticks. rewrite <- (Z2Nat.id n H) at 2. generalize (Z.to_nat n) as k.
  induction k as [| k IH]; [done |]. cbn [replicate elapsed]. lia.
Qed.

Lemma spec_dead es : forall a, sw a = Dead -> fold_left spec_step es a = a.
Proof.
  induction es as [| e es IH]; intros a E; [done |]. cbn [fold_left].
  assert (spec_step a e = a) as -> by (unfold spec_step; by rewrite E). by apply IH.
Qed.

Lemma spec_going t es : forall h c o, c < t ->
  history (fold_left spec_step es (Spec (Going t) h c o)) =
  o ++ (if t <=? c + elapsed es then [SystemReset t] else []).
Proof.
  induction es as [| [d | cb |] es IH]; intros h c o Hc; cbn [fold_left elapsed].
  - bfalse (t <=? c + 0). by rewrite app_nil_r.
  - by apply IH.
  - by apply IH.
  - cbn. replace (c + (1 + elapsed es)) with (c + 1 + elapsed es) by lia. destruct (Z.leb_spec t (c + 1)).
    + rewrite spec_dead by done. cbn. pose proof (elapsed_nonneg es). assert (t = c + 1) as -> by lia.
      by btrue (c + 1 <=? c + 1 + elapsed es).
    + by rewrite IH.
Qed.

(** Beats that come in time: each delay is followed by fewer milliseconds than
    it allows. *)
Fixpoint in_time (bs : list (Z * Z)) : Prop :=
  match bs with
  | [] => True
  | (d, n) :: bs => (d = 0 \/ (0 <= n < K_SECONDS d)) /\ in_time bs
  end.

Fixpoint beats (bs : list (Z * Z)) : list hb_event :=
  match bs with [] => [] | (d, n) :: bs => Beat d :: ticks n ++ beats bs end.

Definition alive (a : spec) : Prop := match sw a with Going _ | Dead => False | _ => True end.

Lemma spec_ticks_off h n : forall c o,
  fold_left spec_step (replicate n Tick) (Spec Off h c o) = Spec Off h (c + Z.of_nat n) o.
Proof.
  induction n as [| n IH]; intros c o; [cbn; by rewrite Z.add_0_r |].
  cbn [replicate fold_left]. change (spec_step (Spec Off h c o) Tick) with (Spec Off h (c + 1) o).
  rewrite IH. f_equal. lia.
Qed.

Lemma spec_beat d a : alive a -> handler a <> None ->
  spec_step a (Beat d) = Spec (if d =? 0 then Off else Armed (clock a + K_SECONDS d)) (handler a) (clock a) (history a).
Proof.
  unfold alive, spec_step. intros Ha Hh. destruct (sw a), (handler a), (d =? 0); done.
Qed.

Lemma spec_beat_ticks d n a : alive a -> handler a <> None -> d = 0 \/ (0 <= n < K_SECONDS d) ->
  let a' := fold_left spec_step (ticks n) (spec_step a (Beat d)) in
  alive a' /\ handler a' = handler a /\ history a' = history a.
Proof.
  intros Ha Hh Hd. cbv zeta. rewrite spec_beat by done. unfold ticks. destruct (Z.eqb_spec d 0) as [-> | Hne].
  - by rewrite spec_ticks_off.
  - destruct Hd as [Hd | Hd]; [done |].
    by rewrite (proj2 (spec_ticks_armed (clock a + K_SECONDS d) (handler a) (Z.to_nat (K_SECONDS d)) (clock a) (history a)
                  ltac:(lia) ltac:(lia))) by lia.
Qed.

Lemma spec_beats bs : forall a, alive a -> handler a <> None -> in_time bs ->
  let a' := fold_left spec_step (beats bs) a in
  alive a' /\ handler a' = handler a /\ history a' = history a.
Proof.
  induction bs as [| [d n] bs IH]; intros a Ha Hh Hb; [done |]. destruct Hb as [Hd Hb].
  cbn [beats fold_left]. rewrite fold_left_app.
  destruct (spec_beat_ticks d n a Ha Hh Hd) as (A & B & E). destruct (IH _ A ltac:(congruence) Hb) as (A' & B' & E').
  cbv zeta in *. split; [done |]. split; congruence.
Qed.

Lemma hb_run_app es fs s : hb_run (es ++ fs) s = hb_run es s ≫= hb_run fs.
Proof.
  revert s. induction es as [| e es IH]; intros s; [done |]. cbn [app hb_run].
  destruct (hb_step s e); [apply IH | done].
Qed.
End Heartbeat.

(** ** The watchdog: lib/watchdog/watchdog.c

    [last_feed] is when the driver was last told that the firmware is alive (or
    started), [wd_time] the time. *)

Record wd_sys := WdSys {
  wdt_channel_id : Z;
  feed : bool;
  wd_started : bool;                  (* wdt_setup succeeded *)
  wd_thread : bool;
  last_feed : Z;
  wd_time : Z;
}.

Definition wd_boot : wd_sys := WdSys (-1) true false false 0 0.

Section Watchdog.
Context (WATCHDOG_RELOAD_MS TIMEOUT_MS : Z).

(** What the driver answers: ready, [wdt_install_timeout], [wdt_setup]. *)
Definition watchdog_init (ready : bool) (install setup : Z) (s : wd_sys) : Z * wd_sys :=
  if negb ready then (RET_ERROR_NOT_INITIALIZED, s)
  else if 0 <=? wdt_channel_id s then (RET_ERROR_ALREADY_INITIALIZED, s)
  else
    let s := WdSys install (feed s) (wd_started s) (wd_thread s) (last_feed s) (wd_time s) in
    if install <? 0 then (RET_ERROR_NOT_INITIALIZED, s)
    else if setup <? 0 then (RET_ERROR_NOT_INITIALIZED, s)
    else (RET_SUCCESS, WdSys install (feed s) true true (wd_time s) (wd_time s)).

Definition watchdog_stop_feed (s : wd_sys) : wd_sys :=
  WdSys (wdt_channel_id s) false (wd_started s) (wd_thread s) (last_feed s) (wd_time s).

(** One turn of [watchdog_thread], with the result of the checks and how late the
    thread is scheduled after its sleep. *)
Definition watchdog_turn (checks : bool) (late : Z) (s : wd_sys) : wd_sys :=
  if negb (wd_thread s) then s
  else if wdt_channel_id s <? 0 then WdSys (wdt_channel_id s) (feed s) (wd_started s) false (last_feed s) (wd_time s)
  else
    WdSys (wdt_channel_id s) (feed s) (wd_started s) (wd_thread s)
      (if feed s && checks then wd_time s else last_feed s) (wd_time s + WATCHDOG_RELOAD_MS + late).

Inductive wd_event := WdTurn (checks : bool) (late : Z) | WdStop.

Definition wd_step (s : wd_sys) (e : wd_event) : wd_sys :=
  match e with WdTurn c l => watchdog_turn c l s | WdStop => watchdog_stop_feed s end.

(** The driver resets the chip when it is not fed for [TIMEOUT_MS]. *)
Definition wd_expired (s : wd_sys) : bool := wd_started s && (TIMEOUT_MS <? wd_time s - last_feed s).

Definition wd_alive (e : wd_event) : Prop :=
  match e with WdTurn c l => c = true /\ 0 <= l <= TIMEOUT_MS - WATCHDOG_RELOAD_MS | WdStop => False end.

Definition wd_ok (s : wd_sys) : Prop :=
  feed s = true /\ wd_thread s = true /\ 0 <= wdt_channel_id s /\ 0 <= wd_time s - last_feed s <= TIMEOUT_MS.

Lemma wd_alive_ok es : forall s, 0 <= WATCHDOG_RELOAD_MS -> wd_ok s -> Forall wd_alive es -> wd_ok (fold_left wd_step es s).
Proof.
  induction es as [| e es IH]; intros s Hr Hs He; [done |]. apply Forall_cons in He as [He Hes].
  cbn [fold_left]. apply IH; [done | | done]. destruct e as [c l |]; [| done]. destruct He as [-> Hl].
  destruct Hs as (F & T & C & L). cbn [wd_step]. unfold watchdog_turn, wd_ok. rewrite T, F. cbn [negb andb].
  bfalse (wdt_channel_id s <? 0). cbn. auto with lia.
Qed.

(** A failed check or a stop: the next turns do not feed, until a check passes. *)
Lemma wd_unfed es : forall s,
  feed s = false \/ Forall (fun e => match e with WdTurn c _ => c = false | WdStop => True end) es ->
  last_feed (fold_left wd_step es s) = last_feed s.
Proof.
  induction es as [| e es IH]; intros s Hs; [done |]. cbn [fold_left].
  assert (last_feed (wd_step s e) = last_feed s) as <-.
  { destruct e as [c l |]; [| done]. cbn. unfold watchdog_turn. destruct (negb _); [done |]. destruct (_ <? 0); [done |].
    cbn. destruct Hs as [-> | H]; [done |]. apply Forall_cons in H as [-> _]. by rewrite andb_false_r. }
  apply IH. destruct Hs as [Hs | H]; [left | right; by apply Forall_cons in H as [_ ?]].
  destruct e as [c l |]; [| done]. cbn. unfold watchdog_turn. destruct (negb _); [done |]. by destruct (_ <? 0).
Qed.

Lemma wd_time_passes es : forall s, 0 <= WATCHDOG_RELOAD_MS -> wd_thread s = true -> 0 <= wdt_channel_id s ->
  Forall (fun e => match e with WdTurn _ l => 0 <= l | WdStop => False end) es ->
  wd_time s + zlen es * WATCHDOG_RELOAD_MS <= wd_time (fold_left wd_step es s) /\
  wd_started (fold_left wd_step es s) = wd_started s.
Proof.
  induction es as [| e es IH]; intros s Hr T C He; [unfold zlen; cbn; split; [lia | done] |].
  apply Forall_cons in He as [He Hes]. destruct e as [c l |]; [| done]. cbn [fold_left wd_step].
  unfold watchdog_turn. rewrite T. cbn [negb]. bfalse (wdt_channel_id s <? 0).
  match goal with |- context [fold_left wd_step es ?x] => destruct (IH x Hr eq_refl C Hes) as [I1 I2] end.
  cbn in *. unfold zlen in *. cbn [length]. split; [lia | done].
Qed.
End Watchdog.

(** ** Theorems *)

(** C25: the monitor is a dead man's switch.  Whatever beats, registrations and
    milliseconds come, it never faults, and what it does to the outside is what the
    switch of the specification does: every beat starts a new delay, a beat with 0
    switches it off, the handler is called once, at the millisecond the last delay
    ends, and the announced reset comes five seconds later. *)
Theorem heartbeat_is_a_switch K_SECONDS es :
  exists s, hb_run K_SECONDS es hb_boot = Some s /\
    outputs s = history (fold_left (spec_step K_SECONDS) es spec_boot).
Proof.
  destruct (hb_run_refines K_SECONDS es _ _ boot_rel) as (s & E & R). exists s. split; [done |]. apply R.
Qed.

(** While the Jetson beats in time the handler is never called; a silence of
    one delay ends in a reset, and nothing stops it: with the handler of main.c in
    place, whatever comes from the time-out on, the shutdown is announced at the
    deadline and the reset comes 5 s later. *)
Theorem silence_resets K_SECONDS bs d es :
  in_time K_SECONDS bs -> d <> 0 -> 0 < K_SECONDS d -> shutdown_delay_ms <= elapsed es ->
  exists s s', hb_run K_SECONDS (Register (Some HandlerMain) :: beats bs) hb_boot = Some s /\ outputs s = [] /\
    hb_run K_SECONDS (Beat d :: ticks (K_SECONDS d) ++ es) s = Some s' /\
    let t := now s + K_SECONDS d in
    outputs s' = [TimedOut t; ShutdownScheduled shutdown_delay_ms; SystemReset (t + shutdown_delay_ms)].
Proof.
  intros Hb Hd Hk He.
  destruct (hb_run_refines K_SECONDS (Register (Some HandlerMain) :: beats bs) _ _ boot_rel) as (s & E & R).
  destruct (hb_run_refines K_SECONDS (Beat d :: ticks (K_SECONDS d) ++ es) s _ R) as (s' & E' & R').
  exists s, s'. split; [done |]. cbn [fold_left] in R.
  destruct (spec_beats K_SECONDS bs (Spec Off (Some HandlerMain) 0 [])) as (A & B & C); [done | done | done |].
  cbn [fold_left] in R'. change (spec_step K_SECONDS spec_boot (Register (Some HandlerMain)))
    with (Spec Off (Some HandlerMain) 0 []) in *.
  set (a := fold_left (spec_step K_SECONDS) (beats bs) (Spec Off (Some HandlerMain) 0 [])) in *.
  cbn [handler history] in B, C.
  split; [by rewrite (rel_out _ _ R), C |]. split; [done |]. cbv zeta.
  rewrite (rel_out _ _ R'), (rel_clock _ _ R). rewrite spec_beat by (auto; congruence).
  bfalse (d =? 0). unfold ticks. rewrite fold_left_app.
  rewrite (proj1 (spec_ticks_armed K_SECONDS (clock a + K_SECONDS d) (handler a) (Z.to_nat (K_SECONDS d)) (clock a) (history a)
                    ltac:(lia) ltac:(lia))).
  rewrite B, C. unfold go_off. cbn [handler history clock]. rewrite spec_going by (unfold shutdown_delay_ms; lia).
  by btrue (clock a + K_SECONDS d + shutdown_delay_ms <=? clock a + K_SECONDS d + elapsed es).
Qed.

Lemma silence_resets_witness :
  let ks d := 1000 * d in
  exists s s', hb_run ks (Register (Some HandlerMain) :: beats [(2, 1500); (0, 9000); (3, 2999)]) hb_boot = Some s /\
    outputs s = [] /\
    hb_run ks (Beat 1 :: ticks (ks 1) ++ (Beat 60 :: ticks 6000)) s = Some s' /\
    let t := now s + ks 1 in
    outputs s' = [TimedOut t; ShutdownScheduled shutdown_delay_ms; SystemReset (t + shutdown_delay_ms)].
Proof.
  intros ks. apply silence_resets; [cbn; unfold ks; lia | lia | unfold ks; lia |].
  cbn [elapsed]. rewrite elapsed_ticks; unfold shutdown_delay_ms; lia.
Defined.

(** The watchdog.  As long as the checks pass and each turn comes in time it
    does not expire; after [watchdog_stop_feed] it is never fed again and expires once
    the time-out has passed. *)
Theorem watchdog_expires_when_stopped reload timeout es fs s :
  0 < reload -> wd_ok timeout s -> wd_started s = true -> Forall (wd_alive reload timeout) es ->
  Forall (fun e => match e with WdTurn _ l => 0 <= l | WdStop => False end) fs ->
  let s1 := fold_left (wd_step reload) es s in
  let s2 := fold_left (wd_step reload) fs (watchdog_stop_feed s1) in
  wd_expired timeout s1 = false /\ (timeout < zlen fs * reload -> wd_expired timeout s2 = true).
Proof.
  intros Hr Hs Hst He Hf. cbv zeta. destruct (wd_alive_ok reload timeout es s ltac:(lia) Hs He) as (F & T & C & L).
  set (s1 := fold_left (wd_step reload) es s) in *. unfold wd_expired. split.
  - bfalse (timeout <? wd_time s1 - last_feed s1). by rewrite andb_false_r.
  - intros Ht. rewrite wd_unfed by (by left).
    destruct (wd_time_passes reload fs (watchdog_stop_feed s1)) as [P Q]; [lia | done | done | done |].
    rewrite Q. cbn in *.
    assert (wd_started s1 = true) as ->.
    { rewrite <- Hst. subst s1. clear -He. revert s. induction es as [| e es IH]; intros s; [done |].
      apply Forall_cons in He as [He Hes]. cbn [fold_left]. rewrite IH by done. destruct e as [c l |]; [| done].
      cbn. unfold watchdog_turn. destruct (negb _); [done |]. by destruct (_ <? 0). }
    by btrue (timeout <? wd_time (fold_left (wd_step reload) fs (watchdog_stop_feed s1)) - last_feed s1).
Qed.

Lemma watchdog_expires_when_stopped_witness :
  let s := (watchdog_init true 0 0 wd_boot).2 in
  let s1 := fold_left (wd_step 1000) (replicate 50 (WdTurn true 20)) s in
  let s2 := fold_left (wd_step 1000) (replicate 4 (WdTurn true 5)) (watchdog_stop_feed s1) in
  wd_expired 3000 s1 = false /\ (3000 < zlen (replicate 4 (WdTurn true 5)) * 1000 -> wd_expired 3000 s2 = true).
Proof.
  apply watchdog_expires_when_stopped; [lia | unfold wd_ok; cbn; auto with lia | done | |]; apply Forall_replicate; cbn; auto with lia.
Defined.

(** A [wdt_setup] that fails leaves the channel set: the next attempt is refused
    although no watchdog runs. *)
Example watchdog_setup_failure_sticks :
  let '(r1, s1) := watchdog_init true 0 (-5) wd_boot in
  let '(r2, s2) := watchdog_init true 0 0 s1 in
  (r1, r2, wd_thread s2) = (RET_ERROR_NOT_INITIALIZED, RET_ERROR_ALREADY_INITIALIZED, false).
Proof. reflexivity. Qed.
