(* ===== verification/Ping.v ===== *)
(** lib/health_monitoring/mcu_ping.c and main_board/src/system/ping_sec.c: the ping
    between the two microcontrollers and the periodic check of the security MCU.

    The transmit function given to [ping_init] is the environment: what it returns
    for a message is an argument; the messages handed to it are kept in order. *)

From S2P Require Import Prelude.

(** ** Data *)

(** [orb_mcu_Ping]: counter and [test] bytes. *)
Record ping := Ping { counter : Z; test : bytes }.

#[export] Instance ping_eq_dec : EqDecision ping.
Proof. solve_decision. Defined.

Inductive ping_state_t := PING_STATE_IDLE | PING_STATE_WAITING_FOR_PONG | PING_STATE_PONG_RECEIVED.

#[export] Instance ping_state_eq_dec : EqDecision ping_state_t.
Proof. solve_decision. Defined.

(** "Hello" *)
Definition ping_test_bytes : bytes := [0x48; 0x65; 0x6c; 0x6c; 0x6f].
Definition UINT32_MAX : Z := 2 ^ 32 - 1.

Record ping_sys := PingSys {
  ping_last_sent_counter : Z;
  ping_state : ping_state_t;
  send_cb : bool;                 (* send_cb != NULL *)
  sent : list ping;
}.

Definition ping_boot : ping_sys := PingSys 0 PING_STATE_IDLE false [].

Definition set_state (st : ping_state_t) (s : ping_sys) : ping_sys :=
  PingSys (ping_last_sent_counter s) st (send_cb s) (sent s).

Definition ping_init (s : ping_sys) : ping_sys := PingSys (ping_last_sent_counter s) (ping_state s) true (sent s).
Definition pong_received (s : ping_sys) : bool := bool_decide (ping_state s = PING_STATE_PONG_RECEIVED).
Definition ping_pong_reset (s : ping_sys) : ping_sys := set_state PING_STATE_IDLE s.
Definition waiting (s : ping_sys) : bool := bool_decide (ping_state s = PING_STATE_WAITING_FOR_PONG).

Section Ping.
(** The size of [test.bytes] and the transmit function. *)
Context (TEST_SIZE : Z) (send_ret : ping -> Z).

(** [ping_pong_send_mcu(ping)]; [rand] is what [rand()] returns. *)
Definition ping_pong_send_mcu (rand : Z) (p : option ping) (s : ping_sys) : Z * ping_sys :=
  if bool_decide (p = None) && waiting s then (RET_ERROR_BUSY, s)
  else if negb (send_cb s) then (RET_ERROR_NOT_INITIALIZED, s)
  else if match p with Some q => TEST_SIZE <? zlen (test q) | None => false end then (RET_ERROR_INVALID_PARAM, s)
  else
    match p with
    | Some q =>
        let pong := Ping (counter q) (take (Z.to_nat (Z.min TEST_SIZE (zlen (test q)))) (test q)) in
        (send_ret pong, PingSys (ping_last_sent_counter s) (ping_state s) (send_cb s) (sent s ++ [pong]))
    | None =>
        let s := if pong_received s then set_state PING_STATE_IDLE s else s in
        let m := Ping (rand mod UINT32_MAX) ping_test_bytes in
        let previous_state := ping_state s in
        let s := PingSys (counter m) PING_STATE_WAITING_FOR_PONG (send_cb s) (sent s ++ [m]) in
        let ret := send_ret m in
        (ret, if ret =? RET_SUCCESS then s else set_state previous_state s)
    end.

Definition ping_received (p : option ping) (s : ping_sys) : Z * ping_sys :=
  match p with
  | None => (RET_ERROR_INVALID_PARAM, s)
  | Some q =>
      if waiting s && (counter q =? ping_last_sent_counter s) then
        if bool_decide (test q = ping_test_bytes) then (RET_SUCCESS, set_state PING_STATE_PONG_RECEIVED s)
        else (RET_ERROR_INVALID_PARAM, s)
      else ping_pong_send_mcu 0 p s
  end.

(** ** ping_sec.c *)

(** The result of [ping_sec]: code, what it reports as the state of the link
    (none when the semaphore is not obtained), the semaphore and the ping module.
    [sem_ok]: it was obtained in time; [window]: what is received in the 500 ms. *)
Definition receive_all (ms : list ping) (s : ping_sys) : ping_sys :=
  fold_left (fun s m => (ping_received (Some m) s).2) ms s.

Definition ping_sec (sem_ok : bool) (rand : Z) (window : list ping) (ping_sem : Z) (s : ping_sys)
  : Z * option Z * Z * ping_sys :=
  if negb sem_ok then (RET_ERROR_BUSY, None, ping_sem, s)
  else
    let ping_sem := ping_sem - 1 in
    let '(ret, s) := ping_pong_send_mcu rand None (ping_pong_reset s) in
    if negb (ret =? 0) then (ret, Some RET_ERROR_INVALID_STATE, Z.min 1 (ping_sem + 1), s)
    else
      let s := receive_all window s in
      if pong_received s then (RET_SUCCESS, Some RET_SUCCESS, Z.min 1 (ping_sem + 1), s)
      else (RET_ERROR_TIMEOUT, Some RET_ERROR_TIMEOUT, Z.min 1 (ping_sem + 1), s).

(** The work item: whatever the result, the next check is in a minute. *)
Definition PING_SEC_INTERVAL_MS : Z := 60000.
Definition ping_sec_work_handler (sem_ok : bool) (rand : Z) (window : list ping) (ping_sem : Z) (s : ping_sys)
  : Z * option Z * Z * ping_sys :=
  let '(_, state, sem, s) := ping_sec sem_ok rand window ping_sem s in (PING_SEC_INTERVAL_MS, state, sem, s).

(** ** What a received message does *)

(** The answer to the ping in flight. *)
Definition is_pong (q : ping) (s : ping_sys) : bool :=
  waiting s && (counter q =? ping_last_sent_counter s).

Definition good_pong (c : Z) (q : ping) : bool := (counter q =? c) && bool_decide (test q = ping_test_bytes).

(** Anything else is sent back as it came. *)
Lemma echo q s : send_cb s = true -> zlen (test q) <= TEST_SIZE -> is_pong q s = false ->
  ping_received (Some q) s =
  (send_ret q, PingSys (ping_last_sent_counter s) (ping_state s) (send_cb s) (sent s ++ [q])).
Proof.
  intros Hc Hl Hp. unfold ping_received, is_pong in *. rewrite Hp. unfold ping_pong_send_mcu.
  rewrite Hc. cbn [negb andb bool_decide]. bfalse (TEST_SIZE <? zlen (test q)).
  rewrite bool_decide_eq_false_2 by done. cbn [andb].
  rewrite firstn_all2 by (unfold zlen in *; lia). by destruct q.
Qed.

(** While a ping waits for its answer only the answer changes the state. *)
Lemma receive_waiting q s : ping_state s = PING_STATE_WAITING_FOR_PONG ->
  let s' := (ping_received (Some q) s).2 in
  ping_last_sent_counter s' = ping_last_sent_counter s /\
  ping_state s' = (if good_pong (ping_last_sent_counter s) q then PING_STATE_PONG_RECEIVED
                   else PING_STATE_WAITING_FOR_PONG).
Proof.
  intros E. unfold ping_received, good_pong, waiting. rewrite E, bool_decide_eq_true_2 by done. cbn [andb].
  destruct (counter q =? _); cbn [andb].
  - by destruct (bool_decide _).
  - unfold ping_pong_send_mcu. rewrite bool_decide_eq_false_2 by done. cbn [andb].
    destruct (negb _); [done |]. by destruct (_ <? _).
Qed.

Lemma receive_settled q s : ping_state s <> PING_STATE_WAITING_FOR_PONG ->
  ping_state (ping_received (Some q) s).2 = ping_state s.
Proof.
  intros E. unfold ping_received, waiting. rewrite bool_decide_eq_false_2 by done. cbn [andb].
  unfold ping_pong_send_mcu. rewrite bool_decide_eq_false_2 by done. cbn [andb].
  destruct (negb _); [done |]. by destruct (_ <? _).
Qed.

Lemma receive_all_settled ms : forall s, ping_state s <> PING_STATE_WAITING_FOR_PONG ->
  ping_state (receive_all ms s) = ping_state s.
Proof.
  induction ms as [| m ms IH]; intros s E; [done |]. cbn [receive_all fold_left].
  change (ping_state (receive_all ms (ping_received (Some m) s).2) = ping_state s).
  pose proof (receive_settled m s E) as R. rewrite IH; congruence.
Qed.

Lemma receive_all_waiting ms : forall s, ping_state s = PING_STATE_WAITING_FOR_PONG ->
  ping_state (receive_all ms s) =
  (if existsb (good_pong (ping_last_sent_counter s)) ms then PING_STATE_PONG_RECEIVED else PING_STATE_WAITING_FOR_PONG).
Proof.
  induction ms as [| m ms IH]; intros s E; [done |]. cbn [receive_all fold_left existsb].
  change (fold_left ?f ms ?x) with (receive_all ms x).
  destruct (receive_waiting m s E) as [R1 R2]. destruct (good_pong _ m); cbn [orb].
  - rewrite receive_all_settled; [done | congruence].
  - rewrite IH by done. by rewrite R1.
Qed.
End Ping.

#[local] Arguments receive_all : simpl never.

(** ** Two microcontrollers *)

(** A message sent back and forth: what is delivered to one side is what the
    other side sent last; [None] when nothing was sent. *)
Definition answer (TEST_SIZE : Z) (send_ret : ping -> Z) (q : ping) (s : ping_sys) : option ping * ping_sys :=
  let s' := (ping_received TEST_SIZE send_ret (Some q) s).2 in
  (last (drop (length (sent s)) (sent s')), s').

Fixpoint exchange (TEST_SIZE : Z) (send_ret : ping -> Z) (n : nat) (q : option ping) (x y : ping_sys)
  : option ping * ping_sys * ping_sys :=
  match n, q with
  | S n, Some q => let '(q', x') := answer TEST_SIZE send_ret q x in exchange TEST_SIZE send_ret n q' y x'
  | _, _ => (q, x, y)
  end.

(** ** Theorems *)

(** The verdict of the check of the security MCU.  When the ping could be sent,
    it is a success exactly when, within the 500 ms, a message came with the counter
    of this ping and the five test bytes; otherwise a time-out; in all cases the
    verdict is what is reported and the semaphore is given back. *)
Theorem ping_sec_verdict TEST_SIZE send_ret rand window s :
  send_cb s = true -> (forall m, send_ret m = RET_SUCCESS) ->
  let c := rand mod UINT32_MAX in
  let '(ret, state, sem, s') := ping_sec TEST_SIZE send_ret true rand window 1 s in
  state = Some ret /\ sem = 1 /\
  ret = (if existsb (good_pong c) window then RET_SUCCESS else RET_ERROR_TIMEOUT).
Proof.
  intros Hc Hs. cbv zeta. unfold ping_sec, ping_pong_send_mcu, ping_pong_reset, pong_received, waiting. cbn.
  rewrite Hc, Hs. cbn. rewrite !bool_decide_eq_false_2 by done. cbn.
  match goal with |- context [receive_all _ _ window ?x] =>
    pose proof (receive_all_waiting TEST_SIZE send_ret window x eq_refl) as E end.
  cbn in E. rewrite E. by destruct (existsb _ window).
Qed.

Lemma ping_sec_verdict_witness :
  let good := Ping 77 ping_test_bytes in
  let '(ret, state, sem, s') :=
    ping_sec 16 (fun _ => 0) true 77 [Ping 3 [1]; Ping 77 [0]; good; Ping 9 []] 1 (ping_init ping_boot) in
  state = Some ret /\ sem = 1 /\ ret = RET_SUCCESS.
Proof.
  intros good.
  pose proof (ping_sec_verdict 16 (fun _ => 0) 77 [Ping 3 [1]; Ping 77 [0]; good; Ping 9 []] (ping_init ping_boot)
                eq_refl (fun _ => eq_refl)) as P.
  vm_compute in P |- *. exact P.
Defined.

(** An answer that comes too late never dies out.  If both microcontrollers run
    this module and neither waits for a ping with that counter, a message between
    them is sent back and forth without end, unchanged. *)
Theorem late_pong_bounces_forever TEST_SIZE send_ret n q x y :
  send_cb x = true -> send_cb y = true -> zlen (test q) <= TEST_SIZE ->
  is_pong q x = false -> is_pong q y = false ->
  (exchange TEST_SIZE send_ret n (Some q) x y).1.1 = Some q.
Proof.
  revert x y. induction n as [| n IH]; intros x y Hx Hy Hl Px Py; [done |].
  cbn [exchange]. unfold answer. rewrite echo by done. cbn [snd fst sent].
  rewrite drop_app_length. cbn [last]. apply IH; done.
Qed.

Lemma late_pong_bounces_forever_witness :
  let x := ping_init ping_boot in
  (exchange 16 (fun _ => 0) 1000 (Some (Ping 5 ping_test_bytes)) x x).1.1 = Some (Ping 5 ping_test_bytes).
Proof. intros x. apply late_pong_bounces_forever; [done | done | vm_compute; discriminate | done | done]. Defined.
