(* ===== verification/OrbState.v ===== *)
(** lib/health_monitoring/orb_state.c and main_board/src/system/diag.c: the registered
    states of the system, and how they and the crash reports are sent to the Jetson.

    The states are the items of a linker section, in order; a pointer into it is
    the index of an item.  The packetizer of crash reports (Memfault) is the
    list of the chunks it will hand out, each with what it returns. *)

From S2P Require Import Prelude.

Definition ORB_STATE_MESSAGE_MAX_LENGTH : Z := 36.

(** ** States *)

Record orb_state := OrbState { name : bytes; status : Z; message : bytes }.

(** [orb_state_iter] on a section of [n] items: result and new pointer. *)
Definition orb_state_iter (n : Z) (data_ptr : option Z) : bool * option Z :=
  match data_ptr with
  | None => (true, Some 0)
  | Some i => (negb (n <=? i + 1), Some (i + 1))
  end.

(** [while (orb_state_iter(&data))] with a body that collects the item pointed to;
    [None]: an access outside the section, or the fuel is used up. *)
Fixpoint orb_state_walk {A} (fuel : nat) (l : list A) (p : option Z) : option (list A * option Z) :=
  match fuel with
  | O => None
  | S f =>
      match orb_state_iter (zlen l) p with
      | (true, Some i) =>
          x ← l !! Z.to_nat i;
          '(xs, q) ← orb_state_walk f l (Some i);
          Some (x :: xs, q)
      | (_, q) => Some ([], q)
      end
  end.

(** [orb_state_set_impl]; [fmt]: none for NULL, otherwise the whole text the format
    expands to, or none when [vsnprintf] fails.  The second result: whether the
    truncation is logged. *)
Definition orb_state_set_impl (data : option orb_state) (state : Z) (fmt : option (option bytes))
  : Z * bool * option orb_state :=
  match data with
  | None => (- ENXIO, false, None)
  | Some d =>
      let with_message m := OrbState (name d) state m in
      match fmt with
      | None => (0, false, Some (with_message (splice 0 [0] (message d))))
      | Some None => (- EIO, false, Some (with_message (splice 0 [0] (message d))))
      | Some (Some text) =>
          let kept := take (Z.to_nat (ORB_STATE_MESSAGE_MAX_LENGTH - 1)) text in
          (0, ORB_STATE_MESSAGE_MAX_LENGTH <? zlen text,
           Some (with_message (splice 0 (kept ++ [0]) (message d))))
      end
  end.

Definition orb_state_init_one (s : orb_state) : orb_state :=
  OrbState (name s) RET_ERROR_NOT_INITIALIZED (fill ORB_STATE_MESSAGE_MAX_LENGTH 0).

(** The string in a buffer. *)
Fixpoint c_string (b : bytes) : bytes :=
  match b with [] => [] | c :: b => if c =? 0 then [] else c :: c_string b end.

(** ** diag.c *)

(** The generated status values, in the order of the return codes. *)
Inductive pb_status :=
| STATUS_SUCCESS | STATUS_ERROR_INTERNAL | STATUS_ERROR_NO_MEM | STATUS_ERROR_NOT_FOUND
| STATUS_ERROR_INVALID_PARAM | STATUS_ERROR_INVALID_STATE | STATUS_ERROR_INVALID_ADDR | STATUS_ERROR_BUSY
| STATUS_ERROR_OFFLINE | STATUS_ERROR_FORBIDDEN | STATUS_ERROR_TIMEOUT | STATUS_ERROR_NOT_INITIALIZED
| STATUS_ERROR_ASSERT_FAILS | STATUS_ERROR_ALREADY_INITIALIZED | STATUS_ERROR_NOT_SUPPORTED | STATUS_ERROR_UNSAFE.

Definition to_pb_status (ret : Z) : pb_status :=
  if ret =? RET_SUCCESS then STATUS_SUCCESS
  else if ret =? RET_ERROR_INTERNAL then STATUS_ERROR_INTERNAL
  else if ret =? RET_ERROR_NO_MEM then STATUS_ERROR_NO_MEM
  else if ret =? RET_ERROR_NOT_FOUND then STATUS_ERROR_NOT_FOUND
  else if ret =? RET_ERROR_INVALID_PARAM then STATUS_ERROR_INVALID_PARAM
  else if ret =? RET_ERROR_INVALID_STATE then STATUS_ERROR_INVALID_STATE
  else if ret =? RET_ERROR_INVALID_ADDR then STATUS_ERROR_INVALID_ADDR
  else if ret =? RET_ERROR_BUSY then STATUS_ERROR_BUSY
  else if ret =? RET_ERROR_OFFLINE then STATUS_ERROR_OFFLINE
  else if ret =? RET_ERROR_FORBIDDEN then STATUS_ERROR_FORBIDDEN
  else if ret =? RET_ERROR_TIMEOUT then STATUS_ERROR_TIMEOUT
  else if ret =? RET_ERROR_NOT_INITIALIZED then STATUS_ERROR_NOT_INITIALIZED
  else if ret =? RET_ERROR_ASSERT_FAILS then STATUS_ERROR_ASSERT_FAILS
  else if ret =? RET_ERROR_ALREADY_INITIALIZED then STATUS_ERROR_ALREADY_INITIALIZED
  else if ret =? RET_ERROR_NOT_SUPPORTED then STATUS_ERROR_NOT_SUPPORTED
  else if ret =? RET_ERROR_UNSAFE then STATUS_ERROR_UNSAFE
  else STATUS_ERROR_INTERNAL.

(** The crash reports: the event kept between calls ([mflt_evt], its synced flag,
    the counter), the packetizer, and what was handed over successfully. *)
Record diag_sys := DiagSys {
  mflt_evt : bytes * Z;
  mflt_evt_synced : bool;
  memfault_counter : Z;
  packetizer : list (bytes * bool);
  delivered : list (bytes * Z);
}.

Definition diag_boot (chunks : list (bytes * bool)) : diag_sys := DiagSys ([], 0) true 0 chunks [].

(** [memfault_packetizer_get_chunk]: the chunk and what it returns. *)
Definition get_chunk (s : diag_sys) : bytes * bool * list (bytes * bool) :=
  match packetizer s with [] => ([], false, []) | (c, more) :: l => (c, more, l) end.

(** One turn of the loop; [ret]: what the publication returns.  The results: the
    code to return with, if any, and whether to go on. *)
Definition memfault_turn (ret : Z) (s : diag_sys) : option Z * bool * diag_sys :=
  let '(more_data, s) :=
    if mflt_evt_synced s then
      let '(c, more, l) := get_chunk s in
      (more, DiagSys (c, memfault_counter s) false (memfault_counter s) l (delivered s))
    else (false, s) in
  if negb (ret =? 0) then (Some ret, false, s)
  else (None, more_data,
        DiagSys (mflt_evt s) true (u32 (memfault_counter s + 1)) (packetizer s) (delivered s ++ [mflt_evt s])).

(** The loop, over what the publications return. *)
Fixpoint memfault_loop (fuel : nat) (rets : list Z) (s : diag_sys) : option (option Z * list Z * diag_sys) :=
  match fuel with
  | O => None
  | S f =>
      let '(early, more, s) := memfault_turn (hd 0 rets) s in
      match early with
      | Some ret => Some (Some ret, tail rets, s)
      | None => if more then memfault_loop f (tail rets) s else Some (None, tail rets, s)
      end
  end.

(** [diag_sync]: the crash reports, then every state.  What was published of the
    states is the second result; the loop's fuel is one turn per chunk plus two. *)
Fixpoint send_states (rets : list Z) (ret : Z) (l : list orb_state) : Z * list (bytes * pb_status * bytes) :=
  match l with
  | [] => (ret, [])
  | d :: l =>
      let '(r, out) := send_states (tail rets) (hd 0 rets) l in
      (r, (c_string (name d), to_pb_status (status d), c_string (message d)) :: out)
  end.

Definition diag_sync (rets : list Z) (states : list orb_state) (s : diag_sys)
  : option (Z * list (bytes * pb_status * bytes) * diag_sys) :=
  '(early, rets, s) ← (if bool_decide (packetizer s = []) then Some (None, rets, s)
                       else memfault_loop (length (packetizer s) + 2) rets s);
  match early with
  | Some ret => Some (ret, [], s)
  | None =>
      '(ds, _) ← orb_state_walk (length states + 1) states None;
      let '(ret, out) := send_states rets RET_SUCCESS ds in
      Some (ret, out, s)
  end.

(** ** Walking the section *)

Lemma walk_step {A} f (l : list A) p :
  orb_state_walk (S f) l p =
  match orb_state_iter (zlen l) p with
  | (true, Some i) =>
      x ← l !! Z.to_nat i; '(xs, q) ← orb_state_walk f l (Some i); Some (x :: xs, q)
  | (_, q) => Some ([], q)
  end.
Proof. done. Qed.

Lemma walk_from {A} (l : list A) n : forall i, (i + n = length l)%nat -> (0 < i)%nat ->
  orb_state_walk (S n) l (Some (Z.of_nat i - 1)) = Some (drop i l, Some (zlen l)).
Proof.
  induction n as [| n IH]; intros i E Hi; rewrite walk_step; cbn [orb_state_iter].
  - unfold zlen. btrue (Z.of_nat (length l) <=? Z.of_nat i - 1 + 1). cbn [negb]. rewrite drop_ge by lia.
    do 3 f_equal. lia.
  - unfold zlen. bfalse (Z.of_nat (length l) <=? Z.of_nat i - 1 + 1). cbn [negb].
    destruct (lookup_lt_is_Some_2 l i) as [x Hx]; [lia |].
    replace (Z.to_nat (Z.of_nat i - 1 + 1)) with i by lia. rewrite Hx. cbn [mbind option_bind].
    replace (Z.of_nat i - 1 + 1) with (Z.of_nat (S i) - 1) by lia. rewrite IH by lia. cbn.
    by rewrite (drop_S l x i Hx).
Qed.

(** Every state once, in order; the pointer is left past the end. *)
Lemma orb_state_walk_all {A} (l : list A) : l <> [] ->
  orb_state_walk (length l + 1) l None = Some (l, Some (zlen l)).
Proof.
  intros Hl. destruct l as [| x l]; [done |]. rewrite Nat.add_comm.
  rewrite walk_step. cbn [orb_state_iter].
  change (length (x :: l)) with (S (length l)).
  change (Z.to_nat 0) with 0%nat. cbn [lookup list_lookup mbind option_bind].
  change (Some 0) with (Some (Z.of_nat 1 - 1)). rewrite (walk_from (x :: l) (length l) 1) by (cbn; lia). done.
Qed.

(** A section without a state is read out of bounds. *)
Example orb_state_walk_empty {A} : orb_state_walk 5 (@nil A) None = None.
Proof. reflexivity. Qed.

(** The pointer is not reset at the end: a second walk with it finds nothing. *)
Example orb_state_walk_again :
  match orb_state_walk 5 [1; 2; 3] None with Some (_, p) => orb_state_walk 5 [1; 2; 3] p | None => None end
  = Some ([], Some 4).
Proof. reflexivity. Qed.

(** A text of 36 characters loses its last one and nothing is logged. *)
Example orb_state_truncation_not_logged :
  orb_state_set_impl (Some (OrbState [] 0 (fill 36 7))) 0 (Some (Some (fill 36 65)))
  = (0, false, Some (OrbState [] 0 (fill 35 65 ++ [0]))).
Proof. reflexivity. Qed.

(** ** The message of a state *)

Lemma c_string_app l r : Forall (fun c => c <> 0) l -> c_string (l ++ 0 :: r) = l.
Proof.
  induction 1 as [| c l Hc Hl IH]; [done |]. cbn. apply Z.eqb_neq in Hc. rewrite Hc. by rewrite IH.
Qed.

(** Setting a state stores its code and the first 35 characters of its text, as
    a terminated string within the 36 bytes of the buffer, whatever was there and
    however long the text is; a failed or missing format leaves the empty string. *)
Theorem orb_state_set_stores d state fmt :
  zlen (message d) = ORB_STATE_MESSAGE_MAX_LENGTH ->
  match fmt with Some (Some text) => Forall (fun c => c <> 0) text | _ => True end ->
  exists ret logged d', orb_state_set_impl (Some d) state fmt = (ret, logged, Some d') /\
    status d' = state /\ name d' = name d /\ zlen (message d') = ORB_STATE_MESSAGE_MAX_LENGTH /\
    c_string (message d') = (match fmt with Some (Some text) => take 35 text | _ => [] end) /\
    (ret = 0 <-> fmt <> Some None).
Proof.
  intros Hl Hf. unfold ORB_STATE_MESSAGE_MAX_LENGTH in *.
  assert (forall t, zlen t <= 35 -> Forall (fun c => c <> 0) t ->
            zlen (splice 0 (t ++ [0]) (message d)) = 36 /\ c_string (splice 0 (t ++ [0]) (message d)) = t) as G.
  { intros t Ht Hz. split; [rewrite zlen_splice; unfold zlen in *; rewrite ?length_app; cbn [length]; lia |].
    unfold splice. cbn [take app]. rewrite <- app_assoc. by apply c_string_app. }
  destruct fmt as [[text |] |]; cbn [orb_state_set_impl]; eexists _, _, _; (split; [done |]); cbn [status name message].
  - destruct (G (take 35 text)) as [G1 G2]; [| by apply Forall_take |].
    + unfold zlen. rewrite length_take. lia.
    + refine (conj eq_refl (conj eq_refl (conj G1 (conj G2 _)))); split; done.
  - destruct (G []) as [G1 G2]; [rewrite zlen_nil; lia | constructor |]. refine (conj eq_refl (conj eq_refl (conj G1 (conj G2 _)))); split; [discriminate | by intros []].
  - destruct (G []) as [G1 G2]; [rewrite zlen_nil; lia | constructor |]. refine (conj eq_refl (conj eq_refl (conj G1 (conj G2 _)))); split; done.
Qed.

Lemma orb_state_set_stores_witness :
  exists ret logged d', orb_state_set_impl (Some (OrbState [99] 11 (fill 36 7))) 5 (Some (Some (fill 50 65))) = (ret, logged, Some d') /\
    status d' = 5 /\ name d' = [99] /\ zlen (message d') = ORB_STATE_MESSAGE_MAX_LENGTH /\
    c_string (message d') = take 35 (fill 50 65) /\ (ret = 0 <-> Some (Some (fill 50 65)) <> Some None).
Proof. apply (orb_state_set_stores (OrbState [99] 11 (fill 36 7)) 5 (Some (Some (fill 50 65)))); [done | by apply Forall_replicate]. Defined.

(** ** Crash reports *)

(** What the packetizer says: after a chunk returned with [true] there is another. *)
Definition flags_ok (L : list (bytes * bool)) : Prop :=
  forall i c, L !! i = Some c -> c.2 = true -> (S i < length L)%nat.

Definition numbered (l : list (bytes * bool)) : list (bytes * Z) := imap (fun i c => (c.1, Z.of_nat i)) l.

Definition diag_inv (L : list (bytes * bool)) (s : diag_sys) : Prop :=
  exists j, (j <= length L)%nat /\ delivered s = numbered (take j L) /\ memfault_counter s = Z.of_nat j /\
    if mflt_evt_synced s then packetizer s = drop j L
    else exists c, L !! j = Some c /\ packetizer s = drop (S j) L /\ mflt_evt s = (c.1, Z.of_nat j).

Lemma numbered_snoc L j c : L !! j = Some c -> numbered (take (S j) L) = numbered (take j L) ++ [(c.1, Z.of_nat j)].
Proof.
  intros H. unfold numbered. rewrite (take_S_r _ _ _ H), imap_app. cbn.
  rewrite length_take. apply lookup_lt_Some in H. by rewrite Nat.min_l, Nat.add_0_r by lia.
Qed.

Section Chunks.
Context (L : list (bytes * bool)) (HL : flags_ok L) (Hn : zlen L < 4294967296).

Lemma memfault_turn_inv ret s : diag_inv L s -> (mflt_evt_synced s = true -> packetizer s <> []) ->
  let '(early, more, s') := memfault_turn ret s in
  diag_inv L s' /\ (more = true -> early = None /\ mflt_evt_synced s' = true /\ packetizer s' <> []) /\
  (length (packetizer s') <= length (packetizer s))%nat /\
  (more = true -> length (packetizer s') < length (packetizer s))%nat.
Proof.
  intros (j & Hj & Hd & Hc & Hs) Hp. unfold memfault_turn, get_chunk.
  destruct (mflt_evt_synced s) eqn:E.
  - rewrite Hs in *. destruct (drop j L) as [| [c more] l] eqn:Ed; [by destruct (Hp eq_refl) |].
    assert (L !! j = Some (c, more)) as Hl by (rewrite <- (Nat.add_0_r j), <- lookup_drop, Ed; done).
    assert (drop (S j) L = l) as Ed' by (by rewrite <- Nat.add_1_r, <- drop_drop, Ed).
    pose proof (lookup_lt_Some _ _ _ Hl) as Hlt. cbn [mflt_evt packetizer delivered memfault_counter length].
    destruct (negb (ret =? 0)).
    + split; [| split; [done |]; split; [cbn; lia | done]]. exists j. cbn. split; [lia |]. split; [done |]. split; [done |].
      exists (c, more). by rewrite Hc.
    + split; [| split; [| split; [cbn; lia | intros _; cbn; lia]]].
      * exists (S j). cbn. split; [lia |]. split; [by rewrite (numbered_snoc _ _ _ Hl), Hd, Hc |].
        split; [| done]. rewrite Hc, u32_small by (unfold zlen in *; lia). lia.
      * intros ->. cbn. repeat split. intros ->. pose proof (HL _ _ Hl eq_refl) as Hl'.
        apply (f_equal length) in Ed'. rewrite length_drop in Ed'. cbn in Ed'. lia.
  - destruct Hs as (c & Hl & Hpk & He). pose proof (lookup_lt_Some _ _ _ Hl) as Hlt. destruct (negb (ret =? 0)).
    + split; [| split; [done |]; split; [lia | done]]. exists j. rewrite E. split; [lia |]. repeat split; auto. by exists c.
    + cbn. split; [| split; [done |]; split; [lia | done]]. exists (S j). cbn. split; [lia |].
      split; [by rewrite (numbered_snoc _ _ _ Hl), Hd, He |]. split; [| done]. rewrite Hc, u32_small by (unfold zlen in *; lia). lia.
Qed.

Lemma memfault_loop_inv fuel : forall rets s, diag_inv L s -> (mflt_evt_synced s = true -> packetizer s <> []) ->
  (length (packetizer s) + 1 < fuel)%nat ->
  exists early rets' s', memfault_loop fuel rets s = Some (early, rets', s') /\ diag_inv L s'.
Proof.
  induction fuel as [| f IH]; intros rets s Hi Hp Hf; [lia |]. cbn [memfault_loop].
  pose proof (memfault_turn_inv (hd 0 rets) s Hi Hp) as T.
  destruct (memfault_turn (hd 0 rets) s) as [[early more] s'].
  destruct T as (T1 & T2 & T3 & T4). destruct early as [r |]; [by eexists _, _, _ |].
  destruct more; [| by eexists _, _, _]. destruct (T2 eq_refl) as (_ & T5 & T6). apply IH; [done | done |].
  specialize (T4 eq_refl). lia.
Qed.
End Chunks.

(** A call per element, over what its publications return. *)
Fixpoint diag_syncs (states : list orb_state) (calls : list (list Z)) (s : diag_sys) : option diag_sys :=
  match calls with
  | [] => Some s
  | rets :: calls => '(_, _, s) ← diag_sync rets states s; diag_syncs states calls s
  end.

Lemma diag_sync_inv L rets states s : flags_ok L -> zlen L < 4294967296 -> states <> [] -> diag_inv L s ->
  exists ret out s', diag_sync rets states s = Some (ret, out, s') /\ diag_inv L s' /\
    (out = [] \/ out = map (fun d => (c_string (name d), to_pb_status (status d), c_string (message d))) states).
Proof.
  intros HL Hn Hst Hi. unfold diag_sync.
  assert (exists early rets' s', (if bool_decide (packetizer s = []) then Some (None, rets, s)
            else memfault_loop (length (packetizer s) + 2) rets s) = Some (early, rets', s') /\ diag_inv L s')
    as (early & rets' & s' & -> & Hi').
  { case_bool_decide as Hp; [by eexists _, _, _ |]. apply memfault_loop_inv; auto. lia. }
  cbn [mbind option_bind]. destruct early as [r |]; [eexists _, _, _; split; [done |]; auto |].
  rewrite orb_state_walk_all by done. cbn [mbind option_bind].
  assert (forall l ret rets, (send_states rets ret l).2 =
            map (fun d => (c_string (name d), to_pb_status (status d), c_string (message d))) l) as G.
  { intros l. induction l as [| d l IH]; intros ret0 rets0; [done |]. cbn [send_states map].
    specialize (IH (hd 0 rets0) (tail rets0)). destruct (send_states _ _ l) as [r0 o]. cbn in *. by rewrite IH. }
  specialize (G states RET_SUCCESS rets'). destruct (send_states rets' RET_SUCCESS states) as [r o].
  eexists _, _, _. split; [done |]. auto.
Qed.

(** C27: whatever publications fail, and however often the diagnosis is repeated, the
    chunks of the crash reports that reach the Jetson are the first ones the
    packetizer handed out, each once, in order and numbered from 0: a chunk that
    could not be published is kept and sent first the next time. *)
Theorem chunks_delivered_in_order L states calls :
  flags_ok L -> zlen L < 4294967296 -> states <> [] ->
  exists s j, diag_syncs states calls (diag_boot L) = Some s /\ (j <= length L)%nat /\ delivered s = numbered (take j L).
Proof.
  intros HL Hn Hst. assert (diag_inv L (diag_boot L)) as Hi by (exists 0%nat; cbn; repeat split; lia).
  revert Hi. generalize (diag_boot L) as s. induction calls as [| rets calls IH]; intros s Hi.
  - destruct Hi as (j & Hj & Hd & _). exists s, j. done.
  - destruct (diag_sync_inv L rets states s HL Hn Hst Hi) as (ret & out & s' & E & Hi' & _).
    destruct (IH s' Hi') as (s2 & j & E2 & Hj & Hd). exists s2, j. split; [| done]. cbn [diag_syncs]. by rewrite E.
Qed.

Lemma chunks_delivered_in_order_witness :
  exists s j, diag_syncs [OrbState [] 0 []] [[0; 8]; [8]; [0; 0]] (diag_boot [([1], true); ([2], true); ([3], false)]) = Some s /\
    (j <= 3)%nat /\ delivered s = numbered (take j [([1], true); ([2], true); ([3], false)]).
Proof.
  apply (chunks_delivered_in_order [([1], true); ([2], true); ([3], false)] [OrbState [] 0 []]); [| vm_compute; done | done].
  intros [| [| [|]]] c Hc Hm; cbn in Hc; simplify_eq; cbn in *; try done; lia.
Defined.

(** The last chunk of a report that could not be published waits for the next
    report: with no data in the packetizer nothing is sent. *)
Example last_chunk_waits :
  match diag_syncs [OrbState [] 0 []] [[8]; []; []] (diag_boot [([1], false)]) with
  | Some s => (delivered s, mflt_evt_synced s) = ([], false)
  | None => False
  end.
Proof. reflexivity. Qed.
