(* ===== verification/LiquidLens.v ===== *)
(** main_board/src/optics/liquid_lens/liquid_lens.c: the current through the liquid
    lens, held at a target by an integral controller with feed forward that runs in
    the ADC interrupt.

    The controller computes in single precision with values that are multiples of
    1/2: they are kept as integers, in halves, and every operation rounds to 24
    significant bits ([round24]).  The measured current goes through two
    divisions, computed by [SpecFloat]. *)

From Stdlib Require Import SpecFloat.
From S2P Require Import Prelude Floats Fan Power Voltage.

(** ** Constants *)

Definition LIQUID_LENS_MIN_CURRENT_MA : Z := -400.
Definition LIQUID_LENS_MAX_CURRENT_MA : Z := 400.
Definition LIQUID_LENS_TIM_PERIOD : Z := 0x3300.
Definition LIQUID_LENS_TIM_PERIOD_HALF : Z := LIQUID_LENS_TIM_PERIOD / 2.
Definition LIQUID_LENS_MAX_CONTROL_OUTPUT_PER_MILLE : Z := 999.

Definition CLAMP (x lo hi : Z) : Z := if x <=? lo then lo else if x <? hi then x else hi.

(** A number of halves, rounded to a float; the half nearest to an integer. *)
Definition round_halves (n : Z) : Z := Z.sgn n * round24 (Z.abs n).
Definition lround_halves (n : Z) : Z := Z.sgn n * ((Z.abs n + 1) / 2).

(** ** State

    [pwm_output_integral] is in halves of a per mille; [pos] and [neg] are the
    compare registers of the two legs of the bridge. *)
Record lens_sys := LensSys {
  target_current_ma : Z;
  pwm_output_integral : Z;
  last_pwm_output_per_mille : Z;
  pos : Z;
  neg : Z;
  bridge_on : bool;              (* timer outputs and counters *)
  en_pin : bool;
  liquid_lens_enabled : bool;
  lens_state : option Z;         (* the reported state *)
}.

Definition lens_boot : lens_sys := LensSys 0 0 0 0 0 false false false None.

Definition set_target (t : Z) (s : lens_sys) : lens_sys :=
  LensSys t (pwm_output_integral s) (last_pwm_output_per_mille s) (pos s) (neg s) (bridge_on s) (en_pin s)
    (liquid_lens_enabled s) (lens_state s).
Definition set_control (i l : Z) (s : lens_sys) : lens_sys :=
  LensSys (target_current_ma s) i l (pos s) (neg s) (bridge_on s) (en_pin s) (liquid_lens_enabled s) (lens_state s).
Definition set_compare (p n : Z) (s : lens_sys) : lens_sys :=
  LensSys (target_current_ma s) (pwm_output_integral s) (last_pwm_output_per_mille s) p n (bridge_on s) (en_pin s)
    (liquid_lens_enabled s) (lens_state s).
Definition set_power (b pin e : bool) (s : lens_sys) : lens_sys :=
  LensSys (target_current_ma s) (pwm_output_integral s) (last_pwm_output_per_mille s) (pos s) (neg s) b pin e (lens_state s).
Definition report (r : Z) (s : lens_sys) : lens_sys :=
  LensSys (target_current_ma s) (pwm_output_integral s) (last_pwm_output_per_mille s) (pos s) (neg s) (bridge_on s)
    (en_pin s) (liquid_lens_enabled s) (Some r).

(** ** The target *)

Definition liquid_set_target_current_ma (new_target_current_ma : Z) (s : lens_sys) : Z * lens_sys :=
  (RET_SUCCESS, set_target (CLAMP new_target_current_ma LIQUID_LENS_MIN_CURRENT_MA LIQUID_LENS_MAX_CURRENT_MA) s).

(** ** The output *)

Definition liquid_lens_set_pwm (per_mille : Z) (s : lens_sys) : lens_sys :=
  let per_mille := CLAMP per_mille (- LIQUID_LENS_MAX_CONTROL_OUTPUT_PER_MILLE) LIQUID_LENS_MAX_CONTROL_OUTPUT_PER_MILLE in
  let d := LIQUID_LENS_TIM_PERIOD_HALF * per_mille ÷ 1000 in
  set_compare (LIQUID_LENS_TIM_PERIOD_HALF + d) (LIQUID_LENS_TIM_PERIOD_HALF - d) s.

(** ** Rounding of the controller's values *)

Lemma round24_small n : 0 <= n < 16777216 -> round24 n = n.
Proof.
  intros Hn. destruct (round24_err n) as [E P]; [lia |]. change (2 ^ 24) with 16777216 in E. lia.
Qed.

Lemma round_halves_small n : -16777216 < n < 16777216 -> round_halves n = n.
Proof. intros Hn. unfold round_halves. rewrite round24_small by lia. lia. Qed.

(** Reference: saturated integration, output rounded half away from zero. *)
Definition integral_spec (error integral : Z) : Z := Z.max (-1998) (Z.min 1998 (integral + error)).
Definition output_spec (target integral : Z) : Z :=
  Z.max (-999) (Z.min 999 (lround_halves (2 * target + integral))).

Lemma CLAMP_minmax x lo hi : lo <= hi -> CLAMP x lo hi = Z.max lo (Z.min hi x).
Proof. intros H1. unfold CLAMP. bdestruct_all; lia. Qed.

Lemma lround_mono x y : x <= y -> lround_halves x <= lround_halves y.
Proof.
  intros Hxy. unfold lround_halves.
  destruct (Z.sgn_spec x) as [[? ->] | [[? ->] | [? ->]]], (Z.sgn_spec y) as [[? ->] | [[? ->] | [? ->]]]; try lia.
  - rewrite !Z.abs_eq by lia. zify_div.
  - zify_div.
  - rewrite Z.abs_neq, Z.abs_eq by lia. zify_div.
  - zify_div.
  - rewrite !Z.abs_neq by lia. zify_div.
Qed.

Section Lens.
Context (b : board) `{HwVersions} (calc_vrefanalog : Z -> Z) (hardware_version : Z).

(** Device tree: amplifier_gains and shunt_resistor_ohms. *)
Definition current_amplifier_gain : spec_float :=
  match b with
  | Pearl => if hardware_version =? HW_VERSION_PEARL_EV5 then flt 10 0 else flt 20 0
  | Diamond => flt 10 0
  end.
Definition shunt_resistance_ohms : spec_float := dec 15 100.

(** [(int32_t)((float)shunt_voltage_mv / gain / ohms)] *)
Definition lens_current_of (gain : spec_float) (shunt_voltage_mv : Z) : option Z :=
  to_s32 (sf_trunc (fdiv (fdiv (flt shunt_voltage_mv 0) gain) shunt_resistance_ohms)).

(** What a sampling leaves in the buffer: the two sides of the amplifier and the
    internal reference. *)
Record sample := Sample { ina240_ref : Z; ina240_sig : Z; vrefint : Z }.

Definition measured_ma (x : sample) : option Z :=
  let vref := voltage_measurement_get_vref_mv_from_raw b calc_vrefanalog hardware_version (vrefint x) in
  let sig_mv := s32 (ina240_sig x * vref / 4096) in
  let ref_mv := s32 (ina240_ref x * vref / 4096) in
  lens_current_of current_amplifier_gain (ref_mv - sig_mv).

(** The controller: integral (in halves) and output, from the target and the
    measured current.  0.5f * error in per mille is [error] halves. *)
Definition control (target lens_current : Z) (integral : Z) : option (Z * Z) :=
  let max := 2 * LIQUID_LENS_MAX_CONTROL_OUTPUT_PER_MILLE in
  error ← to_s32 (Some (target - lens_current));
  let integral := round_halves (integral + round_halves error) in
  let integral := if integral <? - max then - max else if max <? integral then max else integral in
  let output := round_halves (2 * round_halves target + integral) in
  Some (integral, CLAMP (lround_halves output) (- LIQUID_LENS_MAX_CONTROL_OUTPUT_PER_MILLE)
                    LIQUID_LENS_MAX_CONTROL_OUTPUT_PER_MILLE).

Definition adc_callback (x : sample) (s : lens_sys) : option lens_sys :=
  if liquid_lens_enabled s then
    current ← measured_ma x;
    '(i, out) ← control (target_current_ma s) current (pwm_output_integral s);
    Some (liquid_lens_set_pwm out (set_control i out s))
  else Some s.

(** A sleep, with the samplings that come during it. *)
Definition sampling (xs : list sample) (s : lens_sys) : option lens_sys :=
  foldr (fun x k s => s ← adc_callback x s; k s) Some xs s.

(** ** Self-test *)

Definition pwm_stable_delta_per_mille : Z := 10.

Definition self_test (w1 w2 w3 : list sample) (s : lens_sys) : option (Z * lens_sys) :=
  let s := (liquid_set_target_current_ma 0 s).2 in
  s ← sampling w1 s;
  let prev_pwm := last_pwm_output_per_mille s in
  let s := (liquid_set_target_current_ma 50 s).2 in
  s ← sampling w2 s;
  if negb (last_pwm_output_per_mille s =? prev_pwm) then
    let prev_pwm := last_pwm_output_per_mille s in
    s ← sampling w3 s;
    Some (if Z.abs (last_pwm_output_per_mille s - prev_pwm) <=? pwm_stable_delta_per_mille
          then RET_SUCCESS else RET_ERROR_ASSERT_FAILS, s)
  else Some (RET_ERROR_ASSERT_FAILS, s).

(** ** On and off; [gpio_ret] is the result of setting the enable pin *)

Definition liquid_lens_enable (gpio_ret : Z) (s : lens_sys) : lens_sys :=
  if liquid_lens_enabled s then s
  else
    let s := set_control 0 (last_pwm_output_per_mille s) s in
    if negb (gpio_ret =? 0) then set_power true (en_pin s) false s
    else set_power true true true s.

Definition liquid_lens_disable (w1 w2 w3 : list sample) (gpio_ret : Z) (s : lens_sys) : option lens_sys :=
  if negb (liquid_lens_enabled s) then Some s
  else
    '(ret, s) ← self_test w1 w2 w3 s;
    let s := report (if ret =? RET_SUCCESS then RET_SUCCESS else RET_ERROR_INTERNAL) s in
    if negb (gpio_ret =? 0) then Some s
    else Some (set_power false false false s).

(** ** Start *)

(** What the drivers answer, and the samplings during the two self-tests. *)
Record lens_init := LensInit {
  clock_on_ret : Z;
  gpio_configure_ret : Z;
  pinctrl_ret : Z;
  dll_ready : bool;
  channels_ready : list (bool * Z);       (* ready, adc_channel_setup_dt *)
  enable_ret : Z;
  disable_ret : Z;
  test_windows : list sample * list sample * list sample;
  disable_windows : list sample * list sample * list sample;
}.

(** [None]: the DLL never gets ready, or a conversion is undefined. *)
Definition liquid_lens_init (i : lens_init) (s : lens_sys) : option (Z * lens_sys) :=
  let s := report RET_ERROR_NOT_INITIALIZED s in
  if negb (clock_on_ret i =? 0) then Some (RET_ERROR_NOT_INITIALIZED, s)
  else if negb (gpio_configure_ret i =? 0) then Some (RET_ERROR_NOT_INITIALIZED, s)
  else
    let s := set_power (bridge_on s) false (liquid_lens_enabled s) s in
    if pinctrl_ret i <? 0 then Some (RET_ERROR_NOT_INITIALIZED, s)
    else if negb (dll_ready i) then None
    else
      let s := liquid_lens_set_pwm 0 s in
      if existsb (fun c => negb c.1 || (c.2 <? 0)) (channels_ready i) then Some (RET_ERROR_INTERNAL, s)
      else
        let s := liquid_lens_enable (enable_ret i) s in
        '(ret, s) ← (let '(w1, w2, w3) := test_windows i in self_test w1 w2 w3 s);
        let s := report (if ret =? RET_SUCCESS then RET_SUCCESS else RET_ERROR_ASSERT_FAILS) s in
        s ← (let '(w1, w2, w3) := disable_windows i in liquid_lens_disable w1 w2 w3 (disable_ret i) s);
        Some (RET_SUCCESS, s).

(** ** Calls and interrupts, in any order *)

Inductive lens_event :=
| LensTarget (ma : Z)
| LensSample (x : sample)
| LensEnable (gpio_ret : Z)
| LensDisable (w1 w2 w3 : list sample) (gpio_ret : Z).

Definition lens_step (s : lens_sys) (e : lens_event) : option lens_sys :=
  match e with
  | LensTarget ma => Some (liquid_set_target_current_ma ma s).2
  | LensSample x => adc_callback x s
  | LensEnable r => Some (liquid_lens_enable r s)
  | LensDisable w1 w2 w3 r => liquid_lens_disable w1 w2 w3 r s
  end.

Fixpoint lens_run (es : list lens_event) (s : lens_sys) : option lens_sys :=
  match es with
  | [] => Some s
  | e :: es => s ← lens_step s e; lens_run es s
  end.

(** ** The controller is exact *)

Lemma control_exact target current integral :
  -400 <= target <= 400 -> -1000000 <= current <= 1000000 -> -1998 <= integral <= 1998 ->
  control target current integral =
  Some (integral_spec (target - current) integral,
        output_spec target (integral_spec (target - current) integral)).
Proof.
  intros Ht Hc Hi. unfold control, to_s32, in_s32, LIQUID_LENS_MAX_CONTROL_OUTPUT_PER_MILLE. cbn [mbind option_bind].
  btrue (-2147483648 <=? target - current). btrue (target - current <=? 2147483647). cbn [andb mbind option_bind].
  rewrite (round_halves_small (target - current)) by lia.
  rewrite (round_halves_small (integral + (target - current))) by lia.
  rewrite (round_halves_small target) by lia. unfold integral_spec, output_spec.
  change (- (2 * 999)) with (-1998). change (2 * 999) with 1998. change (- 999) with (-999).
  assert ((if integral + (target - current) <? -1998 then -1998
           else if 1998 <? integral + (target - current) then 1998 else integral + (target - current))
          = Z.max (-1998) (Z.min 1998 (integral + (target - current)))) as E by (bdestruct_all; lia).
  rewrite E. set (i := Z.max (-1998) _) in *. assert (-1998 <= i <= 1998) by lia.
  rewrite round_halves_small by lia. by rewrite CLAMP_minmax by lia.
Qed.

(** ** The measured current is defined *)

Definition current_check (gain : spec_float) (n : Z) : bool :=
  match lens_current_of gain n with Some c => (-2800 <=? c) && (c <=? 2800) | None => false end.

Lemma current_checked :
  forallb (fun k => current_check (flt 10 0) (Z.of_nat k - 4095) && current_check (flt 20 0) (Z.of_nat k - 4095)) (seq 0 (Z.to_nat 8191)) = true.
Proof. vm_compute. reflexivity. Qed.

Lemma lens_current_defined n : -4095 <= n <= 4095 ->
  exists c, lens_current_of current_amplifier_gain n = Some c /\ -2800 <= c <= 2800.
Proof.
  intros Hn. pose proof (proj1 (forallb_forall _ _) current_checked (Z.to_nat (n + 4095))) as C.
  rewrite in_seq, Z2Nat.id in C by lia. replace (n + 4095 - 4095) with n in C by lia.
  specialize (C ltac:(lia)). apply andb_prop in C as [C1 C2]. unfold current_check in *.
  assert (forall g, g = flt 10 0 \/ g = flt 20 0 -> exists c, lens_current_of g n = Some c /\ -2800 <= c <= 2800) as G.
  { intros g [-> | ->]; [destruct (lens_current_of (flt 10 0) n) as [c |] | destruct (lens_current_of (flt 20 0) n) as [c |]];
      try done; exists c; (split; [done |]); lia. }
  apply G. unfold current_amplifier_gain. destruct b; [destruct (_ =? _) |]; auto.
Qed.

(** 12-bit samples; the reference is below 4.095 V. *)
Definition sample_ok (x : sample) : Prop := 0 <= ina240_ref x < 4096 /\ 0 <= ina240_sig x < 4096.

Context (Hcalc : forall r, 0 <= calc_vrefanalog r < 4095).

Lemma vref_range raw : 0 <= voltage_measurement_get_vref_mv_from_raw b calc_vrefanalog hardware_version raw <= 4094.
Proof.
  unfold voltage_measurement_get_vref_mv_from_raw, vref_mv. destruct b; [| lia].
  destruct (_ =? HW_VERSION_PEARL_EV5); [rewrite u16_small; lia |].
  match goal with |- context [calc_vrefanalog ?r] => pose proof (Hcalc r) end. rewrite u16_small; lia.
Qed.

Lemma measured_defined x : sample_ok x -> exists c, measured_ma x = Some c /\ -2800 <= c <= 2800.
Proof.
  intros [Hr Hs]. unfold measured_ma. pose proof (vref_range (vrefint x)) as Hv.
  set (v := voltage_measurement_get_vref_mv_from_raw _ _ _ _) in *. apply lens_current_defined.
  assert (forall a, 0 <= a < 4096 -> 0 <= s32 (a * v / 4096) <= 4094) as G.
  { intros a Ha. assert (0 <= a * v / 4096 <= 4094) as B by (split; [apply Z.div_pos; nia | apply Z.div_le_upper_bound; nia]).
    unfold s32, signed. change (2 ^ (32 - 1)) with 2147483648. change (2 ^ 32) with 4294967296. rewrite Z.mod_small; lia. }
  pose proof (G _ Hr). pose proof (G _ Hs). lia.
Qed.

(** ** Invariant *)

Definition registers_ok (s : lens_sys) : Prop := pos s + neg s = LIQUID_LENS_TIM_PERIOD /\ 7 <= pos s <= 13049.

Record lens_ok (s : lens_sys) : Prop := LensOk {
  ok_target : LIQUID_LENS_MIN_CURRENT_MA <= target_current_ma s <= LIQUID_LENS_MAX_CURRENT_MA;
  ok_integral : -1998 <= pwm_output_integral s <= 1998;
  ok_output : -999 <= last_pwm_output_per_mille s <= 999;
  ok_registers : registers_ok s;
}.

Lemma set_pwm_registers p s : registers_ok (liquid_lens_set_pwm p s).
Proof.
  unfold registers_ok, liquid_lens_set_pwm, LIQUID_LENS_MAX_CONTROL_OUTPUT_PER_MILLE. rewrite CLAMP_minmax by lia. cbn [pos neg set_compare].
  change LIQUID_LENS_TIM_PERIOD_HALF with 6528. change LIQUID_LENS_TIM_PERIOD with 13056.
  set (c := Z.max _ _). assert (-999 <= c <= 999) by lia.
  assert (-6521 <= 6528 * c ÷ 1000 <= 6521) by (Z.to_euclidean_division_equations; lia). lia.
Qed.

Lemma set_target_ok v s : lens_ok s -> lens_ok (liquid_set_target_current_ma v s).2.
Proof.
  intros [T I O R]. constructor; cbn; auto.
  unfold LIQUID_LENS_MIN_CURRENT_MA, LIQUID_LENS_MAX_CURRENT_MA in *. rewrite CLAMP_minmax by lia. lia.
Qed.

(** What a sampling does. *)
Lemma callback_exact x s : lens_ok s -> sample_ok x -> liquid_lens_enabled s = true ->
  exists c, measured_ma x = Some c /\ -2800 <= c <= 2800 /\
    let i := integral_spec (target_current_ma s - c) (pwm_output_integral s) in
    let out := output_spec (target_current_ma s) i in
    adc_callback x s = Some (liquid_lens_set_pwm out (set_control i out s)).
Proof.
  intros [T I O R] Hx He. destruct (measured_defined x Hx) as (c & E & Hc). exists c. split; [done |]. split; [done |].
  unfold adc_callback. rewrite He, E. cbn [mbind option_bind].
  unfold LIQUID_LENS_MIN_CURRENT_MA, LIQUID_LENS_MAX_CURRENT_MA in *. rewrite control_exact by lia. done.
Qed.

Lemma lens_callback_ok x s : lens_ok s -> sample_ok x ->
  exists s', adc_callback x s = Some s' /\ lens_ok s' /\ target_current_ma s' = target_current_ma s /\
    liquid_lens_enabled s' = liquid_lens_enabled s.
Proof.
  intros Hs Hx. destruct (liquid_lens_enabled s) eqn:He.
  - destruct (callback_exact x s Hs Hx He) as (c & _ & Hc & E). cbv zeta in E. eexists. split; [exact E |].
    split; [| done]. destruct Hs as [T I O R]. constructor; cbn; [done | | |].
    + unfold integral_spec. lia.
    + unfold output_spec. lia.
    + apply set_pwm_registers.
  - unfold adc_callback. rewrite He. by exists s.
Qed.

Lemma sampling_ok xs : forall s, lens_ok s -> Forall sample_ok xs ->
  exists s', sampling xs s = Some s' /\ lens_ok s' /\ target_current_ma s' = target_current_ma s /\
    liquid_lens_enabled s' = liquid_lens_enabled s.
Proof.
  induction xs as [| x xs IH]; intros s Hs Hx; [by exists s |]. apply Forall_cons in Hx as [Hx Hxs].
  destruct (lens_callback_ok x s Hs Hx) as (s1 & E & H1 & T1 & E1). destruct (IH s1 H1 Hxs) as (s' & E' & H' & T' & En').
  exists s'. unfold sampling in *. cbn [foldr]. rewrite E. cbn [mbind option_bind].
  split; [done |]. split; [done |]. split; congruence.
Qed.

Lemma self_test_ok w1 w2 w3 s : lens_ok s -> Forall sample_ok w1 -> Forall sample_ok w2 -> Forall sample_ok w3 ->
  exists ret s', self_test w1 w2 w3 s = Some (ret, s') /\ lens_ok s' /\ target_current_ma s' = 50 /\
    liquid_lens_enabled s' = liquid_lens_enabled s.
Proof.
  intros Hs H1 H2 H3. unfold self_test.
  destruct (sampling_ok w1 _ (set_target_ok 0 s Hs) H1) as (s1 & -> & K1 & T1 & E1). cbn [mbind option_bind].
  destruct (sampling_ok w2 _ (set_target_ok 50 s1 K1) H2) as (s2 & -> & K2 & T2 & E2). cbn [mbind option_bind].
  change (target_current_ma (liquid_set_target_current_ma 50 s1).2) with 50 in T2.
  change (liquid_lens_enabled (liquid_set_target_current_ma 50 s1).2) with (liquid_lens_enabled s1) in E2.
  change (liquid_lens_enabled (liquid_set_target_current_ma 0 s).2) with (liquid_lens_enabled s) in E1.
  destruct (negb _).
  - destruct (sampling_ok w3 s2 K2 H3) as (s3 & -> & K3 & T3 & E3). cbn [mbind option_bind].
    eexists _, s3. split; [done |]. split; [done |]. split; congruence.
  - eexists _, s2. split; [done |]. split; [done |]. split; congruence.
Qed.

Lemma lens_ok_power o p e s : lens_ok s -> lens_ok (set_power o p e s).
Proof. by intros [T I O R]. Qed.

Lemma lens_ok_report r s : lens_ok s -> lens_ok (report r s).
Proof. by intros [T I O R]. Qed.

Lemma enable_ok r s : lens_ok s -> lens_ok (liquid_lens_enable r s).
Proof.
  intros [T I O R]. unfold liquid_lens_enable. destruct (liquid_lens_enabled s); [done |].
  destruct (negb _); constructor; cbn; auto; lia.
Qed.

Lemma disable_ok w1 w2 w3 r s : lens_ok s -> Forall sample_ok w1 -> Forall sample_ok w2 -> Forall sample_ok w3 ->
  exists s', liquid_lens_disable w1 w2 w3 r s = Some s' /\ lens_ok s' /\
    (liquid_lens_enabled s = true -> target_current_ma s' = 50).
Proof.
  intros Hs H1 H2 H3. unfold liquid_lens_disable. destruct (liquid_lens_enabled s) eqn:E; cbn [negb].
  - destruct (self_test_ok w1 w2 w3 s Hs H1 H2 H3) as (ret & s1 & -> & K & T & _). cbn [mbind option_bind].
    destruct (negb _); (eexists; split; [done |]); (split; [| by rewrite <- T]).
    + by apply lens_ok_report.
    + by apply lens_ok_power, lens_ok_report.
  - by exists s.
Qed.

Definition lens_event_ok (e : lens_event) : Prop :=
  match e with
  | LensSample x => sample_ok x
  | LensDisable w1 w2 w3 _ => Forall sample_ok w1 /\ Forall sample_ok w2 /\ Forall sample_ok w3
  | _ => True
  end.

Lemma lens_step_ok e s : lens_ok s -> lens_event_ok e -> exists s', lens_step s e = Some s' /\ lens_ok s'.
Proof.
  intros Hs He. destruct e as [ma | x | r | w1 w2 w3 r]; cbn [lens_step].
  - eexists. split; [done |]. by apply set_target_ok.
  - destruct (lens_callback_ok x s Hs He) as (s' & E & K & _). by exists s'.
  - eexists. split; [done |]. by apply enable_ok.
  - destruct He as (H1 & H2 & H3). destruct (disable_ok w1 w2 w3 r s Hs H1 H2 H3) as (s' & E & K & _). by exists s'.
Qed.
End Lens.

(** ** Theorems *)

(** Whatever targets are asked for, whatever is measured and however often the
    lens is switched on and off, no computation is undefined, the target stays
    within 400 mA and the output within 999 per mille, and the two legs of the bridge
    are driven symmetrically around half the period and never for all of it. *)
Theorem lens_always_safe `{HwVersions} b calc hw es s :
  (forall r, 0 <= calc r < 4095) -> lens_ok s -> Forall (lens_event_ok) es ->
  exists s', lens_run b calc hw es s = Some s' /\ lens_ok s'.
Proof.
  intros Hc. revert s. induction es as [| e es IH]; intros s Hs He; [by exists s |].
  apply Forall_cons in He as [He Hes]. destruct (lens_step_ok b calc hw Hc e s Hs He) as (s1 & E & K).
  destruct (IH s1 K Hes) as (s' & E' & K'). exists s'. split; [| done]. cbn [lens_run]. by rewrite E.
Qed.

Lemma lens_always_safe_witness :
  let H := sample_versions in
  let s0 := liquid_lens_set_pwm 0 lens_boot in
  let es := [LensTarget 900; LensEnable 0; LensSample (Sample 2048 0 1500); LensSample (Sample 0 4095 1500); LensTarget (-7);
             LensDisable [Sample 0 0 0] [] [] 0] in
  exists s', lens_run Pearl (fun _ => 3300) 5 es s0 = Some s' /\ lens_ok s'.
Proof.
  intros H s0 es. apply (lens_always_safe (H := H)).
  - intros; lia.
  - constructor; cbn; unfold LIQUID_LENS_MIN_CURRENT_MA, LIQUID_LENS_MAX_CURRENT_MA; try lia. apply set_pwm_registers.
  - repeat constructor; cbn; lia.
Defined.

(** The controller.  Every sampling adds the error to the saturated integral and
    the output is the target plus the integral: with the target kept, it moves
    toward the target or stays, and as soon as the error changes sign it leaves a
    saturated integral. *)
Theorem lens_moves_toward_target `{HwVersions} b calc hw x s :
  (forall r, 0 <= calc r < 4095) -> lens_ok s -> sample_ok x -> liquid_lens_enabled s = true ->
  last_pwm_output_per_mille s = output_spec (target_current_ma s) (pwm_output_integral s) ->
  exists c s', measured_ma b calc hw x = Some c /\ adc_callback b calc hw x s = Some s' /\
    (c <= target_current_ma s -> last_pwm_output_per_mille s <= last_pwm_output_per_mille s') /\
    (target_current_ma s <= c -> last_pwm_output_per_mille s' <= last_pwm_output_per_mille s) /\
    (c = target_current_ma s -> last_pwm_output_per_mille s' = last_pwm_output_per_mille s) /\
    (c < target_current_ma s -> pwm_output_integral s = -1998 -> -1998 < pwm_output_integral s') /\
    last_pwm_output_per_mille s' = output_spec (target_current_ma s') (pwm_output_integral s').
Proof.
  intros Hc Hs Hx He Hl. destruct (callback_exact b calc hw Hc x s Hs Hx He) as (c & Ec & Hb & E). cbv zeta in E.
  eexists c, _. split; [exact Ec |]. split; [exact E |]. cbn [last_pwm_output_per_mille liquid_lens_set_pwm set_compare set_control
    pwm_output_integral target_current_ma]. rewrite Hl. destruct Hs as [T I O R].
  assert (forall i j, i <= j -> output_spec (target_current_ma s) i <= output_spec (target_current_ma s) j) as M.
  { intros i j Hij. unfold output_spec. pose proof (lround_mono (2 * target_current_ma s + i) (2 * target_current_ma s + j) ltac:(lia)). lia. }
  unfold integral_spec. repeat split; intros; try (apply M; lia); try (f_equal; lia); lia.
Qed.

Lemma lens_moves_toward_target_witness :
  let H := sample_versions in
  let s := liquid_lens_enable 0 (liquid_lens_set_pwm 0 lens_boot) in
  exists c s', measured_ma Pearl (fun _ => 3300) 5 (Sample 2000 2100 1500) = Some c /\
    adc_callback Pearl (fun _ => 3300) 5 (Sample 2000 2100 1500) s = Some s' /\
    (c <= target_current_ma s -> last_pwm_output_per_mille s <= last_pwm_output_per_mille s') /\
    (target_current_ma s <= c -> last_pwm_output_per_mille s' <= last_pwm_output_per_mille s) /\
    (c = target_current_ma s -> last_pwm_output_per_mille s' = last_pwm_output_per_mille s) /\
    (c < target_current_ma s -> pwm_output_integral s = -1998 -> -1998 < pwm_output_integral s') /\
    last_pwm_output_per_mille s' = output_spec (target_current_ma s') (pwm_output_integral s').
Proof.
  intros H s. apply (lens_moves_toward_target (H := H)); [intros; lia | | split; cbn; lia | done | done].
  apply enable_ok. constructor; cbn; unfold LIQUID_LENS_MIN_CURRENT_MA, LIQUID_LENS_MAX_CURRENT_MA; try lia. apply set_pwm_registers.
Defined.

(** Switching the lens off runs the self-test, which leaves its own target: a target
    set before is gone, and the lens comes back on with 50 mA. *)
Lemma disable_forgets_target `{HwVersions} b calc hw w1 w2 w3 r s ma :
  (forall r, 0 <= calc r < 4095) -> lens_ok s -> Forall sample_ok w1 -> Forall sample_ok w2 -> Forall sample_ok w3 ->
  liquid_lens_enabled s = true ->
  exists s', lens_run b calc hw [LensTarget ma; LensDisable w1 w2 w3 r] s = Some s' /\ target_current_ma s' = 50.
Proof.
  intros Hc Hs H1 H2 H3 He.
  destruct (disable_ok b calc hw Hc w1 w2 w3 r (liquid_set_target_current_ma ma s).2 (set_target_ok ma s Hs) H1 H2 H3) as (s' & E & _ & T).
  exists s'. cbn [lens_run lens_step mbind option_bind]. rewrite E. split; [done | by apply T].
Qed.

(** When the enable pin cannot be set the bridge stays on although the lens counts as
    off, and switching it off then does nothing. *)
Example enable_failure_leaves_bridge_on :
  let H := sample_versions in
  match lens_run Pearl (fun _ => 3300) 5 [LensEnable (-5); LensDisable [] [] [] 0] lens_boot with
  | Some s => (liquid_lens_enabled s, bridge_on s) = (false, true)
  | None => False
  end.
Proof. reflexivity. Qed.
