(* ===== verification/RunnerQueue.v ===== *)
(** main_board/src/runner/runner.c, the intake: commands received over CAN, from the
    security MCU, over the UART or typed in the shell become jobs of one queue.

    The three entry points share the static variables [new] and [mcu_message],
    guarded by [new_job_sem].  They are steps that may interleave; what nanopb
    decodes is part of the step that calls it. *)

From S2P Require Import Prelude Can Uart.

(** ** Jobs *)

Inductive remote_type_e := CAN_JETSON_MESSAGING | CAN_SEC_MCU_MESSAGING | UART_MESSAGING | CLI.

#[export] Instance remote_type_eq_dec : EqDecision remote_type_e.
Proof. solve_decision. Defined.

Inductive job_message (J S : Type) := NoMessage | JetsonCmd (c : J) | SecCmd (c : S).
Arguments NoMessage {J S}.
Arguments JetsonCmd {J S} _.
Arguments SecCmd {J S} _.

Record job_t (J S : Type) := Job {
  remote : remote_type_e;
  remote_addr : Z;
  ack_number : Z;
  message : job_message J S;
}.
Arguments Job {J S}.
Arguments remote {J S}.
Arguments remote_addr {J S}.
Arguments ack_number {J S}.
Arguments message {J S}.

(** [orb_mcu_McuMessage] as decoded: the messages of the Jetson carry the number to
    acknowledge. *)
Inductive mcu_message_t (J S : Type) := JMessage (ack : Z) (c : J) | SecToMain (c : S) | OtherMessage.
Arguments JMessage {J S}.
Arguments SecToMain {J S}.
Arguments OtherMessage {J S}.

Definition CAN_ADDRESS_MCU_TO_JETSON_TX : Z := 0x80.
Definition CAN_ADDRESS_MCU_TO_MCU_TX : Z := 0x42.

(** The address the answer goes to. *)
Definition reply_address (destination : Z) : Z :=
  if negb (Z.land destination CAN_ADDR_IS_ISOTP =? 0) then
    Z.lor (Z.lor (Z.ldiff destination 0xFF) (Z.shiftl (Z.land destination 0xF) 4))
          (Z.shiftr (Z.land destination 0xF0) 4)
  else CAN_ADDRESS_MCU_TO_JETSON_TX.

(** The answer goes back where the command came from: source and destination are
    exchanged, the flags kept. *)
Definition reply_check (src dest : Z) : bool :=
  (reply_address (CAN_ISOTP_STDID_DESTINATION src dest) =? CAN_ISOTP_STDID_DESTINATION dest src) &&
  (reply_address (reply_address (CAN_ISOTP_STDID_DESTINATION src dest)) =? CAN_ISOTP_STDID_DESTINATION src dest).

Lemma reply_to_sender src dest : 0 <= src < 16 -> 0 <= dest < 16 ->
  reply_address (CAN_ISOTP_STDID_DESTINATION src dest) = CAN_ISOTP_STDID_DESTINATION dest src /\
  reply_address (reply_address (CAN_ISOTP_STDID_DESTINATION src dest)) = CAN_ISOTP_STDID_DESTINATION src dest.
Proof.
  intros Hs Hd.
  pose proof (all_below_spec 16 (fun s => all_below 16 (reply_check s)) ltac:(vm_compute; reflexivity) src Hs) as C.
  apply (all_below_spec 16 _ C dest) in Hd. unfold reply_check in Hd.
  apply andb_prop in Hd as [H1 H2]. split; by apply Z.eqb_eq.
Qed.

(** ** Reading a message out of the UART ring: [buf_read_circular]

    The state of the stream is an index of the ring; [None]: a copy past its end. *)
Section Ring.
Context (K : Z).

Definition buf_read_circular (ring : bytes) (source count : Z) : option (bytes * Z) :=
  let size := ring_size K in
  let end_ := (source + count) mod size in
  if end_ <? source then
    let copy_idx := size - source in
    if (count <? copy_idx) || (zlen ring <? count - copy_idx) then None
    else Some (slice source copy_idx ring ++ slice 0 (count - copy_idx) ring, end_)
  else if zlen ring <? source + count then None
  else Some (slice source count ring, end_).

Fixpoint buf_reads (ring : bytes) (source : Z) (counts : list Z) : option (bytes * Z) :=
  match counts with
  | [] => Some ([], source)
  | c :: counts =>
      '(d, source) ← buf_read_circular ring source c;
      '(ds, source) ← buf_reads ring source counts;
      Some (d ++ ds, source)
  end.

Lemma ring_bytes_slice ring source count :
  3 <= K -> zlen ring = ring_size K -> 0 <= source -> 0 <= count -> source + count <= ring_size K ->
  ring_bytes K ring source count = slice source count ring.
Proof.
  intros HK Hl Hs Hc Hr. apply list_eq. intros i. unfold ring_bytes, slice. rewrite list_lookup_fmap.
  destruct (decide (i < Z.to_nat count)%nat) as [Hi | Hi].
  - rewrite lookup_seq_lt, lookup_take, lookup_drop by lia. cbn. rewrite decide_True by lia.
    rewrite Z.mod_small by lia. unfold nthZ. symmetry.
    replace (Z.to_nat (source + Z.of_nat i)) with (Z.to_nat source + i)%nat by lia.
    destruct (lookup_lt_is_Some_2 ring (Z.to_nat source + i)) as [x Hx]; [unfold zlen in *; lia |].
    by rewrite nth_lookup, Hx.
  - rewrite lookup_seq_ge by lia. cbn. symmetry. apply lookup_ge_None. rewrite length_take, length_drop. unfold zlen in *. lia.
Qed.

Lemma buf_read_exact ring source count :
  3 <= K <= 31 -> zlen ring = ring_size K -> 0 <= source < ring_size K -> 0 <= count < ring_size K ->
  buf_read_circular ring source count = Some (ring_bytes K ring source count, (source + count) mod ring_size K).
Proof.
  intros HK Hl Hs Hc. pose proof (ring_size_pos K HK) as HN. unfold buf_read_circular. cbv zeta.
  destruct (Z.lt_ge_cases (source + count) (ring_size K)) as [Hw | Hw].
  - rewrite Z.mod_small by lia. bfalse (source + count <? source). bfalse (zlen ring <? source + count).
    by rewrite ring_bytes_slice by lia.
  - assert ((source + count) mod ring_size K = source + count - ring_size K) as ->.
    { symmetry. apply (Z.mod_unique_pos _ _ 1); lia. }
    btrue (source + count - ring_size K <? source). bfalse (count <? ring_size K - source).
    bfalse (zlen ring <? count - (ring_size K - source)). cbn [orb].
    replace count with ((ring_size K - source) + (count - (ring_size K - source))) at 3 by lia.
    rewrite ring_bytes_split by lia. replace (source + (ring_size K - source)) with (0 + 1 * ring_size K) by lia.
    rewrite Z.mod_add, Z.mod_0_l by lia. by rewrite !ring_bytes_slice by lia.
Qed.

Lemma buf_reads_exact ring counts : forall source,
  3 <= K <= 31 -> zlen ring = ring_size K -> 0 <= source < ring_size K ->
  Forall (fun c => 0 <= c < ring_size K) counts ->
  buf_reads ring source counts =
  Some (ring_bytes K ring source (foldr Z.add 0 counts), (source + foldr Z.add 0 counts) mod ring_size K).
Proof.
  induction counts as [| c counts IH]; intros source HK Hl Hs Hc; cbn [buf_reads foldr].
  - by rewrite Z.add_0_r, Z.mod_small by lia.
  - apply Forall_cons in Hc as [Hc Hcs]. pose proof (ring_size_pos K HK).
    assert (0 <= foldr Z.add 0 counts) as Hp by (clear -Hcs; induction Hcs; cbn; lia).
    rewrite buf_read_exact by done. cbn [mbind option_bind].
    rewrite IH by (try done; apply Z.mod_pos_bound; lia). cbn [mbind option_bind].
    rewrite <- ring_bytes_split by lia. by rewrite Zplus_mod_idemp_l, Z.add_assoc.
Qed.
End Ring.

(** ** The three entry points, step by step *)

Section Intake.
Context {J S : Type}.

Abbreviation job := (job_t J S).
Abbreviation mcu_msg := (mcu_message_t J S).

(** What an entry point is called with; the bytes are given to the decoding. *)
Inductive input := InCli (c : J) | InCan (destination : Z) | InUart.

Inductive producer := PCli | PCan | PUart.

#[export] Instance producer_eq_dec : EqDecision producer.
Proof. solve_decision. Defined.

Definition producer_of (i : input) : producer :=
  match i with InCli _ => PCli | InCan _ => PCan | InUart => PUart end.

(** Where a producer is: before taking the semaphore; holding it; its message
    decoded; [new.remote] and [new.message] written from the message [branch]; all
    of [new] written; about to give the semaphore; about to return. *)
Inductive pc :=
| Idle
| Calling (i : input)
| Holding (i : input)
| Decoded (i : input) (m : mcu_msg)
| Half (i : input) (m branch : mcu_msg)
| Filled (i : input) (m : mcu_msg)
| Giving (err : Z)
| Leaving (err : Z).

Record intake := Intake {
  runner_tid : bool;
  new_job_sem : Z;
  new : job;
  mcu_message : mcu_msg;
  process_queue : list job;
  pcs : producer -> pc;
  processed : list job;             (* taken by the thread, in order *)
  intended : list job;              (* what the producers meant to queue, in order *)
  returned : list (producer * Z);
}.

Definition PROCESS_QUEUE_LEN : nat := 8.
Definition no_job : job := Job CAN_JETSON_MESSAGING 0 0 NoMessage.
Definition intake_boot : intake := Intake true 1 no_job OtherMessage [] (fun _ => Idle) [] [] [].

Definition set_pc (p : producer) (c : pc) (s : intake) : intake :=
  Intake (runner_tid s) (new_job_sem s) (new s) (mcu_message s) (process_queue s)
    (fun q => if decide (q = p) then c else pcs s q) (processed s) (intended s) (returned s).
Definition set_job_sem (n : Z) (s : intake) : intake :=
  Intake (runner_tid s) n (new s) (mcu_message s) (process_queue s) (pcs s) (processed s) (intended s) (returned s).
Definition set_new (j : job) (s : intake) : intake :=
  Intake (runner_tid s) (new_job_sem s) j (mcu_message s) (process_queue s) (pcs s) (processed s) (intended s) (returned s).
Definition set_mcu_message (m : mcu_msg) (s : intake) : intake :=
  Intake (runner_tid s) (new_job_sem s) (new s) m (process_queue s) (pcs s) (processed s) (intended s) (returned s).

(** The job a producer means to queue, if the message is for this MCU. *)
Definition job_of (i : input) (m : mcu_msg) : option job :=
  match i, m with
  | InCli c, _ => Some (Job CLI 0 0 (JetsonCmd c))
  | InCan d, JMessage ack c => Some (Job CAN_JETSON_MESSAGING (reply_address d) ack (JetsonCmd c))
  | InCan _, SecToMain c => Some (Job CAN_SEC_MCU_MESSAGING CAN_ADDRESS_MCU_TO_MCU_TX 0 (SecCmd c))
  | InUart, JMessage _ c => Some (Job UART_MESSAGING 0 0 (JetsonCmd c))
  | _, _ => None
  end.

Inductive event :=
| ECall (i : input)
| ETake (p : producer)
| ETimeout (p : producer)
| EDecode (p : producer) (m : option mcu_msg)
| EFill (p : producer)
| EFill2 (p : producer)
| EPut (p : producer)
| EGive (p : producer)
| EReturn (p : producer)
| EGet.

(** [runner_handle_new_cli], [runner_handle_new_can] and [runner_handle_new_uart];
    [None]: the step is not the next one of that producer. *)
Definition intake_step (e : event) (s : intake) : option intake :=
  match e with
  | ECall i =>
      match pcs s (producer_of i) with
      | Idle =>
          Some (set_pc (producer_of i)
                  (if negb (runner_tid s) && negb (bool_decide (producer_of i = PCli)) then Leaving RET_ERROR_INVALID_STATE
                   else Calling i) s)
      | _ => None
      end
  | ETake p =>
      match pcs s p with
      | Calling i => if 0 <? new_job_sem s then Some (set_pc p (Holding i) (set_job_sem (new_job_sem s - 1) s)) else None
      | _ => None
      end
  | ETimeout p =>
      match pcs s p with
      | Calling i =>
          if 0 <? new_job_sem s then None
          else Some (set_pc p (match i with InCli _ => Giving RET_SUCCESS | _ => Leaving RET_ERROR_BUSY end) s)
      | _ => None
      end
  | EDecode p m =>
      match pcs s p, m with
      | Holding (InCli _), _ => None
      | Holding i, Some m => Some (set_pc p (Decoded i m) (set_mcu_message m s))
      | Holding _, None => Some (set_pc p (Giving RET_ERROR_INVALID_PARAM) (set_mcu_message OtherMessage s))
      | _, _ => None
      end
  | EFill p =>
      let fill r c i m := Some (set_pc p (Half i m (mcu_message s)) (set_new (Job r (remote_addr (new s)) (ack_number (new s)) c) s)) in
      match pcs s p with
      | Holding (InCli c) => fill CLI (JetsonCmd c) (InCli c) (mcu_message s)
      | Decoded (InCan d) m =>
          match mcu_message s with
          | JMessage _ c => fill CAN_JETSON_MESSAGING (JetsonCmd c) (InCan d) m
          | SecToMain c => fill CAN_SEC_MCU_MESSAGING (SecCmd c) (InCan d) m
          | OtherMessage => Some (set_pc p (Giving RET_ERROR_INVALID_ADDR) s)
          end
      | Decoded InUart m =>
          match mcu_message s with
          | JMessage _ c => fill UART_MESSAGING (JetsonCmd c) InUart m
          | _ => Some (set_pc p (Giving RET_ERROR_INVALID_ADDR) s)
          end
      | _ => None
      end
  | EFill2 p =>
      let fill a n i m := Some (set_pc p (Filled i m) (set_new (Job (remote (new s)) a n (message (new s))) s)) in
      match pcs s p with
      | Half (InCan d) m (JMessage _ _) =>
          fill (reply_address d) (match mcu_message s with JMessage ack _ => ack | _ => ack_number (new s) end) (InCan d) m
      | Half (InCan d) m _ => fill CAN_ADDRESS_MCU_TO_MCU_TX 0 (InCan d) m
      | Half i m _ => fill 0 0 i m
      | _ => None
      end
  | EPut p =>
      match pcs s p with
      | Filled i m =>
          if decide (length (process_queue s) < PROCESS_QUEUE_LEN)%nat then
            Some (set_pc p (Giving RET_SUCCESS)
                    (Intake (runner_tid s) (new_job_sem s) (new s) (mcu_message s) (process_queue s ++ [new s]) (pcs s)
                       (processed s) (intended s ++ option_list (job_of i m)) (returned s)))
          else Some (set_pc p (Giving RET_ERROR_BUSY) s)
      | _ => None
      end
  | EGive p =>
      match pcs s p with
      | Giving err => Some (set_pc p (Leaving err) (set_job_sem (Z.min 1 (new_job_sem s + 1)) s))
      | _ => None
      end
  | EReturn p =>
      match pcs s p with
      | Leaving err =>
          Some (set_pc p Idle
                  (Intake (runner_tid s) (new_job_sem s) (new s) (mcu_message s) (process_queue s) (pcs s)
                     (processed s) (intended s) (returned s ++ [(p, err)])))
      | _ => None
      end
  | EGet =>
      match process_queue s with
      | j :: q =>
          Some (Intake (runner_tid s) (new_job_sem s) (new s) (mcu_message s) q (pcs s)
                  (processed s ++ [j]) (intended s) (returned s))
      | [] => None
      end
  end.

Fixpoint intake_run (es : list event) (s : intake) : option intake :=
  match es with
  | [] => Some s
  | e :: es => s ← intake_step e s; intake_run es s
  end.

(** ** The invariant of the lock *)

Definition holds_sem (c : pc) : bool :=
  match c with Holding _ | Decoded _ _ | Half _ _ _ | Filled _ _ | Giving _ => true | _ => false end.

Definition pc_ok (c : pc) (s : intake) : Prop :=
  match c with
  | Decoded i m => mcu_message s = m
  | Half i m br =>
      exists j, job_of i m = Some j /\ remote (new s) = remote j /\ message (new s) = message j /\
        br = m /\ mcu_message s = m
  | Filled i m => job_of i m = Some (new s)
  | _ => True
  end.

Record intake_inv (s : intake) : Prop := IntakeInv {
  inv_lock : exists o : option producer,
    (forall p, holds_sem (pcs s p) = bool_decide (o = Some p)) /\
    new_job_sem s = (match o with Some _ => 0 | None => 1 end) /\
    (forall p, o = Some p -> pc_ok (pcs s p) s);
  inv_own : forall p i, pcs s p = Calling i -> producer_of i = p;
  inv_fifo : processed s ++ process_queue s = intended s;
  inv_room : (length (process_queue s) <= PROCESS_QUEUE_LEN)%nat;
}.

Lemma boot_inv : intake_inv intake_boot.
Proof. split; cbn; try done; [| unfold PROCESS_QUEUE_LEN; lia]. exists None. split; [| split]; try done. Qed.

(** A step of the producer that holds the semaphore, which keeps it. *)
Lemma inv_held p s s' :
  intake_inv s -> holds_sem (pcs s p) = true -> holds_sem (pcs s' p) = true ->
  (forall q, q <> p -> pcs s' q = pcs s q) -> new_job_sem s' = new_job_sem s -> pc_ok (pcs s' p) s' ->
  processed s' ++ process_queue s' = intended s' -> (length (process_queue s') <= PROCESS_QUEUE_LEN)%nat ->
  intake_inv s'.
Proof.
  intros [(o & Ho & Hs & Hp) Hw _ _] Hh Hh' Hq Hn Hok Hf Hr.
  rewrite Ho in Hh. apply bool_decide_eq_true in Hh as ->.
  split; [| | done | done].
  - exists (Some p). split; [| split; [by rewrite Hn |]]; [| intros q [= <-]; exact Hok].
    intros q. destruct (decide (q = p)) as [-> | Hne]; [by rewrite Hh', bool_decide_true |].
    rewrite Hq, Ho by done. done.
  - intros q i Hc. destruct (decide (q = p)) as [-> | Hne]; [by rewrite Hc in Hh' |].
    rewrite Hq in Hc by done. by apply Hw.
Qed.

(** A step of a producer outside the critical section, which touches nothing shared
    but the queue's front. *)
Lemma inv_outside p s s' :
  intake_inv s -> holds_sem (pcs s p) = false -> holds_sem (pcs s' p) = false ->
  (forall q, q <> p -> pcs s' q = pcs s q) -> new_job_sem s' = new_job_sem s ->
  new s' = new s -> mcu_message s' = mcu_message s -> (forall i, pcs s' p = Calling i -> producer_of i = p) ->
  processed s' ++ process_queue s' = intended s' -> (length (process_queue s') <= PROCESS_QUEUE_LEN)%nat ->
  intake_inv s'.
Proof.
  intros [(o & Ho & Hs & Hp) Hw _ _] Hh Hh' Hq Hn Hnew Hm Hown Hf Hr.
  assert (o <> Some p) as Hop by (intros ->; rewrite Ho, bool_decide_true in Hh; done).
  split; [| | done | done].
  - exists o. split; [| split; [by rewrite Hn |]].
    + intros q. destruct (decide (q = p)) as [-> | Hne]; [by rewrite Hh', bool_decide_false |].
      by rewrite Hq, Ho by done.
    + intros q Hoq. assert (q <> p) as Hne by congruence. specialize (Hp q Hoq). rewrite Hq by done.
      unfold pc_ok in *. by rewrite Hnew, Hm.
  - intros q i Hc. destruct (decide (q = p)) as [-> | Hne]; [by apply Hown |].
    rewrite Hq in Hc by done. by apply Hw.
Qed.

Lemma inv_take p i s :
  intake_inv s -> pcs s p = Calling i -> 0 < new_job_sem s ->
  intake_inv (set_pc p (Holding i) (set_job_sem (new_job_sem s - 1) s)).
Proof.
  intros [(o & Ho & Hs & Hp) Hw Hf Hr] Hc Hn. destruct o as [q |]; [lia |].
  split; cbn; try done.
  - exists (Some p). split; [| split; [lia |]]; [| intros q [= <-]; by rewrite decide_True].
    intros q. destruct (decide (q = p)) as [-> | Hne]; [by rewrite bool_decide_true |].
    rewrite Ho. rewrite !bool_decide_false by congruence. done.
  - intros q j. destruct (decide (q = p)); [done | apply Hw].
Qed.

Lemma inv_give p err s :
  intake_inv s -> pcs s p = Giving err ->
  intake_inv (set_pc p (Leaving err) (set_job_sem (Z.min 1 (new_job_sem s + 1)) s)).
Proof.
  intros [(o & Ho & Hs & Hp) Hw Hf Hr] Hc.
  assert (o = Some p) as -> by (pose proof (Ho p) as H1; rewrite Hc in H1; cbn in H1; symmetry in H1; by apply bool_decide_eq_true in H1).
  split; cbn; try done.
  - exists None. split; [| split; [lia | done]]. intros q. rewrite bool_decide_false by done.
    destruct (decide (q = p)) as [-> | Hne]; [done |]. rewrite Ho, bool_decide_false; congruence.
  - intros q j. destruct (decide (q = p)); [done | apply Hw].
Qed.

Ltac in_pc :=
  match goal with
  | E : pcs ?s ?p = _ |- holds_sem (pcs ?s ?p) = _ => by rewrite E
  | |- forall q, q <> _ -> _ => let q := fresh in let Hne := fresh in intros q Hne; cbn; by rewrite decide_False by done
  | |- _ => cbn; by rewrite ?decide_True by done
  end.

(** What the holder of the semaphore knows. *)
Lemma held_ok p s : intake_inv s -> holds_sem (pcs s p) = true -> pc_ok (pcs s p) s.
Proof.
  intros [(o & Ho & Hs & Hp) _ _ _] Hh. rewrite Ho in Hh. apply bool_decide_eq_true in Hh. by apply Hp.
Qed.

(** The one step that breaks the lock: a shell command that timed out gives a
    semaphore it does not hold. *)
Definition cli_timeout (e : event) : bool := match e with ETimeout PCli => true | _ => false end.

Lemma inv_step e s s' : cli_timeout e = false -> intake_inv s -> intake_step e s = Some s' -> intake_inv s'.
Proof.
  intros Hcli HI Hs. pose proof (inv_own _ HI) as Hw. pose proof (inv_fifo _ HI) as Hf. pose proof (inv_room _ HI) as Hr.
  destruct e as [i | p | p | p m | p | p | p | p | p |]; cbn in Hs.
  - destruct (pcs s (producer_of i)) eqn:E; simplify_eq.
    eapply (inv_outside (producer_of i) s); try done; try in_pc.
    all: cbn; rewrite decide_True by done; destruct (_ && _); first [done | congruence].
  - destruct (pcs s p) eqn:E; try done. destruct (Z.ltb_spec 0 (new_job_sem s)); simplify_eq. by apply inv_take.
  - destruct (pcs s p) as [| i | | | | | |] eqn:E; try done. destruct (Z.ltb_spec 0 (new_job_sem s)); simplify_eq.
    assert (producer_of i = p) as Hi by by apply Hw.
    destruct i; cbn in Hi; subst p; [done | |];
      [eapply (inv_outside PCan s) | eapply (inv_outside PUart s)]; try done; try in_pc.
  - destruct (pcs s p) as [| | i | | | | |] eqn:E; try done.
    destruct i, m; simplify_eq; eapply (inv_held p s); try done; try in_pc.
  - pose proof (held_ok p s HI) as Hok.
    destruct (pcs s p) as [| | i | i m | | | |] eqn:E; try done; specialize (Hok eq_refl); cbn in Hok.
    + destruct i; try done; simplify_eq. eapply (inv_held p s); try done; try in_pc.
      cbn. rewrite decide_True by done. by eexists.
    + destruct i; try done; rewrite Hok in Hs; destruct m; simplify_eq; eapply (inv_held p s); try done; try in_pc;
        cbn; rewrite decide_True by done; by eexists.
  - pose proof (held_ok p s HI) as Hok.
    destruct (pcs s p) as [| | | | i m br | | |] eqn:E; try done; specialize (Hok eq_refl); cbn in Hok.
    destruct Hok as (j & Hj & Hrem & Hmsg & -> & Hm).
    rewrite Hm in Hs. destruct i, m; cbn in Hj; simplify_eq; eapply (inv_held p s); try done; try in_pc;
      cbn; rewrite decide_True by done; cbn; cbn in Hrem, Hmsg; by rewrite Hrem, Hmsg.
  - pose proof (held_ok p s HI) as Hok.
    destruct (pcs s p) as [| | | | | i m | |] eqn:E; try done; specialize (Hok eq_refl); cbn in Hok.
    destruct (decide _) as [Hl | Hl]; simplify_eq; eapply (inv_held p s); try done; try in_pc; cbn.
    + rewrite Hok. cbn. by rewrite app_assoc, Hf.
    + rewrite length_app. cbn. unfold PROCESS_QUEUE_LEN in *. lia.
  - destruct (pcs s p) eqn:E; simplify_eq. by apply inv_give.
  - destruct (pcs s p) eqn:E; simplify_eq. eapply (inv_outside p s); try done; try in_pc.
  - destruct (process_queue s) as [| j q] eqn:E; simplify_eq.
    destruct HI as [Hlock _ _ _]. cbn in Hr.
    split; cbn; [exact Hlock | done | by rewrite <- app_assoc | lia].
Qed.

Lemma inv_run es : forall s s', forallb (fun e => negb (cli_timeout e)) es = true ->
  intake_inv s -> intake_run es s = Some s' -> intake_inv s'.
Proof.
  induction es as [| e es IH]; intros s s' Hc HI Hr; cbn in *; [by simplify_eq |].
  apply andb_prop in Hc as [Hc Hcs]. apply negb_true_iff in Hc.
  destruct (intake_step e s) as [s1 |] eqn:E; [| done]. cbn in Hr.
  eapply IH; [done | by eapply inv_step | done].
Qed.
End Intake.

(** C23: commands reach the runner whole and in order, in every run without shell
    time-outs.  However the shell, the CAN thread and the UART thread interleave, as
    long as no shell command times out waiting for the semaphore
    ([cli_timeout_tears_jobs] is what happens otherwise), what the runner's thread
    has taken followed by what waits in the queue is exactly what the entry points
    meant to queue, in the order they queued it: no job mixes two commands, none is
    lost or doubled, and at most eight wait. *)
Theorem jobs_are_whole {J S} (es : list (@event J S)) s :
  forallb (fun e => negb (cli_timeout e)) es = true -> intake_run es intake_boot = Some s ->
  processed s ++ process_queue s = intended s /\ (length (process_queue s) <= PROCESS_QUEUE_LEN)%nat.
Proof.
  intros Hc Hr. pose proof (inv_run es _ _ Hc boot_inv Hr) as [_ _ Hf Hq]. done.
Qed.

(** The reader of the UART ring gives the decoder the payload.  Whatever
    pieces the decoder asks for, from the start of a message the receiver
    delivered up to its length, it gets the bytes of that message in order,
    across the end of the ring included, and reads nothing outside the ring. *)
Theorem uart_payload_read K ring m counts :
  3 <= K <= 31 -> zlen ring = ring_size K -> 0 <= start_idx m < ring_size K ->
  Forall (fun c => 0 <= c < ring_size K) counts -> foldr Z.add 0 counts = msg_length m ->
  buf_reads K ring (start_idx m) counts =
  Some (message_bytes K ring m, (start_idx m + msg_length m) mod ring_size K).
Proof.
  intros HK Hl Hs Hc Hsum. rewrite buf_reads_exact by done. by rewrite Hsum.
Qed.

(** Two commands over CAN and the UART, the second caller waiting for the first. *)
Definition two_commands : list (@event nat nat) :=
  [ECall (InCan 0x31F); ETake PCan; ECall InUart; EDecode PCan (Some (JMessage 7 4%nat)); EFill PCan; EFill2 PCan; EPut PCan;
   EGive PCan; ETake PUart; EReturn PCan; EDecode PUart (Some (JMessage 9 5%nat)); EGet; EFill PUart; EFill2 PUart;
   EPut PUart; EGive PUart; EReturn PUart].

Lemma jobs_are_whole_witness :
  (s ← intake_run two_commands intake_boot; Some (processed s, process_queue s)) =
    Some ([Job CAN_JETSON_MESSAGING 0x3F1 7 (JetsonCmd 4%nat)], [Job UART_MESSAGING 0 0 (JetsonCmd 5%nat)]) /\
  forall s, intake_run two_commands intake_boot = Some s ->
    processed s ++ process_queue s = intended s /\ (length (process_queue s) <= PROCESS_QUEUE_LEN)%nat.
Proof.
  split; [vm_compute; reflexivity |]. intros s Hs.
  apply (jobs_are_whole two_commands); [reflexivity | exact Hs].
Defined.

Lemma uart_payload_read_witness :
  buf_reads 4 ring16 1 [2; 1] = Some ([7; 8; 9], 4) /\
  buf_reads 4 ring16 13 [1; 4] = Some (message_bytes 4 ring16 (UartMessage 13 5), (13 + 5) mod ring_size 4).
Proof.
  split; [reflexivity |]. apply (uart_payload_read 4 ring16 (UartMessage 13 5) [1; 4]);
    [lia | reflexivity | by split | repeat (constructor; [by split |]); constructor | reflexivity].
Defined.

(** A shell command that times out while the CAN thread is writing gives the
    semaphore that thread holds; the UART thread then writes [new] in the middle,
    and the CAN thread queues the UART's command instead of its own.  The shell is told
    that its command, which is dropped, succeeded. *)
Example cli_timeout_tears_jobs :
  (s ← intake_run
    [ECall (InCan 0x80); ETake PCan; EDecode PCan (Some (JMessage 7 4%nat)); EFill PCan; EFill2 PCan;
     ECall (InCli 1%nat); ETimeout PCli; EGive PCli; EReturn PCli;
     ECall InUart; ETake PUart; EDecode PUart (Some (JMessage 9 5%nat)); EFill PUart;
     EPut PCan; EFill2 PUart; EPut PUart] (@intake_boot nat nat);
   Some (process_queue s, intended s, returned s)) =
  Some ([Job UART_MESSAGING 0x80 7 (JetsonCmd 5%nat); Job UART_MESSAGING 0 0 (JetsonCmd 5%nat)],
        [Job CAN_JETSON_MESSAGING 0x80 7 (JetsonCmd 4%nat); Job UART_MESSAGING 0 0 (JetsonCmd 5%nat)],
        [(PCli, RET_SUCCESS)]).
Proof. vm_compute. reflexivity. Qed.

(** A ninth command is refused as busy. *)
Definition uart_command (n : nat) : list (@event nat nat) :=
  [ECall InUart; ETake PUart; EDecode PUart (Some (JMessage 0 n)); EFill PUart; EFill2 PUart; EPut PUart; EGive PUart; EReturn PUart].

Example ninth_command_refused :
  (s ← intake_run (mjoin (uart_command <$> seq 1 9)) intake_boot;
   Some (message <$> process_queue s, last (returned s))) =
  Some (JetsonCmd <$> seq 1 8, Some (PUart, RET_ERROR_BUSY)).
Proof. vm_compute. reflexivity. Qed.
