(* ===== verification/Runner.v ===== *)
(** main_board/src/runner/runner.c, the dispatch: the thread takes the jobs of
    [RunnerQueue], one after the other, and calls the handler of the command, which
    calls the component and acknowledges.

    The state is the one of every component a command can reach, as its own file
    models it, and the module's own: the two contexts kept for the firmware update,
    the count of successful jobs, and what was handed to [publish_new] and
    [subscribe_add] (what these do with it is [PubSub]).  A handler is a computation
    on that state which may not return. *)

From Stdlib Require Import SpecFloat.
From S2P Require Import Prelude Storage Flash Can Uart Dfu Config IrTimer IrCamera Mirror Fan Temperature Polarizer.
From S2P Require Import Power Reboot Voltage Heartbeat Ping LiquidLens RunnerQueue.

(** ** Commands: [orb_mcu_main_JetsonToMcu], one constructor per payload *)

Inductive homing_mode := STALL_DETECTION | ONE_BLOCKING_END | WITH_KNOWN_COORDINATES | OTHER_HOMING_MODE.

#[export] Instance homing_mode_eq_dec : EqDecision homing_mode.
Proof. solve_decision. Defined.

Inductive homing_axis := AXIS_BOTH | AXIS_HORIZONTAL_PHI | AXIS_VERTICAL_THETA | OTHER_AXIS.

#[export] Instance homing_axis_eq_dec : EqDecision homing_axis.
Proof. solve_decision. Defined.

Inductive led_data := RgbUncompressed (b : bytes) | Argb32Uncompressed (b : bytes) | OtherFormat.
Inductive value_get := FIRMWARE_VERSIONS | HARDWARE_VERSIONS | CONE_PRESENT | OTHER_VALUE.
Inductive fatal := FATAL_WATCHDOG | USER_ASSERT_HARD | FATAL_BUSFAULT | FATAL_ILLEGAL_INSTRUCTION | FATAL_MEMMANAGE
  | FATAL_ACCESS | FATAL_K_PANIC | FATAL_K_OOPS.
Inductive diag_action := TriggerFatal (f : fatal) | TRIGGER_ASSERT_SOFT | TRIGGER_LOG | OTHER_ACTION.
Inductive time_format := HumanReadable (year month day hour min sec : Z) | EpochTime (t : Z) | OtherTime.

Inductive jetson_cmd :=
| ShutdownCmd (delay_s : Z)
| RebootCmd (delay : Z)
| RebootOrbCmd (force_reboot_timeout_s : Z)
| SetConfigCmd (reboot_behavior : option Z)          (* None: another field *)
| BootCompleteCmd
| MirrorAngleCmd (m : option mirror_angle_msg)       (* None: another type of angle *)
| MirrorAngleRelativeCmd (m : option mirror_angle_msg)
| DoHomingCmd (mode : homing_mode) (axis : homing_axis)
| InfraredLedsCmd (w : wavelength_e)
| LedOnTimeCmd (on_duration_us : Z)
| FpsCmd (fps : Z)
| StartTriggeringCmd (c : camera)
| StopTriggeringCmd (c : camera)
| FocusSweepLensValuesCmd (focus_values : bytes)
| FocusSweepPolynomialCmd (number_of_frames : Z)
| PerformFocusSweepCmd
| MirrorSweepPolynomialCmd (number_of_frames : Z)
| PerformMirrorSweepCmd
| TemperatureSamplePeriodCmd (ms : Z)
| FanSpeedCmd (which : fan_payload) (value : Z)
| UserLedsPatternCmd (pattern start_angle angle_length : Z) (color : option (Z * Z * Z)) (period_ms : Z) (scale : spec_float)
| UserLedsBrightnessCmd (brightness : Z)
| CenterLedsSequenceCmd (d : led_data)
| RingLedsSequenceCmd (d : led_data)
| DistributorLedsSequenceCmd (d : led_data)
| DistributorLedsPatternCmd (pattern leds_mask : Z) (rgb : bool) (color : Z * Z * Z)
| DistributorLedsBrightnessCmd (brightness : Z)
| ConeLedsSequenceCmd (d : led_data)
| ConeLedsPatternCmd (pattern : Z) (color : option (Z * Z * Z))
| WhiteLedsBrightnessCmd (brightness : Z)
| PolarizerCmd (command : polarizer_command) (speed angle : Z) (shortest_path : bool)
| PolarizerWheelSettingsCmd (acceleration max_speed : Z)
| DfuBlockCmd (block_number block_count : Z) (image_block : bytes)
| FwImageCheckCmd (crc32 : Z)
| FwSecondaryActivateCmd (force_permanent : bool)
| FwPrimaryConfirmCmd
| LiquidLensCmd (current : Z) (enable : bool)
| PowerCycleCmd (line : power_line) (duration_ms : Z)
| VoltageRequestCmd (transmit_period_ms : Z)
| HeartbeatCmd (timeout_seconds : Z)
| ValueGetCmd (value : value_get)
| SyncDiagDataCmd
| DiagTestCmd (action : diag_action)
| SetTimeCmd (t : time_format)
| OtherCmd.                                          (* a payload without handler *)

#[export] Instance ack_eq_dec : EqDecision ack.
Proof. solve_decision. Defined.

Inductive sec_cmd := PingPong (p : ping) | OtherSecCmd.

Abbreviation job := (job_t jetson_cmd sec_cmd).

(** ** Functions of modules that are not modelled *)

Inductive outside_call :=
| FrontLedsSetPattern (pattern start_angle angle_length : Z) (color : option (Z * Z * Z)) (period_ms : Z) (scale : spec_float)
| FrontLedsSetCenterSequence (argb32 : bool) (b : bytes)
| FrontLedsSetRingSequence (argb32 : bool) (b : bytes)
| FrontLedsSetBrightness (brightness : Z)
| FrontLedsBootProgressSet (step : Z)
| OperatorLedsSetSequence (argb32 : bool) (b : bytes)
| OperatorLedsSetPattern (pattern mask : Z) (color : option (Z * Z * Z))
| OperatorLedsSetBrightness (brightness : Z)
| WhiteLedsSetBrightness (brightness : Z)
| VersionFwSend (remote : Z)
| VersionHwSend (remote : Z)
| UiConePresentSend (remote : Z)
| PublishFlush
| FatalErrorsTrigger (f : fatal)
| DateSetTime (tm_year tm_mon tm_mday tm_hour tm_min tm_sec : Z)
| DateSetTimeEpoch (t : Z).

(** The code returned (0 for the functions without one) and the new state; [None]: it does not
    return. *)
Class Outside (O : Type) := call_outside : outside_call -> O -> option (Z * O).

(** ** State *)

Inductive out_call :=
| SubscribeAdd (addr : Z)
| PublishAck (addr number : Z) (error : ack)
| PublishShutdown (addr ms_until_shutdown : Z).

(** [struct handle_error_context_s]. *)
Record handle_error_context_s := Context_ { ctx_remote : remote_type_e; ctx_remote_addr : Z; ctx_ack_number : Z }.

(** What a command reads of the world while it is processed. *)
Record readings (D : Type) := Readings {
  triggered : bool;                 (* the eye-safety circuit *)
  safe : bool;                      (* distance_is_safe *)
  xphi : Z; xtheta : Z;             (* mirror positions read from the controller *)
  wheel_locked : bool;              (* the mutex of the polarizer was obtained *)
  gpios : gpio; now_ms : Z;         (* power_cycle_supply *)
  lens_gpio : Z; lens_windows : list sample * list sample * list sample;
  open_primary : Z; open_secondary : Z; primary : D;
  garbage_version : Z * Z * Z * Z;  (* uninitialised stack *)
  pending_ret : Z; swap_type : Z; image_ok_ret : Z; image_ok : Z; confirm_ret : Z;
  pong_ret : ping -> Z;
}.
Arguments Readings {D}.
Arguments triggered {D}. Arguments safe {D}. Arguments xphi {D}. Arguments xtheta {D}. Arguments wheel_locked {D}.
Arguments gpios {D}. Arguments now_ms {D}. Arguments lens_gpio {D}. Arguments lens_windows {D}.
Arguments open_primary {D}. Arguments open_secondary {D}. Arguments primary {D}. Arguments garbage_version {D}.
Arguments pending_ret {D}. Arguments swap_type {D}. Arguments image_ok_ret {D}. Arguments image_ok {D}.
Arguments confirm_ret {D}. Arguments pong_ret {D}.

Record orb (M D O : Type) := Orb {
  ir : ir_sys;
  mirror : mirror_sys;
  temp : temp_sys;
  polarizer : wheel;
  lens : lens_sys;
  reboots : boot_sys;
  regs : M;                          (* backup registers *)
  lines : works * trace;             (* power_cycle_supply *)
  publish_period : Z;                (* voltage_measurement.c *)
  heartbeat : hb_sys;
  config : config_sys D;
  dfu_module : dfu_sys (D := D) * dfu_headers;
  pings : ping_sys;
  outside : O;
  block_context : handle_error_context_s;   (* of handle_dfu_block_message *)
  check_context : handle_error_context_s;   (* of handle_fw_img_crc *)
  registered_check : bool;           (* which one dfu.c was given last *)
  job_counter : Z;
  sent_out : list out_call;
}.
Arguments Orb {M D O}.
Arguments ir {M D O}. Arguments mirror {M D O}. Arguments temp {M D O}. Arguments polarizer {M D O}. Arguments lens {M D O}.
Arguments reboots {M D O}. Arguments regs {M D O}. Arguments lines {M D O}. Arguments publish_period {M D O}.
Arguments heartbeat {M D O}. Arguments config {M D O}. Arguments dfu_module {M D O}. Arguments pings {M D O}.
Arguments outside {M D O}. Arguments block_context {M D O}. Arguments check_context {M D O}.
Arguments registered_check {M D O}. Arguments job_counter {M D O}. Arguments sent_out {M D O}.

(** *** Parts of the state, and computations on them *)

Record part (S X : Type) := Part { get : S -> X; put : X -> S -> S }.
Arguments Part {S X}.
Arguments get {S X}.
Arguments put {S X}.

Section Runner.
Context {M D O : Type}.

Abbreviation orb := (orb M D O).

(** A computation: its result, none when it does not return, and the state. *)
Definition run (A : Type) : Type := orb -> option A * orb.

#[export] Instance run_ret : MRet run := fun A a s => (Some a, s).
#[export] Instance run_bind : MBind run := fun A B k m s =>
  match m s with (Some a, s) => k a s | (None, s) => (None, s) end.

Definition on {X A} (p : part orb X) (f : X -> A * X) : run A :=
  fun s => let r := f (get p s) in (Some r.1, put p r.2 s).
Definition on_opt {X A} (p : part orb X) (f : X -> option (A * X)) : run A :=
  fun s => match f (get p s) with Some (a, x) => (Some a, put p x s) | None => (None, s) end.

Definition with_optics (i : ir_sys) (m : mirror_sys) (t : temp_sys) (w : wheel) (l : lens_sys) (s : orb) : orb :=
  Orb i m t w l (reboots s) (regs s) (lines s) (publish_period s) (heartbeat s) (config s) (dfu_module s) (pings s)
    (outside s) (block_context s) (check_context s) (registered_check s) (job_counter s) (sent_out s).
Definition with_power (r : boot_sys) (g : M) (l : works * trace) (v : Z) (h : hb_sys) (s : orb) : orb :=
  Orb (ir s) (mirror s) (temp s) (polarizer s) (lens s) r g l v h (config s) (dfu_module s) (pings s)
    (outside s) (block_context s) (check_context s) (registered_check s) (job_counter s) (sent_out s).
Definition with_data (c : config_sys D) (d : dfu_sys * dfu_headers) (p : ping_sys) (o : O) (s : orb) : orb :=
  Orb (ir s) (mirror s) (temp s) (polarizer s) (lens s) (reboots s) (regs s) (lines s) (publish_period s) (heartbeat s)
    c d p o (block_context s) (check_context s) (registered_check s) (job_counter s) (sent_out s).
Definition with_own (b c : handle_error_context_s) (r : bool) (n : Z) (l : list out_call) (s : orb) : orb :=
  Orb (ir s) (mirror s) (temp s) (polarizer s) (lens s) (reboots s) (regs s) (lines s) (publish_period s) (heartbeat s)
    (config s) (dfu_module s) (pings s) (outside s) b c r n l.

Definition p_ir : part orb ir_sys :=
  Part ir (fun x s => with_optics x (mirror s) (temp s) (polarizer s) (lens s) s).
Definition p_mirror : part orb mirror_sys :=
  Part mirror (fun x s => with_optics (ir s) x (temp s) (polarizer s) (lens s) s).
Definition p_temp : part orb temp_sys :=
  Part temp (fun x s => with_optics (ir s) (mirror s) x (polarizer s) (lens s) s).
Definition p_polarizer : part orb wheel :=
  Part polarizer (fun x s => with_optics (ir s) (mirror s) (temp s) x (lens s) s).
Definition p_lens : part orb lens_sys :=
  Part lens (fun x s => with_optics (ir s) (mirror s) (temp s) (polarizer s) x s).
Definition p_reboots : part orb boot_sys :=
  Part reboots (fun x s => with_power x (regs s) (lines s) (publish_period s) (heartbeat s) s).
Definition p_flag : part orb (M * boot_sys) :=
  Part (fun s => (regs s, reboots s)) (fun x s => with_power x.2 x.1 (lines s) (publish_period s) (heartbeat s) s).
Definition p_lines : part orb (works * trace) :=
  Part lines (fun x s => with_power (reboots s) (regs s) x (publish_period s) (heartbeat s) s).
Definition p_period : part orb Z :=
  Part publish_period (fun x s => with_power (reboots s) (regs s) (lines s) x (heartbeat s) s).
Definition p_heartbeat : part orb hb_sys :=
  Part heartbeat (fun x s => with_power (reboots s) (regs s) (lines s) (publish_period s) x s).
Definition p_config : part orb (config_sys D) :=
  Part config (fun x s => with_data x (dfu_module s) (pings s) (outside s) s).
Definition p_dfu : part orb (dfu_sys * dfu_headers) :=
  Part dfu_module (fun x s => with_data (config s) x (pings s) (outside s) s).
Definition p_pings : part orb ping_sys :=
  Part pings (fun x s => with_data (config s) (dfu_module s) x (outside s) s).
Definition p_outside : part orb O :=
  Part outside (fun x s => with_data (config s) (dfu_module s) (pings s) x s).
Definition p_contexts : part orb (handle_error_context_s * handle_error_context_s * bool) :=
  Part (fun s => (block_context s, check_context s, registered_check s))
    (fun x s => with_own x.1.1 x.1.2 x.2 (job_counter s) (sent_out s) s).
Definition p_counter : part orb Z :=
  Part job_counter (fun x s => with_own (block_context s) (check_context s) (registered_check s) x (sent_out s) s).
Definition p_sent_out : part orb (list out_call) :=
  Part sent_out (fun x s => with_own (block_context s) (check_context s) (registered_check s) (job_counter s) x s).

(** *** Calls and acknowledgements *)

Definition hand_out (c : out_call) : run unit := on p_sent_out (fun l => (tt, l ++ [c])).
Definition call `{Outside O} (c : outside_call) : run Z := on_opt p_outside (call_outside c).
Definition count_success : run unit := on p_counter (fun n => (tt, u32 (n + 1))).

Definition job_ack (error : ack) (job : job) : run unit :=
  (if decide (remote job = CAN_JETSON_MESSAGING)
   then hand_out (PublishAck (remote_addr job) (ack_number job) error) else mret tt);;
  if decide (error = ACK_SUCCESS) then count_success else mret tt.

(** The [switch] of a handler on the code of the call: the cases, and the default. *)
Fixpoint answer (cases : list (Z * ack)) (other : ack) (ret : Z) : ack :=
  match cases with
  | [] => other
  | (r, a) :: cases => if ret =? r then a else answer cases other ret
  end.

Definition ack_of_err (err : Z) : ack :=
  answer [(RET_SUCCESS, ACK_SUCCESS); (RET_ERROR_INVALID_PARAM, ACK_RANGE); (RET_ERROR_NOT_FOUND, ACK_RANGE);
          (RET_ERROR_BUSY, ACK_IN_PROGRESS); (RET_ERROR_INVALID_STATE, ACK_IN_PROGRESS);
          (RET_ERROR_FORBIDDEN, ACK_NOT_SUPPORTED)] ACK_FAIL err.

(** The callback given to dfu.c. *)
Definition handle_err_code (context : handle_error_context_s) (err : Z) : run unit :=
  (if decide (ctx_remote context = CAN_JETSON_MESSAGING)
   then hand_out (PublishAck (ctx_remote_addr context) (ctx_ack_number context) (ack_of_err err)) else mret tt);;
  if err =? RET_SUCCESS then count_success else mret tt.

Definition context_of (job : job) : handle_error_context_s :=
  Context_ (remote job) (remote_addr job) (ack_number job).
End Runner.

(** ** Handlers *)

Section Handlers.
Context {M D O : Type} `{BBRam M} `{FlashDriver D} `{Crc} `{Outside O} `{HwVersions}.
Context (b : board) (sin asin : spec_float -> spec_float) (h : fan_hw) (ms_to_ticks : Z -> Z) (calc_vrefanalog : Z -> Z)
  (hardware_version : Z) (K_SECONDS : Z -> Z).
(** The sizes of the flash's write block, of a block of an image, of a ping and of
    the focus values; the constants of mcuboot; CONFIG_DEBUG and BUILD_FROM_CI. *)
Context (WBS BLK TEST_SIZE MAX_FOCUS : Z) (MB : mcuboot) (BOOT_FLAG_UNSET : Z) (debug ci : bool).

Abbreviation orb := (orb M D O).
Abbreviation run := (@run M D O).

(** *** Infrared cameras *)

Definition handle_infrared_leds_message (rd : readings D) (w : wavelength_e) (job : job) : run unit :=
  err ← on p_ir (ir_camera_system_enable_leds b (triggered rd) (safe rd) w);
  job_ack (answer [(RET_SUCCESS, ACK_SUCCESS); (RET_ERROR_BUSY, ACK_INVALID_STATE); (RET_ERROR_FORBIDDEN, ACK_FORBIDDEN);
                   (RET_ERROR_INVALID_PARAM, ACK_NOT_SUPPORTED)] ACK_FAIL err) job.

Definition handle_led_on_time_message (rd : readings D) (on_time_us : Z) (job : job) : run unit :=
  ret ← on p_ir (ir_camera_system_set_on_time_us b (triggered rd) (safe rd) on_time_us);
  job_ack (answer [(RET_SUCCESS, ACK_SUCCESS); (RET_ERROR_FORBIDDEN, ACK_FORBIDDEN);
                   (RET_ERROR_INVALID_PARAM, ACK_RANGE)] ACK_FAIL ret) job.

(** The parameter of the call is a [uint16_t]. *)
Definition handle_fps (rd : readings D) (fps : Z) (job : job) : run unit :=
  ret ← on p_ir (ir_camera_system_set_fps b (triggered rd) (safe rd) (u16 fps));
  job_ack (answer [(RET_SUCCESS, ACK_SUCCESS); (RET_ERROR_BUSY, ACK_INVALID_STATE); (RET_ERROR_FORBIDDEN, ACK_FORBIDDEN);
                   (RET_ERROR_INVALID_PARAM, ACK_RANGE)] ACK_FAIL ret) job.

(** Only the answer of the eye camera is looked at. *)
Definition camera_answer (c : camera) (err : Z) : ack :=
  match c with
  | IrEye => answer [(RET_SUCCESS, ACK_SUCCESS); (RET_ERROR_BUSY, ACK_INVALID_STATE)] ACK_FAIL err
  | IrFace | Tof2d | RgbFace => ACK_SUCCESS
  end.

Definition handle_start_triggering_camera_message (c : camera) (job : job) : run unit :=
  err ← on p_ir (ir_camera_system_enable_camera b c);
  job_ack (camera_answer c err) job.

Definition handle_stop_triggering_camera_message (c : camera) (job : job) : run unit :=
  err ← on p_ir (ir_camera_system_disable_camera b c);
  job_ack (camera_answer c err) job.

(** Two bytes per value. *)
Definition handle_ir_eye_camera_focus_sweep_lens_values (focus_values : bytes) (job : job) : run unit :=
  ret ← on p_ir (ir_camera_system_set_focus_values_for_focus_sweep MAX_FOCUS (zlen focus_values / 2));
  job_ack (answer [(RET_SUCCESS, ACK_SUCCESS); (RET_ERROR_BUSY, ACK_INVALID_STATE);
                   (RET_ERROR_INVALID_PARAM, ACK_RANGE)] ACK_FAIL ret) job.

Definition polynomial_answer (err : Z) : ack :=
  answer [(RET_SUCCESS, ACK_SUCCESS); (RET_ERROR_BUSY, ACK_INVALID_STATE)] ACK_FAIL err.

Definition handle_ir_eye_camera_focus_sweep_values_polynomial (number_of_frames : Z) (job : job) : run unit :=
  err ← on p_ir (ir_camera_system_set_polynomial_coefficients_for_focus_sweep number_of_frames);
  job_ack (polynomial_answer err) job.

Definition handle_ir_eye_camera_mirror_sweep_values_polynomial (number_of_frames : Z) (job : job) : run unit :=
  err ← on p_ir (ir_camera_system_set_polynomial_coefficients_for_mirror_sweep number_of_frames);
  job_ack (polynomial_answer err) job.

Definition sweep_answer (ret : Z) : ack :=
  answer [(RET_ERROR_BUSY, ACK_IN_PROGRESS); (RET_ERROR_INVALID_STATE, ACK_INVALID_STATE);
          (RET_ERROR_FORBIDDEN, ACK_FORBIDDEN); (RET_SUCCESS, ACK_SUCCESS)] ACK_FAIL ret.

Definition handle_perform_ir_eye_camera_focus_sweep (rd : readings D) (job : job) : run unit :=
  ret ← on p_ir (ir_camera_system_perform_focus_sweep b (triggered rd));
  job_ack (sweep_answer ret) job.

Definition handle_perform_ir_eye_camera_mirror_sweep (rd : readings D) (job : job) : run unit :=
  ret ← on p_ir (ir_camera_system_perform_mirror_sweep b (triggered rd));
  job_ack (sweep_answer ret) job.

(** *** Power: the handlers of [Reboot] and [Power], their answers handed out *)

Fixpoint job_acks (l : list ack) (job : job) : run unit :=
  match l with [] => mret tt | a :: l => job_ack a job;; job_acks l job end.

Definition handle_shutdown (delay : Z) (job : job) : run unit :=
  acks ← on p_reboots (Reboot.handle_shutdown delay); job_acks acks job.

Definition handle_reboot_message (delay : Z) (job : job) : run unit :=
  r ← on p_reboots (fun s => let '(acks, ms, s) := Reboot.handle_reboot_message delay s in ((acks, ms), s));
  job_acks r.1 job;;
  match r.2 with
  | Some ms => hand_out (PublishShutdown CAN_ADDRESS_MCU_TO_JETSON_TX ms)
  | None => mret tt
  end.

Definition handle_reboot_orb (delay : Z) (job : job) : run unit :=
  acks ← on p_flag (fun x => let '(acks, m, s) := Reboot.handle_reboot_orb delay x.1 x.2 in (acks, (m, s)));
  job_acks acks job.

Definition handle_power_cycle (rd : readings D) (line : power_line) (duration_ms : Z) (job : job) : run unit :=
  a ← on p_lines (fun x =>
        let '(a, w, t) := Power.handle_power_cycle b (gpios rd) debug (now_ms rd) line duration_ms x.1 x.2 in (a, (w, t)));
  job_ack a job.

Definition handle_voltage_request (transmit_period_ms : Z) (job : job) : run unit :=
  on p_period (fun _ => (tt, voltage_measurement_set_publish_period transmit_period_ms));;
  job_ack ACK_SUCCESS job.

Definition handle_heartbeat (timeout_seconds : Z) (job : job) : run unit :=
  ret ← on p_heartbeat (heartbeat_boom K_SECONDS timeout_seconds);
  job_ack (if ret =? RET_SUCCESS then ACK_SUCCESS else ACK_FAIL) job.

(** *** Configuration, temperature, polarizer *)

Definition handle_set_config (reboot_behavior : option Z) (job : job) : run unit :=
  match reboot_behavior with
  | Some v =>
      ret ← on_opt p_config (config_set_reboot_behavior WBS v);
      job_ack (if ret =? RET_SUCCESS then ACK_SUCCESS else ACK_FAIL) job
  | None => job_ack ACK_RANGE job
  end.

Definition handle_temperature_sample_period_message (ms : Z) (job : job) : run unit :=
  a ← on p_temp (Temperature.handle_temperature_sample_period_message ms_to_ticks ms); job_ack a job.

Definition handle_fan_speed (which : fan_payload) (value : Z) (job : job) : run unit :=
  a ← on p_temp (Temperature.handle_fan_speed h which value); job_ack a job.

Definition handle_polarizer (rd : readings D) (c : polarizer_command) (speed angle : Z) (short : bool) (job : job) : run unit :=
  a ← on p_polarizer (Polarizer.handle_polarizer (wheel_locked rd) c speed angle short); job_ack a job.

Definition handle_polarizer_wheel_settings (acceleration max_speed : Z) (job : job) : run unit :=
  a ← on p_polarizer (Polarizer.handle_polarizer_wheel_settings acceleration max_speed); job_ack a job.

(** *** Mirror and liquid lens *)

Definition handle_mirror_angle_message (m : option mirror_angle_msg) (job : job) : run unit :=
  match m with
  | Some m => a ← on_opt p_mirror (Mirror.handle_mirror_angle_message b sin m); job_ack a job
  | None => job_ack ACK_FAIL job
  end.

Definition handle_mirror_angle_relative_message (rd : readings D) (m : option mirror_angle_msg) (job : job) : run unit :=
  match m with
  | Some m =>
      a ← on_opt p_mirror (Mirror.handle_mirror_angle_relative_message b sin asin m (xphi rd) (xtheta rd)); job_ack a job
  | None => job_ack ACK_FAIL job
  end.

(** [mirror_autohoming]: the motor is ignored on the Diamond, which homes both
    under one semaphore ([mirror_homing_overreach_ends_async], once started). *)
Definition mirror_autohoming (m : motor_t) (s : mirror_sys) : Z * mirror_sys :=
  let '(ret, _, s) := mirror_homing_one_end (match b with Pearl => m | Diamond => MOTOR_PHI_ANGLE end) s in (ret, s).

Definition handle_do_mirror_homing (mode : homing_mode) (axis : homing_axis) (job : job) : run unit :=
  busy ← on p_mirror (fun s => (mirror_auto_homing_in_progress b s, s));
  if (busy : bool) then job_ack ACK_IN_PROGRESS job
  else if decide (mode = STALL_DETECTION) then job_ack ACK_NOT_SUPPORTED job
  else
    let finish (ret : Z) := job_ack (if negb (ret =? 0) then ACK_FAIL else ACK_SUCCESS) job in
    match b, mode with
    | Pearl, ONE_BLOCKING_END =>
        r1 ← (if decide (axis = AXIS_BOTH \/ axis = AXIS_HORIZONTAL_PHI) then on p_mirror (mirror_autohoming MOTOR_PHI_ANGLE) else mret 0);
        r2 ← (if decide (axis = AXIS_BOTH \/ axis = AXIS_VERTICAL_THETA) then on p_mirror (mirror_autohoming MOTOR_THETA_ANGLE) else mret 0);
        finish (Z.lor r1 r2)
    | Pearl, WITH_KNOWN_COORDINATES => finish 0
    | Diamond, ONE_BLOCKING_END => ret ← on p_mirror (mirror_autohoming MOTOR_PHI_ANGLE); finish ret
    | Diamond, WITH_KNOWN_COORDINATES => ret ← on_opt p_mirror (mirror_go_home b sin); finish ret
    | _, _ => job_ack ACK_NOT_SUPPORTED job
    end.

(** The answer goes out before the lens is switched. *)
Definition handle_liquid_lens (rd : readings D) (current : Z) (enable : bool) (job : job) : run unit :=
  if negb ((LIQUID_LENS_MIN_CURRENT_MA <=? current) && (current <=? LIQUID_LENS_MAX_CURRENT_MA))
  then job_ack ACK_RANGE job
  else
    err ← on p_lens (liquid_set_target_current_ma current);
    if err =? RET_SUCCESS then
      job_ack ACK_SUCCESS job;;
      if enable then on p_lens (fun s => (tt, liquid_lens_enable (lens_gpio rd) s))
      else let '(w1, w2, w3) := lens_windows rd in
           on_opt p_lens (fun s => s ← liquid_lens_disable b calc_vrefanalog hardware_version w1 w2 w3 (lens_gpio rd) s; Some (tt, s))
    else job_ack (if err =? RET_ERROR_BUSY then ACK_INVALID_STATE else ACK_FAIL) job.

(** *** User interface *)

Definition success_or_fail (ret : Z) : ack := if ret =? RET_SUCCESS then ACK_SUCCESS else ACK_FAIL.

Definition FULL_RING_DEGREES : Z := 360.

(** [abs] of an [int32_t]; the least one has no opposite. *)
Definition abs32 (z : Z) : Z := s32 (Z.abs z).

Definition handle_user_leds_pattern (pattern start_angle angle_length : Z) (color : option (Z * Z * Z)) (period_ms : Z)
  (scale : spec_float) (job : job) : run unit :=
  if (FULL_RING_DEGREES <? start_angle) || (FULL_RING_DEGREES <? abs32 angle_length) then job_ack ACK_RANGE job
  else
    ret ← call (FrontLedsSetPattern pattern start_angle angle_length color period_ms scale);
    job_ack (success_or_fail ret) job.

(** The handlers of sequences differ in the function called. *)
Definition handle_leds_sequence (set : bool -> bytes -> outside_call) (d : led_data) (job : job) : run unit :=
  match d with
  | RgbUncompressed x => ret ← call (set false x); job_ack (success_or_fail ret) job
  | Argb32Uncompressed x => ret ← call (set true x); job_ack (success_or_fail ret) job
  | OtherFormat => job_ack ACK_FAIL job
  end.

Definition handle_user_center_leds_sequence := handle_leds_sequence FrontLedsSetCenterSequence.
Definition handle_user_ring_leds_sequence := handle_leds_sequence FrontLedsSetRingSequence.
Definition handle_distributor_leds_sequence := handle_leds_sequence OperatorLedsSetSequence.

(** Without CONFIG_DT_HAS_DIAMOND_CONE_ENABLED. *)
Definition handle_not_supported (job : job) : run unit := job_ack ACK_NOT_SUPPORTED job.
Definition handle_cone_leds_sequence (job : job) : run unit := job_ack ACK_FAIL job.
Definition handle_cone_leds_pattern (job : job) : run unit := job_ack ACK_NOT_SUPPORTED job.

Definition handle_white_leds_brightness (brightness : Z) (job : job) : run unit :=
  if 1000 <? brightness then job_ack ACK_RANGE job
  else call (WhiteLedsSetBrightness brightness);; job_ack ACK_SUCCESS job.

Definition handle_user_leds_brightness (brightness : Z) (job : job) : run unit :=
  if 255 <? brightness then job_ack ACK_RANGE job
  else call (FrontLedsSetBrightness brightness);; job_ack ACK_SUCCESS job.

(** [BIT_MASK] of the number of LEDs. *)
Definition OPERATOR_LEDS_ALL_MASK : Z := match b with Pearl => 0x1F | Diamond => 1 end.

Definition handle_distributor_leds_pattern (pattern mask : Z) (rgb : bool) (color : Z * Z * Z) (job : job) : run unit :=
  if OPERATOR_LEDS_ALL_MASK <? mask then job_ack ACK_RANGE job
  else
    ret ← call (OperatorLedsSetPattern pattern mask (if rgb then Some color else None));
    job_ack (success_or_fail ret) job.

Definition handle_distributor_leds_brightness (brightness : Z) (job : job) : run unit :=
  if 255 <? brightness then job_ack ACK_RANGE job
  else ret ← call (OperatorLedsSetBrightness (u8 brightness)); job_ack (success_or_fail ret) job.

Definition BOOT_PROGRESS_STEP_JETSON_VALUEGET : Z := 3.
Definition BOOT_PROGRESS_STEP_DATE_SET : Z := 4.
Definition BOOT_PROGRESS_STEP_DONE : Z := 5.

Definition handle_boot_complete (job : job) : run unit :=
  ret ← call (FrontLedsBootProgressSet BOOT_PROGRESS_STEP_DONE); job_ack (success_or_fail ret) job.

(** *** Information, diagnostics and time *)

Definition handle_value_get_message (value : value_get) (job : job) : run unit :=
  call (FrontLedsBootProgressSet BOOT_PROGRESS_STEP_JETSON_VALUEGET);;
  match value with
  | FIRMWARE_VERSIONS => call (VersionFwSend (remote_addr job));; job_ack ACK_SUCCESS job
  | HARDWARE_VERSIONS => call (VersionHwSend (remote_addr job));; job_ack ACK_SUCCESS job
  | CONE_PRESENT => call (UiConePresentSend (remote_addr job));; job_ack ACK_SUCCESS job
  | OTHER_VALUE => job_ack ACK_RANGE job
  end.

Definition handle_sync_diag_data (job : job) : run unit :=
  call PublishFlush;; job_ack ACK_SUCCESS job.

Definition handle_diag_test_data (action : diag_action) (job : job) : run unit :=
  if ci then job_ack ACK_NOT_SUPPORTED job
  else
    job_ack ACK_SUCCESS job;;
    match action with
    | TriggerFatal f => call (FatalErrorsTrigger f);; mret tt
    | TRIGGER_ASSERT_SOFT | TRIGGER_LOG | OTHER_ACTION => mret tt
    end.

Definition handle_set_time (t : time_format) (job : job) : run unit :=
  call (FrontLedsBootProgressSet BOOT_PROGRESS_STEP_DATE_SET);;
  ret ← match t with
        | HumanReadable year month day hour min sec =>
            call (DateSetTime (s32 (s32 year - 1900)) (s32 (s32 month - 1)) (s32 day) (s32 hour) (s32 min) (s32 sec))
        | EpochTime t => call (DateSetTimeEpoch t)
        | OtherTime => mret RET_ERROR_INVALID_PARAM
        end;
  job_ack (answer [(RET_SUCCESS, ACK_SUCCESS); (RET_ERROR_INVALID_PARAM, ACK_RANGE); (- EINVAL, ACK_RANGE)] ACK_FAIL ret) job.

(** *** Firmware update *)

(** The parts of the state dfu.c uses. *)
Definition in_dfu {A} (f : dfu_sys (D := D) -> A * dfu_sys) : run A :=
  on p_dfu (fun x => let r := f x.1 in (r.1, (r.2, x.2))).
Definition in_headers {A} (f : dfu_headers -> option (A * dfu_headers)) : run A :=
  on_opt p_dfu (fun x => r ← f x.2; Some (r.1, (x.1, r.2))).

(** dfu.c keeps a pointer to the context of the handler, and not its content. *)
Definition register (check : bool) : run unit := on p_contexts (fun x => (tt, (x.1, check))).

Definition dfu_block_ret (number count : Z) (image_block : bytes) (s : dfu_sys (D := D)) : Z :=
  (dfu_load BLK number count image_block true s).1.

Definition handle_dfu_block_message (number count : Z) (image_block : bytes) (job : job) : run unit :=
  on p_contexts (fun x => (tt, (context_of job, x.1.2, x.2)));;
  ret ← in_dfu (dfu_load BLK number count image_block true);
  (if (ret =? - EINPROGRESS) || (ret =? RET_SUCCESS) then register false else mret tt);;
  if ret =? - EINPROGRESS then mret tt
  else job_ack (answer [(RET_SUCCESS, ACK_SUCCESS); (RET_ERROR_NO_MEM, ACK_INVALID_STATE);
                        (RET_ERROR_INVALID_PARAM, ACK_RANGE); (RET_ERROR_BUSY, ACK_IN_PROGRESS)] ACK_FAIL ret) job.

Definition handle_fw_img_crc (crc32 : Z) (job : job) : run unit :=
  on p_contexts (fun x => (tt, (x.1.1, context_of job, x.2)));;
  ret ← in_dfu (dfu_secondary_check_async crc32 true);
  if ret =? - EINPROGRESS then register true
  else job_ack (if ret =? RET_ERROR_INVALID_STATE then ACK_INVALID_STATE else ACK_FAIL) job.

Definition handle_fw_img_sec_activate (rd : readings D) (force_permanent : bool) (job : job) : run unit :=
  ret ← on_opt p_dfu (fun x =>
          '(ret, d, h) ← (if force_permanent then dfu_secondary_activate_permanently BLK MB
                          else dfu_secondary_activate_temporarily BLK MB)
                           (open_secondary rd) (pending_ret rd) (swap_type rd) x.1 x.2;
          Some (ret, (d, h)));
  job_ack (if negb (ret =? 0) then ACK_FAIL else ACK_SUCCESS) job.

(** Major, minor, revision; the build number does not count. *)
Definition version_below (p s : Z * Z * Z * Z) : bool :=
  let '(pmaj, pmin, prev, _) := p in let '(smaj, smin, srev, _) := s in
  (pmaj <? smaj) || ((pmaj =? smaj) && (pmin <? smin)) || ((pmaj =? smaj) && (pmin =? smin) && (prev <? srev)).

(** The version in the secondary slot, if there is one. *)
Definition secondary_version (open_ret : Z) (x : dfu_sys (D := D) * dfu_headers)
  : option (option (Z * Z * Z * Z) * (dfu_sys (D := D) * dfu_headers)) :=
  match dfu_version_secondary_get MB open_ret (secondary x.1) x.2 with
  | Some (ret, v, h) => Some (if ret =? RET_SUCCESS then v else None, (x.1, h))
  | None => None
  end.

(** The code of [dfu_version_primary_get] is not looked at. *)
Definition primary_version (rd : readings D) (x : dfu_headers) : option (Z * Z * Z * Z * dfu_headers) :=
  match dfu_version_primary_get MB (open_primary rd) (primary rd) x with
  | Some (_, v, h) => Some (default (garbage_version rd) v, h)
  | None => None
  end.

Definition handle_fw_img_primary_confirm (rd : readings D) (job : job) : run unit :=
  v ← on_opt p_dfu (secondary_version (open_secondary rd));
  older ← match v with
          | Some v => p ← in_headers (primary_version rd); mret (version_below p v)
          | None => mret false
          end;
  if (older : bool) then job_ack ACK_VERSION job
  else if dfu_primary_is_confirmed (open_primary rd) (image_ok_ret rd) (image_ok rd) BOOT_FLAG_UNSET
  then job_ack ACK_INVALID_STATE job
  else job_ack (if negb (confirm_ret rd =? 0) then ACK_FAIL else ACK_SUCCESS) job.

(** *** Security MCU *)

Definition handle_sec_to_main_ping (rd : readings D) (p : ping) : run unit :=
  on p_pings (ping_received TEST_SIZE (pong_ret rd) (Some p));; mret tt.

(** ** Dispatch *)

(** [handle_message_callbacks]. *)
Definition handle_message (rd : readings D) (c : jetson_cmd) (job : job) : run unit :=
  match c with
  | ShutdownCmd d => handle_shutdown d job
  | RebootCmd d => handle_reboot_message d job
  | RebootOrbCmd t => handle_reboot_orb t job
  | SetConfigCmd v => handle_set_config v job
  | BootCompleteCmd => handle_boot_complete job
  | MirrorAngleCmd m => handle_mirror_angle_message m job
  | MirrorAngleRelativeCmd m => handle_mirror_angle_relative_message rd m job
  | DoHomingCmd mode axis => handle_do_mirror_homing mode axis job
  | InfraredLedsCmd w => handle_infrared_leds_message rd w job
  | LedOnTimeCmd t => handle_led_on_time_message rd t job
  | FpsCmd f => handle_fps rd f job
  | StartTriggeringCmd c => handle_start_triggering_camera_message c job
  | StopTriggeringCmd c => handle_stop_triggering_camera_message c job
  | FocusSweepLensValuesCmd v => handle_ir_eye_camera_focus_sweep_lens_values v job
  | FocusSweepPolynomialCmd n => handle_ir_eye_camera_focus_sweep_values_polynomial n job
  | PerformFocusSweepCmd => handle_perform_ir_eye_camera_focus_sweep rd job
  | MirrorSweepPolynomialCmd n => handle_ir_eye_camera_mirror_sweep_values_polynomial n job
  | PerformMirrorSweepCmd => handle_perform_ir_eye_camera_mirror_sweep rd job
  | TemperatureSamplePeriodCmd ms => handle_temperature_sample_period_message ms job
  | FanSpeedCmd w v => handle_fan_speed w v job
  | UserLedsPatternCmd p a l c ms sc => handle_user_leds_pattern p a l c ms sc job
  | UserLedsBrightnessCmd v => handle_user_leds_brightness v job
  | CenterLedsSequenceCmd d => handle_user_center_leds_sequence d job
  | RingLedsSequenceCmd d => handle_user_ring_leds_sequence d job
  | DistributorLedsSequenceCmd d => handle_distributor_leds_sequence d job
  | DistributorLedsPatternCmd p m rgb c => handle_distributor_leds_pattern p m rgb c job
  | DistributorLedsBrightnessCmd v => handle_distributor_leds_brightness v job
  | ConeLedsSequenceCmd _ => match b with Diamond => handle_cone_leds_sequence job | Pearl => handle_not_supported job end
  | ConeLedsPatternCmd _ _ => match b with Diamond => handle_cone_leds_pattern job | Pearl => handle_not_supported job end
  | WhiteLedsBrightnessCmd v =>
      match b with Diamond => handle_white_leds_brightness v job | Pearl => handle_not_supported job end
  | PolarizerCmd c speed angle short =>
      match b with Diamond => handle_polarizer rd c speed angle short job | Pearl => job_ack ACK_NOT_SUPPORTED job end
  | PolarizerWheelSettingsCmd a v =>
      match b with Diamond => handle_polarizer_wheel_settings a v job | Pearl => job_ack ACK_NOT_SUPPORTED job end
  | DfuBlockCmd n c d => handle_dfu_block_message n c d job
  | FwImageCheckCmd crc => handle_fw_img_crc crc job
  | FwSecondaryActivateCmd f => handle_fw_img_sec_activate rd f job
  | FwPrimaryConfirmCmd => handle_fw_img_primary_confirm rd job
  | LiquidLensCmd c e => handle_liquid_lens rd c e job
  | PowerCycleCmd l d => handle_power_cycle rd l d job
  | VoltageRequestCmd p => handle_voltage_request p job
  | HeartbeatCmd t => handle_heartbeat t job
  | ValueGetCmd v => handle_value_get_message v job
  | SyncDiagDataCmd => handle_sync_diag_data job
  | DiagTestCmd a => handle_diag_test_data a job
  | SetTimeCmd t => handle_set_time t job
  | OtherCmd => job_ack ACK_NOT_SUPPORTED job
  end.

(** One turn of [runner_process_jobs_thread]. *)
Definition process_job (rd : readings D) (job : job) : run unit :=
  (if negb (remote_addr job =? 0) then hand_out (SubscribeAdd (remote_addr job)) else mret tt);;
  match message job with
  | SecCmd (PingPong p) => handle_sec_to_main_ping rd p
  | SecCmd OtherSecCmd => job_ack ACK_NOT_SUPPORTED job
  | JetsonCmd c => handle_message rd c job
  | NoMessage => job_ack ACK_NOT_SUPPORTED job
  end.

(** One turn of the thread of dfu.c, which calls back with the context it was given. *)
Definition dfu_thread_turn (SL page open_ret : Z) (x : dfu_sys (D := D) * dfu_headers)
  : option (option Z * (dfu_sys (D := D) * dfu_headers)) :=
  match process_dfu_blocks_turn BLK SL MB page open_ret x.1 x.2 with
  | Some (err, d, h) => Some (err, (d, h))
  | None => None
  end.

Definition call_back (err : Z) : run unit :=
  fun s => handle_err_code (if registered_check s then check_context s else block_context s) err s.

Definition dfu_turn (SL page open_ret : Z) : run unit :=
  err ← on_opt p_dfu (dfu_thread_turn SL page open_ret);
  match err with Some err => call_back err | None => mret tt end.
End Handlers.

(** ** An Orb for the examples

    A Diamond just started, its polarizer wheel homed, the functions outside
    returning 0. *)

Definition demo_outside : Outside (list outside_call) := fun c o => Some (0, o ++ [c]).
Definition demo_flash : nor_w 8 := exist _ (Nor (fill 256 7) 8) eq_refl.
Definition demo_context : handle_error_context_s := Context_ CLI 0 0.

Definition demo_orb : orb bytes (nor_w 8) (list outside_call) :=
  Orb (ir_camera_system_init Diamond 0 ir_boot).2 (mirror_reset Diamond)
    (TempSys [] 0 0 0 (FanSys 0 false true 0) 0 1000 [] [] false)
    (wheel_at 0) (liquid_lens_set_pwm 0 lens_boot) (boot_sys_init []) (fill 4 0) (fun _ => None, []) 0 hb_boot
    (ConfigSys (Sys 1 (Area None 0 0)) config_zero false 0) (dfu_boot 32 demo_flash, DfuHeaders (fill 4 0) (fill 4 0) 1) ping_boot []
    demo_context demo_context false 0 [].

Definition demo_readings : readings (nor_w 8) :=
  Readings false true 0 0 true gpio_ok 0 0 ([Sample 0 0 0], [], []) 0 0 demo_flash (0, 0, 0, 0) 0 0 0 0 0 (fun _ => 0).

(** A command of the Jetson over CAN, number [n]. *)
Definition can_job (n : Z) (c : jetson_cmd) : job := Job CAN_JETSON_MESSAGING 0x80 n (JetsonCmd c).
