(* ===== verification/RunnerAnswers.v ===== *)
(** Every command of the Jetson is answered as often as it should be and to the one
    who sent it, refused commands change nothing but the answers, and the late
    answers of the firmware update carry the number of the right command. *)

From Stdlib Require Import SpecFloat.
From S2P Require Import Prelude Flash Can Uart Dfu Config IrTimer IrCamera Mirror Fan Temperature Polarizer.
From S2P Require Import Power Reboot Voltage Heartbeat Ping LiquidLens RunnerQueue Runner RunnerFacts.

(** ** Answers in what a job handed out *)

Definition ack_call (c : out_call) : option (Z * Z * ack) :=
  match c with PublishAck a n e => Some (a, n, e) | _ => None end.
Definition acks_of (l : list out_call) : list (Z * Z * ack) := omap ack_call l.

(** What a list of answers to the job is on the wire: nothing unless the Jetson sent it
    over CAN. *)
Definition answers_of (j : job) (l : list ack) : list (Z * Z * ack) :=
  if decide (remote j = CAN_JETSON_MESSAGING) then (fun e => (remote_addr j, ack_number j, e)) <$> l else [].

Definition successes (l : list ack) : Z := zlen (filter (fun a => a = ACK_SUCCESS) l).

Lemma acks_of_app l k : acks_of (l ++ k) = acks_of l ++ acks_of k.
Proof. apply omap_app. Qed.

Lemma answers_of_app j l k : answers_of j (l ++ k) = answers_of j l ++ answers_of j k.
Proof. unfold answers_of. case_decide; [by rewrite fmap_app | done]. Qed.

Lemma successes_app l k : successes (l ++ k) = successes l + successes k.
Proof. unfold successes, zlen. rewrite filter_app, length_app. lia. Qed.

Section Answers.
Context {M D O : Type}.
Abbreviation orb := (Runner.orb M D O).

(** From [s] to [s'] exactly these answers were handed out, and the successes
    counted. *)
Definition effect (j : job) (acks : list ack) (s s' : orb) : Prop :=
  exists calls, sent_out s' = sent_out s ++ calls /\ acks_of calls = answers_of j acks /\
    u32 (job_counter s') = u32 (job_counter s + successes acks).

(** No answer is handed out. *)
Definition quiet (s s' : orb) : Prop :=
  exists calls, sent_out s' = sent_out s ++ calls /\ acks_of calls = [] /\ job_counter s' = job_counter s.

#[export] Instance quiet_preorder : PreOrder quiet.
Proof.
  split.
  - intros s. exists []. by rewrite app_nil_r.
  - intros s1 s2 s3 (c1 & E1 & A1 & N1) (c2 & E2 & A2 & N2). exists (c1 ++ c2).
    rewrite E2, E1, N2, N1, acks_of_app, A1, A2, app_assoc. done.
Qed.

Lemma quiet_same s s' : sent_out s' = sent_out s -> job_counter s' = job_counter s -> quiet s s'.
Proof. intros E N. exists []. by rewrite app_nil_r. Qed.

Lemma effect_none j s s' : quiet s s' -> effect j [] s s'.
Proof.
  intros (c & E & A & N). exists c. rewrite A, N. unfold answers_of, successes, zlen. cbn. rewrite Z.add_0_r. by case_decide.
Qed.

Lemma effect_trans j k l s1 s2 s3 : effect j k s1 s2 -> effect j l s2 s3 -> effect j (k ++ l) s1 s3.
Proof.
  intros (c1 & E1 & A1 & N1) (c2 & E2 & A2 & N2). exists (c1 ++ c2).
  rewrite E2, E1, acks_of_app, A1, A2, answers_of_app, successes_app, app_assoc. split; [done |]. split; [done |].
  rewrite N2. unfold u32 in *. rewrite <- Zplus_mod_idemp_l, N1, Zplus_mod_idemp_l. f_equal. lia.
Qed.

(** A computation that answers the job with a list like [P], or stops with at most
    one answer given. *)
Definition answers_at (j : job) (P : list ack -> Prop) (m : run unit) (s : orb) : Prop :=
  exists acks, effect j acks s (m s).2 /\ match (m s).1 with Some _ => P acks | None => (length acks <= 1)%nat end.
Definition answers (j : job) (P : list ack -> Prop) (m : run unit) : Prop := forall s, answers_at j P m s.

Definition once (l : list ack) : Prop := length l = 1%nat.

Lemma answers_ret j (P : list ack -> Prop) : P [] -> answers j P (mret tt).
Proof. intros HP s. exists []. split; [apply effect_none; cbn; reflexivity | done]. Qed.

Lemma successes_one a : successes [a] = if decide (a = ACK_SUCCESS) then 1 else 0.
Proof. unfold successes, zlen. rewrite filter_cons, filter_nil. by case_decide. Qed.

Lemma job_ack_effect a j s : exists s', job_ack a j s = (Some tt, s') /\ effect j [a] s s'.
Proof.
  unfold job_ack, hand_out, count_success, on, mbind, run_bind, mret, run_ret, effect, answers_of.
  rewrite successes_one. case_decide; case_decide; cbn; eexists; (split; [reflexivity |]); cbn.
  - exists [PublishAck (remote_addr j) (ack_number j) a]. split; [done |]. split; [done |]. unfold u32. by rewrite Zmod_mod.
  - exists [PublishAck (remote_addr j) (ack_number j) a]. by rewrite Z.add_0_r.
  - exists []. rewrite app_nil_r. split; [done |]. split; [done |]. unfold u32. by rewrite Zmod_mod.
  - exists []. by rewrite app_nil_r, Z.add_0_r.
Qed.

Lemma answers_ack a j : answers j once (job_ack a j).
Proof. intros s. unfold answers_at. destruct (job_ack_effect a j s) as (s' & -> & E). by exists [a]. Qed.

Lemma answers_bind {A} j P (m : run A) (k : A -> run unit) s :
  quiet s (m s).2 -> (forall a, (m s).1 = Some a -> answers_at j P (k a) (m s).2) -> answers_at j P (m ≫= k) s.
Proof.
  intros Hq Hk. unfold answers_at, mbind, run_bind in *. destruct (m s) as [[a |] s1]; cbn [fst snd] in *.
  - destruct (Hk a eq_refl) as (acks & E & K). exists acks. split; [| done].
    rewrite <- (app_nil_l acks). eapply effect_trans; [by apply effect_none | exact E].
  - exists []. split; [by apply effect_none | cbn; lia].
Qed.

Lemma answers_quiet_bind {A} j P (m : run A) (k : A -> run unit) :
  moves quiet m -> (forall a, answers j P (k a)) -> answers j P (m ≫= k).
Proof. intros Hm Hk s. apply answers_bind; [apply Hm | intros a _; apply Hk]. Qed.

(** The result of a call of a component decides what follows. *)
Lemma answers_on_bind {X A} j P (p : part orb X) (f : X -> A * X) (k : A -> run unit) :
  moves quiet (on p f) -> (forall x, answers j P (k (f x).1)) -> answers j P (on p f ≫= k).
Proof. intros Hm Hk s. apply answers_bind; [apply Hm |]. intros a [= <-]. apply Hk. Qed.

Lemma answers_then j (P : list ack -> Prop) (m k : run unit) :
  answers j P m -> moves quiet k -> (forall l, P l -> (length l <= 1)%nat) -> answers j P (m;; k).
Proof.
  intros Hm Hk HP s. unfold answers_at, mbind, run_bind. destruct (Hm s) as (acks & E & K).
  destruct (m s) as [[[] |] s1]; cbn [fst snd] in *; [| by exists acks].
  exists acks. split.
  - rewrite <- (app_nil_r acks). eapply effect_trans; [exact E |]. apply effect_none, Hk.
  - destruct (k s1).1; [done | by apply HP].
Qed.

Lemma job_acks_effect l j : forall s, exists s', job_acks l j s = (Some tt, s') /\ effect j l s s'.
Proof.
  induction l as [| a l IH]; intros s; cbn [job_acks].
  - exists s. split; [done |]. apply effect_none. reflexivity.
  - destruct (job_ack_effect a j s) as (s1 & E1 & K1). destruct (IH s1) as (s2 & E2 & K2). exists s2.
    unfold mbind, run_bind. rewrite E1. split; [done |]. by eapply (effect_trans j [a]).
Qed.

Lemma answers_acks l j : answers j (eq l) (job_acks l j).
Proof. intros s. unfold answers_at. destruct (job_acks_effect l j s) as (s' & -> & E). by exists l. Qed.

Lemma answers_weaken j (P Q : list ack -> Prop) m : (forall l, P l -> Q l) -> answers j P m -> answers j Q m.
Proof. intros HPQ Hm s. destruct (Hm s) as (l & E & K). exists l. split; [done |]. destruct (m s).1; auto. Qed.
End Answers.

(** ** Every command *)

Section Commands.
Context {M D O : Type} `{BBRam M} `{FlashDriver D} `{Crc} `{Outside O} `{HwVersions}.
Context (b : board) (sin asin : spec_float -> spec_float) (h : fan_hw) (ms_to_ticks : Z -> Z) (calc_vrefanalog : Z -> Z)
  (hardware_version : Z) (K_SECONDS : Z -> Z).
Context (WBS BLK TEST_SIZE MAX_FOCUS : Z) (MB : mcuboot) (BOOT_FLAG_UNSET : Z) (debug ci : bool).

Abbreviation orb := (Runner.orb M D O).
Abbreviation message_ := (handle_message b sin asin h ms_to_ticks calc_vrefanalog hardware_version K_SECONDS WBS BLK MAX_FOCUS MB
  BOOT_FLAG_UNSET debug ci).

(** The commands whose number of answers is not one in every state. *)
Definition special (c : jetson_cmd) : bool :=
  match c with RebootOrbCmd _ | DfuBlockCmd _ _ _ | FwImageCheckCmd _ => true | _ => false end.

(** The calls of a handler answer nothing; it ends with its one answer. *)
Ltac still := walk; intros; by apply quiet_same.

Ltac one_answer :=
  repeat first
    [ apply answers_ack
    | apply answers_then; [apply answers_ack | solve [still] | unfold once; lia]
    | apply answers_quiet_bind; [solve [still] | intros ?]
    | case_decide | progress case_match ].

Lemma shutdown_once d j : answers j once (@Runner.handle_shutdown M D O d j).
Proof.
  unfold Runner.handle_shutdown. apply answers_on_bind; [still |]. intros x.
  unfold Reboot.handle_shutdown, reboot. repeat case_match; simplify_eq; cbn [fst];
    (eapply answers_weaken; [| apply answers_acks]; by intros ? <-).
Qed.

Lemma reboot_once d j : answers j once (@Runner.handle_reboot_message M D O d j).
Proof.
  unfold Runner.handle_reboot_message. apply answers_on_bind; [still |]. intros x.
  unfold Reboot.handle_reboot_message, reboot. repeat case_match; simplify_eq; cbn [fst snd] in *; simplify_eq;
    (apply answers_then; [eapply answers_weaken; [| apply answers_acks]; by intros ? <- | | unfold once; lia]);
    first [by apply moves_ret | unfold hand_out; walk; by eexists [_]].
Qed.

Lemma message_once rd c j : special c = false -> answers j once (message_ rd c j).
Proof.
  intros Hc. destruct c; try done; cbn [handle_message]; first [apply shutdown_once | apply reboot_once | idtac];
    autounfold with handlers; one_answer.
Qed.

(** The answers a command is due: one, when it has been carried out or refused; a
    block that fills the buffer and a check that was started are answered later, by
    the update's thread. *)
Definition deferred (c : jetson_cmd) (s : orb) : bool :=
  match c with
  | DfuBlockCmd n k d => dfu_block_ret BLK n k d (dfu_module s).1 =? - EINPROGRESS
  | FwImageCheckCmd crc => (dfu_secondary_check_async crc true (dfu_module s).1).1 =? - EINPROGRESS
  | _ => false
  end.
Definition due (c : jetson_cmd) (s : orb) : nat := if deferred c s then 0 else 1.

(** Where the code does otherwise: a reboot of the Orb whose delay is out of range. *)
Definition out_of_delay (d : Z) : bool := negb (d =? 0) && ((60 <? d) || (d <? 10)).
Definition answered_again (c : jetson_cmd) : bool := match c with RebootOrbCmd d => out_of_delay d | _ => false end.
Definition given (c : jetson_cmd) (s : orb) : nat := (due c s + if answered_again c then 1 else 0)%nat.

Lemma reboot_orb_answers d j s :
  answers_at j (fun l => length l = given (RebootOrbCmd d) s) (@Runner.handle_reboot_orb M D O _ d j) s.
Proof.
  unfold Runner.handle_reboot_orb. apply answers_on_bind; [still |]. intros x. unfold given, due. cbn [deferred answered_again].
  unfold Reboot.handle_reboot_orb, reboot_orb_fails, out_of_delay. repeat case_match; simplify_eq; cbn [fst snd app] in *; simplify_eq;
    (eapply answers_weaken; [| apply answers_acks]; by intros ? <-).
Qed.

Lemma dfu_block_answers n k d j s :
  answers_at j (fun l => length l = given (DfuBlockCmd n k d) s) (@handle_dfu_block_message M D O BLK n k d j) s.
Proof.
  unfold handle_dfu_block_message. apply answers_bind; [still |]. intros [] _. apply answers_bind; [unfold in_dfu; still |].
  intros ret E. cbn in E. unfold given, due. cbn [deferred answered_again]. unfold dfu_block_ret.
  assert (ret = (dfu_load BLK n k d true (dfu_module s).1).1) as <- by (cbn in E; congruence).
  apply answers_bind; [unfold register; still |]. intros [] _. destruct (ret =? - EINPROGRESS).
  - by apply answers_ret.
  - apply answers_ack.
Qed.

Lemma fw_check_answers crc j s :
  answers_at j (fun l => length l = given (FwImageCheckCmd crc) s) (@handle_fw_img_crc M D O crc j) s.
Proof.
  unfold handle_fw_img_crc. apply answers_bind; [still |]. intros [] _. apply answers_bind; [unfold in_dfu; still |].
  intros ret E. unfold given, due. cbn [deferred answered_again].
  assert (ret = (dfu_secondary_check_async crc true (dfu_module s).1).1) as <- by (cbn in E; congruence).
  destruct (ret =? - EINPROGRESS); [| apply answers_ack].
  change (register true) with (@register M D O true). unfold register.
  exists []. split; [| done]. apply effect_none. by apply quiet_same.
Qed.

Lemma message_answers rd c j s :
  answers_at j (fun l => length l = given c s) (message_ rd c j) s.
Proof.
  destruct (special c) eqn:E.
  - destruct c; try done; cbn [handle_message];
      first [apply reboot_orb_answers | apply dfu_block_answers | apply fw_check_answers].
  - assert (given c s = 1%nat) as -> by by destruct c.
    by apply message_once.
Qed.

Abbreviation process := (process_job b sin asin h ms_to_ticks calc_vrefanalog hardware_version K_SECONDS WBS BLK TEST_SIZE MAX_FOCUS
  MB BOOT_FLAG_UNSET debug ci).

(** The job's own part of the turn comes after the subscription. *)
Definition subscribed (j : job) (s : orb) : orb :=
  if remote_addr j =? 0 then s else put p_sent_out (sent_out s ++ [SubscribeAdd (remote_addr j)]) s.

Lemma process_command rd j c s : message j = JetsonCmd c -> process rd j s = message_ rd c j (subscribed j s).
Proof.
  intros E. unfold process_job, subscribed. rewrite E. unfold mbind, run_bind. by destruct (remote_addr j =? 0).
Qed.

(** *** Commands that always return *)

Definition returns {A} (m : run A) : Prop := forall s : orb, exists a, (m s).1 = Some a.

Lemma returns_ret {A} (a : A) : returns (mret a).
Proof. intros s. by exists a. Qed.

Lemma returns_bind {A B} (m : run A) (k : A -> run B) : returns m -> (forall a, returns (k a)) -> returns (m ≫= k).
Proof.
  intros Hm Hk s. unfold mbind, run_bind. destruct (Hm s) as [a E]. destruct (m s) as [r s1]. cbn in E. subst r. apply Hk.
Qed.

Lemma returns_on {X A} (p : part orb X) (f : X -> A * X) : returns (on p f).
Proof. intros s. by eexists. Qed.

Lemma returns_job_ack a j : returns (job_ack a j).
Proof. intros s. destruct (job_ack_effect a j s) as (s' & -> & _). by exists tt. Qed.

Lemma returns_job_acks l j : returns (job_acks l j).
Proof. intros s. destruct (job_acks_effect l j s) as (s' & -> & _). by exists tt. Qed.

Lemma returns_call c : (forall c o, is_Some (call_outside c o)) -> returns (call c).
Proof.
  intros Ho s. unfold call, on_opt. destruct (Ho c (get p_outside s)) as [[r o] E]. rewrite E. by exists r.
Qed.

(** The commands that call a component which may not return: floating-point
    conversions of the mirror and the lens, the flash and its semaphores, a fault asked for. *)
Definition may_stop (c : jetson_cmd) : bool :=
  match c with
  | MirrorAngleCmd (Some _) | MirrorAngleRelativeCmd (Some _) | DoHomingCmd WITH_KNOWN_COORDINATES _
  | SetConfigCmd (Some _) | LiquidLensCmd _ false | FwSecondaryActivateCmd _ | FwPrimaryConfirmCmd => true
  | _ => false
  end.

Lemma message_returns rd c j : (forall c o, is_Some (call_outside c o)) -> may_stop c = false -> returns (message_ rd c j).
Proof.
  intros Ho Hc. destruct c; try done; cbn [handle_message]; autounfold with handlers;
    repeat first
      [ apply returns_job_ack | apply returns_job_acks | apply returns_ret | by apply returns_call
      | apply returns_bind; [| intros ?] | apply returns_on | case_decide | progress case_match ]; by subst.
Qed.

(** *** Commands out of range *)

Definition refused (c : jetson_cmd) : bool :=
  match c with
  | ShutdownCmd d => 30 <? d
  | RebootCmd d => 60 <? d
  | SetConfigCmd None => true
  | LedOnTimeCmd t => IR_CAMERA_SYSTEM_MAX_IR_LED_ON_TIME_US b <? t
  | FpsCmd f => IR_CAMERA_SYSTEM_MAX_FPS <? u16 f
  | UserLedsPatternCmd _ a l _ _ _ => (FULL_RING_DEGREES <? a) || (FULL_RING_DEGREES <? abs32 l)
  | UserLedsBrightnessCmd v | DistributorLedsBrightnessCmd v => 255 <? v
  | DistributorLedsPatternCmd _ m _ _ => OPERATOR_LEDS_ALL_MASK b <? m
  | WhiteLedsBrightnessCmd v => bool_decide (b = Diamond) && (1000 <? v)
  | LiquidLensCmd ma _ => negb ((LIQUID_LENS_MIN_CURRENT_MA <=? ma) && (ma <=? LIQUID_LENS_MAX_CURRENT_MA))
  | PowerCycleCmd _ d => 60000 <? d
  | _ => false
  end.

Lemma job_ack_refusal a j (s : orb) : remote j = CAN_JETSON_MESSAGING -> a <> ACK_SUCCESS ->
  job_ack a j s = (Some tt, put p_sent_out (sent_out s ++ [PublishAck (remote_addr j) (ack_number j) a]) s).
Proof.
  intros Hj Ha. unfold job_ack, hand_out, on, mbind, run_bind, mret, run_ret. by rewrite decide_True, decide_False by done.
Qed.

(** A call that leaves its component as it was. *)
Lemma bind_on_same {X A B} (p : part orb X) (f : X -> A * X) (k : A -> run B) a s :
  f (get p s) = (a, get p s) -> put p (get p s) s = s -> (on p f ≫= k) s = k a s.
Proof. intros E Ep. unfold mbind, run_bind, on. rewrite E. cbn. by rewrite Ep. Qed.

Lemma job_acks_one a j (s : orb) : job_acks [a] j s = job_ack a j s.
Proof. cbn [job_acks]. unfold mbind, run_bind, mret, run_ret. by destruct (job_ack_effect a j s) as (s' & -> & _). Qed.

Ltac unchanged :=
  match goal with
  | |- (on _ _ ≫= _) ?s = _ => erewrite bind_on_same; [| cbn; reflexivity | by destruct s]
  end.

Lemma refused_message rd c j (s : orb) : remote j = CAN_JETSON_MESSAGING -> refused c = true ->
  message_ rd c j s = (Some tt, put p_sent_out (sent_out s ++ [PublishAck (remote_addr j) (ack_number j) ACK_RANGE]) s).
Proof.
  intros Hj Hc. rewrite <- (job_ack_refusal ACK_RANGE j s) by done.
  destruct c; try done; cbn [handle_message refused] in *; autounfold with handlers; try (by rewrite Hc).
  - unfold Reboot.handle_shutdown. rewrite Hc. unchanged. apply job_acks_one.
  - unfold Reboot.handle_reboot_message. rewrite Hc. unchanged. cbn [fst snd]. unfold mbind, run_bind. rewrite job_acks_one.
    by destruct (job_ack_effect ACK_RANGE j s) as (s' & -> & _).
  - by destruct reboot_behavior.
  - unfold ir_camera_system_set_on_time_us. rewrite Hc. by unchanged.
  - unfold ir_camera_system_set_fps. rewrite Hc. by unchanged.
  - apply andb_prop in Hc as [Hb Hc]. apply bool_decide_eq_true in Hb as ->. by rewrite Hc.
  - unfold Power.handle_power_cycle, power_cycle_supply. rewrite Hc. by destruct s as [? ? ? ? ? ? ? [w t]].
Qed.

(** *** Answers that come later *)

Lemma deferred_registers rd n k d j s : message j = JetsonCmd (DfuBlockCmd n k d) ->
  dfu_block_ret BLK n k d (dfu_module s).1 = - EINPROGRESS ->
  let s' := (process rd j s).2 in block_context s' = context_of j /\ registered_check s' = false.
Proof.
  intros Em Er. cbv zeta. rewrite (process_command rd j _ s Em). cbn [handle_message].
  assert ((dfu_module (subscribed j s)).1 = (dfu_module s).1) as Es by (unfold subscribed; by destruct (_ =? 0)).
  unfold handle_dfu_block_message, in_dfu, register, on, mbind, run_bind, mret, run_ret. cbn.
  unfold dfu_block_ret in Er. rewrite <- Es in Er. cbn in Er. rewrite Er. done.
Qed.

(** The jobs processed until the update's thread takes its turn. *)
Fixpoint jobs_run (l : list (readings D * job)) (s : orb) : orb :=
  match l with [] => s | (rd, j) :: l => jobs_run l (process rd j s).2 end.

Definition not_deferred (j : job) : Prop := match message j with JetsonCmd c => deferred_cmd c = false | _ => True end.

Lemma jobs_keep_contexts l : Forall (fun x => not_deferred x.2) l -> forall s, contexts (jobs_run l s) = contexts s.
Proof.
  induction 1 as [| [rd j] l Hj _ IH]; intros s; cbn [jobs_run]; [done |]. rewrite IH.
  assert (moves same_contexts (process rd j)) as K; [| by apply K].
  apply process_moves; try typeclasses eauto; try done.
  intros c E. unfold not_deferred in Hj. cbn in Hj. rewrite E in Hj. by apply message_contexts.
Qed.

(** What the thread's turn answers. *)
Lemma dfu_turn_answers SL page open_ret (s : orb) err d h' :
  process_dfu_blocks_turn BLK SL MB page open_ret (dfu_module s).1 (dfu_module s).2 = Some (err, d, h') ->
  let ctx := if registered_check s then check_context s else block_context s in
  let s' := (dfu_turn BLK MB SL page open_ret s).2 in
  acks_of (sent_out s') = acks_of (sent_out s) ++
    (if decide (ctx_remote ctx = CAN_JETSON_MESSAGING)
     then (fun e => (ctx_remote_addr ctx, ctx_ack_number ctx, ack_of_err e)) <$> option_list err else []).
Proof.
  intros E. cbv zeta. unfold dfu_turn, on_opt, mbind, run_bind, dfu_thread_turn. cbn [get p_dfu]. rewrite E.
  destruct err as [err |]; cbn [option_list fmap list_fmap].
  - unfold call_back. cbn [registered_check check_context block_context put p_dfu with_data].
    generalize (if registered_check s then check_context s else block_context s). intros ctx.
    unfold handle_err_code, hand_out, count_success, on, mbind, run_bind, mret, run_ret.
    case_decide; destruct (err =? RET_SUCCESS); cbn; rewrite ?acks_of_app, ?app_nil_r; done.
  - cbn. case_decide; by rewrite app_nil_r.
Qed.
End Commands.

(** ** Theorems *)

(** The version as one number: two bytes and a half word. *)
Definition version_code (v : Z * Z * Z * Z) : Z := let '(major, minor, revision, _) := v in (major * 256 + minor) * 65536 + revision.
Definition version_wf (v : Z * Z * Z * Z) : Prop :=
  let '(major, minor, revision, _) := v in 0 <= major < 256 /\ 0 <= minor < 256 /\ 0 <= revision < 65536.

Lemma version_below_code p s : version_wf p -> version_wf s -> version_below p s = (version_code p <? version_code s).
Proof.
  destruct p as [[[pa pi] pr] pb], s as [[[sa si] sr] sb]. cbn. intros (? & ? & ?) (? & ? & ?).
  destruct (Z.ltb_spec pa sa), (Z.eqb_spec pa sa), (Z.ltb_spec pi si), (Z.eqb_spec pi si), (Z.ltb_spec pr sr),
    (Z.ltb_spec ((pa * 256 + pi) * 65536 + pr) ((sa * 256 + si) * 65536 + sr)); cbn; try done; lia.
Qed.

Section Theorems.
Context {M D O : Type} `{BBRam M} `{FlashDriver D} `{Crc} `{Outside O} `{HwVersions}.
Context (b : board) (sin asin : spec_float -> spec_float) (h : fan_hw) (ms_to_ticks : Z -> Z) (calc_vrefanalog : Z -> Z)
  (hardware_version : Z) (K_SECONDS : Z -> Z).
Context (WBS BLK TEST_SIZE MAX_FOCUS : Z) (MB : mcuboot) (BOOT_FLAG_UNSET : Z) (debug ci : bool).
Abbreviation process := (process_job b sin asin h ms_to_ticks calc_vrefanalog hardware_version K_SECONDS WBS BLK TEST_SIZE MAX_FOCUS
  MB BOOT_FLAG_UNSET debug ci).

(** C14: Every command is answered once, and the right one.  Processing a command first
    subscribes its sender; then the answers handed out are all to that sender with the
    number of that command (none when it did not come from the Jetson over CAN), and there is
    exactly one, or none yet for a block or a check of the firmware left to the
    update's thread; every success is
    counted.  The exception is a reboot of the Orb after a delay out of range,
    which is answered twice ([out_of_range_reboot_answered_twice]).
    Only the commands that call the mirror's or the lens's arithmetic, the
    flash or the configuration may not return, as long as the functions outside do,
    and even then there is at most one answer. *)
Theorem commands_answered rd j c (s : Runner.orb M D O) : message j = JetsonCmd c ->
  let r := process rd j s in
  (exists acks calls,
    sent_out r.2 = sent_out s ++ (if remote_addr j =? 0 then [] else [SubscribeAdd (remote_addr j)]) ++ calls /\
    acks_of calls = answers_of j acks /\ u32 (job_counter r.2) = u32 (job_counter s + successes acks) /\
    match r.1 with
    | Some _ => answered_again c = false -> length acks = due BLK c s
    | None => (length acks <= 1)%nat
    end) /\
  ((forall c o, is_Some (call_outside c o)) -> may_stop c = false -> r.1 = Some tt).
Proof.
  intros E. cbv zeta. rewrite (process_command _ _ _ _ _ _ _ _ _ _ _ _ _ _ _ _ rd j c s E). split.
  - destruct (message_answers b sin asin h ms_to_ticks calc_vrefanalog hardware_version K_SECONDS WBS BLK MAX_FOCUS MB
                BOOT_FLAG_UNSET debug ci rd c j (subscribed j s)) as (acks & (calls & E1 & E2 & E3) & E4).
    exists acks, calls. rewrite E1, E2, E3. unfold subscribed in *.
    assert (forall u, given BLK c (put p_sent_out u s) = given BLK c s) as Eg by (intros; by destruct c).
    assert (answered_again c = false -> given BLK c s = due BLK c s) as Ed.
    { unfold given. intros ->. lia. }
    destruct (remote_addr j =? 0).
    + split; [done |]. split; [done |]. split; [done |]. case_match; [| done]. intros Ha. by rewrite <-Ed.
    + split; [cbn; by rewrite <- app_assoc |]. split; [done |]. split; [done |]. case_match; [| done]. intros Ha.
      by rewrite <-Ed, <-(Eg (sent_out s ++ [SubscribeAdd (remote_addr j)])).
  - intros Ho Hc. destruct (message_returns b sin asin h ms_to_ticks calc_vrefanalog hardware_version K_SECONDS WBS BLK MAX_FOCUS
                             MB BOOT_FLAG_UNSET debug ci rd c j Ho Hc (subscribed j s)) as [[] K]. exact K.
Qed.

(** A command whose argument is out of range is answered so and changes nothing:
    the state of every component stays as it was, down to the count of successful jobs;
    only the subscription and the one answer are handed out. *)
Theorem refused_changes_nothing rd j c (s : Runner.orb M D O) :
  message j = JetsonCmd c -> remote j = CAN_JETSON_MESSAGING -> remote_addr j <> 0 -> refused b c = true ->
  process rd j s =
  (Some tt, put p_sent_out (sent_out s ++ [SubscribeAdd (remote_addr j); PublishAck (remote_addr j) (ack_number j) ACK_RANGE]) s).
Proof.
  intros E Hj Ha Hc. rewrite (process_command _ _ _ _ _ _ _ _ _ _ _ _ _ _ _ _ rd j c s E).
  rewrite (refused_message _ _ _ _ _ _ _ _ _ _ _ _ _ _ _ rd c j _ Hj Hc). unfold subscribed.
  bfalse (remote_addr j =? 0). destruct s. cbn. by rewrite <- app_assoc.
Qed.

(** C24: A firmware block that fills the buffer is answered when it is written.  The
    command itself gets no answer; whatever commands other than blocks and checks
    of the firmware follow, the next turn of the update's thread that
    reports a result hands out one answer, to the sender of the block and with its
    number.  (After another block or check the number is that of the other command:
    [late_answer_misnumbered].) *)
Theorem block_answered_when_written rd n k d j l (s : Runner.orb M D O) SL page open_ret err d' h' :
  message j = JetsonCmd (DfuBlockCmd n k d) -> dfu_block_ret BLK n k d (dfu_module s).1 = - EINPROGRESS ->
  Forall (fun x => not_deferred x.2) l ->
  let s1 := jobs_run b sin asin h ms_to_ticks calc_vrefanalog hardware_version K_SECONDS WBS BLK TEST_SIZE MAX_FOCUS MB
              BOOT_FLAG_UNSET debug ci l (process rd j s).2 in
  process_dfu_blocks_turn BLK SL MB page open_ret (dfu_module s1).1 (dfu_module s1).2 = Some (Some err, d', h') ->
  acks_of (sent_out (dfu_turn BLK MB SL page open_ret s1).2) = acks_of (sent_out s1) ++ answers_of j [ack_of_err err].
Proof.
  intros Em Er Hl s1 Ht.
  destruct (deferred_registers b sin asin h ms_to_ticks calc_vrefanalog hardware_version K_SECONDS WBS BLK TEST_SIZE MAX_FOCUS MB
              BOOT_FLAG_UNSET debug ci rd n k d j s Em Er) as [C1 C2].
  pose proof (jobs_keep_contexts b sin asin h ms_to_ticks calc_vrefanalog hardware_version K_SECONDS WBS BLK TEST_SIZE MAX_FOCUS MB
                BOOT_FLAG_UNSET debug ci l Hl (process rd j s).2) as C3. fold s1 in C3. unfold contexts in C3.
  injection C3 as E1 E2 E3. rewrite (dfu_turn_answers _ _ _ _ _ s1 _ _ _ Ht), E3, C2, E1, C1. done.
Qed.

(** Confirming the running image.  With both headers readable the answer is VERSION
    exactly when the running image's version, ordered by major, minor and revision,
    is below the one in the secondary slot; otherwise it is INVALID_STATE for an image already
    confirmed, and the outcome of mcuboot's confirmation for one that is not. *)
Theorem primary_confirm_verdict rd j (s : Runner.orb M D O) vp vs x h' :
  secondary_version MB (open_secondary rd) (dfu_module s) = Some (Some vs, x) ->
  primary_version MB rd x.2 = Some (vp, h') -> version_wf vp -> version_wf vs ->
  handle_fw_img_primary_confirm MB BOOT_FLAG_UNSET rd j s =
  job_ack (if version_code vp <? version_code vs then ACK_VERSION
           else if dfu_primary_is_confirmed (open_primary rd) (image_ok_ret rd) (image_ok rd) BOOT_FLAG_UNSET then ACK_INVALID_STATE
           else if confirm_ret rd =? 0 then ACK_SUCCESS else ACK_FAIL) j (put p_dfu (x.1, h') s).
Proof.
  intros Es Ep Wp Ws. unfold handle_fw_img_primary_confirm, in_headers, on_opt, mbind, run_bind. cbn [get p_dfu].
  rewrite Es. cbn -[job_ack primary_version version_below dfu_primary_is_confirmed]. rewrite Ep. cbn -[job_ack version_below dfu_primary_is_confirmed].
  rewrite <- version_below_code by done.
  destruct (version_below vp vs); [by destruct s |]. destruct (dfu_primary_is_confirmed _ _ _ _); [by destruct s |].
  destruct (confirm_ret rd =? 0); by destruct s.
Qed.
End Theorems.

(** A frame rate is answered once. *)
Lemma commands_answered_witness :
  let r := demo_process demo_readings (can_job 6 (FpsCmd 30)) demo_orb in
  r.1 = Some tt /\ acks_of (sent_out r.2) = [(0x80, 6, ACK_SUCCESS)].
Proof.
  destruct (commands_answered (H := ram_bbram) (H1 := sum_crc) (H2 := demo_outside) (H3 := sample_versions) Diamond
           (fun x => x) (fun x => x) FAN_DIAMOND (fun x => x) (fun _ => 3300) 10 (fun s => s * 1000) 8 32 32 100 mcuboot_demo 255
           false false demo_readings (can_job 6 (FpsCmd 30)) (FpsCmd 30) demo_orb eq_refl) as [_ R].
  split; [apply R; [by eexists | reflexivity] | vm_compute; reflexivity].
Defined.

(** A reboot of the Orb after 5 s: the range error, then a failure. *)
Example out_of_range_reboot_answered_twice :
  acks_of (sent_out (demo_process demo_readings (can_job 5 (RebootOrbCmd 5)) demo_orb).2) =
  [(0x80, 5, ACK_RANGE); (0x80, 5, ACK_FAIL)].
Proof. vm_compute. reflexivity. Qed.

Lemma refused_changes_nothing_witness :
  demo_process demo_readings (can_job 9 (LiquidLensCmd 401 true)) demo_orb =
  (Some tt, put p_sent_out [SubscribeAdd 0x80; PublishAck 0x80 9 ACK_RANGE] demo_orb).
Proof.
  apply (refused_changes_nothing (H := ram_bbram) (H1 := sum_crc) (H2 := demo_outside) (H3 := sample_versions) Diamond
           (fun x => x) (fun x => x) FAN_DIAMOND (fun x => x) (fun _ => 3300) 10 (fun s => s * 1000) 8 32 32 100 mcuboot_demo 255
           false false demo_readings (can_job 9 (LiquidLensCmd 401 true)) (LiquidLensCmd 401 true) demo_orb);
    (reflexivity || discriminate).
Defined.

(** Two blocks of 32 bytes fill the buffer; a frame rate is set before it is written. *)
Definition one_block (n k : Z) : job := can_job (10 + n) (DfuBlockCmd n k (fill 32 9)).
Definition after_first_block := (demo_process demo_readings (one_block 0 4) demo_orb).2.

Abbreviation before_write := (
  jobs_run (H := ram_bbram) (H1 := sum_crc) (H2 := demo_outside) (H3 := sample_versions) Diamond
    (fun x => x) (fun x => x) FAN_DIAMOND (fun x => x) (fun _ => 3300) 10 (fun s => s * 1000) 8 32 32 100 mcuboot_demo 255
    false false [(demo_readings, can_job 20 (FpsCmd 30))] (demo_process demo_readings (one_block 1 4) after_first_block).2).
Abbreviation the_turn := (process_dfu_blocks_turn 32 7 mcuboot_demo 64 0 (dfu_module before_write).1 (dfu_module before_write).2).

Lemma block_answered_when_written_witness :
  acks_of (sent_out before_write) = [(0x80, 10, ACK_SUCCESS); (0x80, 20, ACK_SUCCESS)] /\
  acks_of (sent_out (dfu_turn (H1 := sum_crc) 32 mcuboot_demo 7 64 0 before_write).2) =
    acks_of (sent_out before_write) ++ answers_of (one_block 1 4) [ack_of_err 0].
Proof.
  split; [vm_compute; reflexivity |].
  assert (K : option_map (fun r => r.1.1) the_turn = Some (Some 0)) by (vm_compute; reflexivity).
  destruct the_turn as [[[err d] h] |] eqn:E; [| discriminate K]. injection K as ->.
  assert (F : dfu_block_ret 32 1 4 (fill 32 9) (dfu_module after_first_block).1 = - EINPROGRESS) by (vm_compute; reflexivity).
  pose proof (block_answered_when_written (H := ram_bbram) (H1 := sum_crc) (H2 := demo_outside) (H3 := sample_versions) Diamond
    (fun x => x) (fun x => x) FAN_DIAMOND (fun x => x) (fun _ => 3300) 10 (fun s => s * 1000) 8 32 32 100 mcuboot_demo 255
    false false demo_readings 1 4 (fill 32 9) (one_block 1 4) [(demo_readings, can_job 20 (FpsCmd 30))] after_first_block
    7 64 0 0 d h eq_refl F) as T.
  cbv zeta in T.
  apply T; [by repeat constructor | exact E].
Defined.

(** The running image is 1.2.3, the one in the secondary slot 1.3.0. *)
Definition version_mcuboot : mcuboot :=
  Mcuboot (fun b => ImageHeader 0 0 0 (nthZ b 0) (nthZ b 1) (nthZ b 2) 0) 4 0 (fun b => (0, 0)) 2 105 106 2 3.
Definition version_readings : readings (nor_w 8) :=
  Readings false true 0 0 true gpio_ok 0 0 ([Sample 0 0 0], [], []) 0 0 (exist _ (Nor ([1; 2; 3] ++ fill 29 0) 8) eq_refl)
    (9, 9, 9, 0) 0 0 0 0 0 (fun _ => 0).
Definition version_orb : orb bytes (nor_w 8) (list outside_call) :=
  put p_dfu (dfu_boot 32 (exist _ (Nor ([1; 3; 0] ++ fill 253 0) 8) eq_refl), DfuHeaders (fill 4 0) (fill 4 0) 1) demo_orb.

Abbreviation the_secondary := (secondary_version (H0 := nor_w_driver 8) version_mcuboot 0 (dfu_module version_orb)).

Lemma primary_confirm_verdict_witness :
  (handle_fw_img_primary_confirm version_mcuboot 255 version_readings (can_job 3 FwPrimaryConfirmCmd) version_orb).1 = Some tt /\
  acks_of (sent_out (handle_fw_img_primary_confirm version_mcuboot 255 version_readings (can_job 3 FwPrimaryConfirmCmd)
                       version_orb).2) = [(0x80, 3, ACK_VERSION)].
Proof.
  pose proof (primary_confirm_verdict (H0 := nor_w_driver 8) version_mcuboot 255 version_readings (can_job 3 FwPrimaryConfirmCmd) version_orb
                (1, 2, 3, 0) (1, 3, 0, 0) 
                (default (None, dfu_module version_orb) the_secondary).2
                (DfuHeaders (1 :: 2 :: 3 :: [0]) (1 :: 3 :: 0 :: [0]) 1)
                ltac:(vm_compute; reflexivity) ltac:(vm_compute; reflexivity)
                ltac:(vm_compute; intuition discriminate) ltac:(vm_compute; intuition discriminate)) as T.
  rewrite T. split; vm_compute; reflexivity.
Defined.

(** ** What the handlers get wrong *)

(** A third block that arrives while the second is being written is refused as busy,
    and its context replaces the second's, to which dfu.c still points: when the write ends
    the third block is acknowledged as well, the second never. *)
Example late_answer_misnumbered :
  let s := (demo_process demo_readings (one_block 2 4) (demo_process demo_readings (one_block 1 4) after_first_block).2).2 in
  acks_of (sent_out (dfu_turn (H1 := sum_crc) 32 mcuboot_demo 7 64 0 s).2) =
    [(0x80, 10, ACK_SUCCESS); (0x80, 12, ACK_IN_PROGRESS); (0x80, 12, ACK_SUCCESS)].
Proof. vm_compute. reflexivity. Qed.

(** A frame rate is cut to 16 bits before it is checked. *)
Example fps_truncated :
  let r := demo_process demo_readings (can_job 6 (FpsCmd 65566)) demo_orb in
  acks_of (sent_out r.2) = [(0x80, 6, ACK_SUCCESS)] /\ global_timer_settings (ir r.2) = global_timer_settings (ir (demo_process demo_readings (can_job 6 (FpsCmd 30)) demo_orb).2).
Proof. vm_compute. done. Qed.

(** The least 32-bit number passes for an angle of the ring, as does 360 for its start. *)
Example ring_angles_accepted :
  acks_of (sent_out (demo_process demo_readings (can_job 7 (UserLedsPatternCmd 0 360 (-2147483648) None 0 (S754_zero false))) demo_orb).2)
  = [(0x80, 7, ACK_SUCCESS)].
Proof. vm_compute. reflexivity. Qed.

(** With the primary slot out of reach its version is whatever the stack holds. *)
Example unreadable_primary_compared :
  let rd g := Readings false true 0 0 true gpio_ok 0 0 ([Sample 0 0 0], [], []) 1 0 demo_flash g 0 0 0 0 0 (fun _ => 0) in
  let answers g := acks_of (sent_out (handle_fw_img_primary_confirm version_mcuboot 255 (rd g) (can_job 3 FwPrimaryConfirmCmd)
                     version_orb).2) in
  answers (0, 0, 0, 0) = [(0x80, 3, ACK_VERSION)] /\ answers (9, 9, 9, 0) = [(0x80, 3, ACK_SUCCESS)].
Proof. vm_compute. done. Qed.
