(* ===== verification/RgbLeds.v ===== *)
(** The strips of RGB LEDs: main_board/src/ui/rgb_leds/rgb_leds.c, which copies a
    sequence of colours received as bytes into a buffer, and the two drivers
    that put a buffer on the wire, drivers/led_strip/ws2812_pwm_stm32.c (Pearl)
    and drivers/led_strip/spi_rgb_led.c (Diamond).

    The Pearl is built without the scratch byte of a colour; it is 0 there. *)

From S2P Require Import Prelude.

(** ** Colours *)

Record led_rgb := Rgb { scratch : Z; r : Z; g : Z; b : Z }.

#[export] Instance led_rgb_eq_dec : EqDecision led_rgb.
Proof. solve_decision. Defined.

Definition RGB_OFF : led_rgb := Rgb 0 0 0 0.
Definition RGB_BRIGHTNESS_MAX : Z := 31.

(** [CONFIG_LED_STRIP_RGB_SCRATCH] and, on the same board, [CONFIG_SPI_RGB_LED_DIMMING]. *)
Definition has_scratch (bd : board) : bool := match bd with Pearl => false | Diamond => true end.

Definition LED_FORMAT_RGB : Z := 3.
Definition LED_FORMAT_ARGB : Z := 4.

(** What the eye sees of a colour when the dimming is left aside. *)
Definition hue (c : led_rgb) : Z * Z * Z := (r c, g c, b c).

Definition led_wf (bd : board) (c : led_rgb) : Prop :=
  is_byte (scratch c) /\ is_byte (r c) /\ is_byte (g c) /\ is_byte (b c) /\ (has_scratch bd = false -> scratch c = 0).

(** ** [rgb_leds_set_leds_sequence] *)

(** Colour i of the input, as the loop reads it. *)
Definition input_led (bd : board) (input : bytes) (led_format i : Z) : led_rgb :=
  let rgb_offset := if led_format =? LED_FORMAT_ARGB then 1 else 0 in
  Rgb (if has_scratch bd then if led_format =? LED_FORMAT_ARGB then nthZ input (i * led_format + 0) else RGB_BRIGHTNESS_MAX else 0)
      (nthZ input (i * led_format + rgb_offset)) (nthZ input (i * led_format + rgb_offset + 1))
      (nthZ input (i * led_format + rgb_offset + 2)).

(** The comparison of the loop; the scratch byte counts for the format that has one. *)
Definition differs (bd : board) (led_format : Z) (old new : led_rgb) : bool :=
  (has_scratch bd && (led_format =? LED_FORMAT_ARGB) && negb (scratch old =? scratch new))
  || negb (r old =? r new) || negb (g old =? g new) || negb (b old =? b new).

Definition nth_led (l : list led_rgb) (i : Z) : led_rgb := nth (Z.to_nat i) l RGB_OFF.

Definition write_led (bd : board) (input : bytes) (led_format i : Z) (s : bool * list led_rgb) : bool * list led_rgb :=
  let new := input_led bd input led_format i in
  (s.1 || differs bd led_format (nth_led s.2 i) new, <[Z.to_nat i := new]> s.2).

Definition clear_led (i : Z) (s : bool * list led_rgb) : bool * list led_rgb :=
  let old := nth_led s.2 i in
  (s.1 || negb (r old =? 0) || negb (g old =? 0) || negb (b old =? 0), <[Z.to_nat i := RGB_OFF]> s.2).

(** [sem_free]: there is no semaphore, or it could be taken; it is given back. *)
Definition rgb_leds_set_leds_sequence (bd : board) (input : bytes) (led_format : Z) (led_buffer : list led_rgb) (sem_free : bool)
  : Z * list led_rgb :=
  let found_a_difference := match bd with Diamond => true | Pearl => false end in
  if negb (led_format =? LED_FORMAT_RGB) && negb (led_format =? LED_FORMAT_ARGB) then (RET_ERROR_INVALID_PARAM, led_buffer)
  else if negb (zlen input mod led_format =? 0) then (RET_ERROR_INVALID_PARAM, led_buffer)
  else
    let input_size_bytes := Z.min (zlen input) (zlen led_buffer * led_format) in
    if negb sem_free then (RET_ERROR_INTERNAL, led_buffer)
    else
      let n := input_size_bytes / led_format in
      let s := for_up (write_led bd input led_format) 0 (Z.to_nat n) (found_a_difference, led_buffer) in
      let s := for_up clear_led n (Z.to_nat (zlen led_buffer - n)) s in
      (if negb s.1 then RET_ERROR_ALREADY_INITIALIZED else RET_SUCCESS, s.2).

(** *** Reference: the colours of the bytes, cut or completed with dark LEDs *)

Fixpoint parse_rgb (bd : board) (l : bytes) : list led_rgb :=
  match l with
  | x :: y :: z :: l => Rgb (if has_scratch bd then RGB_BRIGHTNESS_MAX else 0) x y z :: parse_rgb bd l
  | _ => []
  end.

Fixpoint parse_argb (bd : board) (l : bytes) : list led_rgb :=
  match l with
  | a :: x :: y :: z :: l => Rgb (if has_scratch bd then a else 0) x y z :: parse_argb bd l
  | _ => []
  end.

Definition parse_leds (bd : board) (led_format : Z) (l : bytes) : list led_rgb :=
  if led_format =? LED_FORMAT_ARGB then parse_argb bd l else parse_rgb bd l.

(** A sequence on a strip of [n] LEDs. *)
Definition on_strip (n : nat) (l : list led_rgb) : list led_rgb := take n l ++ replicate (n - length l) RGB_OFF.

(** ** Drivers *)

(** [spi_rgb_led_update_rgb]: what goes out on MOSI.  The colours of the caller are only read. *)
Definition spi_led (c : led_rgb) : bytes := [Z.lor 0xE0 (Z.land (scratch c) 0x1F); g c; b c; r c].
Definition spi_rgb_led_update_rgb (pixels : list led_rgb) : bytes :=
  fill 4 0 ++ concat (spi_led <$> pixels) ++ fill (zlen pixels / 8 / 2 + 1) 0xFF.

(** [rgb_to_dma_pixels]: one duty cycle per bit, most significant bit first. *)
Definition WS2812_PERIOD_NS : Z := 1250.
Definition WS2812_PERIOD_1_BIT_NS : Z := 600.
Definition WS2812_PERIOD_0_BIT_NS : Z := 300.
Definition NUM_RESET_PIXELS : Z := 65.
Definition nsec_to_cycles (ns tim_clk : Z) : Z := u32 (ns * tim_clk / 1000000000).

Definition duty (one_bit zero_bit x j : Z) : Z := if Z.land x (Z.shiftr 0x80 j) =? 0 then zero_bit else one_bit.
Definition dma_byte (one_bit zero_bit x : Z) : bytes := (duty one_bit zero_bit x) <$> [0; 1; 2; 3; 4; 5; 6; 7].
Definition dma_pixel (one_bit zero_bit : Z) (c : led_rgb) : bytes :=
  dma_byte one_bit zero_bit (g c) ++ dma_byte one_bit zero_bit (r c) ++ dma_byte one_bit zero_bit (b c).
Definition rgb_to_dma_pixels (tim_clk : Z) (pixels : list led_rgb) : bytes :=
  let zero_bit := u8 (nsec_to_cycles WS2812_PERIOD_0_BIT_NS tim_clk) in
  let one_bit := u8 (nsec_to_cycles WS2812_PERIOD_1_BIT_NS tim_clk) in
  concat (dma_pixel one_bit zero_bit <$> pixels) ++ fill NUM_RESET_PIXELS 0.

(** [None]: refused with -EINVAL; otherwise the duty cycles the DMA feeds to the timer. *)
Definition ws2812_pwm_stm32_update_rgb (num_leds tim_clk : Z) (pixels : list led_rgb) : option bytes :=
  if num_leds <? zlen pixels then None else Some (rgb_to_dma_pixels tim_clk pixels).

(** *** What the LEDs make of the signal *)

(** The SK9822 family: four bytes per LED after the start frame, the three upper bits set. *)
Fixpoint spi_receive (n : nat) (l : bytes) : option (list led_rgb) :=
  match n, l with
  | O, _ => Some []
  | S n, p :: vg :: vb :: vr :: l => if Z.land p 0xE0 =? 0xE0 then cons (Rgb (Z.land p 0x1F) vr vg vb) <$> spi_receive n l else None
  | _, _ => None
  end.

(** The WS2812: a cycle at least [threshold] long is a 1; 24 of them per LED. *)
Definition bits_value (threshold : Z) (l : bytes) : Z :=
  fold_left (fun v d => 2 * v + (if threshold <=? d then 1 else 0)) l 0.
Fixpoint ws2812_receive (threshold : Z) (n : nat) (l : bytes) : list led_rgb :=
  match n with
  | O => []
  | S n => Rgb 0 (bits_value threshold (slice 8 8 l)) (bits_value threshold (slice 0 8 l)) (bits_value threshold (slice 16 8 l))
             :: ws2812_receive threshold n (drop 24 l)
  end.

(** ** Lemmas *)

(** A loop that compares each colour of a stretch with the new one and stores it. *)
Lemma store_loop (d : led_rgb -> led_rgb -> bool) (new : Z -> led_rgb) mid : forall f pre post,
  for_up (fun i s => (s.1 || d (nth_led s.2 i) (new i), <[Z.to_nat i := new i]> s.2)) (zlen pre) (length mid)
    (f, pre ++ mid ++ post) =
  (f || existsb (fun p => d p.1 p.2) (zip mid (new <$> seqZ (zlen pre) (zlen mid))),
   pre ++ (new <$> seqZ (zlen pre) (zlen mid)) ++ post).
Proof.
  induction mid as [|x mid IH]; intros f pre post; [by rewrite orb_false_r |].
  cbn [length for_up fst snd]. rewrite zlen_cons, seqZ_cons by (pose proof (zlen_nonneg mid); lia).
  cbn [fmap list_fmap]. replace (Z.pred (1 + zlen mid)) with (zlen mid) by lia.
  assert (E : nth_led (pre ++ x :: mid ++ post) (zlen pre) = x)
    by (unfold nth_led; rewrite app_nth2; unfold zlen; rewrite Nat2Z.id; [by rewrite Nat.sub_diag | lia]).
  assert (Ei : <[Z.to_nat (zlen pre) := new (zlen pre)]> (pre ++ x :: mid ++ post) = (pre ++ [new (zlen pre)]) ++ mid ++ post)
    by (rewrite <- app_assoc; unfold zlen; rewrite Nat2Z.id, <- (Nat.add_0_r (length pre)) at 1; etransitivity; [apply insert_app_r | done]).
  cbn [app]. rewrite E, Ei.
  replace (zlen pre + 1) with (zlen (pre ++ [new (zlen pre)])) by (rewrite zlen_app; reflexivity).
  rewrite IH. replace (zlen (pre ++ [new (zlen pre)])) with (Z.succ (zlen pre)) by (rewrite zlen_app; change (zlen [new (zlen pre)]) with 1; lia).
  cbn. by rewrite orb_assoc, <- app_assoc.
Qed.

Lemma parse_leds_length bd fmt : fmt = LED_FORMAT_RGB \/ fmt = LED_FORMAT_ARGB -> forall n l, zlen l = fmt * Z.of_nat n ->
  length (parse_leds bd fmt l) = n.
Proof.
  intros [-> | ->]; unfold parse_leds; cbn [Z.eqb]; simpl (_ =? _); cbv match; induction n as [|n IH]; intros l Hl.
  - apply zlen_0 in Hl as ->; done.
  - unfold LED_FORMAT_RGB in *. do 3 (destruct l as [|? l]; [unfold zlen in Hl; cbn in Hl; lia |]).
    cbn. f_equal. apply IH. rewrite !zlen_cons in Hl. lia.
  - apply zlen_0 in Hl as ->; done.
  - unfold LED_FORMAT_ARGB in *. do 4 (destruct l as [|? l]; [unfold zlen in Hl; cbn in Hl; lia |]).
    cbn. f_equal. apply IH. rewrite !zlen_cons in Hl. lia.
Qed.

Lemma nthZ_app_r pre l i : 0 <= i -> nthZ (pre ++ l) (zlen pre + i) = nthZ l i.
Proof. intros Hi. unfold nthZ, zlen. rewrite app_nth2 by lia. f_equal. lia. Qed.

Lemma parse_leds_at bd fmt : fmt = LED_FORMAT_RGB \/ fmt = LED_FORMAT_ARGB -> forall n pre l k, zlen pre = fmt * k ->
  zlen l = fmt * Z.of_nat n -> parse_leds bd fmt l = input_led bd (pre ++ l) fmt <$> seqZ k (Z.of_nat n).
Proof.
  intros Hf. induction n as [|n IH]; intros pre l k Hp Hl.
  - change (Z.of_nat 0) with 0 in Hl. rewrite Z.mul_0_r in Hl. apply zlen_0 in Hl as ->. by destruct Hf as [-> | ->].
  - rewrite seqZ_cons by lia. replace (Z.pred (Z.of_nat (S n))) with (Z.of_nat n) by lia.
    assert (Hk : forall i, 0 <= i -> nthZ (pre ++ l) (k * fmt + i) = nthZ l i)
      by (intros; replace (k * fmt) with (zlen pre) by lia; by apply nthZ_app_r).
    destruct Hf as [-> | ->]; unfold LED_FORMAT_RGB, LED_FORMAT_ARGB in *.
    + do 3 (destruct l as [|? l]; [unfold zlen in Hl; cbn in Hl; lia |]). cbn [fmap list_fmap].
      change (parse_leds bd 3 (z :: z0 :: z1 :: l)) with
        (Rgb (if has_scratch bd then RGB_BRIGHTNESS_MAX else 0) z z0 z1 :: parse_leds bd 3 l).
      rewrite (IH (pre ++ [z; z0; z1]) l (Z.succ k)) by (unfold zlen in *; rewrite ?length_app; cbn [length] in *; lia).
      rewrite <- app_assoc. cbn [app]. f_equal. unfold input_led. cbn -[nthZ Z.mul Z.add]. rewrite <- !Z.add_assoc, !Hk by lia. done.
    + do 4 (destruct l as [|? l]; [unfold zlen in Hl; cbn in Hl; lia |]). cbn [fmap list_fmap].
      change (parse_leds bd 4 (z :: z0 :: z1 :: z2 :: l)) with (Rgb (if has_scratch bd then z else 0) z0 z1 z2 :: parse_leds bd 4 l).
      rewrite (IH (pre ++ [z; z0; z1; z2]) l (Z.succ k)) by (unfold zlen in *; rewrite ?length_app; cbn [length] in *; lia).
      rewrite <- app_assoc. cbn [app]. f_equal. unfold input_led. cbn -[nthZ Z.mul Z.add]. rewrite <- !Z.add_assoc, !Hk by lia. done.
Qed.

Lemma parse_leds_wf bd fmt l : Forall is_byte l -> Forall (led_wf bd) (parse_leds bd fmt l).
Proof.
  unfold parse_leds. intros Hl. assert (B31 : is_byte RGB_BRIGHTNESS_MAX /\ is_byte 0) by by unfold is_byte.
  destruct (fmt =? LED_FORMAT_ARGB); remember (length l) as n eqn:En; revert l En Hl;
    induction n as [n IH] using lt_wf_ind; intros l -> Hl.
  - destruct l as [|a [|x [|y [|z l]]]]; try by constructor. rewrite !Forall_cons in Hl. destruct Hl as (? & ? & ? & ? & Hl). constructor.
    + split; cbn; [by destruct (has_scratch bd) |]. split; [done |]. split; [done |]. split; [done | by intros ->].
    + apply (IH (length l)); [cbn; lia | done | done].
  - destruct l as [|x [|y [|z l]]]; try by constructor. rewrite !Forall_cons in Hl. destruct Hl as (? & ? & ? & Hl). constructor.
    + split; cbn; [by destruct (has_scratch bd) |]. split; [done |]. split; [done |]. split; [done | by intros ->].
    + apply (IH (length l)); [cbn; lia | done | done].
Qed.

(** The colours stored, and whether one of them is new to the eye. *)
Lemma differs_hues bd fmt l k : has_scratch bd = false -> length l = length k ->
  existsb (fun p => differs bd fmt p.1 p.2) (zip l k) = negb (bool_decide (hue <$> l = hue <$> k)).
Proof.
  intros Hb. revert k. induction l as [|x l IH]; intros [|y k] Hl; try done. cbn [zip existsb fst snd fmap list_fmap].
  rewrite IH by (cbn in Hl; lia). unfold differs, hue. rewrite Hb. cbn [andb orb].
  destruct (Z.eqb_spec (r x) (r y)), (Z.eqb_spec (g x) (g y)), (Z.eqb_spec (b x) (b y)); cbn;
    repeat case_bool_decide; try done; congruence.
Qed.

Lemma on_strip_length n l : length (on_strip n l) = n.
Proof. unfold on_strip. rewrite length_app, length_take, length_replicate. lia. Qed.

(** Both loops, on a buffer cut where the input ends. *)
Lemma write_loop bd input fmt f pre post n : pre = take n (pre ++ post) -> length pre = n ->
  for_up (write_led bd input fmt) 0 n (f, pre ++ post) =
  (f || existsb (fun p => differs bd fmt p.1 p.2) (zip pre (input_led bd input fmt <$> seqZ 0 (Z.of_nat n))),
   (input_led bd input fmt <$> seqZ 0 (Z.of_nat n)) ++ post).
Proof.
  intros _ <-. exact (store_loop (differs bd fmt) (input_led bd input fmt) pre f [] post).
Qed.

Lemma clear_loop f pre post : 
  for_up clear_led (zlen pre) (length post) (f, pre ++ post) =
  (f || existsb (fun p => differs Pearl LED_FORMAT_RGB p.1 p.2) (zip post (replicate (length post) RGB_OFF)),
   pre ++ replicate (length post) RGB_OFF).
Proof.
  assert (R : forall k n, (fun _ : Z => RGB_OFF) <$> seqZ k (Z.of_nat n) = replicate n RGB_OFF).
  { intros k n. revert k. induction n as [|n IH]; intros; [done |]. rewrite seqZ_cons by lia.
    cbn. f_equal. rewrite <- (IH (Z.succ k)). do 2 f_equal. lia. }
  rewrite <- (app_nil_r post) at 2.
  rewrite (for_up_ext _ (fun i s => (s.1 || differs Pearl LED_FORMAT_RGB (nth_led s.2 i) RGB_OFF, <[Z.to_nat i := RGB_OFF]> s.2))).
  2: { intros i t _. unfold clear_led, differs. cbn. by rewrite !orb_assoc. }
  etransitivity; [exact (store_loop (differs Pearl LED_FORMAT_RGB) (fun _ => RGB_OFF) post f pre []) |].
  unfold zlen. by rewrite R, app_nil_r.
Qed.

Lemma differs_hue fmt x y : differs Pearl fmt x y = negb (bool_decide (hue x = hue y)).
Proof. 
  pose proof (differs_hues Pearl fmt [x] [y] eq_refl eq_refl) as E. cbn in E. rewrite orb_false_r in E. rewrite E.
  f_equal. apply bool_decide_ext. split; [congruence | by intros ->].
Qed.

Lemma parse_take bd fmt l n : fmt = LED_FORMAT_RGB \/ fmt = LED_FORMAT_ARGB -> zlen l mod fmt = 0 -> 0 <= n <= zlen l / fmt ->
  input_led bd l fmt <$> seqZ 0 n = take (Z.to_nat n) (parse_leds bd fmt l).
Proof.
  intros Hf Hm Hn. assert (0 < fmt) by (destruct Hf as [-> | ->]; done).
  pose proof (Z.div_mod (zlen l) fmt ltac:(lia)). 
  rewrite (parse_leds_at bd fmt Hf (Z.to_nat (zlen l / fmt)) [] l 0) by (rewrite ?zlen_nil, ?Z2Nat.id by lia; lia). cbn [app].
  rewrite <- fmap_take. f_equal. rewrite Z2Nat.id by lia.
  replace (zlen l / fmt) with (n + (zlen l / fmt - n)) by lia. rewrite seqZ_app by lia.
  by rewrite take_app_le, take_ge by (rewrite length_seqZ; lia).
Qed.

Lemma on_strip_cut n k l : k = Nat.min n (length l) -> on_strip n l = take k l ++ replicate (n - k) RGB_OFF.
Proof.
  intros ->. unfold on_strip. destruct (Nat.min_spec n (length l)) as [[? ->] | [? ->]].
  - by replace (n - length l)%nat with (n - n)%nat by lia.
  - by rewrite !take_ge by lia.
Qed.

(** How many colours are stored. *)
Lemma stored_count fmt (m k : Z) : 0 < fmt -> 0 <= m -> 0 <= k -> m mod fmt = 0 -> Z.min m (k * fmt) / fmt = Z.min (m / fmt) k.
Proof.
  intros Hf Hm Hk E. pose proof (Z.div_mod m fmt ltac:(lia)).
  destruct (Z.min_spec m (k * fmt)) as [[? ->] | [? ->]].
  - rewrite Z.min_l; [done |]. apply Z.lt_le_incl, Z.div_lt_upper_bound; lia.
  - rewrite Z.div_mul by lia. rewrite Z.min_r; [done |]. apply Z.div_le_lower_bound; lia.
Qed.

Lemma zip_app_same {A B} (l1 l2 : list A) (k1 k2 : list B) : length l1 = length k1 -> zip (l1 ++ l2) (k1 ++ k2) = zip l1 k1 ++ zip l2 k2.
Proof. revert k1. induction l1 as [|x l1 IH]; intros [|y k1] H; try done. cbn in *. f_equal. apply IH. lia. Qed.

(** Both loops together. *)
Lemma store_and_clear bd input fmt f buf : fmt = LED_FORMAT_RGB \/ fmt = LED_FORMAT_ARGB -> zlen input mod fmt = 0 ->
  let n := Z.min (zlen input / fmt) (zlen buf) in
  let stored := on_strip (length buf) (parse_leds bd fmt input) in
  for_up clear_led n (Z.to_nat (zlen buf - n)) (for_up (write_led bd input fmt) 0 (Z.to_nat n) (f, buf)) =
  (match bd with Pearl => f || negb (bool_decide (hue <$> buf = hue <$> stored))
   | Diamond => (for_up clear_led n (Z.to_nat (zlen buf - n)) (for_up (write_led bd input fmt) 0 (Z.to_nat n) (f, buf))).1 end, stored).
Proof.
  intros Hf Hm. cbv zeta. assert (0 < fmt) by (destruct Hf as [-> | ->]; done).
  pose proof (zlen_nonneg input). pose proof (zlen_nonneg buf). pose proof (Z.div_pos (zlen input) fmt ltac:(lia) ltac:(lia)).
  set (n := Z.min (zlen input / fmt) (zlen buf)).
  assert (Hl : length (parse_leds bd fmt input) = Z.to_nat (zlen input / fmt)).
  { apply (parse_leds_length bd fmt Hf). rewrite Z2Nat.id by lia. pose proof (Z.div_mod (zlen input) fmt ltac:(lia)). lia. }
  assert (Hn : Z.to_nat n = Nat.min (length buf) (length (parse_leds bd fmt input))) by (unfold zlen in *; lia).
  rewrite (on_strip_cut _ (Z.to_nat n)) by done.
  pose proof (parse_take bd fmt input n Hf Hm ltac:(lia)) as Ep. set (stored := take (Z.to_nat n) (parse_leds bd fmt input)) in *.
  set (pre := take (Z.to_nat n) buf). set (post := drop (Z.to_nat n) buf).
  assert (Eb : buf = pre ++ post) by (symmetry; apply take_drop).
  assert (Lp : length pre = Z.to_nat n) by (subst pre; rewrite length_take; lia).
  assert (Ls : length stored = Z.to_nat n) by (subst stored; rewrite length_take; lia).
  assert (Lq : (length buf - Z.to_nat n)%nat = length post) by (rewrite Eb at 1; rewrite length_app; lia).
  replace (Z.to_nat (zlen buf - n)) with (length post) by (unfold zlen; lia). rewrite Lq, Eb.
  rewrite (write_loop bd input fmt f pre post (Z.to_nat n)) by (rewrite <- Eb || idtac; done).
  rewrite Z2Nat.id, Ep by lia. replace n with (zlen stored) by (unfold zlen; lia). rewrite clear_loop.
  destruct bd; [| done]. f_equal. rewrite <- orb_assoc. f_equal.
  rewrite (differs_hues Pearl fmt pre stored), (differs_hues Pearl LED_FORMAT_RGB post)
    by (rewrite ?length_replicate; done || lia).
  rewrite <- negb_andb. f_equal. rewrite !fmap_app.
  apply eq_true_iff_eq. rewrite andb_true_iff, !bool_decide_eq_true. split; [by intros [-> ->] |].
  intros E. by apply app_inj_1 in E; [| rewrite !length_fmap; lia].
Qed.

Lemma found_stays bd input fmt n m k buf : (for_up clear_led k m (for_up (write_led bd input fmt) 0 n (true, buf))).1 = true.
Proof.
  apply (for_up_invariant clear_led (fun _ s => s.1 = true)); [| intros i [f l] _ E; cbn in *; by rewrite E].
  apply (for_up_invariant (write_led bd input fmt) (fun _ s => s.1 = true)); [done | intros i [f l] _ E; cbn in *; by rewrite E].
Qed.

(** ** Theorems *)

(** A sequence of colours, for any bytes.  It is refused, the buffer untouched, when the
    bytes are no whole number of colours or the buffer is in use; otherwise the buffer
    holds the colours of the bytes, cut to the strip or completed with dark LEDs, and
    only the Pearl says so when nothing changed to the eye. *)
Theorem sequence_stored bd input fmt buf sem_free :
  rgb_leds_set_leds_sequence bd input fmt buf sem_free =
  if negb (bool_decide (fmt = LED_FORMAT_RGB \/ fmt = LED_FORMAT_ARGB)) || negb (zlen input mod fmt =? 0)
  then (RET_ERROR_INVALID_PARAM, buf)
  else if negb sem_free then (RET_ERROR_INTERNAL, buf)
  else
    let stored := on_strip (length buf) (parse_leds bd fmt input) in
    (if bool_decide (bd = Pearl /\ hue <$> buf = hue <$> stored) then RET_ERROR_ALREADY_INITIALIZED else RET_SUCCESS, stored).
Proof.
  unfold rgb_leds_set_leds_sequence. cbv zeta.
  assert (negb (fmt =? LED_FORMAT_RGB) && negb (fmt =? LED_FORMAT_ARGB) =
          negb (bool_decide (fmt = LED_FORMAT_RGB \/ fmt = LED_FORMAT_ARGB))) as ->
    by (case_bool_decide; destruct (Z.eqb_spec fmt LED_FORMAT_RGB), (Z.eqb_spec fmt LED_FORMAT_ARGB); cbn; tauto).
  case_bool_decide as Hf; [| done]. cbn [negb orb].
  destruct (Z.eqb_spec (zlen input mod fmt) 0) as [Hm |]; [| done]. destruct sem_free; [| done]. cbn [negb].
  assert (0 < fmt) by (destruct Hf as [-> | ->]; done).
  pose proof (zlen_nonneg input). pose proof (zlen_nonneg buf).
  rewrite stored_count by lia. pose proof (store_and_clear bd input fmt (match bd with Diamond => true | Pearl => false end) buf Hf Hm) as E.
  cbv zeta in E. rewrite E. destruct bd; cbn [fst snd].
  - repeat case_bool_decide; cbn; tauto.
  - rewrite found_stays. by rewrite bool_decide_eq_false_2 by (intros []; done).
Qed.

Lemma byte_bits x : is_byte x -> forall one zero, zero < one -> bits_value one (dma_byte one zero x) = x.
Proof.
  intros Hx one zero Hd.
  assert (E : forall j, (if one <=? duty one zero x j then 1 else 0) = if Z.land x (Z.shiftr 0x80 j) =? 0 then 0 else 1).
  { intros j. unfold duty. destruct (_ =? 0); [by bfalse (one <=? zero) | by rewrite Z.leb_refl]. }
  unfold dma_byte, bits_value. cbn [fmap list_fmap fold_left]. rewrite !E.
  apply (Z.eqb_eq _ x). clear E Hd. revert x Hx.
  apply (all_below_spec 256 (fun x => _ =? x)). vm_compute. reflexivity.
Qed.

Lemma prefix_bits x : is_byte x -> Z.land (Z.lor 0xE0 (Z.land x 0x1F)) 0xE0 = 0xE0 /\ Z.land (Z.lor 0xE0 (Z.land x 0x1F)) 0x1F = x mod 32.
Proof.
  intros Hx. rewrite <- !Z.eqb_eq, <- andb_true_iff. revert x Hx.
  apply (all_below_spec 256 (fun x => (_ =? _) && (_ =? x mod 32))). vm_compute. reflexivity.
Qed.

(** What the driver of the Diamond sends is what the LEDs of the strip understand:
    32 zero bits, then for each LED its colour with the dimming cut to five bits,
    then at least half a clock per LED to push the last colours through. *)
Theorem spi_frame_understood pixels : Forall (led_wf Diamond) pixels ->
  let frame := spi_rgb_led_update_rgb pixels in
  take 4 frame = [0; 0; 0; 0] /\
  spi_receive (length pixels) (drop 4 frame) = Some ((fun c => Rgb (scratch c mod 32) (r c) (g c) (b c)) <$> pixels) /\
  zlen pixels <= 2 * 8 * (zlen frame - 4 - 4 * zlen pixels).
Proof.
  intros Hp. cbv zeta. unfold spi_rgb_led_update_rgb. split; [done |]. change (fill 4 0) with [0; 0; 0; 0]. cbn [app drop]. split.
  - rewrite drop_0. generalize (fill (zlen pixels / 8 / 2 + 1) 0xFF). induction Hp as [|c pixels (Hs & _) Hp IH]; intros tail; [done |].
    cbn [fmap list_fmap concat length]. change (spi_led c) with [Z.lor 0xE0 (Z.land (scratch c) 0x1F); g c; b c; r c].
    cbn [app spi_receive]. destruct (prefix_bits (scratch c) Hs) as [-> ->].
    rewrite Z.eqb_refl, IH. done.
  - rewrite !zlen_cons, zlen_app, zlen_fill by (pose proof (zlen_nonneg pixels); zify_div).
    assert (E : zlen (concat (spi_led <$> pixels)) = 4 * zlen pixels).
    { clear. induction pixels as [|c pixels IH]; [done |]. cbn [fmap list_fmap concat]. rewrite zlen_app, IH, zlen_cons.
      change (zlen (spi_led c)) with 4. lia. }
    rewrite E. pose proof (zlen_nonneg pixels). zify_div.
Qed.

Lemma dma_pixel_length o z c : length (dma_pixel o z c) = 24%nat. Proof. done. Qed.

(** What the driver of the Pearl sends is what the LEDs of the strip understand, for
    every clock of the timer from 4 to 426 MHz, where the lengths of the pulses fit a
    byte and differ; the line then stays low for 65 periods. *)
Theorem ws2812_signal_understood tim_clk pixels : 4000000 <= tim_clk <= 426000000 -> Forall (led_wf Pearl) pixels ->
  let one_bit := nsec_to_cycles WS2812_PERIOD_1_BIT_NS tim_clk in
  let signal := rgb_to_dma_pixels tim_clk pixels in
  ws2812_receive one_bit (length pixels) signal = pixels /\ drop (24 * length pixels) signal = fill NUM_RESET_PIXELS 0.
Proof.
  intros Hc Hp. cbv zeta. unfold rgb_to_dma_pixels, nsec_to_cycles, WS2812_PERIOD_1_BIT_NS, WS2812_PERIOD_0_BIT_NS.
  set (one := 600 * tim_clk / 1000000000). set (zero := 300 * tim_clk / 1000000000).
  assert (0 <= zero < one /\ one < 256) by (subst one zero; zify_div).
  rewrite (u32_small one), (u32_small zero), (u8_small one), (u8_small zero) by lia. clearbody one zero.
  generalize (fill NUM_RESET_PIXELS 0). induction Hp as [|[s x y z] pixels (_ & Hr & Hg & Hb & Hs) Hp IH]; intros tail; [done |].
  destruct (IH tail) as [E1 E2]. cbn [fmap list_fmap concat length ws2812_receive]. rewrite <- !app_assoc. split.
  - cbn in Hs. rewrite (Hs eq_refl). etransitivity; [| exact (f_equal (cons (Rgb 0 x y z)) E1)].
    change (Rgb 0 (bits_value one (dma_byte one zero x)) (bits_value one (dma_byte one zero y)) (bits_value one (dma_byte one zero z))
      :: ws2812_receive one (length pixels) (concat (dma_pixel one zero <$> pixels) ++ tail) =
      Rgb 0 x y z :: ws2812_receive one (length pixels) (concat (dma_pixel one zero <$> pixels) ++ tail)).
    by rewrite !byte_bits by (assumption || lia).
  - replace (24 * S (length pixels))%nat with (24 + 24 * length pixels)%nat by lia. rewrite <- drop_drop.
    exact E2.
Qed.

Lemma spi_frame_understood_witness :
  spi_receive 2 (drop 4 (spi_rgb_led_update_rgb [Rgb 5 255 0 7; Rgb 31 1 2 3])) = Some [Rgb 5 255 0 7; Rgb 31 1 2 3].
Proof.
  apply (spi_frame_understood [Rgb 5 255 0 7; Rgb 31 1 2 3]).
  repeat constructor; cbn; try lia; done.
Defined.

Lemma ws2812_signal_understood_witness :
  ws2812_receive 102 2 (rgb_to_dma_pixels 170000000 [Rgb 0 255 0 7; Rgb 0 1 2 3]) = [Rgb 0 255 0 7; Rgb 0 1 2 3].
Proof.
  apply (ws2812_signal_understood 170000000 [Rgb 0 255 0 7; Rgb 0 1 2 3]); [lia |].
  repeat constructor; cbn; try lia; done.
Defined.
