(* ===== verification/FloatFacts.v ===== *)
(** The rounding of single-precision floats, as far as bounds need it: the result of
    an operation lies between any two floats the exact result lies between
    ([round_faithful]), and the operations of [Floats] with it. *)

From Stdlib Require Import SpecFloat.
From S2P Require Import Prelude Floats.

(** ** Shifts *)

Lemma digits2_pos_bounds m : 2 ^ (Z.pos (digits2_pos m) - 1) <= Z.pos m < 2 ^ Z.pos (digits2_pos m).
Proof.
  induction m as [m IH | m IH |]; cbn [digits2_pos]; [| | done]; rewrite Pos2Z.inj_succ.
  all: replace (Z.succ (Z.pos (digits2_pos m)) - 1) with (Z.succ (Z.pos (digits2_pos m) - 1)) by lia.
  all: rewrite !Z.pow_succ_r by lia; lia.
Qed.

Definition inexact (x : shr_record) : bool := shr_r x || shr_s x.

(** What [n] shifts lose of the mantissa shows in the two bits. *)
Definition shifted (n : Z) (x y : shr_record) : Prop :=
  0 <= shr_m y /\ exists rem, 0 <= rem < 2 ^ n /\ shr_m x = shr_m y * 2 ^ n + rem /\ inexact y = negb (rem =? 0) || inexact x.

Lemma shr_1_shifted x : 0 <= shr_m x -> shifted 1 x (shr_1 x).
Proof.
  destruct x as [m r s]. unfold shifted, inexact. change (2 ^ 1) with 2. cbn [shr_m shr_r shr_s]. intros Hm.
  destruct m as [| [p | p |] |]; try lia; cbn; (split; [lia |]).
  - exists 0. by destruct r, s.
  - exists 1. split; [lia |]. split; [lia |]. by destruct r, s.
  - exists 0. split; [lia |]. split; [lia |]. by destruct r, s.
  - exists 1. split; [lia |]. split; [lia |]. by destruct r, s.
Qed.

Lemma shifted_trans a c x y z : 0 <= a -> 0 <= c -> shifted a x y -> shifted c y z -> shifted (a + c) x z.
Proof.
  intros Ha Hc (Hy & r1 & B1 & E1 & I1) (Hz & r2 & B2 & E2 & I2). split; [done |].
  exists (r2 * 2 ^ a + r1). rewrite Z.pow_add_r by done. pose proof (Z.pow_pos_nonneg 2 a ltac:(lia) Ha).
  split; [nia |]. split; [rewrite E1, E2; ring |]. rewrite I2, I1.
  destruct (Z.eqb_spec r1 0), (Z.eqb_spec r2 0), (Z.eqb_spec (r2 * 2 ^ a + r1) 0); cbn; try done; try nia.
  all: by destruct (inexact x).
Qed.

Lemma iter_shifted p : forall x, 0 <= shr_m x -> shifted (Z.pos p) x (SpecFloat.iter_pos shr_1 p x).
Proof.
  induction p as [p IH | p IH |]; intros x Hx; cbn [SpecFloat.iter_pos]; [| | by apply shr_1_shifted].
  - pose proof (shr_1_shifted x Hx) as H1. pose proof (IH _ (proj1 H1)) as H2. pose proof (IH _ (proj1 H2)) as H3.
    replace (Z.pos p~1) with (1 + (Z.pos p + Z.pos p)) by lia.
    eapply shifted_trans; [lia | lia | exact H1 |]. eapply shifted_trans; [lia | lia | exact H2 | exact H3].
  - pose proof (IH _ Hx) as H2. pose proof (IH _ (proj1 H2)) as H3.
    replace (Z.pos p~0) with (Z.pos p + Z.pos p) by lia. eapply shifted_trans; [lia | lia | exact H2 | exact H3].
Qed.

(** Rounded up or down, and exact when nothing was lost. *)
Lemma round_nearest_even_near x : let r := round_nearest_even (shr_m x) (loc_of_shr_record x) in
  r = shr_m x \/ r = shr_m x + 1 /\ inexact x = true.
Proof. destruct x as [m [] []]; cbn; auto. destruct (Z.even m); auto. Qed.

(** [shr_fexp] on an exact mantissa, for any format. *)
Lemma shr_fexp_exact_of prec emax m e : 0 <= m -> let k := Z.max 0 (fexp prec emax (Zdigits2 m + e) - e) in
  let r := shr_fexp prec emax m e loc_Exact in
  r.2 = e + k /\ shifted k (Build_shr_record m false false) r.1.
Proof.
  intros Hm. cbv zeta. unfold shr_fexp, shr. cbn [shr_record_of_loc].
  destruct (fexp prec emax (Zdigits2 m + e) - e) as [| p | p] eqn:E; cbn [fst snd].
  - split; [lia |]. rewrite Z.max_id. split; [done |]. exists 0. cbn. rewrite Z.mul_1_r. split; [lia |]. split; [lia | done].
  - rewrite Z.max_r by lia. split; [lia |]. by apply iter_shifted.
  - rewrite Z.max_l by lia. split; [lia |]. split; [done |]. exists 0. cbn. rewrite Z.mul_1_r. split; [lia |]. split; [lia | done].
Qed.

Lemma shr_fexp_exact m e : 0 <= m -> let k := Z.max 0 (fexp 24 128 (Zdigits2 m + e) - e) in
  let r := shr_fexp 24 128 m e loc_Exact in
  r.2 = e + k /\ shifted k (Build_shr_record m false false) r.1.
Proof. apply shr_fexp_exact_of. Qed.

(** ** Rounding *)

(** The number [m * 2^e], in units of [2^B]. *)
Definition dyadic (B m e : Z) : Z := m * 2 ^ (e - B).

Lemma dyadic_scale B m e k : B <= e -> 0 <= k -> dyadic B m (e + k) = m * 2 ^ k * 2 ^ (e - B).
Proof. intros. unfold dyadic. replace (e + k - B) with (k + (e - B)) by lia. rewrite Z.pow_add_r by lia. ring. Qed.

Lemma dyadic_mono B m n e : B <= e -> m <= n -> dyadic B m e <= dyadic B n e.
Proof. intros. unfold dyadic. pose proof (Z.pow_nonneg 2 (e - B) ltac:(lia)). nia. Qed.

Lemma dyadic_lt B m n e : B <= e -> m < n -> dyadic B m e < dyadic B n e.
Proof. intros. unfold dyadic. pose proof (Z.pow_pos_nonneg 2 (e - B) ltac:(lia) ltac:(lia)). nia. Qed.

(** A float below a power of two that its exponent cannot reach. *)
Lemma float_below B g f e : B <= f -> 0 <= g < 2 ^ 24 -> f < e -> dyadic B g f < dyadic B (2 ^ 23) e.
Proof.
  intros Hf Hg He. replace e with (f + 1 + (e - f - 1)) by lia.
  apply Z.lt_le_trans with (dyadic B (2 ^ 24) f); [apply dyadic_lt; lia |].
  rewrite (dyadic_scale B (2 ^ 23) (f + 1)) by lia. unfold dyadic.
  replace (f + 1 - B) with (1 + (f - B)) by lia. rewrite Z.pow_add_r by lia. change (2 ^ 24) with (2 ^ 23 * 2 ^ 1).
  pose proof (Z.pow_pos_nonneg 2 (f - B) ltac:(lia) ltac:(lia)). pose proof (Z.pow_pos_nonneg 2 (e - f - 1) ltac:(lia) ltac:(lia)).
  nia.
Qed.

(** The first rounding: between the floats on both sides. *)
Definition faithful (B : Z) (x M e : Z) : Prop :=
  (forall g f, 0 <= g < 2 ^ 24 -> -149 <= f -> x <= dyadic B g f -> dyadic B M e <= dyadic B g f) /\
  (forall g f, 0 <= g < 2 ^ 24 -> -149 <= f -> dyadic B g f <= x -> dyadic B g f <= dyadic B M e).

Lemma first_rounding B m e : B <= e -> B <= -149 ->
  let d := Z.pos (digits2_pos m) in
  let k := Z.max 0 (fexp 24 128 (d + e) - e) in
  let x := (shr_fexp 24 128 (Z.pos m) e loc_Exact).1 in
  let M := round_nearest_even (shr_m x) (loc_of_shr_record x) in
  (shr_fexp 24 128 (Z.pos m) e loc_Exact).2 = e + k /\ 0 <= M <= 2 ^ 24 /\ -149 <= e + k /\
  (k = 0 -> M = Z.pos m) /\ (M = 2 ^ 24 -> 0 < k) /\ (0 < k -> -149 < e + k -> 2 ^ 23 <= M) /\
  faithful B (dyadic B (Z.pos m) e) M (e + k).
Proof.
  intros He HB. cbv zeta. pose proof (digits2_pos_bounds m) as Hd.
  destruct (shr_fexp_exact (Z.pos m) e ltac:(lia)) as (E2 & Hx & rem & Hrem & Em & Ei). cbn [Zdigits2 shr_m] in *.
  set (d := Z.pos (digits2_pos m)) in *. set (k := Z.max 0 (fexp 24 128 (d + e) - e)) in *.
  set (x := (shr_fexp 24 128 (Z.pos m) e loc_Exact).1) in *. unfold inexact at 2 in Ei. cbn [shr_r shr_s orb] in Ei. rewrite orb_false_r in Ei.
  pose proof (round_nearest_even_near x) as Hr. cbv zeta in Hr.
  set (M := round_nearest_even (shr_m x) (loc_of_shr_record x)) in *.
  assert (Hk : k = Z.max 0 (Z.max (d + e - 24) (-149) - e)) by done. assert (Hd1 : 1 <= d) by lia. clearbody k d.
  assert (HM : M = shr_m x \/ M = shr_m x + 1 /\ 0 < rem).
  { destruct Hr as [-> | [-> Hi]]; [auto |]. right. split; [done |]. rewrite Hi in Ei. destruct (Z.eqb_spec rem 0); [done | lia]. }
  clearbody M x. pose proof (Z.pow_pos_nonneg 2 k ltac:(lia) ltac:(lia)) as Hp.
  assert (H1 : shr_m x < 2 ^ 24).
  { assert (Z.pos m < 2 ^ 24 * 2 ^ k); [| nia]. rewrite <- Z.pow_add_r by lia.
    apply Z.lt_le_trans with (2 ^ d); [lia |]. apply Z.pow_le_mono_r; lia. }
  assert (K0 : k = 0 -> M = Z.pos m).
  { intros K. rewrite K in *. change (2 ^ 0) with 1 in *. lia. }
  assert (N : 0 < k -> -149 < e + k -> 2 ^ 23 <= shr_m x).
  { intros. replace k with (d - 24) in * by lia. assert (2 ^ (d - 1) = 2 ^ 23 * 2 ^ (d - 24)) by (rewrite <- Z.pow_add_r by lia; f_equal; lia). nia. }
  split; [done |]. split; [lia |]. split; [lia |]. split; [done |]. split.
  { intros HM2. destruct (Z.eq_dec k 0) as [K |]; [| lia]. specialize (K0 K).
    assert (2 ^ d <= 2 ^ 24) by (apply Z.pow_le_mono_r; lia). lia. }
  split; [intros; specialize (N ltac:(lia) ltac:(lia)); lia |].
  assert (Ex : dyadic B (Z.pos m) e = (shr_m x * 2 ^ k + rem) * 2 ^ (e - B)) by (unfold dyadic; by rewrite Em).
  pose proof (Z.pow_pos_nonneg 2 (e - B) ltac:(lia) ltac:(lia)) as Hq.
  assert (S : forall g f, 0 <= g < 2 ^ 24 -> -149 <= f -> f < e + k -> 0 < k -> dyadic B g f < dyadic B (shr_m x) (e + k)).
  { intros g f Hg Hf Hlt Hk0. eapply Z.lt_le_trans; [by apply (float_below B g f (e + k)); lia |]. apply dyadic_mono; [lia |]. apply N; lia. }
  assert (X : dyadic B (shr_m x) (e + k) <= dyadic B (Z.pos m) e) by (rewrite dyadic_scale, Ex by lia; nia).
  split; intros g f Hg Hf Hle; destruct (Z_lt_le_dec f (e + k)) as [Hlt | Hge].
  - destruct (Z.eq_dec k 0) as [K |]; [by rewrite (K0 K), K, Z.add_0_r |]. specialize (S g f Hg Hf Hlt ltac:(lia)). lia.
  - replace f with (e + k + (f - (e + k))) in Hle |- * by lia. rewrite (dyadic_scale B g (e + k)) in Hle |- * by lia.
    fold (dyadic B (g * 2 ^ (f - (e + k))) (e + k)) in *. set (Q := g * 2 ^ (f - (e + k))) in *.
    rewrite (dyadic_scale B Q), Ex in Hle by lia. apply Z.mul_le_mono_pos_r in Hle; [| done].
    apply dyadic_mono; [lia |]. nia.
  - destruct (Z.eq_dec k 0) as [K |]; [by rewrite (K0 K), K, Z.add_0_r |]. specialize (S g f Hg Hf Hlt ltac:(lia)).
    apply Z.lt_le_incl. eapply Z.lt_le_trans; [exact S |]. apply dyadic_mono; lia.
  - replace f with (e + k + (f - (e + k))) in Hle |- * by lia. rewrite (dyadic_scale B g (e + k)) in Hle |- * by lia.
    fold (dyadic B (g * 2 ^ (f - (e + k))) (e + k)) in *. set (Q := g * 2 ^ (f - (e + k))) in *.
    rewrite (dyadic_scale B Q), Ex in Hle by lia. apply Z.mul_le_mono_pos_r in Hle; [| done].
    apply dyadic_mono; [lia |]. assert (Q <= shr_m x) by nia. lia.
Qed.

(** The second one only moves a carry. *)
Lemma second_rounding B M e : B <= e -> -149 <= e -> 0 <= M <= 2 ^ 24 ->
  let r := shr_fexp 24 128 M e loc_Exact in
  0 <= shr_m r.1 < 2 ^ 24 /\ dyadic B (shr_m r.1) r.2 = dyadic B M e /\
  (r.2 = e /\ shr_m r.1 = M \/ M = 2 ^ 24 /\ r.2 = e + 1 /\ shr_m r.1 = 2 ^ 23).
Proof.
  intros HB He HM. cbv zeta. destruct (shr_fexp_exact M e ltac:(lia)) as (-> & Hx & rem & Hrem & Em & _). cbn [shr_m] in Em.
  set (k := Z.max 0 (fexp 24 128 (Zdigits2 M + e) - e)) in *.
  assert (Hk : k = Z.max 0 (Z.max (Zdigits2 M + e - 24) (-149) - e)) by done. clearbody k.
  destruct (Z.eq_dec M (2 ^ 24)) as [-> | Hn].
  - change (Zdigits2 (2 ^ 24)) with 25 in Hk. assert (k = 1) as -> by lia. change (2 ^ 1) with 2 in *.
    assert (E : shr_m (shr_fexp 24 128 (2 ^ 24) e loc_Exact).1 = 2 ^ 23) by lia. rewrite E.
    split; [lia |]. split; [| auto]. rewrite dyadic_scale by lia. unfold dyadic. lia.
  - assert (Zdigits2 M <= 24).
    { destruct M as [| m | m]; cbn [Zdigits2] in *; [lia | | lia]. pose proof (digits2_pos_bounds m).
      destruct (Z_lt_le_dec 24 (Z.pos (digits2_pos m))); [| done].
      assert (2 ^ 24 <= 2 ^ (Z.pos (digits2_pos m) - 1)) by (apply Z.pow_le_mono_r; lia). lia. }
    assert (k = 0) as -> by lia. change (2 ^ 0) with 1 in *. rewrite Z.add_0_r.
    assert (E : shr_m (shr_fexp 24 128 M e loc_Exact).1 = M) by lia. rewrite E. split; [lia |]. split; [done | auto].
Qed.

(** Non-negative floats of a bounded exponent, not necessarily normalised. *)
Definition nonneg (E : Z) (x : spec_float) : Prop :=
  match x with S754_zero _ => True | S754_finite false m e => Z.pos m < 2 ^ 24 /\ -149 <= e <= E | _ => False end.

Definition value (B : Z) (x : spec_float) : Z := match x with S754_finite _ m e => dyadic B (Z.pos m) e | _ => 0 end.

Lemma round_faithful B m e g f : B <= e -> B <= -149 -> e <= 104 -> 0 <= g < 2 ^ 24 -> -149 <= f <= 104 ->
  dyadic B (Z.pos m) e <= dyadic B g f ->
  let r := binary_round_aux 24 128 false (Z.pos m) e loc_Exact in
  nonneg 104 r /\ value B r <= dyadic B g f /\
  (forall g' f', 0 <= g' < 2 ^ 24 -> -149 <= f' -> dyadic B g' f' <= dyadic B (Z.pos m) e -> dyadic B g' f' <= value B r).
Proof.
  intros He HB H104 Hg Hf Hle. cbv zeta. unfold binary_round_aux.
  destruct (first_rounding B m e He HB) as (E1 & HM & He1 & K0 & KM & KN & Hup & Hlow). cbv zeta in *.
  destruct (shr_fexp 24 128 (Z.pos m) e loc_Exact) as [x e1]. cbn [fst snd] in *. subst e1.
  set (k := Z.max 0 _) in *. set (M := round_nearest_even _ _) in *. clearbody k M.
  destruct (second_rounding B M (e + k) ltac:(lia) He1 HM) as (HM2 & Ev & Hc). cbv zeta in *.
  destruct (shr_fexp 24 128 M (e + k) loc_Exact) as [y e2]. cbn [fst snd] in *.
  specialize (Hup g f Hg ltac:(lia) Hle). rewrite <- Ev in Hup.
  assert (Hlow2 : forall g' f', 0 <= g' < 2 ^ 24 -> -149 <= f' -> dyadic B g' f' <= dyadic B (Z.pos m) e ->
            dyadic B g' f' <= dyadic B (shr_m y) e2) by (intros; rewrite Ev; by apply Hlow).
  assert (H2 : e2 <= 104).
  { destruct (Z_lt_le_dec 104 e2) as [Hbig |]; [| done]. exfalso.
    assert (2 ^ 23 <= shr_m y).
    { destruct Hc as [[-> ->] | (_ & _ & ->)]; [| done]. assert (0 < k) by lia. apply KN; lia. }
    pose proof (float_below B g f e2 ltac:(lia) Hg ltac:(lia)). pose proof (dyadic_mono B (2 ^ 23) (shr_m y) e2 ltac:(lia) ltac:(lia)). lia. }
  destruct (shr_m y) as [| p | p]; [| | lia].
  - cbn [nonneg value]. split; [done |]. rewrite <- (Z.mul_0_l (2 ^ (e2 - B))). split; [exact Hup | exact Hlow2].
  - btrue (e2 <=? 128 - 24). cbn [nonneg value]. split; [lia |]. split; [exact Hup | exact Hlow2].
Qed.

(** ** Operations

    Values in units of the least subnormal, [2^-149]; [ONE] is 1. *)

Definition V (x : spec_float) : Z := value (-149) x.
Definition ONE : Z := 2 ^ 149.
Definition is_float (G : Z) : Prop := exists g f, 0 <= g < 2 ^ 24 /\ -149 <= f <= 104 /\ G = dyadic (-149) g f.

Lemma ONE_pos : 0 < ONE. Proof. done. Qed.

Lemma V_nonneg E x : nonneg E x -> 0 <= V x.
Proof. destruct x as [| | | [] m e]; cbn; try lia. intros [? ?]. apply Z.mul_nonneg_nonneg; [lia |]. apply Z.pow_nonneg. lia. Qed.

Lemma V_is_float E x : E <= 104 -> nonneg E x -> is_float (V x).
Proof.
  intros HE. destruct x as [s | | | [] m e]; cbn; try done.
  - intros _. exists 0, 0. repeat split; lia.
  - intros [? ?]. exists (Z.pos m), e. split; [lia |]. split; [lia | done].
Qed.

Lemma int_is_float c : 0 <= c < 2 ^ 24 -> is_float (c * ONE).
Proof. intros Hc. exists c, 0. split; [done |]. split; [lia | done]. Qed.

(** Halves of integers, as far as they are exact. *)
Lemma half_is_float c : 0 <= c < 2 ^ 24 -> is_float (c * 2 ^ 148).
Proof. intros Hc. exists c, (-1). split; [done |]. split; [lia | done]. Qed.

Lemma dyadic_rebase m e : -149 <= e -> dyadic (-298) m e = dyadic (-149) m e * ONE.
Proof. intros. unfold dyadic, ONE. rewrite <- Z.mul_assoc, <- Z.pow_add_r by lia. do 2 f_equal. lia. Qed.

Lemma value_rebase E x : nonneg E x -> value (-298) x = V x * ONE.
Proof. destruct x as [| | | [] m e]; try done. intros [? ?]. apply dyadic_rebase. lia. Qed.

Lemma nonneg_weaken E F x : E <= F -> nonneg E x -> nonneg F x.
Proof. destruct x as [| | | [] m e]; cbn; try done. intros ? [? ?]. split; lia. Qed.

Lemma fmul_faithful Ex Ey x y G : nonneg Ex x -> nonneg Ey y -> Ex + Ey <= 104 -> is_float G -> V x * V y <= G * ONE ->
  nonneg 104 (fmul x y) /\ V (fmul x y) <= G /\ (forall G', is_float G' -> G' * ONE <= V x * V y -> G' <= V (fmul x y)).
Proof.
  intros Hx Hy HE HG Hle.
  assert (Z0 : forall s, nonneg 104 (S754_zero s) /\ V (S754_zero s) <= G /\ (V x * V y = 0 -> forall G', is_float G' -> G' * ONE <= V x * V y -> G' <= 0)).
  { intros s. split; [done |]. split.
    - pose proof (V_nonneg _ _ Hx). pose proof (V_nonneg _ _ Hy). pose proof ONE_pos. cbn. nia.
    - intros E G' _ H. rewrite E in H. pose proof ONE_pos. nia. }
  destruct x as [sx | | | [] mx ex], y as [sy | | | [] my ey]; try done;
    try (unfold fmul; cbn [SFmul]; destruct (Z0 (xorb sx sy)) as (? & ? & Hz); (split; [done | split; [done | intros; apply Hz; auto; cbn; lia]])).
  - unfold fmul; cbn [SFmul]. destruct (Z0 (xorb sx false)) as (? & ? & Hz). split; [done | split; [done | intros; apply Hz; auto]].
  - unfold fmul; cbn [SFmul]. destruct (Z0 (xorb false sy)) as (? & ? & Hz). split; [done | split; [done | intros; apply Hz; auto; cbn; lia]].
  - destruct HG as (g & f & Hg & Hf & ->). cbn [nonneg] in Hx, Hy.
    assert (Ep : dyadic (-298) (Z.pos (mx * my)) (ex + ey) = V (S754_finite false mx ex) * V (S754_finite false my ey)).
    { unfold V, value, dyadic. rewrite Pos2Z.inj_mul. replace (ex + ey - -298) with ((ex - -149) + (ey - -149)) by lia.
      rewrite Z.pow_add_r by lia. ring. }
    rewrite <- Ep in *. rewrite <- dyadic_rebase in Hle by lia.
    destruct (round_faithful (-298) (mx * my) (ex + ey) g f ltac:(lia) ltac:(lia) ltac:(lia) Hg Hf Hle) as (Hn & Hu & Hl).
    change (fmul _ _) with (binary_round_aux 24 128 false (Z.pos (mx * my)) (ex + ey) loc_Exact).
    rewrite (value_rebase 104) in Hu, Hl by done. rewrite dyadic_rebase in Hu by lia. pose proof ONE_pos.
    split; [done |]. split; [by apply Z.mul_le_mono_pos_r in Hu |].
    intros G' (g' & f' & Hg' & Hf' & ->) Hle'. rewrite <- dyadic_rebase in Hle' by lia.
    specialize (Hl g' f' Hg' ltac:(lia) Hle'). rewrite dyadic_rebase in Hl by lia. by apply Z.mul_le_mono_pos_r in Hl.
Qed.

Lemma shl_align_value m e e' : -149 <= e -> -149 <= e' ->
  let r := shl_align m e e' in -149 <= r.2 /\ r.2 <= e /\ (r.2 = e' \/ r.2 = e /\ e <= e') /\ dyadic (-149) (Z.pos r.1) r.2 = dyadic (-149) (Z.pos m) e.
Proof.
  intros He He'. cbv zeta. unfold shl_align. destruct (e' - e) as [| p | p] eqn:E; cbn [fst snd];
    [split; [done |]; split; [lia |]; split; [lia | done] | split; [done |]; split; [lia |]; split; [lia | done] |].
  split; [done |]. split; [lia |]. split; [auto |]. 
  assert (Ep : Z.pos (Pos.iter xO m p) = Z.pos m * 2 ^ Z.pos p).
  { clear. induction p as [|p IH] using Pos.peano_ind; [cbn; lia |].
    rewrite Pos.iter_succ, Pos2Z.inj_xO, IH, Pos2Z.inj_succ, Z.pow_succ_r by lia. ring. }
  rewrite Ep. unfold dyadic. rewrite <- Z.mul_assoc, <- Z.pow_add_r by lia. do 2 f_equal. lia.
Qed.

Lemma binary_round_faithful m e G : -149 <= e <= 104 -> is_float G -> dyadic (-149) (Z.pos m) e <= G ->
  let r := binary_round 24 128 false m e in
  nonneg 104 r /\ V r <= G /\ (forall G', is_float G' -> G' <= dyadic (-149) (Z.pos m) e -> G' <= V r).
Proof.
  intros He (g & f & Hg & Hf & ->) Hle. cbv zeta. unfold binary_round.
  destruct (shl_align_value m e (fexp 24 128 (Z.pos (digits2_pos m) + e)) ltac:(lia)) as (H1 & H2 & _ & Ev); [unfold fexp, emin; lia |].
  destruct (shl_align m e _) as [m' e']. cbn [fst snd] in *. rewrite <- Ev in *.
  destruct (round_faithful (-149) m' e' g f ltac:(lia) ltac:(lia) ltac:(lia) Hg Hf Hle) as (Hn & Hu & Hl).
  split; [done |]. split; [done |]. intros G' (g' & f' & Hg' & Hf' & ->). apply Hl; lia.
Qed.

(** Sums: the mantissas are aligned first. *)
Lemma aligned mx ex my ey : -149 <= ex -> -149 <= ey ->
  let ez := Z.min ex ey in
  -149 <= ez /\ dyadic (-149) (Z.pos (shl_align mx ex ez).1) ez = dyadic (-149) (Z.pos mx) ex /\
  dyadic (-149) (Z.pos (shl_align my ey ez).1) ez = dyadic (-149) (Z.pos my) ey.
Proof.
  intros Hx Hy. cbv zeta. set (ez := Z.min ex ey).
  destruct (shl_align_value mx ex ez Hx ltac:(lia)) as (_ & _ & E1 & V1).
  destruct (shl_align_value my ey ez Hy ltac:(lia)) as (_ & _ & E2 & V2).
  split; [lia |]. split; [rewrite <- V1 | rewrite <- V2]; do 2 f_equal; lia.
Qed.

Definition fadd : spec_float -> spec_float -> spec_float := SFadd 24 128.
Definition fsub : spec_float -> spec_float -> spec_float := SFsub 24 128.

Lemma fadd_faithful x y G : nonneg 104 x -> nonneg 104 y -> is_float G -> V x + V y <= G ->
  nonneg 104 (fadd x y) /\ V (fadd x y) <= G /\ (forall G', is_float G' -> G' <= V x + V y -> G' <= V (fadd x y)).
Proof.
  intros Hx Hy HG Hle.
  destruct x as [sx | | | [] mx ex], y as [sy | | | [] my ey]; try done.
  - unfold fadd. cbn in *. destruct sx, sy; (split; [done | split; [done | auto]]).
  - unfold fadd. cbn [SFadd]. split; [done |]. replace (V (S754_zero sy)) with 0 in * by done. rewrite Z.add_0_r in *. split; [exact Hle | auto].
  - unfold fadd. cbn [SFadd cond_Zopp nonneg] in *. destruct (aligned mx ex my ey ltac:(lia) ltac:(lia)) as (Hz & Vx & Vy).
    cbv zeta in *. set (ez := Z.min ex ey) in *. change (V (S754_finite false mx ex)) with (dyadic (-149) (Z.pos mx) ex) in *.
    change (V (S754_finite false my ey)) with (dyadic (-149) (Z.pos my) ey) in *. rewrite <- Vx, <- Vy in *.
    set (a := (shl_align mx ex ez).1) in *. set (c := (shl_align my ey ez).1) in *.
    assert (E : dyadic (-149) (Z.pos a) ez + dyadic (-149) (Z.pos c) ez = dyadic (-149) (Z.pos (a + c)) ez) by (unfold dyadic; lia).
    rewrite E in *. change (Z.pos a + Z.pos c) with (Z.pos (a + c)). cbn [binary_normalize].
    apply binary_round_faithful; [lia | done | done].
Qed.

(** A negative result, or its rounding to an infinity; a zero has a value. *)
Lemma round_negative m e : let r := binary_round_aux 24 128 true (Z.pos m) e loc_Exact in
  nonneg 104 r /\ V r = 0 \/ SFltb r (flt 0 0) = true.
Proof.
  cbv zeta. unfold binary_round_aux. destruct (shr_fexp_exact (Z.pos m) e ltac:(lia)) as (_ & Hx & _).
  destruct (shr_fexp 24 128 (Z.pos m) e loc_Exact) as [x e1]. cbn [fst] in Hx.
  assert (HM : 0 <= round_nearest_even (shr_m x) (loc_of_shr_record x)) by (destruct (round_nearest_even_near x) as [-> | [-> _]]; lia).
  destruct (shr_fexp_exact _ e1 HM) as (_ & Hy & _).
  destruct (shr_fexp 24 128 _ e1 loc_Exact) as [y e2]. cbn [fst] in Hy.
  destruct (shr_m y); [by left | right | lia]. by destruct (_ <=? _).
Qed.

Lemma fsub_bounded x y : nonneg 104 x -> nonneg 104 y ->
  nonneg 104 (fsub x y) /\ V (fsub x y) <= V x \/ SFltb (fsub x y) (flt 0 0) = true.
Proof.
  intros Hx Hy. pose proof (V_nonneg _ _ Hx) as Px. pose proof (V_nonneg _ _ Hy) as Py.
  destruct x as [sx | | | [] mx ex], y as [sy | | | [] my ey]; try done.
  - left. unfold fsub. cbn. by destruct sx, sy.
  - right. done.
  - left. unfold fsub. cbn [SFsub]. split; [done | lia].
  - unfold fsub. cbn [SFsub cond_Zopp nonneg] in *. destruct (aligned mx ex my ey ltac:(lia) ltac:(lia)) as (Hz & Vx & Vy).
    cbv zeta in *. set (ez := Z.min ex ey) in *. change (V (S754_finite false mx ex)) with (dyadic (-149) (Z.pos mx) ex) in *.
    change (V (S754_finite false my ey)) with (dyadic (-149) (Z.pos my) ey) in *. rewrite <- Vx, <- Vy in *.
    set (a := (shl_align mx ex ez).1) in *. set (c := (shl_align my ey ez).1) in *.
    destruct (Z.pos a - Z.pos c) as [| p | p] eqn:E; cbn [binary_normalize].
    + left. cbn. auto.
    + left. assert (Hp : dyadic (-149) (Z.pos p) ez <= dyadic (-149) (Z.pos a) ez) by (apply dyadic_mono; lia).
      rewrite Vx in *.
      destruct (binary_round_faithful p ez (dyadic (-149) (Z.pos mx) ex)) as (? & ? & _); [lia | | done | done].
      exists (Z.pos mx), ex. split; [lia |]. split; [lia | done].
    + unfold binary_round. destruct (shl_align p ez _) as [m' e'].
      destruct (round_negative m' e') as [[? ->] | ?]; [left | by right]. split; [done | lia].
Qed.

(** [roundf] and the conversion of the result. *)
Lemma sf_round_value E x : E <= 104 -> nonneg E x -> sf_round x = Some ((V x + 2 ^ 148) / ONE).
Proof.
  intros HE. destruct x as [s | | | [] m e]; cbn -[Z.pow]; try done. intros [Hm He]. f_equal. unfold V, value, dyadic, ONE.
  destruct (Z.leb_spec 0 e).
  - replace (e - -149) with (e + 149) by lia. rewrite Z.pow_add_r, Z.mul_assoc by lia.
    rewrite Z.add_comm, Z.div_add by done. by rewrite (Z.div_small (2 ^ 148)).
  - replace (2 ^ 148) with (2 ^ (- e - 1) * 2 ^ (e - -149)) by (rewrite <- Z.pow_add_r by lia; f_equal; lia).
    rewrite <- Z.mul_add_distr_r. replace (2 ^ 149) with (2 ^ (- e) * 2 ^ (e - -149)) by (rewrite <- Z.pow_add_r by lia; f_equal; lia).
    by rewrite Z.div_mul_cancel_r by (apply Z.pow_nonzero; lia).
Qed.

(** The conversion to an integer. *)
Lemma sf_trunc_value B m e : B <= e -> B <= 0 -> sf_trunc (S754_finite false m e) = Some (dyadic B (Z.pos m) e / 2 ^ (- B)).
Proof.
  intros He HB. cbn -[Z.pow]. f_equal. unfold dyadic. destruct (Z.leb_spec 0 e).
  - replace (e - B) with (e + - B) by lia. by rewrite Z.pow_add_r, Z.mul_assoc, Z.div_mul by (try apply Z.pow_nonzero; lia).
  - replace (2 ^ (- B)) with (2 ^ (- e) * 2 ^ (e - B)) by (rewrite <- Z.pow_add_r by lia; f_equal; lia).
    by rewrite Z.div_mul_cancel_r by (apply Z.pow_nonzero; lia).
Qed.

(** An integer that fits the mantissa is exact. *)
Lemma flt_int c : 0 <= c < 2 ^ 24 -> nonneg 104 (flt c 0) /\ V (flt c 0) = c * ONE.
Proof.
  intros Hc. destruct c as [| c | c]; [done | | lia].
  assert (E : dyadic (-149) (Z.pos c) 0 = Z.pos c * ONE) by done. unfold flt. cbn [binary_normalize].
  destruct (binary_round_faithful c 0 (Z.pos c * ONE) ltac:(lia) (int_is_float _ Hc) ltac:(lia)) as (N & U & L). split; [done |].
  apply Z.le_antisymm; [done |]. apply L; [by apply int_is_float | lia].
Qed.

(** A byte as a float. *)
Lemma flt_byte c : 0 <= c < 256 -> nonneg 0 (flt c 0) /\ V (flt c 0) = c * ONE.
Proof.
  intros Hc. assert (T : (match flt c 0 with S754_zero _ => c =? 0 | S754_finite false m e =>
    (Z.pos m <? 2 ^ 24) && (-149 <=? e) && (e <=? 0) && (dyadic (-149) (Z.pos m) e =? c * ONE) | _ => false end) = true).
  { revert c Hc. apply (all_below_spec 256). vm_compute. reflexivity. }
  destruct (flt c 0) as [s | | | [] m e]; try done.
  - apply Z.eqb_eq in T as ->. done.
  - rewrite !andb_true_iff, Z.ltb_lt, !Z.leb_le, Z.eqb_eq in T. cbn. lia.
Qed.
