(* ===== verification/FrontLeds.v ===== *)
(** main_board/src/ui/rgb_leds/front_leds/front_leds.c: the LEDs of the front unit, a
    centre and a ring on one strip.  The calls of other threads change the settings
    or copy a sequence of colours into the buffer; the thread of the module draws
    the pattern, or leaves the sequence, and puts the buffer on the wire.

    A turn of the thread runs, at a higher priority than the runner, from the
    semaphore it waits for to the transmission, during which it holds the buffer's
    semaphore ([front_wake]); [front_sent] is the end of the transmission.  The calls
    come before, between and after.  [frames] records what was transmitted, and
    [strip_writes] is what the driver leaves of the buffer it was given.

    The results of [rand] are an argument of the turn, the sine table, which the
    build generates, of everything that reads it. *)

From Stdlib Require Import SpecFloat.
From S2P Require Import Prelude Floats FloatFacts RgbLeds.

(** ** Configuration *)

Definition NUM_LEDS (bd : board) : Z := match bd with Pearl => 233 | Diamond => 118 end.
Definition NUM_CENTER_LEDS (bd : board) : Z := match bd with Pearl => 9 | Diamond => 64 end.
Definition NUM_RING_LEDS (bd : board) : Z := NUM_LEDS bd - NUM_CENTER_LEDS bd.
Definition INDEX_RING_ZERO (bd : board) : Z := match bd with Pearl => NUM_RING_LEDS Pearl * 3 / 4 | Diamond => 41 end.
Definition FULL_RING_DEGREES : Z := 360.
Definition SHADES_PER_COLOR : Z := 4.
Definition SINE_TABLE_LENGTH : Z := 150.
Definition MINIMUM_WHITE_BRIGHTNESS : Z := 9.
Definition INITIAL_PULSING_PERIOD_MS : Z := 5000.
Definition PULSING_SCALE_DEFAULT : spec_float := flt 1 0.
Definition RGB_WHITE (bd : board) : led_rgb :=
  match bd with
  | Pearl => Rgb 0 MINIMUM_WHITE_BRIGHTNESS MINIMUM_WHITE_BRIGHTNESS MINIMUM_WHITE_BRIGHTNESS
  | Diamond => Rgb 15 80 80 50
  end.

Definition BOOT_PROGRESS_STEP_UNKNOWN : Z := 0.
Definition BOOT_PROGRESS_STEP_DONE : Z := 5.
Definition BOOT_PROGRESS_PERCENT_FULL : Z := 95.
Definition BOOT_PROGRESS_PERCENTAGE_STEP : Z := BOOT_PROGRESS_PERCENT_FULL / BOOT_PROGRESS_STEP_DONE.
Definition BOOT_ANIMATION_STEP_ANGLE : spec_float :=
  fmul (flt 360 0) (fdiv (flt BOOT_PROGRESS_PERCENTAGE_STEP 0) (flt 100 0)).
(** 0.2f and 0.06f. *)
Definition BOOT_ANIMATION_BRIGHTNESS_CUTOFF : spec_float := flt 13421773 (-26).
Definition BOOT_ANIMATION_TRANSITION_THRESHOLD : spec_float := flt 16106127 (-28).

Definition RING_LEDS_DIRTY : Z := 1.
Definition CENTER_LEDS_DIRTY : Z := 2.
Definition ALL_LEDS_DIRTY : Z := 3.

Inductive pattern :=
| OFF | ALL_WHITE | ALL_WHITE_NO_CENTER | ALL_WHITE_ONLY_CENTER | RANDOM_RAINBOW | ALL_RED | ALL_GREEN | ALL_BLUE
| PULSING_WHITE | PULSING_RGB | PULSING_RGB_ONLY_CENTER | RGB | RGB_ONLY_CENTER | BOOT_ANIMATION | OtherPattern (n : Z).

#[export] Instance pattern_eq_dec : EqDecision pattern.
Proof. solve_decision. Defined.

(** [orb_mcu_main_RgbColor]. *)
Record RgbColor := Color { red : Z; green : Z; blue : Z; dimming : Z }.

(** ** State *)

Record user_leds := UserLeds { center_leds : list led_rgb; ring_leds : list led_rgb }.

Record settings := Settings {
  global_pattern : pattern;
  global_start_angle_degrees : Z;
  global_angle_length_degrees : Z;
  global_intensity : Z;
  global_color : led_rgb;
  global_pulsing_scale : spec_float;
  global_pulsing_period_ms : Z;
  global_pulsing_delay_time_ms : Z;
}.

(** What the thread is doing, with the time-out of its next wait; none is K_FOREVER. *)
Inductive thread_state := Waiting (wait_until : option Z) | Sending (wait_until : option Z).

Record front := Front {
  set : settings;
  boot_progress_current : Z;
  boot_progress_target : Z;
  pulsing_index : Z;
  use_sequence : bool;
  final_done : bool;
  leds : user_leds;
  leds_dirty : Z;
  sem_leds_refresh : Z;
  leds_update_sem : Z;
  thread : thread_state;
  frames : list (list led_rgb);
}.

Definition with_set (x : settings) (s : front) : front :=
  Front x (boot_progress_current s) (boot_progress_target s) (pulsing_index s) (use_sequence s) (final_done s) (leds s)
    (leds_dirty s) (sem_leds_refresh s) (leds_update_sem s) (thread s) (frames s).
Definition with_progress (current target index : Z) (s : front) : front :=
  Front (set s) current target index (use_sequence s) (final_done s) (leds s)
    (leds_dirty s) (sem_leds_refresh s) (leds_update_sem s) (thread s) (frames s).
Definition with_sequence (u : bool) (s : front) : front :=
  Front (set s) (boot_progress_current s) (boot_progress_target s) (pulsing_index s) u (final_done s) (leds s)
    (leds_dirty s) (sem_leds_refresh s) (leds_update_sem s) (thread s) (frames s).
Definition with_leds (l : user_leds) (dirty : Z) (s : front) : front :=
  Front (set s) (boot_progress_current s) (boot_progress_target s) (pulsing_index s) (use_sequence s) (final_done s) l
    dirty (sem_leds_refresh s) (leds_update_sem s) (thread s) (frames s).
Definition with_sems (refresh update : Z) (s : front) : front :=
  Front (set s) (boot_progress_current s) (boot_progress_target s) (pulsing_index s) (use_sequence s) (final_done s) (leds s)
    (leds_dirty s) refresh update (thread s) (frames s).
Definition with_thread (t : thread_state) (s : front) : front :=
  Front (set s) (boot_progress_current s) (boot_progress_target s) (pulsing_index s) (use_sequence s) (final_done s) (leds s)
    (leds_dirty s) (sem_leds_refresh s) (leds_update_sem s) t (frames s).
Definition with_final (s : front) : front :=
  Front (set s) (boot_progress_current s) (boot_progress_target s) (pulsing_index s) (use_sequence s) true (leds s)
    (leds_dirty s) (sem_leds_refresh s) (leds_update_sem s) (thread s) (frames s).
Definition transmit (l : list led_rgb) (s : front) : front :=
  Front (set s) (boot_progress_current s) (boot_progress_target s) (pulsing_index s) (use_sequence s) (final_done s) (leds s)
    (leds_dirty s) (sem_leds_refresh s) (leds_update_sem s) (thread s) (frames s ++ [l]).

(** [k_sem_give]: the limit of both semaphores is 1. *)
Definition give_refresh (s : front) : front := with_sems 1 (leds_update_sem s) s.

Section Front.
Context (bd : board) (SINE_LUT : list spec_float) (strip_writes : list led_rgb -> list led_rgb).

(** The strip, in the order of its wiring. *)
Definition all (l : user_leds) : list led_rgb :=
  match bd with Pearl => center_leds l ++ ring_leds l | Diamond => ring_leds l ++ center_leds l end.
Definition of_all (a : list led_rgb) : user_leds :=
  match bd with
  | Pearl => UserLeds (take (Z.to_nat (NUM_CENTER_LEDS bd)) a) (drop (Z.to_nat (NUM_CENTER_LEDS bd)) a)
  | Diamond => UserLeds (drop (Z.to_nat (NUM_RING_LEDS bd)) a) (take (Z.to_nat (NUM_RING_LEDS bd)) a)
  end.

(** ** Drawing *)

Definition set_center (color : led_rgb) (sem_free : bool) (l : user_leds) : user_leds :=
  if sem_free then UserLeds (replicate (length (center_leds l)) color) (ring_leds l) else l.

Definition next_led (n : Z) (angle_length led_index : Z) : Z :=
  let up := (led_index + 1) mod n in
  let down := if led_index =? 0 then n - 1 else led_index - 1 in
  match bd with
  | Pearl => if 0 <=? angle_length then up else down
  | Diamond => if 0 <=? angle_length then down else up
  end.

Fixpoint ring_loop (n : nat) (i led_index lit angle_length : Z) (color : led_rgb) (bg_color : option led_rgb) (ring : list led_rgb)
  : list led_rgb :=
  match n with
  | O => ring
  | S n =>
      let ring := if i <? lit then <[Z.to_nat led_index := color]> ring
                  else match bg_color with Some bg => <[Z.to_nat led_index := bg]> ring | None => ring end in
      ring_loop n (i + 1) (next_led (zlen ring) angle_length led_index) lit angle_length color bg_color ring
  end.

(** The LED at an angle, and how many make an angle. *)
Definition first_led (start_angle : Z) : Z :=
  let led_index := INDEX_RING_ZERO bd - NUM_RING_LEDS bd * start_angle ÷ FULL_RING_DEGREES in
  if led_index <? 0 then led_index + NUM_RING_LEDS bd else led_index.
Definition lit_leds (angle_length : Z) : Z := NUM_RING_LEDS bd * Z.abs angle_length ÷ FULL_RING_DEGREES.

Definition set_ring (color : led_rgb) (bg_color : option led_rgb) (start_angle angle_length : Z) (sem_free : bool) (l : user_leds)
  : user_leds :=
  if (FULL_RING_DEGREES <=? start_angle) || (FULL_RING_DEGREES <? angle_length) || (angle_length <? - FULL_RING_DEGREES) then l
  else if sem_free then
    UserLeds (center_leds l)
      (ring_loop (length (ring_leds l)) 0 (first_led start_angle) (lit_leds angle_length) angle_length color bg_color (ring_leds l))
  else l.

(** A pattern is a list of drawings. *)
Inductive drawing :=
| Center (color : led_rgb)
| Ring (color : led_rgb) (bg_color : option led_rgb) (start_angle angle_length : Z)
| All (rgb : nat -> led_rgb -> led_rgb).

Definition draw (sem_free : bool) (l : user_leds) (d : drawing) : user_leds :=
  match d with
  | Center c => set_center c sem_free l
  | Ring c bg start_angle angle_length => set_ring c bg start_angle angle_length sem_free l
  | All f => of_all (imap f (all l))
  end.

(** *** Brightness *)

Definition sine_at (i : Z) : option spec_float := if 0 <=? i then SINE_LUT !! Z.to_nat i else None.

(** From 0 to 1, then from 1 to 0. *)
Definition scaler_at (pulsing_index : Z) (pulsing_scale : spec_float) : option spec_float :=
  x ← (if pulsing_index <? SINE_TABLE_LENGTH then sine_at pulsing_index
       else sine_at (SINE_TABLE_LENGTH - 1 - (pulsing_index - SINE_TABLE_LENGTH)));
  Some (fmul x pulsing_scale).

(** Conversion of a floating-point value to [uint8_t]: undefined outside its range. *)
Definition to_u8 (z : option Z) : option Z := z ← z; if (0 <=? z) && (z <=? 255) then Some z else None.
Definition scaled (scaler : spec_float) (x : Z) : option Z := to_u8 (sf_round (fmul scaler (flt x 0))).
Definition scaled_color (scaler : spec_float) (c : led_rgb) : option led_rgb :=
  r' ← scaled scaler (r c); g' ← scaled scaler (g c); b' ← scaled scaler (b c); Some (Rgb (scratch c) r' g' b').

(** *** Patterns *)

Definition rainbow (intensity : Z) (rnd : nat -> Z) (i : nat) (c : led_rgb) : led_rgb :=
  let shades := if SHADES_PER_COLOR <? intensity then SHADES_PER_COLOR else intensity in
  let shade k := u8 (u32 (rnd (3 * i + k)%nat) mod shades * (intensity / shades)) in
  Rgb (scratch c) (shade 0%nat) (shade 1%nat) (shade 2%nat).

(** What a pattern draws, the time-out, and the progress with the index of the pulse. *)
Definition drawn := (list drawing * option Z * (Z * Z))%type.

Definition boot_animation (s : front) : option drawn :=
  let x := set s in
  scaler ← scaler_at (pulsing_index s) PULSING_SCALE_DEFAULT;
  let scaler := fsub scaler BOOT_ANIMATION_BRIGHTNESS_CUTOFF in
  let scaler := if SFltb scaler (flt 0 0) then flt 0 0 else scaler in
  let close := SFltb (fsub (fsub (flt 1 0) BOOT_ANIMATION_BRIGHTNESS_CUTOFF) BOOT_ANIMATION_TRANSITION_THRESHOLD) scaler in
  let push := match bd with Diamond => close && (boot_progress_current s <? boot_progress_target s) | Pearl => false end in
  let current := if push then boot_progress_target s else boot_progress_current s in
  let index := if push then 0 else pulsing_index s in
  let scaler := if push then flt 0 0 else scaler in
  color ← scaled_color scaler (global_color x);
  step_angle ← to_s32 (sf_trunc (SFopp BOOT_ANIMATION_STEP_ANGLE));
  let angle_progress := u32 (current * BOOT_PROGRESS_PERCENTAGE_STEP * FULL_RING_DEGREES) / 100 in
  let ops :=
    match bd with
    | Diamond =>
        Ring (global_color x) (Some RGB_OFF) 90 (s32 (- angle_progress)) ::
        (if current <? BOOT_PROGRESS_STEP_DONE
         then [Ring color None (u32 (90 - angle_progress + 360) mod 360) step_angle] else [])
    | Pearl => [Ring color (Some RGB_OFF) 0 360]
    end in
  Some (Center RGB_OFF :: ops, Some (global_pulsing_delay_time_ms x), (current, index)).

(** The switch of [front_leds_thread]; the inner [None] is its default, which goes back to wait. *)
Definition draw_pattern (rnd : nat -> Z) (s : front) : option (option drawn) :=
  let x := set s in
  let intensity := global_intensity x in
  let start := global_start_angle_degrees x in
  let len := global_angle_length_degrees x in
  let paint r' g' b' := Rgb (scratch (global_color x)) r' g' b' in
  let white := paint intensity intensity intensity in
  let progress := (boot_progress_current s, pulsing_index s) in
  let still ops := Some (Some (ops, None, progress)) in
  let pulse color scale (ops : led_rgb -> list drawing) :=
    scaler ← scaler_at (pulsing_index s) scale; color ← scaled_color scaler color;
    Some (Some (ops color, Some (global_pulsing_delay_time_ms x), progress)) in
  let ring c := Ring c (Some RGB_OFF) start len in
  let ring_off := Ring RGB_OFF None 0 FULL_RING_DEGREES in
  match global_pattern x with
  | OFF => still [Center RGB_OFF; ring_off]
  | ALL_WHITE => still [Center white; ring white]
  | ALL_WHITE_NO_CENTER => still [Center RGB_OFF; ring white]
  | ALL_WHITE_ONLY_CENTER => still [Center white; ring_off]
  | RANDOM_RAINBOW =>
      if 0 <? intensity then Some (Some ([All (rainbow intensity rnd)], Some 50, progress)) else still [All (fun _ _ => RGB_OFF)]
  | ALL_RED => still [ring (paint intensity 0 0); Center (paint intensity 0 0)]
  | ALL_GREEN => still [ring (paint 0 intensity 0); Center (paint 0 intensity 0)]
  | ALL_BLUE => still [ring (paint 0 0 intensity); Center (paint 0 0 intensity)]
  | PULSING_WHITE =>
      pulse (paint MINIMUM_WHITE_BRIGHTNESS MINIMUM_WHITE_BRIGHTNESS MINIMUM_WHITE_BRIGHTNESS) PULSING_SCALE_DEFAULT
        (fun c => [ring c; Center RGB_OFF])
  | PULSING_RGB => pulse (global_color x) (global_pulsing_scale x) (fun c => [ring c; Center RGB_OFF])
  | PULSING_RGB_ONLY_CENTER => pulse (global_color x) PULSING_SCALE_DEFAULT (fun c => [Center c; ring_off])
  | RGB => still [ring (global_color x); Center RGB_OFF]
  | RGB_ONLY_CENTER => still [Center (global_color x); ring_off]
  | BOOT_ANIMATION => d ← boot_animation s; Some (Some d)
  | OtherPattern _ => Some None
  end.

(** ** The thread *)

(** From the semaphore to the transmission: nothing happens while neither the semaphore is
    given nor a time-out is set.  [None]: the arithmetic is not defined.  The pulse
    goes by steps of two. *)
Definition next_index (i : Z) : Z := (i + 2) mod (SINE_TABLE_LENGTH * 2).

(** After the drawing: the semaphore is not given back when [final_done] is set. *)
Definition send_or_wait (wait_until : option Z) (s : front) : front :=
  let s := with_progress (boot_progress_current s) (boot_progress_target s) (next_index (pulsing_index s)) s in
  if negb (leds_update_sem s =? 1) then with_thread (Waiting wait_until) s
  else
    let s := with_sems (sem_leds_refresh s) 0 s in
    with_thread (if final_done s then Waiting wait_until else Sending wait_until) s.

Definition front_wake (rnd : nat -> Z) (s : front) : option front :=
  match thread s with
  | Sending _ => Some s
  | Waiting wait_until =>
      if (sem_leds_refresh s =? 0) && bool_decide (wait_until = None) then Some s
      else
        let s := with_sems 0 (leds_update_sem s) s in
        if use_sequence s then Some (send_or_wait None s)
        else
          d ← draw_pattern rnd s;
          match d with
          | None => Some (with_thread (Waiting None) s)
          | Some (ops, wait_until, (current, index)) =>
              let s := with_progress current (boot_progress_target s) index s in
              let free := leds_update_sem s =? 1 in
              Some (send_or_wait wait_until (with_leds (fold_left (draw free) ops (leds s)) (leds_dirty s) s))
          end
  end.

(** [led_strip_update_rgb]: the frame is transmitted, and the driver may have written to the buffer. *)
Definition update_strip (s : front) : front :=
  let a := all (leds s) in with_leds (of_all (strip_writes a)) ALL_LEDS_DIRTY (transmit a s).

Definition front_sent (s : front) : front :=
  match thread s with
  | Waiting _ => s
  | Sending wait_until => with_thread (Waiting wait_until) (with_sems (sem_leds_refresh s) 1 (update_strip s))
  end.

(** ** Calls *)

Definition front_leds_boot_progress_set (step : Z) (s : front) : Z * front :=
  match bd with
  | Pearl => (RET_SUCCESS, s)
  | Diamond =>
      if BOOT_PROGRESS_STEP_DONE <? step then (RET_ERROR_INVALID_PARAM, s)
      else if step <=? boot_progress_target s then (RET_SUCCESS, s)
      else
        let index := if (boot_progress_current s =? BOOT_PROGRESS_STEP_UNKNOWN) && (BOOT_PROGRESS_STEP_UNKNOWN <? step)
                     then 0 else pulsing_index s in
        let current := if step =? BOOT_PROGRESS_STEP_DONE then step else boot_progress_current s in
        (RET_SUCCESS, with_progress current step index s)
  end.

(** [lroundf(x) > 255]: undefined for a value that is no [long]. *)
Definition over_255 (x : spec_float) : option bool := n ← to_s32 (sf_round x); Some (255 <? n).

Definition pulsing_rgb_check_range (color : option RgbColor) (pulsing_scale : spec_float) : option Z :=
  match color with
  | None => Some RET_ERROR_INVALID_PARAM
  | Some c =>
      let over x := over_255 (fmul (flt x 0) (fadd pulsing_scale (flt 1 0))) in
      o ← over (red c);
      o ← (if (o : bool) then Some true else over (green c));
      o ← (if (o : bool) then Some true else over (blue c));
      Some (if (o : bool) then RET_ERROR_INVALID_PARAM else RET_SUCCESS)
  end.

Definition previous_settings_are_identical (p : pattern) (start_angle angle_length : Z) (color : option RgbColor)
    (pulsing_period_ms : Z) (pulsing_scale : spec_float) (x : settings) : bool :=
  SFeqb (global_pulsing_scale x) pulsing_scale && (global_pulsing_period_ms x =? pulsing_period_ms)
  && (global_pulsing_delay_time_ms x =? global_pulsing_period_ms x / SINE_TABLE_LENGTH)
  && bool_decide (global_pattern x = p) && (global_start_angle_degrees x =? start_angle)
  && (global_angle_length_degrees x =? angle_length)
  && match color with
     | None => true
     | Some c => (r (global_color x) =? red c) && (g (global_color x) =? green c) && (b (global_color x) =? blue c)
                 && (negb (has_scratch bd) || (scratch (global_color x) =? dimming c))
     end.

Definition led_of_color (c : RgbColor) : led_rgb :=
  Rgb (if has_scratch bd then if negb (dimming c =? 0) then u8 (dimming c) else RGB_BRIGHTNESS_MAX else 0)
      (u8 (red c)) (u8 (green c)) (u8 (blue c)).

Definition update_parameters (p : pattern) (start_angle angle_length : Z) (color : option RgbColor)
    (pulsing_period_ms : Z) (pulsing_scale : spec_float) (s : front) : front :=
  let period := if pulsing_period_ms =? 0 then INITIAL_PULSING_PERIOD_MS else pulsing_period_ms in
  let scale := if SFeqb pulsing_scale (flt 0 0) then PULSING_SCALE_DEFAULT else pulsing_scale in
  let color := match color with Some c => led_of_color c | None => global_color (set s) end in
  with_sequence false
    (with_set (Settings p start_angle angle_length (global_intensity (set s)) color scale period (period / SINE_TABLE_LENGTH)) s).

(** Dimming out of its bounds is the maximum. *)
Definition full_dimming (c : RgbColor) : RgbColor :=
  if has_scratch bd && ((dimming c =? 0) || (RGB_BRIGHTNESS_MAX <? dimming c))
  then Color (red c) (green c) (blue c) RGB_BRIGHTNESS_MAX else c.

Definition front_leds_set_pattern (p : pattern) (start_angle angle_length : Z) (color : option RgbColor)
    (pulsing_period_ms : Z) (pulsing_scale : spec_float) (s : front) : option (Z * front) :=
  ret ← (if decide (p = PULSING_RGB) then pulsing_rgb_check_range color pulsing_scale else Some RET_SUCCESS);
  if negb (ret =? RET_SUCCESS) then Some (RET_ERROR_INVALID_PARAM, s)
  else
    let color := full_dimming <$> color in
    Some (RET_SUCCESS,
          if previous_settings_are_identical p start_angle angle_length color pulsing_period_ms pulsing_scale (set s) then s
          else give_refresh (update_parameters p start_angle angle_length color pulsing_period_ms pulsing_scale s)).

(** The four functions that set a sequence differ in the part and the format. *)
Inductive part := CenterPart | RingPart.

Definition part_leds (p : part) (l : user_leds) : list led_rgb := match p with CenterPart => center_leds l | RingPart => ring_leds l end.
Definition put_part (p : part) (x : list led_rgb) (l : user_leds) : user_leds :=
  match p with CenterPart => UserLeds x (ring_leds l) | RingPart => UserLeds (center_leds l) x end.
Definition part_dirty (p : part) : Z := match p with CenterPart => CENTER_LEDS_DIRTY | RingPart => RING_LEDS_DIRTY end.

(** A diamond still starting takes the sequence and drops it. *)
Definition front_leds_set_leds_sequence (p : part) (led_format : Z) (bytes : bytes) (s : front) : Z * front :=
  if (match bd with Diamond => negb (boot_progress_current s =? BOOT_PROGRESS_STEP_DONE) | Pearl => false end) then (RET_SUCCESS, s)
  else
    let '(ret, buffer) := rgb_leds_set_leds_sequence bd bytes led_format (part_leds p (leds s)) (leds_update_sem s =? 1) in
    let s := with_leds (put_part p buffer (leds s)) (leds_dirty s) s in
    if (ret =? RET_SUCCESS) || (ret =? RET_ERROR_ALREADY_INITIALIZED) then
      let s := with_leds (leds s) (Z.land (leds_dirty s) (Z.lnot (part_dirty p))) (with_sequence true s) in
      (RET_SUCCESS, if leds_dirty s =? 0 then give_refresh s else s)
    else (ret, s).

Definition front_leds_set_brightness (brightness : Z) (s : front) : front :=
  let x := set s in
  give_refresh (with_set (Settings (global_pattern x) (global_start_angle_degrees x) (global_angle_length_degrees x)
    (Z.min 255 brightness) (global_color x) (global_pulsing_scale x) (global_pulsing_period_ms x) (global_pulsing_delay_time_ms x)) s).

(** When the semaphore is not free within 50 ms nothing happens. *)
Definition front_leds_turn_off_blocking (s : front) : front :=
  if leds_update_sem s =? 1 then
    let dark := of_all (replicate (length (all (leds s))) RGB_OFF) in
    update_strip (update_strip (with_leds dark (leds_dirty s) (with_final s)))
  else s.

(** Diamond only: true unless the centre is known to be dark. *)
Definition front_leds_is_shroud_on (s : front) : bool :=
  if leds_update_sem s =? 1 then
    existsb (fun c => negb (scratch c =? 0) && (negb (r c =? 0) || negb (g c =? 0) || negb (b c =? 0))) (center_leds (leds s))
  else true.

(** ** Start *)

Definition front_boot : front :=
  Front (Settings (match bd with Diamond => BOOT_ANIMATION | Pearl => OFF end) 0 FULL_RING_DEGREES 25 (RGB_WHITE bd)
           PULSING_SCALE_DEFAULT INITIAL_PULSING_PERIOD_MS (INITIAL_PULSING_PERIOD_MS / SINE_TABLE_LENGTH))
    BOOT_PROGRESS_STEP_UNKNOWN BOOT_PROGRESS_STEP_UNKNOWN 0 false false
    (UserLeds (fill (NUM_CENTER_LEDS bd) RGB_OFF) (fill (NUM_RING_LEDS bd) RGB_OFF)) 0 1 1 (Waiting None) [].

(** *** Self-test of the Diamond: the test lines are read after each frame *)

Record strip_reading := Reading { update_ret : Z; dout_low : Z; dout_high : Z; cout_low : Z; cout_high : Z }.

Definition TEST_COUNT_PASS_THRESHOLD : Z := 2.

Fixpoint self_test_loop (n : nat) (i : nat) (readings : nat -> strip_reading) (dout_passed cout_passed : Z) (s : front) : Z * front :=
  match n with
  | O => (RET_ERROR_INVALID_STATE, s)
  | S n =>
      if negb (leds_update_sem s =? 1) then self_test_loop n (S i) readings dout_passed cout_passed s
      else
        let x := readings i in
        let dark := replicate (length (all (leds s))) RGB_OFF in
        let s := with_leds (of_all (strip_writes dark)) (leds_dirty s) (transmit dark s) in
        if negb (update_ret x =? 0) then (RET_ERROR_INVALID_STATE, s)
        else
          let seen low high passed :=
            if (passed <? TEST_COUNT_PASS_THRESHOLD) && (low =? 0) && (high =? 1) then passed + 1 else passed in
          let dout_passed := seen (dout_low x) (dout_high x) dout_passed in
          let cout_passed := seen (cout_low x) (cout_high x) cout_passed in
          if (TEST_COUNT_PASS_THRESHOLD <=? cout_passed) && (TEST_COUNT_PASS_THRESHOLD <=? dout_passed) then (RET_SUCCESS, s)
          else self_test_loop n (S i) readings dout_passed cout_passed s
  end.

Definition front_leds_self_test (readings : nat -> strip_reading) (s : front) : Z * front :=
  match bd with Pearl => (0, s) | Diamond => self_test_loop 100 0 readings 0 0 s end.

Definition front_leds_initial_state (s : front) : front :=
  let free := leds_update_sem s =? 1 in
  let s := with_leds (set_ring RGB_OFF None 0 FULL_RING_DEGREES free (set_center RGB_OFF free (leds s))) (leds_dirty s) s in
  if free then update_strip s else s.
End Front.
