(* ===== verification/FrontFacts.v ===== *)
(** The LEDs of the front unit: what is drawn on the ring, what of the sequences
    received reaches the strip, what stays dark, and that the arithmetic of the
    animations is always defined. *)

From Stdlib Require Import SpecFloat.
From S2P Require Import Prelude Floats RgbLeds FrontLeds.

(** ** The ring *)

(** The LED [p] counted from [first] in the direction of an angle. *)
Definition ring_rank (bd : board) (angle_length first p : Z) : Z :=
  let n := NUM_RING_LEDS bd in
  if Bool.eqb (0 <=? angle_length) (match bd with Pearl => true | Diamond => false end)
  then if first <=? p then p - first else p - first + n
  else if p <=? first then first - p else first - p + n.

Section Ring.
Context (bd : board).
Let n := NUM_RING_LEDS bd.

Lemma next_led_rank len k p : 0 <= k < n -> 0 <= p < n ->
  0 <= next_led bd n len k < n /\
  ring_rank bd len (next_led bd n len k) p = if p =? k then n - 1 else ring_rank bd len k p - 1.
Proof.
  intros Hk Hp. unfold next_led, ring_rank. fold n.
  assert (E : (k + 1) mod n = if k =? n - 1 then 0 else k + 1).
  { destruct (Z.eqb_spec k (n - 1)) as [-> |]; [replace (n - 1 + 1) with n by lia; apply Z.mod_same; lia |]. apply Z.mod_small; lia. }
  rewrite E. destruct bd, (0 <=? len); cbn [Bool.eqb]; bdestruct_all; split; lia.
Qed.

Lemma ring_rank_range len k p : 0 <= k < n -> 0 <= p < n -> 0 <= ring_rank bd len k p < n /\ (ring_rank bd len k p = 0 <-> p = k).
Proof. intros Hk Hp. unfold ring_rank. fold n. destruct (Bool.eqb _ _); bdestruct_all; split; lia. Qed.

Definition background (bg : option led_rgb) (old : led_rgb) : led_rgb := default old bg.

Lemma nth_insert (l : list led_rgb) i p c : 0 <= i < zlen l -> 0 <= p -> nth_led (<[Z.to_nat i := c]> l) p = if p =? i then c else nth_led l p.
Proof.
  intros Hi Hp. unfold nth_led, zlen in *.
  destruct (Z.eqb_spec p i) as [-> |].
  - apply nth_lookup_Some. apply list_lookup_insert_eq. lia.
  - rewrite !nth_lookup. by rewrite list_lookup_insert_ne by lia.
Qed.

Lemma ring_loop_exact color bg len lit p : 0 <= p < n -> forall k i li ring,
  zlen ring = n -> 0 <= li < n -> Z.of_nat k <= n ->
  zlen (ring_loop bd k i li lit len color bg ring) = n /\
  nth_led (ring_loop bd k i li lit len color bg ring) p =
  (if ring_rank bd len li p <? Z.of_nat k
   then if i + ring_rank bd len li p <? lit then color else background bg (nth_led ring p) else nth_led ring p).
Proof.
  intros Hp. induction k as [|k IH]; intros i li ring Hr Hli Hk; cbn [ring_loop].
  - split; [done |]. destruct (ring_rank_range len li p Hli Hp) as [? _]. by bfalse (ring_rank bd len li p <? Z.of_nat 0).
  - set (new := if i <? lit then Some color else bg).
    assert (E : (if i <? lit then <[Z.to_nat li := color]> ring
                 else match bg with Some b => <[Z.to_nat li := b]> ring | None => ring end) =
                match new with Some c => <[Z.to_nat li := c]> ring | None => ring end) by (subst new; by destruct (i <? lit), bg).
    rewrite E. set (ring' := match new with Some c => <[Z.to_nat li := c]> ring | None => ring end).
    assert (Hr' : zlen ring' = n) by (subst ring'; destruct new; unfold zlen in *; rewrite ?length_insert; done).
    assert (Ep : nth_led ring' p = if p =? li then background new (nth_led ring p) else nth_led ring p).
    { subst ring'. destruct new; cbn [background default]; [apply nth_insert; lia | by destruct (p =? li)]. }
    rewrite Hr'. destruct (next_led_rank len li p Hli Hp) as [Hn En]. destruct (ring_rank_range len li p Hli Hp) as [Hd Hz].
    destruct (IH (i + 1) (next_led bd n len li) ring' Hr' Hn ltac:(lia)) as [El ->]. split; [exact El |].
    rewrite En, Ep. destruct (Z.eqb_spec p li) as [e |]; cbn [background default].
    + apply Hz in e. rewrite e. bfalse (n - 1 <? Z.of_nat k). btrue (0 <? Z.of_nat (S k)). subst new.
      rewrite Z.add_0_r. by destruct (i <? lit).
    + assert (ring_rank bd len li p <> 0) by tauto.
      replace (i + 1 + (ring_rank bd len li p - 1)) with (i + ring_rank bd len li p) by lia.
      by replace (ring_rank bd len li p - 1 <? Z.of_nat k) with (ring_rank bd len li p <? Z.of_nat (S k))
        by (apply eq_true_iff_eq; rewrite !Z.ltb_lt; lia).
Qed.

Lemma first_led_range a : 0 <= a < 360 -> 0 <= first_led bd a < n.
Proof.
  intros Ha. subst n. unfold first_led, FULL_RING_DEGREES. rewrite Z.quot_div_nonneg by (unfold NUM_RING_LEDS, NUM_LEDS, NUM_CENTER_LEDS; destruct bd; lia).
  unfold INDEX_RING_ZERO. change (NUM_RING_LEDS Pearl * 3 / 4) with 168. unfold NUM_RING_LEDS, NUM_LEDS, NUM_CENTER_LEDS. destruct bd;
    change (233 - 9) with 224; change (118 - 64) with 54; bdestruct_all; zify_div.
Qed.

Lemma lit_leds_range len : -360 <= len <= 360 -> 0 <= lit_leds bd len <= n.
Proof.
  intros Hl. subst n. unfold lit_leds, FULL_RING_DEGREES. rewrite Z.quot_div_nonneg by (unfold NUM_RING_LEDS, NUM_LEDS, NUM_CENTER_LEDS; destruct bd; lia).
  unfold NUM_RING_LEDS, NUM_LEDS, NUM_CENTER_LEDS. assert (0 <= Z.abs len <= 360) by lia.
  generalize dependent (Z.abs len). intros. destruct bd; change (233 - 9) with 224; change (118 - 64) with 54; zify_div.
Qed.
End Ring.

(** An arc on the ring.  Counted from the LED at the start angle, in the direction of
    the sign of the length, the first LEDs, as many as make the angle (rounded
    down), get the colour; the others get the background or keep what they
    had, and the centre is untouched.  No index leaves the array. *)
Theorem arc_painted bd color bg start_angle angle_length l p :
  zlen (ring_leds l) = NUM_RING_LEDS bd -> 0 <= start_angle < 360 -> -360 <= angle_length <= 360 ->
  0 <= p < NUM_RING_LEDS bd ->
  let l' := set_ring bd color bg start_angle angle_length true l in
  let first := first_led bd start_angle in
  let count := NUM_RING_LEDS bd * Z.abs angle_length / 360 in
  0 <= first < NUM_RING_LEDS bd /\ 0 <= count <= NUM_RING_LEDS bd /\
  center_leds l' = center_leds l /\ zlen (ring_leds l') = NUM_RING_LEDS bd /\
  nth_led (ring_leds l') p =
    if ring_rank bd angle_length first p <? count then color else default (nth_led (ring_leds l) p) bg.
Proof.
  intros Hl Hs Ha Hp. cbv zeta. pose proof (first_led_range bd start_angle Hs) as Hf. pose proof (lit_leds_range bd angle_length Ha) as Hc.
  assert (Ec : lit_leds bd angle_length = NUM_RING_LEDS bd * Z.abs angle_length / 360)
    by (unfold lit_leds; apply Z.quot_div_nonneg; unfold FULL_RING_DEGREES, NUM_RING_LEDS, NUM_LEDS, NUM_CENTER_LEDS; destruct bd; lia).
  rewrite <- Ec. split; [done |]. split; [done |]. unfold set_ring, FULL_RING_DEGREES.
  bfalse (360 <=? start_angle). bfalse (360 <? angle_length). bfalse (angle_length <? - (360)). cbn [orb center_leds ring_leds].
  destruct (ring_loop_exact bd color bg angle_length (lit_leds bd angle_length) p Hp (length (ring_leds l)) 0
              (first_led bd start_angle) (ring_leds l) Hl Hf) as [-> ->]; [unfold zlen in Hl; lia |].
  split; [done |]. split; [done |]. destruct (ring_rank_range bd angle_length _ p Hf Hp) as [? _]. unfold zlen in Hl.
  btrue (ring_rank bd angle_length (first_led bd start_angle) p <? Z.of_nat (length (ring_leds l))).
  done.
Qed.

(** The arc of the second boot step, from the top of the ring clockwise. *)
Lemma arc_painted_witness :
  nth_led (ring_leds (set_ring Diamond (Rgb 31 1 2 3) (Some RGB_OFF) 90 (-68) true (leds (front_boot Diamond)))) 30 = Rgb 31 1 2 3.
Proof.
  destruct (arc_painted Diamond (Rgb 31 1 2 3) (Some RGB_OFF) 90 (-68) (leds (front_boot Diamond)) 30) as (_ & _ & _ & _ & E);
    [reflexivity | lia | lia | vm_compute; split; [discriminate | reflexivity] |].
  rewrite E. reflexivity.
Defined.

(** ** Runs *)

Inductive front_event :=
| EPattern (p : pattern) (start_angle angle_length : Z) (color : option RgbColor) (period : Z) (scale : spec_float)
| ESequence (p : part) (led_format : Z) (input : bytes)
| EBrightness (brightness : Z)
| EBootProgress (step : Z)
| ETurnOff
| EWake (rnd : nat -> Z)
| ESent.

Section Runs.
Context (bd : board) (SINE_LUT : list spec_float) (strip_writes : list led_rgb -> list led_rgb).

Definition front_step (e : front_event) (s : front) : option front :=
  match e with
  | EPattern p a l c t x => snd <$> front_leds_set_pattern bd p a l c t x s
  | ESequence p f i => Some (front_leds_set_leds_sequence bd p f i s).2
  | EBrightness v => Some (front_leds_set_brightness v s)
  | EBootProgress step => Some (front_leds_boot_progress_set bd step s).2
  | ETurnOff => Some (front_leds_turn_off_blocking bd strip_writes s)
  | EWake rnd => front_wake bd SINE_LUT rnd s
  | ESent => Some (front_sent bd strip_writes s)
  end.

Fixpoint front_run (l : list front_event) (s : front) : option front :=
  match l with [] => Some s | e :: l => s ← front_step e s; front_run l s end.

(** An invariant of the steps is one of the runs. *)
Lemma front_run_invariant (ok : front_event -> Prop) (I : front -> Prop) :
  (forall e s, ok e -> I s -> exists s', front_step e s = Some s' /\ I s') ->
  forall l s, Forall ok l -> I s -> exists s', front_run l s = Some s' /\ I s'.
Proof.
  intros Hs l. induction l as [|e l IH]; intros s Hl Hi; [by exists s |]. apply Forall_cons in Hl as [He Hl].
  destruct (Hs e s He Hi) as (s' & E & Hi'). cbn. rewrite E. by apply IH.
Qed.
End Runs.

(** ** Sequences

    The reference: the last sequence received for each part since the last frame;
    when both are there a frame is due, and it is refused to change them while it
    is transmitted. *)

Record show := Show {
  wanted : part -> option (list led_rgb);
  due : bool;
  sending : bool;
  shown : list (list led_rgb * list led_rgb);
}.

Definition show_start : show := Show (fun _ => None) false false [].

#[export] Instance part_eq_dec : EqDecision part.
Proof. solve_decision. Defined.

Definition part_size (bd : board) (p : part) : Z := match p with CenterPart => NUM_CENTER_LEDS bd | RingPart => NUM_RING_LEDS bd end.

(** The colours of a sequence on a part, if the bytes are whole colours. *)
Definition sequence_leds (bd : board) (p : part) (fmt : Z) (input : bytes) : option (list led_rgb) :=
  if bool_decide (fmt = LED_FORMAT_RGB \/ fmt = LED_FORMAT_ARGB) && (zlen input mod fmt =? 0)
  then Some (on_strip (Z.to_nat (part_size bd p)) (parse_leds bd fmt input)) else None.

Definition show_step (bd : board) (e : front_event) (w : show) : show :=
  match e with
  | ESequence p fmt input =>
      if sending w then w
      else match sequence_leds bd p fmt input with
           | None => w
           | Some l =>
               let wanted q := if decide (q = p) then Some l else wanted w q in
               Show wanted (due w || (bool_decide (is_Some (wanted CenterPart)) && bool_decide (is_Some (wanted RingPart)))) false (shown w)
           end
  | EWake _ => if due w then Show (wanted w) false true (shown w) else w
  | ESent =>
      if sending w
      then Show (fun _ => None) (due w) false
             (shown w ++ [(default [] (wanted w CenterPart), default [] (wanted w RingPart))])
      else w
  | _ => w
  end.

Definition show_run (bd : board) (l : list front_event) (w : show) : show := fold_left (fun w e => show_step bd e w) l w.

Definition sequence_event (e : front_event) : Prop :=
  match e with ESequence _ _ _ | EBootProgress _ | EWake _ | ESent => True | _ => False end.

Definition parts_sized (bd : board) (l : user_leds) : Prop := forall p, zlen (part_leds p l) = part_size bd p.

(** Started, idle, the last frame sent. *)
Definition front_idle (bd : board) (s : front) : Prop :=
  (bd = Diamond -> boot_progress_current s = BOOT_PROGRESS_STEP_DONE) /\ final_done s = false /\ parts_sized bd (leds s) /\
  leds_dirty s = ALL_LEDS_DIRTY /\ sem_leds_refresh s = 0 /\ leds_update_sem s = 1 /\ thread s = Waiting None.

Section Sequences.
Context (bd : board) (SINE_LUT : list spec_float) (strip_writes : list led_rgb -> list led_rgb)
  (writes_length : forall a, zlen (strip_writes a) = zlen a).

Definition dirty_of (w : show) : Z :=
  (if wanted w RingPart is Some _ then 0 else RING_LEDS_DIRTY) + (if wanted w CenterPart is Some _ then 0 else CENTER_LEDS_DIRTY).

Record shows (f0 : list (list led_rgb)) (s : front) (w : show) : Prop := {
  sh_started : bd = Diamond -> boot_progress_current s = BOOT_PROGRESS_STEP_DONE;
  sh_final : final_done s = false;
  sh_sized : parts_sized bd (leds s);
  sh_dirty : leds_dirty s = dirty_of w;
  sh_parts : forall p l, wanted w p = Some l -> part_leds p (leds s) = l;
  sh_mode : forall p, is_Some (wanted w p) -> use_sequence s = true;
  sh_due : sem_leds_refresh s = zbool (due w);
  sh_both : due w = true \/ sending w = true -> forall p, is_Some (wanted w p);
  sh_one : due w = true -> sending w = false;
  sh_sem : leds_update_sem s = if sending w then 0 else 1;
  sh_thread : thread s = if sending w then Sending None else Waiting None;
  sh_frames : frames s = f0 ++ ((fun x => all bd (UserLeds x.1 x.2)) <$> shown w);
}.

Lemma part_sizes_pos p : 0 < part_size bd p.
Proof. by destruct bd, p. Qed.

Lemma put_part_sized p x l : parts_sized bd l -> zlen x = part_size bd p -> parts_sized bd (put_part p x l).
Proof. intros Hl Hx q. destruct p, q; cbn; first [exact Hx | exact (Hl CenterPart) | exact (Hl RingPart)]. Qed.

Lemma of_all_sized a : zlen a = NUM_LEDS bd -> parts_sized bd (of_all bd a).
Proof.
  intros Ha p. unfold of_all, zlen in *.
  destruct bd, p; cbn [part_leds center_leds ring_leds part_size]; rewrite ?length_take, ?length_drop;
    unfold NUM_RING_LEDS, NUM_LEDS, NUM_CENTER_LEDS in *; lia.
Qed.

Lemma all_length l : parts_sized bd l -> zlen (all bd l) = NUM_LEDS bd.
Proof.
  intros Hl. pose proof (Hl CenterPart). pose proof (Hl RingPart). unfold all. cbn in *. unfold NUM_RING_LEDS in *.
  destruct bd; rewrite zlen_app; lia.
Qed.

Lemma clear_dirty w p l : Z.land (dirty_of w) (Z.lnot (part_dirty p)) =
  dirty_of (Show (fun q => if decide (q = p) then Some l else wanted w q) (due w) (sending w) (shown w)).
Proof. unfold dirty_of. cbn [wanted]. destruct p; cbn; by destruct (wanted w RingPart), (wanted w CenterPart). Qed.

(** The code of a sequence that is stored is not looked at but for an error. *)
Lemma sequence_taken p fmt input buf free :
  match sequence_leds bd p fmt input with
  | Some l => zlen buf = part_size bd p -> free = true ->
      exists ret, rgb_leds_set_leds_sequence bd input fmt buf free = (ret, l) /\ (ret =? RET_SUCCESS) || (ret =? RET_ERROR_ALREADY_INITIALIZED) = true
  | None => rgb_leds_set_leds_sequence bd input fmt buf free = (RET_ERROR_INVALID_PARAM, buf)
  end /\
  (free = false -> exists ret, rgb_leds_set_leds_sequence bd input fmt buf free = (ret, buf) /\ (ret =? RET_SUCCESS) || (ret =? RET_ERROR_ALREADY_INITIALIZED) = false).
Proof.
  rewrite sequence_stored. unfold sequence_leds.
  destruct (bool_decide (fmt = _ \/ fmt = _)), (zlen input mod fmt =? 0); cbn [negb orb andb]; split; try done; try (by intros ->; eexists).
  intros Hb ->. cbn [negb]. replace (length buf) with (Z.to_nat (part_size bd p)) by (unfold zlen in Hb; lia).
  eexists. split; [done |]. by case_bool_decide.
Qed.

Lemma put_part_same p l : put_part p (part_leds p l) l = l.
Proof. by destruct p, l. Qed.

Lemma sequence_leds_length p fmt input l : sequence_leds bd p fmt input = Some l -> zlen l = part_size bd p.
Proof.
  unfold sequence_leds. destruct (_ && _); [| done]. intros [= <-]. unfold zlen. rewrite on_strip_length.
  pose proof (part_sizes_pos p). lia.
Qed.

Lemma dirty_zero w : (dirty_of w =? 0) = bool_decide (is_Some (wanted w CenterPart)) && bool_decide (is_Some (wanted w RingPart)).
Proof.
  unfold dirty_of. destruct (wanted w RingPart), (wanted w CenterPart); cbn; repeat case_bool_decide; try done;
    exfalso; eauto using is_Some_None.
Qed.

Lemma with_leds_same s : with_leds (leds s) (leds_dirty s) s = s.
Proof. by destruct s. Qed.

Lemma started_gate s : (bd = Diamond -> boot_progress_current s = BOOT_PROGRESS_STEP_DONE) ->
  match bd with Diamond => negb (boot_progress_current s =? BOOT_PROGRESS_STEP_DONE) | Pearl => false end = false.
Proof. intros H. destruct bd; [done |]. by rewrite H. Qed.

Lemma sequence_shows f0 p fmt input s w : shows f0 s w ->
  shows f0 (front_leds_set_leds_sequence bd p fmt input s).2 (show_step bd (ESequence p fmt input) w).
Proof.
  intros R. unfold front_leds_set_leds_sequence, show_step. rewrite (started_gate s) by apply R.
  destruct (sequence_taken p fmt input (part_leds p (leds s)) (leds_update_sem s =? 1)) as [Ht Hb].
  rewrite (sh_sem _ _ _ R) in *. destruct (sending w) eqn:Es.
  - destruct (Hb eq_refl) as (ret & -> & ->). cbn [fst snd]. by rewrite put_part_same, with_leds_same.
  - destruct (sequence_leds bd p fmt input) as [l |] eqn:El.
    2: { rewrite Ht. cbn [fst snd Z.eqb RET_ERROR_INVALID_PARAM orb]. by rewrite put_part_same, with_leds_same. }
    assert (Hl : zlen l = part_size bd p).
    { eapply sequence_leds_length. exact El. }
    destruct (Ht (sh_sized _ _ _ R p) eq_refl) as (ret & -> & ->). cbn [snd].
    set (w' := fun q => if decide (q = p) then Some l else wanted w q).
    assert (Ed : Z.land (leds_dirty s) (Z.lnot (part_dirty p)) = dirty_of (Show w' (due w) (sending w) (shown w)))
      by (rewrite (sh_dirty _ _ _ R); apply clear_dirty).
    assert (Hp : forall q k, w' q = Some k -> part_leds q (put_part p l (leds s)) = k).
    { intros q k. subst w'. cbn. destruct (decide (q = p)) as [-> |]; [intros [= <-]; by destruct p |].
      intros E. apply (sh_parts _ _ _ R) in E. by destruct p, q. }
    cbn [leds_dirty with_leds with_sequence leds]. rewrite Ed, dirty_zero. cbn [wanted].
    set (both := bool_decide (is_Some (w' CenterPart)) && bool_decide (is_Some (w' RingPart))).
    assert (Hw : due w = true -> both = true).
    { intros Hd. subst both w'. cbn. pose proof (sh_both _ _ _ R (or_introl Hd)) as Hq.
      rewrite andb_true_iff, !bool_decide_eq_true. split; case_decide; eauto. }
    assert (Hboth : both = true -> forall q, is_Some (w' q)).
    { subst both. rewrite andb_true_iff, !bool_decide_eq_true. by intros [? ?] []. }
    pose proof (put_part_sized p l (leds s) (sh_sized _ _ _ R) Hl).
    match goal with |- shows f0 ?x _ => change (shows f0 x (Show w' (due w || both) false (shown w))) end.
    clearbody both. destruct R as [R1 R2 R3 R4 R5 R6 R7 R8 R9 R10 R11 R12]. rewrite Es in *.
    destruct both; [rewrite orb_true_r in * | rewrite orb_false_r in *]; split; cbn; try done; auto.
    + intros [Hd | Hd]; [| done]. exfalso. by specialize (Hw Hd).
Qed.

Lemma wake_shows f0 rnd s w : shows f0 s w ->
  exists s', front_wake bd SINE_LUT rnd s = Some s' /\ shows f0 s' (show_step bd (EWake rnd) w).
Proof.
  intros R. unfold front_wake, show_step. rewrite (sh_thread _ _ _ R), (sh_due _ _ _ R).
  destruct (due w) eqn:Ed, (sending w) eqn:Es.
  - by rewrite (sh_one _ _ _ R Ed) in Es.
  - cbn [zbool Z.eqb andb use_sequence with_sems]. rewrite (sh_mode _ _ _ R CenterPart) by (apply (sh_both _ _ _ R); auto).
    eexists. split; [done |]. unfold send_or_wait. cbn [leds_update_sem with_progress with_sems final_done].
    rewrite (sh_sem _ _ _ R), Es, (sh_final _ _ _ R). cbn [Z.eqb negb]. destruct R. split; cbn; auto.
  - eexists. split; [done |]. exact R.
  - cbn. eauto.
Qed.

Lemma sent_shows f0 s w : shows f0 s w -> shows f0 (front_sent bd strip_writes s) (show_step bd ESent w).
Proof.
  intros R. unfold front_sent, show_step. rewrite (sh_thread _ _ _ R). destruct (sending w) eqn:Es; [| done].
  assert (Ed : due w = false) by (destruct (due w) eqn:E; [by rewrite (sh_one _ _ _ R E) in Es | done]).
  assert (Ef : all bd (leds s) = all bd (UserLeds (default [] (wanted w CenterPart)) (default [] (wanted w RingPart)))).
  { destruct (sh_both _ _ _ R (or_intror Es) CenterPart) as [c Hc], (sh_both _ _ _ R (or_intror Es) RingPart) as [r' Hr].
    rewrite Hc, Hr. cbn. rewrite <- (sh_parts _ _ _ R _ _ Hc), <- (sh_parts _ _ _ R _ _ Hr). by destruct (leds s). }
  destruct R. split; cbn; try done; try (by intros []); try (by rewrite ?Ed, ?sh_due0, ?Ed).
  - apply of_all_sized. rewrite writes_length. by apply all_length.
  - intros [? | ?]; congruence.
  - rewrite sh_frames0, Ef, fmap_app, app_assoc. done.
Qed.

Lemma progress_shows f0 step s w : shows f0 s w ->
  shows f0 (front_leds_boot_progress_set bd step s).2 (show_step bd (EBootProgress step) w).
Proof.
  intros R. unfold front_leds_boot_progress_set, show_step. destruct bd eqn:Eb; [exact R |].
  destruct (BOOT_PROGRESS_STEP_DONE <? step); [exact R |]. destruct (step <=? boot_progress_target s); [exact R |].
  destruct R. split; cbn; try done. intros _. destruct (Z.eqb_spec step BOOT_PROGRESS_STEP_DONE); auto.
Qed.
End Sequences.

(** C37: Sequences reach the strip whole.  From an idle strip, in every run of sequences, progress of the
    boot, turns of the thread and ends of transmission, in whatever order and
    whatever the driver writes into the buffer it is given, the frames transmitted are
    those of the reference: each made of a centre and a ring received since the
    frame before, the last one of each; and there is one as soon as both are there
    and the thread has its turn.  Patterns, brightness and turning off make other
    frames and are not in these runs ([brightness_resends]). *)
Theorem sequences_reach_the_strip bd SINE_LUT strip_writes l s :
  (forall a, zlen (strip_writes a) = zlen a) -> front_idle bd s -> Forall sequence_event l ->
  exists s', front_run bd SINE_LUT strip_writes l s = Some s' /\
    frames s' = frames s ++ ((fun x => all bd (UserLeds x.1 x.2)) <$> shown (show_run bd l show_start)).
Proof.
  intros Hw Hi Hl.
  assert (G : forall w, shows bd (frames s) s w -> exists s', front_run bd SINE_LUT strip_writes l s = Some s' /\
    shows bd (frames s) s' (show_run bd l w)).
  { clear Hi. generalize (frames s) as f0. revert s. induction l as [|e l IH]; intros s f0 w R; [by exists s |].
    apply Forall_cons in Hl as [He Hl]. cbn [front_run show_run fold_left].
    assert (exists s1, front_step bd SINE_LUT strip_writes e s = Some s1 /\ shows bd f0 s1 (show_step bd e w)) as (s1 & -> & R1).
    { destruct e; try done; cbn [front_step].
      - eexists. split; [done |]. by apply sequence_shows.
      - eexists. split; [done |]. by apply progress_shows.
      - by apply wake_shows.
      - eexists. split; [done |]. by apply sent_shows. }
    by apply IH. }
  destruct (G show_start) as (s' & E & R).
  - destruct Hi as (H1 & H2 & H3 & H4 & H5 & H6 & H7). split; cbn; try done; try (by intros ? [? [=]]).
    + by intros [|].
    + by rewrite app_nil_r.
  - exists s'. split; [exact E | apply R].
Qed.

(** A driver that rotates the colours of its buffer, as the one of the APA102 strip may. *)
Definition rotating (l : list led_rgb) : list led_rgb := (fun c => Rgb (scratch c) (b c) (r c) (g c)) <$> l.
Definition idle_front (bd : board) : front :=
  with_progress BOOT_PROGRESS_STEP_DONE BOOT_PROGRESS_STEP_DONE 0
    (with_sems 0 1 (with_leds (leds (front_boot bd)) ALL_LEDS_DIRTY (front_boot bd))).

Lemma sequences_reach_the_strip_witness :
  (s ← front_run Diamond [] rotating
         [ESequence CenterPart 3 [7; 8; 9]; ESequence RingPart 4 [31; 1; 2; 3]; EWake (fun _ => 0); ESequence RingPart 4 []; ESent]
         (idle_front Diamond);
   Some (frames s)) = Some [(Rgb 31 1 2 3 :: replicate 53 RGB_OFF) ++ Rgb 31 7 8 9 :: replicate 63 RGB_OFF].
Proof.
  destruct (sequences_reach_the_strip Diamond [] rotating
    [ESequence CenterPart 3 [7; 8; 9]; ESequence RingPart 4 [31; 1; 2; 3]; EWake (fun _ => 0); ESequence RingPart 4 []; ESent]
    (idle_front Diamond)) as (s' & E & F).
  - intros a. unfold rotating, zlen. by rewrite length_fmap.
  - repeat split; try done. by intros [].
  - by repeat constructor.
  - rewrite E. change (Some (frames s') = Some [(Rgb 31 1 2 3 :: replicate 53 RGB_OFF) ++ Rgb 31 7 8 9 :: replicate 63 RGB_OFF]).
    rewrite F. vm_compute. reflexivity.
Defined.

(** ** Off for good *)

Definition dark (l : list led_rgb) : Prop := Forall (fun c => hue c = (0, 0, 0)) l.

Section Off.
Context (bd : board) (SINE_LUT : list spec_float) (strip_writes : list led_rgb -> list led_rgb)
  (writes_dark : forall a, dark a -> dark (strip_writes a)).

(** [final_done] is never taken back, and the thread never transmits again. *)
Definition off_since (f0 : list (list led_rgb)) (s : front) : Prop :=
  final_done s = true /\ (exists w, thread s = Waiting w) /\ exists k, frames s = f0 ++ k /\ Forall dark k /\ k <> [].

Lemma dark_all l : all bd (of_all bd l) = l.
Proof. unfold all, of_all. destruct bd; cbn [center_leds ring_leds]; apply take_drop. Qed.

Lemma turn_off_frames s : leds_update_sem s = 1 ->
  let s' := front_leds_turn_off_blocking bd strip_writes s in
  final_done s' = true /\ thread s' = thread s /\
  frames s' = frames s ++ [replicate (length (all bd (leds s))) RGB_OFF; strip_writes (replicate (length (all bd (leds s))) RGB_OFF)].
Proof.
  intros Hs. cbv zeta. unfold front_leds_turn_off_blocking. rewrite Hs. cbn [Z.eqb Pos.eqb].
  unfold update_strip. cbn. rewrite !dark_all, <- app_assoc. done.
Qed.

Lemma dark_off n : dark (replicate n RGB_OFF).
Proof. by apply Forall_replicate. Qed.

Lemma turn_off_off f0 s : off_since f0 s -> off_since f0 (front_leds_turn_off_blocking bd strip_writes s).
Proof.
  intros (Hf & Ht & k & Hk & Hd & Hn). destruct (Z.eqb_spec (leds_update_sem s) 1) as [E |].
  - destruct (turn_off_frames s E) as (E1 & E2 & E3). split; [done |]. split; [by rewrite E2 |].
    eexists. rewrite E3, Hk, <- app_assoc. split; [done |]. split; [| by destruct k].
    apply Forall_app. split; [done |]. repeat constructor; [| apply writes_dark]; apply dark_off.
  - unfold front_leds_turn_off_blocking. bfalse (leds_update_sem s =? 1). split; eauto.
Qed.

Lemma wake_off f0 rnd s s' : off_since f0 s -> front_wake bd SINE_LUT rnd s = Some s' -> off_since f0 s'.
Proof.
  intros (Hf & [w Ht] & Hk). unfold front_wake. rewrite Ht.
  assert (S : forall w x, final_done x = true -> frames x = frames s -> off_since f0 (send_or_wait w x)).
  { intros w' x Hx Ex. unfold send_or_wait. cbn. destruct (negb _); cbn; rewrite ?Hx; (split; [done | split; [eauto | cbn; by rewrite Ex]]). }
  destruct (_ && _); [intros [= <-]; split; eauto |]. destruct (use_sequence _); [intros [= <-]; by apply S |].
  destruct (draw_pattern _ _ _ _) as [[[[ops w'] [c i]] |] |]; cbn; [| | done]; intros [= <-]; [by apply S |].
  split; cbn; eauto.
Qed.

Lemma step_off f0 e s s' : off_since f0 s -> front_step bd SINE_LUT strip_writes e s = Some s' -> off_since f0 s'.
Proof.
  intros R. destruct e; cbn [front_step].
  - unfold front_leds_set_pattern. destruct (if decide (p = PULSING_RGB) then _ else _) as [ret |]; cbn; [| done].
    destruct (negb _); cbn; intros [= <-]; [done |]. by destruct (previous_settings_are_identical _ _ _ _ _ _ _ _).
  - intros [= <-]. unfold front_leds_set_leds_sequence. destruct (match bd with Pearl => _ | Diamond => _ end); [done |].
    destruct (rgb_leds_set_leds_sequence _ _ _ _ _) as [ret buffer]. destruct (_ || _); cbn; [| done]. by destruct (_ =? 0).
  - by intros [= <-].
  - intros [= <-]. unfold front_leds_boot_progress_set. destruct bd; [done |]. by repeat case_match.
  - intros [= <-]. by apply turn_off_off.
  - by apply wake_off.
  - intros [= <-]. unfold front_sent. destruct R as (? & [w E] & ?). rewrite E. split; eauto.
Qed.
End Off.

(** Once turned off, off for good.  When the strip was free the call transmits dark
    frames, and whatever is asked for afterwards, patterns, sequences or a second
    call, every frame transmitted later is dark too. *)
Theorem turned_off_for_good bd SINE_LUT strip_writes w s l s' :
  (forall a, dark a -> dark (strip_writes a)) -> leds_update_sem s = 1 -> thread s = Waiting w ->
  front_run bd SINE_LUT strip_writes l (front_leds_turn_off_blocking bd strip_writes s) = Some s' ->
  exists k, frames s' = frames s ++ k /\ Forall dark k /\ k <> [].
Proof.
  intros Hw Hs Ht Hr.
  assert (R : off_since (frames s) (front_leds_turn_off_blocking bd strip_writes s)).
  { destruct (turn_off_frames bd strip_writes s Hs) as (E1 & E2 & E3). split; [done |]. split; [rewrite E2; eauto |].
    eexists. split; [exact E3 |]. split; [| done]. repeat constructor; [| apply Hw]; apply dark_off. }
  revert R Hr. generalize (front_leds_turn_off_blocking bd strip_writes s) as x. induction l as [|e l IH]; intros x R.
  - intros [= <-]. apply R.
  - cbn. destruct (front_step _ _ _ _ _) as [x' |] eqn:E; [| done]. apply IH. by eapply step_off.
Qed.

Lemma turned_off_for_good_witness :
  match front_run Pearl [] rotating [EBrightness 9; EWake (fun _ => 0); ESent; ETurnOff]
          (front_leds_turn_off_blocking Pearl rotating (idle_front Pearl)) with
  | Some s' => exists k, frames s' = [] ++ k /\ Forall dark k /\ k <> []
  | None => False
  end.
Proof.
  assert (K : is_Some ((fun _ => tt) <$> front_run Pearl [] rotating [EBrightness 9; EWake (fun _ => 0); ESent; ETurnOff]
          (front_leds_turn_off_blocking Pearl rotating (idle_front Pearl)))) by (vm_compute; by eexists).
  destruct (front_run Pearl [] rotating [EBrightness 9; EWake (fun _ => 0); ESent; ETurnOff]
              (front_leds_turn_off_blocking Pearl rotating (idle_front Pearl))) as [s' |] eqn:E; [| by destruct K].
  refine (turned_off_for_good Pearl [] rotating None (idle_front Pearl) [EBrightness 9; EWake (fun _ => 0); ESent; ETurnOff] s'
            _ eq_refl eq_refl E).
  intros a Ha. unfold dark, rotating in *. apply Forall_fmap. eapply Forall_impl; [exact Ha |].
  intros [x y z u] [= -> -> ->]. done.
Defined.

(** ** Self-test *)

(** How many of the first [n] readings show a signal on a line. *)
Definition signals (low high : strip_reading -> Z) (readings : nat -> strip_reading) (n : nat) : Z :=
  zlen (filter (fun i => low (readings i) = 0 /\ high (readings i) = 1) (seq 0 n)).

Definition passed_by (readings : nat -> strip_reading) (n : nat) : Prop :=
  (forall i, (i < n)%nat -> update_ret (readings i) = 0) /\
  2 <= signals dout_low dout_high readings n /\ 2 <= signals cout_low cout_high readings n.

Lemma signals_S low high readings n : signals low high readings (S n) =
  signals low high readings n + (if (low (readings n) =? 0) && (high (readings n) =? 1) then 1 else 0).
Proof.
  unfold signals, zlen. rewrite seq_S, filter_app, length_app, filter_cons, filter_nil. cbn [Nat.add].
  destruct (decide _) as [[-> ->] | Hn]; [cbn; lia |].
  destruct (Z.eqb_spec (low (readings n)) 0), (Z.eqb_spec (high (readings n)) 1); cbn; first [lia | tauto].
Qed.

Lemma signals_mono low high readings i j : (i <= j)%nat -> signals low high readings i <= signals low high readings j.
Proof. intros H. induction H as [| j H IH]; [lia |]. rewrite signals_S. destruct (_ && _); lia. Qed.

Lemma self_test_loop_exact bd strip_writes readings n : forall i s, leds_update_sem s = 1 ->
  (forall j, (j < i)%nat -> update_ret (readings j) = 0) -> ~ passed_by readings i ->
  let c low high := Z.min 2 (signals low high readings i) in
  (self_test_loop bd strip_writes n i readings (c dout_low dout_high) (c cout_low cout_high) s).1 = RET_SUCCESS <->
  exists k, (i < k <= i + n)%nat /\ passed_by readings k.
Proof.
  induction n as [|n IH]; intros i s Hs Hu Hn; cbn [self_test_loop].
  - split; [done | intros (k & ? & _); lia].
  - rewrite Hs. cbn [Z.eqb Pos.eqb negb]. destruct (Z.eqb_spec (update_ret (readings i)) 0) as [Hi |]; cbn [negb fst].
    2: { split; [done |]. intros (k & ? & Hk & _). by rewrite (Hk i) in * by lia. }
    unfold TEST_COUNT_PASS_THRESHOLD.
    assert (E : forall low high, (if (Z.min 2 (signals low high readings i) <? 2) && (low (readings i) =? 0) && (high (readings i) =? 1)
              then Z.min 2 (signals low high readings i) + 1 else Z.min 2 (signals low high readings i)) =
              Z.min 2 (signals low high readings (S i))).
    { intros low high. rewrite signals_S. destruct (low (readings i) =? 0), (high (readings i) =? 1); cbn; rewrite ?andb_true_r, ?andb_false_r;
        bdestruct_all; lia. }
    rewrite !E. assert (Hu' : forall j, (j < S i)%nat -> update_ret (readings j) = 0)
      by (intros j Hj; destruct (decide (j = i)) as [-> |]; [done | apply Hu; lia]).
    destruct ((2 <=? _) && (2 <=? _)) eqn:Ep; cbn [fst].
    + rewrite andb_true_iff, !Z.leb_le in Ep. split; [| done]. intros _. exists (S i). split; [lia |]. split; [done | lia].
    + rewrite IH; [| done | done |].
      * split; intros (k & Hk & Hp); exists k; (split; [| done]); [lia |].
        destruct (decide (k = S i)) as [-> |]; [| lia]. destruct Hp as (_ & H1 & H2).
        apply andb_false_iff in Ep as [Ep | Ep]; apply Z.leb_gt in Ep; lia.
      * intros (_ & H1 & H2). apply andb_false_iff in Ep as [Ep | Ep]; apply Z.leb_gt in Ep; lia.
Qed.

(** The verdict of the self-test.  It succeeds exactly when, within a hundred frames, the strip
    took every frame so far and both test lines showed a signal twice; whether the
    lines go back to rest afterwards does not count. *)
Theorem front_self_test_verdict strip_writes readings s : leds_update_sem s = 1 ->
  (front_leds_self_test Diamond strip_writes readings s).1 = RET_SUCCESS <->
  exists n, (n <= 100)%nat /\ passed_by readings n.
Proof.
  intros Hs. unfold front_leds_self_test.
  assert (N : ~ passed_by readings 0) by (intros (_ & H & _); vm_compute in H; by apply H).
  pose proof (self_test_loop_exact Diamond strip_writes readings 100 0 s Hs ltac:(lia) N) as E. cbv zeta in E.
  change (Z.min 2 (signals _ _ readings 0)) with 0 in E. rewrite E. split; intros (k & Hk & Hp); exists k; (split; [| done]); [lia |].
  destruct k; [done | lia].
Qed.

Lemma front_self_test_verdict_witness :
  (front_leds_self_test Diamond rotating (fun i => Reading 0 0 (Z.of_nat i mod 2) 0 (Z.of_nat i mod 2)) (idle_front Diamond)).1 = RET_SUCCESS.
Proof.
  apply (front_self_test_verdict rotating (fun i => Reading 0 0 (Z.of_nat i mod 2) 0 (Z.of_nat i mod 2)) (idle_front Diamond) eq_refl).
  exists 4%nat. split; [lia |]. split; [done |]. vm_compute. split; discriminate.
Defined.
