(* ===== verification/FrontWf.v ===== *)
(** The LEDs of the front unit: the state stays well formed and the arithmetic of
    the animations defined, whatever is asked for. *)

From Stdlib Require Import SpecFloat.
From S2P Require Import Prelude Floats FloatFacts RgbLeds FrontLeds FrontFacts.

(** ** Well-formed states *)

(** The scale keeps each channel of a colour a byte. *)
Definition scale_fits (x : Z) (scale : spec_float) : Prop := x * V scale <= 255 * ONE.

Definition scale_wf (x : spec_float) : Prop := nonneg 22 x /\ V x <= 2 ^ 22 * ONE.

Record settings_wf (bd : board) (x : settings) : Prop := {
  wf_color : led_wf bd (global_color x);
  wf_intensity : 0 <= global_intensity x <= 255;
  wf_scale : scale_wf (global_pulsing_scale x);
  wf_pulsing : global_pattern x = PULSING_RGB ->
    scale_fits (r (global_color x)) (global_pulsing_scale x) /\ scale_fits (g (global_color x)) (global_pulsing_scale x) /\
    scale_fits (b (global_color x)) (global_pulsing_scale x);
}.

Definition buffer_wf (bd : board) (a : list led_rgb) : Prop := zlen a = NUM_LEDS bd /\ Forall (led_wf bd) a.

Definition leds_wf (bd : board) (l : user_leds) : Prop :=
  parts_sized bd l /\ Forall (led_wf bd) (center_leds l) /\ Forall (led_wf bd) (ring_leds l).

Record front_wf (bd : board) (s : front) : Prop := {
  wf_set : settings_wf bd (set s);
  wf_leds : leds_wf bd (leds s);
  wf_index : 0 <= pulsing_index s < 2 * SINE_TABLE_LENGTH;
  wf_current : 0 <= boot_progress_current s <= BOOT_PROGRESS_STEP_DONE;
  wf_target : 0 <= boot_progress_target s <= BOOT_PROGRESS_STEP_DONE;
  wf_frames : Forall (buffer_wf bd) (frames s);
}.

(** What the callers give. *)
Definition color_wf (c : RgbColor) : Prop := is_byte (red c) /\ is_byte (green c) /\ is_byte (blue c) /\ is_byte (dimming c).

Definition event_wf (e : front_event) : Prop :=
  match e with
  | EPattern _ _ _ color _ scale => scale_wf scale /\ match color with Some c => color_wf c | None => True end
  | ESequence _ _ input => Forall is_byte input
  | EBrightness v => 0 <= v
  | EBootProgress step => 0 <= step
  | _ => True
  end.

Lemma off_wf bd : led_wf bd RGB_OFF.
Proof. repeat split; cbn; lia. Qed.

Section Wf.
Context (bd : board).

Lemma all_wf l : leds_wf bd l -> buffer_wf bd (all bd l).
Proof.
  intros (Hs & Hc & Hr). split; [by apply all_length |]. unfold all. destruct bd; by apply Forall_app.
Qed.

Lemma of_all_wf a : buffer_wf bd a -> leds_wf bd (of_all bd a).
Proof.
  intros [Hl Ha]. split; [by apply of_all_sized |]. unfold of_all.
  destruct bd; cbn [center_leds ring_leds]; split; by first [apply Forall_take | apply Forall_drop].
Qed.

(** ** Drawing *)

Lemma ring_loop_wf color bg lit len n : forall i li ring, led_wf bd color -> match bg with Some c => led_wf bd c | None => True end ->
  Forall (led_wf bd) ring -> length (ring_loop bd n i li lit len color bg ring) = length ring /\
  Forall (led_wf bd) (ring_loop bd n i li lit len color bg ring).
Proof.
  induction n as [|n IH]; intros i li ring Hc Hb Hr; cbn [ring_loop]; [done |].
  set (ring' := if i <? lit then _ else _).
  assert (length ring' = length ring /\ Forall (led_wf bd) ring') as [<- Hr'].
  { subst ring'. destruct (i <? lit); [| destruct bg]; rewrite ?length_insert; (split; [done |]); try done; by apply Forall_insert. }
  by apply IH.
Qed.

Definition drawing_wf (d : drawing) : Prop :=
  match d with
  | Center c => led_wf bd c
  | Ring c bg _ _ => led_wf bd c /\ match bg with Some c => led_wf bd c | None => True end
  | All f => forall i c, led_wf bd c -> led_wf bd (f i c)
  end.

Lemma draw_wf free l d : leds_wf bd l -> drawing_wf d -> leds_wf bd (draw bd free l d).
Proof.
  intros Hl Hd. destruct d as [c | c bg start len | f]; cbn [draw].
  - unfold set_center. destruct free; [| done]. destruct Hl as (Hs & Hc & Hr). split.
    + intros p. specialize (Hs p). destruct p; cbn in *; [unfold zlen in *; by rewrite length_replicate | done].
    + split; [by apply Forall_replicate | done].
  - unfold set_ring. destruct (_ || _); [done |]. destruct free; [| done]. destruct Hl as (Hs & Hc & Hr), Hd as [Hd1 Hd2].
    destruct (ring_loop_wf c bg (lit_leds bd len) len (length (ring_leds l)) 0 (first_led bd start) (ring_leds l) Hd1 Hd2 Hr) as [El Ew].
    split; [| done]. intros p. specialize (Hs p). destruct p; cbn in *; [done |]. unfold zlen in *. by rewrite El.
  - apply of_all_wf. destruct (all_wf l Hl) as [Hn Ha]. split.
    + unfold zlen in *. by rewrite length_imap.
    + apply Forall_lookup. intros i x. rewrite list_lookup_imap, fmap_Some. intros (c & Ec & ->). cbn in Hd. apply Hd.
      by eapply Forall_lookup_1 in Ec.
Qed.

Lemma draws_wf free ops : forall l, leds_wf bd l -> Forall drawing_wf ops -> leds_wf bd (fold_left (draw bd free) ops l).
Proof.
  induction ops as [|d ops IH]; intros l Hl Ho; [done |]. apply Forall_cons in Ho as [Hd Ho]. cbn. apply IH; [| done]. by apply draw_wf.
Qed.
End Wf.

(** ** Brightness *)

(** The generated table: a hundred and fifty values from 0 to 1. *)
Definition table_wf (SINE_LUT : list spec_float) : Prop :=
  zlen SINE_LUT = SINE_TABLE_LENGTH /\ Forall (fun x => nonneg 0 x /\ V x <= ONE) SINE_LUT.

Section Brightness.
Context (SINE_LUT : list spec_float) (table_ok : table_wf SINE_LUT).

Lemma one_wf : scale_wf PULSING_SCALE_DEFAULT /\ V PULSING_SCALE_DEFAULT = ONE.
Proof.
  unfold scale_wf. change (V PULSING_SCALE_DEFAULT) with ONE. split; [split; [| by vm_compute] | done].
  apply (nonneg_weaken 0); [lia |]. apply (flt_byte 1). lia.
Qed.

Lemma sine_at_ok i : 0 <= i < SINE_TABLE_LENGTH -> exists x, sine_at SINE_LUT i = Some x /\ nonneg 0 x /\ V x <= ONE.
Proof.
  intros Hi. destruct table_ok as [Hl Ha]. unfold sine_at. btrue (0 <=? i).
  destruct (lookup_lt_is_Some_2 SINE_LUT (Z.to_nat i)) as [x Ex]; [unfold zlen in Hl; lia |].
  exists x. split; [done |]. by eapply (Forall_lookup_1 _ _ _ _ Ha) in Ex.
Qed.

Lemma scaler_at_ok i scale : 0 <= i < 2 * SINE_TABLE_LENGTH -> scale_wf scale ->
  exists x, scaler_at SINE_LUT i scale = Some x /\ nonneg 104 x /\ V x <= V scale.
Proof.
  intros Hi [Hn Hb]. unfold scaler_at.
  assert (exists x, (if i <? SINE_TABLE_LENGTH then sine_at SINE_LUT i
                     else sine_at SINE_LUT (SINE_TABLE_LENGTH - 1 - (i - SINE_TABLE_LENGTH))) = Some x /\ nonneg 0 x /\ V x <= ONE) as (x & -> & Hx & Hx1)
    by (destruct (Z.ltb_spec i SINE_TABLE_LENGTH); apply sine_at_ok; lia).
  cbn. eexists. split; [done |]. pose proof (V_nonneg _ _ Hx). pose proof (V_nonneg _ _ Hn).
  destruct (fmul_faithful 0 22 x scale (V scale) Hx Hn ltac:(lia) (V_is_float 22 scale ltac:(lia) Hn) ltac:(nia)) as (? & ? & _).
  done.
Qed.

Lemma scaled_ok scaler scale c : nonneg 104 scaler -> V scaler <= V scale -> is_byte c -> scale_fits c scale ->
  exists v, scaled scaler c = Some v /\ is_byte v.
Proof.
  intros Hn Hle Hc Hf. destruct (flt_byte c Hc) as [Hb Vb]. pose proof (V_nonneg _ _ Hn). unfold scale_fits, is_byte in *. pose proof ONE_pos.
  destruct (fmul_faithful 104 0 scaler (flt c 0) (255 * ONE) Hn Hb ltac:(lia) (int_is_float 255 ltac:(lia))) as (Hr & Hu & _);
    [rewrite Vb; assert (V scaler * c <= 255 * ONE) by nia; nia |].
  unfold scaled. rewrite (sf_round_value 104) by done. pose proof (V_nonneg _ _ Hr).
  assert (0 <= (V (fmul scaler (flt c 0)) + 2 ^ 148) / ONE <= 255).
  { split; [apply Z.div_pos; lia |]. apply Z.lt_succ_r, Z.div_lt_upper_bound; [lia |]. change ONE with (2 * 2 ^ 148) in *. lia. }
  cbn. rewrite (proj2 (Z.leb_le 0 _)), (proj2 (Z.leb_le _ 255)) by lia. eexists. split; [done | lia].
Qed.

Lemma scaled_color_ok bd scaler scale c : nonneg 104 scaler -> V scaler <= V scale -> led_wf bd c ->
  scale_fits (r c) scale /\ scale_fits (g c) scale /\ scale_fits (b c) scale ->
  exists c', scaled_color scaler c = Some c' /\ led_wf bd c'.
Proof.
  intros Hn Hle (H1 & H2 & H3 & H4 & H5) (F1 & F2 & F3). unfold scaled_color.
  destruct (scaled_ok scaler scale (r c)) as (v1 & -> & ?); [done.. |].
  destruct (scaled_ok scaler scale (g c)) as (v2 & -> & ?); [done.. |].
  destruct (scaled_ok scaler scale (b c)) as (v3 & -> & ?); [done.. |].
  cbn. eexists. split; [done |]. done.
Qed.

Lemma byte_fits x scale : is_byte x -> V scale <= ONE -> scale_fits x scale.
Proof. unfold is_byte, scale_fits. pose proof ONE_pos. nia. Qed.

(** At a scale of at most one every colour can be scaled. *)
Lemma bytes_scaled bd scaler c : nonneg 104 scaler -> V scaler <= ONE -> led_wf bd c ->
  exists c', scaled_color scaler c = Some c' /\ led_wf bd c'.
Proof.
  intros Hn Hle Hc. apply (scaled_color_ok bd scaler PULSING_SCALE_DEFAULT); [done | done | done |].
  destruct Hc as (_ & ? & ? & ? & _). repeat split; by apply byte_fits.
Qed.

(** What a pattern draws is well formed, if it draws at all. *)
Definition drawn_wf (bd : board) (d : drawn) : Prop :=
  let '(ops, _, (current, index)) := d in
  Forall (drawing_wf bd) ops /\ 0 <= current <= BOOT_PROGRESS_STEP_DONE /\ 0 <= index < 2 * SINE_TABLE_LENGTH.

Lemma boot_animation_ok bd s : front_wf bd s -> exists d, boot_animation bd SINE_LUT s = Some d /\ drawn_wf bd d.
Proof.
  intros [Hs _ Hi Hc Ht _]. unfold boot_animation. destruct one_wf as [Hone Vone].
  destruct (scaler_at_ok (pulsing_index s) PULSING_SCALE_DEFAULT Hi Hone) as (x & -> & Hx & Hx1). rewrite Vone in Hx1.
  cbn [mbind option_bind].
  set (x1 := if SFltb (fsub x BOOT_ANIMATION_BRIGHTNESS_CUTOFF) (flt 0 0) then flt 0 0 else fsub x BOOT_ANIMATION_BRIGHTNESS_CUTOFF).
  assert (nonneg 104 x1 /\ V x1 <= ONE) as [Hx2 Hx3].
  { subst x1. destruct (fsub_bounded x BOOT_ANIMATION_BRIGHTNESS_CUTOFF Hx) as [[? ?] | ->];
      [vm_compute; split; [reflexivity | split; discriminate] | | by vm_compute].
    destruct (SFltb _ _); [by vm_compute | split; [done | lia]]. }
  set (push := match bd with Diamond => _ | Pearl => false end).
  assert (Hx4 : nonneg 104 (if push then flt 0 0 else x1) /\ V (if push then flt 0 0 else x1) <= ONE) by (destruct push; [by vm_compute | done]).
  destruct (bytes_scaled bd _ (global_color (set s)) (proj1 Hx4) (proj2 Hx4) (wf_color _ _ Hs)) as (c' & -> & Hc').
  assert (E : to_s32 (sf_trunc (SFopp BOOT_ANIMATION_STEP_ANGLE)) = Some (-68)) by (vm_compute; reflexivity).
  cbn [mbind option_bind]. rewrite E. cbn [mbind option_bind]. eexists. split; [done |]. cbn [drawn_wf].
  assert (Hd : 0 <= (if push then boot_progress_target s else boot_progress_current s) <= BOOT_PROGRESS_STEP_DONE) by (destruct push; assumption).
  assert (Hj : 0 <= (if push then 0 else pulsing_index s) < 2 * SINE_TABLE_LENGTH) by (destruct push; [unfold SINE_TABLE_LENGTH; lia | assumption]).
  split; [| exact (conj Hd Hj)]. clearbody push. clear Hx4.
  constructor; [apply off_wf |]. pose proof (off_wf bd).
  destruct bd; [by constructor |]. constructor; [split; [apply Hs | done] |]. match goal with |- Forall _ (if ?c then _ else _) => destruct c end; by constructor.
Qed.

Lemma paint_wf bd c x y z : led_wf bd c -> is_byte x -> is_byte y -> is_byte z -> led_wf bd (Rgb (scratch c) x y z).
Proof. intros (? & _ & _ & _ & ?) ? ? ?. done. Qed.

Ltac drawings := repeat first [apply Forall_nil_2 | apply Forall_cons_2 | progress cbn [drawing_wf] | solve [auto] | split].

Lemma rainbow_wf bd intensity rnd i c : led_wf bd c -> led_wf bd (rainbow intensity rnd i c).
Proof. intros Hc. apply paint_wf; [done | apply u8_range..]. Qed.

Lemma draw_pattern_ok bd rnd s : front_wf bd s -> exists d, draw_pattern bd SINE_LUT rnd s = Some d /\
  match d with Some d => drawn_wf bd d | None => True end.
Proof.
  intros W. pose proof W as [Hs _ Hi Hc Ht _]. pose proof (wf_color _ _ Hs) as Wc. pose proof (off_wf bd) as Wo.
  assert (Bi : is_byte (global_intensity (set s))) by (pose proof (wf_intensity _ _ Hs); unfold is_byte; lia).
  assert (B0 : is_byte 0) by (unfold is_byte; lia).
  assert (still : forall ops, Forall (drawing_wf bd) ops -> drawn_wf bd (ops, None, (boot_progress_current s, pulsing_index s))) by done.
  assert (pulse : forall color scale ops, scale_wf scale -> led_wf bd color ->
    scale_fits (r color) scale /\ scale_fits (g color) scale /\ scale_fits (b color) scale ->
    (forall c, led_wf bd c -> Forall (drawing_wf bd) (ops c)) ->
    exists d, (scaler ← scaler_at SINE_LUT (pulsing_index s) scale; color ← scaled_color scaler color;
               Some (Some (ops color, Some (global_pulsing_delay_time_ms (set s)), (boot_progress_current s, pulsing_index s)))) = Some d /\
      match d with Some d => drawn_wf bd d | None => True end).
  { intros color scale ops Hsc Hco Hf Ho. destruct (scaler_at_ok (pulsing_index s) scale Hi Hsc) as (x & -> & Hx & Hx1). cbn.
    destruct (scaled_color_ok bd x scale color Hx Hx1 Hco Hf) as (c & -> & Hcw). cbn. eexists. split; [done |]. split; auto. }
  destruct one_wf as [Hone Vone].
  assert (fits : forall c, led_wf bd c -> scale_fits (r c) PULSING_SCALE_DEFAULT /\ scale_fits (g c) PULSING_SCALE_DEFAULT /\ scale_fits (b c) PULSING_SCALE_DEFAULT)
    by (intros c (_ & ? & ? & ? & _); repeat split; by apply byte_fits).
  assert (Wp : forall x y z, is_byte x -> is_byte y -> is_byte z -> led_wf bd (Rgb (scratch (global_color (set s))) x y z))
    by (intros; by apply paint_wf).
  assert (B9 : is_byte MINIMUM_WHITE_BRIGHTNESS) by (unfold is_byte, MINIMUM_WHITE_BRIGHTNESS; lia).
  unfold draw_pattern. destruct (global_pattern (set s)) eqn:Ep; try (eexists; split; [done |]; apply still; by drawings).
  - destruct (0 <? _); eexists; (split; [done |]).
    + split; [| done]. constructor; [| done]. intros i c. apply rainbow_wf.
    + apply still. by constructor.
  - apply (pulse _ _ (fun c => [Ring c (Some RGB_OFF) _ _; Center RGB_OFF])); auto. intros c Hcw. by drawings.
  - apply (pulse _ _ (fun c => [Ring c (Some RGB_OFF) _ _; Center RGB_OFF])); auto; [apply Hs | by apply Hs |]. intros c Hcw. by drawings.
  - apply (pulse _ _ (fun c => [Center c; Ring RGB_OFF None 0 FULL_RING_DEGREES])); auto. intros c Hcw. by drawings.
  - destruct (boot_animation_ok bd s W) as (d & -> & Hd). by eexists.
  - by eexists.
Qed.
End Brightness.

(** ** The check of the pulsing scale *)

(** What the check computes for a channel, and what it is for. *)
Lemma over_255_exact scale c : scale_wf scale -> is_byte c -> exists o,
  over_255 (fmul (flt c 0) (fadd scale (flt 1 0))) = Some o /\ (o = false -> scale_fits c scale).
Proof.
  intros [Hn Hb] Hc. pose proof ONE_pos as P1. pose proof (V_nonneg _ _ Hn) as P2. destruct (flt_byte c Hc) as [Nc Vc].
  destruct (flt_byte 1 ltac:(lia)) as [N1 V1]. unfold is_byte in Hc. rewrite Z.mul_1_l in V1.
  destruct (fadd_faithful scale (flt 1 0) (2 ^ 23 * ONE)) as (Nt & Ut & Lt); [by apply (nonneg_weaken 22) | by apply (nonneg_weaken 0) | | lia |].
  { exists 1, 23. split; [lia |]. split; [lia | done]. }
  set (t := fadd scale (flt 1 0)) in *. pose proof (V_nonneg _ _ Nt) as P3.
  destruct (fmul_faithful 0 104 (flt c 0) t (255 * 2 ^ 23 * ONE) Nc Nt ltac:(lia)) as (Np & Up & Lp).
  { exists 255, 23. split; [lia |]. split; [lia | done]. }
  { rewrite Vc. assert (c * V t <= 255 * (2 ^ 23 * ONE)) by nia. nia. }
  set (p := fmul (flt c 0) t) in *. pose proof (V_nonneg _ _ Np) as P4. rewrite Vc in Lp.
  unfold over_255, to_s32. rewrite (sf_round_value 104) by done. cbn [mbind option_bind]. change ONE with (2 * 2 ^ 148) in *.
  set (n := (V p + 2 ^ 148) / (2 * 2 ^ 148)).
  assert (Hr : 0 <= n <= 255 * 2 ^ 23).
  { subst n. split; [apply Z.div_pos; lia |]. apply Z.lt_succ_r, Z.div_lt_upper_bound; lia. }
  assert (in_s32 n = true) as -> by (unfold in_s32; rewrite andb_true_iff, !Z.leb_le; lia).
  eexists. split; [reflexivity |]. intros Ho. apply Z.ltb_ge in Ho. unfold scale_fits. change ONE with (2 * 2 ^ 148).
  destruct (Z.eq_dec c 0) as [-> |]; [lia |].
  assert (Hp : V p < 511 * 2 ^ 148).
  { subst n. pose proof (Z.mul_succ_div_gt (V p + 2 ^ 148) (2 * 2 ^ 148) ltac:(lia)). lia. }
  assert (Hc2 : c * V t < 511 * 2 ^ 148).
  { destruct (Z_lt_le_dec (c * V t) (511 * 2 ^ 148)) as [| Hge]; [done |].
    assert (511 * 2 ^ 148 <= V p); [| lia]. apply Lp; [by apply half_is_float | nia]. }
  set (q := (V scale + 2 * 2 ^ 148) / 2 ^ 148).
  assert (Hq : q * 2 ^ 148 <= V scale + 2 * 2 ^ 148 < (q + 1) * 2 ^ 148).
  { subst q. pose proof (Z.mul_div_le (V scale + 2 * 2 ^ 148) (2 ^ 148) ltac:(lia)).
    pose proof (Z.mul_succ_div_gt (V scale + 2 * 2 ^ 148) (2 ^ 148) ltac:(lia)). lia. }
  assert (Ht : q * 2 ^ 148 <= V t).
  { apply Lt; [apply half_is_float; lia | rewrite V1; lia]. }
  assert (V scale + 2 ^ 148 < V t) by lia. nia.
Qed.

Lemma check_range_ok color scale : scale_wf scale -> color_wf color -> exists ret,
  pulsing_rgb_check_range (Some color) scale = Some ret /\
  (ret = RET_SUCCESS -> scale_fits (red color) scale /\ scale_fits (green color) scale /\ scale_fits (blue color) scale).
Proof.
  intros Hs (H1 & H2 & H3 & _). unfold pulsing_rgb_check_range.
  destruct (over_255_exact scale (red color) Hs H1) as (o1 & E1 & F1), (over_255_exact scale (green color) Hs H2) as (o2 & E2 & F2),
    (over_255_exact scale (blue color) Hs H3) as (o3 & E3 & F3).
  cbv zeta. rewrite E1. cbn [mbind option_bind]. destruct o1; [by eexists |]. rewrite E2. cbn [mbind option_bind].
  destruct o2; [by eexists |]. rewrite E3. cbn [mbind option_bind]. destruct o3; eexists; (split; [done |]); [done | auto].
Qed.

(** ** Steps *)

Section Steps.
Context (bd : board) (SINE_LUT : list spec_float) (strip_writes : list led_rgb -> list led_rgb) (table_ok : table_wf SINE_LUT)
  (writes_wf : forall a, buffer_wf bd a -> buffer_wf bd (strip_writes a)).

Lemma next_index_range i : 0 <= next_index i < 2 * SINE_TABLE_LENGTH.
Proof. unfold next_index, SINE_TABLE_LENGTH. apply Z.mod_pos_bound. lia. Qed.

Lemma send_wf w s : front_wf bd s -> front_wf bd (send_or_wait w s).
Proof.
  intros [Hs Hl Hi Hc Ht Hf]. pose proof (next_index_range (pulsing_index s)).
  unfold send_or_wait. cbn. destruct (negb _); [by split |]. destruct (final_done s); by split.
Qed.

Lemma wake_wf rnd s : front_wf bd s -> exists s', front_wake bd SINE_LUT rnd s = Some s' /\ front_wf bd s'.
Proof.
  intros W. unfold front_wake. destruct (thread s); [| by eexists]. destruct (_ && _); [by eexists |].
  set (s1 := with_sems 0 (leds_update_sem s) s). assert (W1 : front_wf bd s1) by (destruct W; by split).
  destruct (use_sequence s1); [eexists; split; [done |]; by apply send_wf |].
  destruct (draw_pattern_ok SINE_LUT table_ok bd rnd s1 W1) as (d & -> & Hd). cbn [mbind option_bind].
  destruct d as [[[ops w] [current index]] |]; [| eexists; split; [done |]; destruct W1; by split].
  destruct Hd as (Ho & Hc & Hi). eexists. split; [done |]. apply send_wf.
  pose proof (draws_wf bd (leds_update_sem s1 =? 1) ops (leds s1) (wf_leds _ _ W1) Ho). destruct W1. by split.
Qed.

Lemma update_strip_wf s : front_wf bd s -> front_wf bd (update_strip bd strip_writes s).
Proof.
  intros [Hs Hl Hi Hc Ht Hf]. pose proof (all_wf bd _ Hl) as Ha. split; cbn; try done.
  - by apply of_all_wf, writes_wf.
  - apply Forall_app. split; [done |]. by constructor.
Qed.

Lemma pattern_wf p start len color period scale s : front_wf bd s -> event_wf (EPattern p start len color period scale) ->
  exists r, front_leds_set_pattern bd p start len color period scale s = Some r /\ front_wf bd r.2.
Proof.
  intros W [Hsc Hco]. unfold front_leds_set_pattern.
  assert (exists ret, (if decide (p = PULSING_RGB) then pulsing_rgb_check_range color scale else Some RET_SUCCESS) = Some ret /\
    (ret = RET_SUCCESS -> p = PULSING_RGB -> exists c, color = Some c /\
      scale_fits (red c) scale /\ scale_fits (green c) scale /\ scale_fits (blue c) scale)) as (ret & -> & Hr).
  { case_decide; [| by eexists]. destruct color as [c |]; [| by eexists].
    destruct (check_range_ok c scale Hsc Hco) as (ret & -> & Hf). eexists. split; [done |]. eauto. }
  cbn [mbind option_bind]. destruct (Z.eqb_spec ret RET_SUCCESS) as [-> |]; cbn [negb]; [| by eexists].
  eexists. split; [done |]. cbn [snd]. destruct (previous_settings_are_identical _ _ _ _ _ _ _ _); [done |].
  specialize (Hr eq_refl). destruct W as [Hs Hl Hi Hc Ht Hf]. destruct one_wf as [Hone Vone].
  assert (Hcol : led_wf bd (match full_dimming bd <$> color with Some c => led_of_color bd c | None => global_color (set s) end)).
  { destruct color as [c |]; cbn; [| apply Hs]. unfold led_of_color.
    split; cbn; [| split; [apply u8_range |]; split; [apply u8_range |]; split; [apply u8_range | by intros ->]].
    destruct (has_scratch bd); [| by unfold is_byte]. destruct (negb _); [apply u8_range | by unfold is_byte]. }
  split; try done. split; cbn -[flt PULSING_SCALE_DEFAULT SFeqb led_of_color full_dimming fmap option_fmap].
  - exact Hcol.
  - apply Hs.
  - by destruct (SFeqb scale (flt 0 0)).
  - intros Ep. destruct (Hr Ep) as (c & -> & F). cbn -[flt PULSING_SCALE_DEFAULT SFeqb full_dimming u8]. destruct Hco as (B1 & B2 & B3 & _).
    assert (E : red (full_dimming bd c) = red c /\ green (full_dimming bd c) = green c /\ blue (full_dimming bd c) = blue c)
      by (unfold full_dimming; by destruct (_ && _)).
    destruct E as (-> & -> & ->). rewrite !u8_small by done.
    destruct (SFeqb scale (flt 0 0)); [| done]. repeat split; apply byte_fits; by rewrite ?Vone.
Qed.

Lemma stored_wf p fmt input s : front_wf bd s -> Forall is_byte input -> Forall (led_wf bd) (part_leds p (leds s)) ->
  Forall (led_wf bd) (rgb_leds_set_leds_sequence bd input fmt (part_leds p (leds s)) (leds_update_sem s =? 1)).2 /\
  length (rgb_leds_set_leds_sequence bd input fmt (part_leds p (leds s)) (leds_update_sem s =? 1)).2 = length (part_leds p (leds s)).
Proof.
  intros W Hi Hp. rewrite sequence_stored. destruct (_ || _); [done |]. destruct (negb _); [done |]. cbn [snd].
  rewrite on_strip_length. split; [| done]. unfold on_strip. apply Forall_app. split; [| apply Forall_replicate, off_wf].
  apply Forall_take. by apply parse_leds_wf.
Qed.
End Steps.

(** C38: The LEDs of the front unit are always well formed.  Under every sequence of
    patterns, sequences, brightness, boot progress, turns of the thread and ends
    of transmission, with a finite pulsing scale from 0 to 4194304 and colours of
    bytes, the sine table is never read outside its bounds and every conversion to
    a byte is defined (the check of the scale is what makes the pulse of a custom
    colour fit); every frame transmitted has the colours of the whole strip, and
    the buffer keeps its parts.  (A negative scale passes the check of the code too:
    [negative_scale_accepted].) *)
Theorem front_leds_well_formed bd SINE_LUT strip_writes l s :
  table_wf SINE_LUT -> (forall a, buffer_wf bd a -> buffer_wf bd (strip_writes a)) -> front_wf bd s -> Forall event_wf l ->
  exists s', front_run bd SINE_LUT strip_writes l s = Some s' /\ front_wf bd s'.
Proof.
  intros Ht Hw W Hl. revert Hl W. apply (front_run_invariant bd SINE_LUT strip_writes event_wf (front_wf bd)). clear l s.
  intros e s He W. destruct e; cbn [front_step].
  - destruct (pattern_wf bd p start_angle angle_length color period scale s W He) as (x & -> & Hx). by eexists.
  - eexists. split; [done |]. unfold front_leds_set_leds_sequence. destruct (match bd with Pearl => _ | Diamond => _ end); [done |].
    pose proof (wf_leds _ _ W) as (Hp & Hc & Hr).
    destruct (stored_wf bd p led_format input s W He) as [Hb Hn]; [by destruct p |].
    destruct (rgb_leds_set_leds_sequence _ _ _ _ _) as [ret buffer]. cbn [snd] in *.
    assert (Hl : leds_wf bd (put_part p buffer (leds s))).
    { split; [| by destruct p]. apply put_part_sized; [done |]. unfold zlen. rewrite Hn. apply Hp. }
    destruct W. destruct (_ || _); [| by split]. cbn [snd leds_dirty with_leds]. destruct (_ =? 0); by split.
  - eexists. split; [done |]. destruct W as [[? ? ? ?] ? ? ? ? ?]. split; try done. split; try done. cbn in *. lia.
  - eexists. split; [done |]. unfold front_leds_boot_progress_set. destruct bd; [done |].
    destruct (Z.ltb_spec BOOT_PROGRESS_STEP_DONE step); [done |]. destruct (Z.leb_spec step (boot_progress_target s)); [done |].
    destruct W. cbn in He. split; cbn; try done; [by destruct (_ && _) |]. destruct (step =? BOOT_PROGRESS_STEP_DONE); lia.
  - eexists. split; [done |]. unfold front_leds_turn_off_blocking. destruct (_ =? 1); [| done].
    apply update_strip_wf; [done |]. apply update_strip_wf; [done |]. pose proof (all_wf bd _ (wf_leds _ _ W)) as [Hn _].
    destruct W. split; cbn; try done. apply of_all_wf. split; [unfold zlen in *; by rewrite length_replicate | apply Forall_replicate, off_wf].
  - by apply wake_wf.
  - eexists. split; [done |]. unfold front_sent. destruct (thread s); [done |].
    pose proof (update_strip_wf bd strip_writes Hw s W) as W'. destruct W'. by split.
Qed.

(** A square pulse for the examples. *)
Definition square_lut : list spec_float := replicate 150 (flt 1 0).

Lemma square_wf : table_wf square_lut.
Proof. split; [done |]. apply Forall_replicate. destruct (flt_byte 1) as [? E]; [lia |]. split; [done |]. rewrite E. lia. Qed.

Lemma front_leds_well_formed_witness :
  match front_run Diamond square_lut rotating
          [EPattern PULSING_RGB 90 (-180) (Some (Color 100 50 0 0)) 3000 (flt 3 (-1)); EWake (fun _ => 0); ESent] (idle_front Diamond) with
  | Some s' => front_wf Diamond s' | None => False
  end.
Proof.
  assert (W : front_wf Diamond (idle_front Diamond)).
  { split; try (by vm_compute). split; [by intros [] |]. split; apply Forall_replicate, off_wf. }
  destruct (front_leds_well_formed Diamond square_lut rotating
    [EPattern PULSING_RGB 90 (-180) (Some (Color 100 50 0 0)) 3000 (flt 3 (-1)); EWake (fun _ => 0); ESent] (idle_front Diamond)) as (s' & -> & W').
  - apply square_wf.
  - intros a [Hn Ha]. split; [unfold rotating, zlen in *; by rewrite length_fmap |]. apply Forall_fmap.
    eapply Forall_impl; [exact Ha |]. intros [x y z u] (? & ? & ? & ? & ?). unfold led_wf; cbn in *; auto.
  - exact W.
  - repeat constructor; by vm_compute.
  - exact W'.
Defined.

(** ** What the module gets wrong *)

(** A negative scale passes the check, and the pulse converts a negative number to a byte. *)
Example negative_scale_accepted :
  (r ← front_leds_set_pattern Pearl PULSING_RGB 0 360 (Some (Color 100 0 0 0)) 5000 (flt (-2) 0) (idle_front Pearl);
   Some (r.1, front_wake Pearl square_lut (fun _ => 0) r.2)) = Some (RET_SUCCESS, None).
Proof. vm_compute. reflexivity. Qed.

(** A pattern equal to the one that was on before a sequence is taken for no change: the call succeeds
    and the sequence stays. *)
Example same_pattern_ignored :
  let p := EPattern RGB 0 360 (Some (Color 1 2 3 0)) 5000 (flt 1 0) in
  let s := front_run Pearl square_lut (fun l => l)
    [p; EWake (fun _ => 0); ESent; ESequence CenterPart 3 [9; 9; 9]; ESequence RingPart 3 [8; 8; 8]; EWake (fun _ => 0); ESent] (idle_front Pearl) in
  (s ← s; r ← front_leds_set_pattern Pearl RGB 0 360 (Some (Color 1 2 3 0)) 5000 (flt 1 0) s;
   Some (r.1, use_sequence r.2, sem_leds_refresh r.2)) = Some (RET_SUCCESS, true, 0).
Proof. vm_compute. reflexivity. Qed.

(** The brightness, asked for while a sequence is shown, sends a buffer the driver has already written to. *)
Example brightness_resends :
  (s ← front_run Pearl square_lut rotating
    [ESequence CenterPart 3 [9; 0; 0]; ESequence RingPart 3 []; EWake (fun _ => 0); ESent; EBrightness 9; EWake (fun _ => 0); ESent]
    (idle_front Pearl); Some (fmap hue <$> (take 1 <$> frames s))) = Some [[(9, 0, 0)]; [(0, 9, 0)]].
Proof. vm_compute. reflexivity. Qed.

(** Once turned off the thread takes the semaphore of the buffer for ever: a second call does nothing. *)
Example semaphore_kept :
  (s ← front_wake Pearl square_lut (fun _ => 0) (front_leds_turn_off_blocking Pearl (fun l => l) (give_refresh (idle_front Pearl)));
   Some (leds_update_sem s, bool_decide (frames (front_leds_turn_off_blocking Pearl (fun l => l) s) = frames s))) = Some (0, true).
Proof. vm_compute. reflexivity. Qed.

(** An arc that starts at 360 degrees, which the runner accepts, is not drawn. *)
Example start_at_360 c l : set_ring Pearl c (Some RGB_OFF) 360 90 true l = l.
Proof. reflexivity. Qed.
