(* ===== verification/OperatorLeds.v ===== *)
(** main_board/src/ui/rgb_leds/operator_leds/operator_leds.c: the LEDs of the operator
    (five on the Pearl, the one of the button on the Diamond).  A turn of the thread
    ([operator_turn]) is one pass of its loop; the calls of the other threads come
    between two.  [operator_leds_set_blocking] is used before the thread runs, with
    the supply it switches. *)

From Stdlib Require Import SpecFloat.
From S2P Require Import Prelude Floats FloatFacts RgbLeds FrontLeds FrontFacts FrontWf.

Definition OPERATOR_LEDS_COUNT (bd : board) : Z := match bd with Pearl => 5 | Diamond => 1 end.
Definition RGB_WHITE_OPERATOR_LEDS (bd : board) : led_rgb :=
  match bd with Pearl => Rgb 0 20 20 20 | Diamond => Rgb 10 30 27 25 end.
Definition operator_delay_time_ms : Z := INITIAL_PULSING_PERIOD_MS / 2 / SINE_TABLE_LENGTH.
Definition solid_iterations : Z := 1000 / operator_delay_time_ms.

Inductive operator_pattern :=
| OP_OFF | OP_ALL_WHITE | OP_ALL_RED | OP_ALL_GREEN | OP_ALL_BLUE | OP_RGB | OP_PULSING_RGB | OP_BOOT_ANIMATION | OP_OTHER (n : Z).

#[export] Instance operator_pattern_eq_dec : EqDecision operator_pattern.
Proof. solve_decision. Defined.

Record operator_sys := OperatorSys {
  op_pattern : operator_pattern;
  op_intensity : Z;
  op_mask : Z;
  op_color : led_rgb;
  op_use_sequence : bool;
  op_leds : list led_rgb;
  op_refresh : Z;                       (* sem_leds_refresh *)
  thread_pattern : operator_pattern;    (* local to the thread *)
  thread_index : Z;
  op_frames : list (list led_rgb);
}.

Definition set_operator (p : operator_pattern) (i m : Z) (c : led_rgb) (u : bool) (s : operator_sys) : operator_sys :=
  OperatorSys p i m c u (op_leds s) 1 (thread_pattern s) (thread_index s) (op_frames s).
Definition set_op_leds (u : bool) (refresh : Z) (l : list led_rgb) (s : operator_sys) : operator_sys :=
  OperatorSys (op_pattern s) (op_intensity s) (op_mask s) (op_color s) u l refresh (thread_pattern s) (thread_index s) (op_frames s).

Section Operator.
Context (bd : board) (SINE_LUT : list spec_float) (strip_writes : list led_rgb -> list led_rgb).

(** The bit of the mask for LED [i]. *)
Definition mask_bit (i : Z) : Z := match bd with Pearl => OPERATOR_LEDS_COUNT bd - 1 - i | Diamond => i end.

Definition apply_pattern (mask : Z) (color : led_rgb) (leds : list led_rgb) : list led_rgb :=
  for_up (fun i l => <[Z.to_nat i := if negb (Z.land mask (Z.shiftl 1 (mask_bit i)) =? 0) then color else RGB_OFF]> l)
    0 (length leds) leds.

(** On the Diamond the dimming pulses, and the colour stays. *)
Definition op_scaled (scaler : spec_float) (c : led_rgb) : option led_rgb :=
  if has_scratch bd then x ← scaled scaler (scratch c); Some (Rgb x (r c) (g c) (b c)) else scaled_color scaler c.

Definition boot_scaler (index : Z) : option spec_float :=
  if index <? SINE_TABLE_LENGTH then x ← sine_at SINE_LUT index; Some (fmul x PULSING_SCALE_DEFAULT)
  else if index <? SINE_TABLE_LENGTH + solid_iterations then Some PULSING_SCALE_DEFAULT
  else x ← sine_at SINE_LUT (SINE_TABLE_LENGTH - 1 - (index - solid_iterations - SINE_TABLE_LENGTH)); Some (fmul x PULSING_SCALE_DEFAULT).

(** The colour of a pattern and the index of the next pulse; [None]: undefined. *)
Definition operator_color (p : operator_pattern) (intensity : Z) (color : led_rgb) (index : Z) : option (led_rgb * Z) :=
  let paint x y z := Some (Rgb (scratch color) x y z, index) in
  match p with
  | OP_OFF => Some (RGB_OFF, index)
  | OP_ALL_WHITE => paint intensity intensity intensity
  | OP_ALL_RED => paint intensity 0 0
  | OP_ALL_GREEN => paint 0 intensity 0
  | OP_ALL_BLUE => paint 0 0 intensity
  | OP_RGB | OP_OTHER _ => Some (color, index)
  | OP_PULSING_RGB =>
      scaler ← scaler_at SINE_LUT index PULSING_SCALE_DEFAULT; c ← op_scaled scaler color;
      Some (c, (index + 1) mod (SINE_TABLE_LENGTH * 2))
  | OP_BOOT_ANIMATION =>
      scaler ← boot_scaler index; c ← op_scaled scaler color;
      Some (c, (index + 1) mod (SINE_TABLE_LENGTH * 2 + solid_iterations))
  end.

(** The time-out is always set: the thread runs at least every [operator_delay_time_ms]. *)
Definition operator_turn (s : operator_sys) : option operator_sys :=
  let index := if decide (thread_pattern s = op_pattern s) then thread_index s else SINE_TABLE_LENGTH in
  '(color, index) ← operator_color (op_pattern s) (op_intensity s) (op_color s) index;
  let leds := if op_use_sequence s then op_leds s else apply_pattern (op_mask s) color (op_leds s) in
  Some (OperatorSys (op_pattern s) (op_intensity s) (op_mask s) (op_color s) (op_use_sequence s) (strip_writes leds) 0 (op_pattern s) index
          (op_frames s ++ [leds])).

(** ** Calls *)

Definition operator_leds_set_brightness (brightness : Z) (s : operator_sys) : Z * operator_sys :=
  (RET_SUCCESS, set_operator (op_pattern s) (u8 brightness) (op_mask s) (op_color s) (op_use_sequence s) s).

Definition op_led_of_color (c : RgbColor) : led_rgb :=
  Rgb (if has_scratch bd then if (dimming c =? 0) || (RGB_BRIGHTNESS_MAX <? dimming c) then RGB_BRIGHTNESS_MAX else dimming c else 0)
      (u8 (red c)) (u8 (green c)) (u8 (blue c)).

Definition operator_leds_set_pattern (p : operator_pattern) (mask : Z) (color : option RgbColor) (s : operator_sys) : Z * operator_sys :=
  (RET_SUCCESS, set_operator p (op_intensity s) mask (match color with Some c => op_led_of_color c | None => op_color s end) false s).

(** There is no semaphore for the buffer. *)
Definition operator_leds_set_leds_sequence (led_format : Z) (bytes : bytes) (s : operator_sys) : Z * operator_sys :=
  let '(ret, buffer) := rgb_leds_set_leds_sequence bd bytes led_format (op_leds s) true in
  if ret =? RET_SUCCESS then (ret, set_op_leds true 1 buffer s)
  else (if ret =? RET_ERROR_ALREADY_INITIALIZED then RET_SUCCESS else ret, set_op_leds (op_use_sequence s) (op_refresh s) buffer s).

Definition operator_boot : operator_sys :=
  OperatorSys OP_BOOT_ANIMATION 20 31 (RGB_WHITE_OPERATOR_LEDS bd) false (fill (OPERATOR_LEDS_COUNT bd) RGB_OFF) 0
    OP_BOOT_ANIMATION SINE_TABLE_LENGTH [].

Definition operator_leds_initial_state (s : operator_sys) : operator_sys :=
  let leds := apply_pattern (op_mask s) (op_color s) (op_leds s) in
  OperatorSys (op_pattern s) (op_intensity s) (op_mask s) (op_color s) (op_use_sequence s) (strip_writes leds) (op_refresh s) (thread_pattern s)
    (thread_index s) (op_frames s ++ [leds]).

(** ** Before the thread runs *)

(** The buffer, the supply of the LEDs with the mask of the last call ([-1] at first), and the frames. *)
Record blocking := Blocking { bl_leds : list led_rgb; supply_5v : bool; previous_mask : Z; bl_frames : list (list led_rgb) }.

Definition operator_leds_set_blocking (color : option RgbColor) (mask : Z) (s : blocking) : blocking :=
  match color with
  | None => s
  | Some c =>
      let on := if (match bd with Diamond => (previous_mask s =? 0) && negb (mask =? 0) | Pearl => false end) then true else supply_5v s in
      let leds := apply_pattern mask (op_led_of_color c) (bl_leds s) in
      let off := match bd with Diamond => (mask =? 0) && negb (previous_mask s =? 0) | Pearl => false end in
      Blocking (strip_writes leds) (if off then false else on) (match bd with Diamond => mask | Pearl => previous_mask s end) (bl_frames s ++ [leds])
  end.

Definition LOW_BATTERY : RgbColor := Color 5 0 0 (if has_scratch bd then RGB_BRIGHTNESS_MAX else 0).

Definition operator_leds_indicate_low_battery_blocking (s : blocking) : blocking :=
  for_up (fun _ s => operator_leds_set_blocking (Some LOW_BATTERY) 0 (operator_leds_set_blocking (Some LOW_BATTERY) 31 s)) 0 3 s.
End Operator.

(** ** The mask *)

Lemma mask_test m k : 0 <= k -> negb (Z.land m (Z.shiftl 1 k) =? 0) = Z.testbit m k.
Proof.
  intros Hk. rewrite Z.shiftl_1_l. destruct (Z.testbit m k) eqn:E.
  - apply negb_true_iff, Z.eqb_neq. intros H. assert (T : Z.testbit (Z.land m (2 ^ k)) k = true)
      by (rewrite Z.land_spec, E, Z.pow2_bits_true by done; done). by rewrite H, Z.bits_0 in T.
  - apply negb_false_iff, Z.eqb_eq. apply Z.bits_inj'. intros n Hn. rewrite Z.land_spec, Z.bits_0, Z.pow2_bits_eqb by done.
    destruct (Z.eqb_spec k n) as [<- |]; [by rewrite E | apply andb_false_r].
Qed.

(** A loop that stores at each index. *)
Lemma store_all (f : Z -> led_rgb) n : forall k (pre post : list led_rgb), zlen pre = k -> length post = n ->
  for_up (fun i l => <[Z.to_nat i := f i]> l) k n (pre ++ post) = pre ++ (f <$> seqZ k (Z.of_nat n)).
Proof.
  induction n as [|n IH]; intros k pre post Hp Hl.
  - destruct post; [done | discriminate].
  - destruct post as [|x post]; [discriminate |]. cbn [for_up]. rewrite seqZ_cons by lia.
    assert (<[Z.to_nat k := f k]> (pre ++ x :: post) = (pre ++ [f k]) ++ post) as ->.
    { rewrite <- app_assoc, <- Hp. unfold zlen. rewrite Nat2Z.id. rewrite <- (Nat.add_0_r (length pre)) at 1.
      etransitivity; [apply insert_app_r | done]. }
    rewrite IH; [| rewrite zlen_app, Hp; change (zlen [f k]) with 1; lia | cbn in Hl; lia].
    rewrite <- app_assoc. cbn. do 3 f_equal. f_equal; lia.
Qed.

(** The LEDs a mask selects. *)
Definition masked (bd : board) (mask : Z) (color : led_rgb) : list led_rgb :=
  (fun i => if Z.testbit mask (mask_bit bd i) then color else RGB_OFF) <$> seqZ 0 (OPERATOR_LEDS_COUNT bd).

Lemma apply_pattern_exact bd mask color leds : zlen leds = OPERATOR_LEDS_COUNT bd -> apply_pattern bd mask color leds = masked bd mask color.
Proof.
  intros Hl. unfold apply_pattern, masked. etransitivity; [exact (store_all _ (length leds) 0 [] leds eq_refl eq_refl) |].
  cbn [app]. change (Z.of_nat (length leds)) with (zlen leds). rewrite Hl. apply list_fmap_ext. intros i x Hx.
  apply lookup_seqZ in Hx as [-> Hi]. rewrite mask_test; [done |]. unfold mask_bit. destruct bd; cbn in *; lia.
Qed.

(** ** Runs *)

Inductive operator_event :=
| OPattern (p : operator_pattern) (mask : Z) (color : option RgbColor)
| OSequence (led_format : Z) (input : bytes)
| OBrightness (brightness : Z)
| OTurn.

Record operator_wf (bd : board) (s : operator_sys) : Prop := {
  ow_leds : zlen (op_leds s) = OPERATOR_LEDS_COUNT bd;
  ow_color : led_wf bd (op_color s);
  ow_intensity : is_byte (op_intensity s);
  ow_index : 0 <= thread_index s < SINE_TABLE_LENGTH * 2 + solid_iterations;
  ow_pulsing : thread_pattern s = OP_PULSING_RGB -> thread_index s < SINE_TABLE_LENGTH * 2;
}.

Definition operator_event_wf (e : operator_event) : Prop :=
  match e with
  | OPattern _ _ (Some c) => color_wf c
  | OSequence _ input => Forall is_byte input
  | _ => True
  end.

(** The colour of a pattern that does not move. *)
Definition still_color (p : operator_pattern) (intensity : Z) (color : led_rgb) : option led_rgb :=
  match p with
  | OP_OFF => Some RGB_OFF
  | OP_ALL_WHITE => Some (Rgb (scratch color) intensity intensity intensity)
  | OP_ALL_RED => Some (Rgb (scratch color) intensity 0 0)
  | OP_ALL_GREEN => Some (Rgb (scratch color) 0 intensity 0)
  | OP_ALL_BLUE => Some (Rgb (scratch color) 0 0 intensity)
  | OP_RGB | OP_OTHER _ => Some color
  | OP_PULSING_RGB | OP_BOOT_ANIMATION => None
  end.

Section Runs.
Context (bd : board) (SINE_LUT : list spec_float) (strip_writes : list led_rgb -> list led_rgb)
  (table_ok : table_wf SINE_LUT) (writes_length : forall a, zlen (strip_writes a) = zlen a).

Definition operator_step (e : operator_event) (s : operator_sys) : option operator_sys :=
  match e with
  | OPattern p m c => Some (operator_leds_set_pattern bd p m c s).2
  | OSequence f i => Some (operator_leds_set_leds_sequence bd f i s).2
  | OBrightness v => Some (operator_leds_set_brightness v s).2
  | OTurn => operator_turn bd SINE_LUT strip_writes s
  end.

Fixpoint operator_run (l : list operator_event) (s : operator_sys) : option operator_sys :=
  match l with [] => Some s | e :: l => s ← operator_step e s; operator_run l s end.

Lemma op_scaled_ok scaler c : nonneg 104 scaler -> V scaler <= ONE -> led_wf bd c -> is_Some (op_scaled bd scaler c).
Proof.
  intros Hn Hv Hc. unfold op_scaled. destruct (has_scratch bd); [| destruct (bytes_scaled bd scaler c Hn Hv Hc) as (? & -> & _); by eexists].
  destruct one_wf as [_ E]. destruct Hc as (Hb & _).
  destruct (scaled_ok scaler PULSING_SCALE_DEFAULT (scratch c)) as (v & -> & _);
    [done | by rewrite E | done | apply byte_fits; [done | by rewrite E] | by eexists].
Qed.

Lemma boot_scaler_ok index : 0 <= index < SINE_TABLE_LENGTH * 2 + solid_iterations ->
  exists x, boot_scaler SINE_LUT index = Some x /\ nonneg 104 x /\ V x <= ONE.
Proof.
  intros Hi. destruct one_wf as [[Hn Hb] E]. unfold boot_scaler. assert (solid_iterations = 62) as Es by done.
  assert (S : forall i, 0 <= i < SINE_TABLE_LENGTH -> exists x, (x ← sine_at SINE_LUT i; Some (fmul x PULSING_SCALE_DEFAULT)) = Some x /\
    nonneg 104 x /\ V x <= ONE).
  { intros i Hr. destruct (scaler_at_ok SINE_LUT table_ok i PULSING_SCALE_DEFAULT) as (x & Ex & Hx); [lia | done |].
    unfold scaler_at in Ex. rewrite (proj2 (Z.ltb_lt i _)) in Ex by lia. rewrite Ex, <- E. by eexists. }
  destruct (Z.ltb_spec index SINE_TABLE_LENGTH); [apply S; lia |].
  destruct (Z.ltb_spec index (SINE_TABLE_LENGTH + solid_iterations)); [| apply S; lia].
  eexists. split; [done |]. split; [by apply (nonneg_weaken 22) | by rewrite E].
Qed.

(** The colour of a turn is always defined, and the index stays in its range. *)
Lemma operator_color_ok p i c index : led_wf bd c -> 0 <= index < SINE_TABLE_LENGTH * 2 + solid_iterations ->
  (p = OP_PULSING_RGB -> index < SINE_TABLE_LENGTH * 2) ->
  exists c' index', operator_color bd SINE_LUT p i c index = Some (c', index') /\
    0 <= index' < SINE_TABLE_LENGTH * 2 + solid_iterations /\ (p = OP_PULSING_RGB -> index' < SINE_TABLE_LENGTH * 2) /\
    match still_color p i c with Some x => c' = x | None => True end.
Proof.
  intros Hc Hi Hp. destruct one_wf as [Hone E]. assert (solid_iterations = 62) as Es by done. unfold SINE_TABLE_LENGTH in *.
  destruct p; try (by do 2 eexists); cbn [operator_color still_color].
  - specialize (Hp eq_refl). destruct (scaler_at_ok SINE_LUT table_ok index PULSING_SCALE_DEFAULT) as (x & -> & Hx & Hv); [unfold SINE_TABLE_LENGTH; lia | done |].
    rewrite E in Hv. cbn [mbind option_bind]. destruct (op_scaled_ok x c Hx Hv Hc) as [c' ->]. cbn [mbind option_bind].
    do 2 eexists. split; [done |]. pose proof (Z.mod_pos_bound (index + 1) (SINE_TABLE_LENGTH * 2)) as B.
    unfold SINE_TABLE_LENGTH in *. specialize (B ltac:(lia)). split; [lia |]. split; [lia | done].
  - destruct (boot_scaler_ok index) as (x & -> & Hx & Hv); [done |].
    cbn [mbind option_bind]. destruct (op_scaled_ok x c Hx Hv Hc) as [c' ->]. cbn [mbind option_bind].
    do 2 eexists. split; [done |]. split; [apply Z.mod_pos_bound; unfold SINE_TABLE_LENGTH; lia | done].
Qed.

Lemma turn_index s : operator_wf bd s ->
  let index := if decide (thread_pattern s = op_pattern s) then thread_index s else SINE_TABLE_LENGTH in
  0 <= index < SINE_TABLE_LENGTH * 2 + solid_iterations /\ (op_pattern s = OP_PULSING_RGB -> index < SINE_TABLE_LENGTH * 2).
Proof. intros [_ _ _ Hi Hp]. cbv zeta. case_decide as D; [by rewrite <- D | done]. Qed.

Lemma operator_turn_ok s : operator_wf bd s -> exists s' frame, operator_turn bd SINE_LUT strip_writes s = Some s' /\ operator_wf bd s' /\
  op_frames s' = op_frames s ++ [frame] /\
  if op_use_sequence s then frame = op_leds s
  else exists c, frame = masked bd (op_mask s) c /\ match still_color (op_pattern s) (op_intensity s) (op_color s) with Some x => c = x | None => True end.
Proof.
  intros W. destruct (turn_index s W) as [Hi Hp]. cbv zeta in *. unfold operator_turn. pose proof W as [Hl Hc Hb _ _].
  set (index := if decide _ then _ else _) in *.
  destruct (operator_color_ok (op_pattern s) (op_intensity s) (op_color s) index Hc Hi Hp) as (c & i' & -> & Hi' & Hp' & Hs).
  cbn [mbind option_bind]. do 2 eexists. split; [done |]. rewrite (apply_pattern_exact bd _ _ _ Hl).
  assert (Hm : zlen (masked bd (op_mask s) c) = OPERATOR_LEDS_COUNT bd)
    by (unfold masked, zlen; rewrite length_fmap, length_seqZ; by destruct bd).
  split; [split; cbn; try done; rewrite writes_length; by destruct (op_use_sequence s) |]. split; [done |].
  destruct (op_use_sequence s); [done |]. eauto.
Qed.

Lemma op_led_wf c : color_wf c -> led_wf bd (op_led_of_color bd c).
Proof.
  intros (_ & _ & _ & Hd). unfold op_led_of_color. split; cbn; [| repeat split; try apply u8_range; by intros ->].
  destruct (has_scratch bd); [| by unfold is_byte]. destruct (_ || _); [by unfold is_byte | done].
Qed.

Lemma operator_step_ok e s : operator_wf bd s -> operator_event_wf e -> exists s', operator_step e s = Some s' /\ operator_wf bd s'.
Proof.
  intros W He. destruct e; cbn [operator_step].
  - eexists. split; [done |]. destruct W. split; cbn; try done. destruct color; [by apply op_led_wf | done].
  - eexists. split; [done |]. unfold operator_leds_set_leds_sequence.
    assert (Hl : length (rgb_leds_set_leds_sequence bd input led_format (op_leds s) true).2 = length (op_leds s)).
    { rewrite sequence_stored. destruct (_ || _); [done |]. cbn. by rewrite on_strip_length. }
    destruct (rgb_leds_set_leds_sequence _ _ _ _ _) as [ret buffer]. cbn [snd] in Hl. unfold zlen in *.
    destruct W. destruct (ret =? RET_SUCCESS); split; cbn; try done; unfold zlen in *; by rewrite Hl.
  - eexists. split; [done |]. destruct W. split; cbn; try done. apply u8_range.
  - destruct (operator_turn_ok s W) as (s' & f & -> & W' & _). by eexists.
Qed.
End Runs.

(** A pattern asked for is shown.  After any calls and turns the arithmetic of the thread is
    defined, and the frame of the turn that follows a pattern has the LEDs of the
    mask in one colour, that of the pattern when it does not pulse, and the
    others dark. *)
Theorem operator_pattern_shown bd SINE_LUT strip_writes l s p mask color :
  table_wf SINE_LUT -> (forall a, zlen (strip_writes a) = zlen a) -> operator_wf bd s ->
  Forall operator_event_wf l -> operator_event_wf (OPattern p mask color) ->
  exists s1 s' c, operator_run bd SINE_LUT strip_writes l s = Some s1 /\
    operator_run bd SINE_LUT strip_writes [OPattern p mask color; OTurn] s1 = Some s' /\
    op_frames s' = op_frames s1 ++ [masked bd mask c] /\
    let base := match color with Some x => op_led_of_color bd x | None => op_color s1 end in
    match still_color p (op_intensity s1) base with Some x => c = x | None => True end.
Proof.
  intros Ht Hw W Hl He.
  assert (exists s1, operator_run bd SINE_LUT strip_writes l s = Some s1 /\ operator_wf bd s1) as (s1 & -> & W1).
  { revert s W. induction l as [|e l IH]; intros s W; [by exists s |]. apply Forall_cons in Hl as [H1 H2].
    destruct (operator_step_ok bd SINE_LUT strip_writes Ht Hw e s W H1) as (s' & E & W'). cbn. rewrite E. by apply IH. }
  destruct (operator_step_ok bd SINE_LUT strip_writes Ht Hw (OPattern p mask color) s1 W1 He) as (s2 & E2 & W2).
  destruct (operator_turn_ok bd SINE_LUT strip_writes Ht Hw s2 W2) as (s3 & f & E3 & _ & Hf & Hs).
  cbn in E2. injection E2 as <-. cbn [op_use_sequence operator_leds_set_pattern set_operator snd] in Hs. destruct Hs as (c & -> & Hs).
  exists s1, s3, c. split; [done |]. split; [cbn [operator_run operator_step mbind option_bind operator_leds_set_pattern snd]; by rewrite E3 |]. done.
Qed.

Lemma operator_pattern_shown_witness :
  exists s1 s' c, operator_run Pearl square_lut rotating [OTurn; OSequence 3 [1; 2; 3]; OTurn] (operator_boot Pearl) = Some s1 /\
    operator_run Pearl square_lut rotating [OPattern OP_RGB 24 (Some (Color 9 8 7 0)); OTurn] s1 = Some s' /\
    op_frames s' = op_frames s1 ++ [masked Pearl 24 c] /\ c = Rgb 0 9 8 7.
Proof.
  apply (operator_pattern_shown Pearl square_lut rotating [OTurn; OSequence 3 [1; 2; 3]; OTurn] (operator_boot Pearl)
           OP_RGB 24 (Some (Color 9 8 7 0))).
  - apply square_wf.
  - intros a. unfold rotating, zlen. by rewrite length_fmap.
  - split; by vm_compute.
  - repeat constructor; by vm_compute.
  - by vm_compute.
Defined.

(** The supply of the Diamond's button LED follows the mask.  From the start, where
    the supply is on, after any blocking calls it is on exactly when the last mask
    was not 0, so that every frame with a LED lit is sent with the supply on. *)
Theorem supply_follows_mask strip_writes (l : list (RgbColor * Z)) s :
  supply_5v s = true -> previous_mask s = -1 ->
  let s' := fold_left (fun s x => operator_leds_set_blocking Diamond strip_writes (Some x.1) x.2 s) l s in
  supply_5v s' = negb (default (-1) (snd <$> last l) =? 0) /\ length (bl_frames s') = (length (bl_frames s) + length l)%nat.
Proof.
  intros Hs Hp. cbv zeta. induction l as [|x l IH] using rev_ind; [split; [done | cbn; lia] |].
  rewrite fold_left_app, last_snoc, length_app. cbn [fold_left].
  set (s1 := fold_left _ l s) in *. destruct IH as [IH Hf].
  assert (Hm : previous_mask s1 = default (-1) (snd <$> last l)).
  { subst s1. clear IH Hf. destruct l as [|y l _] using rev_ind; [done |]. by rewrite fold_left_app, last_snoc. }
  cbn [operator_leds_set_blocking supply_5v bl_frames fmap option_fmap option_map default]. split.
  - rewrite IH, Hm. generalize (default (-1) (snd <$> last l)). intros m. cbn.
    destruct (Z.eqb_spec m 0), (Z.eqb_spec x.2 0); done.
  - rewrite length_app, Hf. cbn. lia.
Qed.

Lemma supply_follows_mask_witness :
  supply_5v (operator_leds_set_blocking Diamond (fun l => l) (Some (Color 5 0 0 0)) 0 (Blocking [RGB_OFF] true (-1) [])) = false.
Proof.
  apply (supply_follows_mask (fun l => l) [(Color 5 0 0 0, 0)] (Blocking [RGB_OFF] true (-1) [])); reflexivity.
Defined.

(** On the Pearl a sequence equal to the frame of an animation that happens to be in the buffer is taken for
    shown, and the animation goes on. *)
Example equal_sequence_ignored :
  (s ← operator_turn Pearl square_lut (fun l => l) (operator_boot Pearl);
   let r := operator_leds_set_leds_sequence Pearl 3 (concat (replicate 5 [20; 20; 20])) s in Some (r.1, op_use_sequence r.2)) = Some (RET_SUCCESS, false).
Proof. vm_compute. reflexivity. Qed.
