(* ===== verification/Gnss.v ===== *)
(** main_board/src/gnss/gnss.c (Pearl): the sentences of the satellite receiver, read
    from its UART, checked and forwarded to the Jetson in two parts.

    The interrupt puts characters in a queue; the thread takes them one at a time.
    A computation of the thread is a [reader]: it consumes the queue, and stops
    when the queue is empty ([Starved]: it waits there for more) or when it writes
    outside of its buffer ([OutOfBounds]).  The size of a part is the generated
    code's. *)

From S2P Require Import Prelude.

Definition NMEA_MAX_SIZE : Z := 82.
Definition UART_BUFFER_SIZE : Z := NMEA_MAX_SIZE * 2.
Definition UART_CHARS_SIZE : Z := UART_BUFFER_SIZE * 2.

(** Characters. *)
Definition DOLLAR : Z := 36.
Definition STAR : Z := 42.
Definition MINUS : Z := 45.
Definition CR : Z := 13.
Definition LF : Z := 10.

(** ** Reception *)

Inductive uart_event := RX_BUF_REQUEST | RX_RDY (data : bytes) | RX_BUF_RELEASED (buf : Z) | UART_OTHER.

(** The queue, the buffer to hand over next (1 or 2), and those handed over. *)
Record uart_rx := UartRx { chars : bytes; next_buffer : Z; responses : list Z }.

Definition put_char (c : Z) (q : bytes) : bytes := if zlen q <? UART_CHARS_SIZE then q ++ [c] else q.

Definition uart_receive_callback (e : uart_event) (s : uart_rx) : uart_rx :=
  match e with
  | RX_BUF_REQUEST => UartRx (chars s) (next_buffer s) (responses s ++ [next_buffer s])
  | RX_RDY data => UartRx (fold_left (fun q c => put_char c q) (take (Z.to_nat UART_BUFFER_SIZE) data) (chars s)) (next_buffer s) (responses s)
  | RX_BUF_RELEASED buf => UartRx (chars s) buf (responses s)
  | UART_OTHER => s
  end.

(** ** Reading characters *)

Inductive result (A : Type) := Done (a : A) (rest : bytes) | Starved | OutOfBounds.
Arguments Done {A}.
Arguments Starved {A}.
Arguments OutOfBounds {A}.

Definition reader (A : Type) : Type := bytes -> result A.

#[export] Instance reader_ret : MRet reader := fun _ a q => Done a q.
#[export] Instance reader_bind : MBind reader := fun _ _ f p q =>
  match p q with Done a rest => f a rest | Starved => Starved | OutOfBounds => OutOfBounds end.

Definition get_char : reader Z := fun q => match q with c :: rest => Done c rest | [] => Starved end.

(** [msg[index] = c]. *)
Definition store (index c : Z) (msg : bytes) : reader bytes := fun q =>
  if (0 <=? index) && (index <? zlen msg) then Done (<[Z.to_nat index := c]> msg) q else OutOfBounds.

(** ** [strtoul(s, &end, 16)], for a string with its final NUL: the value, and the string from [end] on. *)

Definition is_space (c : Z) : bool := (c =? 32) || (9 <=? c) && (c <=? 13).
Definition hex_digit (c : Z) : option Z :=
  if (48 <=? c) && (c <=? 57) then Some (c - 48)
  else if (65 <=? c) && (c <=? 70) then Some (c - 55)
  else if (97 <=? c) && (c <=? 102) then Some (c - 87)
  else None.

Fixpoint skip_spaces (s : bytes) : bytes :=
  match s with c :: r => if is_space c then skip_spaces r else s | [] => [] end.

Fixpoint hex_digits (s : bytes) (v : Z) : Z * bytes :=
  match s with
  | c :: r => match hex_digit c with Some d => hex_digits r (16 * v + d) | None => (v, s) end
  | [] => (v, [])
  end.

Definition skip_prefix (s : bytes) : bytes :=
  match s with
  | z :: x :: d :: _ => if (z =? 48) && ((x =? 120) || (x =? 88)) && bool_decide (is_Some (hex_digit d)) then drop 2 s else s
  | _ => s
  end.

Definition strtoul16 (s : bytes) : Z * bytes :=
  let r := skip_spaces s in
  let '(negative, r) := match r with c :: r' => if c =? MINUS then (true, r') else if c =? 43 then (false, r') else (false, r) | [] => (false, r) end in
  let r := skip_prefix r in
  let '(v, e) := hex_digits r 0 in
  if (length e <? length r)%nat then (if 2 ^ 32 <=? v then 2 ^ 32 - 1 else if negative then u32 (- v) else v, e) else (0, s).

(** ** A sentence *)

(** The loop that looks for the asterisk: at most [n = NMEA_MAX_SIZE - index] more turns. *)
Fixpoint body_loop (n : nat) (ch index calculated_checksum : Z) (msg : bytes) : reader (Z * Z * Z * bytes) :=
  match n with
  | O => mret (ch, index, calculated_checksum, msg)
  | S n =>
      if ch =? STAR then mret (ch, index, calculated_checksum, msg)
      else
        msg ← store index ch msg;
        next ← get_char;
        body_loop n next (index + 1) (u8 (Z.lxor calculated_checksum ch)) msg
  end.

(** From the asterisk on. *)
Definition sentence_end (ch index calculated_checksum : Z) (msg : bytes) : reader (Z * bytes) :=
  if index =? NMEA_MAX_SIZE then mret (RET_ERROR_NOT_FOUND, msg)
  else
    msg ← store index ch msg;
    c0 ← get_char;
    c1 ← get_char;
    let '(read_checksum, end_) := strtoul16 [c0; c1; 0] in
    if (c0 =? MINUS) || negb (nthZ end_ 0 =? 0) then mret (RET_ERROR_NOT_FOUND, msg)
    else
      msg ← store (index + 1) c0 msg;
      msg ← store (index + 2) c1 msg;
      if negb (calculated_checksum =? u8 read_checksum) then mret (RET_ERROR_NOT_FOUND, msg)
      else
        ch ← get_char;
        if negb (ch =? CR) then mret (RET_ERROR_NOT_FOUND, msg)
        else
          msg ← store (index + 3) ch msg;
          ch ← get_char;
          if negb (ch =? LF) then mret (RET_ERROR_NOT_FOUND, msg)
          else
            msg ← store (index + 4) ch msg;
            msg ← store (index + 5) 0 msg;
            mret (RET_SUCCESS, msg).

Definition parse_nmea (msg : bytes) : reader (Z * bytes) :=
  msg ← store 0 DOLLAR msg;
  ch ← get_char;
  '(ch, index, calculated_checksum, msg) ← body_loop (Z.to_nat (NMEA_MAX_SIZE - 1)) ch 1 0 msg;
  sentence_end ch index calculated_checksum msg.

(** ** Forwarding *)

Fixpoint strlen (s : bytes) : nat := match s with c :: r => if c =? 0 then O else S (strlen r) | [] => O end.
Definition cstr (s : bytes) : bytes := take (strlen s) s.

(** [strncpy(dst, src, n)]: no more than [n] characters, filled up with NUL. *)
Definition strncpy (dst src : bytes) (n : nat) : bytes :=
  let c := take n (cstr src) in splice 0 (c ++ replicate (n - length c) 0) dst.

Record gnss := Gnss {
  counter : Z;
  msg_buffer : bytes;           (* [msg], static in the thread *)
  nmea_part : bytes;            (* of [msg] in send_nmea_message *)
  attempts : nat;               (* calls of publish_new *)
  delivered : list (Z * bytes); (* counter and part of those that succeeded *)
}.

Section Gnss.
Context (PART_SIZE : Z) (publish : nat -> Z).

Definition with_msg (m : bytes) (s : gnss) : gnss := Gnss (counter s) m (nmea_part s) (attempts s) (delivered s).
Definition set_part (p : bytes) (s : gnss) : gnss := Gnss (counter s) (msg_buffer s) p (attempts s) (delivered s).
Definition set_counter (c : Z) (s : gnss) : gnss := Gnss c (msg_buffer s) (nmea_part s) (attempts s) (delivered s).

(** [publish_new] of the part, with the counter [c]. *)
Definition publish_part (c : Z) (s : gnss) : Z * gnss :=
  let ret := publish (attempts s) in
  (ret, Gnss (counter s) (msg_buffer s) (nmea_part s) (S (attempts s))
          (delivered s ++ if ret =? RET_SUCCESS then [(c, nmea_part s)] else [])).

Definition send_nmea_message (nmea_str : bytes) (s : gnss) : Z * gnss :=
  let s := if counter s mod 2 =? 1 then set_counter (u32 (counter s + 1)) s else s in
  let len := Z.of_nat (strlen nmea_str) in
  let min := Z.to_nat (Z.min len (PART_SIZE - 1)) in
  let s := set_part (<[min := 0]> (splice 0 (take min nmea_str) (nmea_part s))) s in
  let '(ret, s) := publish_part (counter s) s in
  let '(ret, s) :=
    if ret =? RET_SUCCESS then
      publish_part (u32 (counter s + 1)) (set_part (strncpy (nmea_part s) (drop min nmea_str) (Z.to_nat (PART_SIZE - 1))) s)
    else (ret, s) in
  (ret, set_counter (u32 (counter s + 2)) s).

(** The thread, on the characters received so far.  [None]: it wrote outside of
    [msg].  Every turn takes a character. *)
Fixpoint gnss_loop (fuel : nat) (s : gnss) (q : bytes) : option gnss :=
  match fuel, q with
  | _, [] => Some s
  | O, _ => None
  | S fuel, ch :: rest =>
      if ch =? DOLLAR then
        match parse_nmea (msg_buffer s) rest with
        | Starved => Some s
        | OutOfBounds => None
        | Done (ret, msg) rest =>
            let s := with_msg msg s in
            gnss_loop fuel (if ret =? RET_SUCCESS then (send_nmea_message msg s).2 else s) rest
        end
      else gnss_loop fuel s rest
  end.

Definition gnss_thread (s : gnss) (q : bytes) : option gnss := gnss_loop (length q) s q.

Definition gnss_boot : gnss := Gnss 0 (fill (NMEA_MAX_SIZE + 1) 0) (fill PART_SIZE 0) 0 [].

End Gnss.

(** [gnss_init]: the code, whether the thread was created and whether the receiver was switched on. *)
Definition gnss_init (ready : bool) (callback_ret rx_ret : Z) : Z * bool * bool :=
  if negb ready then (RET_ERROR_INVALID_STATE, false, false)
  else if negb (callback_ret =? 0) then (RET_ERROR_INVALID_STATE, false, false)
  else if negb (rx_ret =? 0) then (RET_ERROR_INVALID_STATE, true, false)
  else (RET_SUCCESS, true, true).

(** ** Sentences as they should be *)

Definition checksum_of (body : bytes) : Z := fold_left (fun s c => u8 (Z.lxor s c)) body 0.
Definition hexd (d : Z) : Z := if d <? 10 then 48 + d else 55 + d.
(** What follows the dollar sign. *)
Definition sentence_tail (body : bytes) : bytes :=
  body ++ [STAR; hexd (checksum_of body / 16); hexd (checksum_of body mod 16); CR; LF].
Definition sentence (body : bytes) : bytes := DOLLAR :: sentence_tail body.

Lemma splice_nil i (msg : bytes) : splice i [] msg = msg.
Proof. unfold splice. cbn. rewrite Nat.add_0_r. apply take_drop. Qed.

Lemma splice_cons i c b (msg : bytes) : 0 <= i < zlen msg -> splice i (c :: b) msg = splice (i + 1) b (<[Z.to_nat i := c]> msg).
Proof.
  intros Hi. unfold zlen in Hi. unfold splice. replace (Z.to_nat (i + 1)) with (S (Z.to_nat i)) by lia.
  rewrite (take_S_r _ _ c) by (apply list_lookup_insert_eq; lia). rewrite take_insert_ge by lia.
  rewrite drop_insert_lt by lia. rewrite <- app_assoc. cbn [app length].
  do 3 f_equal. f_equal. lia.
Qed.

Lemma store_in index c msg q : 0 <= index < zlen msg -> store index c msg q = Done (<[Z.to_nat index := c]> msg) q.
Proof. intros. unfold store. btrue (0 <=? index). by btrue (index <? zlen msg). Qed.

Lemma store_out index c msg q : zlen msg <= index -> store index c msg q = OutOfBounds.
Proof. intros. unfold store. bfalse (index <? zlen msg). by rewrite andb_false_r. Qed.

Lemma zlen_insert (msg : bytes) i c : zlen (<[i := c]> msg) = zlen msg.
Proof. unfold zlen. by rewrite length_insert. Qed.

(** The loop reads up to the asterisk, or to the end of the buffer. *)
Lemma body_loop_reads body : forall n ch i sum msg q stop rest,
  ch :: q = body ++ stop :: rest -> STAR ∉ body -> stop = STAR /\ (length body <= n)%nat \/ length body = n ->
  0 <= i -> i + zlen body <= zlen msg ->
  body_loop n ch i sum msg q =
    Done (stop, i + zlen body, fold_left (fun s c => u8 (Z.lxor s c)) body sum, splice i body msg) rest.
Proof.
  induction body as [| c b IH]; intros n ch i sum msg q stop rest E Hs Hn Hi Hl.
  - injection E as -> ->. rewrite splice_nil, zlen_nil, Z.add_0_r. destruct n; [done |]. destruct Hn as [[-> _] | [=]]. done.
  - injection E as -> ->. apply not_elem_of_cons in Hs as [Hc Hs]. cbn [length] in Hn. destruct n as [| n]; [lia |].
    rewrite zlen_cons in *. cbn [body_loop]. bfalse (c =? STAR). unfold mbind, reader_bind.
    pose proof (zlen_nonneg b). rewrite store_in by lia.
    destruct (b ++ stop :: rest) as [| next q'] eqn:E; [by destruct b |]. cbn [get_char].
    rewrite (IH n next (i + 1) _ _ q' stop rest (eq_sym E)); [| done | lia | lia | rewrite zlen_insert; lia].
    rewrite splice_cons by lia. do 3 f_equal. f_equal. lia.
Qed.

(** Where it stops, and it stays in the buffer. *)
Lemma body_loop_stops n : forall ch i sum msg q, 0 <= i -> i + Z.of_nat n <= zlen msg ->
  match body_loop n ch i sum msg q with
  | OutOfBounds => False
  | Starved => True
  | Done (ch', i', sum', msg') rest =>
      exists body, ch :: q = body ++ ch' :: rest /\ (STAR ∉ body) /\ i' = i + zlen body /\ (length body <= n)%nat /\
        (ch' = STAR \/ length body = n) /\ sum' = fold_left (fun s c => u8 (Z.lxor s c)) body sum /\ msg' = splice i body msg
  end.
Proof.
  induction n as [| n IH]; intros ch i sum msg q Hi Hl; cbn [body_loop].
  - unfold mret, reader_ret. exists []. rewrite splice_nil. repeat split; auto using not_elem_of_nil; rewrite ?zlen_nil; cbn; lia.
  - destruct (Z.eqb_spec ch STAR) as [-> | Hc].
    + unfold mret, reader_ret. exists []. rewrite splice_nil. repeat split; auto using not_elem_of_nil; rewrite ?zlen_nil; cbn; lia.
    + unfold mbind, reader_bind. rewrite store_in by lia. destruct q as [| next q]; [done |]. cbn [get_char].
      specialize (IH next (i + 1) (u8 (Z.lxor sum ch)) (<[Z.to_nat i := ch]> msg) q). rewrite zlen_insert in IH.
      specialize (IH ltac:(lia) ltac:(lia)).
      destruct (body_loop _ _ _ _ _ _) as [[[[ch' i'] sum'] msg'] rest | |]; [| done | done].
      destruct IH as (b & E & Hs & -> & Hn & Hd & -> & ->). exists (ch :: b). rewrite splice_cons, zlen_cons by lia. cbn [length app].
      split_and!; [by rewrite E | by apply not_elem_of_cons | lia | lia | destruct Hd; auto | done | done].
Qed.

Lemma checksum_byte body : 0 <= checksum_of body < 256.
Proof.
  unfold checksum_of. assert (G : forall l s, 0 <= s < 256 -> 0 <= fold_left (fun s c => u8 (Z.lxor s c)) l s < 256); [| by apply G].
  induction l as [| c l IH]; intros s Hs; cbn [fold_left]; [done |]. apply IH, u8_range.
Qed.

Lemma hexd_read n : 0 <= n < 256 ->
  strtoul16 [hexd (n / 16); hexd (n mod 16); 0] = (n, [0]) /\ hexd (n / 16) <> MINUS /\ u8 n = n.
Proof.
  intros Hn.
  set (ok := fun n => bool_decide (strtoul16 [hexd (n / 16); hexd (n mod 16); 0] = (n, [0]) /\ hexd (n / 16) <> MINUS /\ u8 n = n)).
  assert (H : forallb ok (Z.of_nat <$> seq 0 256) = true) by (by vm_compute).
  rewrite forallb_forall in H. specialize (H n). unfold ok in H. rewrite bool_decide_eq_true in H. apply H.
  apply list_elem_of_In, list_elem_of_fmap. exists (Z.to_nat n). split; [lia |]. apply elem_of_seq. lia.
Qed.

(** A character stored after those that are there. *)
Lemma store_end l c (msg : bytes) q : zlen l <= zlen msg ->
  store (zlen l) c (splice 0 l msg) q = if zlen l <? zlen msg then Done (splice 0 (l ++ [c]) msg) q else OutOfBounds.
Proof.
  intros Hl. pose proof (zlen_nonneg l). destruct (Z.ltb_spec (zlen l) (zlen msg)).
  - rewrite store_in by (rewrite zlen_splice; lia). f_equal. unfold splice, zlen in *. change (Z.to_nat 0) with 0%nat. rewrite !take_0. cbn [app Nat.add].
    rewrite Nat2Z.id. rewrite insert_app_r_alt by lia. rewrite Nat.sub_diag, length_app, <- app_assoc. f_equal. cbn [length].
    destruct (drop (length l) msg) as [| x r] eqn:E; [apply (f_equal length) in E; rewrite length_drop in E; cbn in E; lia |].
    cbn. f_equal. rewrite <- drop_drop, E. done.
  - apply store_out. rewrite zlen_splice; lia.
Qed.

Lemma store_end_in l c (msg : bytes) i q : i = zlen l -> zlen l < zlen msg -> store i c (splice 0 l msg) q = Done (splice 0 (l ++ [c]) msg) q.
Proof. intros -> ?. rewrite store_end by lia. by btrue (zlen l <? zlen msg). Qed.

Lemma store_end_out l c (msg : bytes) i q : i = zlen l -> zlen l = zlen msg -> store i c (splice 0 l msg) q = OutOfBounds.
Proof. intros -> ?. rewrite store_end by lia. by bfalse (zlen l <? zlen msg). Qed.

Lemma parse_nmea_end msg body stop rest : zlen msg = NMEA_MAX_SIZE + 1 -> (STAR ∉ body) ->
  stop = STAR /\ zlen body <= 81 \/ zlen body = 81 ->
  parse_nmea msg (body ++ stop :: rest) = sentence_end stop (1 + zlen body) (checksum_of body) (splice 0 (DOLLAR :: body) msg) rest.
Proof.
  intros Hm Hs Hb. unfold NMEA_MAX_SIZE in *. unfold parse_nmea, mbind, reader_bind. rewrite store_in by lia.
  destruct (body ++ stop :: rest) as [| ch q] eqn:E; [by destruct body |]. cbn [get_char].
  rewrite (body_loop_reads body _ ch 1 0 _ q stop rest (eq_sym E));
    [| done | unfold zlen, NMEA_MAX_SIZE in *; lia | lia | rewrite zlen_insert; lia].
  rewrite splice_cons by lia. done.
Qed.

(** One store after the other, in the buffer and out of it. *)
Ltac stores l :=
  first [rewrite (store_end_in l) by (rewrite ?zlen_app, ?zlen_cons, ?zlen_nil; lia)
        | rewrite (store_end_out l) by (rewrite ?zlen_app, ?zlen_cons, ?zlen_nil; lia)];
  cbv beta iota.

Lemma checked_tail msg body rest : zlen msg = NMEA_MAX_SIZE + 1 -> zlen body <= 80 ->
  sentence_end STAR (1 + zlen body) (checksum_of body) (splice 0 (DOLLAR :: body) msg)
    (hexd (checksum_of body / 16) :: hexd (checksum_of body mod 16) :: CR :: LF :: rest) =
  if zlen body <=? 76 then Done (RET_SUCCESS, splice 0 (sentence body ++ [0]) msg) rest else OutOfBounds.
Proof.
  unfold NMEA_MAX_SIZE. intros Hm Hb. pose proof (zlen_nonneg body).
  destruct (hexd_read (checksum_of body) (checksum_byte body)) as (E1 & E2 & E3).
  unfold sentence_end, NMEA_MAX_SIZE, mbind, reader_bind. bfalse (1 + zlen body =? 82). 
  assert (Es : ((((((DOLLAR :: body) ++ [STAR]) ++ [hexd (checksum_of body / 16)]) ++ [hexd (checksum_of body mod 16)]) ++ [CR]) ++ [LF]) ++ [0]
               = sentence body ++ [0]) by (unfold sentence, sentence_tail; rewrite <- !app_assoc; cbn [app]; by rewrite <- !app_assoc).
  set (h0 := hexd (checksum_of body / 16)) in *. set (h1 := hexd (checksum_of body mod 16)) in *. clearbody h0 h1.
  stores (DOLLAR :: body). cbn [get_char]. rewrite E1. change (nthZ [0] 0 =? 0) with true.
  bfalse (h0 =? MINUS). cbn [orb negb].
  rewrite E3, (Z.eqb_refl (checksum_of body)). cbn [negb].
  stores ((DOLLAR :: body) ++ [STAR]).
  destruct (Z.eq_dec (zlen body) 80); [by stores (((DOLLAR :: body) ++ [STAR]) ++ [h0]); bfalse (zlen body <=? 76) |].
  stores (((DOLLAR :: body) ++ [STAR]) ++ [h0]).
  cbn [get_char]. change (CR =? CR) with true. cbn [negb].
  destruct (Z.eq_dec (zlen body) 79); [by stores ((((DOLLAR :: body) ++ [STAR]) ++ [h0]) ++ [h1]); bfalse (zlen body <=? 76) |].
  stores ((((DOLLAR :: body) ++ [STAR]) ++ [h0]) ++ [h1]).
  cbn [get_char]. change (LF =? LF) with true. cbn [negb]. destruct (Z.eq_dec (zlen body) 78).
  { stores (((((DOLLAR :: body) ++ [STAR]) ++ [h0]) ++ [h1]) ++ [CR]). by bfalse (zlen body <=? 76). }
  stores (((((DOLLAR :: body) ++ [STAR]) ++ [h0]) ++ [h1]) ++ [CR]).
  destruct (Z.eq_dec (zlen body) 77).
  { stores ((((((DOLLAR :: body) ++ [STAR]) ++ [h0]) ++ [h1]) ++ [CR]) ++ [LF]). by bfalse (zlen body <=? 76). }
  stores ((((((DOLLAR :: body) ++ [STAR]) ++ [h0]) ++ [h1]) ++ [CR]) ++ [LF]). btrue (zlen body <=? 76). by rewrite Es.
Qed.


(** What the parser makes of a sentence with the right checksum: up to 76 characters between the
    dollar sign and the asterisk, the sentence is accepted, and stored with its final NUL; from 77 to 80
    the parser writes after the end of its buffer; from 81 on it is refused, once 82
    characters were read. *)
Theorem sentence_outcome msg body rest : zlen msg = NMEA_MAX_SIZE + 1 -> STAR ∉ body ->
  parse_nmea msg (sentence_tail body ++ rest) =
    if zlen body <=? 76 then Done (RET_SUCCESS, splice 0 (sentence body ++ [0]) msg) rest
    else if zlen body <=? 80 then OutOfBounds
    else Done (RET_ERROR_NOT_FOUND, splice 0 (DOLLAR :: take 81 body) msg) (drop 82 (sentence_tail body ++ rest)).
Proof.
  intros Hm Hs. destruct (Z.leb_spec (zlen body) 80) as [Hb | Hb].
  - unfold sentence_tail. rewrite <- app_assoc. cbn [app]. rewrite parse_nmea_end by (done || lia).
    rewrite checked_tail by done. by destruct (zlen body <=? 76).
  - bfalse (zlen body <=? 76).
    destruct (drop 81 (sentence_tail body ++ rest)) as [| stop rest'] eqn:E.
    { apply (f_equal length) in E. rewrite length_drop in E. unfold sentence_tail, zlen in *. rewrite !length_app in E. cbn in E. lia. }
    assert (T : take 81 (sentence_tail body ++ rest) = take 81 body).
    { unfold sentence_tail. rewrite <- app_assoc. apply take_app_le. unfold zlen in *. lia. }
    assert (L : zlen (take 81 body) = 81) by (unfold zlen in *; rewrite length_take; lia).
    rewrite <- (take_drop 81 (sentence_tail body ++ rest)) at 1. rewrite T, E. rewrite parse_nmea_end; [| done | | by right].
    + unfold sentence_end, NMEA_MAX_SIZE. rewrite L. cbn [Z.add Z.eqb]. unfold mret, reader_ret. do 2 f_equal.
      change 82%nat with (1 + 81)%nat. by rewrite Nat.add_comm, <- drop_drop, E.
    + intros H. apply Hs. by apply elem_of_take in H as (? & ? & _); eapply list_elem_of_lookup_2.
Qed.

(** ** Only checked sentences are accepted *)

Lemma store_end_inv l c (msg m : bytes) i q r : zlen l <= zlen msg -> i = zlen l -> store i c (splice 0 l msg) q = Done m r ->
  zlen l < zlen msg /\ m = splice 0 (l ++ [c]) msg /\ r = q.
Proof. intros Hl ->. rewrite store_end by done. destruct (Z.ltb_spec (zlen l) (zlen msg)); intros [=]. by subst. Qed.

Ltac next_store H l :=
  match type of H with
  | match store ?i ?c (splice 0 _ ?m) ?q with _ => _ end = _ =>
      let E := fresh "E" in destruct (store i c (splice 0 l m) q) as [? ? | |] eqn:E; [| done | done];
      apply store_end_inv in E; [destruct E as (? & -> & ->) | rewrite ?zlen_app, ?zlen_cons, ?zlen_nil in *; lia
                                | rewrite ?zlen_app, ?zlen_cons, ?zlen_nil; lia]
  end.

Lemma sentence_end_accepts msg body ch q msg' rest : zlen msg = NMEA_MAX_SIZE + 1 -> zlen body <= 81 ->
  sentence_end ch (1 + zlen body) (checksum_of body) (splice 0 (DOLLAR :: body) msg) q = Done (RET_SUCCESS, msg') rest ->
  zlen body <= 76 /\ exists c0 c1, q = [c0; c1; CR; LF] ++ rest /\
    msg' = splice 0 (DOLLAR :: body ++ [ch; c0; c1; CR; LF; 0]) msg /\
    u8 (strtoul16 [c0; c1; 0]).1 = checksum_of body /\ c0 <> MINUS /\ nthZ (strtoul16 [c0; c1; 0]).2 0 = 0.
Proof.
  unfold NMEA_MAX_SIZE. intros Hm Hb. unfold sentence_end, mbind, reader_bind, mret, reader_ret, NMEA_MAX_SIZE.
  destruct (1 + zlen body =? 82); [done |]. intros H. next_store H (DOLLAR :: body).
  destruct q as [| c0 q]; [done |]. cbn [get_char] in H. destruct q as [| c1 q]; [done |]. cbn [get_char] in H.
  destruct (strtoul16 [c0; c1; 0]) as [v e] eqn:Es. destruct (Z.eqb_spec c0 MINUS) as [| Hc]; [done |]. cbn [orb] in H.
  destruct (Z.eqb_spec (nthZ e 0) 0) as [He |]; [| done]. cbn [negb] in H.
  next_store H ((DOLLAR :: body) ++ [ch]). next_store H (((DOLLAR :: body) ++ [ch]) ++ [c0]).
  destruct (Z.eqb_spec (checksum_of body) (u8 v)) as [Hv |]; [| done]. cbn [negb] in H.
  destruct q as [| d q]; [done |]. cbn [get_char] in H. destruct (Z.eqb_spec d CR) as [-> |]; [| done]. cbn [negb] in H.
  next_store H ((((DOLLAR :: body) ++ [ch]) ++ [c0]) ++ [c1]).
  destruct q as [| d q]; [done |]. cbn [get_char] in H. destruct (Z.eqb_spec d LF) as [-> |]; [| done]. cbn [negb] in H.
  next_store H (((((DOLLAR :: body) ++ [ch]) ++ [c0]) ++ [c1]) ++ [CR]).
  next_store H ((((((DOLLAR :: body) ++ [ch]) ++ [c0]) ++ [c1]) ++ [CR]) ++ [LF]).
  injection H as <- <-. rewrite !zlen_app, !zlen_cons, !zlen_nil in *. split; [lia |]. exists c0, c1.
  rewrite Es. split_and!; [done | by rewrite <- !app_assoc | symmetry; exact Hv | exact Hc | exact He].
Qed.

(** A sentence is accepted only if it is one: what was read since the dollar sign is a body without an
    asterisk, of at most 76 characters, the asterisk, two characters that [strtoul] reads as the exclusive or of
    the body, a carriage return and a line feed; and the buffer holds it from the dollar sign on, ended by a NUL. *)
Theorem accepted_sentence msg q msg' rest : zlen msg = NMEA_MAX_SIZE + 1 ->
  parse_nmea msg q = Done (RET_SUCCESS, msg') rest ->
  exists body c0 c1, q = body ++ [STAR; c0; c1; CR; LF] ++ rest /\ (STAR ∉ body) /\ zlen body <= 76 /\
    msg' = splice 0 (DOLLAR :: body ++ [STAR; c0; c1; CR; LF; 0]) msg /\
    u8 (strtoul16 [c0; c1; 0]).1 = checksum_of body.
Proof.
  intros Hm. unfold parse_nmea, mbind at 1 2 3, reader_bind at 1 2 3. rewrite store_in by (unfold NMEA_MAX_SIZE in *; lia).
  destruct q as [| ch q]; [done |]. cbn [get_char].
  pose proof (body_loop_stops (Z.to_nat (NMEA_MAX_SIZE - 1)) ch 1 0 (<[Z.to_nat 0 := DOLLAR]> msg) q) as S.
  rewrite zlen_insert in S. specialize (S ltac:(lia) ltac:(unfold NMEA_MAX_SIZE in *; lia)).
  destruct (body_loop _ _ _ _ _ _) as [[[[ch' i] sum] m] q' | |]; [| done | done].
  destruct S as (body & -> & Hs & -> & Hn & Hd & -> & ->). fold (checksum_of body). rewrite <- (splice_cons 0 DOLLAR) by (unfold NMEA_MAX_SIZE in *; lia).
  assert (Hb : zlen body <= 81) by (unfold zlen, NMEA_MAX_SIZE in *; lia).
  intros H. apply sentence_end_accepts in H as (Hz & c0 & c1 & -> & -> & Hv & _ & _); [| done | done].
  assert (ch' = STAR) as -> by (destruct Hd; [done | unfold zlen, NMEA_MAX_SIZE in *; lia]).
  exists body, c0, c1. by split_and!.
Qed.

(** ** Everything received is delivered *)

(** The receiver of the parts: an even counter, then the next one. *)
Fixpoint joined (l : list (Z * bytes)) : list bytes :=
  match l with
  | [] => []
  | (c1, p1) :: tl =>
      match tl with
      | (c2, p2) :: r => if (c1 mod 2 =? 0) && (c2 =? c1 + 1) then (cstr p1 ++ cstr p2) :: joined r else joined tl
      | [] => []
      end
  end.

Definition even_head (l : list (Z * bytes)) : Prop := match l with [] => True | (c, _) :: _ => c mod 2 = 0 end.

(** What one call of [send_nmea_message] delivers. *)
Inductive message_parts (text : bytes) : list (Z * bytes) -> Prop :=
| parts_none : message_parts text []
| parts_first c p1 : c mod 2 = 0 -> message_parts text [(c, p1)]
| parts_both c p1 p2 : c mod 2 = 0 -> cstr p1 ++ cstr p2 = text -> message_parts text [(c, p1); (c + 1, p2)].

Lemma joined_message text g l : message_parts text g -> even_head l ->
  exists j, joined (g ++ l) = j ++ joined l /\ (j = [] \/ j = [text]) /\ (length g = 2%nat -> j = [text]) /\ even_head (g ++ l).
Proof.
  intros [| c p1 Hc | c p1 p2 Hc Ht] Hl.
  - exists []. split_and!; auto; done.
  - exists []. split_and!; auto; [| done]. destruct l as [| [c' p'] l]; [done |]. cbn [app joined]. cbn in Hl.
    assert (c' <> c + 1) by (intros ->; rewrite Zplus_mod, Hc in Hl; done). bfalse (c' =? c + 1). by rewrite andb_false_r.
  - exists [text]. split_and!; auto. cbn [app joined]. btrue (c mod 2 =? 0). btrue (c + 1 =? c + 1). cbn. by rewrite Ht.
Qed.

Lemma strlen_text (text junk : bytes) : (0 ∉ text) -> strlen (text ++ 0 :: junk) = length text.
Proof.
  induction text as [| c t IH]; intros H; cbn; [done |]. apply not_elem_of_cons in H as [Hc H].
  bfalse (c =? 0). by rewrite IH.
Qed.

Lemma cstr_text (text junk : bytes) : (0 ∉ text) -> cstr (text ++ 0 :: junk) = text.
Proof. intros H. unfold cstr. rewrite strlen_text by done. by rewrite take_app_length. Qed.

Lemma not_in_take (x : Z) n (l : bytes) : (x ∉ l) -> (x ∉ take n l).
Proof. intros H Hn. apply H. rewrite <- (take_drop n l). apply elem_of_app. auto. Qed.
Lemma not_in_drop (x : Z) n (l : bytes) : (x ∉ l) -> (x ∉ drop n l).
Proof. intros H Hn. apply H. rewrite <- (take_drop n l). apply elem_of_app. auto. Qed.

(** A text copied to the start of a buffer, and its NUL. *)
Lemma cstr_stored (text part : bytes) : (0 ∉ text) -> (length text < length part)%nat ->
  let p := <[length text := 0]> (splice 0 text part) in cstr p = text /\ zlen p = zlen part /\ p !! length text = Some 0.
Proof.
  intros H Hl. cbv zeta.
  assert (E : <[length text := 0]> (splice 0 text part) = text ++ 0 :: drop (S (length text)) part).
  { unfold splice. change (Z.to_nat 0) with 0%nat. rewrite take_0. cbn [app Nat.add]. rewrite insert_app_r_alt by lia. rewrite Nat.sub_diag. f_equal.
    destruct (drop (length text) part) as [| x r] eqn:D; [apply (f_equal length) in D; rewrite length_drop in D; cbn in D; lia |].
    cbn. f_equal. change (S (length text)) with (1 + length text)%nat. by rewrite Nat.add_comm, <- drop_drop, D. }
  rewrite E, cstr_text by done. split; [done |]. split.
  - unfold zlen. rewrite length_app. cbn [length]. rewrite length_drop. lia.
  - rewrite lookup_app_r, Nat.sub_diag by lia. done.
Qed.

(** The second part ends within the buffer: what [strncpy] does not fill up ends with the NUL that is there. *)
Lemma cstr_strncpy (dst src text junk : bytes) n : (0 ∉ text) -> src = text ++ 0 :: junk -> length dst = S n ->
  (length text <= n)%nat -> (length text = n -> dst !! n = Some 0) ->
  cstr (strncpy dst src n) = text /\ zlen (strncpy dst src n) = zlen dst.
Proof.
  intros H -> Hd Hn H0. unfold strncpy. rewrite cstr_text by done. rewrite (take_ge text) by lia.
  set (d := text ++ replicate (n - length text) 0). assert (Ld : length d = n) by (unfold d; rewrite length_app, length_replicate; lia).
  split; [| apply zlen_splice; unfold zlen; lia]. unfold splice. change (Z.to_nat 0) with 0%nat. rewrite take_0. cbn [app Nat.add]. rewrite Ld.
  destruct (drop n dst) as [| x r] eqn:D; [apply (f_equal length) in D; rewrite length_drop in D; cbn in D; lia |].
  unfold d. rewrite <- app_assoc. destruct (Nat.eq_dec (length text) n) as [E | E].
  - rewrite E, Nat.sub_diag. cbn. assert (x = 0) as ->; [| by apply cstr_text].
    specialize (H0 E). rewrite <- (Nat.add_0_r n), <- lookup_drop, D in H0. by injection H0.
  - destruct (n - length text)%nat as [| k] eqn:K; [lia |]. cbn. by apply cstr_text.
Qed.

Section Delivery.
Context (PART_SIZE : Z) (publish : nat -> Z) (part_size : NMEA_MAX_SIZE <= 2 * (PART_SIZE - 1)).

Definition gnss_wf (s : gnss) : Prop :=
  0 <= counter s < 2 ^ 32 /\ counter s mod 2 = 0 /\ zlen (msg_buffer s) = NMEA_MAX_SIZE + 1 /\ zlen (nmea_part s) = PART_SIZE.

Lemma next_even c : 0 <= c < 2 ^ 32 -> c mod 2 = 0 -> u32 (c + 1) = c + 1 /\ 0 <= u32 (c + 2) < 2 ^ 32 /\ u32 (c + 2) mod 2 = 0.
Proof.
  intros Hc H2. split; [apply u32_small; zify_div |]. split; [apply u32_range |]. unfold u32.
  destruct (Z_lt_le_dec (c + 2) (2 ^ 32)); [rewrite (Z.mod_small (c + 2)) by lia; zify_div |].
  replace (c + 2) with (2 ^ 32) by zify_div. done.
Qed.

Lemma send_delivers text junk s : gnss_wf s -> (0 ∉ text) -> zlen text <= NMEA_MAX_SIZE ->
  let s' := (send_nmea_message PART_SIZE publish (text ++ 0 :: junk) s).2 in
  gnss_wf s' /\ msg_buffer s' = msg_buffer s /\
  exists g, delivered s' = delivered s ++ g /\ message_parts text g /\ ((forall n, publish n = RET_SUCCESS) -> length g = 2%nat).
Proof.
  intros (Hc & H2 & Hm & Hp) Ht Hl. cbv zeta. destruct (next_even _ Hc H2) as (N1 & N2 & N3).
  unfold send_nmea_message. rewrite H2. change (0 =? 1) with false. cbv iota. rewrite strlen_text by done.
  unfold NMEA_MAX_SIZE in *. set (n := Z.to_nat (Z.min (Z.of_nat (length text)) (PART_SIZE - 1))).
  assert (En : take n (text ++ 0 :: junk) = take n text) by (apply take_app_le; lia).
  assert (Dn : drop n (text ++ 0 :: junk) = drop n text ++ 0 :: junk) by (apply drop_app_le; lia).
  assert (Ln : length (take n text) = n) by (rewrite length_take; lia). rewrite En, Dn.
  destruct (cstr_stored (take n text) (nmea_part s)) as (P1 & P2 & P3); [by apply not_in_take | unfold zlen in *; lia |]. cbv zeta in *.
  rewrite Ln in *. set (p1 := <[n := 0]> _) in *.
  destruct (cstr_strncpy p1 (drop n text ++ 0 :: junk) (drop n text) junk (Z.to_nat (PART_SIZE - 1))) as [Q1 Q2];
    [by apply not_in_drop | done | unfold zlen in *; lia | rewrite length_drop; unfold zlen in *; lia | | ].
  { rewrite length_drop. intros E. rewrite <- P3. f_equal. unfold zlen in *. lia. }
  unfold publish_part, set_part, set_counter. cbn [counter nmea_part attempts msg_buffer delivered]. rewrite N1.
  destruct (Z.eqb_spec (publish (attempts s)) RET_SUCCESS) as [E1 | E1]; cbn [fst snd counter nmea_part attempts msg_buffer delivered].
  - split; [split_and!; try done; cbn; lia |]. split; [done |].
    destruct (Z.eqb_spec (publish (S (attempts s))) RET_SUCCESS) as [E2 | E2].
    + exists [(counter s, p1); (counter s + 1, strncpy p1 (drop n text ++ 0 :: junk) (Z.to_nat (PART_SIZE - 1)))].
      split; [by rewrite <- app_assoc |]. split; [| done]. constructor; [done |]. by rewrite P1, Q1, take_drop.
    + exists [(counter s, p1)]. rewrite app_nil_r. split; [done |]. split; [by constructor | intros A; by rewrite A in E2].
  - split; [split_and!; try done; cbn; lia |]. split; [done |]. exists []. split; [done |]. split; [constructor | intros A; by rewrite A in E1].
Qed.

Lemma loop_noise l q : (DOLLAR ∉ l) -> forall f s, (length (l ++ q) <= f)%nat ->
  gnss_loop PART_SIZE publish f s (l ++ q) = gnss_loop PART_SIZE publish (f - length l) s q.
Proof.
  induction l as [| c l IH]; intros Hn f s Hf; [by rewrite Nat.sub_0_r |]. apply not_elem_of_cons in Hn as [Hc Hn].
  cbn [app length] in *. destruct f as [| f]; [lia |]. cbn [gnss_loop]. bfalse (c =? DOLLAR). by rewrite IH by (done || lia).
Qed.

Lemma loop_sentence body q f s : gnss_wf s -> (STAR ∉ body) -> (0 ∉ body) -> zlen body <= 76 -> (length (sentence body ++ q) <= f)%nat ->
  exists s', gnss_loop PART_SIZE publish f s (sentence body ++ q) = gnss_loop PART_SIZE publish (f - 1) s' q /\ gnss_wf s' /\
    exists g, delivered s' = delivered s ++ g /\ message_parts (sentence body) g /\ ((forall n, publish n = RET_SUCCESS) -> length g = 2%nat).
Proof.
  intros W Hs H0 Hb Hf. unfold sentence at 1. cbn [app]. destruct f as [| f]; [cbn in Hf; lia |]. cbn [gnss_loop].
  change (DOLLAR =? DOLLAR) with true. cbv iota. rewrite sentence_outcome by (done || apply W). btrue (zlen body <=? 76).
  change (RET_SUCCESS =? RET_SUCCESS) with true. cbv iota. cbn [Nat.sub]. rewrite Nat.sub_0_r.
  assert (L : zlen (sentence body) <= NMEA_MAX_SIZE).
  { unfold sentence, sentence_tail, NMEA_MAX_SIZE. rewrite zlen_cons, zlen_app, !zlen_cons, zlen_nil. lia. }
  assert (N : 0 ∉ sentence body).
  { unfold sentence, sentence_tail. apply not_elem_of_cons. split; [done |]. apply not_elem_of_app. split; [done |].
    assert (forall d, 0 <= d -> 0 <> hexd d) by (intros d ?; unfold hexd; destruct (d <? 10); lia).
    pose proof (checksum_byte body). repeat (apply not_elem_of_cons; split; [try done; apply H; zify_div |]). apply not_elem_of_nil. }
  set (m := splice 0 (sentence body ++ [0]) (msg_buffer s)).
  assert (Em : exists junk, m = sentence body ++ 0 :: junk).
  { unfold m, splice. rewrite take_0. cbn [app]. rewrite <- app_assoc. by eexists. }
  assert (Hm : zlen m = NMEA_MAX_SIZE + 1).
  { unfold m. destruct W as (_ & _ & W & _). rewrite zlen_splice; [done | lia |]. rewrite zlen_app. change (zlen [0]) with 1. lia. }
  destruct Em as [junk Em].
  destruct (send_delivers (sentence body) junk (with_msg m s)) as (W' & _ & g & D & G); [| done | done |].
  { destruct W as (W1 & W2 & _ & W4). exact (conj W1 (conj W2 (conj Hm W4))). }
  eexists. split; [by rewrite Em |]. rewrite Em in *. split; [exact W' |]. by exists g.
Qed.

End Delivery.

(** C34: Sentences reach the Jetson.  The receiver sends well-formed sentences, each of a
    body of at most 76 bytes (82 characters with the rest) without star or zero byte, and
    between them anything without a dollar sign: every sentence is forwarded, in
    order, in two parts that the counters let the Jetson put together again, and nothing
    else is.  When the messages are all taken, the Jetson has exactly the sentences; when some are not, it has some of
    them, none torn or mixed.  A dollar sign in the noise can cost the sentence after it
    ([cut_sentence_takes_the_next]). *)
Theorem sentences_delivered PART_SIZE publish (l : list (bytes * bytes)) last :
  NMEA_MAX_SIZE <= 2 * (PART_SIZE - 1) ->
  Forall (fun x => (DOLLAR ∉ x.1) /\ (STAR ∉ x.2) /\ (0 ∉ x.2) /\ zlen x.2 <= 76) l -> (DOLLAR ∉ last) ->
  exists s', gnss_thread PART_SIZE publish (gnss_boot PART_SIZE) (concat ((fun x => x.1 ++ sentence x.2) <$> l) ++ last) = Some s' /\
    joined (delivered s') `sublist_of` (sentence ∘ snd <$> l) /\
    ((forall n, publish n = RET_SUCCESS) -> joined (delivered s') = sentence ∘ snd <$> l).
Proof.
  intros HP Hl Hlast. unfold gnss_thread.
  assert (G : forall f s, gnss_wf PART_SIZE s -> (length (concat ((fun x => x.1 ++ sentence x.2) <$> l) ++ last) <= f)%nat ->
    exists s' d, gnss_loop PART_SIZE publish f s (concat ((fun x => x.1 ++ sentence x.2) <$> l) ++ last) = Some s' /\
      delivered s' = delivered s ++ d /\ even_head d /\ joined d `sublist_of` (sentence ∘ snd <$> l) /\
      ((forall n, publish n = RET_SUCCESS) -> joined d = sentence ∘ snd <$> l)).
  { induction l as [| [n body] l IH]; intros f s W Hf.
    - exists s, []. cbn [fmap list_fmap concat app] in *. pose proof (loop_noise PART_SIZE publish last [] Hlast f s) as N. rewrite app_nil_r in N.
      rewrite N by done. rewrite app_nil_r. split; [by destruct (f - length last)%nat |]. by split_and!.
    - apply Forall_cons in Hl as [(H1 & H2 & H3 & H4) Hl]. cbn [fmap list_fmap concat fst snd] in *. rewrite <- !app_assoc in *.
      rewrite loop_noise by done. rewrite length_app in Hf.
      destruct (loop_sentence PART_SIZE publish HP body (concat ((fun x => x.1 ++ sentence x.2) <$> l) ++ last) (f - length n) s)
        as (s1 & -> & W1 & g & D1 & G1 & G2); [done | done | done | done | lia |].
      rewrite length_app in Hf. unfold sentence at 1 in Hf. cbn [length] in Hf.
      destruct (IH Hl (f - length n - 1)%nat s1 W1 ltac:(lia)) as (s' & d & -> & D2 & E2 & S2 & J2).
      destruct (joined_message _ _ _ G1 E2) as (j & J & Hj & Jj & Eh).
      exists s', (g ++ d). split; [done |]. rewrite D2, D1, <- app_assoc. split; [done |]. split; [done |]. rewrite J. split.
      + destruct Hj as [-> | ->]; cbn; [by apply sublist_cons | by apply sublist_skip].
      + intros A. rewrite Jj by auto. rewrite (J2 A). done. }
  destruct (G (length (concat ((fun x => x.1 ++ sentence x.2) <$> l) ++ last)) (gnss_boot PART_SIZE)) as (s' & d & -> & D & _ & S & J); [| done |].
  { unfold NMEA_MAX_SIZE in *. split_and!; try done; cbn [msg_buffer nmea_part gnss_boot]; apply zlen_fill; lia. }
  exists s'. by rewrite D.
Qed.

Ltac absent := let H := fresh in intros H; repeat (apply elem_of_cons in H as [H | H]; [discriminate H |]); by apply not_elem_of_nil in H.

Lemma sentence_outcome_witness :
  parse_nmea (fill 83 7) (sentence_tail [71; 80; 84; 69; 44; 49] ++ [1; 2]) =
    Done (RET_SUCCESS, splice 0 (sentence [71; 80; 84; 69; 44; 49] ++ [0]) (fill 83 7)) [1; 2] /\
  parse_nmea (fill 83 7) (sentence_tail (fill 77 65) ++ []) = OutOfBounds.
Proof.
  assert (N : forall n, STAR ∉ fill n 65).
  { intros n H. apply elem_of_replicate in H as [H _]. discriminate H. }
  split.
  - refine (sentence_outcome (fill 83 7) [71; 80; 84; 69; 44; 49] [1; 2] eq_refl _). absent.
  - exact (sentence_outcome (fill 83 7) (fill 77 65) [] eq_refl (N 77)).
Defined.

Lemma accepted_sentence_witness : exists body c0 c1,
  [71; 80; STAR; 49; 55; CR; LF; 9] = body ++ [STAR; c0; c1; CR; LF] ++ [9] /\ (STAR ∉ body) /\ zlen body <= 76 /\
  splice 0 [DOLLAR; 71; 80; STAR; 49; 55; CR; LF; 0] (fill 83 7) = splice 0 (DOLLAR :: body ++ [STAR; c0; c1; CR; LF; 0]) (fill 83 7) /\
  u8 (strtoul16 [c0; c1; 0]).1 = checksum_of body.
Proof. apply (accepted_sentence (fill 83 7) [71; 80; STAR; 49; 55; CR; LF; 9] _ [9] eq_refl). vm_compute. reflexivity. Defined.

Lemma sentences_delivered_witness : exists s',
  gnss_thread 50 (fun n => if Nat.eqb n 1 then 7 else 0) (gnss_boot 50)
    (concat ((fun x => x.1 ++ sentence x.2) <$> [([], [71; 80]); ([1; STAR], [DOLLAR; 71; 76])]) ++ [CR]) = Some s' /\
  joined (delivered s') `sublist_of` [sentence [71; 80]; sentence [DOLLAR; 71; 76]] /\
  joined (delivered s') = [sentence [DOLLAR; 71; 76]].
Proof.
  destruct (sentences_delivered 50 (fun n => if Nat.eqb n 1 then 7 else 0) [([], [71; 80]); ([1; STAR], [DOLLAR; 71; 76])] [CR])
    as (s' & E & S & _).
  - unfold NMEA_MAX_SIZE. lia.
  - repeat (constructor; [cbn; repeat (split; [absent |]); unfold zlen; cbn; lia |]). constructor.
  - absent.
  - exists s'. split; [exact E |]. split; [exact S |]. revert E. vm_compute. intros [= <-]. reflexivity.
Defined.

(** A sign is taken for a digit of the checksum, and so is a space. *)
Example checksum_sign_accepted :
  (match parse_nmea (fill 83 0) ([1; 4; STAR; 43; 53; CR; LF]) with Done (r, _) _ => r | _ => -1 end,
   match parse_nmea (fill 83 0) ([1; 4; STAR; 32; 53; CR; LF]) with Done (r, _) _ => r | _ => -1 end) = (RET_SUCCESS, RET_SUCCESS).
Proof. reflexivity. Qed.

(** A sentence cut off takes the next one with it. *)
Example cut_sentence_takes_the_next :
  (s ← gnss_thread 50 (fun _ => 0) (gnss_boot 50) (take 5 (sentence [71; 80; 71; 71]) ++ sentence [71; 80] ++ sentence [71; 76]);
   Some (joined (delivered s))) = Some [sentence [71; 76]].
Proof. vm_compute. reflexivity. Qed.

(** ** The interrupt *)

(** Characters are queued in order while there is room for them, and the last ones lost when there is not. *)
Theorem chars_in_order data s : zlen data <= UART_BUFFER_SIZE -> zlen (chars s) <= UART_CHARS_SIZE ->
  chars (uart_receive_callback (RX_RDY data) s) = chars s ++ take (Z.to_nat (UART_CHARS_SIZE - zlen (chars s))) data.
Proof.
  intros Hd Hs. cbn [uart_receive_callback chars]. rewrite (take_ge data) by (unfold zlen in *; lia). clear Hd.
  generalize (chars s) Hs. induction data as [| c d IH]; intros q Hq; cbn [fold_left]; [by rewrite take_nil, app_nil_r |].
  unfold put_char at 2. destruct (Z.ltb_spec (zlen q) UART_CHARS_SIZE).
  - rewrite IH by (rewrite zlen_app; change (zlen [c]) with 1; lia). rewrite zlen_app. change (zlen [c]) with 1. rewrite <- app_assoc.
    f_equal. replace (Z.to_nat (UART_CHARS_SIZE - zlen q)) with (S (Z.to_nat (UART_CHARS_SIZE - (zlen q + 1)))) by lia. done.
  - rewrite IH by done. replace (UART_CHARS_SIZE - zlen q) with 0 by lia. by rewrite !take_0.
Qed.

Lemma chars_in_order_witness :
  chars (uart_receive_callback (RX_RDY [1; 2; 3]) (UartRx (fill 326 9) 2 [])) = fill 326 9 ++ [1; 2].
Proof. exact (chars_in_order [1; 2; 3] (UartRx (fill 326 9) 2 []) ltac:(by vm_compute) ltac:(by vm_compute)). Defined.

(** The two buffers take turns: the driver asks for the next one when it starts on the other. *)
Definition driver_turn (n : nat) : list uart_event := concat (replicate n [RX_BUF_REQUEST; RX_BUF_RELEASED 1; RX_BUF_REQUEST; RX_BUF_RELEASED 2]).

Lemma buffers_alternate n s : next_buffer s = 2 ->
  responses (fold_left (fun s e => uart_receive_callback e s) (driver_turn n) s) = responses s ++ concat (replicate n [2; 1]) /\
  next_buffer (fold_left (fun s e => uart_receive_callback e s) (driver_turn n) s) = 2.
Proof.
  revert s. induction n as [| n IH]; intros s H; cbn; [by rewrite app_nil_r |].
  destruct (IH (UartRx (chars s) 2 ((responses s ++ [next_buffer s]) ++ [1])) eq_refl) as [E1 E2].
  unfold driver_turn in *. rewrite E1, E2. cbn [responses]. rewrite H, <- !app_assoc. done.
Qed.
