(* ===== verification/Distance.v ===== *)
(** The distance in front of the Orb, and what depends on it:
    main_board/src/optics/1d_tof/tof_1d.c (the sensor's thread, which debounces its
    proximity), main_board/src/optics/optics.c (the call that switches the infrared
    LEDs off, the safety circuit) and optics/ir_camera_system/ir_leds_checks_pearl.c and
    ir_leds_checks_diamond.c (the test of that circuit).

    The thread runs on the Pearl only.  What the driver returns in a turn of its
    loop is a [reading]; the mutex of the bus, the time and the texts of the state
    are left out.  [optics_step] is the thread together with the infrared camera
    system of [IrCamera]. *)

From S2P Require Import Prelude Floats IrTimer IrCamera.

Definition ORB_STATE_1D_TOF_THRESHOLD_ERROR_COUNT : Z := 3.
Definition TOO_CLOSE_THRESHOLD : Z := 3.
Definition INTER_MEASUREMENT_FREQ_HZ : Z := 3.
Definition INTER_MEASUREMENT_PERIOD_MS : Z := 1000 / INTER_MEASUREMENT_FREQ_HZ.
Definition FETCH_PERIOD_MS : Z := INTER_MEASUREMENT_PERIOD_MS + INTER_MEASUREMENT_PERIOD_MS / 2.
Definition DISTANCE_PUBLISH_PERIOD_MS : Z := FETCH_PERIOD_MS * 2.

(** ** The sensor *)

(** What the calls of one turn return: the attempts at configuring the sensor again, the check of the mode, the fetch,
    the distance, the proximity. *)
Record reading := Reading {
  attempts : list (Z * Z * Z);
  mode_ret : Z;
  fetch_ret : Z;
  distance_ret : Z; distance : Z;
  prox_ret : Z; prox : Z;
}.

(** Where the thread is: in its loop, or in [unsafe_event_cb]. *)
Inductive tof_pc := Looping | InCallback.

Record tof := Tof {
  too_close_counter : Z;
  err_count : Z;
  count : Z;
  tof_state : Z;              (* the state registered as tof_1d *)
  distances : list Z;         (* published *)
  pc : tof_pc;
}.

Definition distance_is_safe (bd : board) (s : tof) : bool :=
  match bd with Pearl => too_close_counter s <? TOO_CLOSE_THRESHOLD | Diamond => true end.

(** The return codes of the three calls of [sensor_attr_set]. *)
Definition tof_init_config (rets : Z * Z * Z) : Z :=
  let '(stop, mode, frequency) := rets in
  if negb (stop =? 0) then RET_ERROR_INTERNAL
  else if negb (mode =? 0) then RET_ERROR_INTERNAL
  else if negb (frequency =? 0) then RET_ERROR_INTERNAL
  else RET_SUCCESS.

Definition with_errors (e : Z) (s : tof) : tof := Tof (too_close_counter s) e (count s) (tof_state s) (distances s) (pc s).
Definition with_state (x : Z) (s : tof) : tof := Tof (too_close_counter s) (err_count s) (count s) x (distances s) (pc s).
Definition with_distance (d : Z) (s : tof) : tof :=
  let c := u32 (count s + 1) in
  Tof (too_close_counter s) (err_count s) c (tof_state s)
    (if c mod (DISTANCE_PUBLISH_PERIOD_MS / FETCH_PERIOD_MS) =? 0 then distances s ++ [d] else distances s) (pc s).
Definition with_counter (c : Z) (p : tof_pc) (s : tof) : tof := Tof c (err_count s) (count s) (tof_state s) (distances s) p.

Definition set_states (tof_1d_is_error : bool) (s : tof) : tof :=
  if (tof_state s =? RET_SUCCESS) && tof_1d_is_error then with_state RET_ERROR_INTERNAL s
  else if negb (tof_state s =? RET_SUCCESS) && negb tof_1d_is_error then with_state RET_SUCCESS s
  else s.

(** [while (tof_init_config() != RET_SUCCESS)]; [None]: no attempt succeeds. *)
Fixpoint configured_again (l : list (Z * Z * Z)) : option unit :=
  match l with
  | [] => None
  | r :: l => if tof_init_config r =? RET_SUCCESS then Some tt else configured_again l
  end.

Definition proximity (val1 counter : Z) : Z :=
  if val1 =? 0 then if 0 <? counter then counter - 1 else counter
  else if counter <? TOO_CLOSE_THRESHOLD then counter + 1 else counter.

(** The end of a turn that read everything. *)
Definition tof_fetched (s : tof) : tof := with_errors 0 (set_states false (with_counter (too_close_counter s) Looping s)).

(** One turn; [cb]: whether a callback is registered.  When it is to be called the thread is left there. *)
Definition tof_turn (cb : bool) (r : reading) (s : tof) : option tof :=
  let s := set_states (ORB_STATE_1D_TOF_THRESHOLD_ERROR_COUNT <=? err_count s) s in
  s ← (if ORB_STATE_1D_TOF_THRESHOLD_ERROR_COUNT <? err_count s then _ ← configured_again (attempts r); Some (with_errors 0 s) else Some s);
  if negb (mode_ret r =? 0) then Some (with_errors (u32 (err_count s + 1)) s)
  else if negb (fetch_ret r =? 0) then Some s
  else if negb (distance_ret r =? 0) then Some s
  else
    let s := with_distance (u32 (distance r)) s in
    if negb (prox_ret r =? 0) then Some s
    else
      let counter_prev := too_close_counter s in
      let s := with_counter (proximity (prox r) counter_prev) Looping s in
      if cb && negb (counter_prev =? too_close_counter s) && negb (distance_is_safe Pearl s)
      then Some (with_counter (too_close_counter s) InCallback s)
      else Some (tof_fetched s).

(** The thread starts with its configuration. *)
Definition tof_start (rets : Z * Z * Z) (s : tof) : tof := set_states (negb (tof_init_config rets =? RET_SUCCESS)) s.

Definition tof_1d_boot : tof := Tof 0 0 0 RET_ERROR_NOT_INITIALIZED [] Looping.

(** [tof_1d_init]: the device is on the board's bus, on the Diamond another one from version 4.5 on and initialised here.  The
    result: the code, the device chosen and whether the thread was created. *)
Inductive tof_device := TofSensor | TofSensorDvt.
Definition tof_1d_init (bd : board) (version_v4_5 version : Z) (ready : tof_device -> bool) (s : tof) : Z * tof * tof_device * bool :=
  let d := match bd with Diamond => if version_v4_5 <=? version then TofSensorDvt else TofSensor | Pearl => TofSensor end in
  if negb (ready d) then (RET_ERROR_INVALID_STATE, with_state RET_ERROR_INVALID_STATE s, d, false)
  else match bd with
       | Diamond => (RET_SUCCESS, with_state RET_SUCCESS s, d, false)
       | Pearl => (RET_SUCCESS, s, d, true)
       end.

(** ** optics.c *)

(** [distance_is_unsafe_cb] *)
Definition distance_is_unsafe_cb (triggered safe : bool) (ir : ir_sys) : ir_sys :=
  (ir_camera_system_set_on_time_us Pearl triggered safe 0 ir).2.

(** [ir_leds_safety_circuit_triggerd_internal]: whether the mutex was given, what locking it returns, the pin;
    the code, what is written to [triggered], and the state registered as pvcc. *)
Definition ir_leds_safety_circuit_triggerd_internal (has_mutex : bool) (lock pin : Z) (pvcc : Z) : Z * option bool * Z :=
  if negb has_mutex then (RET_ERROR_INVALID_STATE, None, pvcc)
  else if negb (lock =? 0) then (RET_ERROR_BUSY, None, pvcc)
  else if pin <? 0 then (pin, None, pvcc)
  else
    let pvcc_enabled := negb (pin =? 0) in
    (RET_SUCCESS, Some (negb pvcc_enabled), if pvcc_enabled then RET_SUCCESS else RET_ERROR_OFFLINE).

(** What [ir_camera_system_get_status] makes of it. *)
Definition safety_triggered (r : Z * option bool * Z) : bool := default false r.1.2.

(** ** The two together *)

(** A request or an interrupt of the infrared camera system sees the distance as it is then. *)
Definition seen (safe : bool) (e : ir_event) : ir_event :=
  match e with
  | EvLeds t _ w => EvLeds t safe w
  | EvFps t _ f => EvFps t safe f
  | EvOnTime t _ v => EvOnTime t safe v
  | EvTimeout _ => EvTimeout safe
  | EvStrobe l c _ => EvStrobe l c safe
  | e => e
  end.

Inductive optics_event := OpReading (r : reading) | OpCallback (triggered : bool) | OpIr (e : ir_event).

Definition optics_step (s : tof * ir_sys) (e : optics_event) : option (tof * ir_sys) :=
  match e with
  | OpReading r => match pc s.1 with Looping => t ← tof_turn true r s.1; Some (t, s.2) | InCallback => Some s end
  | OpCallback triggered =>
      match pc s.1 with
      | Looping => Some s
      | InCallback => Some (tof_fetched s.1, distance_is_unsafe_cb triggered (distance_is_safe Pearl s.1) s.2)
      end
  | OpIr e => Some (s.1, ir_step Pearl s.2 (seen (distance_is_safe Pearl s.1) e))
  end.

Fixpoint optics_run (l : list optics_event) (s : tof * ir_sys) : option (tof * ir_sys) :=
  match l with [] => Some s | e :: l => s ← optics_step s e; optics_run l s end.

(** ** The test of the safety circuit *)

Inductive test_call := SuppliesOn | PvccOff | IrLine (i : nat) (level : Z) | Wait (ms : Z) | SuppliesOff.

(** The lines from [i] on: each is driven for 100 ms, and then the circuit must have switched PVCC off. *)
Fixpoint test_lines (n i : nat) (pin : nat -> Z) : bool * list test_call :=
  match n with
  | O => (true, [])
  | S n =>
      let calls := [SuppliesOn; PvccOff; IrLine i 1; Wait 100; IrLine i 0; Wait 100; SuppliesOff; Wait 50] in
      if (if pin i <? 0 then true else negb (pin i =? 0)) then (false, calls)
      else let r := test_lines n (S i) pin in (r.1, calls ++ r.2)
  end.

Definition IR_LINES : nat := 4.

(** The code, the state registered as ir_safety, and what was done.  There is no test on the Diamond. *)
Definition optics_self_test (bd : board) (configure_ret : Z) (pin : nat -> Z) (ir_safety : Z) : Z * Z * list test_call :=
  match bd with
  | Diamond => (RET_SUCCESS, ir_safety, [])
  | Pearl =>
      if negb (configure_ret =? 0) then (RET_ERROR_INTERNAL, RET_ERROR_NOT_INITIALIZED, [])
      else let r := test_lines IR_LINES 0 pin in (RET_SUCCESS, if r.1 then RET_SUCCESS else RET_ERROR_UNSAFE, r.2)
  end.

Definition optics_self_test_skip (bd : board) (ir_safety : Z) : Z := match bd with Pearl => RET_SUCCESS | Diamond => ir_safety end.

(** ** The debounced distance *)

(** Turns with the callback, which takes no time. *)
Fixpoint tof_run (cb : bool) (l : list reading) (s : tof) : option tof :=
  match l with
  | [] => Some s
  | r :: l => s ← tof_turn cb r s; tof_run cb l (match pc s with InCallback => tof_fetched s | Looping => s end)
  end.

(** The proximity read in a turn, if it was. *)
Definition proximity_read (r : reading) : option Z :=
  if (mode_ret r =? 0) && (fetch_ret r =? 0) && (distance_ret r =? 0) && (prox_ret r =? 0) then Some (prox r) else None.

Definition moved (c : Z) (p : option Z) : Z := match p with Some p => proximity p c | None => c end.

Lemma set_states_counter e s : too_close_counter (set_states e s) = too_close_counter s /\ pc (set_states e s) = pc s /\ err_count (set_states e s) = err_count s.
Proof. unfold set_states. by repeat case_match. Qed.

Lemma fetched_counter s : too_close_counter (tof_fetched s) = too_close_counter s /\ pc (tof_fetched s) = Looping.
Proof. unfold tof_fetched. cbn. by destruct (set_states_counter false (with_counter (too_close_counter s) Looping s)) as (-> & -> & _). Qed.

(** A turn moves the counter by the proximity read, and enters the callback exactly when the distance stops being safe. *)
Lemma turn_counter cb r s s' : pc s = Looping -> tof_turn cb r s = Some s' ->
  too_close_counter s' = moved (too_close_counter s) (proximity_read r) /\
  (pc s' = InCallback <-> cb = true /\ too_close_counter s' <> too_close_counter s /\ distance_is_safe Pearl s' = false).
Proof.
  intros Hp. unfold tof_turn. set (s1 := set_states _ s).
  destruct (set_states_counter (ORB_STATE_1D_TOF_THRESHOLD_ERROR_COUNT <=? err_count s) s) as (E1 & E2 & _).
  fold s1 in E1, E2. clearbody s1. rewrite Hp in E2.
  destruct (if _ <? _ then _ else _) as [s2 |] eqn:E; [| done]. cbn [mbind option_bind].
  assert (too_close_counter s2 = too_close_counter s /\ pc s2 = Looping) as [E3 E4].
  { destruct (_ <? _); [destruct (configured_again _); [| done] |]; injection E as <-; by split. }
  clear E. unfold proximity_read. destruct (mode_ret r =? 0); cbn [negb andb]; [| by intros [= <-]; cbn; rewrite E3, E4; naive_solver].
  destruct (fetch_ret r =? 0); cbn [negb andb]; [| by intros [= <-]; cbn; rewrite E3, E4; naive_solver].
  destruct (distance_ret r =? 0); cbn [negb andb]; [| by intros [= <-]; cbn; rewrite E3, E4; naive_solver].
  destruct (prox_ret r =? 0); cbn [negb]; [| by intros [= <-]; cbn; rewrite E3, E4; naive_solver].
  cbn [too_close_counter with_distance with_counter distance_is_safe moved]. rewrite E3.
  destruct (Z.eqb_spec (too_close_counter s) (proximity (prox r) (too_close_counter s))) as [Hc | Hc]; cbn [negb andb];
    [rewrite andb_false_r | rewrite andb_true_r]; cbn [andb].
  - intros [= <-]. match goal with |- context [tof_fetched ?x] => destruct (fetched_counter x) as [-> ->] end. cbn. split; [done |]. naive_solver.
  - destruct cb; cbn [andb].
    + destruct (Z.ltb_spec (proximity (prox r) (too_close_counter s)) TOO_CLOSE_THRESHOLD) as [Hs | Hs]; cbn [negb]; intros [= <-].
      * match goal with |- context [tof_fetched ?x] => destruct (fetched_counter x) as [-> ->] end. cbn. btrue (proximity (prox r) (too_close_counter s) <? TOO_CLOSE_THRESHOLD).
        naive_solver.
      * cbn. bfalse (proximity (prox r) (too_close_counter s) <? TOO_CLOSE_THRESHOLD). naive_solver.
    + intros [= <-]. match goal with |- context [tof_fetched ?x] => destruct (fetched_counter x) as [-> ->] end. cbn. naive_solver.
Qed.

Lemma proximity_range p c : 0 <= c <= TOO_CLOSE_THRESHOLD -> 0 <= proximity p c <= TOO_CLOSE_THRESHOLD.
Proof. unfold proximity, TOO_CLOSE_THRESHOLD. intros. bdestruct_all. Qed.

Lemma run_counter cb l : forall s s', pc s = Looping -> tof_run cb l s = Some s' ->
  too_close_counter s' = fold_left (fun c p => proximity p c) (omap proximity_read l) (too_close_counter s) /\ pc s' = Looping.
Proof.
  induction l as [| r l IH]; intros s s' Hp; [by intros [= <-] |]. cbn [tof_run]. destruct (tof_turn cb r s) as [s1 |] eqn:E; [| done].
  cbn [mbind option_bind]. destruct (turn_counter cb r s s1 Hp E) as [Ec _]. intros H.
  set (s2 := match pc s1 with Looping => s1 | InCallback => tof_fetched s1 end) in H.
  assert (too_close_counter s2 = too_close_counter s1 /\ pc s2 = Looping) as [E2 P2].
  { unfold s2. destruct (pc s1) eqn:P; [by split | apply fetched_counter]. }
  apply IH in H as [-> ->]; [| done]. split; [| done]. rewrite E2, Ec. cbn [omap list_omap]. by destruct (proximity_read r).
Qed.

Lemma folded_range l : forall c, 0 <= c <= TOO_CLOSE_THRESHOLD -> 0 <= fold_left (fun c p => proximity p c) l c <= TOO_CLOSE_THRESHOLD.
Proof. induction l as [| p l IH]; intros c Hc; cbn; [done |]. by apply IH, proximity_range. Qed.

Lemma folded_close l : forall c, 0 <= c -> fold_left (fun c p => proximity p c) l c <= c + zlen (filter (fun p => p <> 0) l).
Proof.
  induction l as [| p l IH]; intros c Hc; [cbn [fold_left]; rewrite filter_nil, zlen_nil; lia |]. cbn [fold_left]. rewrite filter_cons.
  assert (0 <= proximity p c) by (unfold proximity; bdestruct_all).
  specialize (IH (proximity p c) ltac:(done)). destruct (decide (p <> 0)) as [Hp | Hp].
  - rewrite zlen_cons. assert (proximity p c <= c + 1) by (unfold proximity; bdestruct_all). lia.
  - assert (p = 0) as -> by lia. assert (proximity 0 c <= c) by (unfold proximity; cbn; bdestruct_all). lia.
Qed.

(** The debounced distance, from the start of the thread and whatever fails in between: safe after fewer than three close
    readings and right after any far one, not safe after three close readings in a row. *)
Theorem distance_debounced cb l s : tof_run cb l tof_1d_boot = Some s ->
  let ps := omap proximity_read l in
  (zlen (filter (fun p => p <> 0) ps) < TOO_CLOSE_THRESHOLD -> distance_is_safe Pearl s = true) /\
  (forall qs, ps = qs ++ [0] -> distance_is_safe Pearl s = true) /\
  (forall qs a b c, ps = qs ++ [a; b; c] -> a <> 0 -> b <> 0 -> c <> 0 -> distance_is_safe Pearl s = false).
Proof.
  intros H. cbv zeta. apply run_counter in H as [E _]; [| done]. cbn [too_close_counter tof_1d_boot] in E. unfold distance_is_safe. rewrite E. clear E.
  split_and!.
  - intros Hn. pose proof (folded_close (omap proximity_read l) 0 ltac:(lia)). btrue (fold_left (fun c p => proximity p c) (omap proximity_read l) 0 <? TOO_CLOSE_THRESHOLD). done.
  - intros qs ->. rewrite fold_left_app. cbn. pose proof (folded_range qs 0 ltac:(done)).
    unfold proximity, TOO_CLOSE_THRESHOLD in *. cbn. bdestruct_all; done.
  - intros qs a b c -> Ha Hb Hc. rewrite fold_left_app. cbn. pose proof (folded_range qs 0 ltac:(done)).
    unfold proximity at 1 2 3. unfold TOO_CLOSE_THRESHOLD in *. bfalse (a =? 0). bfalse (b =? 0). bfalse (c =? 0). bdestruct_all; done.
Qed.

Definition good_reading (d p : Z) : reading := Reading [] 0 0 0 d 0 p.

Lemma distance_debounced_witness :
  match tof_run true [good_reading 100 1; good_reading 90 1; Reading [] 5 0 0 0 0 0; good_reading 80 1] tof_1d_boot with
  | Some s => distance_is_safe Pearl s = false | None => False
  end.
Proof.
  destruct (tof_run true [good_reading 100 1; good_reading 90 1; Reading [] 5 0 0 0 0 0; good_reading 80 1] tof_1d_boot) as [s |] eqn:E; [| by vm_compute in E].
  exact (proj2 (proj2 (distance_debounced true _ s E)) [] 1 1 1 eq_refl ltac:(done) ltac:(done) ltac:(done)).
Defined.

(** ** A close object switches the infrared LEDs off *)

Definition dark (v : pulse_view) : Prop := on_time_in_us (pv_settings v) = 0 /\ pv_leds v = leds_off.

Lemma unsafe_pulse_dark v : dark (set_pulse_view Pearl false v).
Proof. done. Qed.

Lemma enable_dark v : dark v -> dark (enable_pulse_view Pearl v).
Proof. intros [H1 H2]. unfold enable_pulse_view. by rewrite H1. Qed.

Lemma apply_dark s : dark (view (apply_new_timer_settings Pearl false s)).
Proof. rewrite apply_view. cbn. apply unsafe_pulse_dark. Qed.

Lemma set_on_time_dark t s : dark (view (ir_camera_system_set_on_time_us Pearl t false 0 s).2).
Proof.
  unfold ir_camera_system_set_on_time_us, ir_camera_system_set_on_time_us_hw. cbn [Z.ltb Z.eqb negb].
  assert (E : (timer_settings_from_on_time_us Pearl 0 (global_timer_settings s) (global_timer_settings s)).1 = RET_SUCCESS).
  { unfold timer_settings_from_on_time_us. cbn [Z.ltb]. change (IR_CAMERA_SYSTEM_MAX_IR_LED_ON_TIME_US Pearl <? 0) with false.
    assert (forall d, dbl_ltb_int d 0 = false) as ->; [| by rewrite andb_false_r].
    intros [| | | [] m e]; cbn; try done. pose proof (Z.pow_nonneg 2 e ltac:(lia)). destruct (0 <=? e); apply Z.ltb_ge; lia. }
  change (IR_CAMERA_SYSTEM_MAX_IR_LED_ON_TIME_US Pearl <? 0) with false. cbv iota.
  change (RET_SUCCESS =? RET_SUCCESS) with true. cbv iota. cbn [snd]. rewrite E. change (RET_SUCCESS =? RET_SUCCESS) with true.
  cbn [andb face_gates bool_decide negb]. apply apply_dark.
Qed.

(** Sweeps and the end of an exposure do not touch the LEDs. *)
Lemma sweep_view hw t s : (forall s, view (hw s) = view s) -> view (perform_sweep hw t s).2 = view s.
Proof. intros H. unfold perform_sweep. repeat case_match; cbn [snd]; done || apply H. Qed.

Lemma focus_view s : view (ir_camera_system_perform_focus_sweep_hw Pearl s) = view s.
Proof. unfold ir_camera_system_perform_focus_sweep_hw. case_match; [| done]. etransitivity; [apply camera_force_view | done]. Qed.

Lemma mirror_view s : view (ir_camera_system_perform_mirror_sweep_hw Pearl s) = view s.
Proof. unfold ir_camera_system_perform_mirror_sweep_hw. case_match; [| done]. etransitivity; [apply camera_force_view | done]. Qed.

Lemma exposure_view c s : view (camera_exposure_completes_isr Pearl c s) = view s.
Proof.
  unfold camera_exposure_completes_isr, sweep_flags, sweep_goto.
  repeat case_match; try done; exact (camera_force_view Pearl false IrEye (with_cam_it false s)).
Qed.

(** Requests and interrupts while the distance is not safe. *)
Lemma ir_step_dark e s : ir_camera_system_initialized s = true -> dark (view s) -> dark (view (ir_step Pearl s (seen false e))).
Proof.
  intros I D.
  destruct e as [ret | c | c | t sf w | t sf f | t sf v | m n | n | n | t | t | sf | c | l c sf]; cbn [seen ir_step].
  - unfold ir_camera_system_init. by rewrite I.
  - unfold ir_camera_system_enable_camera. repeat case_match; cbn [snd]; try done. by rewrite camera_force_view.
  - unfold ir_camera_system_disable_camera. repeat case_match; cbn [snd]; try done. by rewrite camera_force_view.
  - unfold ir_camera_system_enable_leds. by repeat case_match.
  - unfold ir_camera_system_set_fps, ir_camera_system_set_fps_hw. destruct (_ =? RET_SUCCESS); [| done]. cbn [snd]. rewrite timeout_view.
    destruct (_ =? RET_SUCCESS); [apply apply_dark |]. destruct D as [D1 D2]. split; [| done].
    cbn. unfold timer_settings_from_fps. repeat case_match; done.
  - unfold ir_camera_system_set_on_time_us, ir_camera_system_set_on_time_us_hw. destruct (_ =? RET_SUCCESS); [| done]. cbn [snd face_gates bool_decide andb negb].
    rewrite andb_true_r. match goal with |- dark (view (if _ then configure_timeout ?x else _)) => set (s1 := x) end.
    assert (dark (view s1)) by (unfold s1; destruct (_ =? RET_SUCCESS) eqn:E; [apply apply_dark |];
      destruct D as [D1 D2]; split; [| done]; cbn; revert E; unfold timer_settings_from_on_time_us; repeat case_match; done).
    by destruct (negb _).
  - unfold ir_camera_system_set_focus_values_for_focus_sweep. by repeat case_match.
  - unfold ir_camera_system_set_polynomial_coefficients_for_focus_sweep. by repeat case_match.
  - unfold ir_camera_system_set_polynomial_coefficients_for_mirror_sweep. by repeat case_match.
  - unfold ir_camera_system_perform_focus_sweep. rewrite sweep_view; [done | apply focus_view].
  - unfold ir_camera_system_perform_mirror_sweep. rewrite sweep_view; [done | apply mirror_view].
  - unfold ir_camera_system_timeout_disable, ir_camera_system_disable_camera. cbn [snd].
    set (s1 := (ir_camera_system_enable_leds Pearl false false WAVELENGTH_NONE s).2).
    assert (D1 : dark (view s1)).
    { unfold s1, ir_camera_system_enable_leds. by repeat case_match. }
    clearbody s1. repeat case_match; cbn [snd]; rewrite ?camera_force_view; done.
  - by rewrite exposure_view.
  - unfold rgb_ir_strobe_isr. destruct (l =? 0); [| destruct (l =? 1); [| done]].
    + unfold strobe_falling. set (s1 := if 0 <? fps _ then _ else _). set (s2 := camera_enable_trigger _ _ _ _).
      assert (view s2 = set_pulse_view Pearl false (view s1)) as E by apply set_pulse_view_spec.
      rewrite enable_pulse_view_spec, E. apply enable_dark, unsafe_pulse_dark.
    + unfold strobe_rising. by repeat case_match.
Qed.

Lemma force_init en c s : ir_camera_system_initialized (camera_force Pearl en c s) = ir_camera_system_initialized s.
Proof. change (pv_init (view (camera_force Pearl en c s)) = pv_init (view s)). by rewrite camera_force_view. Qed.

Lemma timeout_initialized s : ir_camera_system_initialized (configure_timeout s) = ir_camera_system_initialized s.
Proof. done. Qed.

Lemma leds_initialized t sf w s : ir_camera_system_initialized s = true ->
  ir_camera_system_initialized (ir_camera_system_enable_leds Pearl t sf w s).2 = true.
Proof.
  intros I. unfold ir_camera_system_enable_leds. destruct (_ =? RET_SUCCESS); [| done]. destruct (deprecated_wavelength _ _); [done |]. cbn [snd].
  destruct (negb _); [| done]. unfold ir_camera_system_enable_leds_hw.
  match goal with |- ir_camera_system_initialized (configure_timeout ?x) = _ => change (pv_init (view x) = true) end.
  rewrite enable_pulse_view_spec, set_pulse_view_spec. unfold enable_pulse_view. by case_match.
Qed.

Lemma disable_initialized c s :
  ir_camera_system_initialized (ir_camera_system_disable_camera Pearl c s).2 = ir_camera_system_initialized s.
Proof. unfold ir_camera_system_disable_camera. repeat case_match; cbn [snd]; by rewrite ?force_init. Qed.

Lemma ir_step_initialized e s : ir_camera_system_initialized s = true -> ir_camera_system_initialized (ir_step Pearl s e) = true.
Proof.
  intros I. destruct e as [ret | c | c | t sf w | t sf f | t sf v | m n | n | n | t | t | sf | c | l c sf]; cbn [ir_step].
  - unfold ir_camera_system_init. by rewrite I.
  - unfold ir_camera_system_enable_camera. repeat case_match; cbn [snd]; by rewrite ?force_init.
  - by rewrite disable_initialized.
  - by apply leds_initialized.
  - unfold ir_camera_system_set_fps, ir_camera_system_set_fps_hw. destruct (_ =? RET_SUCCESS); [| done]. cbn [snd].
    rewrite timeout_initialized. destruct (_ =? RET_SUCCESS); [by rewrite apply_init | done].
  - unfold ir_camera_system_set_on_time_us, ir_camera_system_set_on_time_us_hw. destruct (_ =? RET_SUCCESS); [| done]. cbn [snd].
    destruct (negb (v =? 0)); [rewrite timeout_initialized |]; (destruct (_ && _); [by rewrite apply_init | done]).
  - unfold ir_camera_system_set_focus_values_for_focus_sweep. by repeat case_match.
  - unfold ir_camera_system_set_polynomial_coefficients_for_focus_sweep. by repeat case_match.
  - unfold ir_camera_system_set_polynomial_coefficients_for_mirror_sweep. by repeat case_match.
  - change (pv_init (view (ir_camera_system_perform_focus_sweep Pearl t s).2) = true). unfold ir_camera_system_perform_focus_sweep.
    rewrite sweep_view; [exact I | apply focus_view].
  - change (pv_init (view (ir_camera_system_perform_mirror_sweep Pearl t s).2) = true). unfold ir_camera_system_perform_mirror_sweep.
    rewrite sweep_view; [exact I | apply mirror_view].
  - unfold ir_camera_system_timeout_disable. by rewrite !disable_initialized, leds_initialized.
  - change (pv_init (view (camera_exposure_completes_isr Pearl c s)) = true). by rewrite exposure_view.
  - change (pv_init (view (rgb_ir_strobe_isr Pearl l c sf s)) = true). unfold rgb_ir_strobe_isr. destruct (l =? 0); [| destruct (l =? 1); [| done]].
    + unfold strobe_falling. set (s1 := if 0 <? fps _ then _ else _). set (s2 := camera_enable_trigger _ _ _ _).
      assert (view s2 = set_pulse_view Pearl sf (view s1)) as E by (unfold s2; by rewrite !camera_trigger_view, set_pulse_view_spec).
      assert (I1 : pv_init (view s1) = true) by (unfold s1; by case_match). clearbody s2. clearbody s1.
      rewrite enable_pulse_view_spec, E.
      unfold enable_pulse_view. by case_match.
    + unfold strobe_rising. destruct (_ <? _); [exact I |]. destruct (_ <? _); exact I.
Qed.

(** What holds between any two steps of the thread and of the camera system. *)
Definition optics_inv (s : tof * ir_sys) : Prop :=
  ir_camera_system_initialized s.2 = true /\
  (pc s.1 = InCallback -> distance_is_safe Pearl s.1 = false) /\
  (pc s.1 = Looping -> distance_is_safe Pearl s.1 = false -> dark (view s.2)).

Lemma optics_step_inv e s s' : optics_inv s -> optics_step s e = Some s' -> optics_inv s'.
Proof.
  destruct s as [t ir]. intros (I & HC & HD) E. cbn [fst snd] in *. destruct e as [r | trig | e]; cbn [optics_step fst snd] in E.
  - destruct (pc t) eqn:P; [| injection E as <-; split_and!; cbn; auto; by rewrite P].
    destruct (tof_turn true r t) as [t' |] eqn:Et; [| done]. injection E as <-. destruct (turn_counter true r t t' P Et) as [_ Hp].
    split_and!; cbn [fst snd]; [done | by intros (_ & _ & ?)%Hp |]. intros Hl Hs.
    destruct (Z.eq_dec (too_close_counter t') (too_close_counter t)) as [Ec | Ec].
    + apply HD; [done |]. unfold distance_is_safe in *. by rewrite <- Ec.
    + rewrite (proj2 Hp) in Hl by done. discriminate Hl.
  - destruct (pc t) eqn:P; injection E as <-; [split_and!; cbn; auto; by rewrite P |].
    change (too_close_counter t <? TOO_CLOSE_THRESHOLD) with (distance_is_safe Pearl t). rewrite (HC eq_refl). destruct (fetched_counter t) as [_ Pf]. split_and!; cbn [fst snd].
    + exact (ir_step_initialized (EvOnTime trig false 0) ir I).
    + by rewrite Pf.
    + intros _ _. apply set_on_time_dark.
  - injection E as <-. split_and!; cbn [fst snd]; [by apply ir_step_initialized | done |]. intros P Hs.
    change (too_close_counter t <? TOO_CLOSE_THRESHOLD) with (distance_is_safe Pearl t). rewrite Hs. apply ir_step_dark; auto.
Qed.

(** C8: A close object switches the infrared LEDs off, and they stay off: however the turns of the sensor's thread, the
    requests to the camera system and its interrupts interleave, whenever the distance is not safe and the
    thread is not about to say so, the on-time is 0 and no LED channel is enabled. *)
Theorem close_object_darkens l ir t' ir' : ir_camera_system_initialized ir = true ->
  optics_run l (tof_1d_boot, ir) = Some (t', ir') ->
  distance_is_safe Pearl t' = false -> pc t' = Looping ->
  on_time_in_us (global_timer_settings ir') = 0 /\ leds (regs ir') = leds_off.
Proof.
  intros I Hr Hs Hp. assert (G : optics_inv (t', ir')).
  { assert (I0 : optics_inv (tof_1d_boot, ir)) by (split_and!; done). revert I0 Hr. generalize (tof_1d_boot, ir) as s.
    induction l as [| e l IH]; intros s I0; [by intros [= <-] |]. cbn [optics_run]. destruct (optics_step s e) as [s1 |] eqn:E; [| done].
    apply IH. by eapply optics_step_inv. }
  destruct G as (_ & _ & D). exact (D Hp Hs).
Qed.

Definition started : ir_sys :=
  fold_left (ir_step Pearl) [EvInit 0; EvFps false true 30; EvLeds false true WAVELENGTH_850NM; EvOnTime false true 4000] ir_boot.
Definition approach : list optics_event :=
  [OpReading (good_reading 50 1); OpReading (good_reading 40 1); OpReading (good_reading 30 1); OpIr (EvFps false true 20); OpCallback false;
   OpIr (EvOnTime false true 3000); OpIr (EvLeds false true WAVELENGTH_940NM)].

Lemma close_object_darkens_witness :
  on_time_in_us (global_timer_settings started) = 4000 /\
  match optics_run approach (tof_1d_boot, started) with
  | Some (t', ir') => on_time_in_us (global_timer_settings ir') = 0 /\ leds (regs ir') = leds_off
  | None => False
  end.
Proof.
  split; [reflexivity |].
  assert (K : match optics_run approach (tof_1d_boot, started) with
              | Some (t', ir') => distance_is_safe Pearl t' = false /\ pc t' = Looping | None => False end) by (vm_compute; by split).
  destruct (optics_run approach (tof_1d_boot, started)) as [[t' ir'] |] eqn:E; [| done].
  exact (close_object_darkens approach started t' ir' eq_refl E (proj1 K) (proj2 K)).
Defined.

(** ** The test of the safety circuit *)

(** The level a line was last driven to. *)
Definition line_level (calls : list test_call) (i : nat) : Z :=
  fold_left (fun v c => match c with IrLine j l => if decide (j = i) then l else v | _ => v end) calls 0.

Lemma test_lines_ok n : forall i pin, (test_lines n i pin).1 = true <-> forall j, (i <= j < i + n)%nat -> pin j = 0.
Proof.
  induction n as [| n IH]; intros i pin; cbn [test_lines]; [split; [lia | done] |].
  destruct (if pin i <? 0 then true else negb (pin i =? 0)) eqn:E; cbn [fst].
  - split; [done |]. intros H. specialize (H i ltac:(lia)). rewrite H in E. done.
  - assert (pin i = 0) by (destruct (pin i <? 0), (Z.eqb_spec (pin i) 0); done). rewrite IH. split; intros H' j Hj.
    + destruct (decide (j = i)) as [-> |]; [done |]. apply H'. lia.
    + apply H'. lia.
Qed.

Lemma test_lines_released n : forall i pin k, line_level (test_lines n i pin).2 k = 0.
Proof.
  assert (G : forall calls k v, line_level calls k = 0 -> v = 0 -> fold_left (fun v c => match c with IrLine j l => if decide (j = k) then l else v | _ => v end) calls v = 0)
    by (by intros calls k v H ->).
  induction n as [| n IH]; intros i pin k; cbn [test_lines]; [done |].
  destruct (if pin i <? 0 then true else negb (pin i =? 0)); cbn [snd]; unfold line_level.
  - cbn. by destruct (decide (i = k)).
  - rewrite fold_left_app. apply G; [apply IH |]. cbn. by destruct (decide (i = k)).
Qed.

(** The self-test of the infrared safety circuit on the Pearl succeeds exactly when every one of the four lines
    has made the circuit switch PVCC off (a pin that cannot be read counts as a failure), and however it ends every line is released. *)
Theorem safety_self_test_verdict configure_ret pin ir_safety : configure_ret = 0 ->
  let '(ret, state, calls) := optics_self_test Pearl configure_ret pin ir_safety in
  ret = RET_SUCCESS /\ (state = RET_SUCCESS <-> forall i, (i < IR_LINES)%nat -> pin i = 0) /\ (state <> RET_SUCCESS -> state = RET_ERROR_UNSAFE) /\
  (forall i, line_level calls i = 0) /\ last calls = Some (Wait 50).
Proof.
  intros ->. unfold optics_self_test. cbn [Z.eqb negb]. pose proof (test_lines_ok IR_LINES 0 pin) as H.
  pose proof (test_lines_released IR_LINES 0 pin) as R.
  assert (L : last (test_lines IR_LINES 0 pin).2 = Some (Wait 50)) by (cbn; by repeat case_match).
  destruct (test_lines IR_LINES 0 pin) as [[] calls]; cbn [fst snd] in *; split_and!; try done.
  - split; [intros _ i Hi; apply H; [done | lia] | done].
  - split; [done |]. intros Hp. assert (false = true) as [=]. apply H. intros j Hj. apply Hp. lia.
Qed.

Lemma safety_self_test_verdict_witness :
  let '(ret, state, calls) := optics_self_test Pearl 0 (fun i => if Nat.eqb i 2 then 1 else 0) RET_ERROR_NOT_INITIALIZED in
  ret = RET_SUCCESS /\ (state = RET_SUCCESS <-> forall i, (i < IR_LINES)%nat -> (if Nat.eqb i 2 then 1 else 0) = 0) /\
  (state <> RET_SUCCESS -> state = RET_ERROR_UNSAFE) /\ (forall i, line_level calls i = 0) /\ last calls = Some (Wait 50).
Proof. exact (safety_self_test_verdict 0 (fun i => if Nat.eqb i 2 then 1 else 0) RET_ERROR_NOT_INITIALIZED eq_refl). Defined.

(** ** What the module does not do *)

(** A sensor that is silent again after its configuration is reported as working for a while: the state follows the count of
    errors, which the configuration has reset. *)
Definition silent (l : list (Z * Z * Z)) : reading := Reading l (-5) 0 0 0 0 0.
Example state_recovers_without_reading :
  (s ← tof_run true [good_reading 100 0; silent []; silent []; silent []; silent []] tof_1d_boot; Some (tof_state s),
   s ← tof_run true [good_reading 100 0; silent []; silent []; silent []; silent []; silent [(0, 0, 0)]; silent []] tof_1d_boot; Some (tof_state s)) =
  (Some RET_ERROR_INTERNAL, Some RET_SUCCESS).
Proof. reflexivity. Qed.

(** A distance that was safe stays so, for [distance_is_safe], while the sensor is silent. *)
Example silence_is_safe :
  (s ← tof_run true (good_reading 100 0 :: replicate 4 (silent [])) tof_1d_boot; Some (tof_state s, distance_is_safe Pearl s)) =
  Some (RET_ERROR_INTERNAL, true).
Proof. reflexivity. Qed.

(** A fetch that fails is no error. *)
Example fetch_errors_not_counted :
  (s ← tof_run true (good_reading 100 0 :: replicate 10 (Reading [] 0 (-5) 0 0 0 0)) tof_1d_boot; Some (tof_state s, err_count s)) = Some (RET_SUCCESS, 0).
Proof. reflexivity. Qed.
