(* ===== verification/FanTach.v ===== *)
(** The speed of the fans: main_board/src/temperature/fan/fan_tach.c (Pearl: a timer
    captures the tachometer's edges) and fan_tach_coarse.c (Diamond: an interrupt per
    edge and the kernel's clock).

    The Pearl's timer is the registers the interrupt handler reads and writes
    ([tim]); [hw_step] is what the reference manual says the timer does to
    them: the flags it sets when it captures an edge or overflows. *)

From Stdlib Require Import SpecFloat.
From S2P Require Import Prelude Floats.

Definition UINT32_MAX : Z := 2 ^ 32 - 1.

(** ** fan_tach.c *)

Definition ASSUMED_TIMER_CLOCK_FREQ_MHZ : Z := 170.
Definition ASSUMED_TIMER_CLOCK_FREQ : Z := ASSUMED_TIMER_CLOCK_FREQ_MHZ * 1000000.
Definition TACHOMETER_TIMER_PRESCALER : Z := 2593.

Inductive isr_state := AWAITING_FIRST_SAMPLE | AWAITING_SECOND_SAMPLE | AWAITING_TIMER_EXPIRATION.

#[export] Instance isr_state_eq_dec : EqDecision isr_state.
Proof. solve_decision. Defined.

Record timer_info := TimerInfo { state : isr_state; first_cc_value : Z; second_cc_value : Z; rpm : Z }.

(** The channel's flags and capture register, the update flag. *)
Record tim := Tim { cc_flag : bool; cc_overrun : bool; update_flag : bool; cc_enabled : bool; ccr : Z }.

Definition clear_timer_cc_flag (t : tim) : tim := Tim false (cc_overrun t) (update_flag t) (cc_enabled t) (ccr t).
Definition clear_overrun_timer_cc_value (t : tim) : tim := Tim (cc_flag t) false (update_flag t) (cc_enabled t) (ccr t).
Definition clear_flag_update (t : tim) : tim := Tim (cc_flag t) (cc_overrun t) false (cc_enabled t) (ccr t).
Definition cc_enable_channel (en : bool) (t : tim) : tim := Tim (cc_flag t) (cc_overrun t) (update_flag t) en (ccr t).

Definition set_rpm (v : Z) (i : timer_info) : timer_info := TimerInfo (state i) (first_cc_value i) (second_cc_value i) v.
Definition set_isr (s : isr_state) (i : timer_info) : timer_info := TimerInfo s (first_cc_value i) (second_cc_value i) (rpm i).

(** [hz * 60] for a period of [total] ticks; [None]: the conversion is not defined. *)
Definition rpm_of (total : Z) : option Z :=
  let hz := fdiv (flt ASSUMED_TIMER_CLOCK_FREQ 0) (flt (u32 ((TACHOMETER_TIMER_PRESCALER + 1) * total)) 0) in
  sf_trunc (fmul hz (flt 60 0)).

Definition fan_tachometer_isr (s : timer_info * tim) : option (timer_info * tim) :=
  let '(i, t) := s in
  if cc_overrun t then
    Some (set_isr AWAITING_FIRST_SAMPLE i, clear_flag_update (clear_overrun_timer_cc_value (clear_timer_cc_flag t)))
  else if update_flag t then
    r ← (if decide (state i = AWAITING_TIMER_EXPIRATION) then
           v ← (if second_cc_value i <=? first_cc_value i then Some UINT32_MAX
                else rpm_of (u32 (second_cc_value i - first_cc_value i)));
           Some (set_rpm v i, cc_enable_channel true (clear_overrun_timer_cc_value (clear_timer_cc_flag t)))
         else Some (set_rpm 0 i, t));
    let '(i, t) := (r : timer_info * tim) in
    Some (set_isr AWAITING_FIRST_SAMPLE i, clear_flag_update t)
  else if cc_flag t then
    match state i with
    | AWAITING_FIRST_SAMPLE => Some (TimerInfo AWAITING_SECOND_SAMPLE (ccr t) (second_cc_value i) (rpm i), clear_timer_cc_flag t)
    | AWAITING_SECOND_SAMPLE =>
        Some (TimerInfo AWAITING_TIMER_EXPIRATION (first_cc_value i) (ccr t) (rpm i), clear_timer_cc_flag (cc_enable_channel false t))
    | AWAITING_TIMER_EXPIRATION => Some (i, clear_timer_cc_flag t)
    end
  else Some s.

(** [config_timer]: what the two set-ups of the vendor library return; the timer runs and its interrupts are on. *)
Definition config_timer (init_ret ic_ret : Z) (t : tim) : Z * tim :=
  if negb (init_ret =? 0) then (RET_ERROR_INTERNAL, t)
  else if negb (ic_ret =? 0) then (RET_ERROR_INTERNAL, t)
  else (RET_SUCCESS, clear_flag_update (clear_timer_cc_flag (cc_enable_channel true t))).

Inductive fan_id := FAN_MAIN | FAN_AUX.

(** One turn of the thread: the messages it publishes for the speeds it reads. *)
Definition fan_tach_turn (main_speed aux_speed : Z) : list (fan_id * Z) :=
  let sent (id : fan_id) (speed : Z) := if negb (speed =? 0) && negb (speed =? UINT32_MAX) then [(id, speed)] else [] in
  let messages := sent FAN_MAIN main_speed ++ sent FAN_AUX aux_speed in
  match messages with [] => [(FAN_MAIN, 0); (FAN_AUX, 0)] | _ => messages end.

Definition fan_tach_init (pins_ret main_init main_ic aux_init aux_ic : Z) (main aux : tim) : Z * tim * tim :=
  if negb (pins_ret =? RET_SUCCESS) then (pins_ret, main, aux)
  else
    let '(ret, main) := config_timer main_init main_ic main in
    if negb (ret =? RET_SUCCESS) then (ret, main, aux)
    else let '(ret, aux) := config_timer aux_init aux_ic aux in (ret, main, aux).

(** ** fan_tach_coarse.c *)

Section Coarse.
(** CONFIG_SYS_CLOCK_TICKS_PER_SEC *)
Context (TICKS_PER_SEC : Z).

Definition k_ticks_to_ms_floor64 (t : Z) : Z := t * 1000 / TICKS_PER_SEC.

Record coarse := Coarse { capture_ms : Z; rising_edge_counter : Z; fan_speed_rpm : Z; last_capture : Z }.

(** [pin]: the interrupt is for the tachometer; [now]: the ticks since boot. *)
Definition fan_tach_event_handler (pin : bool) (now : Z) (s : coarse) : coarse :=
  if negb pin then s
  else if last_capture s =? 0 then Coarse (capture_ms s) (rising_edge_counter s) (fan_speed_rpm s) now
  else Coarse (u64 (capture_ms s + k_ticks_to_ms_floor64 (u64 (now - last_capture s)))) (u32 (rising_edge_counter s + 1)) (fan_speed_rpm s) now.

Definition coarse_speed (ms edges : Z) : option Z :=
  let period := dmul (ddiv (dbl ms 0) (dbl edges 0)) (dbl 2 0) in
  sf_trunc (ddiv (dmul (dbl 1000 0) (dbl 60 0)) period).

(** A turn of the thread: the new state and the speed published. *)
Definition coarse_turn (s : coarse) : option (coarse * Z) :=
  speed ← (if negb (capture_ms s =? 0) && negb (rising_edge_counter s =? 0) then coarse_speed (capture_ms s) (rising_edge_counter s) else Some 0);
  Some (if negb (capture_ms s =? 0) && negb (rising_edge_counter s =? 0) then Coarse 0 0 speed (last_capture s)
        else Coarse (capture_ms s) (rising_edge_counter s) 0 (last_capture s), u32 speed).

(** The code, and the state registered as fan_tach: an error is only registered. *)
Definition coarse_init (ready : bool) (pin_ret irq_ret cb_ret : Z) : Z * Z :=
  let ok := ready && (pin_ret =? 0) && (irq_ret =? 0) && (cb_ret =? 0) in
  (RET_SUCCESS, if ok then RET_SUCCESS else RET_ERROR_INTERNAL).

End Coarse.

Definition fan_tach_get_main_speed (bd : board) (i : timer_info) (s : coarse) : Z :=
  match bd with Pearl => rpm i | Diamond => u32 (fan_speed_rpm s) end.
Definition fan_tach_get_aux_speed (bd : board) (aux : timer_info) : Z := match bd with Pearl => rpm aux | Diamond => 0 end.

(** ** The timer *)

Inductive hw_event := Edge (counter : Z) | Overflow.

(** An edge is captured on an enabled channel; a flag that is still set means an overrun. *)
Definition hw_step (e : hw_event) (t : tim) : tim :=
  match e with
  | Edge v => if cc_enabled t then Tim true (cc_overrun t || cc_flag t) (update_flag t) true v else t
  | Overflow => Tim (cc_flag t) (cc_overrun t) true (cc_enabled t) (ccr t)
  end.

(** Each event is served before the next one. *)
Fixpoint served (l : list hw_event) (s : timer_info * tim) : option (timer_info * tim) :=
  match l with [] => Some s | e :: l => s ← fan_tachometer_isr (s.1, hw_step e s.2); served l s end.

Definition idle_tim (v : Z) : tim := Tim false false false true v.

(** The speed a period of the timer must show. *)
Definition period_speed (edges : list Z) : option Z :=
  match edges with c1 :: c2 :: _ => if c2 <=? c1 then Some UINT32_MAX else rpm_of (u32 (c2 - c1)) | _ => Some 0 end.

Lemma served_app l k s : served (l ++ k) s = (s ← served l s; served k s).
Proof. revert s. induction l as [| e l IH]; intros s; [done |]. cbn [app served]. destruct (fan_tachometer_isr (s.1, hw_step e s.2)) as [s1 |]; [exact (IH s1) | done]. Qed.

(** Further edges are not captured. *)
Lemma edges_ignored l i v : state i = AWAITING_TIMER_EXPIRATION ->
  served (Edge <$> l) (i, Tim false false false false v) = Some (i, Tim false false false false v).
Proof. intros H. induction l as [| c l IH]; [done |]. cbn. apply IH. Qed.

(** The speed shown after a period of the timer is that of its first two edges, 0 when there are fewer than two, and the handler
    is ready for the next period. *)
Theorem tach_measures_first_period edges i v : state i = AWAITING_FIRST_SAMPLE ->
  exists w, served ((Edge <$> edges) ++ [Overflow]) (i, idle_tim v) =
    (r ← period_speed edges;
     Some (TimerInfo AWAITING_FIRST_SAMPLE (default (first_cc_value i) (head edges)) (default (second_cc_value i) (edges !! 1%nat)) r, idle_tim w)).
Proof.
  intros H. destruct i as [st f c r]. cbn in H. subst st. rewrite served_app. destruct edges as [| c1 [| c2 l]].
  - exists v. done.
  - exists c1. done.
  - exists c2. pose proof (edges_ignored l (TimerInfo AWAITING_TIMER_EXPIRATION c1 c2 r) c2 eq_refl) as E.
    assert (served (Edge <$> c1 :: c2 :: l) (TimerInfo AWAITING_FIRST_SAMPLE f c r, idle_tim v) =
            served (Edge <$> l) (TimerInfo AWAITING_TIMER_EXPIRATION c1 c2 r, Tim false false false false c2)) as -> by done.
    rewrite E. cbn. by destruct (if c2 <=? c1 then _ else _).
Qed.

Lemma tach_measures_first_period_witness : exists w,
  served ((Edge <$> [100; 755; 1410]) ++ [Overflow]) (TimerInfo AWAITING_FIRST_SAMPLE 0 0 7, idle_tim 0) =
  Some (TimerInfo AWAITING_FIRST_SAMPLE 100 755 6003, idle_tim w).
Proof.
  destruct (tach_measures_first_period [100; 755; 1410] (TimerInfo AWAITING_FIRST_SAMPLE 0 0 7) 0 eq_refl) as [w E].
  exists w. rewrite E. vm_compute. reflexivity.
Defined.

(** An edge just before the overflow, not served in time, is counted in the next period: the first sample is then above the second, and the
    speed shown is the error value. *)
Example late_edge_reads_error :
  (s ← fan_tachometer_isr (TimerInfo AWAITING_FIRST_SAMPLE 0 0 0, hw_step Overflow (hw_step (Edge 65530) (idle_tim 0)));
   s ← fan_tachometer_isr s;
   s ← served [Edge 700; Overflow] s; Some (rpm s.1)) = Some UINT32_MAX.
Proof. vm_compute. reflexivity. Qed.

(** What is published: never nothing; a speed that is not 0 and no error as it is; and zeros, for both fans, exactly when no fan has such
    a speed. *)
Theorem published_speeds main_speed aux_speed :
  let valid v := v <> 0 /\ v <> UINT32_MAX in
  let l := fan_tach_turn main_speed aux_speed in
  (forall id v, valid v -> ((id, v) ∈ l <-> (id = FAN_MAIN /\ v = main_speed) \/ (id = FAN_AUX /\ v = aux_speed))) /\
  (l = [(FAN_MAIN, 0); (FAN_AUX, 0)] <-> ~ valid main_speed /\ ~ valid aux_speed) /\
  (forall id v, (id, v) ∈ l -> v <> UINT32_MAX).
Proof.
  cbv zeta. unfold fan_tach_turn.
  assert (D : forall v, (negb (v =? 0) && negb (v =? UINT32_MAX) = true <-> v <> 0 /\ v <> UINT32_MAX)).
  { intros v. rewrite andb_true_iff, !negb_true_iff, !Z.eqb_neq. done. }
  assert (F : UINT32_MAX <> 0) by done.
  destruct (negb (main_speed =? 0) && negb (main_speed =? UINT32_MAX)) eqn:Em, (negb (aux_speed =? 0) && negb (aux_speed =? UINT32_MAX)) eqn:Ea;
    cbn [app]; pose proof (D main_speed) as Dm; pose proof (D aux_speed) as Da; rewrite Em in Dm; rewrite Ea in Da; clear D Em Ea.
  all: split_and!; [intros id v Hv; rewrite ?elem_of_cons, ?elem_of_nil | split; [intros H; simplify_eq | intros [H1 H2]] | intros id v H; rewrite ?elem_of_cons, ?elem_of_nil in H].
  all: naive_solver congruence.
Qed.

(** ** The coarse measurement *)

Section Measure.
Context (TICKS_PER_SEC : Z) (tps : 0 < TICKS_PER_SEC).

(** Edges at increasing times, counted since the last publication. *)
Fixpoint increasing (t : Z) (l : list Z) : Prop := match l with [] => True | t' :: l => t <= t' < 2 ^ 63 /\ increasing t' l end.

Definition final (t : Z) (l : list Z) : Z := fold_left (fun _ t => t) l t.

Lemma increasing_final l : forall t, increasing t l -> t <= final t l.
Proof. induction l as [| t' l IH]; intros t H; cbn in *; [lia |]. destruct H as [H H2]. specialize (IH t' H2). unfold final in IH. lia. Qed.

Lemma edges_measured l : forall s, 0 < last_capture s -> increasing (last_capture s) l ->
  0 <= capture_ms s -> capture_ms s + (final (last_capture s) l - last_capture s) * 1000 < 2 ^ 63 ->
  0 <= rising_edge_counter s -> rising_edge_counter s + zlen l < 2 ^ 32 ->
  let s' := fold_left (fun s t => fan_tach_event_handler TICKS_PER_SEC true t s) l s in
  let elapsed := final (last_capture s) l - last_capture s in
  last_capture s' = final (last_capture s) l /\ rising_edge_counter s' = rising_edge_counter s + zlen l /\ fan_speed_rpm s' = fan_speed_rpm s /\
  (capture_ms s' - capture_ms s) * TICKS_PER_SEC <= elapsed * 1000 <= (capture_ms s' - capture_ms s) * TICKS_PER_SEC + zlen l * (TICKS_PER_SEC - 1).
Proof.
  induction l as [| t l IH]; intros s Hl Hi Hc Hm He Hn; cbv zeta; cbn [fold_left final increasing] in *; [rewrite zlen_nil; lia |].
  destruct Hi as [Ht Hi]. rewrite zlen_cons in *. pose proof (zlen_nonneg l). pose proof (increasing_final l t Hi) as Hf. fold (final t l) in *.
  set (d := t - last_capture s) in *. set (q := d * 1000 / TICKS_PER_SEC).
  assert (Hq : q * TICKS_PER_SEC <= d * 1000 <= q * TICKS_PER_SEC + (TICKS_PER_SEC - 1)) by (unfold q; zify_div).
  assert (H0 : 0 <= q <= d * 1000) by (split; [apply Z.div_pos; lia | nia]).
  assert (E : fan_tach_event_handler TICKS_PER_SEC true t s = Coarse (capture_ms s + q) (rising_edge_counter s + 1) (fan_speed_rpm s) t).
  { unfold fan_tach_event_handler, k_ticks_to_ms_floor64. cbn [negb]. bfalse (last_capture s =? 0). fold d.
    rewrite (u64_small d), u64_small, u32_small by (fold q; lia). done. }
  rewrite E. destruct (IH (Coarse (capture_ms s + q) (rising_edge_counter s + 1) (fan_speed_rpm s) t)) as (E1 & E2 & E3 & E4);
    cbn [last_capture capture_ms rising_edge_counter fan_speed_rpm]; try lia; try done.
  cbn [last_capture capture_ms rising_edge_counter fan_speed_rpm] in *. split_and!; try done; lia.
Qed.

End Measure.

(** What the coarse measurement counts between two publications: every edge, and the time between the first and the last of them, short by less than
    one millisecond per edge (each interval is rounded down before it is added): the speed is never shown too low because of it. *)
Theorem coarse_counts TICKS_PER_SEC l s : 0 < TICKS_PER_SEC -> 0 < last_capture s -> increasing (last_capture s) l ->
  capture_ms s = 0 -> rising_edge_counter s = 0 -> (final (last_capture s) l - last_capture s) * 1000 < 2 ^ 63 -> zlen l < 2 ^ 32 ->
  let s' := fold_left (fun s t => fan_tach_event_handler TICKS_PER_SEC true t s) l s in
  let elapsed := final (last_capture s) l - last_capture s in
  rising_edge_counter s' = zlen l /\ last_capture s' = final (last_capture s) l /\
  capture_ms s' * TICKS_PER_SEC <= elapsed * 1000 <= capture_ms s' * TICKS_PER_SEC + zlen l * (TICKS_PER_SEC - 1).
Proof.
  intros Ht Hl Hi Hc He Hm Hn. destruct (edges_measured TICKS_PER_SEC Ht l s Hl Hi ltac:(lia) ltac:(lia) ltac:(lia) ltac:(lia)) as (E1 & E2 & E3 & E4).
  cbv zeta in *. rewrite Hc, He in *. split_and!; [lia | done | lia | lia].
Qed.

Lemma coarse_counts_witness :
  let s' := fold_left (fun s t => fan_tach_event_handler 10000 true t s) [1069; 1138; 1207] (Coarse 0 0 0 1000) in
  rising_edge_counter s' = 3 /\ capture_ms s' = 18 /\ capture_ms s' * 10000 <= 207 * 1000 <= capture_ms s' * 10000 + 3 * 9999.
Proof.
  cbv zeta. destruct (coarse_counts 10000 [1069; 1138; 1207] (Coarse 0 0 0 1000) ltac:(by vm_compute) ltac:(by vm_compute)
    ltac:(by vm_compute) eq_refl eq_refl ltac:(by vm_compute) ltac:(by vm_compute)) as (E1 & E2 & E3).
  split; [exact E1 |]. split; [reflexivity | exact E3].
Defined.

(** Edges every 6.9 ms, 4348 rounds per minute, are shown as 5000. *)
Example coarse_too_fast :
  (s ← Some (fold_left (fun s t => fan_tach_event_handler 10000 true t s) [1069; 1138; 1207] (Coarse 0 0 0 1000)); r ← coarse_turn s; Some r.2) = Some 5000.
Proof. vm_compute. reflexivity. Qed.

(** A fan that turns after a stop is shown with the stop in its first period. *)
Example stop_counted :
  (s ← Some (fold_left (fun s t => fan_tach_event_handler 10000 true t s) [600000; 600050; 600100] (Coarse 0 0 0 1000)); r ← coarse_turn s; Some r.2) = Some 1.
Proof. vm_compute. reflexivity. Qed.
