(* ===== verification/Version.v ===== *)
(** main_board/src/system/version/version.c: which hardware the firmware runs on, read from a voltage (Pearl) or from
    straps behind expanders (Diamond), kept once known; and the versions of the firmware images.

    A pin is what the three driver calls on it return.  The generated version numbers appear only where the
    code computes with them ([get_string_index]). *)

From Stdlib Require Import String.
From S2P Require Import Prelude.

Inductive orb_version :=
| HW_UNKNOWN | PEARL_EV1 | PEARL_EV2 | PEARL_EV3 | PEARL_EV4 | PEARL_EV5
| DIAMOND_POC1 | DIAMOND_POC2 | DIAMOND_B3 | DIAMOND_EVT | DIAMOND_V4_4 | DIAMOND_V4_5 | DIAMOND_V4_6 | DIAMOND_V4_7 | DIAMOND_V4_8.
Inductive front_unit_version := FRONT_UNKNOWN | V6_0 | V6_1 | V6_2A | V6_2B | V6_3A | V6_3B | V6_3C | V6_3D | V6_4A.
Inductive power_board_version := POWER_UNKNOWN | V1_0 | V1_1 | V1_2 | V1_3 | V1_4 | V1_5 | V1_6 | V1_7.
Inductive reset_board_version := RESET_UNKNOWN | RESET_V1_1.

#[export] Instance orb_version_eq_dec : EqDecision orb_version.
Proof. solve_decision. Defined.
#[export] Instance front_unit_version_eq_dec : EqDecision front_unit_version.
Proof. solve_decision. Defined.
#[export] Instance power_board_version_eq_dec : EqDecision power_board_version.
Proof. solve_decision. Defined.
#[export] Instance reset_board_version_eq_dec : EqDecision reset_board_version.
Proof. solve_decision. Defined.

(** ** Straps *)

Record pin_read := PinRead { port_ready : bool; configure_ret : Z; level : Z }.

(** The loop of [get_hw_bits], from pin [i] on. *)
Fixpoint bits_loop (pins : list pin_read) (i hw_bits : Z) : Z * Z :=
  match pins with
  | [] => (RET_SUCCESS, hw_bits)
  | p :: pins =>
      if negb (port_ready p) then (RET_ERROR_INVALID_STATE, hw_bits)
      else if negb (configure_ret p =? 0) then (RET_ERROR_INTERNAL, hw_bits)
      else if level p <? 0 then (RET_ERROR_INTERNAL, hw_bits)
      else bits_loop pins (i + 1) (Z.lor hw_bits (Z.shiftl (level p) i))
  end.

(** The code, and the bits when it is a success. *)
Definition get_hw_bits (pins : list pin_read) : Z * option Z :=
  if 4 <? zlen pins then (RET_ERROR_FORBIDDEN, None)
  else let '(ret, bits) := bits_loop pins 0 0 in (ret, if ret =? RET_SUCCESS then Some bits else None).

Definition main_board_of (hw_bits : Z) : orb_version :=
  match hw_bits with
  | 0 => DIAMOND_POC1 | 1 => DIAMOND_POC2 | 2 => DIAMOND_B3 | 3 => DIAMOND_EVT | 4 => DIAMOND_V4_4 | 5 => DIAMOND_V4_5
  | 7 => DIAMOND_V4_6 | 8 => DIAMOND_V4_7 | 9 => DIAMOND_V4_8 | _ => HW_UNKNOWN
  end.
Definition front_unit_of (hw_bits : Z) : front_unit_version :=
  match hw_bits with
  | 0 => V6_0 | 1 => V6_1 | 2 => V6_2A | 3 => V6_2B | 4 => V6_3A | 5 => V6_3B | 7 => V6_3C | 8 => V6_3D | 9 => V6_4A
  | _ => FRONT_UNKNOWN
  end.
Definition power_board_of (hw_bits : Z) : power_board_version :=
  match hw_bits with
  | 0 => V1_0 | 1 => V1_1 | 2 => V1_2 | 3 => V1_3 | 4 => V1_4 | 5 => V1_5 | 6 => V1_6 | 7 => V1_7 | _ => POWER_UNKNOWN
  end.
Definition reset_board_of (hw_bits : Z) : reset_board_version := match hw_bits with 0 => RESET_V1_1 | _ => RESET_UNKNOWN end.

(** The Pearl's main board, from the voltage in millivolts. *)
Definition pearl_of (hardware_version_mv : Z) : orb_version :=
  if 3200 <? hardware_version_mv then PEARL_EV2
  else if 2900 <? hardware_version_mv then PEARL_EV3
  else if hardware_version_mv <? 100 then PEARL_EV1
  else if hardware_version_mv <? 400 then PEARL_EV4
  else if (930 <? hardware_version_mv) && (hardware_version_mv <? 1130) then PEARL_EV5
  else HW_UNKNOWN.

(** ** What is kept *)

Record hardware := Hardware {
  version : orb_version; front_unit : front_unit_version; power_board : power_board_version; reset_board : reset_board_version }.

(** [board_versions], and the static variable of each getter. *)
Record version_sys := VersionSys {
  board_versions : hardware;
  static_front : front_unit_version; static_power : power_board_version; static_reset : reset_board_version }.

Definition version_boot : version_sys :=
  VersionSys (Hardware HW_UNKNOWN FRONT_UNKNOWN POWER_UNKNOWN RESET_UNKNOWN) FRONT_UNKNOWN POWER_UNKNOWN RESET_UNKNOWN.

(** What the hardware answers to one call: the converter's readiness, its code and the millivolts; the pins. *)
Record straps := Straps {
  adc_ready : bool; adc_ret : Z; millivolts : Z;
  main_pins : list pin_read; front_pins : list pin_read; power_pins : list pin_read; reset_pins : list pin_read }.

(** A getter: what it keeps, and returns. *)
Definition version_get_front_unit_rev (x : straps) (s : version_sys) : version_sys :=
  let f := if decide (static_front s = FRONT_UNKNOWN)
           then match (get_hw_bits (front_pins x)).2 with Some bits => front_unit_of bits | None => FRONT_UNKNOWN end else static_front s in
  VersionSys (board_versions s) f (static_power s) (static_reset s).
Definition version_get_power_board_rev (x : straps) (s : version_sys) : version_sys :=
  let p := if decide (static_power s = POWER_UNKNOWN)
           then match (get_hw_bits (power_pins x)).2 with Some bits => power_board_of bits | None => POWER_UNKNOWN end else static_power s in
  VersionSys (board_versions s) (static_front s) p (static_reset s).
Definition version_get_reset_board_rev (x : straps) (s : version_sys) : version_sys :=
  let r := if decide (static_reset s = RESET_UNKNOWN)
           then match (get_hw_bits (reset_pins x)).2 with Some bits => reset_board_of bits | None => RESET_UNKNOWN end else static_reset s in
  VersionSys (board_versions s) (static_front s) (static_power s) r.

Definition with_board (h : hardware) (s : version_sys) : version_sys := VersionSys h (static_front s) (static_power s) (static_reset s).

(** The main board: the code, and the version. *)
Definition main_version (bd : board) (x : straps) (known : orb_version) : Z * orb_version :=
  if decide (known = HW_UNKNOWN) then
    match bd with
    | Pearl =>
        if negb (adc_ready x) then (RET_ERROR_INVALID_STATE, known)
        else if adc_ret x <? 0 then (RET_ERROR_INTERNAL, known)
        else (RET_SUCCESS, pearl_of (millivolts x))
    | Diamond =>
        match get_hw_bits (main_pins x) with (_, Some bits) => (RET_SUCCESS, main_board_of bits) | (ret, None) => (ret, known) end
    end
  else (RET_SUCCESS, known).

Definition version_fetch_hardware_rev (bd : board) (x : straps) (s : version_sys) : Z * version_sys :=
  let h := board_versions s in
  let '(ret, v) := main_version bd x (version h) in
  if negb (ret =? RET_SUCCESS) then (ret, s)
  else
    let h := Hardware v (front_unit h) (power_board h) (reset_board h) in
    let s := with_board h s in
    match bd with
    | Pearl => (RET_SUCCESS, s)
    | Diamond =>
        let s := if decide (front_unit h = FRONT_UNKNOWN) then
                   let s := version_get_front_unit_rev x s in with_board (Hardware v (static_front s) (power_board h) (reset_board h)) s
                 else s in
        let h := board_versions s in
        let s := if decide (power_board h = POWER_UNKNOWN) then
                   let s := version_get_power_board_rev x s in with_board (Hardware v (front_unit h) (static_power s) (reset_board h)) s
                 else s in
        let h := board_versions s in
        let s := if decide (reset_board h = RESET_UNKNOWN) then
                   let s := version_get_reset_board_rev x s in with_board (Hardware v (front_unit h) (power_board h) (static_reset s)) s
                 else s in
        (RET_SUCCESS, s)
    end.

Definition version_get (bd : board) (x : straps) (s : version_sys) : hardware * version_sys :=
  let s := (version_fetch_hardware_rev bd x s).2 in (board_versions s, s).
Definition version_init (bd : board) (x : straps) (s : version_sys) : Z * version_sys := version_fetch_hardware_rev bd x s.
(** The message of [version_hw_send] is what is known: nothing is read. *)
Definition version_hw_send (s : version_sys) : hardware := board_versions s.

(** ** The firmware's versions *)

Record fw_versions := FwVersions { primary_app : Z * Z * Z * Z; secondary_app : option (Z * Z * Z * Z) }.

(** What [dfu_version_primary_get] and [dfu_version_secondary_get] return and write. *)
Definition version_fw_send (primary : Z * option (Z * Z * Z * Z)) (secondary : Z * option (Z * Z * Z * Z)) : fw_versions :=
  FwVersions (default (0, 0, 0, 0) primary.2) (if secondary.1 =? 0 then Some (default (0, 0, 0, 0) secondary.2) else None).

(** ** Names *)

Open Scope string_scope.
Definition hardware_versions_str (bd : board) : list string :=
  match bd with
  | Pearl => ["PEARL_UNKNOWN"; "PEARL_EV1"; "PEARL_EV2"; "PEARL_EV3"; "PEARL_EV4"; "PEARL_EV5"; "PEARL_EV6"]
  | Diamond => ["DIAMOND_UNKNOWN"; "DIAMOND_POC1"; "DIAMOND_POC2"; "DIAMOND_B3"; "DIAMOND_EVT_4.3"; "DIAMOND_EVT_4.4"; "DIAMOND_4.5";
                "DIAMOND_4.6"; "DIAMOND_4.7"; "DIAMOND_4.8"]
  end.
Close Scope string_scope.

(** [number]: the generated value of the version; [poc1]: that of the first Diamond. *)
Definition get_string_index (bd : board) (poc1 number : Z) : Z :=
  let hardware_version_idx := u32 number in
  let hardware_version_idx :=
    match bd with
    | Diamond => if hardware_version_idx <? poc1 then 0 else u32 (hardware_version_idx - poc1 + 1)
    | Pearl => hardware_version_idx
    end in
  if (hardware_version_idx =? 0) || (zlen (hardware_versions_str bd) <=? hardware_version_idx) then 0 else hardware_version_idx.

(** ** Theorems *)

(** The pins that show the bits of [n]. *)
Definition pins_of (len : nat) (n : Z) : list pin_read := (fun i => PinRead true 0 (zbool (Z.testbit n (Z.of_nat i)))) <$> seq 0 len.

(** Reading the straps gives back the number they are wired to, and the table says which version it is: on the Diamond every documented number
    gives its own version, every other number none, and pins that cannot be read give an error and no number. *)
Theorem straps_read_back n : 0 <= n < 16 ->
  get_hw_bits (pins_of 4 n) = (RET_SUCCESS, Some n) /\
  (forall m, 0 <= m < 16 -> main_board_of m = main_board_of n -> m = n \/ main_board_of n = HW_UNKNOWN) /\
  (forall m, 0 <= m < 16 -> front_unit_of m = front_unit_of n -> m = n \/ front_unit_of n = FRONT_UNKNOWN) /\
  (forall m, 0 <= m < 16 -> power_board_of m = power_board_of n -> m = n \/ power_board_of n = POWER_UNKNOWN) /\
  (main_board_of n = HW_UNKNOWN <-> n = 6 \/ 10 <= n) /\ (front_unit_of n = FRONT_UNKNOWN <-> n = 6 \/ 10 <= n) /\
  (power_board_of n = POWER_UNKNOWN <-> 8 <= n).
Proof.
  assert (S : forall k, 0 <= k < 16 -> k ∈ [0; 1; 2; 3; 4; 5; 6; 7; 8; 9; 10; 11; 12; 13; 14; 15]) by (intros; rewrite !elem_of_cons; lia).
  intros Hn%S.
  repeat (apply elem_of_cons in Hn as [-> | Hn]; [split; [reflexivity |]; split_and!;
    try (intros m Hm%S; repeat (apply elem_of_cons in Hm as [-> | Hm]; [cbn; intros E; first [by left | by right | discriminate E] |]); by apply not_elem_of_nil in Hm);
    cbn; (split; [intros E; first [discriminate E | lia] | first [lia | done]]) |]).
  by apply not_elem_of_nil in Hn.
Qed.


Lemma straps_read_back_witness :
  get_hw_bits (pins_of 4 7) = (RET_SUCCESS, Some 7) /\ (main_board_of 7 = HW_UNKNOWN <-> 7 = 6 \/ 10 <= 7).
Proof. destruct (straps_read_back 7 ltac:(lia)) as (H1 & _ & _ & _ & H2 & _). exact (conj H1 H2). Defined.

(** *** Kept once known *)

Inductive version_call := CallGet (x : straps) | CallInit (x : straps) | CallFront (x : straps) | CallPower (x : straps) | CallReset (x : straps).

Definition version_step (bd : board) (c : version_call) (s : version_sys) : version_sys :=
  match c with
  | CallGet x => (version_get bd x s).2
  | CallInit x => (version_init bd x s).2
  | CallFront x => version_get_front_unit_rev x s
  | CallPower x => version_get_power_board_rev x s
  | CallReset x => version_get_reset_board_rev x s
  end.
Definition version_run (bd : board) (l : list version_call) (s : version_sys) : version_sys := fold_left (fun s c => version_step bd c s) l s.

(** Known stays known, and the same. *)
Definition extends (s s' : version_sys) : Prop :=
  let h := board_versions s in let h' := board_versions s' in
  (version h <> HW_UNKNOWN -> version h' = version h) /\ (front_unit h <> FRONT_UNKNOWN -> front_unit h' = front_unit h) /\
  (power_board h <> POWER_UNKNOWN -> power_board h' = power_board h) /\ (reset_board h <> RESET_UNKNOWN -> reset_board h' = reset_board h) /\
  (static_front s <> FRONT_UNKNOWN -> static_front s' = static_front s) /\ (static_power s <> POWER_UNKNOWN -> static_power s' = static_power s) /\
  (static_reset s <> RESET_UNKNOWN -> static_reset s' = static_reset s).

#[local] Instance extends_preorder : PreOrder extends.
Proof.
  split; [by intros s |]. intros s1 s2 s3 (A1 & A2 & A3 & A4 & A5 & A6 & A7) (B1 & B2 & B3 & B4 & B5 & B6 & B7). unfold extends.
  split_and!; intros H.
  - by rewrite B1, A1 by (rewrite ?A1; done).
  - by rewrite B2, A2 by (rewrite ?A2; done).
  - by rewrite B3, A3 by (rewrite ?A3; done).
  - by rewrite B4, A4 by (rewrite ?A4; done).
  - by rewrite B5, A5 by (rewrite ?A5; done).
  - by rewrite B6, A6 by (rewrite ?A6; done).
  - by rewrite B7, A7 by (rewrite ?A7; done).
Qed.

Lemma front_extends x s : extends s (version_get_front_unit_rev x s).
Proof. unfold version_get_front_unit_rev. split_and!; cbn; try done. by destruct (decide _). Qed.
Lemma power_extends x s : extends s (version_get_power_board_rev x s).
Proof. unfold version_get_power_board_rev. split_and!; cbn; try done. by destruct (decide _). Qed.
Lemma reset_extends x s : extends s (version_get_reset_board_rev x s).
Proof. unfold version_get_reset_board_rev. split_and!; cbn; try done. by destruct (decide _). Qed.

Lemma main_extends bd x v : v <> HW_UNKNOWN -> main_version bd x v = (RET_SUCCESS, v).
Proof. intros H. unfold main_version. by destruct (decide _). Qed.

Lemma fetch_extends bd x s : extends s (version_fetch_hardware_rev bd x s).2.
Proof.
  unfold version_fetch_hardware_rev. destruct (main_version bd x (version (board_versions s))) as [ret v] eqn:E.
  destruct (ret =? RET_SUCCESS); cbn [negb]; [| done].
  assert (Hv : version (board_versions s) <> HW_UNKNOWN -> v = version (board_versions s)).
  { intros H. rewrite main_extends in E by done. by injection E. }
  clear E. set (h := board_versions s) in *. destruct bd; [by split_and! |].
  set (s1 := with_board (Hardware v (front_unit h) (power_board h) (reset_board h)) s).
  assert (X1 : extends s s1) by (by split_and!). cbn [front_unit power_board reset_board].
  set (s2 := if decide (front_unit h = FRONT_UNKNOWN) then _ else s1).
  assert (X2 : extends s s2 /\ version (board_versions s2) = v).
  { unfold s2. destruct (decide _) as [H |]; [| by split]. split; [| done]. etransitivity; [exact X1 |].
    destruct (front_extends x s1) as (? & ? & ? & ? & ? & ? & ?). by split_and!. }
  clearbody s2. destruct X2 as [X2 V2]. set (s3 := if decide (power_board (board_versions s2) = POWER_UNKNOWN) then _ else s2).
  assert (X3 : extends s s3 /\ version (board_versions s3) = v).
  { unfold s3. destruct (decide _) as [H |]; [| by split]. split; [| done]. etransitivity; [exact X2 |].
    destruct (power_extends x s2) as (? & ? & ? & ? & ? & ? & ?). by split_and!. }
  clearbody s3. destruct X3 as [X3 V3]. cbn [snd]. destruct (decide _) as [H |]; [| done]. etransitivity; [exact X3 |].
  destruct (reset_extends x s3) as (? & ? & ? & ? & ? & ? & ?). by split_and!.
Qed.

(** A version that is known stays the same, whatever the straps and the converter show later and whichever function asks. *)
Theorem known_for_good bd l s : extends s (version_run bd l s).
Proof.
  unfold version_run. revert s. induction l as [| c l IH]; intros s; cbn [fold_left]; [done |].
  etransitivity; [| apply IH]. destruct c; cbn [version_step];
    [apply fetch_extends | apply fetch_extends | apply front_extends | apply power_extends | apply reset_extends].
Qed.

(** The first call settles everything that can be read. *)
Example first_call_settles :
  (version_get Diamond (Straps true 0 0 (pins_of 4 9) (pins_of 4 9) (pins_of 4 7) (pins_of 1 0)) version_boot).1 =
  Hardware DIAMOND_V4_8 V6_4A V1_7 RESET_V1_1.
Proof. reflexivity. Qed.

(** The Pearl's thresholds: the documented voltages (0, 300, 1030, 3000 and 3300 mV) are told apart with a margin of 100 mV. *)
Theorem pearl_voltages mv :
  (Z.abs (mv - 0) < 100 -> pearl_of mv = PEARL_EV1) /\ (Z.abs (mv - 300) < 100 -> pearl_of mv = PEARL_EV4) /\
  (Z.abs (mv - 1030) < 100 -> pearl_of mv = PEARL_EV5) /\ (Z.abs (mv - 3000) < 100 -> pearl_of mv = PEARL_EV3) /\
  (Z.abs (mv - 3300) < 100 -> pearl_of mv = PEARL_EV2) /\
  (pearl_of mv = HW_UNKNOWN <-> 400 <= mv <= 930 \/ 1130 <= mv <= 2900).
Proof.
  unfold pearl_of. split_and!; try (intros H; bdestruct_all; done).
  bdestruct_all; cbn [andb]; (split; [intros E; first [discriminate E | lia] | first [lia | done]]).
Qed.

(** The name of a version is looked up within its table, whatever the version is. *)
Theorem string_index_in_bounds bd poc1 number : 0 <= get_string_index bd poc1 number < zlen (hardware_versions_str bd).
Proof.
  unfold get_string_index. set (i := match bd with Pearl => _ | Diamond => _ end).
  assert (0 <= i) by (unfold i; destruct bd; [apply u32_range | destruct (_ <? _); [done | apply u32_range]]).
  destruct (Z.eqb_spec i 0), (Z.leb_spec (zlen (hardware_versions_str bd)) i); cbn [orb]; first [lia | split; [lia | by destruct bd]].
Qed.

(** A primary slot that cannot be read is announced as version 0.0.0. *)
Example unreadable_primary_announced : primary_app (version_fw_send (RET_ERROR_INTERNAL, None) (RET_ERROR_INTERNAL, None)) = (0, 0, 0, 0).
Proof. reflexivity. Qed.

(** The boards of the Diamond are not read while the main board's straps cannot be. *)
Example main_board_first :
  let x := Straps true 0 0 (PinRead true (-5) 0 :: pins_of 3 0) (pins_of 4 4) (pins_of 4 5) (pins_of 1 0) in
  front_unit (version_get Diamond x version_boot).1 = FRONT_UNKNOWN.
Proof. reflexivity. Qed.
