(* ===== verification/Date.v ===== *)
(** lib/date/date.c: the clock of the system, over a real-time clock device.

    [gmtime_r] and [mktime] are the C library's, in UTC, on the proleptic
    Gregorian calendar.  The device is a parameter: it stores a broken-down time ([RtcLaws]);
    that it goes on counting is not part of the model. *)

From S2P Require Import Prelude.

Record tm := Tm { tm_sec : Z; tm_min : Z; tm_hour : Z; tm_mday : Z; tm_mon : Z; tm_year : Z; tm_wday : Z; tm_yday : Z; tm_isdst : Z }.

(** ** The C library *)

(** Days since 1970-01-01 of a date; months count from March, years from March too. *)
Definition days_from_civil (y m d : Z) : Z :=
  let y := if m <=? 2 then y - 1 else y in
  let era := y / 400 in
  let yoe := y - era * 400 in
  let doy := (153 * (if 2 <? m then m - 3 else m + 9) + 2) / 5 + d - 1 in
  era * 146097 + (yoe * 365 + yoe / 4 - yoe / 100 + doy) - 719468.

Definition civil_from_days (days : Z) : Z * Z * Z :=
  let z := days + 719468 in
  let era := z / 146097 in
  let doe := z - era * 146097 in
  let yoe := (doe - doe / 1460 + doe / 36524 - doe / 146096) / 365 in
  let doy := doe - (365 * yoe + yoe / 4 - yoe / 100) in
  let mp := (5 * doy + 2) / 153 in
  let d := doy - (153 * mp + 2) / 5 + 1 in
  let m := if mp <? 10 then mp + 3 else mp - 9 in
  (yoe + era * 400 + (if m <=? 2 then 1 else 0), m, d).

Definition gmtime_r (epoch : Z) : tm :=
  let days := epoch / 86400 in
  let s := epoch mod 86400 in
  let '(y, m, d) := civil_from_days days in
  Tm (s mod 60) (s / 60 mod 60) (s / 3600) d (m - 1) (y - 1900) ((days + 4) mod 7) (days - days_from_civil y 1 1) 0.

(** Fields out of range are carried over. *)
Definition mktime (t : tm) : Z :=
  let y := tm_year t + 1900 + tm_mon t / 12 in
  (days_from_civil y (tm_mon t mod 12 + 1) 1 + (tm_mday t - 1)) * 86400 + tm_hour t * 3600 + tm_min t * 60 + tm_sec t.

(** ** The device *)

Class RtcDevice (D : Type) := { rtc_get_time : D -> Z * tm; rtc_set_time : D -> tm -> Z * D }.
Class RtcLaws (D : Type) `{RtcDevice D} := {
  rtc_get_set : forall d t d', rtc_set_time d t = (0, d') -> rtc_get_time d' = (0, t);
  rtc_set_fails : forall d t ret d', rtc_set_time d t = (ret, d') -> ret <> 0 -> d' = d }.

(** ** date.c *)

Section Date.
Context {D : Type} `{RtcDevice D}.

Definition date_get (d : D) : Z := let '(ret, time) := rtc_get_time d in if ret =? 0 then u64 (mktime time) else 0.

(** The clock is read first, to print how far it was off. *)
Definition date_set_time (t : tm) (d : D) : Z * D := rtc_set_time d t.
Definition time_diff (t : tm) (d : D) : option Z := let '(ret, time) := rtc_get_time d in if ret =? 0 then Some (mktime t - mktime time) else None.

Definition date_set_time_epoch (epoch : Z) (d : D) : Z * D := date_set_time (gmtime_r epoch) d.
End Date.

(** ** Calendar *)

Lemma civil_ranges days : let '(y, m, d) := civil_from_days days in 1 <= m <= 12 /\ 1 <= d <= 31.
Proof.
  unfold civil_from_days. set (doe := days + 719468 - (days + 719468) / 146097 * 146097).
  assert (0 <= doe < 146097) by (unfold doe; zify_div). clearbody doe.
  set (yoe := (doe - doe / 1460 + doe / 36524 - doe / 146096) / 365).
  assert (Hy : 0 <= yoe <= 399 /\ 0 <= doe - (365 * yoe + yoe / 4 - yoe / 100) <= 365) by (unfold yoe; zify_div).
  set (doy := doe - (365 * yoe + yoe / 4 - yoe / 100)) in *. clearbody doy. clear - Hy.
  set (mp := (5 * doy + 2) / 153). assert (0 <= mp <= 11) by (unfold mp; zify_div).
  destruct (Z.ltb_spec mp 10); split; try lia; unfold mp; zify_div.
Qed.

Lemma civil_inverse days : let '(y, m, d) := civil_from_days days in days_from_civil y m d = days.
Proof.
  unfold civil_from_days, days_from_civil. set (era := (days + 719468) / 146097). set (doe := days + 719468 - era * 146097).
  assert (0 <= doe < 146097) by (unfold doe, era; zify_div). assert (Ed : days = doe + era * 146097 - 719468) by (unfold doe; lia). clearbody doe era. subst days.
  set (yoe := (doe - doe / 1460 + doe / 36524 - doe / 146096) / 365).
  assert (Hy : 0 <= yoe <= 399 /\ 0 <= doe - (365 * yoe + yoe / 4 - yoe / 100) <= 365) by (unfold yoe; zify_div).
  clearbody yoe. set (doy := doe - (365 * yoe + yoe / 4 - yoe / 100)) in *. assert (Eo : doe = doy + (365 * yoe + yoe / 4 - yoe / 100)) by (unfold doy; lia).
  clearbody doy. subst doe.
  set (mp := (5 * doy + 2) / 153). assert (Hm : 0 <= mp <= 11) by (unfold mp; zify_div). clearbody mp.
  destruct (Z.ltb_spec mp 10).
  - bfalse (mp + 3 <=? 2). btrue (2 <? mp + 3). replace (mp + 3 - 3) with mp by lia.
    replace (yoe + era * 400 + 0) with (yoe + era * 400) by lia. assert ((yoe + era * 400) / 400 = era) as -> by zify_div.
    replace (yoe + era * 400 - era * 400) with yoe by lia. lia.
  - btrue (mp - 9 <=? 2). bfalse (2 <? mp - 9). replace (mp - 9 + 9) with mp by lia.
    replace (yoe + era * 400 + 1 - 1) with (yoe + era * 400) by lia. assert ((yoe + era * 400) / 400 = era) as -> by zify_div.
    replace (yoe + era * 400 - era * 400) with yoe by lia. lia.
Qed.

(** [mktime] takes back what [gmtime_r] broke down, for every second before and after 1970; and the fields are in their ranges. *)
Theorem broken_down_and_back epoch :
  let t := gmtime_r epoch in
  mktime t = epoch /\ 0 <= tm_sec t < 60 /\ 0 <= tm_min t < 60 /\ 0 <= tm_hour t < 24 /\ 1 <= tm_mday t <= 31 /\ 0 <= tm_mon t < 12 /\ 0 <= tm_wday t < 7.
Proof.
  cbv zeta. unfold gmtime_r. pose proof (civil_ranges (epoch / 86400)) as R. pose proof (civil_inverse (epoch / 86400)) as I.
  destruct (civil_from_days (epoch / 86400)) as [[y m] d]. destruct R as [Rm Rd].
  unfold mktime. cbn [tm_sec tm_min tm_hour tm_mday tm_mon tm_year tm_wday]. split; [| split_and!; zify_div].
  rewrite (Z.div_small (m - 1)), (Z.mod_small (m - 1)) by lia. replace (m - 1 + 1) with m by lia. replace (y - 1900 + 1900 + 0) with y by lia.
  assert (days_from_civil y m 1 + (d - 1) = epoch / 86400) as -> by (rewrite <- I; unfold days_from_civil; lia).
  zify_div.
Qed.

(** The date that was set is the date that is read, when the device takes it; when it does not the clock keeps its date. *)
Theorem date_set_is_read {D} `{RtcLaws D} epoch d ret d' : 0 <= epoch < 2 ^ 64 -> date_set_time_epoch epoch d = (ret, d') ->
  (ret = 0 -> date_get d' = epoch) /\ (ret <> 0 -> date_get d' = date_get d).
Proof.
  unfold date_set_time_epoch, date_set_time, date_get. intros He E. split; intros Hr.
  - subst ret. rewrite (rtc_get_set _ _ _ E). change (0 =? 0) with true. cbv iota. destruct (broken_down_and_back epoch) as [-> _]. apply u64_small. lia.
  - by rewrite (rtc_set_fails _ _ _ _ E Hr).
Qed.

(** A device that takes the years 2000 to 2099. *)
#[local] Instance century_rtc : RtcDevice tm := {|
  rtc_get_time d := (0, d);
  rtc_set_time d t := if (100 <=? tm_year t) && (tm_year t <? 200) then (0, t) else (- EINVAL, d) |}.
#[local] Instance century_laws : RtcLaws tm.
Proof. split; intros d t; [intros d' | intros ret d']; cbn; destruct (_ && _); intros [=]; subst; done. Qed.

(** 27 May 2025, 9:55, as the module's own test has it. *)
Lemma date_set_is_read_witness : date_get (date_set_time_epoch 1748339700 (gmtime_r 946684800)).2 = 1748339700.
Proof.
  exact (proj1 (date_set_is_read 1748339700 (gmtime_r 946684800) 0 (gmtime_r 1748339700) ltac:(lia) eq_refl) eq_refl).
Defined.

Example may_27 : (tm_year (gmtime_r 1748339700), tm_mon (gmtime_r 1748339700), tm_mday (gmtime_r 1748339700), tm_hour (gmtime_r 1748339700),
                  tm_min (gmtime_r 1748339700), tm_wday (gmtime_r 1748339700), tm_yday (gmtime_r 1748339700)) = (125, 4, 27, 9, 55, 2, 146).
Proof. vm_compute. reflexivity. Qed.
