(* ===== verification/CanIsotpTx.v ===== *)
(** lib/can_messaging/canbus_tx_isotp.c: long messages to the Jetson, split into frames by the ISO-TP layer.

    As in [Can], callers, the thread, the completion callback and the re-initialisation are steps that
    interleave.  A message is copied to a buffer of a heap; the heap's allocator is a
    parameter of the call (it answers with a buffer that is not in use, or none), and the ISO-TP layer sends the bytes that are in the buffer
    when the transfer completes.  [ctx_busy] is the transfer that uses the thread's only context. *)

From S2P Require Import Prelude Can.

Definition ISOTP_TX_QUEUE_SIZE : nat := 16.
Definition ISOTP_N_OK : Z := 0.

(** A queued message: destination, buffer, size. *)
Record isotp_msg := IsotpMsg { im_dest : Z; im_buf : nat; im_size : Z }.

Inductive isotp_phase := LoopTop | TakeSem | GetMsg | GotMsg (m : isotp_msg) | Sending (m : isotp_msg).

Record isotp_tx := IsotpTx {
  it_init : bool;
  heap : gmap nat bytes;              (* live buffers *)
  it_queue : list isotp_msg;
  it_sem : Z;
  it_phase : isotp_phase;
  transfers : list isotp_msg;         (* handed to the ISO-TP layer, not completed *)
  delivered : list (Z * bytes);       (* completed *)
  bad_free : bool;                    (* a buffer was freed that is not live *)
  ctx_reused : bool;                  (* the context was cleared while a transfer used it *)
}.

Definition with_it (i : bool) (h : gmap nat bytes) (q : list isotp_msg) (sem : Z) (p : isotp_phase) (s : isotp_tx) : isotp_tx :=
  IsotpTx i h q sem p (transfers s) (delivered s) (bad_free s) (ctx_reused s).
Definition give_it (s : isotp_tx) : isotp_tx := with_it (it_init s) (heap s) (it_queue s) (Z.min 1 (it_sem s + 1)) (it_phase s) s.
Definition at_phase (p : isotp_phase) (s : isotp_tx) : isotp_tx := with_it (it_init s) (heap s) (it_queue s) (it_sem s) p s.
Definition k_heap_free (p : nat) (s : isotp_tx) : isotp_tx :=
  match heap s !! p with
  | Some _ => with_it (it_init s) (delete p (heap s)) (it_queue s) (it_sem s) (it_phase s) s
  | None => IsotpTx (it_init s) (heap s) (it_queue s) (it_sem s) (it_phase s) (transfers s) (delivered s) true (ctx_reused s)
  end.

(** [can_isotp_messaging_async_tx]; [p]: what the allocator answers. *)
Definition can_isotp_messaging_async_tx (p : option nat) (m : can_message) (s : isotp_tx) : Z * isotp_tx :=
  if negb (it_init s) then (RET_ERROR_INVALID_STATE, s)
  else
    match p with
    | None => (RET_ERROR_NO_MEM, s)
    | Some p =>
        let s := with_it (it_init s) (<[p := payload m]> (heap s)) (it_queue s) (it_sem s) (it_phase s) s in
        if (length (it_queue s) <? ISOTP_TX_QUEUE_SIZE)%nat
        then (RET_SUCCESS, with_it (it_init s) (heap s) (it_queue s ++ [IsotpMsg (destination m) p (zlen (payload m))]) (it_sem s) (it_phase s) s)
        else (RET_ERROR_BUSY, k_heap_free p s)
    end.

(** [tx_complete_cb] of the oldest transfer: what is in its buffer has been sent; freeing and giving follow. *)
Definition transfer_done (s : isotp_tx) : isotp_tx :=
  match transfers s with
  | [] => s
  | m :: l =>
      give_it (k_heap_free (im_buf m)
        (IsotpTx (it_init s) (heap s) (it_queue s) (it_sem s) (it_phase s) l
           (delivered s ++ [(im_dest m, slice 0 (im_size m) (default [] (heap s !! im_buf m)))]) (bad_free s) (ctx_reused s)))
  end.

(** The thread up to its next blocking or preemption point.  [timeout]: the semaphore was not given within 5 s; [ret]: what [isotp_send] answers. *)
Definition isotp_thread_step (timeout : bool) (ret : Z) (s : isotp_tx) : isotp_tx :=
  match it_phase s with
  | LoopTop => with_it true (heap s) (it_queue s) (it_sem s) TakeSem s
  | TakeSem =>
      if 0 <? it_sem s then with_it (it_init s) (heap s) (it_queue s) (it_sem s - 1) GetMsg s
      else if timeout then at_phase LoopTop (give_it s) else s
  | GetMsg =>
      match it_queue s with
      | [] => s
      | m :: q => with_it (it_init s) (heap s) q (it_sem s) (GotMsg m) s
      end
  | GotMsg m => if it_init s then at_phase (Sending m) s else at_phase LoopTop (give_it s)
  | Sending m =>
      let s := IsotpTx (it_init s) (heap s) (it_queue s) (it_sem s) (it_phase s) (transfers s) (delivered s) (bad_free s)
                 (ctx_reused s || negb (bool_decide (transfers s = []))) in
      if ret =? ISOTP_N_OK
      then IsotpTx (it_init s) (heap s) (it_queue s) (it_sem s) LoopTop (transfers s ++ [m]) (delivered s) (bad_free s) (ctx_reused s)
      else at_phase LoopTop (give_it (k_heap_free (im_buf m) s))
  end.

(** [canbus_isotp_tx_init]: a thread that waits for a message is woken by the purge, finds [is_init] cleared and gives the semaphore back. *)
Definition canbus_isotp_tx_init (can_dev : bool) (s : isotp_tx) : Z * isotp_tx :=
  let s := with_it false (heap s) (it_queue s) (it_sem s) (it_phase s) s in
  if negb can_dev then (RET_ERROR_NOT_FOUND, s)
  else
    let s := with_it false ∅ [] (Z.min 1 (it_sem s + 1)) (it_phase s) s in
    (RET_SUCCESS, match it_phase s with GetMsg => at_phase LoopTop (give_it s) | _ => s end).

Definition isotp_tx_boot : isotp_tx := IsotpTx false ∅ [] 1 LoopTop [] [] false false.

(** *** Interleavings *)

Inductive isotp_event :=
| ItAsync (p : option nat) (m : can_message)
| ItThread (timeout : bool) (ret : Z)
| ItDone
| ItInit.

Definition isotp_step (s : isotp_tx) (e : isotp_event) : isotp_tx :=
  match e with
  | ItAsync p m => (can_isotp_messaging_async_tx p m s).2
  | ItThread t ret => isotp_thread_step t ret s
  | ItDone => transfer_done s
  | ItInit => (canbus_isotp_tx_init true s).2
  end.

(** The message the event makes the module accept, or one it discards after [isotp_send] refused it. *)
Definition taken (s : isotp_tx) (e : isotp_event) : list (Z * bytes) :=
  match e with ItAsync p m => if (can_isotp_messaging_async_tx p m s).1 =? RET_SUCCESS then [(destination m, payload m)] else [] | _ => [] end.

Fixpoint isotp_run (s : isotp_tx) (es : list isotp_event) : isotp_tx * list (Z * bytes) :=
  match es with
  | [] => (s, [])
  | e :: es => let r := isotp_run (isotp_step s e) es in (r.1, taken s e ++ r.2)
  end.

(** The allocator's answers are fresh, transfers complete within 5 s, [isotp_send] takes the message, and nobody re-initialises. *)
Definition isotp_regular (s : isotp_tx) (e : isotp_event) : Prop :=
  match e with
  | ItAsync (Some p) _ => heap s !! p = None
  | ItThread timeout ret => timeout = false /\ ret = ISOTP_N_OK
  | ItInit => False
  | _ => True
  end.

Fixpoint regular_run (s : isotp_tx) (es : list isotp_event) : Prop :=
  match es with [] => True | e :: es => isotp_regular s e /\ regular_run (isotp_step s e) es end.

(** ** Invariant *)

Definition phase_msgs (p : isotp_phase) : list isotp_msg := match p with GotMsg m | Sending m => [m] | _ => [] end.

(** Accepted and not yet completed, in order. *)
Definition pending_msgs (s : isotp_tx) : list isotp_msg := transfers s ++ phase_msgs (it_phase s) ++ it_queue s.

Definition content (s : isotp_tx) (m : isotp_msg) : Z * bytes := (im_dest m, slice 0 (im_size m) (default [] (heap s !! im_buf m))).

Record isotp_inv (s : isotp_tx) : Prop := {
  ii_nodup : NoDup (im_buf <$> pending_msgs s);
  ii_live : forall p, is_Some (heap s !! p) <-> p ∈ im_buf <$> pending_msgs s;
  ii_sem : it_sem s + zlen (transfers s) + match it_phase s with LoopTop | TakeSem => 0 | _ => 1 end = 1 /\ 0 <= it_sem s;
  ii_top : it_init s = false -> it_phase s = LoopTop;
  ii_free : bad_free s = false;
  ii_ctx : ctx_reused s = false;
}.

Lemma content_ext s s' (l : list isotp_msg) : heap s = heap s' -> content s <$> l = content s' <$> l.
Proof. intros E. apply list_fmap_ext. intros i m _. unfold content. by rewrite E. Qed.

Lemma content_fresh s s' p b (l : list isotp_msg) : heap s' = <[p := b]> (heap s) -> p ∉ im_buf <$> l -> content s' <$> l = content s <$> l.
Proof.
  intros E Hp. apply list_fmap_ext. intros i m Hm. unfold content. rewrite E, lookup_insert_ne; [done |].
  intros ->. apply Hp, list_elem_of_fmap. exists m. split; [done |]. by eapply list_elem_of_lookup_2.
Qed.

Lemma content_deleted s s' p (l : list isotp_msg) : heap s' = delete p (heap s) -> p ∉ im_buf <$> l -> content s' <$> l = content s <$> l.
Proof.
  intros E Hp. apply list_fmap_ext. intros i m Hm. unfold content. rewrite E, lookup_delete_ne; [done |].
  intros ->. apply Hp, list_elem_of_fmap. exists m. split; [done |]. by eapply list_elem_of_lookup_2.
Qed.

(** What a regular step does to the messages: one more accepted, or the first one completed. *)
Definition isotp_history (s : isotp_tx) : list (Z * bytes) := delivered s ++ (content s <$> pending_msgs s).

Lemma isotp_async_inv s p m : isotp_inv s -> isotp_regular s (ItAsync p m) ->
  isotp_inv (isotp_step s (ItAsync p m)) /\ isotp_history (isotp_step s (ItAsync p m)) = isotp_history s ++ taken s (ItAsync p m).
Proof.
  intros I R. pose proof I as [ND LV [SM SP] TP FR CT]. cbn [isotp_step taken isotp_regular] in *.
  unfold can_isotp_messaging_async_tx. destruct (it_init s) eqn:Ei; cbn [negb fst snd]; [| by rewrite app_nil_r].
  destruct p as [p |]; cbn [fst snd]; [| by rewrite app_nil_r]. cbn [it_queue with_it].
  assert (Hp : p ∉ im_buf <$> pending_msgs s) by (intros H%LV; rewrite R in H; by destruct H).
  destruct (_ <? _)%nat; cbn [fst snd].
  + change (RET_SUCCESS =? RET_SUCCESS) with true. cbv iota.
    match goal with |- isotp_inv ?x /\ _ => set (s' := x) end.
    assert (Ep : pending_msgs s' = pending_msgs s ++ [IsotpMsg (destination m) p (zlen (payload m))]) by (unfold pending_msgs; cbn; by rewrite !app_assoc).
    split.
    * split; rewrite ?Ep, ?fmap_app; cbn [fmap list_fmap im_buf]; try done.
      -- apply NoDup_app. split_and!; [done | | apply NoDup_singleton]. intros q Hq Hq2. apply list_elem_of_singleton in Hq2 as ->. done.
      -- intros q. rewrite elem_of_app, list_elem_of_singleton, <- LV. cbn. destruct (decide (q = p)) as [-> | Hn].
         ++ rewrite lookup_insert_eq. split; [by right | by eexists].
         ++ rewrite lookup_insert_ne by done. naive_solver.
    * unfold isotp_history. rewrite Ep, fmap_app, app_assoc. cbn [fmap list_fmap]. f_equal.
      -- cbn [delivered]. f_equal. by apply (content_fresh s s' p (payload m)).
      -- unfold content. cbn. rewrite lookup_insert_eq. cbn. by rewrite slice_all.
  + change (RET_ERROR_BUSY =? RET_SUCCESS) with false. cbv iota. rewrite app_nil_r.
    unfold k_heap_free. cbn [heap with_it]. rewrite lookup_insert_eq. unfold with_it. cbn. rewrite delete_insert_id by done. by destruct s.
Qed.

(** A step that leaves the messages and their buffers alone. *)
Lemma same_messages s s' : isotp_inv s -> heap s' = heap s -> pending_msgs s' = pending_msgs s -> delivered s' = delivered s ->
  bad_free s' = false -> ctx_reused s' = false -> (it_init s' = false -> it_phase s' = LoopTop) ->
  it_sem s' + zlen (transfers s') + match it_phase s' with LoopTop | TakeSem => 0 | _ => 1 end = 1 -> 0 <= it_sem s' ->
  isotp_inv s' /\ isotp_history s' = isotp_history s ++ [].
Proof.
  intros [ND LV _ _ _ _] Eh Ep Ed F C T S0 S1. split.
  - split; rewrite ?Eh, ?Ep; auto.
  - unfold isotp_history. rewrite app_nil_r, Ed, Ep. f_equal. by apply content_ext.
Qed.

Ltac kept := apply same_messages; cbn; rewrite ?zlen_cons, ?zlen_nil; try done; try lia;
  [unfold pending_msgs; cbn; repeat match goal with H : it_phase _ = _ |- _ => rewrite H | H : it_queue _ = _ |- _ => rewrite H | H : transfers _ = _ |- _ => rewrite H end; done
  | intros; match goal with H : _ -> it_init _ = true |- _ => rewrite H in *; done end ..].

Lemma isotp_thread_inv s timeout ret : isotp_inv s -> isotp_regular s (ItThread timeout ret) ->
  isotp_inv (isotp_thread_step timeout ret s) /\ isotp_history (isotp_thread_step timeout ret s) = isotp_history s ++ [].
Proof.
  intros I [-> ->]. pose proof I as [_ _ [SM SP] TP FR CT]. unfold isotp_thread_step.
  assert (Ini : it_phase s <> LoopTop -> it_init s = true) by (destruct (it_init s); [done | intros H; by specialize (TP eq_refl)]).
  pose proof (zlen_nonneg (transfers s)). unfold pending_msgs. destruct (it_phase s) eqn:P; cbn [phase_msgs] in *.
  - kept.
  - destruct (Z.ltb_spec 0 (it_sem s)); [kept | by rewrite app_nil_r].
  - destruct (it_queue s) as [| m q] eqn:Q; [by rewrite app_nil_r | kept].
  - rewrite Ini by done. kept.
  - assert (E : transfers s = []) by (apply zlen_0; lia). rewrite E, CT in *. cbn [app orb].
    change (ISOTP_N_OK =? ISOTP_N_OK) with true. kept.
Qed.

Lemma done_inv s : isotp_inv s -> isotp_inv (transfer_done s) /\ isotp_history (transfer_done s) = isotp_history s ++ [].
Proof.
  intros I. pose proof I as [ND LV [SM SP] TP FR CT]. unfold transfer_done. destruct (transfers s) as [| m l] eqn:T; [by rewrite app_nil_r |].
  rewrite zlen_cons in SM. pose proof (zlen_nonneg l). assert (l = []) as -> by (apply zlen_0; destruct (it_phase s); lia).
  assert (Sem : it_sem s = 0) by (destruct (it_phase s); lia). assert (Ph : phase_msgs (it_phase s) = []) by (destruct (it_phase s); try done; lia).
  unfold pending_msgs in ND, LV. rewrite T in ND, LV. cbn [app] in ND, LV. rewrite Ph in ND, LV. cbn [app fmap list_fmap] in ND, LV.
  assert (L : is_Some (heap s !! im_buf m)) by (apply LV; left). destruct L as [b L].
  apply NoDup_cons in ND as [Hm ND].
  unfold k_heap_free. cbn [heap]. rewrite L. match goal with |- isotp_inv ?x /\ _ => set (s' := x) end.
  assert (Ep : pending_msgs s' = it_queue s) by (unfold pending_msgs, s'; cbn; by rewrite Ph).
  assert (Eh : heap s' = delete (im_buf m) (heap s)) by done.
  split.
  - split; rewrite ?Ep, ?Eh; try done.
    + intros p. destruct (decide (p = im_buf m)) as [-> | Hn].
      * rewrite lookup_delete_eq. split; [by intros [] | done].
      * rewrite lookup_delete_ne by done. rewrite LV, elem_of_cons. naive_solver.
    + unfold s'. cbn. rewrite Sem in SM |- *. change (zlen (@nil isotp_msg)) with 0 in *. revert SM. destruct (it_phase s); lia.
  - unfold isotp_history. rewrite Ep, app_nil_r. unfold pending_msgs. rewrite T, Ph. cbn [app fmap list_fmap].
    assert (delivered s' = delivered s ++ [content s m]) as -> by (unfold content; by rewrite L). rewrite <- app_assoc. cbn [app]. do 2 f_equal.
    by apply (content_deleted s s' (im_buf m)).
Qed.

Lemma isotp_step_inv s e : isotp_inv s -> isotp_regular s e ->
  isotp_inv (isotp_step s e) /\ isotp_history (isotp_step s e) = isotp_history s ++ taken s e.
Proof.
  intros I R. destruct e as [p m | timeout ret | |]; [by apply isotp_async_inv | by apply isotp_thread_inv | by apply done_inv | done].
Qed.


Definition isotp_demo : list isotp_event :=
  [ItThread false 0; ItAsync (Some 3%nat) (CanMessage 776 [1; 2]); ItThread false 0; ItAsync (Some 5%nat) (CanMessage 792 [9]); ItThread false 0;
   ItThread false 0; ItThread false 0; ItDone; ItAsync (Some 3%nat) (CanMessage 776 [4])].


(** A transfer that takes more than 5 s: the next message is handed over with the same context, cleared while the first transfer uses it. *)
Example slow_transfer_loses_context :
  ctx_reused (fold_left isotp_step
    [ItThread false 0; ItAsync (Some 1%nat) (CanMessage 776 [1]); ItAsync (Some 2%nat) (CanMessage 776 [2]);
     ItThread false 0; ItThread false 0; ItThread false 0; ItThread false 0; ItThread false 0; ItThread true 0;
     ItThread false 0; ItThread false 0; ItThread false 0; ItThread false 0; ItThread false 0] isotp_tx_boot) = true.
Proof. reflexivity. Qed.

(** A re-initialisation while a transfer is running: its completion frees a buffer of the heap that is gone. *)
Example init_under_transfer :
  bad_free (fold_left isotp_step
    [ItThread false 0; ItAsync (Some 1%nat) (CanMessage 776 [1]); ItThread false 0; ItThread false 0; ItThread false 0; ItThread false 0; ItInit; ItDone]
    isotp_tx_boot) = true.
Proof. reflexivity. Qed.
