(* ===== verification/Locked.v ===== *)
(** Calls under a mutex: what the drivers and modules that protect their state with one [k_mutex] share.

    A call waits for the mutex, up to a timeout, then makes driver calls one after the other and gives the mutex
    back with its last one; other threads run between any two of them.  [turn] is the code of the client up to and
    including its next driver call, whose answer is chosen by the environment. *)

From stdpp Require Import functions.
From S2P Require Import Prelude.

Section Locked.
Context {A P D : Type}.
Context (enter : A -> P) (turn : A -> P -> Z -> D -> D * (P + Z)).

(** Where a thread is: outside, in [k_mutex_lock], or between two driver calls. *)
Inductive whereabouts := Outside | Waiting (a : A) | Inside (a : A) (p : P).

Record locked := Locked {
  data : D;                             (* what the mutex protects *)
  holder : option nat;                  (* the mutex *)
  place : nat -> whereabouts;           (* of every thread *)
  returned : list (nat * A * Z);        (* the calls that came back after taking the mutex, and their codes *)
  timed_out : list (nat * A);           (* those that returned the code of [k_mutex_lock], -EAGAIN *)
}.

Inductive lock_event := LCall (t : nat) (a : A) | LTake (t : nat) (timeout : bool) | LTurn (t : nat) (answer : Z).

Definition lock_step (s : locked) (e : lock_event) : locked :=
  match e with
  | LCall t a =>
      match place s t with
      | Outside => Locked (data s) (holder s) (<[t := Waiting a]> (place s)) (returned s) (timed_out s)
      | _ => s
      end
  | LTake t timeout =>
      match place s t with
      | Waiting a =>
          match holder s with
          | None => Locked (data s) (Some t) (<[t := Inside a (enter a)]> (place s)) (returned s) (timed_out s)
          | Some _ =>
              if timeout then Locked (data s) (holder s) (<[t := Outside]> (place s)) (returned s) (timed_out s ++ [(t, a)]) else s
          end
      | _ => s
      end
  | LTurn t answer =>
      match place s t with
      | Inside a p =>
          match turn a p answer (data s) with
          | (d, inl p) => Locked d (holder s) (<[t := Inside a p]> (place s)) (returned s) (timed_out s)
          | (d, inr ret) => Locked d None (<[t := Outside]> (place s)) (returned s ++ [(t, a, ret)]) (timed_out s)
          end
      | _ => s
      end
  end.

Definition lock_run (es : list lock_event) (s : locked) : locked := fold_left lock_step es s.

Definition unlocked (d : D) : locked := Locked d None (fun _ => Outside) [] [].

(** ** One call after the other *)

(** A call alone, with the answers of the driver. *)
Fixpoint turns (a : A) (p : P) (answers : list Z) (d : D) : D * (P + Z) :=
  match answers with
  | [] => (d, inl p)
  | x :: answers => match turn a p x d with (d, inl p) => turns a p answers d | r => r end
  end.

(** Complete calls in a row. *)
Fixpoint in_turn (l : list (nat * A * list Z)) (d : D) : option (D * list (nat * A * Z)) :=
  match l with
  | [] => Some (d, [])
  | (t, a, answers) :: l =>
      match turns a (enter a) answers d with
      | (d, inr ret) => '(d, rs) ← in_turn l d; Some (d, (t, a, ret) :: rs)
      | (_, inl _) => None
      end
  end.

Lemma turns_snoc a answers x : forall p d d' p', turns a p answers d = (d', inl p') ->
  turns a p (answers ++ [x]) d = turn a p' x d'.
Proof.
  induction answers as [| y answers IH]; intros p d d' p' E; cbn in *.
  - injection E as <- <-. by destruct (turn a p x d) as [? []].
  - destruct (turn a p y d) as [d1 [p1 | r]]; [by apply IH | discriminate].
Qed.

Lemma in_turn_snoc t a answers ret d2 l : forall d d1 rs, in_turn l d = Some (d1, rs) -> turns a (enter a) answers d1 = (d2, inr ret) ->
  in_turn (l ++ [(t, a, answers)]) d = Some (d2, rs ++ [(t, a, ret)]).
Proof.
  induction l as [| [[t' a'] ans'] l IH]; intros d d1 rs E1 E2; cbn in *.
  - injection E1 as -> <-. by rewrite E2.
  - destruct (turns a' (enter a') ans' d) as [d' [p | r]]; [discriminate |].
    destruct (in_turn l d') as [[d'' rs''] |] eqn:E; cbn in *; [| discriminate]. injection E1 as -> <-.
    by rewrite (IH _ _ _ E E2).
Qed.

(** The threads are where the mutex says: inside is its holder, and nobody else. *)
Definition sole (s : locked) : Prop :=
  forall t a p, place s t = Inside a p -> holder s = Some t.

(** What a run amounts to: the complete calls [l] in a row, then what the holder has done so far. *)
Definition amounts (d : D) (s : locked) (l : list (nat * A * list Z)) : Prop :=
  match holder s with
  | None => in_turn l d = Some (data s, returned s)
  | Some t => exists a p answers d1, in_turn l d = Some (d1, returned s) /\ place s t = Inside a p /\
                                     turns a (enter a) answers d1 = (data s, inl p)
  end.

Lemma place_at (f : nat -> whereabouts) t w : <[t := w]> f t = w.
Proof. apply fn_lookup_insert. Qed.

Lemma place_other (f : nat -> whereabouts) t u w : t <> u -> <[t := w]> f u = f u.
Proof. apply fn_lookup_insert_ne. Qed.

Lemma lock_step_sole s e : sole s -> sole (lock_step s e).
Proof.
  intros S. destruct e as [t a | t timeout | t x]; cbn; destruct (place s t) as [| a' | a' p'] eqn:W; try done;
    [| destruct (holder s) eqn:H; [destruct timeout; [| done] |] | destruct (turn a' p' x (data s)) as [d [p | r]]];
    intros u b q; cbn; (destruct (decide (t = u)) as [<- | N]; [rewrite place_at | rewrite place_other by done]); try congruence; intros E.
  - by apply S in E.
  - apply S in E. congruence.
  - apply S in E. congruence.
  - apply S in W. congruence.
  - by apply S in E.
  - apply S in W, E. congruence.
Qed.

Lemma sole_run d es : sole (lock_run es (unlocked d)).
Proof.
  unfold lock_run. assert (G : forall es s, sole s -> sole (fold_left lock_step es s)).
  { intros es'. induction es' as [| e es' IH]; intros s S; [done |]. cbn. by apply IH, lock_step_sole. }
  by apply G.
Qed.

Lemma lock_step_amounts d s e l : sole s -> amounts d s l -> exists l', amounts d (lock_step s e) l'.
Proof.
  intros S R. destruct e as [t a | t timeout | t x]; cbn; destruct (place s t) as [| a' | a' p'] eqn:W; try (by exists l);
    unfold amounts in R.
  - exists l. unfold amounts. cbn. destruct (holder s) as [u |] eqn:H; [| done].
    destruct R as (b & p & ans & d1 & R1 & R2 & R3). exists b, p, ans, d1. split_and!; [done | | done].
    rewrite place_other by congruence. done.
  - destruct (holder s) as [u |] eqn:H.
    + destruct timeout; [| by exists l; unfold amounts; rewrite H]. exists l. unfold amounts. cbn. rewrite ?H.
      destruct R as (b & p & ans & d1 & R1 & R2 & R3). exists b, p, ans, d1. split_and!; [done | | done].
      rewrite place_other by congruence. done.
    + exists l. unfold amounts. cbn. exists a', (enter a'), [], (data s). by rewrite place_at.
  - pose proof (S _ _ _ W) as H. rewrite H in R. destruct R as (b & p & ans & d1 & R1 & R2 & R3).
    rewrite W in R2. injection R2 as <- <-. pose proof (turns_snoc _ ans x _ _ _ _ R3) as T.
    destruct (turn a' p' x (data s)) as [d2 [p2 | r]].
    + exists l. unfold amounts. cbn. rewrite H. exists a', p2, (ans ++ [x]), d1. by rewrite place_at.
    + exists (l ++ [(t, a', ans ++ [x])]). unfold amounts. cbn. by apply in_turn_snoc with d1.
Qed.

(** Calls under a mutex happen one after the other: in whatever way the threads interleave, the state is that of complete calls made
    in a row, in the order in which they came back and with the same codes, followed by the driver calls the
    holder of the mutex has made so far; no other thread is between two driver calls. *)
Theorem locked_serializable d es : let s := lock_run es (unlocked d) in
  sole s /\ exists l, amounts d s l.
Proof.
  cbn. split; [apply sole_run |]. unfold lock_run.
  assert (G : forall es s l, sole s -> amounts d s l -> exists l', amounts d (fold_left lock_step es s) l').
  { intros es'. induction es' as [| e es' IH]; intros s l S R; cbn; [by exists l |].
    destruct (lock_step_amounts d s e l S R) as [l' R']. eapply IH; [by apply lock_step_sole | done]. }
  by apply (G es (unlocked d) []).
Qed.

(** ** Invariants *)

Section Invariant.
Context (ok : A -> Prop) (I : D -> Prop) (J : A -> P -> D -> Prop).

Definition calls_ok (es : list lock_event) : Prop :=
  Forall (fun e => match e with LCall _ a => ok a | _ => True end) es.

Context (entered : forall a d, ok a -> I d -> J a (enter a) d).
Context (turned : forall a p x d, ok a -> J a p d ->
  match turn a p x d with (d', inl p') => J a p' d' | (d', inr _) => I d' end).

Definition keeps (s : locked) : Prop :=
  sole s /\ (forall t a, place s t = Waiting a -> ok a) /\
  match holder s with None => I (data s) | Some t => exists a p, ok a /\ place s t = Inside a p /\ J a p (data s) end.

Lemma keeps_step s e : keeps s -> match e with LCall _ a => ok a | _ => True end -> keeps (lock_step s e).
Proof.
  intros (S & O & K) Oe. split; [by apply lock_step_sole |].
  destruct e as [t a | t timeout | t x]; cbn; destruct (place s t) as [| a' | a' p'] eqn:W; try done.
  - cbn. split.
    + intros u b. destruct (decide (t = u)) as [<- | N]; [rewrite place_at; congruence | rewrite place_other by done; apply O].
    + destruct (holder s) as [u |] eqn:H; [| done]. destruct K as (b & p & B & E & j). exists b, p.
      rewrite place_other by congruence. done.
  - destruct (holder s) as [u |] eqn:H; [destruct timeout; [| by rewrite H] |]; cbn.
    + split; [intros v b; destruct (decide (t = v)) as [<- | N]; [by rewrite place_at | rewrite place_other by done; apply O] |].
      rewrite ?H. destruct K as (b & p & B & E & j). exists b, p. rewrite place_other by congruence. done.
    + split; [intros v b; destruct (decide (t = v)) as [<- | N]; [by rewrite place_at | rewrite place_other by done; apply O] |].
      exists a', (enter a'). rewrite place_at. split_and!; [by apply O in W | done | by apply entered; [apply O in W |]].
  - pose proof (S _ _ _ W) as H. rewrite H in K. destruct K as (b & p & B & E & j). rewrite W in E. injection E as <- <-.
    pose proof (turned a' p' x (data s) B j) as T. destruct (turn a' p' x (data s)) as [d' [p'' | r]]; cbn.
    + split; [intros v b; destruct (decide (t = v)) as [<- | N]; [by rewrite place_at | rewrite place_other by done; apply O] |].
      rewrite H. exists a', p''. by rewrite place_at.
    + split; [| done]. intros v b. destruct (decide (t = v)) as [<- | N]; [by rewrite place_at | rewrite place_other by done; apply O].
Qed.

Lemma keeps_run es d : I d -> calls_ok es -> keeps (lock_run es (unlocked d)).
Proof.
  intros Id O. unfold lock_run. assert (G : forall es s, keeps s -> calls_ok es -> keeps (fold_left lock_step es s)).
  { clear es O. intros es. induction es as [| e es IH]; intros s K O; cbn; [done |]. inversion O; subst.
    apply IH; [by apply keeps_step | done]. }
  by apply G.
Qed.
End Invariant.
End Locked.

Arguments locked : clear implicits.
Arguments whereabouts : clear implicits.
Arguments lock_event : clear implicits.
