(* ===== verification/MuxGpio.v ===== *)
(** drivers/mux_gpio: the drivers of the bus multiplexers, i2c_mux_gpio.c and spi_mux_gpio.c.  GPIO lines choose the child bus a
    transfer goes to, another line may enable the multiplexer during the transfer.

    A transfer is a call under a mutex ([Locked]): one for all multiplexers of the I2C driver when CONFIG_I2C_MUX_GLOBAL_LOCK
    is set, as several share a bus, else one per multiplexer; the SPI driver always has one per multiplexer.  The protected
    state is that of the multiplexers under the mutex. *)

From stdpp Require Import functions.
From S2P Require Import Prelude Locked.

Definition ENODEV : Z := 19.

Module MuxGpio.

(** ** State *)

(** [i2c_mux_gpio_root_config], [spi_mux_gpio_root_config]: whether there is an enable line, and the number of select lines. *)
Record root_config := RootConfig { enable_gpio : bool; number_of_mux_gpios : nat }.

(** [i2c_mux_gpio_root_data] and the lines as they are driven.  [torn]: setting a select line failed since they were last all set.
    [stuck]: clearing the enable line failed the last time. *)
Record mux_root := MuxRoot { selected_chan : Z; lines : nat -> bool; enabled : bool; torn : bool; stuck : bool }.

(** A transfer on the bus: whose it was, and how the multiplexers stood. *)
Record bus_transfer := BusTransfer { bt_root : nat; bt_chan : Z; bt_roots : nat -> mux_root }.

Record mux_sys := MuxSys { roots : nat -> mux_root; bus : list bus_transfer }.

Definition set_root (r : nat) (x : mux_root) (s : mux_sys) : mux_sys := MuxSys (<[r := x]> (roots s)) (bus s).

(** A transfer on the child bus [mc_chan] ([chan_addr]) of the multiplexer [mc_root]. *)
Record mux_call := MuxCall { mc_root : nat; mc_chan : Z }.

(** Where a transfer is: at the next select line, the enable line, the transfer itself, or the end. *)
Inductive mux_pc := SelectLine (i : nat) | EnableLine | Transfer | DisableLine (res : Z).

Section Mux.
Context (cfg : nat -> root_config).

Definition mux_enter (c : mux_call) : mux_pc := SelectLine 0.

(** [i2c_mux_gpio_transfer] and [spi_mux_gpio_transceive] between the mutex operations, [..._set_channel] included,
    one driver call at a time; [ret] is what it returns.  A line that could not be set keeps its level. *)
Definition mux_turn (c : mux_call) (p : mux_pc) (ret : Z) (s : mux_sys) : mux_sys * (mux_pc + Z) :=
  let r := mc_root c in
  let x := roots s r in
  match p with
  | SelectLine i =>
      if selected_chan x =? mc_chan c then (s, inl EnableLine)
      else if (i <? number_of_mux_gpios (cfg r))%nat then
        if ret =? 0
        then (set_root r (MuxRoot (selected_chan x) (<[i := Z.testbit (mc_chan c) (Z.of_nat i)]> (lines x)) (enabled x) (torn x) (stuck x)) s,
              inl (SelectLine (S i)))
        else (set_root r (MuxRoot (selected_chan x) (lines x) (enabled x) true (stuck x)) s, inr (- EIO))
      else (set_root r (MuxRoot (mc_chan c) (lines x) (enabled x) false (stuck x)) s, inl EnableLine)
  | EnableLine =>
      if enable_gpio (cfg r) then
        if ret =? 0 then (set_root r (MuxRoot (selected_chan x) (lines x) true (torn x) (stuck x)) s, inl Transfer)
        else (s, inr (- EIO))
      else (s, inl Transfer)
  | Transfer => (MuxSys (roots s) (bus s ++ [BusTransfer r (mc_chan c) (roots s)]), inl (DisableLine ret))
  | DisableLine res =>
      if enable_gpio (cfg r) then
        if ret =? 0 then (set_root r (MuxRoot (selected_chan x) (lines x) false (torn x) false) s, inr res)
        else (set_root r (MuxRoot (selected_chan x) (lines x) (enabled x) (torn x) true) s, inr (- EIO))
      else (s, inr res)
  end.

(** The transfer of the SPI driver, [spi_mux_gpio_transceive] with its [spi_mux_gpio_set_channel], makes the same calls. *)
Definition spi_mux_gpio_turn : mux_call -> mux_pc -> Z -> mux_sys -> mux_sys * (mux_pc + Z) := mux_turn.

(** [i2c_mux_gpio_root_init]: the bus ready or not, the result of configuring the enable line and each select line. *)
Fixpoint configure_lines (rets : list Z) (x : mux_root) : bool :=
  match rets with [] => true | ret :: rets => if ret =? 0 then configure_lines rets x else false end.

Definition root_at_rest : mux_root := MuxRoot 0 (fun _ => false) false false false.

Definition i2c_mux_gpio_root_init (ready : bool) (enable_ret : Z) (line_rets : list Z) (r : nat) (x : mux_root) : Z * mux_root :=
  if negb ready then (- ENODEV, x)
  else if enable_gpio (cfg r) && negb (enable_ret =? 0) then (- EIO, x)
  else if configure_lines (take (number_of_mux_gpios (cfg r)) line_rets) x then (0, root_at_rest)
  else (- EIO, x).

(** [spi_mux_gpio_root_init].  Without an enable line it reads the name of a null device for its log: [None]. *)
Definition spi_mux_gpio_root_init (ready enable_ready : bool) (enable_ret : Z) (line_rets : list Z) (r : nat) (x : mux_root) : option (Z * mux_root) :=
  if negb ready then Some (- ENODEV, x)
  else if negb (enable_gpio (cfg r)) then None
  else if negb enable_ready then Some (- ENODEV, x)
  else if negb (enable_ret =? 0) then Some (- EIO, x)
  else if configure_lines (take (number_of_mux_gpios (cfg r)) line_rets) x then Some (0, root_at_rest)
  else Some (- EIO, x).

(** [i2c_mux_gpio_channel_init], [spi_mux_gpio_channel_init] *)
Definition mux_channel_init (root_ready : bool) : Z := if root_ready then 0 else - ENODEV.

(** [spi_mux_gpio_release]: under the same mutex, without choosing a channel. *)
Definition spi_mux_gpio_release (lock_ret release_ret : Z) : Z := if lock_ret =? 0 then release_ret else lock_ret.

(** All multiplexers initialised. *)
Definition mux_boot : mux_sys := MuxSys (fun _ => root_at_rest) [].

(** ** The bus a transfer reaches *)

(** The number the first [n] select lines show. *)
Fixpoint channel_of (n : nat) (l : nat -> bool) : Z :=
  match n with O => 0 | S n => channel_of n l + (if l n then 2 ^ Z.of_nat n else 0) end.

Lemma channel_of_bits n c : 0 <= c -> channel_of n (fun i => Z.testbit c (Z.of_nat i)) = c mod 2 ^ Z.of_nat n.
Proof.
  intros C. induction n as [| n IH]; cbn [channel_of]; [by rewrite Z.mod_1_r |].
  rewrite IH, Nat2Z.inj_succ, Z.pow_succ_r, (Z.mul_comm 2), Z.rem_mul_r, <- Z.testbit_spec' by lia.
  destruct (Z.testbit c (Z.of_nat n)); cbn [Z.b2z]; lia.
Qed.

Lemma channel_of_ext n l k : (forall i, (i < n)%nat -> l i = k i) -> channel_of n l = channel_of n k.
Proof. induction n as [| n IH]; intros E; cbn; [done |]. rewrite IH, E by auto with lia. done. Qed.

(** The lines show the number [c]. *)
Definition shows (r : nat) (l : nat -> bool) (c : Z) : Prop :=
  forall i, (i < number_of_mux_gpios (cfg r))%nat -> l i = Z.testbit c (Z.of_nat i).

Lemma shows_channel r l c : 0 <= c < 2 ^ Z.of_nat (number_of_mux_gpios (cfg r)) -> shows r l c ->
  channel_of (number_of_mux_gpios (cfg r)) l = c.
Proof. intros C S. rewrite (channel_of_ext _ _ _ S), channel_of_bits by lia. by apply Z.mod_small. Qed.

(** ** The invariant of the mutex *)

(** BUILD_ASSERT of the channel definitions. *)
Definition call_ok (c : mux_call) : Prop := 0 <= mc_chan c < 2 ^ Z.of_nat (number_of_mux_gpios (cfg (mc_root c))).

Definition transfer_ok (b : bus_transfer) : Prop :=
  let n := number_of_mux_gpios (cfg (bt_root b)) in
  let x := bt_roots b (bt_root b) in
  (torn x = false -> channel_of n (lines x) = bt_chan b) /\
  (enable_gpio (cfg (bt_root b)) = true -> enabled x = true) /\
  (forall r, r <> bt_root b -> enabled (bt_roots b r) = true -> stuck (bt_roots b r) = true).

(** Every multiplexer apart from [but] is as a transfer leaves it. *)
Definition rests (but : option nat) (s : mux_sys) : Prop :=
  Forall transfer_ok (bus s) /\
  forall r, but <> Some r -> let x := roots s r in
    (torn x = false -> shows r (lines x) (selected_chan x)) /\ (enabled x = true -> stuck x = true).

Definition amid (c : mux_call) (p : mux_pc) (s : mux_sys) : Prop :=
  let r := mc_root c in let x := roots s r in
  let chosen := selected_chan x = mc_chan c /\ (torn x = false -> shows r (lines x) (mc_chan c)) in
  rests (Some r) s /\
  match p with
  | SelectLine i =>
      (enabled x = true -> stuck x = true) /\
      ((i = 0%nat /\ (torn x = false -> shows r (lines x) (selected_chan x))) \/
       (selected_chan x <> mc_chan c /\ (i <= number_of_mux_gpios (cfg r))%nat /\ forall j, (j < i)%nat -> lines x j = Z.testbit (mc_chan c) (Z.of_nat j)))
  | EnableLine => (enabled x = true -> stuck x = true) /\ chosen
  | Transfer | DisableLine _ => (if enable_gpio (cfg r) then enabled x = true else enabled x = true -> stuck x = true) /\ chosen
  end.

(** A change of the multiplexer of the call does not concern the others. *)
Lemma rests_set r x s : rests (Some r) s -> rests (Some r) (set_root r x s).
Proof.
  intros [T R]. split; [done |]. intros u U. cbn. rewrite fn_lookup_insert_ne by congruence. by apply R.
Qed.

Lemma rests_all r s : rests (Some r) s -> (torn (roots s r) = false -> shows r (lines (roots s r)) (selected_chan (roots s r))) ->
  (enabled (roots s r) = true -> stuck (roots s r) = true) -> rests None s.
Proof. intros [T R] L E. split; [done |]. intros u _. destruct (decide (u = r)) as [-> | N]; [done | apply R; congruence]. Qed.

Lemma root_set r x s : roots (set_root r x s) r = x.
Proof. cbn. apply fn_lookup_insert. Qed.

Lemma enter_amid c s : call_ok c -> rests None s -> amid c (mux_enter c) s.
Proof.
  intros _ [T R]. destruct (R (mc_root c) ltac:(done)) as [L E]. split; [split; [done |]; intros u _; by apply R |]. cbn. auto.
Qed.

Lemma select_amid c i ret s : amid c (SelectLine i) s ->
  match mux_turn c (SelectLine i) ret s with (s', inl p') => amid c p' s' | (s', inr _) => rests None s' end.
Proof.
  intros (R & E & L). unfold mux_turn. destruct (Z.eqb_spec (selected_chan (roots s (mc_root c))) (mc_chan c)) as [Q | Q].
  - split; [done |]. split; [done |]. split; [done |]. rewrite <- Q. destruct L as [[_ L] | [[] _]]; done.
  - assert (B : (i <= number_of_mux_gpios (cfg (mc_root c)))%nat /\
                forall j, (j < i)%nat -> lines (roots s (mc_root c)) j = Z.testbit (mc_chan c) (Z.of_nat j)).
    { destruct L as [[-> _] | [_ L]]; [split; [lia | intros; lia] | done]. }
    destruct B as [Bi B]. destruct (Nat.ltb_spec i (number_of_mux_gpios (cfg (mc_root c)))) as [H | H].
    + destruct (ret =? 0); [split; [by apply rests_set |] | apply rests_all with (mc_root c); [by apply rests_set | |]];
        rewrite ?root_set; cbn; [| done | done].
      split; [done |]. right. split_and!; [done | lia |]. intros j J. destruct (decide (i = j)) as [<- | N]; [by rewrite fn_lookup_insert |].
      rewrite fn_lookup_insert_ne by done. apply B. lia.
    + split; [by apply rests_set |]. rewrite root_set. cbn. split_and!; [done | done |]. intros _ j J. apply B. lia.
Qed.

Lemma mux_amid c p ret s : call_ok c -> amid c p s ->
  match mux_turn c p ret s with (s', inl p') => amid c p' s' | (s', inr _) => rests None s' end.
Proof.
  intros C A. destruct p as [i | | | res]; [by apply select_amid | | |]; destruct A as (R & E & Q & L); unfold mux_turn.
  - destruct (enable_gpio (cfg (mc_root c))) eqn:G; [| by split; [done | rewrite G]].
    destruct (ret =? 0); [| apply rests_all with (mc_root c); [done | by rewrite Q | done]].
    split; [by apply rests_set |]. rewrite root_set. cbn. by rewrite G.
  - split; [| done]. destruct R as [T R]. split; [| done]. apply Forall_app. split; [done |]. constructor; [| done].
    split_and!; cbn; [intros F; apply shows_channel; auto | intros G; by rewrite G in E |].
    intros u U. apply R. congruence.
  - destruct (enable_gpio (cfg (mc_root c))) eqn:G; [| by apply rests_all with (mc_root c); [| rewrite Q |]].
    destruct (ret =? 0); apply rests_all with (mc_root c); try (by apply rests_set); rewrite ?root_set; cbn; rewrite ?Q; done.
Qed.

(** C13: Whatever the threads do and however their steps interleave, and whatever the drivers answer, a transfer is on the bus while its own multiplexer
    shows the channel it is for and is enabled, and no other multiplexer under the mutex is: unless setting a select line of it failed
    before, or switching the other one off did. *)
Theorem transfers_reach_their_channel es : calls_ok call_ok es ->
  Forall transfer_ok (bus (data (lock_run mux_enter mux_turn es (unlocked mux_boot)))).
Proof.
  intros O. destruct (keeps_run mux_enter mux_turn call_ok (rests None) amid enter_amid (fun c p x s => mux_amid c p x s) es mux_boot)
    as (_ & _ & K); [| done |].
  { split; [constructor |]. intros r _. cbn. split; [intros _ i _; symmetry; apply Z.testbit_0_l | done]. }
  destruct (holder _) as [t |]; [destruct K as (c & p & _ & _ & [[T _] _]) | destruct K as [T _]]; done.
Qed.

(** ** Termination and result *)

(** The answers are enough for the call to return, and it returns 0 if all of them are, provided [Q]. *)
Definition ends (Q : Prop) (c : mux_call) (p : mux_pc) (answers : list Z) (s : mux_sys) : Prop :=
  exists s' ret, turns mux_turn c p answers s = (s', inr ret) /\ (Q -> Forall (fun a => a = 0) answers -> ret = 0).

Lemma ends_cons Q c p a answers s : match mux_turn c p a s with
  | (s', inl p') => ends (Q /\ a = 0) c p' answers s'
  | (_, inr ret) => Q -> a = 0 -> ret = 0
  end -> ends Q c p (a :: answers) s.
Proof.
  intros H. unfold ends. cbn [turns]. destruct (mux_turn c p a s) as [s' [p' | ret]].
  - destruct H as (s2 & ret & E & Z). exists s2, ret. split; [done |]. rewrite Forall_cons. tauto.
  - exists s', ret. split; [done |]. rewrite Forall_cons. tauto.
Qed.

Lemma disable_ends Q c res a answers s : (Q -> res = 0) -> ends Q c (DisableLine res) (a :: answers) s.
Proof.
  intros R. apply ends_cons. cbn. destruct (enable_gpio _); [destruct (Z.eqb_spec a 0) |]; auto.
  intros _ ->. done.
Qed.

Lemma enable_ends Q c answers s : (3 <= length answers)%nat -> ends Q c EnableLine answers s.
Proof.
  destruct answers as [| a1 [| a2 [| a3 l]]]; cbn [length]; try lia. intros _.
  assert (T : forall Q s, ends Q c Transfer (a2 :: a3 :: l) s).
  { intros. apply ends_cons. cbn. apply disable_ends. tauto. }
  apply ends_cons. cbn. destruct (enable_gpio _); [destruct (Z.eqb_spec a1 0) |]; cbn; [apply T | | apply T].
  intros _ ->. done.
Qed.

(** One turn for each select line, one to find that there is no more, then three. *)
Lemma select_ends Q c k : forall i answers s, (number_of_mux_gpios (cfg (mc_root c)) - i <= k)%nat -> (k + 4 <= length answers)%nat ->
  ends Q c (SelectLine i) answers s.
Proof.
  revert Q. induction k as [| k IH]; intros Q i [| a answers] s H K; cbn [length] in K; try lia; apply ends_cons; unfold mux_turn;
    (destruct (_ =? mc_chan c); [apply enable_ends; lia |]; destruct (Nat.ltb_spec i (number_of_mux_gpios (cfg (mc_root c)))); [| cbn; apply enable_ends; lia]).
  - lia.
  - destruct (Z.eqb_spec a 0); cbn; [apply IH; lia |]. intros _ ->. done.
Qed.

(** Every transfer ends, within as many driver calls as there are select lines and four more, and it succeeds if they all do. *)
Theorem mux_transfer_ends c s answers : (number_of_mux_gpios (cfg (mc_root c)) + 4 <= length answers)%nat ->
  exists s' ret, turns mux_turn c (mux_enter c) answers s = (s', inr ret) /\ (Forall (fun a => a = 0) answers -> ret = 0).
Proof.
  intros H. destruct (select_ends True c _ 0%nat answers s ltac:(reflexivity) ltac:(lia)) as (s' & ret & E & Z).
  exists s', ret. split; [exact E | by apply Z].
Qed.

End Mux.

(** ** On two multiplexers of one bus *)

(** One with two select lines, one with an enable line only. *)
Definition pair_cfg (r : nat) : root_config := match r with O => RootConfig true 2 | _ => RootConfig true 0 end.

(** Two threads, a transfer each: the second waits until the first is through. *)
Definition pair_run : list (lock_event mux_call) :=
  [LCall 0%nat (MuxCall 0 3); LCall 1%nat (MuxCall 1 0); LTake 0%nat false; LTurn 0%nat 0; LTake 1%nat false; LTurn 0%nat 0; LTurn 0%nat 0; LTurn 0%nat 0; LTurn 0%nat 0;
   LTake 1%nat false; LTurn 0%nat 0; LTake 1%nat false; LTurn 1%nat 0; LTurn 1%nat 0; LTurn 1%nat 0; LTurn 1%nat (-5)].

Lemma transfers_reach_their_channel_witness :
  let s := data (lock_run mux_enter (mux_turn pair_cfg) pair_run (unlocked mux_boot)) in
  Forall (transfer_ok pair_cfg) (bus s) /\ (fun b => (bt_root b, bt_chan b)) <$> bus s = [(0%nat, 3); (1%nat, 0)].
Proof.
  split; [| by vm_compute]. apply (transfers_reach_their_channel pair_cfg pair_run).
  repeat constructor; cbn; lia.
Defined.

Lemma mux_transfer_ends_witness : exists s' ret,
  turns (mux_turn pair_cfg) (MuxCall 0 3) (mux_enter (MuxCall 0 3)) [0; 0; 0; 0; -5; 0] mux_boot = (s', inr ret) /\ (Forall (fun a => a = 0) [0; 0; 0; 0; -5; 0] -> ret = 0).
Proof. apply (mux_transfer_ends pair_cfg (MuxCall 0 3) mux_boot [0; 0; 0; 0; -5; 0]). cbn. lia. Defined.

(** The second select line cannot be set on the way from channel 0 to 3: the driver still takes channel 0 for selected, and the next transfer
    for channel 0 goes to channel 1. *)
Example torn_selection :
  let s := data (lock_run mux_enter (mux_turn pair_cfg)
    [LCall 0%nat (MuxCall 0 3); LTake 0%nat false; LTurn 0%nat 0; LTurn 0%nat (-5);
     LCall 0%nat (MuxCall 0 0); LTake 0%nat false; LTurn 0%nat 0; LTurn 0%nat 0; LTurn 0%nat 0; LTurn 0%nat 0] (unlocked mux_boot)) in
  (fun b => (bt_chan b, channel_of 2 (lines (bt_roots b 0%nat)))) <$> bus s = [(0, 1)].
Proof. by vm_compute. Qed.

(** The enable line of one multiplexer cannot be cleared: the next transfer through the other one is seen by both. *)
Example both_enabled :
  let s := data (lock_run mux_enter (mux_turn pair_cfg)
    [LCall 0%nat (MuxCall 1 0); LTake 0%nat false; LTurn 0%nat 0; LTurn 0%nat 0; LTurn 0%nat 0; LTurn 0%nat (-5);
     LCall 0%nat (MuxCall 0 0); LTake 0%nat false; LTurn 0%nat 0; LTurn 0%nat 0; LTurn 0%nat 0; LTurn 0%nat 0] (unlocked mux_boot)) in
  (fun b => (bt_root b, enabled (bt_roots b 0%nat), enabled (bt_roots b 1%nat))) <$> bus s = [(1%nat, false, true); (0%nat, true, true)].
Proof. by vm_compute. Qed.

(** Without an enable line the SPI driver's error path reads the name of no device; the I2C driver accepts it. *)
Example spi_root_needs_enable :
  spi_mux_gpio_root_init (fun _ => RootConfig false 2) true true 0 [0; 0] 0 root_at_rest = None /\
  i2c_mux_gpio_root_init (fun _ => RootConfig false 2) true 0 [0; 0] 0 root_at_rest = (0, root_at_rest).
Proof. done. Qed.

End MuxGpio.
