(* ===== verification/Sc18is606.v ===== *)
(** drivers/i2c_spi_bridge/sc18is606.c: an SPI bus behind an I2C bridge.

    A transfer checks what is asked for, then under the mutex of the bridge ([Locked]) writes the configuration
    byte and, in a second I2C transfer, the data.  The configuration is kept by the bridge, so two callers
    with different settings must not come between each other's transfers. *)

From stdpp Require Import functions.
From S2P Require Import Prelude Locked MuxGpio.

Definition ENOTSUP : Z := 134.

Module Sc18is606.

(** What the macros of Zephyr read in a [struct spi_config]. *)
Record spi_config := SpiConfig { frequency : Z; word_size : Z; cpol : bool; cpha : bool; transfer_lsb : bool; mode_slave : bool }.

Definition supported_spi_clock_rates : list Z := [1875000; 455000; 115000; 58000].

(** The index found by the loop over the rates. *)
Fixpoint find_rate (rates : list Z) (i f : Z) : option Z :=
  match rates with [] => None | r :: rates => if f =? r then Some i else find_rate rates (i + 1) f end.

(** The checks of [sc18is606_transceive] and the byte they put together. *)
Definition check_config (config : spi_config) (rx : option nat) : Z + Z :=
  if match rx with Some count => (0 <? count)%nat | None => false end then inl (- ENOTSUP)
  else if negb (word_size config =? 8) then inl (- ENOTSUP)
  else match find_rate supported_spi_clock_rates 0 (frequency config) with
       | None => inl (- EINVAL)
       | Some i =>
           let b := Z.lor 0 i in
           let b := if cpol config then Z.lor b 0x08 else b in
           let b := if cpha config then Z.lor b 0x04 else b in
           let b := if transfer_lsb config then Z.lor b 0x20 else b in
           if mode_slave config then inl (- ENOTSUP) else inr b
       end.

(** [sc18is606_transceive] up to the mutex: the code returned, or the configuration byte.  [None]: the array of messages is
    sized by [tx_bufs->count] before [tx_bufs] is compared with NULL. *)
Definition sc18is606_check (config : spi_config) (tx : option (list bytes)) (rx : option nat) : option (Z + Z) :=
  match tx with None => None | Some _ => Some (check_config config rx) end.

(** A call that passed the checks: its configuration byte and its buffers. *)
Record sc_call := ScCall { sc_byte : Z; sc_bufs : list bytes }.

(** The bridge: the configuration it was last given ([None]: a transfer of one failed), the bytes on the I2C bus by transfer, and
    the data sent on: for which call, under which configuration. *)
Record bridge := Bridge { register : option Z; i2c : list bytes; bursts : list (sc_call * option Z * bytes) }.

Inductive sc_pc := SendConfig | SendData.

Definition sc_enter (c : sc_call) : sc_pc := SendConfig.

(** From the mutex to the end; [ret]: what [i2c_transfer_dt] answers. *)
Definition sc_turn (c : sc_call) (p : sc_pc) (ret : Z) (s : bridge) : bridge * (sc_pc + Z) :=
  match p with
  | SendConfig =>
      let msg := [0xF0; sc_byte c] in
      if ret =? 0 then (Bridge (Some (sc_byte c)) (i2c s ++ [msg]) (bursts s), inl SendData)
      else (Bridge None (i2c s ++ [msg]) (bursts s), inr ret)
  | SendData =>
      let msg := concat ([0] :: sc_bufs c) in
      (Bridge (register s) (i2c s ++ [msg]) (bursts s ++ [(c, register s, msg)]), inr ret)
  end.

(** [sc18is606_release] *)
Definition sc18is606_release : Z := 0.

(** [sc18is606_root_init]: the bus ready, whether there is a reset line, what configuring it returns. *)
Definition sc18is606_root_init (ready has_reset : bool) (configure_ret : Z) : Z :=
  if negb ready then - ENODEV else if has_reset && negb (configure_ret =? 0) then - EIO else 0.

Definition sc18is606_channel_init (root_ready : bool) : Z := if root_ready then 0 else - ENODEV.

Definition bridge_boot : bridge := Bridge None [] [].

(** ** The configuration byte *)

Lemma find_rate_index f : forall i, find_rate supported_spi_clock_rates 0 f = Some i <->
  0 <= i < 4 /\ nthZ supported_spi_clock_rates i = f.
Proof.
  intros i. unfold supported_spi_clock_rates, find_rate. split.
  - repeat case_match; intros [= <-]; rewrite ?Z.eqb_eq in *; subst; split; done.
  - intros [H <-]. assert (i = 0 \/ i = 1 \/ i = 2 \/ i = 3) as [-> | [-> | [-> | ->]]] by lia; reflexivity.
Qed.

(** As the bridge reads it: two bits of rate, the phase, the polarity, the order of the bits. *)
Definition byte_of (i : Z) (c : spi_config) : Z :=
  i + (if cpha c then 4 else 0) + (if cpol c then 8 else 0) + (if transfer_lsb c then 32 else 0).

(** The settings asked for are those the bridge gets: a transfer is accepted exactly for 8-bit words, as master, at one of the four rates and with
    nothing to read, and then the byte says the rate, phase, polarity and order asked for; no
    other settings give the same byte. *)
Theorem bridge_byte_understood config tx rx b : sc18is606_check config tx rx = Some (inr b) <->
  is_Some tx /\ (rx = None \/ rx = Some 0%nat) /\ word_size config = 8 /\ mode_slave config = false /\
  0 <= b < 64 /\ Z.testbit b 4 = false /\ nthZ supported_spi_clock_rates (b mod 4) = frequency config /\
  Z.testbit b 2 = cpha config /\ Z.testbit b 3 = cpol config /\ Z.testbit b 5 = transfer_lsb config.
Proof.
  assert (R : (match rx with Some count => (0 <? count)%nat | None => false end) = false <-> rx = None \/ rx = Some 0%nat).
  { destruct rx as [[| n] |]; cbn; naive_solver. }
  assert (S : forall b, 0 <= b < 64 -> b ∈ seqZ 0 64) by (intros; apply elem_of_seqZ; lia).
  unfold sc18is606_check. destruct tx as [bufs |]; [| split; [done | by intros ([? [=]] & _)]].
  split.
  - intros E. apply (inj Some) in E. unfold check_config in E. destruct (match rx with Some _ => _ | None => _ end) eqn:X; [done |].
    destruct (Z.eqb_spec (word_size config) 8) as [W |]; [| done]. cbn [negb] in E.
    destruct (find_rate _ 0 _) as [i |] eqn:F; [| done]. apply find_rate_index in F as [I F].
    destruct (mode_slave config); [done |]. injection E as <-.
    split_and!; [by eexists | by apply R | done | done |..]; revert F; generalize (frequency config);
      assert (i = 0 \/ i = 1 \/ i = 2 \/ i = 3) as [-> | [-> | [-> | ->]]] by lia;
      destruct (cpol config), (cpha config), (transfer_lsb config); cbn; intros ? F; (done || lia).
  - intros (_ & X & W & M & B & B4 & F & B2 & B3 & B5). unfold check_config. rewrite (proj2 R X), W, M. cbn [negb Z.eqb Pos.eqb].
    assert (E : find_rate supported_spi_clock_rates 0 (frequency config) = Some (b mod 4)).
    { apply find_rate_index. split; [by apply Z.mod_pos_bound | done]. }
    rewrite E. rewrite <- B2, <- B3, <- B5. clear - B B4 S. do 2 f_equal.
    assert (G : Forall (fun b => Z.testbit b 4 = false ->
      (let x := Z.lor 0 (b mod 4) in let x := if Z.testbit b 3 then Z.lor x 8 else x in let x := if Z.testbit b 2 then Z.lor x 4 else x in
       if Z.testbit b 5 then Z.lor x 32 else x) = b) (seqZ 0 64)).
    { cbn. repeat constructor. all: by cbn. }
    rewrite Forall_forall in G. by apply G; [apply S |].
Qed.

(** ** Under the mutex *)

Definition burst_ok (x : sc_call * option Z * bytes) : Prop :=
  x.1.2 = Some (sc_byte x.1.1) /\ x.2 = 0 :: concat (sc_bufs x.1.1).

Definition between (c : sc_call) (p : sc_pc) (s : bridge) : Prop :=
  Forall burst_ok (bursts s) /\ match p with SendConfig => True | SendData => register s = Some (sc_byte c) end.

(** However the transfers of several threads interleave and whatever the I2C bus answers, data goes out whole and under the
    settings of its own caller. *)
Theorem data_under_own_settings es :
  Forall burst_ok (bursts (data (lock_run sc_enter sc_turn es (unlocked bridge_boot)))).
Proof.
  destruct (keeps_run sc_enter sc_turn (fun _ => True) (fun s => Forall burst_ok (bursts s)) between) with (es := es) (d := bridge_boot)
    as (_ & _ & K).
  - done.
  - intros c [] ret s _ [F R]; cbn in *; [by destruct (ret =? 0) |]. apply Forall_app. split; [done |]. by repeat constructor.
  - constructor.
  - apply Forall_forall. by intros [].
  - destruct (holder _) as [t |]; [destruct K as (c & p & _ & _ & K & _) |]; exact K.
Qed.

(** Two callers with different settings at once. *)
Example two_callers :
  let s := lock_run sc_enter sc_turn
    [LCall 0%nat (ScCall 0x08 [[1; 2]; [3]]); LCall 1%nat (ScCall 0x23 [[9]]); LTake 1%nat false; LTake 0%nat false; LTurn 1%nat 0; LTurn 0%nat 0;
     LTurn 1%nat 0; LTake 0%nat false; LTurn 0%nat 0; LTurn 0%nat 0] (unlocked bridge_boot) in
  i2c (data s) = [[0xF0; 0x23]; [0; 9]; [0xF0; 0x08]; [0; 1; 2; 3]].
Proof. by vm_compute. Qed.

(** Without buffers to send the comparison with NULL comes too late. *)
Example no_tx_bufs config rx : sc18is606_check config None rx = None.
Proof. done. Qed.

End Sc18is606.
