(* ===== verification/AmbientLight.v ===== *)
(** The ambient light: drivers/sensor/bu27030/bu27030.c, the driver of the sensor, and main_board/src/ui/ambient_light/als.c, the thread
    that publishes what it measures.

    The conversion to lux is in single precision, each operation rounded (the code is compiled as ISO C, which contracts
    none), its fractional part in double precision; [None] is a conversion to [int32_t] out of its range. *)

From Stdlib Require Import SpecFloat.
From S2P Require Import Prelude Floats FloatFacts.

Definition ERANGE : Z := 34.

Module Bu27030.

(** ** Reading the sensor *)

Definition BU27030_SYSTEM_CONTROL : Z := 0x40.
Definition BU27030_PART_ID : Z := 0x12.
Definition BU27030_MODE_CONTROL2 : Z := 0x42.
Definition BU27030_MODE_CONTROL3 : Z := 0x43.
Definition BU27030_DATA0_LOW_BYTE : Z := 0x50.
Definition BU27030_DATA0_HIGH_BYTE : Z := 0x51.
Definition BU27030_DATA1_LOW_BYTE : Z := 0x52.
Definition BU27030_DATA1_HIGH_BYTE : Z := 0x53.
Definition GAIN_REG_VALUE : Z := 0x22.

(** The bus: what [i2c_transfer] returns and reads for a register, now ([n] transfers into the call). *)
Definition i2c_bus : Type := nat -> Z -> Z * Z.

(** [bu27030_reg_read] *)
Definition bu27030_reg_read (bus : i2c_bus) (n : nat) (reg : Z) : Z * Z :=
  let '(ret, v) := bus n reg in if ret =? 0 then (0, u8 v) else (- EIO, 0).

Record bu27030_data := Bu27030Data { data0 : Z; data1 : Z }.

(** [bu27030_sample_fetch] *)
Definition bu27030_sample_fetch (bus : i2c_bus) : Z * bu27030_data :=
  let '(r, status) := bu27030_reg_read bus 0 BU27030_MODE_CONTROL3 in
  if negb (r =? 0) then (- EIO, Bu27030Data 0 0)
  else if Z.testbit status 7 then
    let '(r, val_h) := bu27030_reg_read bus 1 BU27030_DATA0_HIGH_BYTE in
    if negb (r =? 0) then (- EIO, Bu27030Data 0 0) else
    let '(r, val_l) := bu27030_reg_read bus 2 BU27030_DATA0_LOW_BYTE in
    if negb (r =? 0) then (- EIO, Bu27030Data 0 0) else
    let data0 := u16 (Z.shiftl val_h 8 + val_l) in
    let '(r, val_h) := bu27030_reg_read bus 3 BU27030_DATA1_HIGH_BYTE in
    if negb (r =? 0) then (- EIO, Bu27030Data data0 0) else
    let '(r, val_l) := bu27030_reg_read bus 4 BU27030_DATA1_LOW_BYTE in
    if negb (r =? 0) then (- EIO, Bu27030Data data0 0) else
    (0, Bu27030Data data0 (u16 (Z.shiftl val_h 8 + val_l)))
  else (- EBUSY, Bu27030Data 0 0).

(** [bu27030_init]: the results of the writes after the reset, of reading the part number and what is read;
    the code and the registers written. *)
Definition bu27030_init (id_read : Z * Z) (gain_ret start_ret : Z) : Z * list (Z * Z) :=
  let reset := (BU27030_SYSTEM_CONTROL, 0x80) in
  if negb (id_read.1 =? 0) || negb (id_read.2 =? BU27030_PART_ID) then (- EIO, [reset])
  else (start_ret, [reset; (BU27030_MODE_CONTROL2, GAIN_REG_VALUE); (BU27030_MODE_CONTROL3, 0x01)]).

(** ** Conversion *)

Definition DATA_TRANSFER_COEF : Z := 100 * 256.
Definition SENSOR_MEAS_MODE : Z := 100.
Definition SENSOR_GAIN : Z := 1.

(** A decimal literal n/d in single precision: both numbers are exact, so the quotient is the literal's nearest float. *)
Definition lit (n d : Z) : spec_float := fdiv (flt n 0) (flt d 0).

Definition data_coefficient : list spec_float :=
  [lit 29 100; lit 1646 1000000; lit (-253) 1000000; lit (-29) 100; lit 0 1; lit 35 100; lit 1646 1000000;
   lit (-253) 1000000; lit (-29) 100; lit 5833 1000; lit 40 100; lit 1646 1000000; lit (-253) 100000; lit (-285) 1000;
   lit (-10) 1; lit 1646 1000000; lit (-253) 100000; lit (-294) 1000; lit (-1417) 1000].
Definition coef (i : nat) : spec_float := nth i data_coefficient (S754_zero false).

(** A [uint32_t] below 2^24 as a float. *)
Definition of_u32 (z : Z) : spec_float := flt z 0.

(** [tmp1 * tmp2] with the coefficients from [i] on; [data1 / data0] is a division of integers. *)
Definition band (i : nat) (data0 data1 : Z) : spec_float :=
  let tmp1 := fadd (fmul (coef i) (of_u32 data0)) (fmul (coef (i + 1)) (of_u32 data1)) in
  let tmp2 := fadd (fmul (fsub (of_u32 (data1 / data0)) (coef (i + 2))) (coef (i + 3))) (flt 1 0) in
  fmul tmp1 tmp2.

Definition below (data1 : Z) (data0 : Z) (i : nat) : bool := SFltb (of_u32 data1) (fmul (of_u32 data0) (coef i)).

Definition lux (data0 data1 : Z) : spec_float :=
  if below data1 data0 0 then band 1 data0 data1
  else if below data1 data0 5 then band 6 data0 data1
  else if below data1 data0 10 then band 11 data0 data1
  else band 15 data0 data1.

(** The two halves of a [struct sensor_value], whole and millionths. *)
Definition split_lux (lx : spec_float) : option (Z * Z) :=
  v1 ← to_s32 (sf_trunc lx);
  v2 ← to_s32 (sf_trunc (dmul lx (dbl 1000000 0)));
  Some (v1, Z.rem v2 1000000).

(** [bu27030_channel_get] of the light. *)
Definition bu27030_channel_get (d : bu27030_data) : option (Z * (Z * Z)) :=
  if data0 d =? 0xFFFF then Some (- ERANGE, (0, 0))
  else if data0 d =? 0 then Some (- ERANGE, (0, 0))
  else
    let scale := DATA_TRANSFER_COEF / SENSOR_MEAS_MODE / SENSOR_GAIN in
    let lx := lux (u32 (data0 d * scale)) (u32 (data1 d * scale)) in
    if SFltb lx (flt 0 0) then Some (- ERANGE, (0, 0))
    else v ← split_lux lx; Some (0, v).

(** ** The two halves *)

Lemma dbl_million : dbl 1000000 0 = S754_finite false 8589934592000000 (-33).
Proof. by vm_compute. Qed.

(** The product with a million is exact in double precision. *)
Lemma dmul_million m e : Z.pos m < 2 ^ 24 -> -149 <= e <= 104 ->
  exists m' e', dmul (S754_finite false m e) (dbl 1000000 0) = S754_finite false m' e' /\ -182 <= e' /\
                dyadic (-182) (Z.pos m') e' = Z.pos m * 1000000 * 2 ^ (e + 182).
Proof.
  intros Hm He. rewrite dbl_million. change (dmul _ _) with (binary_round_aux 53 1024 false (Z.pos (m * 8589934592000000)) (e + -33) loc_Exact).
  unfold binary_round_aux. destruct (shr_fexp_exact_of 53 1024 (Z.pos (m * 8589934592000000)) (e + -33) ltac:(lia)) as (E1 & S1). cbv zeta in *.
  destruct (shr_fexp 53 1024 _ (e + -33) loc_Exact) as [x e1]. cbn [fst snd] in *. subst e1.
  cbn [Zdigits2] in *. set (d := Z.pos (digits2_pos (m * 8589934592000000))) in *.
  pose proof (digits2_pos_bounds (m * 8589934592000000)) as [D1 D2]. fold d in D1, D2.
  assert (Dd : d <= 77).
  { apply Z.nlt_ge. intros G. pose proof (Z.pow_le_mono_r 2 77 (d - 1) ltac:(lia) ltac:(lia)). rewrite Pos2Z.inj_mul in *. lia. }
  assert (K : Z.max 0 (fexp 53 1024 (d + (e + -33)) - (e + -33)) = Z.max 0 (d - 53)) by (unfold fexp, SpecFloat.emin; lia).
  rewrite K in *. set (k := Z.max 0 (d - 53)) in *. destruct S1 as (P & rem & R & X & Q). cbn [shr_m] in X.
  assert (R0 : rem = 0).
  { assert (Z.pos (m * 8589934592000000) = Z.pos m * 1000000 * 2 ^ (33 - k) * 2 ^ k) as Y.
    { rewrite <- Z.mul_assoc, <- Z.pow_add_r by lia. replace (33 - k + k) with 33 by lia. rewrite Pos2Z.inj_mul. change (2 ^ 33) with 8589934592. lia. }
    rewrite Y in X. rewrite <- (Z.mod_small rem (2 ^ k) R). replace rem with ((Z.pos m * 1000000 * 2 ^ (33 - k) - shr_m x) * 2 ^ k) by lia.
    apply Z.mod_mul, Z.pow_nonzero; lia. }
  subst rem. rewrite Z.add_0_r in X. cbn in Q.
  destruct (round_nearest_even_near x) as [-> | [_ I]]; [| congruence].
  assert (Kp : 0 < 2 ^ k) by (apply Z.pow_pos_nonneg; lia).
  assert (X53 : shr_m x < 2 ^ 53).
  { apply Z.nle_gt. intros G. assert (2 ^ d <= 2 ^ 53 * 2 ^ k) by (rewrite <- Z.pow_add_r by lia; apply Z.pow_le_mono_r; lia). nia. }
  assert (Xp : 0 < shr_m x) by nia. destruct (shr_m x) as [| p | p] eqn:Ex; try lia.
  destruct (shr_fexp_exact_of 53 1024 (Z.pos p) (e + -33 + k) ltac:(lia)) as (E2 & S2). cbv zeta in *.
  destruct (shr_fexp 53 1024 (Z.pos p) _ loc_Exact) as [y e2]. cbn [fst snd Zdigits2] in *. subst e2.
  assert (D3 : Z.pos (digits2_pos p) <= 53).
  { pose proof (digits2_pos_bounds p) as [B _]. apply Z.nlt_ge. intros G.
    pose proof (Z.pow_le_mono_r 2 53 (Z.pos (digits2_pos p) - 1) ltac:(lia) ltac:(lia)). lia. }
  assert (K2 : Z.max 0 (fexp 53 1024 (Z.pos (digits2_pos p) + (e + -33 + k)) - (e + -33 + k)) = 0) by (unfold fexp, SpecFloat.emin; lia).
  rewrite K2 in *. destruct S2 as (_ & rem & R2 & Y & _). cbn [shr_m] in Y. rewrite Z.mul_1_r in Y. change (2 ^ 0) with 1 in R2.
  assert (shr_m y = Z.pos p) as -> by lia. btrue (e + -33 + k + 0 <=? 1024 - 53).
  eexists _, _. split; [done |]. split; [lia |]. unfold dyadic.
  replace (e + -33 + k + 0 - -182) with (k + (e + 149)) by lia. rewrite Z.pow_add_r, Z.mul_assoc, <- X by lia.
  replace (e + 182) with (33 + (e + 149)) by lia. rewrite (Z.pow_add_r 2 33), Pos2Z.inj_mul by lia. change (2 ^ 33) with 8589934592. lia.
Qed.

(** Whole units and millionths together are the value, rounded down to a millionth; the conversion is defined exactly below 2147.483648. *)
Theorem lux_split lx v1 v2 : nonneg 104 lx ->
  split_lux lx = Some (v1, v2) <->
  V lx * 1000000 / ONE < 2 ^ 31 /\ v1 * 1000000 + v2 = V lx * 1000000 / ONE /\ 0 <= v2 < 1000000.
Proof.
  intros N. pose proof (V_nonneg _ _ N) as W.
  assert (E : sf_trunc lx = Some (V lx / ONE) /\ sf_trunc (dmul lx (dbl 1000000 0)) = Some (V lx * 1000000 / ONE)).
  { destruct lx as [s | | | [] m e]; try done. destruct N as [Nm Ne]. split; [apply (sf_trunc_value (-149)); lia |].
    destruct (dmul_million m e Nm Ne) as (m' & e' & -> & He & Ev). rewrite (sf_trunc_value (-182)), Ev by lia. f_equal.
    unfold V, value, dyadic, ONE. replace (- -182) with (149 + 33) by lia. replace (e + 182) with (e - -149 + 33) by lia.
    rewrite (Z.pow_add_r 2 149), (Z.pow_add_r 2 (e - -149)) by lia. rewrite Z.mul_assoc, Z.div_mul_cancel_r by done. f_equal. lia. }
  destruct E as [E1 E2]. unfold split_lux. rewrite E1, E2. set (q := V lx * 1000000 / ONE).
  assert (Q : V lx / ONE = q / 1000000).
  { unfold q. rewrite Z.div_div by done. by rewrite Z.div_mul_cancel_r by done. }
  assert (0 <= q) by (apply Z.div_pos; [lia | done]). rewrite Q. unfold to_s32, in_s32. cbn [mbind option_bind].
  pose proof (Z.div_mod q 1000000 ltac:(lia)) as D. pose proof (Z.mod_pos_bound q 1000000 ltac:(lia)) as M.
  change (2 ^ 31) with 2147483648.
  assert (0 <= q / 1000000) by (apply Z.div_pos; lia). btrue (-2147483648 <=? q / 1000000). btrue (-2147483648 <=? q). cbn [andb].
  destruct (Z.leb_spec q 2147483647) as [L | L]; cbn [mbind option_bind].
  - btrue (q / 1000000 <=? 2147483647). cbn [mbind option_bind]. rewrite Z.rem_mod_nonneg by lia. split; [intros [= <- <-]; lia | intros (_ & B & C)].
    assert (v1 = q / 1000000) by (apply Z.div_unique with v2; lia). f_equal. f_equal; lia.
  - destruct (q / 1000000 <=? 2147483647); cbn [mbind option_bind]; split; (done || lia).
Qed.

(** ** The lowest band *)

Lemma round_opp m e : binary_round_aux 24 128 true m e loc_Exact = SFopp (binary_round_aux 24 128 false m e loc_Exact).
Proof. unfold binary_round_aux. repeat case_match; done. Qed.

Lemma fmul_opp x y : nonneg 104 x -> nonneg 104 y -> fmul (SFopp x) y = SFopp (fmul x y).
Proof. destruct x as [[] | | | [] mx ex], y as [[] | | | [] my ey]; try done. intros _ _. apply round_opp. Qed.

Lemma fadd_opp x y : nonneg 104 x -> fadd x (SFopp y) = fsub x y.
Proof.
  destruct x as [[] | | | [] mx ex], y as [[] | | | [] my ey]; try done; intros _; unfold fadd, fsub; cbn [SFadd SFsub SFopp cond_Zopp negb];
    try done; do 2 f_equal; lia.
Qed.

(** A product with a positive number is negative with the first factor, or a zero. *)
Lemma fmul_negative x y : SFltb x (flt 0 0) = true -> nonneg (-1) y -> V y <> 0 ->
  nonneg 104 (fmul x y) /\ V (fmul x y) = 0 \/ SFltb (fmul x y) (flt 0 0) = true.
Proof.
  destruct x as [[] | [] | | [] mx ex], y as [[] | | | [] my ey]; try done; intros _ _ P; try (by right).
  apply round_negative.
Qed.

Lemma nonneg_not_negative E x : nonneg E x -> SFltb x (flt 0 0) = false.
Proof. by destruct x as [[] | | | [] m e]. Qed.

(** The gain of the lowest band, and the number its second factor is. *)
Lemma gain_of_band : nonneg (-30) (coef 1) /\ V (coef 1) * 1000000 <= 1646 * ONE + ONE / 10000.
Proof. vm_compute. done. Qed.

Lemma second_gain : exists y, coef 2 = SFopp y /\ nonneg (-30) y /\ V y <= ONE.
Proof. exists (lit 253 1000000). vm_compute. done. Qed.

Lemma second_factor : let y := fadd (fmul (fsub (of_u32 0) (coef 3)) (coef 4)) (flt 1 0) in nonneg (-1) y /\ V y = ONE.
Proof. vm_compute. done. Qed.

(** The lux of the lowest band: negative, or at most a hundredth above the gain times the counts. *)
Lemma low_band D0 D1 : 0 <= D0 <= 1280000 -> 0 <= D1 < D0 ->
  let lx := band 1 D0 D1 in
  nonneg 104 lx /\ V lx <= (D0 * 1646 * 256 / 1000000 + 2) * 2 ^ 141 \/ SFltb lx (flt 0 0) = true.
Proof.
  intros H0 H1. set (g := D0 * 1646 * 256 / 1000000 + 2).
  assert (Gb : D0 * 1646 * 256 < 1000000 * (g - 1) /\ 1000000 * (g - 2) <= D0 * 1646 * 256).
  { unfold g. pose proof (Z.div_mod (D0 * 1646 * 256) 1000000 ltac:(lia)). pose proof (Z.mod_pos_bound (D0 * 1646 * 256) 1000000 ltac:(lia)). lia. }
  assert (G : is_float (g * 2 ^ 141)) by (exists g, (-8); split; [lia |]; split; [lia | done]).
  destruct (flt_int D0 ltac:(lia)) as [N0 V0]. destruct (flt_int D1 ltac:(lia)) as [N1 V1].
  destruct gain_of_band as [Nc Vc]. destruct second_gain as (c2 & E2 & N2 & V2). destruct second_factor as [Ny Vy].
  cbv zeta. unfold band. cbn [Nat.add]. rewrite (Z.div_small D1 D0), E2 by lia. fold (of_u32 D0) in N0, V0. fold (of_u32 D1) in N1, V1.
  set (y := fadd (fmul _ (coef 4)) _) in *.
  rewrite fmul_opp by (try done; by apply (nonneg_weaken (-30))).
  destruct (fmul_faithful (-30) 104 (coef 1) (of_u32 D0) (g * 2 ^ 141) Nc N0 ltac:(lia) G) as (Nt & Ut & _).
  { rewrite V0, Z.mul_assoc. apply Z.mul_le_mono_nonneg_r; [done |]. revert Vc. generalize (V (coef 1)) as c. intros c.
    change (ONE / 10000) with 71362384635297994052914298472474756819137. change ONE with (256 * 2 ^ 141).
    change (2 ^ 141) with 2787593149816327892691964784081045188247552. intros Vc.
    assert (c * 1000000 * D0 <= (1646 * (256 * 2787593149816327892691964784081045188247552) + 71362384635297994052914298472474756819137) * D0)
      by (apply Z.mul_le_mono_nonneg_r; lia). lia. }
  set (t := fmul (coef 1) (of_u32 D0)) in *.
  destruct (fmul_faithful (-30) 104 c2 (of_u32 D1) (D1 * ONE) N2 N1 ltac:(lia) (int_is_float D1 ltac:(lia))) as (Nk & _).
  { rewrite V1, (Z.mul_comm (D1 * ONE)). apply Z.mul_le_mono_nonneg_r; [pose proof ONE_pos; nia | done]. }
  rewrite fadd_opp by done. set (k := fmul c2 (of_u32 D1)) in *. clearbody t k y.
  destruct (fsub_bounded t k Nt Nk) as [[N U] | L].
  - left. destruct (fmul_faithful 104 (-1) (fsub t k) y (g * 2 ^ 141) N Ny ltac:(lia) G) as (? & ? & _); [| done].
    rewrite Vy. apply Z.mul_le_mono_nonneg_r; [done | lia].
  - destruct (fmul_negative _ y L Ny) as [[N Z] | ?]; [rewrite Vy; done | left | by right]. split; [done |]. rewrite Z. lia.
Qed.

(** Dim light, the range the sensor is read in indoors: while the second channel stays below the band, a reading of up to 5000 counts is always
    defined, and either out of range or between 0 and a hundredth of a lux above 0.421376 lux per count. *)
Theorem dim_light_defined d0 d1 : 0 < d0 <= 5000 -> 0 <= d1 < d0 -> below (256 * d1) (256 * d0) 0 = true ->
  bu27030_channel_get (Bu27030Data d0 d1) = Some (- ERANGE, (0, 0)) \/
  exists v1 v2, bu27030_channel_get (Bu27030Data d0 d1) = Some (0, (v1, v2)) /\
                0 <= v1 /\ 0 <= v2 < 1000000 /\ v1 * 1000000 + v2 <= 421376 * d0 + 10000.
Proof.
  intros H0 H1 B. unfold bu27030_channel_get. cbn [data0 data1]. bfalse (d0 =? 65535). bfalse (d0 =? 0).
  change (DATA_TRANSFER_COEF / SENSOR_MEAS_MODE / SENSOR_GAIN) with 256.
  rewrite !u32_small, (Z.mul_comm d0), (Z.mul_comm d1) by lia. unfold lux. rewrite B.
  destruct (low_band (256 * d0) (256 * d1) ltac:(lia) ltac:(lia)) as [[N U] | L]; [| left; by rewrite L].
  right. rewrite (nonneg_not_negative 104) by done. set (lx := band 1 _ _) in *. clearbody lx.
  set (q := V lx * 1000000 / ONE).
  assert (Q : 0 <= q <= 421376 * d0 + 10000).
  { pose proof (V_nonneg _ _ N). split; [apply Z.div_pos; [lia | done] |]. apply Z.lt_succ_r, Z.div_lt_upper_bound; [done |].
    revert U. pose proof (Z.div_mod (256 * d0 * 1646 * 256) 1000000 ltac:(lia)). pose proof (Z.mod_pos_bound (256 * d0 * 1646 * 256) 1000000 ltac:(lia)).
    generalize dependent (256 * d0 * 1646 * 256 / 1000000). intros z Hz U. change ONE with (256 * 2 ^ 141). 
    change (2 ^ 141) with 2787593149816327892691964784081045188247552 in *. nia. }
  pose proof (Z.div_mod q 1000000 ltac:(lia)). pose proof (Z.mod_pos_bound q 1000000 ltac:(lia)).
  exists (q / 1000000), (q mod 1000000). rewrite (proj2 (lux_split lx (q / 1000000) (q mod 1000000) N)); [| fold q; lia].
  split; [done |]. split; [apply Z.div_pos; lia | lia].
Qed.

(** What it gives on some counts: the same light in the lowest band, then more infrared. *)
Example counts : bu27030_channel_get <$> [Bu27030Data 0 9; Bu27030Data 65535 9; Bu27030Data 1000 100; Bu27030Data 1000 300; Bu27030Data 1000 500; Bu27030Data 100 1000] =
  [Some (-34, (0, 0)); Some (-34, (0, 0)); Some (0, (414, 899169)); Some (0, (1081, 864746)); Some (0, (56, 902683)); None].
Proof. vm_compute. reflexivity. Qed.

Lemma dim_light_defined_witness : below (256 * 100) (256 * 1000) 0 = true /\
  (bu27030_channel_get (Bu27030Data 1000 100) = Some (- ERANGE, (0, 0)) \/
   exists v1 v2, bu27030_channel_get (Bu27030Data 1000 100) = Some (0, (v1, v2)) /\ 0 <= v1 /\ 0 <= v2 < 1000000 /\ v1 * 1000000 + v2 <= 421376 * 1000 + 10000).
Proof. split; [by vm_compute |]. apply (dim_light_defined 1000 100); [lia | lia | by vm_compute]. Defined.

Lemma lux_split_witness : split_lux (flt 9 (-1)) = Some (4, 500000).
Proof. apply (lux_split (flt 9 (-1)) 4 500000); [by vm_compute |]. by vm_compute. Defined.

(** The ratio of the counts is a division of integers: from 0.35 to 0.4 the second factor is -1.85 whatever the ratio is, so that every reading there
    is refused as out of range. *)
Example third_band_refused :
  forallb (fun d0 => forallb (fun r => match bu27030_channel_get (Bu27030Data d0 (d0 * r / 100)) with Some (ret, _) => ret =? - ERANGE | None => false end)
    [36; 37; 38; 39]) [100; 1000; 10000; 50000] = true.
Proof. vm_compute. reflexivity. Qed.

(** From 2148 lux on the millionths do not fit their type: daylight is out of the range the conversion is defined for. *)
Example daylight_undefined :
  (bu27030_channel_get (Bu27030Data 5096 0), bu27030_channel_get (Bu27030Data 5097 0)) = (Some (0, (2147, 332031)), None).
Proof. vm_compute. reflexivity. Qed.

(** The registers of a valid measurement. *)
Definition sensor (valid : bool) (d0 d1 : Z) : i2c_bus := fun _ reg =>
  (0, if reg =? BU27030_MODE_CONTROL3 then if valid then 0x80 else 0
      else if reg =? BU27030_DATA0_HIGH_BYTE then d0 / 256 else if reg =? BU27030_DATA0_LOW_BYTE then d0 mod 256
      else if reg =? BU27030_DATA1_HIGH_BYTE then d1 / 256 else if reg =? BU27030_DATA1_LOW_BYTE then d1 mod 256 else 0).

Lemma fetch_reads d0 d1 valid : 0 <= d0 < 65536 -> 0 <= d1 < 65536 ->
  bu27030_sample_fetch (sensor valid d0 d1) = if valid then (0, Bu27030Data d0 d1) else (- EBUSY, Bu27030Data 0 0).
Proof.
  intros H0 H1. destruct valid; [| done]. unfold bu27030_sample_fetch, bu27030_reg_read, sensor. cbn -[Z.div Z.modulo Z.shiftl u8 u16].
  assert (B : forall d, 0 <= d < 65536 -> u16 (Z.shiftl (u8 (d / 256)) 8 + u8 (d mod 256)) = d).
  { intros d H. pose proof (Z.div_mod d 256 ltac:(lia)). pose proof (Z.mod_pos_bound d 256 ltac:(lia)).
    assert (0 <= d / 256 < 256) by (split; [apply Z.div_pos; lia | apply Z.div_lt_upper_bound; lia]).
    rewrite !u8_small, Z.shiftl_mul_pow2 by lia. rewrite u16_small; lia. }
  by rewrite !B.
Qed.

End Bu27030.

(** ** The thread *)

Module Als.
Import Bu27030.

Definition ERROR_STATE_COUNT : Z := 3.

Inductive als_flag := ALS_OK | ALS_ERR_RANGE | ALS_ERR_LEDS_INTERFERENCE.

#[export] Instance als_flag_eq_dec : EqDecision als_flag.
Proof. solve_decision. Defined.

(** [error_count], the state registered as als, the lux in the message (not initialised: the thread's stack holds what it holds), and
    the messages published. *)
Record als_sys := AlsSys { error_count : Z; als_state : Z; ambient_light_lux : Z; published : list (als_flag * Z) }.

(** An error of the sensor: counted, and the state set from the fourth on. *)
Definition als_error (s : als_sys) : als_sys :=
  let c := u32 (error_count s + 1) in
  AlsSys c (if ERROR_STATE_COUNT <? c then RET_ERROR_INTERNAL else als_state s) (ambient_light_lux s) (published s).

(** One turn of [als_thread]: what locking the mutex returns, whether the front LEDs are on, what fetching a sample returns, and what
    getting it does. *)
Definition als_turn (bd : board) (lock : Z) (shroud_on : bool) (fetch : Z) (get : Z * Z) (s : als_sys) : als_sys :=
  if negb (lock =? 0) then s
  else
    let flag := match bd with Diamond => if shroud_on then ALS_ERR_LEDS_INTERFERENCE else ALS_OK | Pearl => ALS_OK end in
    if negb (fetch =? 0) then als_error s
    else
      let '(ret, val1) := get in
      if (ret =? - ERANGE) || (ret =? 0) then
        let flag := if ret =? - ERANGE then ALS_ERR_RANGE else flag in
        let lux := if ret =? - ERANGE then ambient_light_lux s else val1 in
        let s := AlsSys (error_count s) (als_state s) lux (published s ++ [(flag, lux)]) in
        if 0 <? error_count s then AlsSys 0 RET_SUCCESS (ambient_light_lux s) (published s) else s
      else
        let s := als_error s in
        AlsSys (u32 (error_count s + 1)) (als_state s) (ambient_light_lux s) (published s).

(** [als_init]: whether the board has the sensor and whether it is ready, the front unit's version; the code, the state and whether
    the thread runs. *)
Definition als_init (v6_3a v6_3c : Z) (device : option bool) (front_unit : Z) : Z * Z * bool :=
  match device with
  | None => (RET_SUCCESS, RET_SUCCESS, false)
  | Some ready =>
      if (v6_3a <=? front_unit) && (front_unit <=? v6_3c) then (RET_SUCCESS, RET_SUCCESS, false)
      else if negb ready then (RET_ERROR_INTERNAL, RET_ERROR_NOT_INITIALIZED, false)
      else (RET_SUCCESS, RET_SUCCESS, true)
  end.

(** A turn on the sensor.  [None]: the conversion was out of range. *)
Definition als_sensor_turn (bd : board) (lock : Z) (shroud_on : bool) (bus : i2c_bus) (s : als_sys) : option als_sys :=
  let '(fetch, d) := bu27030_sample_fetch bus in
  if (lock =? 0) && (fetch =? 0) then '(ret, (v1, _)) ← bu27030_channel_get d; Some (als_turn bd lock shroud_on fetch (ret, v1) s)
  else Some (als_turn bd lock shroud_on fetch (0, 0) s).

Definition als_boot (stack : Z) : als_sys := AlsSys 0 RET_SUCCESS stack [].

Definition als_event : Type := Z * bool * i2c_bus.

Fixpoint als_run (bd : board) (l : list als_event) (s : als_sys) : option als_sys :=
  match l with [] => Some s | (lock, on, bus) :: l => s ← als_sensor_turn bd lock on bus s; als_run bd l s end.

(** ** What is published *)

(** What a turn says, given the light last published: nothing when the bus is taken or the sensor has no measurement, else the lux,
    or that it is out of range. *)
Definition says (bd : board) (last : Z) (e : als_event) : option (als_flag * Z) :=
  let '(lock, on, bus) := e in
  let '(fetch, d) := bu27030_sample_fetch bus in
  if (lock =? 0) && (fetch =? 0) then
    match bu27030_channel_get d with
    | Some (ret, (v1, _)) =>
        if ret =? 0 then Some (match bd with Diamond => if on then ALS_ERR_LEDS_INTERFERENCE else ALS_OK | Pearl => ALS_OK end, v1)
        else Some (ALS_ERR_RANGE, last)
    | None => None
    end
  else None.

Fixpoint said (bd : board) (last : Z) (l : list als_event) : list (als_flag * Z) :=
  match l with
  | [] => []
  | e :: l => match says bd last e with Some (f, lux) => (f, lux) :: said bd lux l | None => said bd last l end
  end.

Lemma get_codes d ret v : bu27030_channel_get d = Some (ret, v) -> ret = 0 \/ ret = - ERANGE.
Proof.
  unfold bu27030_channel_get. repeat case_match; try (intros [= <- _]; auto; done).
  destruct (split_lux _); cbn; [intros [= <- _]; auto | done].
Qed.

(** The number of failed samples since the last message. *)
Fixpoint failures (bd : board) (n : Z) (l : list als_event) : Z :=
  match l with
  | [] => n
  | (lock, on, bus) :: l =>
      if negb (lock =? 0) then failures bd n l
      else failures bd (if (bu27030_sample_fetch bus).1 =? 0 then 0 else n + 1) l
  end.

Definition als_ok (n : Z) (s : als_sys) : Prop :=
  error_count s = n /\ 0 <= n /\ als_state s = if ERROR_STATE_COUNT <? n then RET_ERROR_INTERNAL else RET_SUCCESS.

Lemma turn_published bd (on : bool) ret v1 n s : als_ok n s -> ret = 0 \/ ret = - ERANGE ->
  let flag := if ret =? 0 then match bd with Diamond => if on then ALS_ERR_LEDS_INTERFERENCE else ALS_OK | Pearl => ALS_OK end else ALS_ERR_RANGE in
  let lux := if ret =? 0 then v1 else ambient_light_lux s in
  let s' := als_turn bd 0 on 0 (ret, v1) s in
  published s' = published s ++ [(flag, lux)] /\ ambient_light_lux s' = lux /\ als_ok 0 s'.
Proof.
  intros (O1 & O2 & O3) R. cbv zeta.
  assert (S : als_state s = RET_SUCCESS \/ 0 < n).
  { rewrite O3. unfold ERROR_STATE_COUNT. destruct (Z.ltb_spec 3 n); [right; lia | by left]. }
  unfold als_turn. change (- ERANGE) with (Zneg 34) in *. rewrite <- O1 in S. destruct R as [-> | ->]; cbn -[Z.ltb];
    (destruct (Z.ltb_spec 0 (error_count s)); cbn; (split; [done |]); (split; [done |]); unfold als_ok; cbn;
     [done | split; [lia | split; [lia | destruct S; [done | lia]]]]).
Qed.

Lemma turn_failed bd on fetch get n s : als_ok n s -> fetch <> 0 -> n < 2 ^ 32 - 1 ->
  let s' := als_turn bd 0 on fetch get s in
  published s' = published s /\ ambient_light_lux s' = ambient_light_lux s /\ als_ok (n + 1) s'.
Proof.
  intros (O1 & O2 & O3) F B. cbv zeta. unfold als_turn. rewrite (proj2 (Z.eqb_neq fetch 0) F). cbn [negb Z.eqb]. unfold als_error. cbn.
  split; [done |]. split; [done |]. unfold als_ok. cbn [error_count als_state]. rewrite O1, u32_small by lia. split; [done |]. split; [lia |].
  rewrite O3. unfold ERROR_STATE_COUNT. bdestruct_all; done.
Qed.

(** The ambient light on the sensor itself: every message says what the sensor measured in its turn, marked when the front LEDs disturb it (Diamond), or that it is out
    of range, with the light of the message before; the state is an error exactly from the fourth sample in a row that could not be fetched
    on, and right again with the next message. *)
Theorem light_published bd l stack s : zlen l < 2 ^ 32 - 1 -> als_run bd l (als_boot stack) = Some s ->
  published s = said bd stack l /\ als_ok (failures bd 0 l) s.
Proof.
  intros L.
  assert (G : forall l n s0, als_ok n s0 -> n + zlen l < 2 ^ 32 - 1 -> als_run bd l s0 = Some s ->
    published s = published s0 ++ said bd (ambient_light_lux s0) l /\ als_ok (failures bd n l) s).
  { clear l stack L. intros l. induction l as [| [[lock on] bus] l IH]; intros n s0 O B R; cbn [als_run said failures] in *.
    - injection R as <-. by rewrite app_nil_r.
    - rewrite zlen_cons in B. pose proof (zlen_nonneg l). unfold als_sensor_turn, says in *.
      destruct (bu27030_sample_fetch bus) as [fetch d]. cbn [fst] in *.
      destruct (Z.eqb_spec lock 0) as [-> | K]; cbn [andb negb mbind option_bind] in *.
      2:{ unfold als_turn in R. rewrite (proj2 (Z.eqb_neq lock 0) K) in R. apply IH; [done | lia | done]. }
      destruct (Z.eqb_spec fetch 0) as [-> | F]; cbn [mbind option_bind] in R.
      + destruct (bu27030_channel_get d) as [[ret [v1 v2]] |] eqn:E; cbn [mbind option_bind] in R; [| done].
        destruct (turn_published bd on ret v1 n s0 O (get_codes _ _ _ E)) as (P1 & P2 & P3). cbv zeta in *.
        destruct (IH 0 _ P3 ltac:(destruct O; lia) R) as [Q1 Q2]. split; [| done]. rewrite Q1, P1, P2, <- app_assoc. by destruct (ret =? 0).
      + destruct (turn_failed bd on fetch (0, 0) n s0 O F ltac:(lia)) as (P1 & P2 & P3). cbv zeta in *.
        destruct (IH (n + 1) _ P3 ltac:(lia) R) as [Q1 Q2]. split; [| done]. by rewrite Q1, P1, P2. }
  intros R. apply (G l 0) in R; [exact R | done | lia].
Qed.

Definition lights : list als_event :=
  [(0, false, sensor true 0 5); (0, false, sensor true 1000 100); (11, false, sensor true 1 1); (0, true, sensor true 1000 100);
   (0, false, sensor true 65535 9); (0, false, sensor false 7 7); (0, false, sensor false 7 7); (0, false, sensor false 7 7); (0, false, sensor false 7 7)].

Lemma light_published_witness : exists s, als_run Diamond lights (als_boot 77) = Some s /\
  published s = [(ALS_ERR_RANGE, 77); (ALS_OK, 414); (ALS_ERR_LEDS_INTERFERENCE, 414); (ALS_ERR_RANGE, 414)] /\ als_ok 4 s.
Proof.
  destruct (als_run Diamond lights (als_boot 77)) as [s |] eqn:E; [| vm_compute in E; discriminate E].
  exists s. split; [reflexivity |]. destruct (light_published Diamond lights 77 s ltac:(done) E) as [P K]. split; [| exact K].
  etransitivity; [exact P |]. vm_compute. reflexivity.
Defined.

(** A value that cannot be had for another reason counts twice, and the state is set too late: after two failed fetches the next such value makes four, and
    the state is still good. *)
Example counted_twice :
  let s := als_turn Pearl 0 false 0 (-5, 0) (als_turn Pearl 0 false (-5) (0, 0) (als_turn Pearl 0 false (-5) (0, 0) (als_boot 0))) in
  (error_count s, als_state s) = (4, RET_SUCCESS).
Proof. done. Qed.

End Als.
