(* ===== verification/Button.v ===== *)
(** main_board/src/ui/button/button.c: the power button.  Its interrupt submits work that tells the Jetson of every press and release, and on
    the Diamond arms the hard reset of a press of six seconds, which goes through the fans of [Fan] and the
    reboot thread of [Reboot].

    The interrupt, the work queue and the passing of time are steps that interleave. *)

From S2P Require Import Prelude Fan Power Reboot.

Module Button.

Definition LONG_PRESS_HARD_RESET_TIMEOUT_MS : Z := 6000.

(** [bt_irq], [bt_callback]: the interrupt and its callback as the GPIO driver has them.  [work]: [button_pressed_work] (true) and
    [button_released_work] in the order they are queued.  [long_press]: when [button_long_press_work] is due.
    [edges] and [resets] are histories: the edges handled, with their time, and the resets asked for, with the edges until then. *)
Record button_sys := ButtonSys {
  is_init : bool;
  bt_irq : bool;
  bt_callback : bool;
  work : list bool;
  long_press : option Z;
  now : Z;
  fans : fan_sys;
  boot : boot_sys;
  system_reset : bool;
  messages : list bool;
  edges : list (Z * bool);
  resets : list (Z * list (Z * bool));
}.

Definition with_irq (i q c : bool) (s : button_sys) : button_sys :=
  ButtonSys i q c (work s) (long_press s) (now s) (fans s) (boot s) (system_reset s) (messages s) (edges s) (resets s).
Definition with_work (w : list bool) (l : option Z) (m : list bool) (e : list (Z * bool)) (s : button_sys) : button_sys :=
  ButtonSys (is_init s) (bt_irq s) (bt_callback s) w l (now s) (fans s) (boot s) (system_reset s) m e (resets s).

(** [k_work_submit] of an item: queued once. *)
Definition k_work_submit (x : bool) (q : list bool) : list bool := if decide (x ∈ q) then q else q ++ [x].

(** [button_event_handler]; [ret]: what reading the pin gives.  [k_work_schedule] leaves a work that is scheduled already as it is. *)
Definition button_event_handler (bd : board) (ret : Z) (s : button_sys) : button_sys :=
  if ret =? 1 then
    with_work (k_work_submit true (work s))
      (match bd with Diamond => match long_press s with Some d => Some d | None => Some (now s + LONG_PRESS_HARD_RESET_TIMEOUT_MS) end | Pearl => long_press s end)
      (messages s) (edges s ++ [(now s, true)]) s
  else if ret =? 0 then
    with_work (k_work_submit false (work s)) (match bd with Diamond => None | Pearl => long_press s end)
      (messages s) (edges s ++ [(now s, false)]) s
  else s.

(** [button_long_pressed] *)
Definition button_long_pressed (value : Z) (s : button_sys) : button_sys :=
  if value =? 1 then
    let '(ret, b) := reboot 1 (boot s) in
    ButtonSys (is_init s) (bt_irq s) (bt_callback s) (work s) None (now s) (fan_turn_off (fans s)) b
      (system_reset s || negb (ret =? RET_SUCCESS)) (messages s) (edges s) (resets s ++ [(now s, edges s)])
  else with_work (work s) None (messages s) (edges s) s.

(** [button_pressed], [button_released]: the first item of the queue. *)
Definition button_work (s : button_sys) : button_sys :=
  match work s with [] => s | x :: q => with_work q (long_press s) (messages s ++ [x]) (edges s) s end.

(** [button_uninit] *)
Definition button_uninit (disable_ret remove_ret : Z) (s : button_sys) : Z * button_sys :=
  if negb (is_init s) then (RET_ERROR_INVALID_STATE, s)
  else if negb (disable_ret =? 0) then (disable_ret, s)
  else if negb (remove_ret =? 0) then (remove_ret, with_irq true false (bt_callback s) s)
  else (0, with_irq false false false s).

(** [button_init], without the cone's button.  [None]: a work item is initialised while it is queued. *)
Definition button_init (ready : bool) (configure_ret interrupt_ret add_ret : Z) (s : button_sys) : option (Z * button_sys) :=
  if is_init s then Some (RET_SUCCESS, s)
  else if negb ready then Some (RET_ERROR_INVALID_STATE, s)
  else if negb (configure_ret =? 0) then Some (RET_ERROR_INTERNAL, s)
  else if negb (interrupt_ret =? 0) then Some (RET_ERROR_INTERNAL, s)
  else match work s with
       | _ :: _ => None
       | [] =>
           if negb (add_ret =? 0) then Some (RET_ERROR_INTERNAL, with_irq false true (bt_callback s) s)
           else Some (RET_SUCCESS, with_irq true true true s)
       end.

Inductive button_event :=
| BtInit (ready : bool) (configure_ret interrupt_ret add_ret : Z)
| BtUninit (disable_ret remove_ret : Z)
| BtEdge (pin : Z)          (* an edge on the pin, whose level is read as [pin] *)
| BtWork                    (* the work queue runs an item *)
| BtLong (pin : Z)          (* the work queue runs the long press, if due *)
| BtTime (ms : nat).

Definition button_step (bd : board) (s : button_sys) (e : button_event) : option button_sys :=
  match e with
  | BtInit ready c i a => '(_, s) ← button_init ready c i a s; Some s
  | BtUninit d r => Some (button_uninit d r s).2
  | BtEdge pin => Some (if bt_irq s && bt_callback s then button_event_handler bd pin s else s)
  | BtWork => Some (button_work s)
  | BtLong pin => Some (match long_press s with Some d => if d <=? now s then button_long_pressed pin s else s | None => s end)
  | BtTime ms => Some (ButtonSys (is_init s) (bt_irq s) (bt_callback s) (work s) (long_press s) (now s + Z.of_nat ms) (fans s) (boot s) (system_reset s)
                         (messages s) (edges s) (resets s))
  end.

Fixpoint button_run (bd : board) (l : list button_event) (s : button_sys) : option button_sys :=
  match l with [] => Some s | e :: l => s ← button_step bd s e; button_run bd l s end.

Definition button_boot (f : fan_sys) (b : boot_sys) : button_sys := ButtonSys false false false [] None 0 f b false [] [] [].

(** ** The button of the cone

    [cone_button_thread]: it polls, and submits the same work. *)
Definition cone_turn (pin : Z) (st : bool * list bool) : bool * list bool :=
  let new := negb (pin =? 0) in
  (new, if negb st.1 && new then k_work_submit true st.2 else if st.1 && negb new then k_work_submit false st.2 else st.2).

(** ** What the Jetson hears *)

Definition reported (s : button_sys) : Prop := (messages s ++ work s) `sublist_of` (edges s).*2 /\ NoDup (work s).

(** Every edge came while no work was waiting. *)
Fixpoint work_in_time (bd : board) (l : list button_event) (s : button_sys) : Prop :=
  match l with
  | [] => True
  | e :: l => match e with BtEdge _ => work s = [] | _ => True end /\
              match button_step bd s e with Some s => work_in_time bd l s | None => True end
  end.

(** Initialisation and its undoing only touch the flag and the interrupt. *)
Lemma init_irq ready c i a s r s1 : button_init ready c i a s = Some (r, s1) -> s1 = s \/ exists i q c, s1 = with_irq i q c s.
Proof. unfold button_init. destruct (work s); repeat case_match; intros [= <- <-]; eauto. Qed.

Lemma uninit_irq d r s : let s1 := (button_uninit d r s).2 in s1 = s \/ exists i q c, s1 = with_irq i q c s.
Proof. unfold button_uninit. repeat case_match; cbn; eauto. Qed.

Ltac irq_only E :=
  match type of E with
  | context [button_init ?r ?c ?i ?a ?s] =>
      let B := fresh "B" in destruct (button_init r c i a s) as [[? ?] |] eqn:B; cbn in E; [| done]; injection E as <-;
      apply init_irq in B as [-> | (? & ? & ? & ->)]
  | context [button_uninit ?d ?r ?s] => injection E as <-; destruct (uninit_irq d r s) as [-> | (? & ? & ? & ->)]
  end.

Lemma submit_nodup x q : NoDup q -> NoDup (k_work_submit x q).
Proof.
  intros N. unfold k_work_submit. destruct (decide (x ∈ q)); [done |]. apply NoDup_app. split; [done |]. split; [| apply NoDup_singleton].
  intros y Y ->%list_elem_of_singleton. done.
Qed.

Lemma submit_sublist x q m (l : list bool) : (m ++ q) `sublist_of` l -> (m ++ k_work_submit x q) `sublist_of` (l ++ [x]).
Proof.
  intros S. unfold k_work_submit. destruct (decide (x ∈ q)); [by apply sublist_inserts_r |]. rewrite app_assoc. by apply sublist_app.
Qed.

Lemma handler_reported bd ret s : reported s -> reported (button_event_handler bd ret s).
Proof.
  intros [S N]. unfold button_event_handler. destruct (ret =? 1); [| destruct (ret =? 0); [| done]];
    (split; cbn; [rewrite fmap_app; by apply submit_sublist | by apply submit_nodup]).
Qed.

Lemma step_reported bd s e s' : reported s -> button_step bd s e = Some s' -> reported s'.
Proof.
  intros [S N] E. destruct e as [ready c i a | d r | pin | | pin | ms]; cbn in E.
  - irq_only E; by split.
  - irq_only E; by split.
  - injection E as <-. destruct (bt_irq s && bt_callback s); [apply handler_reported |]; by split.
  - injection E as <-. unfold button_work. destruct (work s) as [| x q] eqn:W; [split; [by rewrite W | by rewrite W] |]. split; cbn.
    + by rewrite <- app_assoc.
    + by apply NoDup_cons in N as [_ N].
  - injection E as <-. destruct (long_press s); [| by split]. destruct (_ <=? _); [| by split]. unfold button_long_pressed.
    destruct (pin =? 1); [| by split]. destruct (reboot 1 (boot s)). by split.
  - injection E as <-. by split.
Qed.

Lemma submit_empty x q : q = [] -> k_work_submit x q = [x].
Proof. intros ->. done. Qed.

(** The step of an edge with nothing waiting, and of the others, keeps every edge. *)
Lemma step_complete bd s e s' : messages s ++ work s = (edges s).*2 -> match e with BtEdge _ => work s = [] | _ => True end ->
  button_step bd s e = Some s' -> messages s' ++ work s' = (edges s').*2.
Proof.
  intros M P E. destruct e as [ready c i a | d r | pin | | pin | ms]; cbn in E.
  - by irq_only E.
  - by irq_only E.
  - injection E as <-. destruct (bt_irq s && bt_callback s); [| done]. unfold button_event_handler.
    rewrite P, app_nil_r in M. destruct (pin =? 1); [| destruct (pin =? 0); [| by rewrite P, app_nil_r]];
      cbn; rewrite submit_empty, fmap_app, M by done; done.
  - injection E as <-. unfold button_work. destruct (work s) as [| x q] eqn:W; [by rewrite W |]. cbn. by rewrite <- app_assoc.
  - injection E as <-. destruct (long_press s); [| done]. destruct (_ <=? _); [| done]. unfold button_long_pressed.
    destruct (pin =? 1); [| done]. by destruct (reboot 1 (boot s)).
  - by injection E as <-.
Qed.

(** The Jetson is told of presses and releases in the order they happened, and of none that did not; all of them when the work queue gets
    to run between two. *)
Theorem presses_reported bd l f b s : button_run bd l (button_boot f b) = Some s ->
  (messages s ++ work s) `sublist_of` (edges s).*2 /\ NoDup (work s) /\
  (work_in_time bd l (button_boot f b) -> messages s ++ work s = (edges s).*2).
Proof.
  assert (G : forall l s0, reported s0 -> button_run bd l s0 = Some s ->
    reported s /\ (messages s0 ++ work s0 = (edges s0).*2 -> work_in_time bd l s0 -> messages s ++ work s = (edges s).*2)).
  { clear l. intros l. induction l as [| e l IH]; intros s0 R E; cbn in E; [by injection E as <- |].
    destruct (button_step bd s0 e) as [s1 |] eqn:E1; cbn in E; [| done]. destruct (IH s1 (step_reported _ _ _ _ R E1) E) as [R2 C]. split; [done |].
    intros M [P W]. rewrite E1 in W. apply C; [by apply (step_complete bd s0 e) | done]. }
  intros E. destruct (G l (button_boot f b)) as [[S N] C]; [split; [done | constructor] | done |]. auto.
Qed.

(** ** The hard reset *)

(** The last edges, from one at [t0] on, are all presses. *)
Definition held (t0 : Z) (l : list (Z * bool)) : Prop :=
  exists l1 l2, l = l1 ++ (t0, true) :: l2 /\ Forall (fun e => e.2 = true) l2.

Definition reset_ok (r : Z * list (Z * bool)) : Prop :=
  exists t0, held t0 r.2 /\ t0 + LONG_PRESS_HARD_RESET_TIMEOUT_MS <= r.1.

Definition reset_inv (bd : board) (s : button_sys) : Prop :=
  Forall reset_ok (resets s) /\
  match long_press s with
  | Some d => bd = Diamond /\ exists t0, held t0 (edges s) /\ d = t0 + LONG_PRESS_HARD_RESET_TIMEOUT_MS
  | None => True
  end.

Lemma held_more t0 t l : held t0 l -> held t0 (l ++ [(t, true)]).
Proof.
  intros (l1 & l2 & -> & F). exists l1, (l2 ++ [(t, true)]). rewrite <- app_assoc. split; [done |]. apply Forall_app. by repeat constructor.
Qed.

Lemma held_new t l : held t (l ++ [(t, true)]).
Proof. by exists l, []. Qed.

Lemma step_reset bd s e s' : reset_inv bd s -> button_step bd s e = Some s' -> reset_inv bd s'.
Proof.
  intros [F L] E. destruct e as [ready c i a | d r | pin | | pin | ms]; cbn in E.
  - irq_only E; by split.
  - irq_only E; by split.
  - injection E as <-. destruct (bt_irq s && bt_callback s); [| by split]. unfold button_event_handler, reset_inv.
    destruct (pin =? 1); [| destruct (pin =? 0); [| by split]]; cbn; (split; [done |]); destruct bd, (long_press s) as [d |]; try done.
    + destruct L as [[=] _].
    + destruct L as (_ & t0 & H & ->). split; [done |]. exists t0. split; [by apply held_more | done].
    + split; [done |]. exists (now s). split; [apply held_new | done].
    + destruct L as [[=] _].
  - injection E as <-. unfold button_work. destruct (work s); by split.
  - injection E as <-. destruct (long_press s) as [d |] eqn:D; [| split; [done | by rewrite D]].
    destruct (Z.leb_spec d (now s)); [| split; [done | by rewrite D]].
    unfold button_long_pressed. destruct (pin =? 1); [| by split]. destruct (reboot 1 (boot s)) as [ret b]. split; cbn; [| done].
    apply Forall_app. split; [done |]. constructor; [| done]. destruct L as (_ & t0 & Hh & ->). exists t0. cbn. by split.
  - injection E as <-. by split.
Qed.

(** A hard reset is asked for only after the button was pressed six seconds or more before and not released since, as far as its interrupt
    could see; never on the Pearl. *)
Theorem hard_reset_after_hold bd l f b s : button_run bd l (button_boot f b) = Some s ->
  Forall reset_ok (resets s) /\ (bd = Pearl -> resets s = []).
Proof.
  assert (G : forall l s0, reset_inv bd s0 -> button_run bd l s0 = Some s ->
    reset_inv bd s /\ (bd = Pearl -> resets s0 = [] -> resets s = [])).
  { clear l. intros l. induction l as [| e l IH]; intros s0 R E; cbn in E; [by injection E as <- |].
    destruct (button_step bd s0 e) as [s1 |] eqn:E1; cbn in E; [| done]. destruct (IH s1 (step_reset _ _ _ _ R E1) E) as [R2 C]. split; [done |].
    intros P Z. apply C; [done |]. destruct R as [_ L].
    destruct e as [ready c i a | d r | pin | | pin | ms]; cbn in E1.
    - by irq_only E1.
    - by irq_only E1.
    - injection E1 as <-. destruct (bt_irq s0 && bt_callback s0); [| done]. unfold button_event_handler. by repeat case_match.
    - injection E1 as <-. unfold button_work. by destruct (work s0).
    - injection E1 as <-. destruct (long_press s0) as [d |]; [destruct L as [-> _]; done | done].
    - by injection E1 as <-. }
  intros E. destruct (G l (button_boot f b)) as [[F _] C]; [split; [constructor | done] | done |]. auto.
Qed.

(** The long press, once due and with the button still down, switches the fans off and wakes the reboot thread with a second to go, or resets
    at once when that thread does not run. *)
Lemma long_press_restarts s d : long_press s = Some d -> d <= now s -> exists s', button_step Diamond s (BtLong 1) = Some s' /\
  fans s' = fan_turn_off (fans s) /\ long_press s' = None /\
  (if reboot_tid (boot s) then sem_reboot (boot s') = 1 /\ reboot_delay_s (boot s') = 1 else system_reset s' = true).
Proof.
  intros L D. cbn. rewrite L. btrue (d <=? now s). unfold button_long_pressed, reboot. cbn [Z.eqb Pos.eqb].
  destruct (reboot_tid (boot s)) eqn:R; cbn; eexists; (split; [done |]); cbn; repeat split. apply orb_true_r.
Qed.

(** ** Runs *)

Definition demo_fans : fan_sys := FanSys 0 false true 0.
Definition demo_boot : boot_sys := BootSys true 0 0 0 false WaitSem 0 [].

(** A short press, then one of six seconds. *)
Definition two_presses : list button_event :=
  [BtInit true 0 0 0; BtEdge 1; BtWork; BtTime 1000; BtEdge 0; BtWork; BtTime 500; BtEdge 1; BtTime 3000; BtWork; BtTime 2999; BtLong 1; BtTime 1; BtLong 1].

Lemma presses_reported_witness : exists s, button_run Diamond two_presses (button_boot demo_fans demo_boot) = Some s /\
  messages s ++ work s = [true; false; true].
Proof.
  destruct (button_run Diamond two_presses (button_boot demo_fans demo_boot)) as [s |] eqn:E; [| vm_compute in E; discriminate E].
  exists s. split; [reflexivity |]. destruct (presses_reported Diamond two_presses demo_fans demo_boot s E) as (_ & _ & C).
  etransitivity; [apply C; vm_compute; repeat split |]. clear C. vm_compute in E. injection E as <-. reflexivity.
Defined.

Lemma hard_reset_after_hold_witness : exists s, button_run Diamond two_presses (button_boot demo_fans demo_boot) = Some s /\
  Forall reset_ok (resets s) /\ (resets s).*1 = [7500].
Proof.
  destruct (button_run Diamond two_presses (button_boot demo_fans demo_boot)) as [s |] eqn:E; [| vm_compute in E; discriminate E].
  exists s. split; [reflexivity |]. destruct (hard_reset_after_hold Diamond two_presses demo_fans demo_boot s E) as [F _]. split; [exact F |].
  vm_compute in E. injection E as <-. reflexivity.
Defined.

(** Press, release and press again before the work queue runs: the second press finds its work queued already, and the last the Jetson hears is
    that the button was released. *)
Example press_swallowed : match button_run Pearl [BtInit true 0 0 0; BtEdge 1; BtEdge 0; BtEdge 1; BtWork; BtWork; BtWork] (button_boot demo_fans demo_boot) with
  | Some s => messages s = [true; false] /\ (edges s).*2 = [true; false; true] | None => False end.
Proof. by vm_compute. Qed.

(** [button_uninit] leaves the long press armed: the reset comes although the button is not watched any more. *)
Example reset_after_uninit : match button_run Diamond [BtInit true 0 0 0; BtEdge 1; BtWork; BtUninit 0 0; BtTime 6000; BtLong 1] (button_boot demo_fans demo_boot) with
  | Some s => is_init s = false /\ length (resets s) = 1%nat | None => False end.
Proof. by vm_compute. Qed.

End Button.
