(* ===== verification/Peripherals.v ===== *)
(** Small peripherals of the Diamond: main_board/src/ui/white_leds/white_leds.c (the white LEDs' PWM), ui/sound/sound.c (the audio
    amplifier) and ui/nfc/nfc.c (the identity of the NFC reader). *)

From S2P Require Import Prelude.

(** ** White LEDs *)

Module WhiteLeds.

(** [global_brightness_thousandth], the semaphore [sem_new_setting] (0 or 1), and the pulses given to the PWM driver. *)
Record white_leds := WhiteLeds { global_brightness_thousandth : Z; sem_new_setting : Z; pulses : list Z }.

Inductive white_pwm := PwmDvt | PwmEvt.

(** [white_leds_init]: [v4_4] and [version] are generated numbers; whether the device is ready, and ready after [device_init];
    the code, the device and whether the thread runs. *)
Definition white_leds_init (v4_4 : Z) (version : option Z) (ready ready_after : white_pwm -> bool) : Z * white_pwm * bool :=
  match version with
  | None => (RET_ERROR_INVALID_PARAM, PwmDvt, false)
  | Some v =>
      let d := if v <=? v4_4 then PwmEvt else PwmDvt in
      if ready d || ready_after d then (RET_SUCCESS, d, true) else (RET_ERROR_INTERNAL, d, false)
  end.

(** [white_leds_set_brightness] *)
Definition white_leds_set_brightness (brightness_thousandth : Z) (s : white_leds) : Z * white_leds :=
  if 1000 <? brightness_thousandth then (RET_ERROR_INVALID_PARAM, s)
  else (RET_SUCCESS, WhiteLeds brightness_thousandth 1 (pulses s)).

(** The pulse: the product is in 32 bits. *)
Definition pulse_of (period b : Z) : Z := u32 (period * b) / 1000.

(** One turn of [white_leds_thread], which waits while the semaphore is 0. *)
Definition white_leds_turn (period : Z) (s : white_leds) : white_leds :=
  if 0 <? sem_new_setting s
  then WhiteLeds (global_brightness_thousandth s) 0 (pulses s ++ [pulse_of period (global_brightness_thousandth s)])
  else s.

Definition white_boot : white_leds := WhiteLeds 0 0 [].

Inductive white_event := WhiteSet (b : Z) | WhiteTurn.

Definition white_step (period : Z) (s : white_leds) (e : white_event) : white_leds :=
  match e with WhiteSet b => (white_leds_set_brightness b s).2 | WhiteTurn => white_leds_turn period s end.

Definition white_run (period : Z) (l : list white_event) : white_leds := fold_left (white_step period) l white_boot.

(** The last brightness accepted. *)
Definition accepted (b : option Z) (e : white_event) : option Z :=
  match e with WhiteSet x => if x <=? 1000 then Some x else b | WhiteTurn => b end.

Lemma pulse_exact period b : 0 <= period <= 4294967 -> 0 <= b <= 1000 -> pulse_of period b = period * b / 1000 /\ 0 <= pulse_of period b <= period.
Proof.
  intros P B. unfold pulse_of. rewrite u32_small by nia. split; [done |].
  split; [apply Z.div_pos; nia | apply Z.div_le_upper_bound; nia].
Qed.

(** The white LEDs shine as last asked for: when the thread has nothing left to do, the PWM has the pulse of the last brightness accepted, and it is that share of the period,
    rounded down; no pulse ever exceeds the period, whatever brightness is asked for. *)
Theorem last_brightness_shown period l : 0 <= period <= 4294967 -> Forall (fun e => match e with WhiteSet b => 0 <= b | _ => True end) l ->
  let s := white_run period l in
  (sem_new_setting s = 0 -> last (pulses s) = (fun b => period * b / 1000) <$> fold_left accepted l None) /\
  Forall (fun p => 0 <= p <= period) (pulses s).
Proof.
  intros P. unfold white_run.
  assert (G : forall l s b, 0 <= global_brightness_thousandth s <= 1000 -> Forall (fun p => 0 <= p <= period) (pulses s) ->
    (sem_new_setting s = 0 -> last (pulses s) = (fun b => period * b / 1000) <$> b) ->
    (0 < sem_new_setting s -> b = Some (global_brightness_thousandth s)) -> 0 <= sem_new_setting s ->
    Forall (fun e => match e with WhiteSet b => 0 <= b | _ => True end) l ->
    let s' := fold_left (white_step period) l s in
    (sem_new_setting s' = 0 -> last (pulses s') = (fun b => period * b / 1000) <$> fold_left accepted l b) /\
    Forall (fun p => 0 <= p <= period) (pulses s')).
  { clear l. intros l. induction l as [| e l IH]; intros s b Bs Ps Ls Lb N F; cbn; [done |].
    apply Forall_cons in F as [Fe F]. destruct e as [x |]; cbn [white_step accepted].
    - unfold white_leds_set_brightness. destruct (Z.ltb_spec 1000 x); cbn [snd].
      + bfalse (x <=? 1000). by apply IH.
      + btrue (x <=? 1000). apply IH; cbn; try done; lia.
    - unfold white_leds_turn. destruct (Z.ltb_spec 0 (sem_new_setting s)); [| apply IH; done].
      destruct (pulse_exact period _ P Bs) as [E R].
      apply IH; cbn; try done; try lia; [apply Forall_app; split; [done | by constructor] |].
      intros _. rewrite last_snoc, Lb by lia. cbn. by rewrite E. }
  intros F. apply G; cbn; try done; lia.
Qed.

Lemma last_brightness_shown_witness :
  let s := white_run 65535 [WhiteSet 250; WhiteTurn; WhiteSet 1001; WhiteSet 1000; WhiteSet 500; WhiteTurn; WhiteTurn] in
  last (pulses s) = Some 32767 /\ Forall (fun p => 0 <= p <= 65535) (pulses s).
Proof.
  destruct (last_brightness_shown 65535 [WhiteSet 250; WhiteTurn; WhiteSet 1001; WhiteSet 1000; WhiteSet 500; WhiteTurn; WhiteTurn]) as [L F];
    [lia | repeat constructor; lia |]. split; [exact (L eq_refl) | exact F].
Defined.

End WhiteLeds.

(** ** Sound *)

Module Sound.

Definition GPIO_OUTPUT_MUX_JETSON : Z := 0.
Definition SOUND_AMP_REG_CTRL2 : Z := 0x3.
Definition SOUND_AMP_REG_DIG_VOL_CTL : Z := 0x4C.
Definition SOUND_AMP_REG_AGAIN : Z := 0x54.
Definition SOUND_AMP_REG_DIE_ID : Z := 0x67.
Definition ANALOG_GAIN_ATTENUATION_DB : Z := 3.
Definition DIGITAL_VOL_DB : Z := -5.
Definition DIGITAL_VOL_DB_REG_VALUE : Z := Z.min ((24 - DIGITAL_VOL_DB) * 2) 255.
Definition ANALOG_GAIN_ATTENUATION_DB_REG_VALUE : Z := Z.min (ANALOG_GAIN_ATTENUATION_DB * 2) 31.

(** What the drivers answer: the three devices ready or not, the pins' operations, and each I2C operation. *)
Record sound_answers := SoundAnswers {
  shifter_ready : bool; shifter_ret : Z;
  mux_ready : bool; mux_configure_ret : Z; mux_set_ret : Z;
  i2c_ready : bool; id_ret : Z; id_value : Z;
  volume_write : Z; volume_read : Z; gain_write : Z; gain_read : Z; play_write : Z;
}.

(** A register of the amplifier written, and what the write returned. *)
Definition register_write : Type := Z * Z * Z.

(** The part of [sound_init] on the I2C bus: the code, the part number read (0xFF until then), the writes.  [v4_6] and [version] are
    generated numbers. *)
Definition sound_amplifier (v4_6 version : Z) (x : sound_answers) : Z * Z * list register_write :=
  let die_id := if id_ret x =? 0 then id_value x else 0xFF in
  let '(err_code, w) :=
    if (v4_6 <=? version) && (id_ret x =? 0)
    then (volume_read x, [(SOUND_AMP_REG_DIG_VOL_CTL, DIGITAL_VOL_DB_REG_VALUE, volume_write x)])
    else (id_ret x, []) in
  if err_code =? 0 then
    let w := w ++ [(SOUND_AMP_REG_AGAIN, ANALOG_GAIN_ATTENUATION_DB_REG_VALUE, gain_write x)] in
    if gain_read x =? 0 then (play_write x, die_id, w ++ [(SOUND_AMP_REG_CTRL2, 0x03, play_write x)])
    else (gain_read x, die_id, w)
  else (err_code, die_id, w).

(** [sound_init]: the code, the state registered as sound, the writes. *)
Definition sound_init (v4_6 version : Z) (x : sound_answers) : Z * Z * list register_write :=
  let err_code := if shifter_ready x then shifter_ret x else RET_ERROR_INVALID_STATE in
  let err_code :=
    if err_code =? 0 then
      if mux_ready x then if mux_configure_ret x =? 0 then mux_set_ret x else mux_configure_ret x else RET_ERROR_INVALID_STATE
    else err_code in
  let '(err_code, die_id, w) :=
    if err_code =? 0 then
      if i2c_ready x then sound_amplifier v4_6 version x else (RET_ERROR_INVALID_STATE, 0xFF, [])
    else (err_code, 0xFF, []) in
  (err_code, if negb (err_code =? 0) || negb (die_id =? 0) then RET_ERROR_NOT_INITIALIZED else RET_SUCCESS, w).

(** The first failure of the operations the code looks at. *)
Definition all_well (v4_6 version : Z) (x : sound_answers) : Prop :=
  shifter_ready x = true /\ shifter_ret x = 0 /\ mux_ready x = true /\ mux_configure_ret x = 0 /\ mux_set_ret x = 0 /\
  i2c_ready x = true /\ id_ret x = 0 /\ (v4_6 <= version -> volume_read x = 0) /\ gain_read x = 0 /\ play_write x = 0.

(** A branch of [sound_init]: what its conditions say settles the code, the state and the writes. *)
Ltac verdict :=
  repeat match goal with H : ?z = 0 |- _ => is_var z; subst z end;
  cbn [Z.eqb Pos.eqb negb orb andb app fmap list_fmap];
  repeat match goal with H : ?z <> 0 |- context [?z =? 0] => rewrite (proj2 (Z.eqb_neq z 0) H) end;
  cbn; repeat match goal with H : ?z <> 0 |- context [?z =? 0] => rewrite (proj2 (Z.eqb_neq z 0) H) end; cbn;
  split_and!; [intuition (discriminate || lia) | intuition (discriminate || lia) |
    rewrite ?elem_of_cons, ?elem_of_nil; first [by intros _ | intros B; exfalso; revert B; unfold SOUND_AMP_REG_CTRL2, SOUND_AMP_REG_AGAIN, SOUND_AMP_REG_DIG_VOL_CTL; lia]].

(** Sound: the state says ready exactly when the part is the right one and everything looked at went well, which the results of writing the volume and
    the attenuation are not part of; the amplifier is told to play last, after a write of the attenuation (and of the volume from
    version 4.6 on), and never when the part could not be reached. *)
Theorem sound_verdict v4_6 version x : let '(ret, state, w) := sound_init v4_6 version x in
  (state = RET_SUCCESS <-> all_well v4_6 version x /\ id_value x = 0) /\
  (ret = 0 <-> all_well v4_6 version x) /\
  (SOUND_AMP_REG_CTRL2 ∈ (fun r => r.1.1) <$> w ->
     (fun r => r.1) <$> w = (if v4_6 <=? version then [(SOUND_AMP_REG_DIG_VOL_CTL, 58)] else []) ++ [(SOUND_AMP_REG_AGAIN, 6); (SOUND_AMP_REG_CTRL2, 3)]).
Proof.
  destruct x as [sr sret mr mc ms ir ir_ret iv vw vr gw gr pw]. unfold sound_init, sound_amplifier, all_well.
  cbn [shifter_ready shifter_ret mux_ready mux_configure_ret mux_set_ret i2c_ready id_ret id_value volume_write volume_read gain_write gain_read play_write].
  unfold RET_ERROR_NOT_INITIALIZED, RET_SUCCESS, RET_ERROR_INVALID_STATE.
  destruct sr; [| verdict]. destruct (Z.eqb_spec sret 0); [subst sret | verdict].
  destruct mr; [| verdict]. destruct (Z.eqb_spec mc 0); [subst mc | verdict]. destruct (Z.eqb_spec ms 0); [subst ms | verdict].
  destruct ir; [| verdict]. destruct (Z.eqb_spec ir_ret 0); [subst ir_ret | rewrite andb_false_r; verdict].
  rewrite andb_true_r. destruct (Z.leb_spec v4_6 version).
  - destruct (Z.eqb_spec vr 0); [subst vr | verdict]. destruct (Z.eqb_spec gr 0); [subst gr | verdict].
    destruct (Z.eqb_spec pw 0), (Z.eqb_spec iv 0); verdict.
  - destruct (Z.eqb_spec gr 0); [subst gr | verdict]. destruct (Z.eqb_spec pw 0), (Z.eqb_spec iv 0); verdict.
Qed.

(** The attenuation cannot be written, but reading the register works: the amplifier plays at full gain and the state is good. *)
Example unattenuated :
  sound_init 7 7 (SoundAnswers true 0 true 0 0 true 0 0 (-5) 0 (-5) 0 0) = (0, RET_SUCCESS, [(0x4C, 58, -5); (0x54, 6, -5); (3, 3, 0)]).
Proof. done. Qed.

End Sound.

(** ** NFC *)

Module Nfc.

Definition ST25R3916_REG_IC_IDENTITY : Z := 0x3F.
Definition ST25R3916_CMD_SET_DEFAULT : Z := 0xC1.
Definition ST25R3916_READ_MODE : Z := Z.shiftl 1 6.
Definition IC_TYPE : Z := Z.shiftl 5 3.
Definition IC_TYPE_MASK : Z := Z.shiftl 0x1f 3.

(** [st25r3918_read_register]: the byte written and the result of the transfer. *)
Definition st25r3918_read_register (reg : Z) (bus : list Z -> Z * Z) : Z * Z := bus [Z.lor reg ST25R3916_READ_MODE].

(** [nfc_self_test]: the bus ready or not, what it answers to the bytes written (code and byte read); the code and the state registered as nfc. *)
Definition nfc_self_test (v4_6 version : Z) (ready : bool) (bus : list Z -> Z * Z) : Z * Z :=
  if version <? v4_6 then (0, RET_SUCCESS)
  else if negb ready then (RET_ERROR_NOT_INITIALIZED, RET_ERROR_INVALID_STATE)
  else
    let ret := (bus [ST25R3916_CMD_SET_DEFAULT]).1 in
    if negb (ret =? 0) then (ret, RET_ERROR_INVALID_STATE)
    else
      let '(ret, id) := st25r3918_read_register ST25R3916_REG_IC_IDENTITY bus in
      (ret, if (ret =? 0) && (Z.land id IC_TYPE_MASK =? IC_TYPE) then RET_SUCCESS else RET_ERROR_ASSERT_FAILS).

(** The state says the reader is there exactly when it took the reset, and its identity register names the type in its five high bits; the code only says whether it could be
    reached. *)
Theorem nfc_verdict v4_6 version ready bus : v4_6 <= version ->
  let '(ret, state) := nfc_self_test v4_6 version ready bus in
  (state = RET_SUCCESS <-> ready = true /\ (bus [0xC1]).1 = 0 /\ (bus [0x7F]).1 = 0 /\ ((bus [0x7F]).2 / 8) mod 32 = 5) /\
  (ret = 0 <-> ready = true /\ (bus [0xC1]).1 = 0 /\ (bus [0x7F]).1 = 0).
Proof.
  intros V. unfold nfc_self_test, st25r3918_read_register. bfalse (version <? v4_6).
  change (Z.lor ST25R3916_REG_IC_IDENTITY ST25R3916_READ_MODE) with 0x7F. change ST25R3916_CMD_SET_DEFAULT with 0xC1.
  destruct ready; cbn [negb]; [| split; naive_solver]. destruct (Z.eqb_spec (bus [0xC1]).1 0) as [E |]; cbn [negb]; [| split; naive_solver].
  destruct (bus [0x7F]) as [ret id]. cbn [fst snd].
  assert (M : Z.land id IC_TYPE_MASK =? IC_TYPE = ((id / 8) mod 32 =? 5)).
  { assert (L : Z.land id IC_TYPE_MASK = Z.shiftl ((id / 8) mod 32) 3).
    { change 32 with (2 ^ 5). change 8 with (2 ^ 3). rewrite <- Z.shiftr_div_pow2, <- Z.land_ones by lia. apply Z.bits_inj'. intros k K.
      rewrite Z.land_spec. destruct (Z.ltb_spec k 3).
      - rewrite Z.shiftl_spec_low by lia. unfold IC_TYPE_MASK. by rewrite Z.shiftl_spec_low, andb_false_r by lia.
      - rewrite Z.shiftl_spec, Z.land_spec, Z.shiftr_spec by lia. unfold IC_TYPE_MASK. rewrite Z.shiftl_spec by lia.
        replace (k - 3 + 3) with k by lia. done. }
    rewrite L. unfold IC_TYPE. apply eq_true_iff_eq. rewrite !Z.eqb_eq, !Z.shiftl_mul_pow2 by lia. lia. }
  rewrite M. destruct (Z.eqb_spec ret 0), (Z.eqb_spec ((id / 8) mod 32) 5); cbn; split; naive_solver.
Qed.

Definition reader (id : Z) (l : list Z) : Z * Z := (0, if decide (l = [0x7F]) then id else 0).

Lemma nfc_verdict_witness : (nfc_self_test 7 8 true (reader 0x2A)).2 = RET_SUCCESS.
Proof. pose proof (nfc_verdict 7 8 true (reader 0x2A) ltac:(lia)) as H. cbn in H. apply H. done. Defined.

(** Another chip answers: the state is an error, the test is passed. *)
Example wrong_chip_passes : nfc_self_test 7 8 true (reader 0x10) = (0, RET_ERROR_ASSERT_FAILS).
Proof. done. Qed.

End Nfc.
