(* ===== verification/TemperatureSensors.v ===== *)
(** main_board/src/temperature/sensors/temperature.c, the part around the loop of [Temperature]: the tables of sensors of the two
    boards, how a sensor is read and its value rounded, the temperature of the microcontroller's die, and the
    initialisation. *)

From Stdlib Require Import SpecFloat.
From S2P Require Import Prelude Floats FloatFacts Fan Temperature.

(** ** Tables *)

(** [enum temperature_sensors], both boards. *)
Inductive sensor_id :=
| MAIN_BOARD | LIQUID_LENS | DIE
| FRONT_UNIT
| USB_HUB_BOT | USB_HUB_TOP | SECURITY_SUPPLY | AUDIO_AMPLIFIER | SUPER_CAP_CHARGER | PVCC_SUPPLY | SUPER_CAPS_BOT | V12_CAPS_BOT
| FU_850_LEFT_TOP | FU_850_LEFT_BOTTOM | FU_850_RIGHT_TOP | FU_940_LEFT_TOP | FU_940_LEFT_BOTTOM | FU_940_RIGHT_TOP | FU_940_RIGHT_BOTTOM
| FU_850_CENTER_BOTTOM | FU_WHITE_RGB_LEFT_BOT | FU_WHITE_RGB_RIGHT_BOT | FU_940_SHROUD_RGB_TOP.

#[export] Instance sensor_id_eq_dec : EqDecision sensor_id.
Proof. solve_decision. Defined.

(** The order of the enumeration. *)
Definition sensor_ids (bd : board) : list sensor_id :=
  [MAIN_BOARD; LIQUID_LENS; DIE] ++
  match bd with
  | Pearl => [FRONT_UNIT]
  | Diamond =>
      [USB_HUB_BOT; USB_HUB_TOP; SECURITY_SUPPLY; AUDIO_AMPLIFIER; SUPER_CAP_CHARGER; PVCC_SUPPLY; SUPER_CAPS_BOT; V12_CAPS_BOT;
       FU_850_LEFT_TOP; FU_850_LEFT_BOTTOM; FU_850_RIGHT_TOP; FU_940_LEFT_TOP; FU_940_LEFT_BOTTOM; FU_940_RIGHT_TOP; FU_940_RIGHT_BOTTOM;
       FU_850_CENTER_BOTTOM; FU_WHITE_RGB_LEFT_BOT; FU_WHITE_RGB_RIGHT_BOT; FU_940_SHROUD_RGB_TOP]
  end.

Definition MAIN_BOARD_OVERTEMP_C : Z := 80.
Definition LIQUID_LENS_OVERTEMP_C : Z := 80.
Definition FRONT_UNIT_OVERTEMP_C (bd : board) : Z := match bd with Pearl => 70 | Diamond => 80 end.
Definition MCU_DIE_OVERTEMP_C (bd : board) : Z := match bd with Pearl => 65 | Diamond => 80 end.

(** The threshold of the sensors that have [overtemp_callback]. *)
Definition threshold (bd : board) (i : sensor_id) : option Z :=
  match i with
  | MAIN_BOARD => Some MAIN_BOARD_OVERTEMP_C
  | LIQUID_LENS => Some LIQUID_LENS_OVERTEMP_C
  | DIE => Some (MCU_DIE_OVERTEMP_C bd)
  | FRONT_UNIT | FU_850_LEFT_TOP | FU_850_RIGHT_TOP | FU_940_LEFT_TOP | FU_940_RIGHT_TOP | FU_940_SHROUD_RGB_TOP => Some (FRONT_UNIT_OVERTEMP_C bd)
  | _ => None
  end.

(** Those with a registered state, not set before the initialisation. *)
Definition has_state (i : sensor_id) : bool := match i with MAIN_BOARD | LIQUID_LENS | FRONT_UNIT => true | _ => false end.

Section Tables.
(** [temperature_source], a generated number. *)
Context (source : sensor_id -> Z).

(** An entry of the table. *)
Definition entry (bd : board) (i : sensor_id) : sensor_and_channel :=
  let data := (fun c => OvertempInfo c OVERTEMP_TO_NOMINAL_DROP_C false 0) <$> threshold bd i in
  Sensor (source i) (if has_state i then Some RET_ERROR_NOT_INITIALIZED else None) (bool_decide (is_Some data)) data
    (fill TEMPERATURE_AVERAGE_SAMPLE_COUNT 0) 0 TEMPERATURE_SENTINEL_VALUE.

(** [sensors_and_channels], then on the Diamond [fu_avg_sensors], the average of the front unit. *)
Definition sensors_and_channels (bd : board) : list sensor_and_channel := entry bd <$> sensor_ids bd.
Definition fu_avg_sensors (bd : board) : list sensor_and_channel := match bd with Pearl => [] | Diamond => [entry bd FRONT_UNIT] end.

(** ** Initialisation *)

(** [check_ready]: the die has no device to be ready. *)
Definition check_one (ready : sensor_id -> bool) (i : sensor_id) (x : sensor_and_channel) : bool * sensor_and_channel :=
  if decide (i = DIE) then (true, orb_state_set RET_SUCCESS x)
  else if ready i then (true, orb_state_set RET_SUCCESS x) else (false, orb_state_set RET_ERROR_NOT_INITIALIZED x).

Definition check_ready (bd : board) (ready : sensor_id -> bool) (l : list sensor_and_channel) : Z * list sensor_and_channel :=
  let r := zip_with (check_one ready) (sensor_ids bd) l in
  (if forallb fst r then RET_SUCCESS else RET_ERROR_INVALID_STATE, snd <$> r).

(** [temperature_init]; [ms_to_ticks] is Zephyr's conversion, the fan was initialised before. *)
Definition temperature_init (bd : board) (ready : sensor_id -> bool) (ms_to_ticks : Z -> Z) (f : fan_sys) : temp_sys :=
  let l := (check_ready bd ready (sensors_and_channels bd)).2 in
  TempSys ((init_sensor_and_channel <$> l) ++ fu_avg_sensors bd) 0 0 0 f 0 (ms_to_ticks (1000 / TEMPERATURE_AVERAGE_SAMPLE_COUNT)) [] [] false.

Lemma check_ready_keeps bd ready l : cb_data <$> (check_ready bd ready l).2 = cb_data <$> zip_with (fun _ x => x) (sensor_ids bd) l.
Proof.
  unfold check_ready. cbn [snd]. generalize (sensor_ids bd). induction l as [| x l IH]; intros [| i ids]; cbn; try done.
  rewrite IH. f_equal. unfold check_one. repeat case_decide; [done |]. by destruct (ready i).
Qed.

Lemma init_cb_data bd ready m f :
  cb_data <$> sensors (temperature_init bd ready m f) = cb_data <$> (sensors_and_channels bd ++ fu_avg_sensors bd).
Proof.
  unfold temperature_init. cbn [sensors]. rewrite !fmap_app. f_equal. rewrite <- list_fmap_compose.
  change (cb_data ∘ init_sensor_and_channel) with cb_data. rewrite check_ready_keeps. f_equal.
  unfold sensors_and_channels. induction (sensor_ids bd) as [| i l IH]; cbn; [done |]. by rewrite IH.
Qed.
End Tables.

(** ** From the start *)

Lemma over_count_none l : (forall x, x ∈ l -> is_over x = false) -> over_count l = 0.
Proof.
  induction l as [| x l IH]; intros H; [done |]. rewrite over_count_cons, (H x), IH; [done | | by left]. intros y Hy. apply H. by right.
Qed.

Lemma over_count_some l n x : l !! n = Some x -> is_over x = true -> 0 < over_count l.
Proof. intros E O. destruct (over_count_bound _ _ _ E) as [H _]. rewrite O in H. cbn in H. lia. Qed.

Section FromStart.
Context (h : fan_hw) (TPS : Z) (ms_to_ticks : Z -> Z) (source : sensor_id -> Z) (front_source : Z -> bool).

(** The state the initialisations of the fan and of the sensors give, and the thread and the commands from there. *)
Definition thermal_start (bd : board) (ready : sensor_id -> bool) : temp_sys :=
  temperature_init source bd ready ms_to_ticks (fan_init h).
Definition thermal_run (bd : board) (ready : sensor_id -> bool) (es : list temp_event) : Z * temp_sys :=
  temp_run h TPS ms_to_ticks front_source (length (sensor_ids bd)) (bool_decide (bd = Diamond))
    (value_of_percentage FAN_INITIAL_SPEED_PERCENT) (thermal_start bd ready) es.

Lemma thermal_start_inv bd ready : Inv h (value_of_percentage FAN_INITIAL_SPEED_PERCENT) (thermal_start bd ready).
Proof.
  pose proof (init_cb_data source bd ready ms_to_ticks (fan_init h)) as E. split; [| split].
  - assert (fan_at h (value_of_percentage FAN_INITIAL_SPEED_PERCENT) (fan_init h)) as A; [| exact A].
    unfold fan_init, fan_set_speed_by_percentage. apply (fan_at_set h _ 0). by split.
  - symmetry. apply over_count_none. intros x Hx. assert (cb_data x ∈ (cb_data <$> sensors (thermal_start bd ready))) as Hc by (by apply list_elem_of_fmap_2).
    unfold thermal_start in Hc. rewrite E in Hc. unfold is_over. destruct (cb_data x) as [d |]; [| done].
    destruct bd; cbn in Hc; repeat (apply elem_of_cons in Hc as [Hc | Hc]; [injection Hc as -> || discriminate Hc; done |]); by apply elem_of_nil in Hc.
  - apply (f_equal length) in E. rewrite !length_fmap in E. unfold zlen, thermal_start. rewrite E. by destruct bd.
Qed.

(** The fan's rule from the first instruction: on each board, whatever sensors answer at the initialisation, and through any
    readings, fan commands and changes of the period, the count of hot sensors is right, the fan is at full speed while it is
    not zero and every fan command is then refused; at zero the fan has the speed last accepted, 1 % at the start. *)
Theorem fan_rule_from_start (bd : board) (ready : sensor_id -> bool) (es : list temp_event) :
  let r := thermal_run bd ready es in fan_rule h r.1 r.2.
Proof. apply inv_fan_rule, temp_run_inv, thermal_start_inv. Qed.

(** What an entry of the table keeps for ever: its source, its callback and its thresholds. *)
Definition settings (x : sensor_and_channel) : Z * bool * option (Z * Z) :=
  (temperature_source x, cb x, (fun i => (overtemp_c i, overtemp_drop_c i)) <$> cb_data x).

(** The flag follows the average with the hysteresis of the thresholds. *)
Definition flag_follows (x : sensor_and_channel) : Prop :=
  forall i, cb_data x = Some i -> if in_overtemp i then overtemp_c i - overtemp_drop_c i <= average x else average x <= overtemp_c i.

Definition good (bd : board) (i : sensor_id) (x : sensor_and_channel) : Prop := settings x = settings (entry source bd i) /\ flag_follows x.

Lemma callback_settings now x s : settings (overtemp_callback h TPS now x s).1.2 = settings x.
Proof.
  unfold overtemp_callback, settings. destruct (cb_data x) as [info |] eqn:E; [| cbn; by rewrite E].
  set (x1 := if average x <=? _ then _ else x).
  assert (temperature_source x1 = temperature_source x /\ cb x1 = cb x) as [S C] by (unfold x1; by destruct (average x <=? _)).
  set (c := _ <? average x1). destruct (if c then critical_update TPS now info x1 s else (0, s)) as [timer s1].
  destruct c; cbn [andb]; repeat match goal with |- context [if ?e then _ else _] => destruct e end; cbn; by rewrite ?S, ?C.
Qed.

Lemma callback_flag now x s : (forall i, cb_data x = Some i -> 0 <= overtemp_drop_c i) ->
  let r := overtemp_callback h TPS now x s in rebooted r.2 = true \/ flag_follows r.1.2.
Proof.
  intros D. unfold overtemp_callback, flag_follows. destruct (cb_data x) as [info |] eqn:E; [| right; cbn; intros i Hi; congruence]. specialize (D info eq_refl).
  set (x1 := if average x <=? _ then _ else x).
  assert (average x1 = average x) as A by (unfold x1; by destruct (average x <=? _)).
  set (c := _ <? average x1). destruct (if c then critical_update TPS now info x1 s else (0, s)) as [timer s1].
  set (x2 := if c then _ else x1).
  assert (average x2 = average x) as A2 by (unfold x2; by destruct c). clearbody x1 x2. cbv zeta. cbn [average set_cb_data].
  destruct (_ && (_ <? timer)); [by left |]. right. rewrite A2. cbn [overtemp_c overtemp_drop_c in_overtemp].
  destruct (in_overtemp info) eqn:F; cbn [negb andb].
  - destruct (Z.ltb_spec (average x) (overtemp_c info - overtemp_drop_c info)); cbn; intros i [= <-]; cbn; rewrite ?A2, ?F; lia.
  - destruct (Z.ltb_spec (overtemp_c info) (average x)); cbn; intros i [= <-]; cbn; rewrite ?A2, ?F; lia.
Qed.

Lemma good_drop bd i x : settings x = settings (entry source bd i) -> forall d, cb_data x = Some d -> 0 <= overtemp_drop_c d.
Proof.
  unfold settings, entry. cbn [cb_data]. intros E d Ed. rewrite Ed in E. destruct (threshold bd i); [| done]. cbn in E.
  injection E as _ _ _ ->. done.
Qed.

Lemma accepted_good now bd i x s : good bd i x -> let r := sample_accepted h TPS now x s in rebooted r.2 = true \/ good bd i r.1.
Proof.
  intros [S F]. unfold sample_accepted, temperature_report_internal. cbn [wr_idx set_history].
  destruct (_ =? 0); [| by right]. set (x1 := set_average _ _). cbn [cb set_average set_history]. change (cb x1) with (cb x).
  assert (settings x1 = settings (entry source bd i)) as S1 by exact S.
  destruct (cb x) eqn:C.
  - destruct (callback_flag now x1 (add_report (temperature_source x1, average x1) s) (good_drop bd i x1 S1)) as [R | R]; [by left | right].
    split; [| exact R]. cbn [fst]. by rewrite callback_settings.
  - right. split; [exact S1 |]. intros d Ed. change (cb_data x = Some d) in Ed. revert S. unfold settings, entry. rewrite Ed, C. cbn.
    by destruct (threshold bd i).
Qed.

Lemma attempts_keep k readings : forall x, let y := (sample_attempts k readings x).2 in settings y = settings x /\ cb_data y = cb_data x /\ average y = average x.
Proof.
  induction k as [| k IH]; intros x; cbn [sample_attempts]; [done |].
  destruct (readings (S k)) as [ret v]. destruct (negb _); [apply IH |].
  match goal with |- context [if ?e then (true, _) else _] => destruct e end; [done | apply (IH (set_history _ _ _))].
Qed.

Lemma good_same bd i x y : settings y = settings x -> cb_data y = cb_data x -> average y = average x -> good bd i x -> good bd i y.
Proof. unfold good, flag_follows. intros -> -> ->. done. Qed.

Lemma sampled_good readings now bd i x s : good bd i x ->
  let r := sample_and_report_temperature h TPS readings now x s in rebooted r.2 = true \/ good bd i r.1.
Proof.
  intros G. unfold sample_and_report_temperature. destruct (attempts_keep TEMPERATURE_SAMPLE_RETRY_COUNT readings x) as (S & C & A).
  destruct (sample_attempts _ _ _) as [ok y]; cbn [snd] in *. apply (good_same bd i x y S C A) in G. destruct ok; cbn [negb].
  - by apply accepted_good.
  - right. exact G.
Qed.

(** The sensors of the table with, on the Diamond, the average of the front unit after them. *)
Definition table_ids (bd : board) : list sensor_id := sensor_ids bd ++ match bd with Pearl => [] | Diamond => [FRONT_UNIT] end.

(** Every entry of the table is as it should be, unless the device is rebooting. *)
Definition table_good (bd : board) (s : temp_sys) : Prop :=
  rebooted s = true \/ Forall2 (good bd) (table_ids bd) (sensors s).

Lemma update_good req bd n f s : Inv h req s -> table_good bd s ->
  (forall x t, FanInv h req t -> room_for x t -> handles h req x (f x t).1 t (f x t).2) ->
  (forall i x t, good bd i x -> rebooted (f x t).2 = true \/ good bd i (f x t).1) ->
  table_good bd (update_sensor n f s).
Proof.
  intros (I & N & L) T Hh Hg. unfold update_sensor. destruct (rebooted s) eqn:R; [done |]. destruct T as [T | T]; [congruence |].
  destruct (sensors s !! n) as [x |] eqn:E; [| by right].
  destruct (Forall2_lookup_r _ _ _ _ _ T E) as (i & Ei & G). pose proof (over_count_bound _ _ _ E) as B.
  destruct (Hh x s I) as (_ & S' & _); [unfold room_for; lia |].
  destruct (Hg i x s G) as [R' | G']; destruct (f x s) as [x' s']; cbn [fst snd] in *; [by left | right]. cbn [sensors set_sensors]. rewrite S'.
  rewrite <- (list_insert_id _ n i Ei). by apply Forall2_insert.
Qed.

Lemma good_info bd i x : good bd i x ->
  match threshold bd i with
  | None => is_over x = false
  | Some c => if is_over x then c - OVERTEMP_TO_NOMINAL_DROP_C <= average x else average x <= c
  end.
Proof.
  intros [S F]. unfold is_over. unfold flag_follows in F. unfold settings, entry in S. cbn [cb_data] in S. injection S as _ _ S.
  destruct (threshold bd i) as [c |], (cb_data x) as [d |]; cbn in S; try done. injection S as Ec Ed. specialize (F d eq_refl). by rewrite Ec, Ed in F.
Qed.

Definition both (req : Z) (bd : board) (s : temp_sys) : Prop := Inv h req s /\ table_good bd s.

Lemma update_both req bd n f s : both req bd s ->
  (forall x t, FanInv h req t -> room_for x t -> handles h req x (f x t).1 t (f x t).2) ->
  (forall i x t, good bd i x -> rebooted (f x t).2 = true \/ good bd i (f x t).1) ->
  both req bd (update_sensor n f s).
Proof. intros [I T] Hh Hg. split; [by apply update_inv | by eapply update_good]. Qed.

Lemma turn_both req bd n diamond readings now s : both req bd s -> both req bd (temperature_turn h TPS front_source n diamond readings now s).
Proof.
  intros B. unfold temperature_turn. set (s1 := fold_left _ (seq 0 n) s).
  assert (both req bd s1) as B1.
  { unfold s1. revert s B s1. induction (seq 0 n) as [| k l IH]; intros s B; cbn [fold_left]; [done |].
    apply IH. apply update_both; [done | intros x t; apply sample_handles | intros i x t; apply sampled_good]. }
  destruct diamond; [| done]. destruct (front_unit_sample _ _) as [v |]; [| done]. apply update_both; [done | |].
  - intros x t. exact (accepted_handles h TPS req now (set_history (<[Z.to_nat (wr_idx x) := v]> (history x)) (wr_idx x) x) t).
  - intros i x t G. exact (accepted_good now bd i (set_history (<[Z.to_nat (wr_idx x) := v]> (history x)) (wr_idx x) x) t G).
Qed.

Lemma event_both n diamond req bd s e : both req bd s ->
  let r := temp_event_step h TPS ms_to_ticks front_source n diamond s e in both (requested_after req e r.1) bd r.2.
Proof.
  intros B. split; [apply event_inv, B |]. unfold temp_event_step. destruct (rebooted s); [apply B |]. destruct e as [rd now | p v | ms]; cbn [snd].
  - by apply (turn_both req).
  - destruct B as [_ T]. unfold handle_fan_speed. destruct (temperature_is_in_overtemp s); [done |].
    destruct p; try destruct (_ <? v); exact T.
  - destruct B as [_ T]. unfold handle_temperature_sample_period_message, temperature_set_sampling_period_ms. destruct (_ || _); exact T.
Qed.

Lemma start_good bd ready : table_good bd (thermal_start bd ready).
Proof.
  right. unfold thermal_start, temperature_init. cbn [sensors]. apply Forall2_app.
  - unfold check_ready, sensors_and_channels. cbn [snd]. induction (sensor_ids bd) as [| i l IH]; cbn; constructor; [| exact IH].
    apply (good_same bd i (entry source bd i)).
    1-3: unfold check_one; repeat case_decide; [done | by destruct (ready i)].
    split; [done |]. intros d Ed. unfold entry in *. cbn in *. destruct (threshold bd i) as [c |] eqn:Et; [| done]. injection Ed as <-. cbn.
    unfold TEMPERATURE_SENTINEL_VALUE. destruct i; try done; injection Et as <-; destruct bd; done.
  - destruct bd; cbn; constructor; [| constructor]. split; [done |]. intros d [= <-]. done.
Qed.

(** C5: The whole chain from the sensors to the fan.  From the start of each board, through any readings, fan commands and changes of
    the period, the device is rebooting after a critical temperature, or the fan runs at full speed and refuses commands as soon
    as one sensor's measurement is above its threshold in the table, and has the speed last accepted from the Jetson when all
    the measurements are 5 degrees below. *)
Theorem hot_sensor_full_speed (bd : board) (ready : sensor_id -> bool) (es : list temp_event) :
  let r := thermal_run bd ready es in
  rebooted r.2 = true \/
  ((forall n i c x, table_ids bd !! n = Some i -> threshold bd i = Some c ->
      sensors r.2 !! n = Some x -> c < average x -> fan_at h UINT16_MAX (fan r.2) /\ forall p v, (handle_fan_speed h p v r.2).1 = ACK_OVER_TEMPERATURE) /\
   ((forall n i c x, table_ids bd !! n = Some i -> threshold bd i = Some c ->
      sensors r.2 !! n = Some x -> average x < c - OVERTEMP_TO_NOMINAL_DROP_C) -> fan_at h r.1 (fan r.2))).
Proof.
  assert (both (thermal_run bd ready es).1 bd (thermal_run bd ready es).2) as [I T].
  { unfold thermal_run. assert (both (value_of_percentage FAN_INITIAL_SPEED_PERCENT) bd (thermal_start bd ready)) as B
      by (split; [apply thermal_start_inv | apply start_good]). revert B.
    generalize (value_of_percentage FAN_INITIAL_SPEED_PERCENT) as req, (thermal_start bd ready) as s.
    induction es as [| e l IH]; intros req s B; cbn [temp_run]; [exact B |]. apply IH. by apply event_both. }
  cbv zeta. set (r := thermal_run bd ready es) in *. destruct T as [T | T]; [by left | right].
  destruct (inv_fan_rule h _ _ I) as (N & F & K). split.
  - intros n i c x Ei Et Ex Hc. assert (0 < over_count (sensors r.2)) as Hp; [| split; [| intros p v; by rewrite K]].
    + pose proof (Forall2_lookup_lr _ _ _ _ _ _ T Ei Ex) as G. apply good_info in G. rewrite Et in G.
      apply (over_count_some _ _ _ Ex). destruct (is_over x); [done | lia].
    + revert F. btrue (0 <? over_count (sensors r.2)). done.
  - intros Hall. assert (over_count (sensors r.2) = 0) as Hz; [| by rewrite Hz in F].
    apply over_count_none. intros x Hx. apply list_elem_of_lookup in Hx as [n Ex]. destruct (Forall2_lookup_r _ _ _ _ _ T Ex) as (i & Ei & G).
    apply good_info in G. destruct (threshold bd i) as [c |] eqn:Et; [| done]. specialize (Hall n i c x Ei Et Ex). destruct (is_over x); [lia | done].
Qed.
End FromStart.

(** Three turns at 82 degrees: the four sensors of the Pearl are hot, and the command in between is refused. *)
Lemma hot_sensor_full_speed_witness :
  let r := thermal_run FAN_EV3 10000 (fun ms => ms * 10) (fun _ => 0) (fun _ => false) Pearl (fun _ => true) demo_events in
  rebooted r.2 = false /\ fan_at FAN_EV3 UINT16_MAX (fan r.2).
Proof.
  set (r := thermal_run _ _ _ _ _ _ _ _). assert (rebooted r.2 = false) as R by (vm_compute; reflexivity). split; [exact R |].
  destruct (hot_sensor_full_speed FAN_EV3 10000 (fun ms => ms * 10) (fun _ => 0) (fun _ => false) Pearl (fun _ => true) demo_events) as [H | [H _]].
  - unfold r in R. rewrite R in H. discriminate H.
  - destruct (sensors r.2 !! 0%nat) as [x |] eqn:E.
    + refine (proj1 (H 0%nat MAIN_BOARD 80 x eq_refl eq_refl E _)).
      assert (average <$> (sensors r.2 !! 0%nat) = Some 82) as A by (vm_compute; reflexivity). rewrite E in A. injection A as ->. reflexivity.
    + assert (is_Some (sensors r.2 !! 0%nat)) as [y Ey] by (vm_compute; eauto). rewrite Ey in E. discriminate E.
Defined.

(** ** Readings *)

Section Die.
(** The calibration of the die sensor: two temperatures and the readings at them, under the reference voltage [cal_vref_mv]. *)
Context (cal1_temp cal2_temp cal1 cal2 cal_vref_mv : Z).

(** A 32-bit value, undefined when it overflows. *)
Definition i32 (z : Z) : option Z := if in_s32 z then Some z else None.
Definition div32 (a b : Z) : option Z := if b =? 0 then None else i32 (a ÷ b).

Definition calculate_die_temperature (vref_mv ts_data_raw : Z) : option Z :=
  a ← i32 ((cal2_temp - cal1_temp) * ts_data_raw);
  a ← i32 (a * vref_mv);
  a ← div32 a cal_vref_mv;
  a ← div32 a (cal2 - cal1);
  b ← i32 ((cal2_temp - cal1_temp) * cal1);
  b ← div32 b (cal2 - cal1);
  t ← i32 (a - b);
  t ← i32 (t + 30);
  Some (s16 t).

(** [get_die_temperature_degree]: code and value; [raw] is the answer of [voltage_measurement_get_raw]. *)
Definition get_die_temperature_degree (vref_mv : Z) (raw : Z * Z) : option (Z * option (Z * Z)) :=
  if raw.1 =? 0 then t ← calculate_die_temperature vref_mv raw.2; Some (0, Some (t, 0)) else Some (raw.1, None).

Definition calibrated : Prop :=
  cal1_temp = 30 /\ cal1_temp < cal2_temp <= cal1_temp + 200 /\ 0 < cal1 /\ cal1 + 100 <= cal2 < 4096 /\ 1000 <= cal_vref_mv < 4096.

Lemma i32_in z : -2147483648 <= z <= 2147483647 -> i32 z = Some z.
Proof. intros H. unfold i32, in_s32. by btrue (-2147483648 <=? z); btrue (z <=? 2147483647). Qed.

Lemma div32_in a b : 0 <= a <= 2147483647 -> 0 < b -> div32 a b = Some (a / b).
Proof.
  intros Ha Hb. unfold div32. bfalse (b =? 0). rewrite Z.quot_div_nonneg by lia. apply i32_in.
  pose proof (Z.div_pos a b ltac:(lia) Hb). pose proof (Z.div_le_upper_bound a b a Hb ltac:(nia)). lia.
Qed.

Lemma die_formula vref raw : calibrated -> 0 <= raw < 4096 -> 0 <= vref < 4096 -> (cal2_temp - cal1_temp) * (raw * vref) < 2 ^ 31 ->
  calculate_die_temperature vref raw =
    Some (30 + (cal2_temp - cal1_temp) * (raw * vref) / (cal_vref_mv * (cal2 - cal1)) - (cal2_temp - cal1_temp) * cal1 / (cal2 - cal1)).
Proof.
  intros (E & Ht & H1 & H2 & Hv) Hr Hf Hb. unfold calculate_die_temperature. set (D := cal2_temp - cal1_temp) in *. set (c := cal2 - cal1).
  assert (1 <= D <= 200 /\ 100 <= c < 4096) as [HD Hc] by lia. clearbody D c.
  assert (0 <= D * (raw * vref)) as Hn by nia. assert (0 <= D * raw <= 200 * 4095) as Hm by nia. assert (0 <= D * cal1 <= 200 * 4095) as Hk by nia.
  assert (0 <= D * (raw * vref) / cal_vref_mv <= 2147483) as Hq.
  { split; [apply Z.div_pos; lia |]. apply Z.lt_succ_r. apply Z.div_lt_upper_bound; [lia |]. nia. }
  assert (0 <= D * (raw * vref) / (cal_vref_mv * c) <= 21474) as Ha.
  { split; [apply Z.div_pos; nia |]. apply Z.lt_succ_r. apply Z.div_lt_upper_bound; nia. }
  assert (0 <= D * cal1 / c <= 8190) as Hd.
  { split; [apply Z.div_pos; nia |]. apply Z.lt_succ_r. apply Z.div_lt_upper_bound; nia. }
  rewrite (i32_in (D * raw)) by lia. cbn [mbind option_bind]. rewrite <- (Z.mul_assoc D raw vref), (i32_in (D * (raw * vref))) by lia.
  cbn [mbind option_bind]. rewrite (div32_in _ cal_vref_mv) by lia. cbn [mbind option_bind]. rewrite (div32_in _ c), Z.div_div by lia.
  cbn [mbind option_bind]. rewrite (i32_in (D * cal1)) by lia. cbn [mbind option_bind]. rewrite (div32_in (D * cal1) c) by lia.
  cbn [mbind option_bind]. rewrite i32_in by lia. cbn [mbind option_bind]. rewrite i32_in by lia. cbn [mbind option_bind].
  f_equal. rewrite s16_small by lia. lia.
Qed.

(** The die temperature is on the line through the two calibration points, within one degree, and exact at both points;
    no step of the 32-bit computation overflows. *)
Theorem die_temperature_on_the_line (vref raw : Z) (Hc : calibrated) (Hr : 0 <= raw < 4096) (Hv : 0 <= vref < 4096)
  (Hb : (cal2_temp - cal1_temp) * (raw * vref) < 2 ^ 31) :
  exists t, calculate_die_temperature vref raw = Some t /\
    Z.abs ((t - cal1_temp) * (cal_vref_mv * (cal2 - cal1)) - (cal2_temp - cal1_temp) * (raw * vref - cal1 * cal_vref_mv)) < cal_vref_mv * (cal2 - cal1) /\
    (vref = cal_vref_mv -> (raw = cal1 -> t = cal1_temp) /\ (raw = cal2 -> t = cal2_temp)).
Proof.
  rewrite (die_formula vref raw Hc Hr Hv Hb). destruct Hc as (E & Ht & H1 & H2 & Hw).
  eexists. split; [done |]. rewrite E in *. clear Hb. remember (cal2_temp - 30) as D eqn:ED. assert (cal2_temp = 30 + D) as -> by lia.
  remember (cal2 - cal1) as c eqn:Ec. assert (cal2 = cal1 + c) as -> by lia. assert (100 <= c < 4096 /\ 1 <= D) as [Hc HD] by lia. clear ED Ec.
  assert (D * cal1 / c = D * (cal1 * cal_vref_mv) / (cal_vref_mv * c)) as Eq.
  { replace (D * (cal1 * cal_vref_mv)) with (cal_vref_mv * (D * cal1)) by ring. by rewrite Z.div_mul_cancel_l by lia. }
  split.
  - rewrite Eq. assert (0 < cal_vref_mv * c) as Hp by nia.
    pose proof (Z.div_mod (D * (raw * vref)) (cal_vref_mv * c) ltac:(lia)) as A. pose proof (Z.mod_pos_bound (D * (raw * vref)) (cal_vref_mv * c) Hp).
    pose proof (Z.div_mod (D * (cal1 * cal_vref_mv)) (cal_vref_mv * c) ltac:(lia)) as B. pose proof (Z.mod_pos_bound (D * (cal1 * cal_vref_mv)) (cal_vref_mv * c) Hp).
    set (q := cal_vref_mv * c) in *. set (x := D * (raw * vref) / q) in *. set (y := D * (cal1 * cal_vref_mv) / q) in *.
    rewrite (Z.mul_sub_distr_l D). set (u := D * (raw * vref)) in *. set (w := D * (cal1 * cal_vref_mv)) in *. clearbody u w x y q. nia.
  - intros ->. split; intros ->.
    + rewrite <- Eq. lia.
    + rewrite Eq. replace (D * ((cal1 + c) * cal_vref_mv)) with (D * (cal1 * cal_vref_mv) + D * (cal_vref_mv * c)) by ring.
      rewrite Z.div_add by nia. lia.
Qed.
End Die.

(** The calibration of an STM32G4 with typical readings, at 3.0 V and a supply of 3.3 V. *)
Lemma die_temperature_on_the_line_witness : exists t, calculate_die_temperature 30 130 1037 1380 3000 3300 1000 = Some t /\ t = 48.
Proof.
  destruct (die_temperature_on_the_line 30 130 1037 1380 3000 3300 1000) as (t & E & _); try (unfold calibrated; lia).
  exists t. split; [exact E |]. vm_compute in E. injection E as <-. reflexivity.
Defined.

(** What the world answers to a reading: the die (reference, code and raw value), the device, the lock of the bus, the fetch,
    and the value of the channel. *)
Record ambient := Ambient {
  am_die : Z * (Z * Z);
  am_ready : bool;
  am_lock : bool;
  am_fetch : Z;
  am_get : Z * (Z * Z);
}.

(** [(float)val1 + (float)val2 / 1000000.0f]. *)
Definition temp_float (v : Z * Z) : spec_float := fadd (flt v.1 0) (fdiv (flt v.2 0) (flt 1000000 0)).

(** [get_ambient_temperature]: code, and [*temp] when it is written; [None] where the die's computation overflows.  [die] is
    [get_die_temperature_degree] with the calibration of the chip. *)
Definition get_ambient_temperature (die : Z -> Z * Z -> option (Z * option (Z * Z))) (is_die : bool) (w : ambient) : option (Z * option Z) :=
  let finish v := t ← to_s32 (sf_round (temp_float v)); Some (RET_SUCCESS, Some t) in
  if is_die then
    r ← die (am_die w).1 (am_die w).2; match r.2 with Some v => finish v | None => Some (r.1, None) end
  else if negb (am_ready w) then Some (RET_ERROR_NOT_INITIALIZED, None)
  else if negb (am_lock w) then Some (RET_ERROR_BUSY, None)
  else if negb (am_fetch w =? 0) then Some (RET_ERROR_INTERNAL, None)
  else if negb ((am_get w).1 =? 0) then Some (RET_ERROR_INTERNAL, None)
  else finish (am_get w).2.

(** The nearest degree to [sixteenths / 16], halves away from zero. *)
Definition nearest_degree (k : Z) : Z := if 0 <=? k then (k + 8) / 16 else - ((- k + 8) / 16).

Lemma temp_float_rounds k : -(55 * 16) <= k <= 150 * 16 -> to_s32 (sf_round (temp_float (k ÷ 16, Z.rem k 16 * 62500))) = Some (nearest_degree k).
Proof.
  intros Hk. pose proof (all_below_spec (205 * 16 + 1)
    (fun j => let k := j - 55 * 16 in bool_decide (to_s32 (sf_round (temp_float (k ÷ 16, Z.rem k 16 * 62500))) = Some (nearest_degree k)))) as A.
  specialize (A ltac:(vm_compute; reflexivity) (k + 55 * 16) ltac:(lia)). cbv zeta in A. apply bool_decide_eq_true in A.
  by replace (k + 55 * 16 - 55 * 16) with k in A by lia.
Qed.

(** How a temperature is read.  On a TMP112 (sixteenths of a degree, from -55 to 150) the value is the nearest degree, halves
    away from zero; the first thing that fails gives its code and leaves the value alone, and a device that is not ready
    or a bus that is not obtained within 200 ms is not fetched. *)
Theorem ambient_read (die : Z -> Z * Z -> option (Z * option (Z * Z))) (w : ambient) (k : Z) (Hk : -(55 * 16) <= k <= 150 * 16)
  (Hv : (am_get w).2 = (k ÷ 16, Z.rem k 16 * 62500)) :
  get_ambient_temperature die false w =
    Some (if negb (am_ready w) then (RET_ERROR_NOT_INITIALIZED, None)
          else if negb (am_lock w) then (RET_ERROR_BUSY, None)
          else if (am_fetch w =? 0) && ((am_get w).1 =? 0) then (RET_SUCCESS, Some (nearest_degree k))
          else (RET_ERROR_INTERNAL, None)).
Proof.
  unfold get_ambient_temperature. destruct (am_ready w), (am_lock w); cbn [negb]; try done.
  destruct (am_fetch w =? 0), ((am_get w).1 =? 0); cbn [negb andb]; try done. rewrite Hv, temp_float_rounds by done. done.
Qed.

Lemma ambient_read_witness :
  get_ambient_temperature (fun _ _ => None) false (Ambient (0, (0, 0)) true true 0 (0, (-10, -500000))) = Some (RET_SUCCESS, Some (-11)).
Proof. exact (ambient_read (fun _ _ => None) (Ambient (0, (0, 0)) true true 0 (0, (-10, -500000))) (-168) ltac:(lia) eq_refl). Defined.

(** The die is read without the bus: with a code of the ADC the value is left alone, otherwise it is the computed one. *)
Example die_read :
  get_ambient_temperature (get_die_temperature_degree 30 130 1037 1380 3000) true (Ambient (3300, (0, 1000)) false false 5 (5, (0, 0))) = Some (RET_SUCCESS, Some 48)
  /\ get_ambient_temperature (get_die_temperature_degree 30 130 1037 1380 3000) true (Ambient (3300, (-22, 1000)) true true 0 (0, (0, 0))) = Some (-22, None).
Proof. split; vm_compute; reflexivity. Qed.
