(* ===== verification/Cli.v ===== *)
(** main_board/src/cli/cli.c: the commands of the debug shell.

    A line of the shell is a list of words; a command reads numbers in them with the C library's [strtoul] and [strtol], checks some, and
    calls the components or hands a message to the runner, as the Jetson would.  The components are behind an interface,
    [CliTarget]; what is printed is left out, apart from the calls it needs.  [strtof] and the numbers of the enumerations of the messages, which are
    generated, are parameters. *)

From Stdlib Require Import SpecFloat Ascii String.
From stdpp Require Import strings pretty.
From S2P Require Import Prelude Floats Flash Can Uart Dfu Config IrTimer IrCamera Mirror Fan Temperature Polarizer.
From S2P Require Import Power Reboot Voltage Heartbeat Ping LiquidLens RunnerQueue Runner.

Local Open Scope Z_scope.

(** ** The C library: numbers in strings *)

Definition code (c : ascii) : Z := Z.of_N (N_of_ascii c).
Definition is_space (c : ascii) : bool := (code c =? 32) || (9 <=? code c) && (code c <=? 13).

(** 99 for what is no digit in any base. *)
Definition digit_value (c : ascii) : Z :=
  let n := code c in
  if (48 <=? n) && (n <=? 57) then n - 48
  else if (65 <=? n) && (n <=? 90) then n - 55
  else if (97 <=? n) && (n <=? 122) then n - 87
  else 99.

Fixpoint skip_spaces (s : string) : string :=
  match s with String c r => if is_space c then skip_spaces r else s | EmptyString => EmptyString end.

Fixpoint digits (base : Z) (s : string) (v : Z) : Z * string :=
  match s with
  | String c r => if digit_value c <? base then digits base r (base * v + digit_value c) else (v, s)
  | EmptyString => (v, EmptyString)
  end.

(** Whether there is a minus sign, and what follows the sign. *)
Definition sign (s : string) : bool * string :=
  match s with
  | String c r => if code c =? 45 then (true, r) else if code c =? 43 then (false, r) else (false, s)
  | EmptyString => (false, s)
  end.

(** The base, found in the prefix when it is 0, and what follows the prefix. *)
Definition radix (base : Z) (s : string) : Z * string :=
  match s with
  | String z (String x (String d r)) =>
      if ((base =? 0) || (base =? 16)) && (code z =? 48) && ((code x =? 120) || (code x =? 88)) && (digit_value d <? 16)
      then (16, String d r)
      else if base =? 0 then (if code z =? 48 then 8 else 10, s) else (base, s)
  | String z _ => if base =? 0 then (if code z =? 48 then 8 else 10, s) else (base, s)
  | EmptyString => (if base =? 0 then 10 else base, s)
  end.

(** The sign, the value and the end; no value when there is no digit, and the end is then the beginning. *)
Definition strto (base : Z) (s : string) : option (bool * Z) * string :=
  let '(negative, r) := sign (skip_spaces s) in
  let '(base, r) := radix base r in
  match r with
  | String c _ => if digit_value c <? base then let '(v, e) := digits base r 0 in (Some (negative, v), e) else (None, s)
  | EmptyString => (None, s)
  end.

(** [long] has 32 bits. *)
Definition ULONG_MAX : Z := 4294967295.
Definition strtoul_end (base : Z) (s : string) : Z * string :=
  match strto base s with
  | (Some (negative, v), e) => (if ULONG_MAX <? v then ULONG_MAX else if negative : bool then u32 (- v) else v, e)
  | (None, e) => (0, e)
  end.
Definition strtoul (base : Z) (s : string) : Z := (strtoul_end base s).1.
Definition strtol (base : Z) (s : string) : Z :=
  match (strto base s).1 with
  | Some (negative, v) => if negative : bool then Z.max (-2147483648) (- v) else Z.min 2147483647 v
  | None => 0
  end.

(** ** The components *)

Inductive cli_effect :=
| RunnerHandleNewCli (c : jetson_cmd)
| RunnerSuccessfulJobsCount
| VersionPrint | OrbStateDump | BatteryDumpStats | DatePrint
| PingSec
| PolarizerSetAcceleration (a : Z) | PolarizerSetMaxSpeed (v : Z) | PolarizerCalibrateAsync | PolarizerGetBumpWidths | PolarizerHomed
| DfuSecondaryActivate (permanent : bool)
| ConfigGetRebootBehavior | ConfigSetRebootBehavior (v : Z).

(** The code or the value returned (0 for the functions without one), and the new state; [None]: it does not return. *)
Class CliTarget (X : Type) := cli_call : cli_effect -> X -> option (Z * X).

(** The enumerations of the messages. *)
Class Enums := {
  homing_mode_of : Z -> homing_mode;
  homing_axis_of : Z -> homing_axis;
  power_line_of : Z -> power_line;
  wavelength_of : Z -> wavelength_e;
  WAVELENGTH_940NM_SINGLE_ : Z;
  USER_RGB_ONLY_CENTER : Z;
  OPERATOR_BOOT_ANIMATION : Z;
  OPERATOR_RGB : Z;
}.

Section Cli.
Context {X : Type} `{CliTarget X} `{Enums} (b : board) (strtof : string -> spec_float).

Definition cli (A : Type) : Type := X -> option (A * X).
#[export] Instance cli_ret : MRet cli := fun _ a x => Some (a, x).
#[export] Instance cli_bind : MBind cli := fun _ _ k m x => match m x with Some (a, x) => k a x | None => None end.

Definition do_ (e : cli_effect) : cli Z := cli_call e.
Definition runner_handle_new_cli_ (c : jetson_cmd) : cli Z := do_ (RunnerHandleNewCli c).

Definition arg (n : nat) (argv : list string) : string := default EmptyString (argv !! n).
Definition argc (argv : list string) : Z := zlen argv.
Definition streq (s t : string) : bool := String.eqb s t.
Definition u (n : nat) (argv : list string) : Z := strtoul 10 (arg n argv).
Definition u0 (n : nat) (argv : list string) : Z := strtoul 0 (arg n argv).

(** [if (ret != RET_SUCCESS) return -EIO;], the end of most commands. *)
Definition or_eio (m : cli Z) : cli Z := ret ← m; mret (if ret =? RET_SUCCESS then 0 else - EIO).

(** ** The commands, on [argv] *)

Definition execute_reboot (argv : list string) : cli Z :=
  if argc argv <? 2 then mret (- EINVAL)
  else let delay := u 1 argv in
  if 60 <? delay then mret (- EINVAL) else runner_handle_new_cli_ (RebootCmd delay).

Definition execute_version (argv : list string) : cli Z := do_ VersionPrint;; mret 0.
Definition execute_state (argv : list string) : cli Z := do_ OrbStateDump;; mret 0.
Definition execute_battery (argv : list string) : cli Z := do_ BatteryDumpStats;; mret 0.

(** The member [which_payload] stays 0. *)
Definition execute_fan (argv : list string) : cli Z :=
  if argc argv <? 2 then mret (- EINVAL)
  else let speed := u 1 argv in
  if 100 <? speed then mret (- EINVAL) else runner_handle_new_cli_ (FanSpeedCmd FanLegacy speed).

Definition execute_mirror (argv : list string) : cli Z :=
  if argc argv <? 3 then mret (- EINVAL) else runner_handle_new_cli_ (MirrorAngleCmd (Some (PhiTheta (u 1 argv) (u 2 argv)))).

Definition execute_heartbeat (argv : list string) : cli Z :=
  if argc argv <? 2 then mret (- EINVAL) else runner_handle_new_cli_ (HeartbeatCmd (u 1 argv)).

Definition execute_voltage (argv : list string) : cli Z :=
  if argc argv <? 2 then mret (- EINVAL) else runner_handle_new_cli_ (VoltageRequestCmd (u 1 argv)).

Definition execute_liquid_lens (argv : list string) : cli Z :=
  if argc argv <? 3 then mret (- EINVAL)
  else runner_handle_new_cli_ (LiquidLensCmd (strtol 10 (arg 1 argv)) (streq (arg 2 argv) "1" || streq (arg 2 argv) "true")).

Definition execute_homing (argv : list string) : cli Z :=
  if argc argv <? 3 then mret (- EINVAL)
  else runner_handle_new_cli_ (DoHomingCmd (homing_mode_of (u 1 argv)) (homing_axis_of (if argc argv =? 3 then u 2 argv else 0))).

Definition execute_fps (argv : list string) : cli Z :=
  if argc argv <? 2 then mret (- EINVAL) else runner_handle_new_cli_ (FpsCmd (u 1 argv)).

Definition execute_user_leds (argv : list string) : cli Z :=
  if argc argv <? 2 then mret (- EINVAL)
  else let pattern := strtol 10 (arg 1 argv) in
  if (pattern <? 0) || (USER_RGB_ONLY_CENTER <? pattern) then mret (- EINVAL)
  else
    or_eio (runner_handle_new_cli_ (UserLedsPatternCmd pattern
      (if 2 <? argc argv then u 2 argv else 0)
      (if 3 <? argc argv then strtol 10 (arg 3 argv) else 360)
      (if 6 <? argc argv then Some (u 4 argv, u 5 argv, u 6 argv) else None)
      (if 7 <? argc argv then u 7 argv else 1000)
      (if 8 <? argc argv then strtof (arg 8 argv) else flt 1 0))).

(** A pattern that does not exist is left at 0; the colors are [uint8_t]. *)
Definition execute_op_leds (argv : list string) : cli Z :=
  if argc argv <? 2 then mret (- EINVAL)
  else if streq (arg 1 argv) "pattern" then
    if argc argv <? 3 then mret (- EINVAL)
    else
      let pattern_id := strtol 0 (arg 2 argv) in
      let pattern := if (0 <=? pattern_id) && (pattern_id <=? OPERATOR_BOOT_ANIMATION) then pattern_id else 0 in
      let mask := if 4 <=? argc argv then u0 3 argv else OPERATOR_LEDS_ALL_MASK b in
      let color := if 7 <=? argc argv then (u8 (u0 4 argv), u8 (u0 5 argv), u8 (u0 6 argv)) else (0, 0, 0) in
      or_eio (runner_handle_new_cli_ (DistributorLedsPatternCmd pattern mask (pattern =? OPERATOR_RGB) color))
  else if streq (arg 1 argv) "brightness" then
    if argc argv <? 3 then mret (- EINVAL)
    else let brightness := u0 2 argv in
    if 255 <? brightness then mret (- EINVAL) else or_eio (runner_handle_new_cli_ (DistributorLedsBrightnessCmd brightness))
  else mret (- EINVAL).

Definition execute_power_cycle (argv : list string) : cli Z :=
  if argc argv <=? 2 then mret (- EINVAL)
  else or_eio (runner_handle_new_cli_ (PowerCycleCmd (power_line_of (u 1 argv)) (if argc argv =? 3 then u 2 argv else 0))).

Definition execute_date (argv : list string) : cli Z :=
  if argc argv =? 1 then do_ DatePrint;; mret 0
  else if negb (argc argv =? 6) then mret (- EINVAL)
  else or_eio (runner_handle_new_cli_ (SetTimeCmd (HumanReadable (u 1 argv) (u 2 argv) (u 3 argv) (u 4 argv) (u 5 argv) 0))).

Definition execute_white_leds (argv : list string) : cli Z :=
  if negb (argc argv =? 2) then mret (- EINVAL)
  else let brightness := u 1 argv in
  if 1000 <? brightness then mret (- EINVAL) else or_eio (runner_handle_new_cli_ (WhiteLedsBrightnessCmd brightness)).

(** *** The polarizer wheel *)

Record options_t := Options {
  shortest_path : bool;
  opt_max_speed : Z;
  opt_acceleration : Z;
  constant_speed : Z;
  accel_set : bool;
  max_speed_set : bool;
}.
Definition default_options : options_t := Options false 200 8000 0 false false.

(** A number that ends with the word. *)
Definition whole_number (s : string) : option Z :=
  let '(v, e) := strtoul_end 10 s in if streq e "" then Some v else None.

(** The loop over the words from the third on; [None]: a number is refused.  A word that is no option, and an option
    without its number at the end of the line, are skipped. *)
Fixpoint options (args : list string) (o : options_t) : option options_t :=
  match args with
  | [] => Some o
  | a :: rest =>
      if streq a "-s" || streq a "--shortest" then
        options rest (Options true (opt_max_speed o) (opt_acceleration o) (constant_speed o) (accel_set o) (max_speed_set o))
      else
        match rest with
        | [] => Some o
        | v :: rest' =>
            if streq a "-a" || streq a "--acceleration" then
              v ← whole_number v;
              options rest' (Options (shortest_path o) (opt_max_speed o) v (constant_speed o) true (max_speed_set o))
            else if streq a "-m" || streq a "--max-speed" then
              v ← whole_number v;
              options rest' (Options (shortest_path o) v (opt_acceleration o) (constant_speed o) (accel_set o) true)
            else if streq a "-c" || streq a "--constant-speed" then
              v ← whole_number v;
              options rest' (Options (shortest_path o) (opt_max_speed o) (opt_acceleration o) v (accel_set o) (max_speed_set o))
            else options rest o
        end
  end.

Inductive polarizer_action := Hand (c : jetson_cmd) | Calibrate | Status | RefuseLine.

(** What is done once the settings are applied. *)
Definition polarizer_action_of (argv : list string) (o : options_t) : polarizer_action :=
  let position c angle := Hand (PolarizerCmd c (constant_speed o) angle (shortest_path o)) in
  if streq (arg 1 argv) "home" then Hand (PolarizerCmd POLARIZER_HOME 0 0 (shortest_path o))
  else if streq (arg 1 argv) "calibrate" then Calibrate
  else if streq (arg 1 argv) "status" then Status
  else if streq (arg 1 argv) "pass_through" then position POLARIZER_PASS_THROUGH 0
  else if streq (arg 1 argv) "horizontal" then position POLARIZER_0_HORIZONTAL 0
  else if streq (arg 1 argv) "vertical" then position POLARIZER_90_VERTICAL 0
  else if streq (arg 1 argv) "angle" then
    if argc argv <? 3 then RefuseLine
    else match whole_number (arg 2 argv) with Some angle => position POLARIZER_CUSTOM_ANGLE angle | None => RefuseLine end
  else RefuseLine.

Definition execute_polarizer (argv : list string) : cli Z :=
  if argc argv <? 2 then mret (- EINVAL)
  else
    match options (drop 2 argv) default_options with
    | None => mret (- EINVAL)
    | Some o =>
        if negb (constant_speed o =? 0) && (accel_set o || max_speed_set o) then mret (- EINVAL)
        else
          do_ (PolarizerSetAcceleration (opt_acceleration o));;
          do_ (PolarizerSetMaxSpeed (opt_max_speed o));;
          match polarizer_action_of argv o with
          | Hand c => or_eio (runner_handle_new_cli_ c)
          | Calibrate => or_eio (do_ PolarizerCalibrateAsync)
          | Status => do_ PolarizerGetBumpWidths;; do_ PolarizerHomed;; mret 0
          | RefuseLine => mret (- EINVAL)
          end
    end.

(** *** The others *)

Definition execute_ir_leds (argv : list string) : cli Z :=
  if argc argv <? 3 then mret (- EINVAL)
  else let wavelength := u 1 argv in let duration_us := u 2 argv in
  if WAVELENGTH_940NM_SINGLE_ <? wavelength then mret (- EINVAL)
  else if IR_CAMERA_SYSTEM_MAX_IR_LED_ON_TIME_US b <? duration_us then mret (- EINVAL)
  else
    ret ← runner_handle_new_cli_ (LedOnTimeCmd duration_us);
    if negb (ret =? RET_SUCCESS) then mret (- EIO)
    else or_eio (runner_handle_new_cli_ (InfraredLedsCmd (wavelength_of wavelength))).

Definition execute_runner_stats (argv : list string) : cli Z := do_ RunnerSuccessfulJobsCount;; mret 0.
Definition execute_ping_sec (argv : list string) : cli Z := do_ PingSec;; mret 0.

Definition execute_dfu_secondary_activate (argv : list string) : cli Z :=
  if negb (argc argv =? 2) then mret (- EINVAL)
  else if streq (arg 1 argv) "permanent" then do_ (DfuSecondaryActivate true)
  else if streq (arg 1 argv) "temporary" then do_ (DfuSecondaryActivate false)
  else mret (- EINVAL).

Definition execute_boot_config (argv : list string) : cli Z :=
  if argc argv <? 2 then do_ ConfigGetRebootBehavior;; mret 0
  else if streq (arg 1 argv) "always_on" then do_ (ConfigSetRebootBehavior BOOT_AUTO_ALWAYS_ON)
  else if streq (arg 1 argv) "button" then do_ (ConfigSetRebootBehavior BOOT_BUTTON_PRESS)
  else mret (- EINVAL).

Definition sub_orb : list (string * (list string -> cli Z)) :=
  [("reboot", execute_reboot); ("version", execute_version); ("state", execute_state); ("battery", execute_battery);
   ("fan", execute_fan); ("mirror", execute_mirror); ("user_leds", execute_user_leds); ("op_leds", execute_op_leds);
   ("fps", execute_fps); ("liquid_lens", execute_liquid_lens); ("homing", execute_homing); ("heartbeat", execute_heartbeat);
   ("voltage", execute_voltage); ("power_cycle", execute_power_cycle); ("date", execute_date); ("ir_leds", execute_ir_leds)]%string ++
  (match b with Diamond => [("white_leds", execute_white_leds); ("polarizer", execute_polarizer)]%string | Pearl => [] end) ++
  [("boot_config", execute_boot_config); ("stats", execute_runner_stats); ("ping_sec", execute_ping_sec);
   ("dfu_secondary_activate", execute_dfu_secondary_activate)]%string.

Fixpoint find_command (name : string) (l : list (string * (list string -> cli Z))) : option (list string -> cli Z) :=
  match l with [] => None | (n, f) :: l => if streq name n then Some f else find_command name l end.

(** The line after [orb]: the shell finds the command by its first word, and calls it with the words.  The code, none when there
    is no such command. *)
Definition orb_line (argv : list string) : cli (option Z) :=
  match find_command (arg 0 argv) sub_orb with
  | Some f => ret ← f argv; mret (Some ret)
  | None => mret None
  end.
End Cli.
