(* ===== verification/CliFacts.v ===== *)
(** What a line typed in the shell of [Cli] does: numbers are read as they are printed; a refused line changes nothing; what
    reaches the runner keeps the limits of each command, so that the actuators stay safe. *)

From Stdlib Require Import SpecFloat Ascii String.
From stdpp Require Import strings pretty.
From S2P Require Import Prelude Floats PolarizerHoming Flash Can Uart Dfu Config IrTimer IrCamera Mirror Fan Temperature Polarizer.
From S2P Require Import Power Reboot Voltage Heartbeat Ping LiquidLens RunnerQueue Runner RunnerFacts Cli.

Local Open Scope Z_scope.

(** ** Numbers *)

Lemma digit_value_bound c : 0 <= digit_value c <= 99.
Proof. unfold digit_value. assert (0 <= code c) by (unfold code; lia). repeat case_match; try lia; rewrite ?andb_true_iff in *; lia. Qed.

Lemma digits_nonneg base s : 0 <= base -> forall v, 0 <= v -> 0 <= (digits base s v).1.
Proof.
  intros Hb. induction s as [| c s IH]; intros v Hv; cbn [digits]; [done |]. destruct (_ <? base); [| done].
  apply IH. pose proof (digit_value_bound c). nia.
Qed.

Lemma strto_nonneg base s neg v : 0 <= base -> (strto base s).1 = Some (neg, v) -> 0 <= v.
Proof.
  intros Hb. unfold strto. destruct (sign _) as [n r]. destruct (radix base r) as [base' r'] eqn:E.
  assert (0 <= base') as Hb'.
  { unfold radix in E. repeat case_match; simplify_eq; lia. }
  destruct r' as [| c r'']; [done |]. destruct (_ <? base'); [| done].
  pose proof (digits_nonneg base' (String c r'') Hb' 0 ltac:(lia)) as D. destruct (digits _ _ _) as [w e]. cbn. by intros [= _ <-].
Qed.

Definition in_u32 (z : Z) : Prop := 0 <= z < 4294967296.

Lemma strtoul_range base s : 0 <= base -> in_u32 (strtoul base s).
Proof.
  intros Hb. unfold strtoul, strtoul_end, in_u32, ULONG_MAX. pose proof (strto_nonneg base s) as N.
  destruct (strto base s) as [[[neg v] |] e]; cbn [fst] in *; [| lia]. specialize (N neg v Hb eq_refl).
  destruct (Z.ltb_spec 4294967295 v); [lia |]. destruct neg; [| lia]. apply u32_range.
Qed.

Lemma whole_number_range s v : whole_number s = Some v -> in_u32 v.
Proof.
  unfold whole_number. pose proof (strtoul_range 10 s ltac:(lia)) as R. unfold strtoul in R. destruct (strtoul_end 10 s) as [w e].
  by destruct (streq e ""); intros [= <-].
Qed.

(** ** What a line may do *)

Section Typed.
Context `{Enums} (b : board).

(** The commands the shell may hand to the runner. *)
Definition typed_ok (c : jetson_cmd) : Prop :=
  match c with
  | RebootCmd d => 0 <= d <= 60
  | FanSpeedCmd w v => w = FanLegacy /\ 0 <= v <= 100
  | MirrorAngleCmd (Some (PhiTheta p t)) => in_u32 p /\ in_u32 t
  | HeartbeatCmd v | VoltageRequestCmd v | FpsCmd v => in_u32 v
  | LiquidLensCmd _ _ | DoHomingCmd _ _ => True
  | UserLedsPatternCmd p a _ _ per _ => 0 <= p <= USER_RGB_ONLY_CENTER /\ in_u32 a /\ in_u32 per
  | DistributorLedsPatternCmd p m rgb _ => 0 <= p <= Z.max 0 OPERATOR_BOOT_ANIMATION /\ in_u32 m /\ rgb = (p =? OPERATOR_RGB)
  | DistributorLedsBrightnessCmd v => 0 <= v <= 255
  | PowerCycleCmd _ d => in_u32 d
  | SetTimeCmd (HumanReadable y mo d h mi s) => in_u32 y /\ in_u32 mo /\ in_u32 d /\ in_u32 h /\ in_u32 mi /\ s = 0
  | WhiteLedsBrightnessCmd v => b = Diamond /\ 0 <= v <= 1000
  | PolarizerCmd c speed angle _ => b = Diamond /\ c <> POLARIZER_CALIBRATE_HOME /\ in_u32 speed /\ in_u32 angle
  | LedOnTimeCmd t => 0 <= t <= IR_CAMERA_SYSTEM_MAX_IR_LED_ON_TIME_US b
  | InfraredLedsCmd w => exists n, 0 <= n <= WAVELENGTH_940NM_SINGLE_ /\ w = wavelength_of n
  | _ => False
  end.

Definition effect_ok (e : cli_effect) : Prop :=
  match e with
  | RunnerHandleNewCli c => typed_ok c
  | PolarizerSetAcceleration v | PolarizerSetMaxSpeed v => b = Diamond /\ in_u32 v
  | PolarizerCalibrateAsync | PolarizerGetBumpWidths | PolarizerHomed => b = Diamond
  | ConfigSetRebootBehavior v => valid_behavior v = true
  | _ => True
  end.

Context {X : Type} `{CliTarget X} (strtof : string -> spec_float) (I : X -> Prop).
Context (effect_keeps : forall e x r x', effect_ok e -> I x -> cli_call e x = Some (r, x') -> I x').

Definition keeps {A} (m : cli A) : Prop := forall x r x', I x -> m x = Some (r, x') -> I x'.

Lemma keeps_ret {A} (a : A) : keeps (mret a).
Proof. by intros x r x' Hx [= _ <-]. Qed.
Lemma keeps_bind {A B} (m : cli A) (k : A -> cli B) : keeps m -> (forall a, keeps (k a)) -> keeps (m ≫= k).
Proof.
  intros Hm Hk x r x' Hx E. unfold mbind, cli_bind in E. destruct (m x) as [[a y] |] eqn:Em; [| done]. eapply Hk; [by eapply Hm | exact E].
Qed.
Lemma keeps_do e : effect_ok e -> keeps (do_ e).
Proof. intros He x r x' Hx E. by eapply effect_keeps. Qed.
Lemma keeps_if {A} (e : bool) (m k : cli A) : (e = true -> keeps m) -> (e = false -> keeps k) -> keeps (if e then m else k).
Proof. destruct e; auto. Qed.
Lemma keeps_eio m : keeps m -> keeps (or_eio m).
Proof. intros Hm. apply keeps_bind; [exact Hm | intros a; apply keeps_ret]. Qed.

Lemma u_range n argv : in_u32 (u n argv).
Proof. apply strtoul_range. lia. Qed.
Lemma u0_range n argv : in_u32 (u0 n argv).
Proof. apply strtoul_range. lia. Qed.
Lemma OPERATOR_LEDS_ALL_MASK_range : in_u32 (OPERATOR_LEDS_ALL_MASK b).
Proof. unfold in_u32. destruct b; cbn; lia. Qed.

(** Through a command, to its calls. *)
Ltac walk_line :=
  repeat first
    [ simple apply keeps_ret | simple apply keeps_eio | simple apply keeps_bind; [| intros ?]
    | simple apply keeps_do; cbn [effect_ok typed_ok]
    | simple apply keeps_if; intros ? ].
Ltac ranges :=
  repeat match goal with
  | |- context [u ?n ?a] => lazymatch goal with _ : in_u32 (u n a) |- _ => fail | _ => pose proof (u_range n a) end
  | |- context [u0 ?n ?a] => lazymatch goal with _ : in_u32 (u0 n a) |- _ => fail | _ => pose proof (u0_range n a) end
  end; pose proof OPERATOR_LEDS_ALL_MASK_range; unfold in_u32 in *; rewrite ?orb_false_iff, ?andb_true_iff in *;
  repeat match goal with |- _ /\ _ => split | |- context [if ?e then _ else _] => destruct e eqn:? end; try done; try lia.

Lemma simple_lines_keep argv :
  keeps (execute_reboot argv) /\ keeps (execute_fan argv) /\ keeps (execute_mirror argv) /\ keeps (execute_heartbeat argv) /\
  keeps (execute_voltage argv) /\ keeps (execute_liquid_lens argv) /\ keeps (execute_homing argv) /\ keeps (execute_fps argv) /\
  keeps (execute_user_leds strtof argv) /\ keeps (execute_op_leds b argv) /\ keeps (execute_power_cycle argv) /\ keeps (execute_date argv).
Proof.
  repeat apply conj; unfold execute_reboot, execute_fan, execute_mirror, execute_heartbeat, execute_voltage, execute_liquid_lens,
    execute_homing, execute_fps, execute_user_leds, execute_op_leds, execute_power_cycle, execute_date, runner_handle_new_cli_;
    cbv zeta; walk_line; ranges.
Qed.

Lemma options_range args : forall o o', options args o = Some o' ->
  in_u32 (opt_max_speed o) /\ in_u32 (opt_acceleration o) /\ in_u32 (constant_speed o) ->
  in_u32 (opt_max_speed o') /\ in_u32 (opt_acceleration o') /\ in_u32 (constant_speed o').
Proof.
  induction args as [args IH] using (induction_ltof1 _ (@List.length string)). unfold ltof in IH.
  destruct args as [| a rest]; intros o o' E R; cbn [options] in E; [by injection E as <- |].
  destruct (streq a "-s" || streq a "--shortest"); [by apply (IH rest ltac:(cbn; lia) _ _ E) |].
  destruct rest as [| v rest']; [by injection E as <- |].
  pose proof (whole_number_range v) as W. destruct (whole_number v) as [w |]; cbn [mbind option_bind] in E.
  2: { repeat (destruct (_ || _); [done |]). by apply (IH (v :: rest') ltac:(cbn; lia) _ _ E). }
  specialize (W w eq_refl).
  repeat (destruct (_ || _); [apply (IH rest' ltac:(cbn; lia) _ _ E); cbn; tauto |]).
  by apply (IH (v :: rest') ltac:(cbn; lia) _ _ E).
Qed.

Lemma default_options_range : in_u32 (opt_max_speed default_options) /\ in_u32 (opt_acceleration default_options) /\ in_u32 (constant_speed default_options).
Proof. unfold in_u32. cbn. lia. Qed.

Lemma polarizer_keeps argv : b = Diamond -> keeps (execute_polarizer argv).
Proof.
  intros Hb. unfold execute_polarizer, runner_handle_new_cli_. simple apply keeps_if; intros _; [simple apply keeps_ret |].
  destruct (options _ _) as [o |] eqn:E; [| simple apply keeps_ret]. destruct (options_range _ _ _ E default_options_range) as (R1 & R2 & R3).
  simple apply keeps_if; intros _; [simple apply keeps_ret |].
  simple apply keeps_bind; [by simple apply keeps_do | intros _]. simple apply keeps_bind; [by simple apply keeps_do | intros _].
  destruct (polarizer_action_of argv o) as [c | | |] eqn:A; walk_line; try done.
  unfold polarizer_action_of in A. assert (in_u32 0) as Z0 by (unfold in_u32; lia).
  repeat match type of A with context [if ?e then _ else _] => destruct e end; try discriminate A.
  all: try (injection A as <-; done).
  pose proof (whole_number_range (arg 2 argv)) as W. destruct (whole_number (arg 2 argv)) as [w |]; [| done]. injection A as <-. by specialize (W w eq_refl).
Qed.

Lemma other_lines_keep argv :
  keeps (execute_version argv) /\ keeps (execute_state argv) /\ keeps (execute_battery argv) /\ keeps (execute_ir_leds b argv) /\
  keeps (execute_runner_stats argv) /\ keeps (execute_ping_sec argv) /\ keeps (execute_dfu_secondary_activate argv) /\
  keeps (execute_boot_config argv) /\ (b = Diamond -> keeps (execute_white_leds argv)).
Proof.
  repeat apply conj; unfold execute_version, execute_state, execute_battery, execute_ir_leds, execute_runner_stats, execute_ping_sec,
    execute_dfu_secondary_activate, execute_boot_config, execute_white_leds, runner_handle_new_cli_; cbv zeta; try intros Hb; walk_line; ranges.
  exists (u 1 argv). ranges.
Qed.

Lemma line_keeps argv : keeps (orb_line b strtof argv).
Proof.
  unfold orb_line. destruct (find_command _ _) as [f |] eqn:E; [| simple apply keeps_ret]. simple apply keeps_bind; [| intros ret; simple apply keeps_ret].
  destruct (simple_lines_keep argv) as (K1 & K2 & K3 & K4 & K5 & K6 & K7 & K8 & K9 & K10 & K11 & K12).
  destruct (other_lines_keep argv) as (L1 & L2 & L3 & L4 & L5 & L6 & L7 & L8 & L9). pose proof (polarizer_keeps argv) as P.
  revert E. unfold sub_orb. destruct b; cbn [app find_command];
    repeat (destruct (streq (arg 0 argv) _); [intros [= <-]; first [assumption | by apply L9 | by apply P] |]); discriminate.
Qed.
End Typed.

(** ** Printed numbers are read back *)

Definition decimal (n : Z) : string := pretty n.

Lemma char_digit x : (x < 10)%N -> digit_value (pretty_N_char x) = Z.of_N x /\ 48 <= code (pretty_N_char x) <= 57.
Proof.
  intros Hx. assert (x = 0 \/ x = 1 \/ x = 2 \/ x = 3 \/ x = 4 \/ x = 5 \/ x = 6 \/ x = 7 \/ x = 8 \/ x = 9)%N as Hc by lia.
  destruct_or! Hc; subst x; vm_compute; split; try done; split; discriminate.
Qed.

Lemma digits_go x : forall s, digits 10 (pretty_N_go x s) 0 = digits 10 s (Z.of_N x).
Proof.
  induction x as [x IH] using (well_founded_induction N.lt_wf_0). intros s. destruct (decide (x = 0)%N) as [-> | Hx]; [by rewrite pretty_N_go_0 |].
  rewrite pretty_N_go_step by lia. rewrite IH by (apply N.div_lt; lia). cbn [digits].
  pose proof (N.mod_lt x 10 ltac:(done)) as Hm. destruct (char_digit (x `mod` 10) Hm) as [D _]. rewrite D. clear D.
  btrue (Z.of_N (x `mod` 10) <? 10). f_equal. rewrite N2Z.inj_div, N2Z.inj_mod. pose proof (Z.div_mod (Z.of_N x) 10 ltac:(done)). lia.
Qed.

(** What is printed starts with a digit. *)
Lemma go_head x : forall s, (0 < x)%N -> exists c r, pretty_N_go x s = String c r /\ 48 <= code c <= 57.
Proof.
  induction x as [x IH] using (well_founded_induction N.lt_wf_0). intros s Hx. rewrite pretty_N_go_step by done.
  destruct (decide (x `div` 10 = 0)%N) as [E | E].
  - rewrite E, pretty_N_go_0. eexists _, _. split; [done |]. apply char_digit. by apply N.mod_lt.
  - apply IH; [by apply N.div_lt | by apply N.neq_0_lt_0].
Qed.

Lemma pretty_N_head (n : N) : exists c r, pretty n = String c r /\ 48 <= code c <= 57.
Proof.
  unfold pretty, pretty_N. case_decide as E; [eexists _, _; split; [done | vm_compute; split; discriminate] |]. apply go_head. lia.
Qed.

Lemma digits_pretty (n : N) : digits 10 (pretty n) 0 = (Z.of_N n, ""%string).
Proof. unfold pretty, pretty_N. case_decide as E; [by subst n |]. by rewrite digits_go. Qed.

Lemma digit_start c r : 48 <= code c <= 57 -> skip_spaces (String c r) = String c r /\ sign (String c r) = (false, String c r).
Proof.
  intros Hc. cbn [skip_spaces]. unfold is_space, sign. bfalse (code c =? 32). bfalse (code c <=? 13). rewrite andb_false_r. cbn [Datatypes.orb].
  bfalse (code c =? 45). by bfalse (code c =? 43).
Qed.

Lemma strto_pretty (n : N) : strto 10 (pretty n) = (Some (false, Z.of_N n), ""%string).
Proof.
  destruct (pretty_N_head n) as (c & r & E & Hc). pose proof (digits_pretty n) as D. rewrite E in *. unfold strto.
  destruct (digit_start c r Hc) as [-> ->].
  assert (radix 10 (String c r) = (10, String c r)) as ->.
  { unfold radix. cbn [Z.eqb Pos.eqb Datatypes.orb andb]. by destruct r as [| x [| d r']]. }
  assert ((digit_value c <? 10) = true) as ->; [| by rewrite D].
  unfold digit_value. btrue (48 <=? code c). btrue (code c <=? 57). cbn [andb]. apply Z.ltb_lt. lia.
Qed.

Lemma strto_minus base c r neg v e : 48 <= code c <= 57 -> strto base (String c r) = (Some (neg, v), e) ->
  strto base (String "-"%char (String c r)) = (Some (true, v), e).
Proof.
  intros Hc. unfold strto. destruct (digit_start c r Hc) as [-> ->].
  change (sign (skip_spaces (String "-"%char (String c r)))) with (true, String c r).
  cbv beta iota zeta. destruct (radix base (String c r)) as [base' [| d r']]; [done |]. destruct (_ <? base'); [| done].
  destruct (digits base' _ 0) as [w e']. intros E. injection E as _ <- <-. done.
Qed.

Lemma decimal_nonneg n : 0 <= n -> decimal n = pretty (Z.to_N n).
Proof. intros Hn. destruct n as [| p |]; [done | done | lia]. Qed.

Lemma strtoul_end_decimal n : 0 <= n < 2 ^ 32 -> strtoul_end 10 (decimal n) = (n, ""%string).
Proof.
  intros Hn. rewrite decimal_nonneg by lia. unfold strtoul_end, ULONG_MAX. rewrite strto_pretty, Z2N.id by lia. by bfalse (4294967295 <? n).
Qed.

Lemma strtol_decimal n : -2147483648 <= n <= 2147483647 -> strtol 10 (decimal n) = n.
Proof.
  intros Hn. unfold strtol. destruct (Z.le_gt_cases 0 n) as [Hp | Hp].
  - rewrite decimal_nonneg, strto_pretty by lia. cbn. rewrite Z2N.id by lia. lia.
  - destruct n as [| p | p]; try lia. change (decimal (Z.neg p)) with (String "-"%char (pretty (N.pos p))).
    pose proof (strto_pretty (N.pos p)) as E. destruct (pretty_N_head (N.pos p)) as (c & r & Ep & Hc). rewrite Ep in *.
    rewrite (strto_minus 10 c r _ _ _ Hc E). cbn [fst]. change (Z.of_N (N.pos p)) with (Z.pos p). lia.
Qed.

(** A number that is not 0 does not start with a zero: the base it is read in is 10 also when it is left open. *)
Lemma go_head_pos x : forall s, (0 < x)%N -> exists c r, pretty_N_go x s = String c r /\ 49 <= code c <= 57.
Proof.
  induction x as [x IH] using (well_founded_induction N.lt_wf_0). intros s Hx. rewrite pretty_N_go_step by done.
  destruct (decide (x `div` 10 = 0)%N) as [E | E].
  - rewrite E, pretty_N_go_0. eexists _, _. split; [done |]. apply N.div_small_iff in E; [| done].
    rewrite N.mod_small by done. assert (x = 1 \/ x = 2 \/ x = 3 \/ x = 4 \/ x = 5 \/ x = 6 \/ x = 7 \/ x = 8 \/ x = 9)%N as Hc by lia.
    destruct_or! Hc; subst x; vm_compute; split; discriminate.
  - apply IH; [by apply N.div_lt | by apply N.neq_0_lt_0].
Qed.

Lemma strto_pretty_any (n : N) : strto 0 (pretty n) = (Some (false, Z.of_N n), ""%string).
Proof.
  destruct (decide (n = 0)%N) as [-> | Hn]; [by vm_compute |].
  assert (exists c r, pretty n = String c r /\ 49 <= code c <= 57) as (c & r & E & Hc).
  { unfold pretty, pretty_N. rewrite decide_False by done. apply go_head_pos. lia. }
  pose proof (digits_pretty n) as D. rewrite E in *. unfold strto.
  destruct (digit_start c r ltac:(lia)) as [-> ->].
  assert (radix 0 (String c r) = (10, String c r)) as ->.
  { unfold radix. bfalse (code c =? 48). rewrite andb_false_r. cbn [Z.eqb Datatypes.orb andb]. by destruct r as [| x [| d r']]. }
  assert ((digit_value c <? 10) = true) as ->; [| by rewrite D].
  unfold digit_value. btrue (48 <=? code c). btrue (code c <=? 57). cbn [andb]. apply Z.ltb_lt. lia.
Qed.

Lemma u0_decimal n k argv : argv !! k = Some (decimal n) -> in_u32 n -> u0 k argv = n.
Proof.
  intros E Hn. unfold u0, arg. rewrite E. cbn. unfold strtoul, strtoul_end, ULONG_MAX, in_u32 in *.
  rewrite decimal_nonneg, strto_pretty_any, Z2N.id by lia. by bfalse (4294967295 <? n).
Qed.

Lemma strtol0_decimal n : 0 <= n <= 2147483647 -> strtol 0 (decimal n) = n.
Proof.
  intros Hn. unfold strtol. rewrite decimal_nonneg, strto_pretty_any by lia. cbn. rewrite Z2N.id by lia. lia.
Qed.

(** A number is no option. *)
Lemma decimal_no_option n r : 0 <= n -> streq (decimal n) (String "-"%char r) = false.
Proof.
  intros Hn. rewrite decimal_nonneg by done. destruct (pretty_N_head (Z.to_N n)) as (c & w & -> & Hc).
  unfold streq. apply String.eqb_neq. intros [= ->]. by vm_compute in Hc; destruct Hc.
Qed.

Lemma u_decimal n k argv : argv !! k = Some (decimal n) -> in_u32 n -> u k argv = n.
Proof. intros E Hn. unfold u, arg. rewrite E. cbn. unfold strtoul. by rewrite strtoul_end_decimal by (unfold in_u32 in Hn; lia). Qed.

Lemma whole_number_decimal n : in_u32 n -> whole_number (decimal n) = Some n.
Proof. intros Hn. unfold whole_number. rewrite strtoul_end_decimal by (unfold in_u32 in Hn; lia). done. Qed.

(** ** Lines that spell a command *)

Section Spell.
Context `{Enums} (b : board) {X : Type} `{CliTarget X} (strtof : string -> spec_float).

Definition in_i32 (z : Z) : Prop := -2147483648 <= z <= 2147483647.

Abbreviation hand c := (RunnerHandleNewCli c) (only parsing).

(** The options of the polarizer's line, each with its number; a speed of 0 is left out. *)
Definition option_words (o : options_t) : list string :=
  (if shortest_path o then ["-s"%string] else []) ++
  (if accel_set o then ["-a"%string; decimal (opt_acceleration o)] else []) ++
  (if max_speed_set o then ["-m"%string; decimal (opt_max_speed o)] else []) ++
  (if constant_speed o =? 0 then [] else ["-c"%string; decimal (constant_speed o)]).

Definition options_typed (o : options_t) : Prop :=
  in_u32 (opt_acceleration o) /\ in_u32 (opt_max_speed o) /\ in_u32 (constant_speed o) /\
  (accel_set o = false -> opt_acceleration o = 8000) /\ (max_speed_set o = false -> opt_max_speed o = 200) /\
  (constant_speed o <> 0 -> accel_set o = false /\ max_speed_set o = false).

(** The words that say where the wheel goes. *)
Inductive wheel_words (o : options_t) : list string -> cli_effect -> Prop :=
| words_home : wheel_words o ["home"%string] (hand (PolarizerCmd POLARIZER_HOME 0 0 (shortest_path o)))
| words_calibrate : wheel_words o ["calibrate"%string] PolarizerCalibrateAsync
| words_pass_through : wheel_words o ["pass_through"%string]
    (hand (PolarizerCmd POLARIZER_PASS_THROUGH (constant_speed o) 0 (shortest_path o)))
| words_horizontal : wheel_words o ["horizontal"%string]
    (hand (PolarizerCmd POLARIZER_0_HORIZONTAL (constant_speed o) 0 (shortest_path o)))
| words_vertical : wheel_words o ["vertical"%string]
    (hand (PolarizerCmd POLARIZER_90_VERTICAL (constant_speed o) 0 (shortest_path o)))
| words_angle a : in_u32 a -> wheel_words o ["angle"%string; decimal a]
    (hand (PolarizerCmd POLARIZER_CUSTOM_ANGLE (constant_speed o) a (shortest_path o))).

(** How each command is typed, and what the line hands to the runner and to the wheel, in order. *)
Inductive spelled : list string -> list cli_effect -> Prop :=
| spelled_reboot d : 0 <= d <= 60 -> spelled ["reboot"%string; decimal d] [hand (RebootCmd d)]
| spelled_fan v : 0 <= v <= 100 -> spelled ["fan"%string; decimal v] [hand (FanSpeedCmd FanLegacy v)]
| spelled_mirror p t : in_u32 p -> in_u32 t ->
    spelled ["mirror"%string; decimal p; decimal t] [hand (MirrorAngleCmd (Some (PhiTheta p t)))]
| spelled_heartbeat t : in_u32 t -> spelled ["heartbeat"%string; decimal t] [hand (HeartbeatCmd t)]
| spelled_voltage t : in_u32 t -> spelled ["voltage"%string; decimal t] [hand (VoltageRequestCmd t)]
| spelled_fps f : in_u32 f -> spelled ["fps"%string; decimal f] [hand (FpsCmd f)]
| spelled_lens v (e : bool) : in_i32 v ->
    spelled ["liquid_lens"%string; decimal v; (if e then "1" else "0")%string] [hand (LiquidLensCmd v e)]
| spelled_homing m a : in_u32 m -> in_u32 a ->
    spelled ["homing"%string; decimal m; decimal a] [hand (DoHomingCmd (homing_mode_of m) (homing_axis_of a))]
| spelled_user_leds p a l red green blue per scale :
    in_i32 p -> 0 <= p <= USER_RGB_ONLY_CENTER -> in_u32 a -> in_i32 l -> in_u32 red -> in_u32 green -> in_u32 blue -> in_u32 per ->
    spelled ["user_leds"%string; decimal p; decimal a; decimal l; decimal red; decimal green; decimal blue; decimal per; scale]
      [hand (UserLedsPatternCmd p a l (Some (red, green, blue)) per (strtof scale))]
| spelled_op_leds p mask red green blue :
    0 <= p <= OPERATOR_BOOT_ANIMATION -> in_i32 p -> in_u32 mask -> 0 <= red <= 255 -> 0 <= green <= 255 -> 0 <= blue <= 255 ->
    spelled ["op_leds"%string; "pattern"%string; decimal p; decimal mask; decimal red; decimal green; decimal blue]
      [hand (DistributorLedsPatternCmd p mask (p =? OPERATOR_RGB) (red, green, blue))]
| spelled_op_brightness v : 0 <= v <= 255 ->
    spelled ["op_leds"%string; "brightness"%string; decimal v] [hand (DistributorLedsBrightnessCmd v)]
| spelled_power_cycle n d : in_u32 n -> in_u32 d ->
    spelled ["power_cycle"%string; decimal n; decimal d] [hand (PowerCycleCmd (power_line_of n) d)]
| spelled_date y mo d h mi : in_u32 y -> in_u32 mo -> in_u32 d -> in_u32 h -> in_u32 mi ->
    spelled ["date"%string; decimal y; decimal mo; decimal d; decimal h; decimal mi] [hand (SetTimeCmd (HumanReadable y mo d h mi 0))]
| spelled_ir_leds n t : in_u32 n -> n <= WAVELENGTH_940NM_SINGLE_ -> 0 <= t <= IR_CAMERA_SYSTEM_MAX_IR_LED_ON_TIME_US b ->
    spelled ["ir_leds"%string; decimal n; decimal t] [hand (LedOnTimeCmd t); hand (InfraredLedsCmd (wavelength_of n))]
| spelled_white_leds v : b = Diamond -> 0 <= v <= 1000 -> spelled ["white_leds"%string; decimal v] [hand (WhiteLedsBrightnessCmd v)]
| spelled_polarizer o ws e : b = Diamond -> options_typed o -> wheel_words o ws e ->
    spelled ("polarizer"%string :: ws ++ option_words o)
      [PolarizerSetAcceleration (opt_acceleration o); PolarizerSetMaxSpeed (opt_max_speed o); e].

(** The calls in order, up to the first that fails; those that set the wheel cannot. *)
Definition sets_wheel (e : cli_effect) : bool :=
  match e with PolarizerSetAcceleration _ | PolarizerSetMaxSpeed _ => true | _ => false end.

Fixpoint hand_all (es : list cli_effect) : cli (X := X) Z :=
  match es with
  | [] => mret 0
  | e :: es => ret ← do_ e; if sets_wheel e || (ret =? RET_SUCCESS) then hand_all es else mret (- EIO)
  end.

(** Whether the code of the runner is the code of the line. *)
Definition direct (es : list cli_effect) : bool :=
  match es with
  | [RunnerHandleNewCli c] =>
      match c with
      | RebootCmd _ | FanSpeedCmd _ _ | MirrorAngleCmd _ | HeartbeatCmd _ | VoltageRequestCmd _ | FpsCmd _ | LiquidLensCmd _ _ | DoHomingCmd _ _ => true
      | _ => false
      end
  | _ => false
  end.
Definition carried_out (es : list cli_effect) : cli (X := X) Z :=
  match es with e :: _ => if direct es then do_ e else hand_all es | [] => mret 0 end.

Lemma in_u32_of n : 0 <= n <= 1000 -> in_u32 n.
Proof. unfold in_u32. lia. Qed.

Lemma line_of name f args es x : find_command name (sub_orb b strtof) = Some f ->
  f (name :: args) x = carried_out es x ->
  orb_line b strtof (name :: args) x = (ret ← carried_out es; mret (Some ret)) x.
Proof.
  intros Ef Hf. unfold orb_line. change (arg 0 (name :: args)) with name. rewrite Ef. unfold mbind, cli_bind. by rewrite Hf.
Qed.

Lemma eio_hand e x : sets_wheel e = false -> or_eio (do_ e) x = hand_all [e] x.
Proof.
  intros E. unfold or_eio. cbn [hand_all]. rewrite E. unfold mbind, cli_bind, mret, cli_ret. cbn [Datatypes.orb].
  destruct (do_ e x) as [[ret y] |]; [| done]. by destruct (ret =? RET_SUCCESS).
Qed.

Lemma hand_setting e es x : sets_wheel e = true ->
  hand_all (e :: es) x = match do_ e x with Some (_, y) => hand_all es y | None => None end.
Proof. intros E. cbn [hand_all]. rewrite E. unfold mbind, cli_bind. by destruct (do_ e x) as [[ret y] |]. Qed.

(** Two messages, the second if the first is taken. *)
Lemma ir_hand c d x :
  (ret ← runner_handle_new_cli_ c; if negb (ret =? RET_SUCCESS) then mret (- EIO) else or_eio (runner_handle_new_cli_ d)) x =
  carried_out [hand c; hand d] x.
Proof.
  unfold carried_out. cbn [direct]. destruct c; cbn [hand_all sets_wheel Datatypes.orb]; unfold mbind, cli_bind;
    unfold runner_handle_new_cli_; (destruct (do_ _ x) as [[r y] |]; [| done]); destruct (r =? RET_SUCCESS); cbn [negb]; try done;
    by apply (eio_hand (hand d)).
Qed.

(** The words of a line are in place. *)
Ltac spelled_out f :=
  eapply line_of; [first [reflexivity | match goal with E : b = Diamond |- _ => rewrite E; reflexivity end] |]; unfold f;
  repeat match goal with |- context [argc ?l <? ?n] => let r := eval vm_compute in (argc (map (fun _ => EmptyString) l) <? n) in change (argc l <? n) with r end;
  repeat match goal with |- context [argc ?l =? ?n] => let r := eval vm_compute in (argc (map (fun _ => EmptyString) l) =? n) in change (argc l =? n) with r end;
  repeat match goal with |- context [?n <? argc ?l] => let r := eval vm_compute in (n <? argc (map (fun _ => EmptyString) l)) in change (n <? argc l) with r end;
  repeat match goal with
  | |- context [u ?k ?argv] => rewrite (u_decimal _ k argv eq_refl) by first [assumption | apply in_u32_of; lia | unfold in_u32 in *; lia]
  | |- context [u0 ?k ?argv] => rewrite (u0_decimal _ k argv eq_refl) by first [assumption | unfold in_u32 in *; lia]
  | |- context [strtol 10 (arg ?k ?argv)] =>
      let w := eval cbv [arg lookup list_lookup from_option id] in (arg k argv) in change (arg k argv) with w; rewrite strtol_decimal by (unfold in_i32 in *; lia)
  | |- context [strtol 0 (arg ?k ?argv)] =>
      let w := eval cbv [arg lookup list_lookup from_option id] in (arg k argv) in change (arg k argv) with w; rewrite strtol0_decimal by (unfold in_i32 in *; lia)
  end; cbv zeta; cbv beta iota.

(** The options are read back. *)
Lemma options_read o : options_typed o -> options (option_words o) default_options = Some o.
Proof.
  intros (Ha & Hm & Hc & Da & Dm & _). destruct o as [sh ms ac cs aset mset]. unfold option_words.
  cbn [shortest_path opt_max_speed opt_acceleration constant_speed accel_set max_speed_set] in *.
  destruct (Z.eqb_spec cs 0) as [-> | Hcs], sh, aset, mset; cbn [app options streq Datatypes.orb];
    repeat (cbn [streq String.eqb Ascii.eqb Bool.eqb Datatypes.orb andb]; rewrite whole_number_decimal by done;
            cbn [mbind option_bind options shortest_path opt_max_speed opt_acceleration constant_speed accel_set max_speed_set]);
    unfold default_options; repeat f_equal; first [by symmetry; apply Da | by symmetry; apply Dm | done].
Qed.

Lemma options_skip a ws o : 0 <= a -> options (decimal a :: ws) o = options ws o.
Proof.
  intros Ha. cbn [options]. rewrite !(decimal_no_option a) by done. cbn [Datatypes.orb]. by destruct ws.
Qed.

(** The line of the wheel, its words read. *)
Lemma polarizer_line o ws e x : options_typed o -> wheel_words o ws e ->
  execute_polarizer ("polarizer"%string :: ws ++ option_words o) x =
    hand_all [PolarizerSetAcceleration (opt_acceleration o); PolarizerSetMaxSpeed (opt_max_speed o); e] x.
Proof.
  intros Ho Hw. unfold execute_polarizer.
  assert ((argc ("polarizer"%string :: ws ++ option_words o) <? 2) = false) as ->.
  { apply Z.ltb_ge. unfold argc. rewrite zlen_cons, zlen_app. pose proof (zlen_nonneg (option_words o)).
    assert (1 <= zlen ws) by (destruct Hw; vm_compute; discriminate). lia. }
  assert (options (drop 2 ("polarizer"%string :: ws ++ option_words o)) default_options = Some o) as ->.
  { destruct Hw; cbn [drop app]; rewrite ?options_skip by (unfold in_u32 in *; lia); by apply options_read. }
  assert ((negb (constant_speed o =? 0) && (accel_set o || max_speed_set o)) = false) as ->.
  { destruct (Z.eqb_spec (constant_speed o) 0) as [| Hc]; [done |]. destruct Ho as (_ & _ & _ & _ & _ & Hn).
    by destruct (Hn Hc) as [-> ->]. }
  assert ((match polarizer_action_of ("polarizer"%string :: ws ++ option_words o) o with
    | Hand c => or_eio (runner_handle_new_cli_ c) | Calibrate => or_eio (do_ PolarizerCalibrateAsync)
    | Status => do_ PolarizerGetBumpWidths;; do_ PolarizerHomed;; mret 0 | RefuseLine => mret (- EINVAL) end : cli (X := X) Z) =
    or_eio (do_ e) /\ sets_wheel e = false) as [-> He].
  { destruct Hw as [| | | | | a Ha]; (split; [| done]); try reflexivity.
    unfold polarizer_action_of. cbn [app].
    assert ((argc ("polarizer"%string :: "angle"%string :: decimal a :: option_words o) <? 3) = false) as E.
    { apply Z.ltb_ge. unfold argc. rewrite !zlen_cons. pose proof (zlen_nonneg (option_words o)). lia. }
    rewrite E. change (arg 2 _) with (decimal a). by rewrite whole_number_decimal. }
  rewrite hand_setting by done. unfold mbind, cli_bind. destruct (do_ _ x) as [[r1 x1] |]; [| done].
  rewrite hand_setting by done. destruct (do_ (PolarizerSetMaxSpeed _) x1) as [[r2 x2] |]; [| done]. by apply eio_hand.
Qed.

(** C30: A command typed as it is spelled is the command handed to the runner, numbers included, and the line reports the
    runner's answer.  [spelled] has a line for each command of the shell that hands a message to the runner: for [ir_leds] the two messages,
    the second only if the first was taken, and for the polarizer, with any of its options, the settings before the message. *)
Theorem spelled_line_is_command (line : list string) (es : list cli_effect) (x : X) (Hs : spelled line es) :
  orb_line b strtof line x = (ret ← carried_out es; mret (Some ret)) x.
Proof.
  destruct Hs.
  - spelled_out @execute_reboot. by bfalse (60 <? d).
  - spelled_out @execute_fan. by bfalse (100 <? v).
  - by spelled_out @execute_mirror.
  - by spelled_out @execute_heartbeat.
  - by spelled_out @execute_voltage.
  - by spelled_out @execute_fps.
  - spelled_out @execute_liquid_lens. by destruct e.
  - by spelled_out @execute_homing.
  - spelled_out @execute_user_leds. bfalse (p <? 0). bfalse (USER_RGB_ONLY_CENTER <? p). by apply eio_hand.
  - spelled_out @execute_op_leds. cbn [streq String.eqb Ascii.eqb Bool.eqb arg lookup list_lookup from_option id].
    btrue (0 <=? p). btrue (p <=? OPERATOR_BOOT_ANIMATION). cbn [andb]. rewrite !u8_small by lia. by apply eio_hand.
  - spelled_out @execute_op_leds. cbn [streq String.eqb Ascii.eqb Bool.eqb arg lookup list_lookup from_option id].
    bfalse (255 <? v). by apply eio_hand.
  - spelled_out @execute_power_cycle. by apply eio_hand.
  - spelled_out @execute_date. by apply eio_hand.
  - assert (in_u32 t) by (unfold in_u32; destruct b; cbn in *; lia). spelled_out @execute_ir_leds. bfalse (WAVELENGTH_940NM_SINGLE_ <? n). bfalse (IR_CAMERA_SYSTEM_MAX_IR_LED_ON_TIME_US b <? t).
    apply ir_hand.
  - spelled_out @execute_white_leds. bfalse (1000 <? v). by apply eio_hand.
  - eapply line_of; [match goal with E : b = Diamond |- _ => rewrite E; reflexivity end | by apply polarizer_line].
Qed.
End Spell.

(** ** Refused lines *)

Section Refused.
Context `{Enums} (b : board) {X : Type} `{CliTarget X} (strtof : string -> spec_float).
(** No component answers with the code the shell uses for a wrong line. *)
Context (other_codes : forall e (x : X) r x', cli_call e x = Some (r, x') -> r <> - EINVAL).

Definition never (m : @cli X Z) : Prop := forall x r x', m x = Some (r, x') -> r <> - EINVAL.
Definition clean (m : @cli X Z) : Prop := forall x x', m x = Some (- EINVAL, x') -> x' = x.

Lemma never_ret r : r <> - EINVAL -> never (mret r).
Proof. by intros Hr x r' x' [= <- _]. Qed.
Lemma never_do e : never (do_ e).
Proof. intros x r x' E. by eapply other_codes. Qed.
Lemma never_bind {A} (m : @cli X A) k : (forall a, never (k a)) -> never (m ≫= k).
Proof. intros Hk x r x' E. unfold mbind, cli_bind in E. destruct (m x) as [[a y] |]; [by eapply Hk | done]. Qed.
Lemma never_if (e : bool) (m k : @cli X Z) : never m -> never k -> never (if e then m else k).
Proof. by destruct e. Qed.
Lemma never_eio (m : @cli X Z) : never (or_eio m).
Proof. apply never_bind. intros a. apply never_ret. destruct (a =? RET_SUCCESS); discriminate. Qed.

Lemma clean_ret r : clean (mret r).
Proof. by intros x x' [= _ <-]. Qed.
Lemma clean_if (e : bool) (m k : @cli X Z) : clean m -> clean k -> clean (if e then m else k).
Proof. by destruct e. Qed.
Lemma clean_never m : never m -> clean m.
Proof. intros N x x' E. by destruct (N x _ x' E). Qed.

Ltac clean_line :=
  repeat first [ simple apply clean_ret | simple apply clean_if
    | simple apply clean_never; repeat first [ simple apply never_do | simple apply never_eio | simple apply never_bind; intros ?
        | simple apply never_if | simple apply never_ret; discriminate ] ].

Definition settings_applied (x x' : X) : Prop :=
  exists a m r r' y, cli_call (PolarizerSetAcceleration a) x = Some (r, y) /\ cli_call (PolarizerSetMaxSpeed m) y = Some (r', x').

Lemma polarizer_refused argv x x' : execute_polarizer argv x = Some (- EINVAL, x') -> x' = x \/ settings_applied x x'.
Proof.
  unfold execute_polarizer. destruct (argc argv <? 2); [by intros [= <-]; left |]. destruct (options _ _) as [o |]; [| by intros [= <-]; left].
  destruct (negb _ && _); [by intros [= <-]; left |]. unfold do_. unfold mbind at 1 2, cli_bind at 1 2.
  destruct (cli_call (PolarizerSetAcceleration _) x) as [[r y] |] eqn:E1; [| done].
  destruct (cli_call (PolarizerSetMaxSpeed _) y) as [[r' z] |] eqn:E2; [| done]. intros E. right. exists (opt_acceleration o), (opt_max_speed o), r, r', y.
  split; [done |]. rewrite E2. do 2 f_equal.
  assert (clean (match polarizer_action_of argv o with
    | Hand c => or_eio (runner_handle_new_cli_ c) | Calibrate => or_eio (do_ PolarizerCalibrateAsync)
    | Status => do_ PolarizerGetBumpWidths;; do_ PolarizerHomed;; mret 0 | RefuseLine => mret (- EINVAL) end)) as K
    by (destruct (polarizer_action_of argv o); clean_line).
  symmetry. by apply K.
Qed.

(** C33: A refused line changes nothing: when a line is answered -EINVAL no component was called, except that a wrong
    command of the polarizer wheel has already replaced its acceleration and its speed limit. *)
Theorem refused_line_does_nothing (line : list string) (x x' : X) (Hr : orb_line b strtof line x = Some (Some (- EINVAL), x')) :
  x' = x \/ (arg 0 line = "polarizer"%string /\ b = Diamond /\ settings_applied x x').
Proof.
  revert Hr. unfold orb_line. destruct (find_command _ _) as [f |] eqn:E; [| by intros [= <-]]. unfold mbind, cli_bind.
  destruct (f line x) as [[r y] |] eqn:Ef; [| done]. intros [= -> ->]. revert E. unfold sub_orb.
  assert (forall g : list string -> cli Z, clean (g line) -> Some g = Some f -> x' = x) as C by (intros g K [= ->]; by apply K).
  assert (forall g : list string -> cli Z, clean (g line) -> Some g = Some f -> x' = x \/ (arg 0 line = "polarizer"%string /\ b = Diamond /\ settings_applied x x')) as D
    by (intros g K Eg; left; by eapply C).
  destruct b eqn:Eb; cbn [app find_command];
    repeat match goal with |- (if streq (arg 0 line) ?n then Some ?g else _) = _ -> _ =>
      destruct (streq (arg 0 line) n) eqn:?;
        [first [ apply (D g); unfold execute_reboot, execute_version, execute_state, execute_battery, execute_fan, execute_mirror, execute_heartbeat,
            execute_voltage, execute_liquid_lens, execute_homing, execute_fps, execute_user_leds, execute_op_leds, execute_power_cycle, execute_date,
            execute_white_leds, execute_ir_leds, execute_runner_stats, execute_ping_sec, execute_dfu_secondary_activate, execute_boot_config,
            runner_handle_new_cli_; cbv zeta; by clean_line
          | intros [= <-]; apply polarizer_refused in Ef as [-> | Ef]; [by left | right; split; [by apply String.eqb_eq | by split]] ] |] end; discriminate.
Qed.
End Refused.

(** ** The shell, the queue and the Orb *)

Section ShellWorld.
Context {M D O : Type} `{BBRam M} `{FlashDriver D} `{Crc} `{Outside O} `{HwVersions} `{Enums}.
Context (b : board) (sin asin : spec_float -> spec_float) (h : fan_hw) (ms_to_ticks : Z -> Z) (calc_vrefanalog : Z -> Z)
  (hardware_version : Z) (K_SECONDS : Z -> Z) (strtof : string -> spec_float).
Context (WBS BLK TEST_SIZE MAX_FOCUS : Z) (MB : mcuboot) (BOOT_FLAG_UNSET : Z) (debug ci : bool).
Abbreviation orb := (Runner.orb M D O).

(** The jobs that wait, and the Orb. *)
Definition shell_world : Type := list job * orb.

(** What the world answers to a line.  [timed_out]: the semaphore of the jobs was not free within 5 ms, and the message is dropped with
    RET_SUCCESS (that the semaphore is given back all the same, [cli_timeout_tears_jobs], needs another sender and is not seen here).  Else: the readings of the firmware update and of the wheel, and the ping of the security MCU. *)
Definition on_orb {A} (m : @run M D O A) (w : shell_world) : option (A * shell_world) :=
  match m w.2 with (Some a, o) => Some (a, (w.1, o)) | (None, _) => None end.

Definition component_call (rd : readings D) (ping : ping_sys -> Z * ping_sys) (timed_out : bool) : CliTarget shell_world := fun e w =>
  match e with
  | RunnerHandleNewCli c =>
      Some (if timed_out then (RET_SUCCESS, w)
            else if decide (length w.1 < PROCESS_QUEUE_LEN)%nat then (RET_SUCCESS, (w.1 ++ [Job CLI 0 0 (JetsonCmd c)], w.2)) else (RET_ERROR_BUSY, w))
  | RunnerSuccessfulJobsCount => Some (job_counter w.2, w)
  | VersionPrint | OrbStateDump | BatteryDumpStats | DatePrint => Some (0, w)
  | PingSec => on_orb (on p_pings ping) w
  | PolarizerSetAcceleration a => on_orb (on p_polarizer (fun x => (0, polarizer_wheel_set_acceleration a x))) w
  | PolarizerSetMaxSpeed v => on_orb (on p_polarizer (fun x => (0, polarizer_wheel_set_max_speed v x))) w
  | PolarizerCalibrateAsync => on_orb (on p_polarizer (polarizer_wheel_calibrate_async (wheel_locked rd))) w
  | PolarizerGetBumpWidths => Some ((polarizer_wheel_get_bump_widths (polarizer w.2)).1, w)
  | PolarizerHomed => Some (zbool (homed (polarizer w.2)), w)
  | DfuSecondaryActivate force_permanent =>
      on_orb (on_opt p_dfu (fun x =>
        '(ret, d, hd) ← (if force_permanent then dfu_secondary_activate_permanently BLK MB else dfu_secondary_activate_temporarily BLK MB)
                         (open_secondary rd) (pending_ret rd) (swap_type rd) x.1 x.2;
        Some (ret, (d, hd)))) w
  | ConfigGetRebootBehavior => v ← config_get_reboot_behavior (config w.2); Some (v, w)
  | ConfigSetRebootBehavior v => on_orb (on_opt p_config (config_set_reboot_behavior WBS v)) w
  end.

(** A line is typed; the runner's thread takes the first job; anything else happens to the Orb. *)
Inductive shell_step : shell_world -> shell_world -> Prop :=
| step_typed rd ping t line r w w' : orb_line (H := component_call rd ping t) b strtof line w = Some (r, w') -> shell_step w w'
| step_served rd j q o : windows_ok rd ->
    shell_step (j :: q, o) (q, (process_job b sin asin h ms_to_ticks calc_vrefanalog hardware_version K_SECONDS WBS BLK TEST_SIZE MAX_FOCUS
      MB BOOT_FLAG_UNSET debug ci rd j o).2)
| step_elsewhere q o o' :
    orb_step b sin asin h ms_to_ticks calc_vrefanalog hardware_version K_SECONDS WBS BLK TEST_SIZE MAX_FOCUS MB BOOT_FLAG_UNSET debug ci o o' ->
    shell_step (q, o) (q, o').

(** A job that waits was typed, and within the limits of its command. *)
Definition typed_job (j : job) : Prop := exists c, j = Job CLI 0 0 (JetsonCmd c) /\ typed_ok b c.
Definition shell_ok (w : shell_world) : Prop := Forall typed_job w.1 /\ actuators_ok b w.2.

Lemma typed_job_ok j : typed_job j -> job_ok j.
Proof.
  intros (c & -> & T). unfold job_ok. cbn [message]. unfold in_u32 in T. destruct c; cbn in T |- *; try done; unfold in_u32 in *; lia.
Qed.

Lemma on_orb_view {A} (m : @run M D O A) w a w' : on_orb m w = Some (a, w') -> w'.1 = w.1 /\ w'.2 = (m w.2).2.
Proof. unfold on_orb. destruct (m w.2) as [[a' |] o]; [| done]. by intros [= _ <-]. Qed.

Lemma component_call_ok rd ping t e w r w' : effect_ok b e -> shell_ok w -> component_call rd ping t e w = Some (r, w') -> shell_ok w'.
Proof.
  intros He [Hq (Hi & Hl & Hw)] E. unfold shell_ok, actuators_ok in *.
  destruct e; cbn [component_call] in E; try (injection E as _ <-; done); try (apply on_orb_view in E as [-> ->]; cbn; split; [done |]).
  - injection E as E. destruct t; [by simplify_eq |]. destruct (decide _) in E; simplify_eq; [| done]. cbn. split; [| done]. apply Forall_app_2; [done |].
    constructor; [by eexists | constructor].
  - split; [exact Hi |]. split; [exact Hl |]. apply set_acceleration_ok; [apply He | exact Hw].
  - split; [exact Hi |]. split; [exact Hl |]. apply set_max_speed_ok; [apply He | exact Hw].
  - split; [exact Hi |]. split; [exact Hl |]. eapply event_step_ok; [by apply step_calibrate | exact Hw].
  - unfold on_opt. by match goal with |- context [match ?e with _ => _ end] => destruct e as [[? ?] |] end.
  - destruct (config_get_reboot_behavior _) as [v |]; [| done]. by injection E as _ <-.
  - unfold on_opt. by match goal with |- context [match ?e with _ => _ end] => destruct e as [[? ?] |] end.
Qed.

(** C10: Nothing typed in the shell takes an actuator out of its limits.  Through any lines, any turns of the runner on the jobs
    they queue, and anything else that happens to the Orb in between, every job in the queue was typed and is within the limits of its
    command, and the infrared LEDs, the liquid lens and the polarizer wheel keep theirs. *)
Theorem typed_lines_are_safe (w w' : shell_world) (Hcalc : forall r, 0 <= calc_vrefanalog r < 4095) (Hw : shell_ok w)
  (Hs : rtc shell_step w w') : shell_ok w'.
Proof.
  induction Hs as [w | w1 w2 w3 S _ IH]; [done |]. apply IH. clear IH. destruct S as [rd ping t line r w w' E | rd j q o Hr | q o o' S].
  - eapply (line_keeps (H0 := component_call rd ping t) b strtof shell_ok); [| exact Hw | exact E].
    intros e x r' x' He Hx Ec. eapply (component_call_ok rd ping t); [exact He | exact Hx | exact Ec].
  - destruct Hw as [Hq Ha]. cbn in Hq, Ha. apply Forall_cons in Hq as [Hj Hq]. split; [exact Hq |]. cbn [snd].
    eapply orb_step_ok; [exact Hcalc | | exact Ha]. apply step_job; [done | by apply typed_job_ok].
  - destruct Hw as [Hq Ha]. split; [exact Hq |]. eapply orb_step_ok; [exact Hcalc | exact S | exact Ha].
Qed.
End ShellWorld.

(** ** A shell that only notes its calls *)

#[local] Instance noting : CliTarget (list cli_effect) := fun e l => Some (0, l ++ [e]).
#[local] Instance demo_enums : Enums := {|
  homing_mode_of n := match n with 0 => STALL_DETECTION | 1 => ONE_BLOCKING_END | 2 => WITH_KNOWN_COORDINATES | _ => OTHER_HOMING_MODE end;
  homing_axis_of n := match n with 0 => AXIS_BOTH | 1 => AXIS_HORIZONTAL_PHI | 2 => AXIS_VERTICAL_THETA | _ => OTHER_AXIS end;
  power_line_of n := match n with 0 => WIFI_3V3 | 1 => LTE_3V3 | 2 => SD_SSD_3V3 | 4 => HEAT_CAMERA_2V8 | _ => OTHER_LINE end;
  wavelength_of n := match n with 0 => WAVELENGTH_NONE | 1 => WAVELENGTH_740NM | 2 => WAVELENGTH_850NM | _ => WAVELENGTH_940NM end;
  WAVELENGTH_940NM_SINGLE_ := 10;
  USER_RGB_ONLY_CENTER := 7;
  OPERATOR_BOOT_ANIMATION := 7;
  OPERATOR_RGB := 5;
|}.
Abbreviation demo_line := (orb_line (X := list cli_effect) Diamond (fun _ => flt 1 0)).

Lemma spelled_line_is_command_witness :
  demo_line ["polarizer"; "angle"; "450"; "-s"; "-m"; "150"]%string [] =
    Some (Some 0, [PolarizerSetAcceleration 8000; PolarizerSetMaxSpeed 150; RunnerHandleNewCli (PolarizerCmd POLARIZER_CUSTOM_ANGLE 0 450 true)]).
Proof.
  etransitivity; [apply (spelled_line_is_command (X := list cli_effect) Diamond (fun _ => flt 1 0)
    ("polarizer" :: ["angle"; decimal 450] ++ option_words (Options true 150 8000 0 false true))%string) |].
  - apply spelled_polarizer; [reflexivity | | apply words_angle; split; [discriminate | reflexivity]].
    repeat split; try discriminate; try (intros; discriminate); try reflexivity;
      match goal with E : constant_speed _ <> 0 |- _ => by destruct E end.
  - reflexivity.
Defined.

Lemma refused_line_does_nothing_witness :
  exists l', demo_line ["fan"%string; "101"%string] [DatePrint] = Some (Some (- EINVAL), l') /\ l' = [DatePrint].
Proof.
  exists [DatePrint].
  assert (demo_line ["fan"%string; "101"%string] [DatePrint] = Some (Some (- EINVAL), [DatePrint])) as E by (vm_compute; reflexivity).
  split; [exact E |].
  destruct (refused_line_does_nothing (X := list cli_effect) Diamond (fun _ => flt 1 0)) with (line := ["fan"%string; "101"%string]) (x := [DatePrint]) (x' := [DatePrint])
    as [K | [K _]]; [by intros e x r x' [= <- _] | exact E | exact K | discriminate K].
Defined.

(** Asking for the status of the wheel, or a wrong command, replaces the acceleration and the speed limit the Jetson has set. *)
Example status_resets_settings :
  demo_line ["polarizer"%string; "status"%string] [] =
    Some (Some 0, [PolarizerSetAcceleration 8000; PolarizerSetMaxSpeed 200; PolarizerGetBumpWidths; PolarizerHomed])
  /\ demo_line ["polarizer"%string; "stop"%string] [] = Some (Some (- EINVAL), [PolarizerSetAcceleration 8000; PolarizerSetMaxSpeed 200]).
Proof. split; vm_compute; reflexivity. Qed.

(** A word too many drops the number before it: both axes are homed, the line is cycled for no time. *)
Example last_number_dropped :
  demo_line ["homing"; "1"; "2"; "now"]%string [] = Some (Some 0, [RunnerHandleNewCli (DoHomingCmd ONE_BLOCKING_END AXIS_BOTH)])
  /\ demo_line ["power_cycle"; "1"; "500"; "ms"]%string [] = Some (Some 0, [RunnerHandleNewCli (PowerCycleCmd LTE_3V3 0)]).
Proof. split; vm_compute; reflexivity. Qed.

(** A pattern that does not exist is sent as pattern 0, and what is no number is read as 0. *)
Example wrong_words_accepted :
  demo_line ["op_leds"; "pattern"; "99"]%string [] = Some (Some 0, [RunnerHandleNewCli (DistributorLedsPatternCmd 0 1 false (0, 0, 0))])
  /\ demo_line ["reboot"; "never"]%string [] = Some (Some 0, [RunnerHandleNewCli (RebootCmd 0)]).
Proof. split; vm_compute; reflexivity. Qed.

(** Options in any order. *)
Example options_in_any_order :
  demo_line ["polarizer"; "angle"; "450"; "-m"; "300"; "-s"; "-a"; "4000"]%string [] =
    Some (Some 0, [PolarizerSetAcceleration 4000; PolarizerSetMaxSpeed 300; RunnerHandleNewCli (PolarizerCmd POLARIZER_CUSTOM_ANGLE 0 450 true)]).
Proof. vm_compute. reflexivity. Qed.

(** The lens is driven from the shell: the line is queued, and the runner then takes the job. *)
Definition demo_target : CliTarget (@shell_world bytes (nor_w 8) (list outside_call)) :=
  component_call (H1 := sum_crc) 8 32 mcuboot_demo demo_readings (fun s => (0, s)) false.
Definition demo_typed : option (option Z * @shell_world bytes (nor_w 8) (list outside_call)) :=
  orb_line (H := demo_target) Diamond (fun _ => flt 1 0) ["liquid_lens"; "400"; "1"]%string ([], demo_orb).
Definition demo_served : @shell_world bytes (nor_w 8) (list outside_call) :=
  match demo_typed with
  | Some (_, (j :: q, o)) => (q, (demo_process demo_readings j o).2)
  | _ => ([], demo_orb)
  end.

Lemma typed_lines_are_safe_witness :
  shell_ok (M := bytes) (D := nor_w 8) (O := list outside_call) Diamond demo_served /\ target_current_ma (lens demo_served.2) = 400.
Proof.
  split; [| vm_compute; reflexivity]. assert ((fun r => List.length r.2.1) <$> demo_typed = Some 1%nat) as L by (vm_compute; reflexivity).
  destruct demo_typed as [[r [[| j [| j' q]] o]] |] eqn:E; cbn in L; try discriminate L.
  apply (typed_lines_are_safe (H := ram_bbram) (H1 := sum_crc) (H2 := demo_outside) (H3 := sample_versions) Diamond (fun x => x) (fun x => x)
    FAN_DIAMOND (fun x => x) (fun _ => 3300) 10 (fun s => s * 1000) (fun _ => flt 1 0) 8 32 32 100 mcuboot_demo 255 false false) with (w := ([], demo_orb)).
  - intros _. lia.
  - split; [constructor | exact demo_orb_ok].
  - eapply rtc_l; [eapply step_typed; exact E |]. unfold demo_served. rewrite E. apply rtc_once, step_served.
    split; [| by split]. constructor; [| done]. by vm_compute.
Defined.
