(* ===== verification/Logs.v ===== *)
(** What the firmware says and does when something goes wrong: lib/logs_can (the backend of the logs, and the hook of printk when
    there is no logging), main_board/src/system/logs.c (a log as a CAN message), lib/errors (assertions, kernel errors, the
    errors triggered on purpose).

    The formatting of a log is Zephyr's, nanopb's encoding and the sizes it generates are parameters. *)

From S2P Require Import Prelude Can.

(** ** lib/logs_can/log_backend_can.c *)

Module Backend.
Section Backend.
(** [sizeof(orb_mcu_Log)], CONFIG_ORB_LIB_LOG_BACKEND_LEVEL and CONFIG_LOG_PRINTK. *)
Context (LOG_SIZE LEVEL : Z) (printk : bool).

Definition LOG_MAX_CHAR_COUNT : Z := LOG_SIZE - 1.
Definition LOG_LEVEL_NONE : Z := 0.

Record backend := Backend_ { print_log : bool; panic_count : Z }.
Definition backend_boot : backend := Backend_ false 0.

(** A text given to [print_log], and whether it blocks. *)
Record printed := Printed { text : bytes; blocking : bool }.

Definition log_backend_can_register_print (s : backend) : backend := Backend_ true (panic_count s).
Definition log_backend_can_init (s : backend) : backend := Backend_ (print_log s) 0.
Definition panic (s : backend) : backend := Backend_ (print_log s) (s32 (panic_count s + 1)).

(** The length returned, all of it processed whatever was sent. *)
Definition can_message_out (data : bytes) (s : backend) : Z * list printed :=
  (zlen data,
   if print_log s && (panic_count s <=? 1)
   then [Printed (take (Z.to_nat (Z.min (zlen data) LOG_MAX_CHAR_COUNT)) data) (negb (panic_count s =? 0))] else []).

(** [chunks]: the text of the log as Zephyr formats it, in pieces of the output buffer. *)
Definition process (level : Z) (chunks : list bytes) (s : backend) : list printed :=
  if negb (print_log s) then []
  else if negb printk && (level =? LOG_LEVEL_NONE) then []
  else if LEVEL <? level then []
  else chunks ≫= fun c => (can_message_out c s).2.

Inductive backend_event := Register | Init | Panic | Log (level : Z) (chunks : list bytes).

Definition backend_step (s : backend) (e : backend_event) : list printed * backend :=
  match e with
  | Register => ([], log_backend_can_register_print s)
  | Init => ([], log_backend_can_init s)
  | Panic => ([], panic s)
  | Log level chunks => (process level chunks s, s)
  end.

Fixpoint backend_run (s : backend) (es : list backend_event) : list printed :=
  match es with
  | [] => []
  | e :: es => let r := backend_step s e in r.1 ++ backend_run r.2 es
  end.

(** ** What comes out *)

Definition logged (e : backend_event) : bool :=
  match e with Log level _ => (printk || negb (level =? LOG_LEVEL_NONE)) && (level <=? LEVEL) | _ => false end.
Definition chunks_of (e : backend_event) : list bytes := match e with Log _ c => c | _ => [] end.
Definition is_log (e : backend_event) : Prop := match e with Log _ _ => True | _ => False end.
Definition is_runtime (e : backend_event) : Prop := match e with Log _ _ | Panic => True | _ => False end.

(** The texts of the logs at a level that is sent, in order. *)
Definition texts (es : list backend_event) : list bytes :=
  es ≫= fun e => if logged e then chunks_of e else [].

(** A text cut to what a message holds. *)
Definition cut (c : bytes) : bytes := take (Z.to_nat (Z.min (zlen c) LOG_MAX_CHAR_COUNT)) c.

Lemma process_registered n level chunks :
  process level chunks (Backend_ true n) =
  if logged (Log level chunks) && (n <=? 1) then (fun c => Printed (cut c) (negb (n =? 0))) <$> chunks else [].
Proof.
  unfold process, logged. cbn [print_log panic_count negb].
  destruct printk, (level =? LOG_LEVEL_NONE); cbn [negb andb orb]; try done; rewrite Z.leb_antisym; destruct (LEVEL <? level); cbn [negb andb]; try done;
    unfold can_message_out; cbn [print_log panic_count snd andb]; induction chunks as [| c l IH]; cbn; destruct (n <=? 1); cbn in *; try done;
    by rewrite IH.
Qed.

Lemma run_logs es rest n : Forall is_log es ->
  backend_run (Backend_ true n) (es ++ rest) =
  (if n <=? 1 then (fun c => Printed (cut c) (negb (n =? 0))) <$> texts es else []) ++ backend_run (Backend_ true n) rest.
Proof.
  induction 1 as [| e es Fe F IH]; [cbn; by destruct (n <=? 1) |]. destruct e as [| | | level chunks]; try done.
  cbn [app backend_run backend_step fst snd]. rewrite process_registered, IH. unfold texts. cbn [mbind list_bind]. fold (texts es).
  rewrite fmap_app. destruct (logged _), (n <=? 1); cbn [andb chunks_of app]; try done. by rewrite app_assoc.
Qed.

Lemma run_silent es : forall n, 2 <= n -> n + zlen es < 2147483648 -> Forall is_runtime es -> backend_run (Backend_ true n) es = [].
Proof.
  induction es as [| e es IH]; intros n Hn Hb F; [done |]. apply Forall_cons in F as [Fe F]. rewrite zlen_cons in Hb. pose proof (zlen_nonneg es).
  destruct e as [| | | level chunks]; try done; cbn [backend_run backend_step fst snd app].
  - unfold panic. cbn [print_log panic_count]. rewrite s32_small by lia. apply IH; [lia | lia | done].
  - rewrite process_registered. bfalse (n <=? 1). rewrite andb_false_r. apply IH; [lia | lia | done].
Qed.

(** The logs that reach the Jetson.  Once the backend is registered, the logs at a level that is sent come out whole and
    in order, each piece cut to what a message holds: without blocking before the first panic, blocking after it; after
    a second panic nothing comes out any more. *)
Theorem logs_until_second_panic (before during after : list backend_event)
  (Hb : Forall is_log before) (Hd : Forall is_log during) (Ha : Forall is_runtime after) (Hn : zlen after < 2 ^ 31 - 2) :
  backend_run backend_boot (Register :: before ++ Panic :: during ++ Panic :: after) =
  ((fun c => Printed (cut c) false) <$> texts before) ++ ((fun c => Printed (cut c) true) <$> texts during).
Proof.
  cbn [backend_run backend_step fst snd app]. change (log_backend_can_register_print backend_boot) with (Backend_ true 0).
  rewrite run_logs by done. cbn [backend_run backend_step fst snd app]. change (panic (Backend_ true 0)) with (Backend_ true 1).
  rewrite run_logs by done. cbn [backend_run backend_step fst snd app]. change (panic (Backend_ true 1)) with (Backend_ true 2).
  rewrite run_silent by (try done; lia). by rewrite app_nil_r.
Qed.
End Backend.

Lemma logs_until_second_panic_witness :
  backend_run 4 2 true backend_boot [Register; Log 2 [[1; 2; 3; 4]; [5]]; Log 3 [[9]]; Panic; Log 1 [[6]]; Panic; Log 1 [[7]]] =
  [Printed [1; 2; 3] false; Printed [5] false; Printed [6] true].
Proof.
  exact (logs_until_second_panic 4 2 true [Log 2 [[1; 2; 3; 4]; [5]]; Log 3 [[9]]] [Log 1 [[6]]] [Log 1 [[7]]]
    ltac:(repeat constructor) ltac:(repeat constructor) ltac:(repeat constructor) ltac:(done)).
Defined.
End Backend.

(** ** lib/logs_can/logs_can.c: the hook of printk *)

Module Printk.
(** [sizeof(buf)]. *)
Definition BUF_SIZE : Z := 51.

Record hook := Hook { sending : bool; buf : bytes; buf_idx : Z }.
Definition hook_boot : hook := Hook false (fill BUF_SIZE 0) 0.

(** [logs_init] with a function to send with; without one it only returns RET_ERROR_INVALID_PARAM. *)
Definition logs_init (print : bool) (s : hook) : Z * hook :=
  if print then (RET_SUCCESS, Hook true (buf s) (buf_idx s)) else (RET_ERROR_INVALID_PARAM, s).

(** [printk_hook]: what is sent; [None]: a write outside the buffer. *)
Definition put_buf (c : Z) (s : hook) : option hook :=
  if (0 <=? buf_idx s) && (buf_idx s <? zlen (buf s)) then Some (Hook (sending s) (<[Z.to_nat (buf_idx s) := c]> (buf s)) (buf_idx s)) else None.
Definition printk_hook (c : Z) (s : hook) : option (list bytes * hook) :=
  if negb (sending s) then Some ([], s)
  else if ((c =? 10) || (BUF_SIZE - 1 <=? buf_idx s)) && (0 <? buf_idx s) then
    s ← put_buf 0 s;
    Some ([take (Z.to_nat (buf_idx s)) (buf s)], Hook (sending s) (buf s) 0)
  else
    s ← put_buf c s;
    Some ([], Hook (sending s) (buf s) (buf_idx s + 1)).

Fixpoint hook_run (cs : bytes) (s : hook) : option (list bytes * hook) :=
  match cs with
  | [] => Some ([], s)
  | c :: cs => '(o, s) ← printk_hook c s; '(o', s) ← hook_run cs s; Some (o ++ o', s)
  end.

(** ** What is sent *)

(** The abstract hook: the characters kept. *)
Fixpoint lines (cs kept : bytes) : list bytes * bytes :=
  match cs with
  | [] => ([], kept)
  | c :: cs =>
      if ((c =? 10) || (50 <=? zlen kept)) && negb (bool_decide (kept = [])) then let r := lines cs [] in (kept :: r.1, r.2)
      else lines cs (kept ++ [c])
  end.

Definition holds (kept : bytes) (s : hook) : Prop :=
  sending s = true /\ zlen (buf s) = BUF_SIZE /\ buf_idx s = zlen kept /\ zlen kept <= 50 /\ take (length kept) (buf s) = kept.

Lemma hook_step c kept s : holds kept s ->
  let send := ((c =? 10) || (50 <=? zlen kept)) && negb (bool_decide (kept = [])) in
  exists s', printk_hook c s = Some (if send then [kept] else [], s') /\ holds (if send then [] else kept ++ [c]) s'.
Proof.
  intros (A & B & C & L & T). unfold printk_hook, put_buf. rewrite A, C. cbn [negb]. unfold BUF_SIZE in *. change (51 - 1) with 50.
  pose proof (zlen_nonneg kept). rewrite B. btrue (0 <=? zlen kept). btrue (zlen kept <? 51). cbn [andb].
  assert ((0 <? zlen kept) = negb (bool_decide (kept = []))) as -> by (destruct kept; zlen; [done |]; pose proof (zlen_nonneg kept); by btrue (0 <? 1 + zlen kept)).
  assert (length kept < length (buf s))%nat as Hl by (unfold zlen in *; lia).
  destruct (((c =? 10) || _) && _) eqn:E; cbn [mbind option_bind sending buf buf_idx].
  - eexists. split; [do 3 f_equal; unfold zlen; rewrite Nat2Z.id, take_insert_ge by lia; exact T |].
    split; [done |]. cbn. split; [unfold zlen in *; by rewrite length_insert |]. done.
  - eexists. split; [done |]. split; [done |]. cbn [buf buf_idx sending]. split; [unfold zlen in *; by rewrite length_insert |].
    assert (zlen kept <> 50) as Hne.
    { intros Hk. rewrite Hk in E. rewrite orb_true_r in E. destruct kept; [by zlen | done]. }
    split; [zlen; lia |]. split; [zlen; lia |]. rewrite length_app. cbn [length]. unfold zlen. rewrite Nat2Z.id, Nat.add_1_r.
    rewrite (take_S_r _ _ c) by (by apply list_lookup_insert_eq). by rewrite take_insert_ge, T by lia.
Qed.

Lemma hook_lines cs : forall kept s, holds kept s -> exists s', hook_run cs s = Some ((lines cs kept).1, s') /\ holds (lines cs kept).2 s'.
Proof.
  induction cs as [| c cs IH]; intros kept s Hs; [by eexists |]. cbn [hook_run lines].
  destruct (hook_step c kept s Hs) as (s1 & E & H1). rewrite E. cbn [mbind option_bind].
  destruct (_ && _); cbn [fst snd]; destruct (IH _ _ H1) as (s2 & E2 & H2); rewrite E2; by eexists.
Qed.

(** A line in pieces of 50 characters, the character after each piece left out. *)
Fixpoint pieces (n : nat) (t : bytes) : list bytes :=
  match n with
  | O => []
  | S n => if zlen t <=? 50 then (if bool_decide (t = []) then [] else [t]) else take 50 t :: pieces n (drop 51 t)
  end.

Lemma lines_kept t rest : forall kept, 10 ∉ t -> zlen kept + zlen t <= 50 -> lines (t ++ rest) kept = lines rest (kept ++ t).
Proof.
  induction t as [| c t IH]; intros kept Hn Hl; [by rewrite app_nil_r |]. rewrite zlen_cons in Hl. pose proof (zlen_nonneg t).
  apply not_elem_of_cons in Hn as [Hc Hn]. cbn [app lines]. bfalse (c =? 10). bfalse (50 <=? zlen kept). cbn [orb andb].
  rewrite IH by (try done; zlen; lia). by rewrite <- app_assoc.
Qed.

Lemma lines_pieces n : forall t, 10 ∉ t -> (length t < n)%nat ->
  lines (t ++ [10]) [] = (pieces n t, if zlen t mod 51 =? 0 then [10] else []).
Proof.
  induction n as [| n IH]; intros t Hn Hl; [lia |]. cbn [pieces]. destruct (Z.leb_spec (zlen t) 50) as [L | L].
  - rewrite lines_kept by (try done; zlen; lia). cbn [app lines]. change (10 =? 10) with true. cbn [orb andb].
    pose proof (zlen_nonneg t). rewrite Z.mod_small by lia. destruct t as [| c t]; [done |]. rewrite bool_decide_false by done. cbn [negb fst snd].
    rewrite zlen_cons. pose proof (zlen_nonneg t). by bfalse (1 + zlen t =? 0).
  - assert (exists x, t = take 50 t ++ x :: drop 51 t) as [x Ex].
    { destruct (lookup_lt_is_Some_2 t 50) as [x Hx]; [unfold zlen in L; lia |]. exists x. by rewrite take_drop_middle. }
    assert (length (take 50 t) = 50%nat) as L50 by (rewrite length_take; unfold zlen in L; lia).
    rewrite Ex at 1. rewrite <- app_assoc. cbn [app].
    rewrite lines_kept; [| intros Hx; apply Hn; rewrite <- (take_drop 50 t); apply elem_of_app; by left | unfold zlen; rewrite L50; cbn; lia].
    cbn [app lines]. unfold zlen at 1. rewrite L50. change (50 <=? Z.of_nat 50) with true. rewrite orb_true_r.
    rewrite bool_decide_false by (intros E; by rewrite E in L50). cbn [andb negb fst snd].
    rewrite IH; [| intros Hx; apply Hn; rewrite <- (take_drop 51 t); apply elem_of_app; by right | rewrite length_drop; unfold zlen in L; lia].
    cbn [fst snd]. f_equal. assert (zlen t = zlen (drop 51 t) + 1 * 51) as -> by (unfold zlen in *; rewrite length_drop; lia).
    by rewrite Z.mod_add by done.
Qed.

(** What printk sends.  A line of characters comes out in pieces of 50, and the character that finds the buffer full is
    lost: one in every 51.  A line of a multiple of 51 characters, an empty one for instance, leaves its end in front of the
    next line.  Nothing is written outside the buffer. *)
Theorem printk_line (t : bytes) (Ht : 10 ∉ t) :
  exists s', hook_run (t ++ [10]) (logs_init true hook_boot).2 = Some (pieces (S (length t)) t, s') /\
    take (Z.to_nat (buf_idx s')) (buf s') = (if zlen t mod 51 =? 0 then [10] else []).
Proof.
  assert (holds [] (logs_init true hook_boot).2) as H0 by (split; [done |]; split; [done |]; split; [done |]; split; done).
  destruct (hook_lines (t ++ [10]) [] _ H0) as (s' & E & (A & B & C & L & T)).
  rewrite (lines_pieces (S (length t)) t Ht ltac:(lia)) in *. cbn [fst snd] in *. exists s'. split; [exact E |]. rewrite C. unfold zlen at 1. by rewrite Nat2Z.id.
Qed.

Lemma printk_line_witness :
  exists s', hook_run (fill 60 65 ++ [10]) (logs_init true hook_boot).2 = Some ([fill 50 65; fill 9 65], s') /\ buf_idx s' = 0.
Proof.
  destruct (printk_line (fill 60 65)) as (s' & E & _).
  - intros H. apply elem_of_replicate_inv in H. discriminate H.
  - exists s'. split; [exact E |]. vm_compute in E. injection E as <-. reflexivity.
Defined.
End Printk.

(** ** main_board/src/system/logs.c: a log as a message to the Jetson *)

Module JetsonLog.
Section JetsonLog.
(** The size of the member [log], and nanopb's encoding of the message that holds it, within a CAN frame. *)
Context (LOG_LEN : Z) (pb_encode : bytes -> option bytes).

Inductive log_call :=
| PublishNew (payload : bytes)       (* the first [size] bytes of the message *)
| BlockingTx (m : bytes).

(** [logs_can]: the static member, and the call made; [None]: the text is read past its end. *)
Definition logs_can (data : bytes) (size : Z) (blocking : bool) (log : bytes) : option (bytes * list log_call) :=
  if LOG_LEN <? size then Some (log, [])
  else if zlen data <? size then None
  else
    let log := take (Z.to_nat size) data ++ fill (LOG_LEN - size) 0 in
    Some (log, if blocking then match pb_encode log with Some m => [BlockingTx m] | None => [] end
               else [PublishNew (take (Z.to_nat size) log)]).

(** From the backend to the bus: every text the backend prints is taken whole, and nothing is left of an earlier one.  What
    blocks is encoded and sent at once, the rest is published. *)
Theorem printed_logs_are_sent (LOG_SIZE : Z) (n : Z) (level : Z) (printk : bool) (LEVEL : Z) (chunks : list bytes) (p : Backend.printed) (log : bytes)
  (Hs : 1 <= LOG_SIZE <= LOG_LEN + 1) (Hp : p ∈ Backend.process LOG_SIZE LEVEL printk level chunks (Backend.Backend_ true n)) :
  let text := Backend.text p in let member := text ++ fill (LOG_LEN - zlen text) 0 in
  zlen text <= LOG_LEN /\ logs_can text (zlen text) (Backend.blocking p) log =
    Some (member, if Backend.blocking p then match pb_encode member with Some m => [BlockingTx m] | None => [] end else [PublishNew text]).
Proof.
  rewrite Backend.process_registered in Hp. destruct (_ && _); [| by apply elem_of_nil in Hp].
  apply list_elem_of_fmap in Hp as (c & -> & _). cbn [Backend.text Backend.blocking]. set (t := Backend.cut LOG_SIZE c).
  assert (zlen t <= LOG_LEN) as Ht by (unfold t, Backend.cut, Backend.LOG_MAX_CHAR_COUNT, zlen; rewrite length_take; lia).
  cbv zeta. split; [exact Ht |]. unfold logs_can. bfalse (LOG_LEN <? zlen t). bfalse (zlen t <? zlen t).
  assert (take (Z.to_nat (zlen t)) t = t) as -> by (apply take_ge; unfold zlen; lia).
  destruct (negb _); [done |]. do 4 f_equal. rewrite take_app_le by (unfold zlen; lia). apply take_ge. unfold zlen. lia.
Qed.
End JetsonLog.

Lemma printed_logs_are_sent_witness :
  logs_can 4 Some [7; 8] 2 true [1; 1; 1; 1] = Some ([7; 8; 0; 0], [BlockingTx [7; 8; 0; 0]]).
Proof.
  refine (proj2 (printed_logs_are_sent 4 Some 4 1 1 true 2 [[7; 8]] (Backend.Printed [7; 8] true) [1; 1; 1; 1] _ _)); [lia |].
  vm_compute. by left.
Defined.
End JetsonLog.

(** ** lib/errors *)

Module Errors.
(** [char filename[128]]. *)
Definition FILENAME_SIZE : Z := 128.

Record fatal_error_info := Info { filename : bytes; line_num : Z; err_code : Z }.
Record assert_sys := Assert { error_count : Z; error_info : fatal_error_info; work_pending : bool; user_cb : bool }.
Definition assert_boot : assert_sys := Assert 0 (Info (fill FILENAME_SIZE 0) 0 0) false false.

Inductive fatal_action := SchedLock | LogPanic | LogFatal (i : fatal_error_info) | UserCallback (i : fatal_error_info) | SystemReset.

Definition app_assert_init (cb : bool) (s : assert_sys) : assert_sys := Assert (error_count s) (error_info s) false cb.

(** [fatal], also the work item. *)
Definition fatal (s : assert_sys) : list fatal_action :=
  [SchedLock; LogPanic; LogFatal (error_info s)] ++ (if user_cb s then [UserCallback (error_info s)] else []) ++ [SystemReset].

(** [strncpy] of a string given with what follows it in memory. *)
Fixpoint until_nul (s : bytes) : bytes := match s with c :: r => if c =? 0 then [] else c :: until_nul r | [] => [] end.
Definition strncpy (n : Z) (s : bytes) : bytes := take (Z.to_nat n) (until_nul s ++ fill n 0).

(** In an interrupt the work is submitted and the handler returns. *)
Definition app_assert_hard_handler (in_isr : bool) (code line : Z) (file : bytes) (s : assert_sys) : list fatal_action * assert_sys :=
  let name := <[Z.to_nat (FILENAME_SIZE - 1) := 0]> (strncpy FILENAME_SIZE file) in
  let s := Assert (error_count s) (Info name line code) (work_pending s) (user_cb s) in
  if in_isr then ([], Assert (error_count s) (error_info s) true (user_cb s)) else (fatal s, s).

Definition app_assert_soft_handler (s : assert_sys) : assert_sys :=
  Assert (u32 (error_count s + 1)) (error_info s) (work_pending s) (user_cb s).
Definition ASSERT_SOFT (code : Z) (s : assert_sys) : assert_sys := if code =? 0 then s else app_assert_soft_handler s.
Definition app_assert_soft_count (s : assert_sys) : Z := error_count s.

(** *** Kernel errors *)

(** [k_sys_fatal_error_handler]: the flag, and what is done. *)
Definition k_sys_fatal_error_handler (recursive_call_flag : bool) : bool * list fatal_action :=
  (true, (if recursive_call_flag then [] else [LogPanic]) ++ [SystemReset]).

(** *** Errors on purpose *)

Inductive error_case :=
| FATAL_RANDOM | FATAL_ACCESS | FATAL_ILLEGAL_INSTRUCTION | FATAL_BUSFAULT | FATAL_MEMMANAGE | FATAL_DIVIDE_ZERO | FATAL_K_PANIC | FATAL_K_OOPS
| FATAL_IN_ISR | ASSERT_FAIL | USER_ASSERT_HARD | ASSERT_IN_ISR | USER_ASSERT_HARD_IN_ISR | FATAL_WATCHDOG.

(** The enumeration, as CONFIG_IRQ_OFFLOAD and CONFIG_WATCHDOG make it. *)
Definition error_cases (irq_offload watchdog : bool) : list error_case :=
  [FATAL_RANDOM; FATAL_ACCESS; FATAL_ILLEGAL_INSTRUCTION; FATAL_BUSFAULT; FATAL_MEMMANAGE; FATAL_DIVIDE_ZERO; FATAL_K_PANIC; FATAL_K_OOPS;
   FATAL_IN_ISR; ASSERT_FAIL; USER_ASSERT_HARD] ++
  (if irq_offload then [ASSERT_IN_ISR; USER_ASSERT_HARD_IN_ISR] else []) ++ (if watchdog then [FATAL_WATCHDOG] else []).

Inductive fault :=
| ReadBadAddress | CallNull | CallUnaligned | CallNoExecute | DivideByZero | KPanic | KOops | KernelAssert | HardAssert
| KernelAssertInIsr | HardAssertInIsr | StopFeeding | Unimplemented.

(** [fatal_errors_trigger]; [random] is what [sys_rand32_get] answers, [feeding] CONFIG_ORB_LIB_WATCHDOG. *)
Definition fatal_errors_trigger (irq_offload watchdog feeding : bool) (random : Z) (type : error_case) : fault :=
  let cases := error_cases irq_offload watchdog in
  let type := match type with FATAL_RANDOM => default FATAL_RANDOM (cases !! Z.to_nat (random mod zlen cases)) | t => t end in
  match type with
  | FATAL_ACCESS => ReadBadAddress
  | FATAL_ILLEGAL_INSTRUCTION => CallNull
  | FATAL_BUSFAULT => CallUnaligned
  | FATAL_MEMMANAGE => CallNoExecute
  | FATAL_DIVIDE_ZERO => DivideByZero
  | FATAL_K_PANIC => KPanic
  | FATAL_K_OOPS => KOops
  | ASSERT_FAIL => KernelAssert
  | USER_ASSERT_HARD => HardAssert
  | ASSERT_IN_ISR => if irq_offload then KernelAssertInIsr else Unimplemented
  | USER_ASSERT_HARD_IN_ISR => if irq_offload then HardAssertInIsr else Unimplemented
  | FATAL_WATCHDOG => if feeding then StopFeeding else Unimplemented
  | FATAL_RANDOM | FATAL_IN_ISR => Unimplemented
  end.

(** *** Assertions over time *)

Inductive assert_event :=
| Hard (in_isr : bool) (code line : Z) (file : bytes)
| Soft (code : Z)
| Work.                       (* the work queue runs *)

(** [None]: the chip was reset, after these actions. *)
Definition assert_step (s : assert_sys) (e : assert_event) : list fatal_action * option assert_sys :=
  match e with
  | Hard isr code line file =>
      let r := app_assert_hard_handler isr code line file s in (r.1, if isr then Some r.2 else None)
  | Soft code => ([], Some (ASSERT_SOFT code s))
  | Work => if work_pending s then (fatal s, None) else ([], Some s)
  end.

Fixpoint assert_run (s : assert_sys) (es : list assert_event) : list fatal_action * option assert_sys :=
  match es with
  | [] => ([], Some s)
  | e :: es => match assert_step s e with
               | (a, Some s) => let r := assert_run s es in (a ++ r.1, r.2)
               | (a, None) => (a, None)
               end
  end.

(** The error a hard assertion records. *)
Definition info_of (code line : Z) (file : bytes) : fatal_error_info :=
  Info (<[127%nat := 0]> (strncpy FILENAME_SIZE file)) line code.
Definition last_hard (es : list assert_event) : option fatal_error_info :=
  fold_left (fun i e => match e with Hard _ code line file => Some (info_of code line file) | _ => i end) es None.
Definition interrupts_only (es : list assert_event) : Prop :=
  Forall (fun e => match e with Hard isr _ _ _ => isr = true | Soft _ => True | Work => False end) es.
Definition is_soft_error (e : assert_event) : bool := match e with Soft c => negb (c =? 0) | _ => false end.
Definition soft_errors (es : list assert_event) : Z := zlen (filter (fun e => is_soft_error e = true) es).

Lemma name_length file : length (strncpy FILENAME_SIZE file) = 128%nat.
Proof. unfold strncpy. rewrite length_take, length_app. unfold fill, FILENAME_SIZE. rewrite length_replicate. lia. Qed.

Lemma interrupts_run es : forall s i, interrupts_only es -> 0 <= error_count s -> error_count s + zlen es < 2 ^ 32 ->
  (if work_pending s then i = Some (error_info s) else i = None) ->
  exists s', assert_run s es = ([], Some s') /\ user_cb s' = user_cb s /\ error_count s' = error_count s + soft_errors es /\
    let l := fold_left (fun i e => match e with Hard _ code line file => Some (info_of code line file) | _ => i end) es i in
    if work_pending s' then l = Some (error_info s') else l = None.
Proof.
  induction es as [| e es IH]; intros s i F Hc Hb Hi; [exists s; split; [done |]; split; [done |]; split; [change (soft_errors []) with 0; lia | exact Hi] |].
  apply Forall_cons in F as [Fe F]. rewrite zlen_cons in Hb. pose proof (zlen_nonneg es).
  destruct e as [isr code line file | code |]; [subst isr | | done]; cbn [assert_run assert_step fst snd fold_left].
  - destruct (IH (app_assert_hard_handler true code line file s).2 (Some (info_of code line file)) F) as (s' & E & C & N & L); cbn; try lia; try done.
    exists s'. cbn in E. rewrite E. split; [done |]. split; [exact C |]. split; [| exact L]. rewrite N. cbn. unfold soft_errors. by rewrite filter_cons_False.
  - assert (error_count (ASSERT_SOFT code s) = error_count s + zbool (negb (code =? 0))) as Ec.
    { unfold ASSERT_SOFT, app_assert_soft_handler. destruct (code =? 0); cbn; [lia |]. rewrite u32_small by lia. done. }
    assert (soft_errors (Soft code :: es) = zbool (negb (code =? 0)) + soft_errors es) as Es.
    { unfold soft_errors. rewrite filter_cons. cbn [is_soft_error]. destruct (code =? 0); cbn [negb]; case_decide; try done; zlen; cbn; lia. }
    destruct (IH (ASSERT_SOFT code s) i F) as (s' & E & C & N & L).
    + rewrite Ec. destruct (code =? 0); cbn; lia.
    + rewrite Ec. destruct (code =? 0); cbn; lia.
    + unfold ASSERT_SOFT. by destruct (code =? 0).
    + exists s'. rewrite E. split; [done |]. split; [rewrite C; unfold ASSERT_SOFT; by destruct (code =? 0) |]. split; [rewrite N, Ec, Es; lia | exact L].
Qed.

Lemma assert_run_app es a : forall s s', assert_run s es = ([], Some s') -> assert_run s (es ++ a) = assert_run s' a.
Proof.
  induction es as [| e es IH]; intros s s' E; cbn [app assert_run] in *; [by injection E as -> |].
  destruct (assert_step s e) as [act [s1 |]]; [| done]. destruct (assert_run s1 es) as [b o] eqn:Er. cbn [fst snd] in E.
  injection E as E ->. apply app_eq_nil in E as [-> ->]. rewrite (IH s1 s' Er). cbn [app]. by destruct (assert_run s' a).
Qed.

(** The last words of a hard assertion. *)
Definition last_words (cb : bool) (i : fatal_error_info) : list fatal_action :=
  [SchedLock; LogPanic; LogFatal i] ++ (if cb then [UserCallback i] else []) ++ [SystemReset].

(** Hard assertions reset the chip.  Soft assertions are counted, one for each code that is not 0, and nothing else; a hard assertion of a thread
    resets the chip after its own report and the callback; those of interrupts only record their error, and the work item
    then resets with the last one, or does nothing when there was none.  The file name reported always ends. *)
Theorem assertions_reset (cb : bool) (es : list assert_event) (Hi : interrupts_only es) (Hn : zlen es < 2 ^ 32) :
  let s0 := app_assert_init cb assert_boot in
  (forall code line file, assert_run s0 (es ++ [Hard false code line file]) = (last_words cb (info_of code line file), None) /\
     filename (info_of code line file) !! 127%nat = Some 0) /\
  exists s', assert_run s0 es = ([], Some s') /\ app_assert_soft_count s' = soft_errors es /\
    assert_run s0 (es ++ [Work]) = match last_hard es with Some i => (last_words cb i, None) | None => ([], Some s') end.
Proof.
  cbv zeta. destruct (interrupts_run es (app_assert_init cb assert_boot) None Hi) as (s' & E & C & N & L); [done | cbn; lia | done |].
  split.
  - intros code line file. rewrite (assert_run_app es _ _ _ E). cbn [assert_run assert_step]. split.
    + unfold app_assert_hard_handler, fatal. cbn [fst user_cb error_info]. rewrite C. done.
    + cbn [filename info_of]. apply list_lookup_insert_eq. rewrite name_length. lia.
  - exists s'. split; [exact E |]. split; [exact N |]. rewrite (assert_run_app es _ _ _ E). cbn [assert_run assert_step].
    unfold last_hard. cbv zeta in L. destruct (work_pending s'); rewrite L; [| done]. unfold fatal. by rewrite C.
Qed.

Lemma assertions_reset_witness :
  assert_run (app_assert_init true assert_boot) [Soft 3; Hard true 5 10 [65; 0]; Soft 0; Hard true 6 20 [66; 67; 0; 99]; Work] =
    (last_words true (Info ([66; 67] ++ fill 126 0) 20 6), None).
Proof.
  destruct (assertions_reset true [Soft 3; Hard true 5 10 [65; 0]; Soft 0; Hard true 6 20 [66; 67; 0; 99]]) as [_ (s' & _ & _ & E)].
  - repeat constructor.
  - done.
  - exact E.
Defined.

(** An error at random may be none: the draw can give the random case itself, or the one that has no code. *)
Example random_error_is_none :
  fatal_errors_trigger false false true 22 FATAL_RANDOM = Unimplemented /\ fatal_errors_trigger false false true 8 FATAL_RANDOM = Unimplemented.
Proof. split; vm_compute; reflexivity. Qed.
End Errors.
