(* ===== verification/Startup.v ===== *)
(** main_board/src/main.c and ui/ui.c: the start of the firmware, what it does when the Jetson is up, and its last words to the Jetson
    when something fatal happens.

    What each call answers is a parameter, as are the options of the build; a start is the list of the calls
    made and the count of soft assertions. *)

From S2P Require Import Prelude Flash Storage Can PubSub Logs.

(** ** The calls of [initialize] *)

Inductive startup_call :=
| FatalInit | PubsubStorageInit | RunnerInit | PingInit | AppAssertInit | WatchdogInit | CanMessagingInit | UartMessagingInit | VersionInit
| VoltageMeasurementInit | LogsInit | HeartbeatRegisterCb | BatteryInit | BootTurnOnJetson | FanInit | TemperatureInit | SoundInit
| FrontLedsInit | OperatorLedsInit | WhiteLedsInit | BootProgressJetsonBoot | AlsInit | DfuInit | ButtonInit | PingSecInit | GnssInit
| BootTurnOnSuperCapCharger | BootTurnOnPvcc | OpticsInit | BootProgressOpticsInitialized | FanTachInit
| NfcSelfTest | FanTachSelfTest | VoltageMeasurementSelftest | DatePrint
| VersionFwSend | PublishFatalError (reason : Z) | BackupClearRebootFlag
| Msleep (ms : Z).

#[export] Instance startup_call_eq_dec : EqDecision startup_call.
Proof. solve_decision. Defined.

(** CONFIG_ORB_LIB_WATCHDOG without SYS_INIT, CONFIG_ORB_LIB_CAN_MESSAGING, CONFIG_ORB_LIB_UART_MESSAGING, CONFIG_ORB_LIB_LOGS_CAN,
    CONFIG_ORB_LIB_HEALTH_MONITORING; whether the Jetson is booted, and the super-capacitors charged. *)
Record build := Build {
  target : board;
  watchdog_lib : bool;
  can_lib : bool;
  uart_lib : bool;
  logs_can_lib : bool;
  health_lib : bool;
  jetson_boot : bool;
  super_caps : bool;
}.

Record start := Start { trace : list startup_call; assert_count : Z }.
Definition start_boot : start := Start [] 0.

Section Startup.
Context (ret : startup_call -> Z) (c : build).
(** The hardware shares timer 2 between the polarizer wheel and the fans' tachometer, and whether the wheel is homed when it is asked. *)
Context (timer2_shared homed : bool).

Definition run_call (x : startup_call) (s : start) : start := Start (trace s ++ [x]) (assert_count s).
Definition assert_soft (code : Z) (s : start) : start := Start (trace s) (if code =? 0 then assert_count s else u32 (assert_count s + 1)).
(** [err_code = x(); ASSERT_SOFT(err_code);] *)
Definition init (x : startup_call) (s : start) : start := assert_soft (ret x) (run_call x s).
Definition when (b : bool) (f : start -> start) (s : start) : start := if b then f s else s.
Definition diamond : bool := bool_decide (target c = Diamond).

Definition ui_init (s : start) : start :=
  let s := init FrontLedsInit s in
  let s := init OperatorLedsInit s in
  when diamond (init WhiteLedsInit) s.

(** The supplies and the optics. *)
Definition start_optics (s : start) : start :=
  if super_caps c then
    let s := run_call (Msleep 14000) s in
    let s := run_call BootTurnOnSuperCapCharger s in
    if ret BootTurnOnSuperCapCharger =? RET_SUCCESS then
      let s := run_call (Msleep 6000) s in
      let s := run_call BootTurnOnPvcc s in
      if ret BootTurnOnPvcc =? RET_SUCCESS then run_call OpticsInit s else assert_soft (ret BootTurnOnPvcc) s
    else assert_soft (ret BootTurnOnSuperCapCharger) s
  else run_call OpticsInit s.

Definition start_fan_tach (s : start) : start :=
  if diamond && timer2_shared then
    let s := run_call (Msleep 15000) s in
    if homed then s else init FanTachInit s
  else init FanTachInit s.

Definition initialize (s : start) : start :=
  let s := run_call FatalInit s in
  let s := init PubsubStorageInit s in
  let s := run_call RunnerInit s in
  let s := run_call PingInit s in
  let s := run_call AppAssertInit s in
  let s := when (watchdog_lib c) (init WatchdogInit) s in
  let s := when (can_lib c) (init CanMessagingInit) s in
  let s := when (uart_lib c) (init UartMessagingInit) s in
  let s := init VersionInit s in
  let s := init VoltageMeasurementInit s in
  let s := when (logs_can_lib c && jetson_boot c) (init LogsInit) s in
  let s := when (health_lib c) (run_call HeartbeatRegisterCb) s in
  let s := init BatteryInit s in
  let s := when (jetson_boot c) (init BootTurnOnJetson) s in
  let s := init FanInit s in
  let s := run_call TemperatureInit s in
  let s := init SoundInit s in
  let s := ui_init s in
  let s := run_call BootProgressJetsonBoot s in
  let s := init AlsInit s in
  let s := init DfuInit s in
  let s := init ButtonInit s in
  let s := run_call PingSecInit s in
  let s := when (negb diamond) (init GnssInit) s in
  let s := start_optics s in
  let s := run_call BootProgressOpticsInitialized s in
  start_fan_tach s.

Definition run_tests (s : start) : start :=
  let s := when diamond (init NfcSelfTest) s in
  let s := run_call FanTachSelfTest s in
  init VoltageMeasurementSelftest s.

(** *** Waiting for the Jetson *)

(** The reset flags: a mask and the reason for each, in the order of the tests. *)
Context (reset_flags : list (Z * Z)) (reset_reason : Z).

Definition send_reset_reason (s : start) : start :=
  if reset_reason =? 0 then s
  else fold_left (fun s f => when (negb (Z.land reset_reason f.1 =? 0)) (run_call (PublishFatalError f.2)) s) reset_flags s.

(** The loop; [jobs] are the counts of processed jobs the polls find.  Whether it ended. *)
Fixpoint wait_jetson_up (jobs : list Z) (s : start) : bool * start :=
  match jobs with
  | [] => (false, s)
  | n :: jobs =>
      let s := run_call (Msleep 5000) s in
      if 0 <? n then (true, send_reset_reason (run_call VersionFwSend s)) else wait_jetson_up jobs s
  end.

(** [main_internal]; without the Jetson nothing is waited for. *)
Definition main_internal (jobs : list Z) : bool * start :=
  let s := run_tests (initialize start_boot) in
  let s := run_call DatePrint s in
  let '(up, s) := if jetson_boot c then wait_jetson_up jobs s else (true, s) in
  (up, if up then run_call BackupClearRebootFlag s else s).
End Startup.

(** ** What a start is *)

(** What must have been called before. *)
Definition requires (c : build) (x : startup_call) : list startup_call :=
  match x with
  | RunnerInit => [PubsubStorageInit]
  | CanMessagingInit | UartMessagingInit => [RunnerInit; PingInit]
  | LogsInit => if can_lib c then [CanMessagingInit] else []
  | VoltageMeasurementInit | SoundInit | OperatorLedsInit | WhiteLedsInit | AlsInit => [VersionInit]
  | BatteryInit | BootTurnOnJetson => [VoltageMeasurementInit]
  | TemperatureInit => [VersionInit; FanInit; VoltageMeasurementInit]
  | BootTurnOnSuperCapCharger => if jetson_boot c then [VoltageMeasurementInit; BootTurnOnJetson] else [VoltageMeasurementInit]
  | BootTurnOnPvcc => [BootTurnOnSuperCapCharger]
  | OpticsInit => VersionInit :: if super_caps c then [BootTurnOnSuperCapCharger; BootTurnOnPvcc] else []
  | BootProgressJetsonBoot | BootProgressOpticsInitialized => [FrontLedsInit]
  | _ => []
  end.

Fixpoint in_order (c : build) (seen l : list startup_call) : bool :=
  match l with
  | [] => true
  | x :: l => forallb (fun y => bool_decide (y ∈ seen)) (requires c x) && in_order c (seen ++ [x]) l
  end.

Lemma in_order_spec c l : forall seen, in_order c seen l = true ->
  forall i x y, l !! i = Some x -> y ∈ requires c x -> y ∈ seen \/ exists j, (j < i)%nat /\ l !! j = Some y.
Proof.
  induction l as [| z l IH]; intros seen E i x y Hx Hy; [done |]. cbn [in_order] in E. apply andb_prop in E as [Ez E]. destruct i as [| i].
  - injection Hx as ->. rewrite forallb_forall in Ez. apply list_elem_of_In in Hy. apply Ez, bool_decide_eq_true in Hy. by left.
  - destruct (IH _ E i x y Hx Hy) as [H | (j & Hj & E')].
    + apply elem_of_app in H as [H | H]; [by left |]. apply list_elem_of_singleton in H as ->. right. exists 0%nat. split; [lia | done].
    + right. exists (S j). split; [lia | done].
Qed.

(** The milliseconds slept before the first call of [x]. *)
Fixpoint slept_before (x : startup_call) (l : list startup_call) : Z :=
  match l with
  | [] => 0
  | y :: l => if decide (y = x) then 0 else (match y with Msleep ms => ms | _ => 0 end) + slept_before x l
  end.

Definition is_sleep (x : startup_call) : bool := match x with Msleep _ => true | _ => false end.
Definition ok (z : Z) : bool := z =? RET_SUCCESS.

(** The checks of one start, given the answers of the two supplies. *)
Definition start_ok (c : build) (t h charger pvcc : bool) : bool :=
  let ret x := match x with BootTurnOnSuperCapCharger => zbool (negb charger) | BootTurnOnPvcc => zbool (negb pvcc) | _ => 0 end in
  let l := trace (initialize ret c t h start_boot) in
  in_order c [] l && bool_decide (NoDup (filter (fun x => is_sleep x = false) l)) &&
  Bool.eqb (bool_decide (OpticsInit ∈ l)) (negb (super_caps c) || charger && pvcc) &&
  (negb (super_caps c) || negb (charger && pvcc) || (slept_before OpticsInit l =? 20000)) && bool_decide (BootProgressOpticsInitialized ∈ l).

Definition all_bool (P : bool -> bool) : bool := P true && P false.
Lemma all_bool_spec P : all_bool P = true -> forall b, P b = true.
Proof. unfold all_bool. intros E. apply andb_prop in E as [T F]. by intros []. Qed.

Lemma starts_ok c t h charger pvcc : start_ok c t h charger pvcc = true.
Proof.
  assert (all_bool (fun w => all_bool (fun ca => all_bool (fun u => all_bool (fun l => all_bool (fun he => all_bool (fun j => all_bool (fun sc =>
    all_bool (fun t => all_bool (fun h => all_bool (fun ch => all_bool (fun pv =>
      start_ok (Build Pearl w ca u l he j sc) t h ch pv && start_ok (Build Diamond w ca u l he j sc) t h ch pv))))))))))) = true) as A
    by (vm_compute; reflexivity).
  destruct c as [tg w ca u l he j sc].
  pose proof (all_bool_spec _ (all_bool_spec _ (all_bool_spec _ (all_bool_spec _ (all_bool_spec _ (all_bool_spec _ (all_bool_spec _
    (all_bool_spec _ (all_bool_spec _ (all_bool_spec _ (all_bool_spec _ A w) ca) u) l) he) j) sc) t) h) charger) pvcc) as P.
  apply andb_prop in P as [P D]. by destruct tg.
Qed.

(** Starts with the same calls: the answers only matter through those of the two supplies. *)
Definition same (s s' : start) : Prop := trace s = trace s'.

Section Same.
Context (ret ret' : startup_call -> Z) (c : build).

Lemma same_run x s s' : same s s' -> same (run_call x s) (run_call x s').
Proof. unfold same, run_call. by intros <-. Qed.
Lemma same_init x s s' : same s s' -> same (init ret x s) (init ret' x s').
Proof. unfold same, init, assert_soft, run_call. by intros <-. Qed.
Lemma same_when (b : bool) f f' s s' : (same s s' -> same (f s) (f' s')) -> same s s' -> same (when b f s) (when b f' s').
Proof. destruct b; cbn; auto. Qed.
Lemma same_assert z z' s s' : same s s' -> same (assert_soft z s) (assert_soft z' s').
Proof. unfold same, assert_soft. by intros <-. Qed.
Lemma same_if (b : bool) s1 s2 s1' s2' : same s1 s1' -> same s2 s2' -> same (if b then s1 else s2) (if b then s1' else s2').
Proof. by destruct b. Qed.
End Same.
Create HintDb startup.
#[export] Hint Resolve same_run same_init same_when same_assert same_if : startup.

Lemma initialize_same ret ret' c t h s :
  ok (ret BootTurnOnSuperCapCharger) = ok (ret' BootTurnOnSuperCapCharger) -> ok (ret BootTurnOnPvcc) = ok (ret' BootTurnOnPvcc) ->
  same (initialize ret c t h s) (initialize ret' c t h s).
Proof.
  unfold ok. intros E1 E2. unfold initialize, ui_init, start_fan_tach, start_optics. rewrite E1, E2. cbv zeta.
  assert (same s s) as Hs by done. auto 60 with startup.
Qed.

Lemma initialize_shape ret c t h :
  let ret' x := match x with BootTurnOnSuperCapCharger => zbool (negb (ok (ret BootTurnOnSuperCapCharger)))
                | BootTurnOnPvcc => zbool (negb (ok (ret BootTurnOnPvcc))) | _ => 0 end in
  trace (initialize ret c t h start_boot) = trace (initialize ret' c t h start_boot).
Proof. cbv zeta. apply initialize_same; by destruct (ok (ret _)). Qed.

(** C11: The start is in order.  In every build, on both boards and whatever the calls answer: what a component needs was initialised before it
    (the storage before the runner, the runner before the buses that call it, the versions before what depends on them, the voltages
    before the battery and the supplies, the fan before the temperatures, the supplies before the optics); nothing is
    initialised twice; the start goes on to its end; the optics are initialised exactly when no super-capacitor is used or both supplies
    came up, and then not before 20 seconds of charge. *)
Theorem start_in_order (ret : startup_call -> Z) (c : build) (timer2_shared homed : bool) :
  let l := trace (initialize ret c timer2_shared homed start_boot) in
  (forall i x y, l !! i = Some x -> y ∈ requires c x -> exists j, (j < i)%nat /\ l !! j = Some y) /\
  NoDup (filter (fun x => is_sleep x = false) l) /\ BootProgressOpticsInitialized ∈ l /\
  (OpticsInit ∈ l <-> super_caps c = false \/ (ret BootTurnOnSuperCapCharger = RET_SUCCESS /\ ret BootTurnOnPvcc = RET_SUCCESS)) /\
  (super_caps c = true -> OpticsInit ∈ l -> slept_before OpticsInit l = 20000).
Proof.
  cbv zeta. rewrite initialize_shape. pose proof (starts_ok c timer2_shared homed (ok (ret BootTurnOnSuperCapCharger)) (ok (ret BootTurnOnPvcc))) as K.
  unfold start_ok in K. cbv zeta in K. set (l := trace _) in *. rewrite !andb_true_iff in K. destruct K as ((((K1 & K2) & K3) & K4) & K5).
  apply bool_decide_eq_true in K2, K5. apply eqb_prop in K3.
  assert (OpticsInit ∈ l <-> super_caps c = false \/ (ret BootTurnOnSuperCapCharger = RET_SUCCESS /\ ret BootTurnOnPvcc = RET_SUCCESS)) as Hopt.
  { rewrite <- (bool_decide_eq_true (OpticsInit ∈ l)), K3, orb_true_iff, negb_true_iff, andb_true_iff. unfold ok. by rewrite !Z.eqb_eq. }
  split; [| split; [done | split; [done | split; [done |]]]].
  - intros i x y Hx Hy. destruct (in_order_spec c l [] K1 i x y Hx Hy) as [H | H]; [by apply elem_of_nil in H | done].
  - intros Hc Ho. apply Hopt in Ho as [Ho | [Ho1 Ho2]]; [congruence |]. rewrite Hc in K4. unfold ok in K4. rewrite Ho1, Ho2 in K4. cbn in K4.
    by apply Z.eqb_eq in K4.
Qed.

(** ** Soft assertions of a start *)

(** The calls whose code is asserted. *)
Definition asserted (x : startup_call) : bool :=
  match x with
  | FatalInit | RunnerInit | PingInit | AppAssertInit | HeartbeatRegisterCb | TemperatureInit | BootProgressJetsonBoot | PingSecInit | OpticsInit
  | BootProgressOpticsInitialized | FanTachSelfTest | DatePrint | VersionFwSend | PublishFatalError _ | BackupClearRebootFlag | Msleep _ => false
  | _ => true
  end.

Definition faulty (ret : startup_call -> Z) (x : startup_call) : bool := asserted x && negb (ret x =? 0).
Definition faults (ret : startup_call -> Z) (l : list startup_call) : Z := zlen (filter (fun x => faulty ret x = true) l).

Section Count.
Context (ret : startup_call -> Z) (c : build).

Definition counted (s : start) : Prop := assert_count s = u32 (faults ret (trace s)).

Lemma faults_app l x : faults ret (l ++ [x]) = faults ret l + zbool (faulty ret x).
Proof. unfold faults. rewrite filter_app, zlen_app, filter_cons. destruct (faulty ret x); case_decide; try done; zlen; cbn; lia. Qed.

Lemma counted_run x s : faulty ret x = false -> counted s -> counted (run_call x s).
Proof. unfold counted, run_call. cbn. intros F ->. by rewrite faults_app, F, Z.add_0_r. Qed.

Lemma counted_init x s : asserted x = true -> counted s -> counted (init ret x s).
Proof.
  unfold counted, init, assert_soft, run_call. cbn. intros A ->. rewrite faults_app. unfold faulty. rewrite A. destruct (ret x =? 0); cbn.
  - by rewrite Z.add_0_r.
  - unfold u32. by rewrite Zplus_mod_idemp_l.
Qed.

Lemma counted_when (b : bool) f s : (counted s -> counted (f s)) -> counted s -> counted (when b f s).
Proof. destruct b; auto. Qed.
Lemma counted_if (b : bool) s1 s2 : (b = true -> counted s1) -> (b = false -> counted s2) -> counted (if b then s1 else s2).
Proof. destruct b; auto. Qed.

Lemma counted_quiet x s : asserted x = false -> counted s -> counted (run_call x s).
Proof. intros A. apply counted_run. unfold faulty. by rewrite A. Qed.
Lemma counted_fine x s : ok (ret x) = true -> counted s -> counted (run_call x s).
Proof. intros A. apply counted_run. unfold faulty, ok in *. apply Z.eqb_eq in A. rewrite A. by rewrite andb_false_r. Qed.

Ltac through :=
  repeat first [ simple apply counted_when; [intros ? |] | simple apply counted_init; [reflexivity |] | simple apply counted_quiet; [reflexivity |]
               | assumption ].

Lemma counted_optics s : counted s -> counted (start_optics ret c s).
Proof.
  intros Hs. unfold start_optics. cbv zeta. simple apply counted_if; intros _; [| by through]. simple apply counted_if; intros E1.
  - simple apply counted_if; intros E2.
    + simple apply counted_quiet; [reflexivity |]. simple apply counted_fine; [exact E2 |]. simple apply counted_quiet; [reflexivity |].
      simple apply counted_fine; [exact E1 |]. by through.
    + change (counted (init ret BootTurnOnPvcc (run_call (Msleep 6000) (run_call BootTurnOnSuperCapCharger (run_call (Msleep 14000) s))))).
      simple apply counted_init; [reflexivity |]. simple apply counted_quiet; [reflexivity |]. simple apply counted_fine; [exact E1 |]. by through.
  - change (counted (init ret BootTurnOnSuperCapCharger (run_call (Msleep 14000) s))). by through.
Qed.

Lemma counted_start t h : counted (run_tests ret c (initialize ret c t h start_boot)).
Proof.
  assert (counted start_boot) as H0 by done. unfold run_tests, initialize, ui_init. cbv zeta. through.
  unfold start_fan_tach. cbv zeta. simple apply counted_if; intros _; [simple apply counted_if; intros _ |]; through; apply counted_optics; through.
Qed.
End Count.

(** Every error of the start is counted, once: after the start and the self-tests the count of soft assertions is the number of
    asserted calls that answered an error. *)
Theorem start_errors_counted (ret : startup_call -> Z) (c : build) (timer2_shared homed : bool) :
  let s := run_tests ret c (initialize ret c timer2_shared homed start_boot) in
  assert_count s = u32 (faults ret (trace s)).
Proof. apply counted_start. Qed.

(** ** The Jetson *)

(** The reasons published for a reset. *)
Definition reasons (flags : list (Z * Z)) (reg : Z) : list startup_call :=
  if reg =? 0 then [] else (fun f => PublishFatalError f.2) <$> filter (fun f => negb (Z.land reg f.1 =? 0) = true) flags.

Lemma send_reset_reason_trace flags reg s : trace (send_reset_reason flags reg s) = trace s ++ reasons flags reg.
Proof.
  unfold send_reset_reason, reasons. destruct (reg =? 0); [by rewrite app_nil_r |]. revert s. induction flags as [| f l IH]; intros s; cbn [fold_left].
  - by rewrite app_nil_r.
  - rewrite IH, filter_cons. destruct (negb (Z.land reg f.1 =? 0)); case_decide; try done. cbn. by rewrite <- app_assoc.
Qed.

(** What the Jetson is told when it is up.  The wait ends at the first poll that finds a processed job, every 5 seconds; the version
    is then sent, followed by one fatal error for each flag of the reset register, once, in order. *)
Theorem jetson_told_once (flags : list (Z * Z)) (reg : Z) (idle rest : list Z) (n : Z) (s : start)
  (Hidle : Forall (fun j => j <= 0) idle) (Hn : 0 < n) :
  let r := wait_jetson_up flags reg (idle ++ n :: rest) s in
  r.1 = true /\ trace r.2 = trace s ++ replicate (S (length idle)) (Msleep 5000) ++ [VersionFwSend] ++ reasons flags reg.
Proof.
  revert s. induction Hidle as [| j l Hj _ IH]; intros s; cbn [app wait_jetson_up length].
  - btrue (0 <? n). cbn [fst snd]. split; [done |]. rewrite send_reset_reason_trace. cbn [run_call trace replicate app]. by rewrite <- !app_assoc.
  - destruct (Z.ltb_spec 0 j); [lia |]. destruct (IH (run_call (Msleep 5000) s)) as [E T]. split; [exact E |]. cbv zeta in T. rewrite T.
    cbn [run_call trace]. rewrite <- app_assoc. cbn [app]. done.
Qed.

Lemma jetson_told_once_witness :
  trace (wait_jetson_up [(1, 10); (2, 20); (4, 30)] 5 [0; 3; 0] start_boot).2 =
    [Msleep 5000; Msleep 5000; VersionFwSend; PublishFatalError 10; PublishFatalError 30].
Proof. exact (proj2 (jetson_told_once [(1, 10); (2, 20); (4, 30)] 5 [0] [0] 3 start_boot ltac:(repeat constructor; lia) ltac:(lia))). Defined.

(** ** Last words *)

(** [heartbeat_timeout_handler]: the Jetson is told, and has five seconds. *)
Inductive timeout_action := PublishShutdown (reason ms_until_shutdown : Z) | TimeoutSleep (ms : Z) | NvicSystemReset.
Definition SHUTDOWN_DELAY_MS : Z := 5000.
Definition heartbeat_timeout_handler (heartbeat_reason : Z) : list timeout_action :=
  [PublishShutdown heartbeat_reason SHUTDOWN_DELAY_MS; TimeoutSleep SHUTDOWN_DELAY_MS; NvicSystemReset].

Section LastWords.
Context {St Bus : Type} `{RecordStore St} `{CanTx Bus}.
Context (payload_of_tag : Z -> option jetson_payload) (SUB_PRIOS_SIZE : Z) (debug : bool)
        (SEC_PAYLOAD_SIZE JETSON_PAYLOAD_SIZE DATA_SIZE MCU_TO_MCU : Z) (pb_encode : mcu_message -> option bytes).
Context (can_bytes_to_dlc : Z -> Z) (MCU_TO_JETSON SEC_FATAL_ERROR_TAG : Z).
(** The static message: as it is in memory, and encoded. *)
Context (fatal_error : bytes) (encoded : option bytes).

(** [app_assert_cb]: on the CAN bus at once when the Jetson is up, in the storage otherwise.  [None]: a write outside the message of
    the publisher. *)
Definition app_assert_cb (jetson_up_and_running in_isr : bool) (state : can_state) (can_ret : Z) (sem : bool) (tx : tx_state) (s : pubsub)
  : option (tx_state * pubsub) :=
  if jetson_up_and_running then
    Some (match encoded with
          | Some m => (can_messaging_blocking_tx can_bytes_to_dlc in_isr state can_ret MCU_TO_JETSON (CanMessage MCU_TO_JETSON m) tx).2
          | None => tx
          end, s)
  else
    '(_, s) ← publish_store payload_of_tag SUB_PRIOS_SIZE debug SEC_PAYLOAD_SIZE JETSON_PAYLOAD_SIZE MCU_TO_MCU pb_encode
                fatal_error SEC_FATAL_ERROR_TAG MCU_TO_JETSON sem s;
    Some (tx, s).

(** A hard assertion reaches the Jetson only once it is up.  Then the message is on the bus before the reset, while the bus is on.  Before, the callback hands the
    whole message to the publisher in place of the error it holds, under the tag of another MCU: as the message is longer than the
    payloads it can hold, the copy runs over the end of the publisher's message, unless the publisher is busy, and then nothing is kept. *)
Theorem hard_assert_last_words (state : can_state) (can_ret : Z) (m : bytes) (tx : tx_state) (s : pubsub)
  (Hlen : JETSON_PAYLOAD_SIZE < zlen fatal_error) (Htag : 0 <= SEC_FATAL_ERROR_TAG < SUB_PRIOS_SIZE) (Haddr : MCU_TO_JETSON <> MCU_TO_MCU)
  (Hbus : state <> CAN_STATE_BUS_OFF /\ state <> CAN_STATE_STOPPED) (Henc : encoded = Some m) :
  (exists tx', app_assert_cb true false state can_ret true tx s = Some (tx', s) /\ wire tx' = wire tx ++ [make_frame can_bytes_to_dlc MCU_TO_JETSON m]) /\
  app_assert_cb false false state can_ret true tx s = None /\
  app_assert_cb false false state can_ret false tx s = Some (tx, s).
Proof.
  unfold app_assert_cb, publish_store, publish. rewrite Henc. assert ((MCU_TO_JETSON =? MCU_TO_MCU) = false) as -> by (by apply Z.eqb_neq).
  bfalse (SUB_PRIOS_SIZE <=? SEC_FATAL_ERROR_TAG). cbn [negb andb orb mbind option_bind]. btrue (JETSON_PAYLOAD_SIZE <? zlen fatal_error).
  split; [| done]. destruct Hbus as [B1 B2]. unfold can_messaging_blocking_tx, send. rewrite !bool_decide_false by done. cbn [orb snd payload].
  eexists. split; [done |]. by destruct (can_ret =? - ENETUNREACH).
Qed.
End LastWords.

Lemma hard_assert_last_words_witness :
  let cb := app_assert_cb (H := storage_store 8) (fun _ => None) 40 false 8 8 1 (fun m => Some (payload_bytes m)) (fun n => n) 0x80 3 (fill 12 7) (Some [1; 2]) in
  let s := PubSub [0; 0] (Sys 1 (Area (Some blank8) 0 0)) ([] : list can_message) in
  (wire <$> (fst <$> cb true false CAN_STATE_ERROR_ACTIVE 0 true tx_boot s)) = Some [make_frame (fun n => n) 0x80 [1; 2]] /\
  cb false false CAN_STATE_ERROR_ACTIVE 0 true tx_boot s = None.
Proof.
  cbv zeta. pose proof (hard_assert_last_words (H := storage_store 8) (fun _ => None) 40 false 8 8 1 (fun m => Some (payload_bytes m)) (fun n => n) 0x80 3
    (fill 12 7) (Some [1; 2]) CAN_STATE_ERROR_ACTIVE 0 [1; 2] tx_boot (PubSub [0; 0] (Sys 1 (Area (Some blank8) 0 0)) ([] : list can_message))
    ltac:(done) ltac:(done) ltac:(done) ltac:(done) ltac:(done)) as ((tx & E & W) & N & _).
  split; [| exact N]. rewrite E. cbn [fmap option_fmap option_map fst]. by rewrite W.
Defined.
