(* ===== verification/Sweeps.v ===== *)
(** main_board/src/optics/ir_camera_system/ir_camera_system_hw.c, the values of the
    sweeps: the currents of the liquid lens and the angles of the mirror that the
    interrupt at the end of an exposure asks for, and its composition with the
    camera system ([IrCamera]), the lens ([LiquidLens]) and the mirror ([Mirror]).

    [sinf], [cosf] and the [sin] of the mirror are parameters.  Every product and
    sum is rounded to single precision. *)

From Stdlib Require Import SpecFloat.
From S2P Require Import Prelude Floats IrTimer IrCamera Mirror LiquidLens FloatFacts.

(** ** State

    [global_focus_values] is the array of MAX_NUMBER_OF_FOCUS_VALUES currents; the
    numbers of frames are in the camera system's [sweeps]. *)
Record focus_polynomial := FocusPolynomial {
  coef_a : spec_float; coef_b : spec_float; coef_c : spec_float;
  coef_d : spec_float; coef_e : spec_float; coef_f : spec_float;
}.

Record mirror_polynomial := MirrorPolynomial {
  radius_coef_a : spec_float; radius_coef_b : spec_float; radius_coef_c : spec_float;
  angle_coef_a : spec_float; angle_coef_b : spec_float; angle_coef_c : spec_float;
}.

Record sweep_sys := SweepSys {
  ir : ir_sys;
  lens : lens_sys;
  mirror : mirror_sys;
  global_focus_values : list Z;
  focus_sweep_polynomial : focus_polynomial;
  mirror_sweep_polynomial : mirror_polynomial;
  initial_mirror_angle_phi_millidegrees : Z;
  initial_mirror_angle_theta_millidegrees : Z;
}.

Definition with_ir (c : ir_sys) (s : sweep_sys) : sweep_sys :=
  SweepSys c (lens s) (mirror s) (global_focus_values s) (focus_sweep_polynomial s) (mirror_sweep_polynomial s)
    (initial_mirror_angle_phi_millidegrees s) (initial_mirror_angle_theta_millidegrees s).
Definition with_lens (l : lens_sys) (s : sweep_sys) : sweep_sys :=
  SweepSys (ir s) l (mirror s) (global_focus_values s) (focus_sweep_polynomial s) (mirror_sweep_polynomial s)
    (initial_mirror_angle_phi_millidegrees s) (initial_mirror_angle_theta_millidegrees s).
Definition with_mirror (m : mirror_sys) (s : sweep_sys) : sweep_sys :=
  SweepSys (ir s) (lens s) m (global_focus_values s) (focus_sweep_polynomial s) (mirror_sweep_polynomial s)
    (initial_mirror_angle_phi_millidegrees s) (initial_mirror_angle_theta_millidegrees s).
Definition with_values (v : list Z) (p : focus_polynomial) (q : mirror_polynomial) (s : sweep_sys) : sweep_sys :=
  SweepSys (ir s) (lens s) (mirror s) v p q (initial_mirror_angle_phi_millidegrees s)
    (initial_mirror_angle_theta_millidegrees s).
Definition with_initial (phi theta : Z) (s : sweep_sys) : sweep_sys :=
  SweepSys (ir s) (lens s) (mirror s) (global_focus_values s) (focus_sweep_polynomial s) (mirror_sweep_polynomial s) phi theta.

(** ** The polynomials

    [None]: a conversion or a product out of the range of [int32_t]. *)

Definition evaluate_focus_sweep_polynomial (p : focus_polynomial) (frame_no : Z) : option Z :=
  let x := flt frame_no 0 in
  to_s32 (sf_round
    (fadd (coef_a p) (fmul x
      (fadd (coef_b p) (fmul x
        (fadd (coef_c p) (fmul x
          (fadd (coef_d p) (fmul x
            (fadd (coef_e p) (fmul (coef_f p) x))))))))))).

Section Sweep.
Context (b : board) (sin asin sinf cosf : spec_float -> spec_float).

Definition quadratic (c0 c1 c2 x : spec_float) : spec_float := fadd c0 (fmul x (fadd c1 (fmul x c2))).

(** [(int32_t)x * 1000] and the division of the result. *)
Definition delta (x : spec_float) (divisor : Z) : option Z :=
  t ← to_s32 (sf_trunc x);
  d ← to_s32 (Some (t * 1000));
  Some (d ÷ divisor).

Definition evaluate_mirror_sweep_polynomials (p : mirror_polynomial) (frame_no : Z) : option (Z * Z) :=
  let x := flt frame_no 0 in
  let radius := quadratic (radius_coef_a p) (radius_coef_b p) (radius_coef_c p) x in
  let angle := quadratic (angle_coef_a p) (angle_coef_b p) (angle_coef_c p) x in
  delta_phi ← delta (fmul radius (sinf angle)) (-2);
  delta_theta ← delta (fmul radius (cosf angle)) 2;
  Some (delta_phi, delta_theta).

(** ** The interrupt *)

(** The current of a frame; an index past the array is out of bounds. *)
Definition focus_target (i : Z) (s : sweep_sys) : option Z :=
  if use_focus_sweep_polynomial (sw (ir s)) then evaluate_focus_sweep_polynomial (focus_sweep_polynomial s) i
  else global_focus_values s !! Z.to_nat i.

Definition focus_frame (i : Z) (s : sweep_sys) : option sweep_sys :=
  current ← focus_target i s;
  Some (with_lens (liquid_set_target_current_ma current (lens s)).2 s).

Definition mirror_frame (i : Z) (s : sweep_sys) : option sweep_sys :=
  '(delta_phi, delta_theta) ← evaluate_mirror_sweep_polynomials (mirror_sweep_polynomial s) i;
  phi ← to_s32 (Some (delta_phi + s32 (initial_mirror_angle_phi_millidegrees s)));
  let m := (mirror_set_angle_async b phi MOTOR_PHI_ANGLE (mirror s)).2 in
  theta ← to_s32 (Some (delta_theta + s32 (initial_mirror_angle_theta_millidegrees s)));
  Some (with_mirror (mirror_set_angle_async b theta MOTOR_THETA_ANGLE m).2 s).

Definition camera_exposure_completes (cam_counting : bool) (s : sweep_sys) : option sweep_sys :=
  let w := sw (ir s) in
  let s' := with_ir (camera_exposure_completes_isr b cam_counting (ir s)) s in
  if cam_counting then Some s'
  else if focus_sweep_in_progress w then
    if sweep_index w =? global_num_focus_values w then Some s' else (x ← focus_frame (sweep_index w) s; Some (with_ir (ir s') x))
  else if mirror_sweep_in_progress w then
    if sweep_index w =? mirror_number_of_frames w then Some s' else (x ← mirror_frame (sweep_index w) s; Some (with_ir (ir s') x))
  else Some s'.

(** ** The commands *)

Definition set_focus_values (max_focus num : Z) (values : list Z) (s : sweep_sys) : Z * sweep_sys :=
  let '(ret, c) := ir_camera_system_set_focus_values_for_focus_sweep max_focus num (ir s) in
  (ret, with_ir c (if ret =? RET_SUCCESS then with_values values (focus_sweep_polynomial s) (mirror_sweep_polynomial s) s else s)).

Definition set_focus_polynomial (num : Z) (p : focus_polynomial) (s : sweep_sys) : Z * sweep_sys :=
  let '(ret, c) := ir_camera_system_set_polynomial_coefficients_for_focus_sweep num (ir s) in
  (ret, with_ir c (if ret =? RET_SUCCESS then with_values (global_focus_values s) p (mirror_sweep_polynomial s) s else s)).

Definition set_mirror_polynomial (num : Z) (p : mirror_polynomial) (s : sweep_sys) : Z * sweep_sys :=
  let '(ret, c) := ir_camera_system_set_polynomial_coefficients_for_mirror_sweep num (ir s) in
  (ret, with_ir c (if ret =? RET_SUCCESS then with_values (global_focus_values s) (focus_sweep_polynomial s) p s else s)).

Definition perform_focus_sweep (triggered : bool) (s : sweep_sys) : option (Z * sweep_sys) :=
  let '(ret, c) := ir_camera_system_perform_focus_sweep b triggered (ir s) in
  if (ret =? RET_SUCCESS) && (0 <? global_num_focus_values (sw (ir s)))
  then x ← focus_frame 0 s; Some (ret, with_ir c x)
  else Some (ret, with_ir c s).

Definition perform_mirror_sweep (triggered : bool) (s : sweep_sys) : Z * sweep_sys :=
  let '(ret, c) := ir_camera_system_perform_mirror_sweep b triggered (ir s) in
  (ret, with_ir c (if (ret =? RET_SUCCESS) && (0 <? mirror_number_of_frames (sw (ir s)))
                   then with_initial (mirror_get_phi_angle_millidegrees (mirror s)) (mirror_get_theta_angle_millidegrees (mirror s)) s
                   else s)).

(** Everything that can happen to the three parts; the rest of the camera system,
    of the lens and of the mirror goes on as in their own files. *)
Definition sweep_command (e : ir_event) : bool :=
  match e with
  | EvFocusValues _ _ | EvFocusPoly _ | EvMirrorPoly _ | EvFocusSweep _ | EvMirrorSweep _ | EvExposure _ => true
  | _ => false
  end.

Inductive sweep_event :=
| SetFocusValues (max_focus num : Z) (values : list Z)
| SetFocusPolynomial (num : Z) (p : focus_polynomial)
| SetMirrorPolynomial (num : Z) (p : mirror_polynomial)
| PerformFocusSweep (triggered : bool)
| PerformMirrorSweep (triggered : bool)
| ExposureCompletes (cam_counting : bool)
| Camera (e : ir_event)
| SetCurrent (ma : Z)
| MirrorOp (o : mirror_op).

Definition sweep_step (s : sweep_sys) (e : sweep_event) : option sweep_sys :=
  match e with
  | SetFocusValues m n v => Some (set_focus_values m n v s).2
  | SetFocusPolynomial n p => Some (set_focus_polynomial n p s).2
  | SetMirrorPolynomial n p => Some (set_mirror_polynomial n p s).2
  | PerformFocusSweep t => snd <$> perform_focus_sweep t s
  | PerformMirrorSweep t => Some (perform_mirror_sweep t s).2
  | ExposureCompletes c => camera_exposure_completes c s
  | Camera e => Some (if sweep_command e then s else with_ir (ir_step b (ir s) e) s)
  | SetCurrent ma => Some (with_lens (liquid_set_target_current_ma ma (lens s)).2 s)
  | MirrorOp o => '(_, m) ← mirror_step b sin asin (mirror s) o; Some (with_mirror m s)
  end.

Fixpoint sweep_run (s : sweep_sys) (es : list sweep_event) : option sweep_sys :=
  match es with [] => Some s | e :: es => s ← sweep_step s e; sweep_run s es end.
End Sweep.

(** ** Whole numbers in single precision *)

(** A float with the value of the integer [z]. *)
Definition signed_value (x : spec_float) : Z :=
  match x with S754_finite true m e => - V (S754_finite false m e) | _ => V x end.

Definition is_int (z : Z) (x : spec_float) : Prop := nonneg 24 (SFabs x) /\ signed_value x = z * ONE.

Lemma SFabs_opp x : SFabs (SFopp x) = SFabs x.
Proof. by destruct x. Qed.

Lemma signed_value_opp x : signed_value (SFopp x) = - signed_value x.
Proof. destruct x as [[] | [] | | [] m e]; cbn; lia. Qed.

Lemma is_int_opp z x : is_int z x -> is_int (- z) (SFopp x).
Proof. intros [N E]. split; [by rewrite SFabs_opp | rewrite signed_value_opp, E; lia]. Qed.

Lemma nonneg_signed E x : nonneg E x -> SFabs x = x /\ signed_value x = V x \/ exists s, x = S754_zero s.
Proof. destruct x as [s | | | [] m e]; try done; [right; by exists s | by left]. Qed.

Lemma nonneg_small E x : nonneg E x -> V x < 2 ^ 24 * ONE -> nonneg 24 x.
Proof.
  destruct x as [s | | | [] m e]; try done. intros [Hm He] Hv. split; [done |]. split; [lia |].
  destruct (Z.le_gt_cases e 24) as [| Hbig]; [done | exfalso].
  unfold V, value, dyadic, ONE in Hv. rewrite <- Z.pow_add_r in Hv by lia.
  assert (2 ^ (24 + 149) <= 2 ^ (e - -149)) by (apply Z.pow_le_mono_r; lia). nia.
Qed.

Lemma is_int_nonneg z x : z < 2 ^ 24 -> nonneg 104 x -> V x = z * ONE -> is_int z x.
Proof.
  intros Hz N E. pose proof ONE_pos. destruct (nonneg_signed 104 x N) as [[A S] | [s ->]]; split; cbn; rewrite ?A, ?S; try done.
  apply (nonneg_small 104); [done | nia].
Qed.

Lemma is_int_abs z x : is_int z x -> nonneg 24 (SFabs x) /\ V (SFabs x) = Z.abs z * ONE.
Proof.
  intros [N E]. split; [done |]. pose proof (V_nonneg 24 _ N) as P.
  assert (V (SFabs x) = Z.abs (signed_value x)) as -> by (destruct x as [s | | | [] m e]; cbn -[V] in *; done || lia).
  rewrite E, Z.abs_mul. done.
Qed.

(** Rounding is symmetric. *)
Definition flip (s : bool) (x : spec_float) : spec_float := if s then SFopp x else x.

Lemma is_int_flip s z x : is_int z x -> is_int (cond_Zopp s z) (flip s x).
Proof. destruct s; [apply is_int_opp | done]. Qed.

Lemma round_aux_flip s m e l : 0 <= m -> binary_round_aux 24 128 s m e l = flip s (binary_round_aux 24 128 false m e l).
Proof.
  intros Hm. unfold binary_round_aux. destruct (shr_fexp 24 128 m e l) as [x e1].
  destruct (shr_fexp 24 128 _ e1 loc_Exact) as [y e2]. destruct (shr_m y), s; try done; by case_match.
Qed.

Lemma binary_round_flip s m e : binary_round 24 128 s m e = flip s (binary_round 24 128 false m e).
Proof. unfold binary_round. destruct (shl_align m e _) as [m' e']. by apply round_aux_flip. Qed.

Lemma flt_is_int z : - 2 ^ 24 < z < 2 ^ 24 -> is_int z (flt z 0).
Proof.
  intros Hz. destruct (Z.le_gt_cases 0 z).
  - destruct (flt_int z ltac:(lia)). apply is_int_nonneg; done || lia.
  - destruct z as [| | p]; [lia | lia |]. destruct (flt_int (Z.pos p) ltac:(lia)) as [N E].
    unfold flt. cbn [binary_normalize]. rewrite binary_round_flip. apply (is_int_opp (Z.pos p)). apply is_int_nonneg; done || lia.
Qed.

Lemma int_abs_is_float z : Z.abs z < 2 ^ 24 -> is_float (Z.abs z * ONE).
Proof. intros. apply int_is_float. lia. Qed.

(** A product below 2^24 is exact. *)
Lemma fmul_flip x y : is_Some (sf_trunc x) -> is_Some (sf_trunc y) ->
  exists s, fmul x y = flip s (fmul (SFabs x) (SFabs y)) /\
    (s = xorb (SFltb x (flt 0 0)) (SFltb y (flt 0 0)) \/ signed_value x = 0 \/ signed_value y = 0).
Proof.
  intros [? Hx] [? Hy]. destruct x as [sx | | | sx mx ex], y as [sy | | | sy my ey]; try done.
  1, 2, 3: exists (xorb sx sy); unfold fmul; cbn; split; [by destruct sx, sy | auto].
  exists (xorb sx sy). unfold fmul. cbn [SFmul SFabs xorb]. split; [by apply round_aux_flip |]. left. by destruct sx, sy.
Qed.

Lemma finite_trunc z x : is_int z x -> is_Some (sf_trunc x).
Proof. intros [N _]. by destruct x as [| | | s m e]. Qed.

Lemma is_int_sign z x : is_int z x -> SFltb x (flt 0 0) = (z <? 0).
Proof.
  intros [N E]. pose proof ONE_pos as P. destruct x as [s | | | [] m e]; try done; cbn -[V ONE] in E |- *.
  - assert (z = 0) as -> by (change (V (S754_zero s)) with 0 in E; nia). done.
  - symmetry. apply Z.ltb_lt. cbn in N. assert (0 < V (S754_finite false m e)); [| nia].
    unfold V, value, dyadic. pose proof (Z.pow_pos_nonneg 2 (e - -149)). nia.
  - symmetry. apply Z.ltb_ge. assert (0 <= V (S754_finite false m e)) by (apply (V_nonneg 24); done). nia.
Qed.

Lemma is_int_zero z x : is_int z x -> signed_value x = 0 -> z = 0.
Proof. intros [_ E] H. pose proof ONE_pos. rewrite H in E. nia. Qed.

Lemma fmul_int z w x y : is_int z x -> is_int w y -> Z.abs (z * w) < 2 ^ 24 -> is_int (z * w) (fmul x y).
Proof.
  intros Hx Hy Hb. destruct (fmul_flip x y (finite_trunc _ _ Hx) (finite_trunc _ _ Hy)) as (s & -> & Hs).
  destruct (is_int_abs _ _ Hx) as [Nx Vx], (is_int_abs _ _ Hy) as [Ny Vy]. pose proof ONE_pos.
  assert (z * w = cond_Zopp s (Z.abs (z * w))) as ->.
  { destruct Hs as [-> | [Hz | Hz]]; [| apply (is_int_zero _ _ Hx) in Hz; subst; by destruct s |
      apply (is_int_zero _ _ Hy) in Hz; subst; rewrite Z.mul_0_r; by destruct s].
    rewrite (is_int_sign _ _ Hx), (is_int_sign _ _ Hy). destruct (Z.ltb_spec z 0), (Z.ltb_spec w 0); cbn; nia. }
  apply is_int_flip.
  assert (Ep : V (SFabs x) * V (SFabs y) = Z.abs (z * w) * ONE * ONE) by (rewrite Vx, Vy, Z.abs_mul; ring).
  destruct (fmul_faithful 24 24 _ _ (Z.abs (z * w) * ONE) Nx Ny ltac:(lia) (int_abs_is_float _ Hb)) as (N & U & L); [lia |].
  apply is_int_nonneg; [lia | done |]. apply Z.le_antisymm; [done |]. apply L; [by apply int_abs_is_float | lia].
Qed.

(** A sum of integers is exact while it fits the mantissa. *)
Lemma normalize_int z e w : -149 <= e <= 104 -> z * 2 ^ (e - -149) = w * ONE -> Z.abs w < 2 ^ 24 ->
  is_int w (binary_normalize 24 128 z e false).
Proof.
  intros He E Hb. pose proof ONE_pos. pose proof (Z.pow_pos_nonneg 2 (e - -149) ltac:(lia) ltac:(lia)).
  assert (Hpos : forall p v, Z.pos p * 2 ^ (e - -149) = v * ONE -> v < 2 ^ 24 -> is_int v (binary_round 24 128 false p e)).
  { intros p v Ev Hv. assert (0 <= v) by nia.
    destruct (binary_round_faithful p e (v * ONE) He (int_is_float v ltac:(lia))) as (N & U & L); [unfold dyadic; lia |].
    apply is_int_nonneg; [done | done |]. apply Z.le_antisymm; [done |]. apply L; [apply int_is_float; lia | unfold dyadic; lia]. }
  destruct z as [| p | p]; cbn [binary_normalize].
  - assert (w = 0) as -> by nia. done.
  - apply Hpos; [done | lia].
  - rewrite binary_round_flip. replace w with (- - w) by lia. apply (is_int_opp (- w)). apply Hpos; lia.
Qed.

Lemma fadd_int z w x y : is_int z x -> is_int w y -> Z.abs (z + w) < 2 ^ 24 -> is_int (z + w) (fadd x y).
Proof.
  intros [Nx Ex] [Ny Ey] Hb. pose proof ONE_pos.
  assert (H0 : forall s v, signed_value (S754_zero s) = v * ONE -> v = 0) by (intros s v E; cbn in E; nia).
  destruct x as [sx | | | sx mx ex]; try done.
  - apply H0 in Ex as ->. destruct y as [sy | | | sy my ey]; try done. apply H0 in Ey as ->. unfold fadd. by destruct sx, sy.
  - destruct y as [sy | | | sy my ey]; try done; [apply H0 in Ey as ->; by rewrite Z.add_0_r |].
    unfold fadd. cbn [SFadd SFabs nonneg] in *. destruct (aligned mx ex my ey ltac:(lia) ltac:(lia)) as (Hz & Vx & Vy). cbv zeta in *.
    apply normalize_int; [lia | | done]. unfold dyadic in Vx, Vy.
    rewrite !Z.mul_add_distr_r, <- Ex, <- Ey.
    destruct sx, sy; cbn [cond_Zopp signed_value] in *; unfold V, value, dyadic; lia.
Qed.

Lemma round_int z x : is_int z x -> sf_round x = Some z.
Proof.
  intros [N E]. pose proof ONE_pos.
  assert (H0 : forall v, (v * ONE + 2 ^ 148) / ONE = v).
  { intros v. rewrite Z.add_comm, Z.div_add by lia. by rewrite Z.div_small. }
  destruct x as [s | | | [] m e]; try done.
  - cbn in *. f_equal. nia.
  - assert (Hr : sf_round (S754_finite true m e) = (Z.opp <$> sf_round (S754_finite false m e))) by done.
    rewrite Hr, (sf_round_value 24) by done. cbn [signed_value fmap option_fmap option_map] in *. f_equal.
    replace (V (S754_finite false m e)) with (- z * ONE) by lia. rewrite H0. lia.
  - rewrite (sf_round_value 24) by done. cbn [signed_value] in E. by rewrite E, H0.
Qed.

(** One turn of Horner's rule at [n], bounded by the same turn at [N] on absolute
    values. *)
Definition fits (z Z : Z) (y : spec_float) : Prop := is_int z y /\ Z.abs z <= Z.

Lemma horner_step c n N z Z p : 0 <= n <= N -> n < 2 ^ 24 -> 1 <= N -> Z.abs c + N * Z < 2 ^ 24 -> Z.abs z <= Z ->
  (Z.abs (n * z) < 2 ^ 24 -> is_int (n * z) p) -> fits (c + n * z) (Z.abs c + N * Z) (fadd (flt c 0) p).
Proof.
  intros Hn Hn24 HN Hb Hz Hp. assert (Hm : Z.abs (n * z) <= N * Z) by (rewrite Z.abs_mul; nia).
  split; [| lia]. apply fadd_int; [apply flt_is_int; lia | apply Hp; lia | lia].
Qed.

Lemma horner_int c n N z Z y : 0 <= n <= N -> n < 2 ^ 24 -> 1 <= N -> Z.abs c + N * Z < 2 ^ 24 -> fits z Z y ->
  fits (c + n * z) (Z.abs c + N * Z) (fadd (flt c 0) (fmul (flt n 0) y)).
Proof. intros Hn Hn24 HN Hb [Hy Hz]. apply horner_step; try done. intros. apply fmul_int; [apply flt_is_int; lia | done | done]. Qed.

Lemma horner_inner c N Z : 1 <= N -> Z.abs c + N * Z < 2 ^ 24 -> Z < 2 ^ 24.
Proof. nia. Qed.

(** The formula in the comment of the source. *)
Definition focus_formula (a b c d e f n : Z) : Z := a + b * n + c * n ^ 2 + d * n ^ 3 + e * n ^ 4 + f * n ^ 5.
Definition int_polynomial (a b c d e f : Z) : focus_polynomial :=
  FocusPolynomial (flt a 0) (flt b 0) (flt c 0) (flt d 0) (flt e 0) (flt f 0).

Lemma to_s32_Some z : - 2 ^ 31 <= z < 2 ^ 31 -> to_s32 (Some z) = Some z.
Proof. intros. cbn. unfold in_s32. btrue (-2147483648 <=? z). by btrue (z <=? 2147483647). Qed.

(** ** Theorems *)

(** C31: A polynomial with whole coefficients gives the lens exactly the current of the
    formula, in spite of single precision, as long as the absolute values of its
    terms add up to less than 2^24. *)
Theorem focus_polynomial_exact (a b c d e f n : Z)
  (Hn : 0 <= n < 2 ^ 24)
  (Hb : focus_formula (Z.abs a) (Z.abs b) (Z.abs c) (Z.abs d) (Z.abs e) (Z.abs f) (Z.max 1 n) < 2 ^ 24) :
  evaluate_focus_sweep_polynomial (int_polynomial a b c d e f) n = Some (focus_formula a b c d e f n).
Proof.
  assert (HnN : 0 <= n <= Z.max 1 n) by lia. assert (HN : 1 <= Z.max 1 n) by lia. destruct Hn as [Hn0 Hn].
  revert Hb. generalize (Z.max 1 n) HnN HN. clear HnN HN. intros N HnN HN Hb.
  replace (focus_formula _ _ _ _ _ _ N) with (Z.abs a + N * (Z.abs b + N * (Z.abs c + N * (Z.abs d + N * (Z.abs e + N * Z.abs f)))))
    in Hb by (unfold focus_formula; ring).
  replace (focus_formula a b c d e f n) with (a + n * (b + n * (c + n * (d + n * (e + n * f))))) by (unfold focus_formula; ring).
  pose proof (horner_inner _ _ _ HN Hb) as Hb1. pose proof (horner_inner _ _ _ HN Hb1) as Hb2.
  pose proof (horner_inner _ _ _ HN Hb2) as Hb3. pose proof (horner_inner _ _ _ HN Hb3) as Hb4.
  pose proof (horner_inner _ _ _ HN Hb4) as Hb5.
  unfold evaluate_focus_sweep_polynomial. cbn [int_polynomial coef_a coef_b coef_c coef_d coef_e coef_f].
  assert (I4 : fits (e + n * f) (Z.abs e + N * Z.abs f) (fadd (flt e 0) (fmul (flt f 0) (flt n 0)))).
  { clear Hb Hb1 Hb2 Hb3. apply horner_step; try done. intros. rewrite Z.mul_comm. apply fmul_int; [apply flt_is_int; lia | apply flt_is_int; lia | lia]. }
  pose proof (horner_int d n N _ _ _ HnN Hn HN Hb3 I4) as I3. pose proof (horner_int c n N _ _ _ HnN Hn HN Hb2 I3) as I2.
  pose proof (horner_int b n N _ _ _ HnN Hn HN Hb1 I2) as I1. destruct (horner_int a n N _ _ _ HnN Hn HN Hb I1) as [I Hz].
  rewrite (round_int _ _ I). apply to_s32_Some. clear - Hb Hz. lia.
Qed.

Lemma focus_polynomial_exact_witness :
  evaluate_focus_sweep_polynomial (int_polynomial (-200) 13 (-1) 0 0 1) 9 = Some 58885.
Proof. exact (focus_polynomial_exact (-200) 13 (-1) 0 0 1 9 ltac:(lia) ltac:(by vm_compute)). Defined.

(** The angles of a mirror sweep are whole half degrees: the conversion to an integer
    comes before the factor 1000.  A spiral whose radius stays below a degree does
    not move the mirror at all. *)
Lemma delta_half_degrees x d n : (d = -2 \/ d = 2) -> delta x d = Some n -> exists k, n = 500 * k.
Proof.
  intros Hd. unfold delta. destruct (to_s32 (sf_trunc x)) as [t |]; [| done]. cbn [mbind option_bind].
  destruct (to_s32 (Some (t * 1000))) as [m |] eqn:E; [| done]. cbn [mbind option_bind]. intros [= <-].
  cbn in E. case_match; [| done]. injection E as <-.
  destruct Hd as [-> | ->].
  - exists (- t). replace (t * 1000) with (- t * 500 * (- 2)) by ring. by rewrite Z.quot_mul by done; ring.
  - exists t. replace (t * 1000) with (t * 500 * 2) by ring. by rewrite Z.quot_mul by done; ring.
Qed.

Theorem mirror_sweep_half_degrees (sinf cosf : spec_float -> spec_float) (p : mirror_polynomial) (n phi theta : Z)
  (H : evaluate_mirror_sweep_polynomials sinf cosf p n = Some (phi, theta)) :
  (exists k, phi = 500 * k) /\ (exists k, theta = 500 * k).
Proof.
  revert H. unfold evaluate_mirror_sweep_polynomials.
  destruct (delta (fmul _ (sinf _)) _) as [x |] eqn:E1; [| done]. cbn [mbind option_bind].
  destruct (delta (fmul _ (cosf _)) _) as [y |] eqn:E2; [| done]. cbn [mbind option_bind]. intros [= <- <-].
  split; [by apply (delta_half_degrees _ (-2)) in E1; auto | by apply (delta_half_degrees _ 2) in E2; auto].
Qed.

(** A radius of 1.9 degrees at the angle 0: the mirror moves by 500 of the 950
    millidegrees; 0.9 degrees are lost altogether. *)
Definition circle (radius : spec_float) : mirror_polynomial :=
  MirrorPolynomial radius (flt 0 0) (flt 0 0) (flt 0 0) (flt 0 0) (flt 0 0).

Lemma mirror_sweep_half_degrees_witness :
  let sinf := fun _ => flt 0 0 in let cosf := fun _ => flt 1 0 in
  evaluate_mirror_sweep_polynomials sinf cosf (circle (fdiv (flt 9 0) (flt 10 0))) 0 = Some (0, 0) /\
  (exists k, 500 = 500 * k).
Proof.
  split; [by vm_compute |].
  refine (proj2 (mirror_sweep_half_degrees (fun _ => flt 0 0) (fun _ => flt 1 0) (circle (fdiv (flt 19 0) (flt 10 0))) 0 0 500 _)).
  by vm_compute.
Defined.

(** ** A focus sweep moves the lens *)

(** The lens after [k] exposures that complete. *)
Fixpoint exposed (b : board) (sinf cosf : spec_float -> spec_float) (k : nat) (s : sweep_sys) : option sweep_sys :=
  match k with O => Some s | S k => s ← exposed b sinf cosf k s; camera_exposure_completes b sinf cosf false s end.

(** The part of the state that gives the currents. *)
Definition same_values (s s' : sweep_sys) : Prop :=
  global_focus_values s' = global_focus_values s /\ focus_sweep_polynomial s' = focus_sweep_polynomial s /\
  use_focus_sweep_polynomial (sw (ir s')) = use_focus_sweep_polynomial (sw (ir s)).

Lemma same_values_target s s' i : same_values s s' -> focus_target i s' = focus_target i s.
Proof. intros (E1 & E2 & E3). unfold focus_target. by rewrite E1, E2, E3. Qed.

Lemma exposure_keeps_use b c s :
  use_focus_sweep_polynomial (sw (camera_exposure_completes_isr b c s)) = use_focus_sweep_polynomial (sw s).
Proof. unfold camera_exposure_completes_isr. destruct b; repeat case_match; done. Qed.

(** After [k] exposures of a focus sweep. *)
Record on_frame (n : nat) (s : sweep_sys) (target : Z) (k : nat) (x : sweep_sys) : Prop := OnFrame {
  frame_running : exists pos, sweep_running true (1 + Z.of_nat k) pos (ir x);
  frame_count : sweep_size true (ir x) = Z.of_nat n;
  frame_values : same_values s x;
  frame_target : target_current_ma (lens x) = target;
}.

Definition shown_current (ma : Z) : Z := Z.max (-400) (Z.min 400 ma).

Lemma set_target_shown ma l : target_current_ma (liquid_set_target_current_ma ma l).2 = shown_current ma.
Proof. apply CLAMP_minmax. done. Qed.

Section FocusSweep.
Context (b : board) (sinf cosf : spec_float -> spec_float) (n : nat) (s : sweep_sys) (v : nat -> Z).
Context (Hv : forall i, (i < n)%nat -> focus_target (Z.of_nat i) s = Some (v i)).

Lemma frame_step k x t : (S k < n)%nat -> on_frame n s t k x ->
  exists y, camera_exposure_completes b sinf cosf false x = Some y /\ on_frame n s (shown_current (v (S k))) (S k) y.
Proof.
  intros Hk [[pos R] C Hs _]. destruct (exposure_step b true _ _ _ R) as (Sz & Hmid & _).
  pose proof R as (F & _ & I & _). unfold camera_exposure_completes. rewrite F, I. cbn [sweep_size] in C.
  rewrite C. bfalse (1 + Z.of_nat k =? Z.of_nat n). unfold focus_frame. rewrite (same_values_target s x) by done.
  replace (1 + Z.of_nat k) with (Z.of_nat (S k)) by lia. rewrite Hv by done. cbn [mbind option_bind].
  eexists. split; [done |]. split; cbn [ir lens with_ir with_lens].
  - eexists. replace (1 + Z.of_nat (S k)) with (1 + Z.of_nat k + 1) by lia. apply Hmid. cbn [sweep_size]. lia.
  - by rewrite Sz.
  - destruct Hs as (? & ? & ?). unfold same_values. cbn [ir with_ir with_lens global_focus_values focus_sweep_polynomial]. rewrite exposure_keeps_use. done.
  - apply set_target_shown.
Qed.

Lemma frames k x : (k < n)%nat -> on_frame n s (shown_current (v 0%nat)) 0 x ->
  exists y, exposed b sinf cosf k x = Some y /\ on_frame n s (shown_current (v k)) k y.
Proof.
  intros Hk H0. induction k as [| k IH]; [by exists x |]. destruct (IH ltac:(lia)) as (y & E & Hy).
  cbn [exposed]. rewrite E. cbn [mbind option_bind]. by eapply (frame_step k y).
Qed.

Lemma last_frame x t : (0 < n)%nat -> on_frame n s t (n - 1) x ->
  exists y, camera_exposure_completes b sinf cosf false x = Some y /\ (exists pos, sweep_done pos (ir y)) /\ target_current_ma (lens y) = t.
Proof.
  intros Hn [[pos R] C _ Ht]. destruct (exposure_step b true _ _ _ R) as (Sz & _ & Hend).
  pose proof R as (F & _ & I & _). unfold camera_exposure_completes. rewrite F, I. cbn [sweep_size] in C, Hend.
  rewrite C. btrue (1 + Z.of_nat (n - 1) =? Z.of_nat n). eexists. split; [done |]. split; [| done].
  exists pos. cbn [ir with_ir]. apply Hend. lia.
Qed.

(** A focus sweep over [n] frames, from values or from a polynomial: when it is asked
    for the lens is sent to the first current, the exposure [k] sends it to the
    current [k], each limited to what the lens takes, and the exposure [n] ends the
    sweep with the lens at the last one and the eye camera off. *)
Theorem focus_sweep_currents
  (Hinit : ir_camera_system_initialized (ir s) = true)
  (Hfree : focus_sweep_in_progress (sw (ir s)) = false /\ mirror_sweep_in_progress (sw (ir s)) = false)
  (Hfps : fps (global_timer_settings (ir s)) <> 0) (Heye : enabled_camera (ir s) IrEye = false)
  (Hnum : global_num_focus_values (sw (ir s)) = Z.of_nat n) (Hn : (0 < n)%nat) :
  exists s0, perform_focus_sweep b false s = Some (RET_SUCCESS, s0) /\
  (forall k, (k < n)%nat -> exists y, exposed b sinf cosf k s0 = Some y /\
     target_current_ma (lens y) = shown_current (v k) /\ focus_sweep_in_progress (sw (ir y)) = true /\ enabled_camera (ir y) IrEye = true) /\
  exists y, exposed b sinf cosf n s0 = Some y /\
     target_current_ma (lens y) = shown_current (v (n - 1)%nat) /\ focus_sweep_in_progress (sw (ir y)) = false /\ enabled_camera (ir y) IrEye = false.
Proof.
  destruct Hfree as [F M]. unfold perform_focus_sweep.
  assert (ir_camera_system_perform_focus_sweep b false (ir s) = (RET_SUCCESS, ir_camera_system_perform_focus_sweep_hw b (ir s))) as ->.
  { unfold ir_camera_system_perform_focus_sweep, perform_sweep, ir_camera_system_get_status. rewrite Hinit, F, M, Heye. cbn.
    by bfalse (fps (global_timer_settings (ir s)) =? 0). }
  rewrite Hnum. btrue (0 <? Z.of_nat n). rewrite Z.eqb_refl. cbn [andb]. unfold focus_frame. rewrite (Hv 0%nat Hn : focus_target 0 s = _).
  cbn [mbind option_bind]. eexists. split; [done |]. set (s0 := with_ir _ _).
  assert (H0 : on_frame n s (shown_current (v 0%nat)) 0 s0).
  { unfold s0, ir_camera_system_perform_focus_sweep_hw. rewrite Hnum. btrue (0 <? Z.of_nat n).
    split; cbn [ir lens with_ir with_lens].
    - exists (0 :: positions (sw (ir s))). unfold sweep_running. destruct b; cbn; by rewrite M.
    - destruct b; exact Hnum.
    - unfold same_values. by destruct b.
    - apply set_target_shown. }
  split.
  - intros k Hk. destruct (frames k s0 Hk H0) as (y & E & [[pos (Fy & _ & _ & _ & Ey)] _ _ Ht]). by exists y.
  - destruct (frames (n - 1) s0 ltac:(lia) H0) as (x & Ex & Hx). destruct (last_frame x _ Hn Hx) as (y & Ey & [pos D] & Ht).
    exists y. replace n with (S (n - 1)) at 1 by lia. cbn [exposed]. rewrite Ex. cbn [mbind option_bind].
    destruct D as (D1 & _ & _ & D4). done.
Qed.
End FocusSweep.

(** A camera at 30 frames per second, three currents, one of them beyond the lens. *)
Definition sweep_ready (values : list Z) : sweep_sys :=
  (set_focus_values 100 (zlen values) values
    (SweepSys (fold_left (ir_step Pearl) [EvInit 0; EvFps false true 30] ir_boot) lens_boot (mirror_reset Pearl) []
      (int_polynomial 0 0 0 0 0 0) (circle (flt 0 0)) 0 0)).2.

Lemma focus_sweep_currents_witness :
  let s := sweep_ready [-50; 120; 700] in
  exists s0, perform_focus_sweep Pearl false s = Some (RET_SUCCESS, s0) /\
  exists y, exposed Pearl SFabs SFabs 3 s0 = Some y /\ target_current_ma (lens y) = 400 /\ focus_sweep_in_progress (sw (ir y)) = false.
Proof.
  cbv zeta. destruct (focus_sweep_currents Pearl SFabs SFabs 3 (sweep_ready [-50; 120; 700]) (fun i => [-50; 120; 700] !!! i))
    as (s0 & E & _ & y & E3 & T & F & _).
  - intros i Hi. by destruct i as [| [| [| i]]]; [.. | lia].
  - reflexivity.
  - done.
  - by vm_compute.
  - reflexivity.
  - reflexivity.
  - lia.
  - exists s0. split; [exact E |]. exists y. split; [exact E3 |]. split; [exact T | exact F].
Defined.

(** ** The actuators during sweeps *)

Definition lens_in_range (s : sweep_sys) : Prop :=
  LIQUID_LENS_MIN_CURRENT_MA <= target_current_ma (lens s) <= LIQUID_LENS_MAX_CURRENT_MA.

(** What a step leaves: the lens within its range, delayed commands checked, only
    legal moves sent. *)
Record step_safe (b : board) (sin : spec_float -> spec_float) (far : Prop) (s s' : sweep_sys) : Prop := StepSafe {
  safe_lens : lens_in_range s -> lens_in_range s';
  safe_items : items_ok b (mirror s) -> items_ok b (mirror s');
  safe_moves : items_ok b (mirror s) -> extends b sin far (mirror s) (mirror s');
}.

Lemma step_safe_same b sin far s s' : (lens_in_range s -> lens_in_range s') -> mirror s' = mirror s -> step_safe b sin far s s'.
Proof. intros H E. split; rewrite ?E; try done. intros _. by apply extends_refl. Qed.

Lemma lens_target_safe ma s : lens_in_range (with_lens (liquid_set_target_current_ma ma (lens s)).2 s).
Proof.
  unfold lens_in_range, LIQUID_LENS_MIN_CURRENT_MA, LIQUID_LENS_MAX_CURRENT_MA. cbn [lens with_lens].
  rewrite set_target_shown. unfold shown_current. lia.
Qed.

Lemma focus_frame_safe b sin far i s s' : focus_frame i s = Some s' -> step_safe b sin far s s'.
Proof.
  unfold focus_frame. destruct (focus_target i s) as [ma |]; [| done]. cbn [mbind option_bind]. intros [= <-].
  apply step_safe_same; [intros _; apply lens_target_safe | done].
Qed.

Lemma mirror_frame_safe b sin far sinf cosf i s s' : mirror_frame b sinf cosf i s = Some s' -> step_safe b sin far s s'.
Proof.
  unfold mirror_frame. destruct (evaluate_mirror_sweep_polynomials _ _ _ i) as [[dp dt] |]; [| done]. cbn [mbind option_bind].
  destruct (to_s32 (Some (dp + _))) as [phi |]; [| done]. cbn [mbind option_bind].
  destruct (to_s32 (Some (dt + _))) as [theta |]; [| done]. cbn [mbind option_bind]. intros [= <-].
  assert (J : items_ok b (mirror s) -> let m := (mirror_set_angle_async b theta MOTOR_THETA_ANGLE
      (mirror_set_angle_async b phi MOTOR_PHI_ANGLE (mirror s)).2).2 in items_ok b m /\ extends b sin far (mirror s) m).
  { intros I. destruct (async_ok b sin far MOTOR_PHI_ANGLE phi (mirror s) I) as [X1 I1].
    destruct (async_ok b sin far MOTOR_THETA_ANGLE theta _ I1) as [X2 I2]. split; [done |]. by eapply extends_trans. }
  split; [done | intros I; by apply J | intros I; by apply J].
Qed.

Lemma step_safe_ir b sin far s x c : step_safe b sin far s x -> step_safe b sin far s (with_ir c x).
Proof. intros [A B C]. by split. Qed.

Lemma exposure_safe b sin far sinf cosf c s s' : camera_exposure_completes b sinf cosf c s = Some s' -> step_safe b sin far s s'.
Proof.
  assert (Hsame : forall x, step_safe b sin far s (with_ir x s)) by (intros; by apply step_safe_same).
  assert (Hthen : forall f c, (forall x, f = Some x -> step_safe b sin far s x) ->
            forall r, (x ← f; Some (with_ir c x)) = Some r -> step_safe b sin far s r).
  { intros [x |] ? Hf r; [| done]. intros [= <-]. by apply step_safe_ir, Hf. }
  unfold camera_exposure_completes. cbv zeta. cbn [ir with_ir].
  destruct c; [by intros [= <-] |]. destruct (focus_sweep_in_progress _); [| destruct (mirror_sweep_in_progress _); [| by intros [= <-]]].
  - destruct (_ =? _); [by intros [= <-] |]. apply Hthen. intros x. apply focus_frame_safe.
  - destruct (_ =? _); [by intros [= <-] |]. apply Hthen. intros x. apply mirror_frame_safe.
Qed.

Definition event_ok (b : board) (asin : spec_float -> spec_float) (center : motor_t -> Z) (e : sweep_event) : Prop :=
  match e with MirrorOp o => op_ok b asin center o | _ => True end.

(** The event is the command that may send the mirror beyond its range. *)
Definition event_far (b : board) (e : sweep_event) : Prop := exists o, e = MirrorOp o /\ goes_far b o.

Lemma sweep_step_safe b sin far asin sinf cosf (Hsin : sin_defined b sin) e s s' :
  items_ok b (mirror s) -> event_ok b asin (centers (mirror s)) e -> (event_far b e -> far) ->
  sweep_step b sin asin sinf cosf s e = Some s' -> step_safe b sin far s s'.
Proof.
  intros Hi He Hf. destruct e as [m n v | n p | n p | t | t | c | e | ma | o]; cbn [sweep_step].
  - intros [= <-]. unfold set_focus_values. destruct (ir_camera_system_set_focus_values_for_focus_sweep _ _ _) as [r x].
    apply step_safe_same; by destruct (r =? _).
  - intros [= <-]. unfold set_focus_polynomial. destruct (ir_camera_system_set_polynomial_coefficients_for_focus_sweep _ _) as [r x].
    apply step_safe_same; by destruct (r =? _).
  - intros [= <-]. unfold set_mirror_polynomial. destruct (ir_camera_system_set_polynomial_coefficients_for_mirror_sweep _ _) as [r x].
    apply step_safe_same; by destruct (r =? _).
  - unfold perform_focus_sweep. destruct (ir_camera_system_perform_focus_sweep _ _ _) as [r x].
    destruct ((_ =? _) && _); [| intros [= <-]; by apply step_safe_same].
    destruct (focus_frame 0 s) as [y |] eqn:E; [| done]. cbn. intros [= <-]. apply step_safe_ir. by eapply focus_frame_safe.
  - intros [= <-]. unfold perform_mirror_sweep. destruct (ir_camera_system_perform_mirror_sweep _ _ _) as [r x].
    apply step_safe_same; by destruct ((r =? _) && _).
  - apply exposure_safe.
  - intros [= <-]. apply step_safe_same; by destruct (sweep_command e).
  - intros [= <-]. apply step_safe_same; [intros _; apply lens_target_safe | done].
  - destruct (step_ok b sin asin far Hsin o (mirror s) Hi He (fun G => Hf (ex_intro _ o (conj eq_refl G)))) as (r & m & E & X & I). rewrite E. cbn [mbind option_bind].
    intros [= <-]. by split.
Qed.


(** A mirror sweep of one frame, its two delayed moves, and a focus sweep after it. *)
Definition demo_sweeps : list sweep_event :=
  [MirrorOp (OpAngle MOTOR_PHI_ANGLE 44000); MirrorOp (OpAngle MOTOR_THETA_ANGLE 90000);
   SetMirrorPolynomial 1 (circle (flt 4 0)); PerformMirrorSweep false; ExposureCompletes false;
   MirrorOp (OpWork MOTOR_PHI_ANGLE); MirrorOp (OpWork MOTOR_THETA_ANGLE); ExposureCompletes false;
   SetFocusPolynomial 2 (int_polynomial 1000 0 0 0 0 0); PerformFocusSweep false].

Abbreviation demo_run := (sweep_run Pearl coarse_sin small_angle (fun _ => flt 1 0) (fun _ => flt (-1) 0) (sweep_ready []) demo_sweeps).

Lemma demo_ok center : Forall (event_ok Pearl small_angle center) demo_sweeps.
Proof. unfold demo_sweeps. rewrite !Forall_cons, Forall_nil. cbn [event_ok op_ok]. repeat split; lia. Qed.

