(* ===== verification/MirrorStart.v ===== *)
(** main_board/src/optics/mirror: the start of the mirror ([mirror_init] of mirror.c) and of
    its homing threads (homing_pearl.c, homing_diamond.c), on top of [Mirror].

    The state adds to [mirror_sys] what the start creates: whether the semaphores are initialised, the thread
    objects in use (that of a motor on the Pearl, the only one, under [MOTOR_PHI_ANGLE], on the
    Diamond) and the work queue.  A homing thread gives its semaphore back last and exits then: between the two the
    runner, whose priority is higher, may already create the next thread on the same object.  Whether the SPI bus is ready, the register
    read and the answer of [k_sem_init] are arguments. *)

From Stdlib Require Import SpecFloat.
From S2P Require Import Prelude Floats Mirror RunnerQueue Runner.

Record mirror_start := MirrorStart {
  mir : mirror_sys;
  is_init : bool;                       (* the static of [mirror_homing_overreach_ends_async] *)
  threads : list (motor_t * Z);         (* homing threads up to their k_sem_give, with their delay in ms *)
  work_queue : bool;
  exiting : list motor_t;               (* homing threads between their k_sem_give and their exit *)
  recreated : bool;                     (* k_thread_create was called on an object whose thread had not exited *)
}.

Definition mirror_boot (b : board) : mirror_start := MirrorStart (mirror_reset b) false [] false [] false.

Definition with_mir (f : mirror_sys -> mirror_sys) (s : mirror_start) : mirror_start :=
  MirrorStart (f (mir s)) (is_init s) (threads s) (work_queue s) (exiting s) (recreated s).
Definition thread_create (m : motor_t) (delay : Z) (s : mirror_start) : mirror_start :=
  MirrorStart (mir s) (is_init s) (threads s ++ [(m, delay)]) (work_queue s) (exiting s)
    (recreated s || bool_decide (m ∈ exiting s)).

Definition TMC5041_IC_VERSION : Z := 0x10.
Definition TMC5041_REG_GCONF : Z := 0x00.
Definition MOTORS_COUNT : Z := 2.

Section Start.
Context (b : board) (k_sem_init : motor_t -> Z).

Definition motor_of_index (i : Z) : motor_t :=
  if i =? motor_index b MOTOR_THETA_ANGLE then MOTOR_THETA_ANGLE else MOTOR_PHI_ANGLE.

(** [mirror_homing_one_end] (Pearl), with the thread it creates. *)
Definition homing_one_end_start (motor_id : Z) (s : mirror_start) : Z * mirror_start :=
  if MOTORS_COUNT <=? motor_id then (RET_ERROR_INVALID_PARAM, s)
  else
    let m := motor_of_index motor_id in
    match mirror_homing_one_end m (mir s) with
    | (ret, false, _) => (ret, s)
    | (ret, true, mir') =>
        let delay := if motor_state (refs (mir s) m) =? RET_ERROR_NOT_INITIALIZED then 2000 * (motor_id + 1) else 0 in
        (ret, thread_create m delay (with_mir (fun _ => mir') s))
    end.

(** The first call initialises the semaphores, in this order. *)
Definition sems (b : board) : list motor_t :=
  match b with Pearl => [MOTOR_PHI_ANGLE; MOTOR_THETA_ANGLE] | Diamond => [MOTOR_PHI_ANGLE] end.

Fixpoint init_sems (ms : list motor_t) (s : mirror_start) : Z * mirror_start :=
  match ms with
  | [] => (RET_SUCCESS, MirrorStart (mir s) true (threads s) (work_queue s) (exiting s) (recreated s))
  | m :: ms => if k_sem_init m =? 0 then init_sems ms (with_mir (set_sem m 1) s) else (RET_ERROR_INTERNAL, s)
  end.

(** The loop of the Pearl over the motors, by index. *)
Fixpoint home_motors (ids : list Z) (s : mirror_start) : Z * mirror_start :=
  match ids with
  | [] => (RET_SUCCESS, s)
  | i :: ids =>
      let m := motor_of_index i in
      let s := with_mir (fun r => set_refs m (set_motor_state RET_ERROR_NOT_INITIALIZED (refs r m)) r) s in
      let '(err, s) := homing_one_end_start i s in
      if err =? 0 then home_motors ids s else (RET_ERROR_INTERNAL, s)
  end.

(** The one thread of the Diamond. *)
Definition home_both (s : mirror_start) : Z * mirror_start :=
  match mirror_homing_one_end MOTOR_PHI_ANGLE (mir s) with
  | (ret, false, _) => (ret, s)
  | (ret, true, mir') =>
      let waits m := motor_state (refs (mir s) m) =? RET_ERROR_NOT_INITIALIZED in
      let delay := if waits MOTOR_PHI_ANGLE || waits MOTOR_THETA_ANGLE then 2000 else 0 in
      (ret, thread_create MOTOR_PHI_ANGLE delay (with_mir (fun _ => mir') s))
  end.

Definition mirror_homing_overreach_ends_async (s : mirror_start) : Z * mirror_start :=
  let '(err, s) := if is_init s then (RET_SUCCESS, s) else init_sems (sems b) s in
  if negb (err =? 0) then (err, s)
  else match b with Pearl => home_motors [0; 1] s | Diamond => home_both s end.

(** [None] is the null pointer. *)
Definition mirror_autohoming (motor : option Z) (s : mirror_start) : Z * mirror_start :=
  match b with
  | Pearl =>
      match motor with
      | None => (RET_ERROR_INVALID_PARAM, s)
      | Some i => if MOTORS_COUNT <=? i then (RET_ERROR_INVALID_PARAM, s) else homing_one_end_start i s
      end
  | Diamond => mirror_homing_overreach_ends_async s
  end.

(** [input] is the register REG_INPUT read from the controller. *)
Definition mirror_init (spi_ready : bool) (input : Z) (s : mirror_start) : Z * mirror_start :=
  if negb spi_ready then (RET_ERROR_INVALID_STATE, s)
  else
    let s := match b with Diamond => with_mir (send [spi_write_frame TMC5041_REG_GCONF 0x300]) s | Pearl => s end in
    let ic_version := Z.land (Z.shiftr input 24) 0xFF in
    if negb (ic_version =? TMC5041_IC_VERSION) then (RET_ERROR_OFFLINE, s)
    else
      let s := with_mir (send (send_commands b MOTOR_PHI_ANGLE)) s in
      let s := with_mir (send (send_commands b MOTOR_THETA_ANGLE)) s in
      let '(err, s) := mirror_homing_overreach_ends_async s in
      if negb (err =? 0) then (RET_ERROR_INVALID_STATE, s)
      else
        let idle m r := set_item m (AsyncCommand false (item_angle (items r m))) r in
        let s := with_mir (fun r => idle MOTOR_PHI_ANGLE (idle MOTOR_THETA_ANGLE r)) s in
        (RET_SUCCESS, MirrorStart (mir s) (is_init s) (threads s) true (exiting s) (recreated s)).
End Start.

(** ** Every order of calls, movements and ends of threads

    A homing thread runs up to its [k_sem_give], the last statement of its function, in one step, and exits in another. *)

Section Steps.
Context (b : board) (sin asin : spec_float -> spec_float).

Inductive start_step : mirror_start -> mirror_start -> Prop :=
| StepInit spi_ready input s : start_step s (mirror_init b (fun _ => 0) spi_ready input s).2
| StepAutohoming motor s : start_step s (mirror_autohoming b (fun _ => 0) motor s).2
| StepMove o r m' s : mirror_step b sin asin (mir s) o = Some (r, m') -> start_step s (with_mir (fun _ => m') s)
| StepThreadGives l1 l2 m d st status m' s :
    threads s = l1 ++ (m, d) :: l2 -> mirror_homing_thread b asin m status (mir s) = Some (st, m') ->
    start_step s (MirrorStart m' (is_init s) (l1 ++ l2) (work_queue s) (m :: exiting s) (recreated s))
| StepThreadExits l1 l2 m s :
    exiting s = l1 ++ m :: l2 ->
    start_step s (MirrorStart (mir s) (is_init s) (threads s) (work_queue s) (l1 ++ l2) (recreated s)).
End Steps.

(** ** What movements and threads leave alone *)

Definition same_sem (s s' : mirror_sys) : Prop := forall m, homing_sem s' m = homing_sem s m.
Definition same_states (s s' : mirror_sys) : Prop := forall m, motor_state (refs s' m) = motor_state (refs s m).

Record keeps (s s' : mirror_sys) : Prop := Keeps { keeps_sem : same_sem s s'; keeps_states : same_states s s' }.

#[export] Instance keeps_preorder : PreOrder keeps.
Proof.
  split; [by intros s | intros s1 s2 s3 [A B] [C D]].
  split; intros m; [by rewrite C, A | by rewrite D, B].
Qed.

(** Neither a semaphore nor the state of a motor is written. *)
Ltac keeps_now := split; intros ?; cbn; unfold upd; by repeat case_bool_decide; subst.

Lemma keeps_send fs s : keeps s (send fs s).
Proof. done. Qed.

Lemma keeps_item m i s : keeps s (set_item m i s).
Proof. done. Qed.

Lemma keeps_range r s : keeps s (publish_range r s).
Proof. done. Qed.

#[export] Hint Resolve keeps_send keeps_item keeps_range : orb.

Section Moves.
Context (b : board) (sin asin : spec_float -> spec_float).

Lemma from_center_keeps a m s r s' : mirror_set_angle_from_center b sin a m s = Some (r, s') -> keeps s s'.
Proof.
  unfold mirror_set_angle_from_center. case_match; [by intros [= _ <-] |].
  destruct (calculate_microsteps_from_center_position _ _ _) as [k |]; cbn [mbind option_bind]; [| done].
  intros [= _ <-]. keeps_now.
Qed.

Lemma set_angle_keeps a m s r s' : mirror_set_angle b sin a m s = Some (r, s') -> keeps s s'.
Proof. unfold mirror_set_angle. case_match; [by intros [= _ <-] | apply from_center_keeps]. Qed.

Lemma set_angle_async_keeps a m s : keeps s (mirror_set_angle_async b a m s).2.
Proof. unfold mirror_set_angle_async. repeat case_match; cbn [snd]; auto with orb; reflexivity. Qed.

Lemma move_keeps o s r s' : mirror_step b sin asin s o = Some (r, s') -> keeps s s'.
Proof.
  destruct o as [m a | m a x | m a | m |]; cbn [mirror_step].
  - apply set_angle_keeps.
  - unfold mirror_set_angle_relative. destruct (calculate_millidegrees_from_center_position _ _ _); cbn [mbind option_bind]; [| done].
    apply from_center_keeps.
  - intros [= E]. pose proof (set_angle_async_keeps a m s) as K. by rewrite E in K.
  - case_match; [| by intros [= _ <-]]. unfold mirror_angle_work_wrapper.
    destruct (mirror_set_angle _ _ _ _ _) as [[c s1] |] eqn:E; cbn [mbind option_bind]; [| done].
    intros [= _ <-]. etrans; [by eapply set_angle_keeps | apply keeps_item].
  - unfold mirror_go_home. destruct b eqn:Eb; rewrite <- Eb in *.
    + destruct (mirror_set_angle _ _ _ _ _) as [[c s1] |] eqn:E1; cbn [mbind option_bind]; [| done].
      destruct (mirror_set_angle _ _ _ _ s1) as [[c2 s2] |] eqn:E2; cbn [mbind option_bind]; [| done].
      intros [= _ <-]. etrans; by eapply set_angle_keeps.
    + pose proof (set_angle_async_keeps (center_angle MOTOR_THETA_ANGLE) MOTOR_THETA_ANGLE s) as K1.
      destruct (mirror_set_angle_async _ _ MOTOR_THETA_ANGLE _) as [c1 s1].
      pose proof (set_angle_async_keeps 0 MOTOR_PHI_ANGLE s1) as K2.
      destruct (mirror_set_angle_async _ _ MOTOR_PHI_ANGLE _) as [c2 s2].
      intros [= _ <-]. by etrans.
Qed.

Lemma pearl_turn_keeps m w st s st' s' : homing_step_pearl b asin m w st s = Some (st', s') -> keeps s s'.
Proof.
  unfold homing_step_pearl. destruct st; try (by intros [= _ <-]).
  - destruct (standstill w); [| by intros [= _ <-]]. intros [= _ <-]. keeps_now.
  - destruct (standstill w); [| by intros [= _ <-]].
    destruct (range_of _ _ _ _); cbn [mbind option_bind]; [| done]. by intros [= _ <-].
Qed.

Lemma diamond_turn_keeps w st s st' s' : homing_step_diamond b asin w st s = Some (st', s') -> keeps s s'.
Proof.
  unfold homing_step_diamond. destruct st; repeat case_match; try (by intros [= _ <-]);
    destruct (range_of _ _ _ _); cbn [mbind option_bind]; try done; by intros [= _ <-].
Qed.

Lemma loop_keeps {W} (step : W -> mirror_homing_state -> mirror_sys -> option (mirror_homing_state * mirror_sys)) status :
  (forall w st s st' s', step w st s = Some (st', s') -> keeps s s') ->
  forall n st s st' k s', homing_loop step status n st s = Some (st', k, s') -> keeps s s'.
Proof.
  intros Hstep. induction n as [| n IH]; intros st s st' k s'; cbn [homing_loop]; case_bool_decide; try (by intros [= _ _ <-]).
  destruct (step _ _ _) as [[st1 s1] |] eqn:E; cbn [mbind option_bind]; [| done].
  intros L. etrans; [by eapply Hstep | by eapply IH].
Qed.
End Moves.

(** A thread that ends gives its semaphore back, and decides the state of the motors it homes. *)
Definition homes (b : board) (m n : motor_t) : Prop := match b with Pearl => n = m | Diamond => True end.
Definition slot (b : board) (m : motor_t) : motor_t := match b with Pearl => m | Diamond => MOTOR_PHI_ANGLE end.

Lemma thread_effect b asin m status s st s' : mirror_homing_thread b asin m status s = Some (st, s') ->
  (forall n, homing_sem s' n = if bool_decide (n = slot b m) then Z.min 1 (homing_sem s n + 1) else homing_sem s n) /\
  (forall n, homes b m n -> motor_state (refs s' n) = RET_SUCCESS \/ motor_state (refs s' n) = RET_ERROR_INVALID_STATE) /\
  (forall n, ~ homes b m n -> motor_state (refs s' n) = motor_state (refs s n)).
Proof.
  destruct b; cbn [mirror_homing_thread slot homes].
  - unfold mirror_auto_homing_one_end_thread.
    destruct (homing_loop _ _ _ _ _) as [[[st1 k] s1] |] eqn:E; cbn [mbind option_bind]; [| done].
    apply loop_keeps in E as [K1 K2]; [| intros; by eapply pearl_turn_keeps].
    intros [= _ <-]. unfold homing_done. cbn. unfold upd. split; [| split]; intros n.
    + rewrite <- K1. case_bool_decide as En; [by subst | done].
    + intros ->. rewrite bool_decide_true by done. cbn. destruct k; auto.
    + intros Hn. rewrite bool_decide_false by done. apply K2.
  - unfold mirror_auto_homing_overreach_end_thread.
    destruct (homing_loop _ _ _ _ _) as [[[st1 k] s1] |] eqn:E; cbn [mbind option_bind]; [| done].
    apply loop_keeps in E as [K1 K2]; [| intros; by eapply diamond_turn_keeps].
    intros [= _ <-]. unfold homing_done. cbn. unfold upd. split; [| split]; intros n; [| | done].
    + rewrite <- K1. case_bool_decide as En; [by subst | done].
    + intros _. destruct n; cbn; destruct k; auto.
Qed.

(** ** The semaphore of a motor counts the thread it does not have *)

Definition threads_of (m : motor_t) (l : list (motor_t * Z)) : Z := zlen (filter (fun t => t.1 = m) l).

Lemma threads_of_app m l k : threads_of m (l ++ k) = threads_of m l + threads_of m k.
Proof. unfold threads_of, zlen. rewrite filter_app, length_app. lia. Qed.

Lemma threads_of_cons m t l : threads_of m (t :: l) = (if bool_decide (t.1 = m) then 1 else 0) + threads_of m l.
Proof. unfold threads_of, zlen. rewrite filter_cons. case_decide; [rewrite bool_decide_true by done | rewrite bool_decide_false by done]; cbn [length]; lia. Qed.

Lemma threads_of_nonneg m l : 0 <= threads_of m l.
Proof. unfold threads_of, zlen. lia. Qed.

Lemma threads_of_in t l : t ∈ l -> 1 <= threads_of t.1 l.
Proof.
  intros (l1 & l2 & ->)%list_elem_of_split. rewrite threads_of_app, threads_of_cons, bool_decide_true by done.
  pose proof (threads_of_nonneg t.1 l1). pose proof (threads_of_nonneg t.1 l2). lia.
Qed.

Lemma threads_of_none m l : threads_of m l = 0 -> m ∉ l.*1.
Proof. intros E (t & -> & Ht)%list_elem_of_fmap. pose proof (threads_of_in t l Ht). lia. Qed.

Lemma threads_nodup l : (forall t, t ∈ l -> threads_of t.1 l <= 1) -> NoDup l.*1.
Proof.
  induction l as [| t l IH]; intros C; cbn [fmap list_fmap]; constructor.
  - intros (u & E & Hu)%list_elem_of_fmap. specialize (C t (list_elem_of_here _ _)).
    rewrite threads_of_cons, bool_decide_true in C by done. pose proof (threads_of_in u l Hu). rewrite E in C. lia.
  - apply IH. intros u Hu. specialize (C u (list_elem_of_further _ _ _ Hu)). rewrite threads_of_cons in C. case_bool_decide; lia.
Qed.

Section Invariant.
Context (b : board) (sin asin : spec_float -> spec_float).

Record start_inv (s : mirror_start) : Prop := StartInv {
  inv_slots : forall t, t ∈ threads s -> slot b t.1 = t.1;
  inv_sem : forall m, slot b m = m ->
    0 <= homing_sem (mir s) m /\ homing_sem (mir s) m + threads_of m (threads s) = if is_init s then 1 else 0;
  inv_objects : recreated s = false -> NoDup ((threads s).*1 ++ exiting s);
}.

Lemma inv_same s s' : same_sem (mir s) (mir s') -> is_init s' = is_init s -> threads s' = threads s ->
  exiting s' = exiting s -> recreated s' = recreated s -> start_inv s -> start_inv s'.
Proof.
  intros K E1 E2 E3 E4 [I1 I2 I3]. split; rewrite E2, ?E3, ?E4; [done | | done]. intros m Hm. rewrite K, E1. by apply I2.
Qed.

Lemma motor_of_index_slot i : b = Pearl -> slot b (motor_of_index b i) = motor_of_index b i.
Proof. by intros ->. Qed.

(** A thread is created in a slot whose semaphore was taken. *)
Lemma create_inv m ret mir' d s : slot b m = m -> mirror_homing_one_end m (mir s) = (ret, true, mir') -> start_inv s ->
  start_inv (thread_create m d (with_mir (fun _ => mir') s)).
Proof.
  unfold mirror_homing_one_end. intros Hm E [I1 I2 I3]. destruct (Z.eqb_spec (homing_sem (mir s) m) 0) as [E0 | E0]; [done |].
  injection E as <- <-. split; cbn.
  - intros t [Ht | ->%list_elem_of_singleton]%elem_of_app; [by apply I1 | done].
  - intros n Hn. destruct (I2 n Hn) as [P Q]. rewrite threads_of_app, threads_of_cons. cbn [fst]. unfold upd.
    change (threads_of n []) with 0. repeat case_bool_decide; subst; destruct (is_init s); try done; lia.
  - intros [Er Hx]%orb_false_iff. apply bool_decide_eq_false in Hx.
    assert (m ∉ (threads s).*1) as Ht.
    { apply threads_of_none. destruct (I2 m Hm) as [P Q]. pose proof (threads_of_nonneg m (threads s)). destruct (is_init s); lia. }
    rewrite fmap_app, <- (assoc_L (++)). cbn [fmap list_fmap fst app].
    rewrite <- Permutation_middle. apply NoDup_cons. split; [| by apply I3]. by intros [?|?]%elem_of_app.
Qed.

Lemma one_end_inv i s : b = Pearl -> start_inv s -> start_inv (homing_one_end_start b i s).2.
Proof.
  intros Hb I. unfold homing_one_end_start. case_match; [done |].
  destruct (mirror_homing_one_end _ _) as [[ret []] mir'] eqn:E; [| done].
  eapply create_inv; [by apply motor_of_index_slot | done | done].
Qed.

Lemma home_motors_inv l : b = Pearl -> forall s, start_inv s -> start_inv (home_motors b l s).2.
Proof.
  intros Hb. induction l as [| i l IH]; intros s I; cbn [home_motors]; [done |].
  cbv zeta. set (s1 := with_mir _ s). assert (start_inv s1) as I1 by (by eapply inv_same; [.. | exact I]).
  pose proof (one_end_inv i s1 Hb I1) as I2. destruct (homing_one_end_start b i s1) as [err s2]. cbn [snd] in I2.
  case_match; [by apply IH | done].
Qed.

Lemma home_both_inv s : b = Diamond -> start_inv s -> start_inv (home_both s).2.
Proof.
  intros Hb I. unfold home_both. destruct (mirror_homing_one_end _ _) as [[ret []] mir'] eqn:E; [| done].
  eapply create_inv; [by rewrite Hb | done | done].
Qed.

(** Before the semaphores are initialised there is no thread, and all of them are then available. *)
Lemma init_sems_inv s : is_init s = false -> start_inv s -> start_inv (init_sems (fun _ => 0) (sems b) s).2.
Proof.
  intros E [I1 I2 I3]. assert (threads s = []) as Ht.
  { destruct (threads s) as [| t l] eqn:Et; [done |]. exfalso.
    specialize (I1 t (list_elem_of_here _ _)). destruct (I2 _ I1) as [P Q]. rewrite E in Q.
    pose proof (threads_of_in t (t :: l) (list_elem_of_here _ _)). lia. }
  clear I1 I2. rewrite Ht in I3. unfold sems. destruct b eqn:Eb; cbn; split; cbn; rewrite Ht; try done; try (by intros t ?%elem_of_nil);
    intros m Hm; rewrite Eb in Hm; destruct m; cbn; done.
Qed.

Lemma overreach_inv s : start_inv s -> start_inv (mirror_homing_overreach_ends_async b (fun _ => 0) s).2.
Proof.
  intros I. unfold mirror_homing_overreach_ends_async.
  destruct (if is_init s then _ else _) as [err s1] eqn:E.
  assert (start_inv s1) as I1.
  { destruct (is_init s) eqn:Ei; [by injection E as <- <- |]. pose proof (init_sems_inv s Ei I) as J. by rewrite E in J. }
  clear E. case_match; [done |]. destruct b eqn:Eb; rewrite <- ?Eb; [by apply home_motors_inv | by apply home_both_inv].
Qed.

Lemma autohoming_inv motor s : start_inv s -> start_inv (mirror_autohoming b (fun _ => 0) motor s).2.
Proof.
  intros I. unfold mirror_autohoming. destruct b eqn:Eb; rewrite <- ?Eb; [| by apply overreach_inv].
  repeat case_match; try done. by apply one_end_inv.
Qed.

Lemma mirror_init_inv r i s : start_inv s -> start_inv (mirror_init b (fun _ => 0) r i s).2.
Proof.
  intros I. unfold mirror_init. case_match; [done |]. cbv zeta. set (s1 := match b with Pearl => s | Diamond => _ end).
  assert (start_inv s1) as I1 by (subst s1; destruct b; [done | by eapply inv_same; [.. | exact I]]).
  case_match; [done |]. set (s2 := with_mir _ (with_mir _ s1)).
  assert (start_inv s2) as I2 by (by eapply inv_same; [.. | exact I1]).
  pose proof (overreach_inv s2 I2) as I3. destruct (mirror_homing_overreach_ends_async _ _ s2) as [err s3]. cbn [snd] in I3.
  case_match; [done |]. by eapply inv_same; [.. | exact I3].
Qed.

Lemma gives_inv l1 l2 m d st status m' s : threads s = l1 ++ (m, d) :: l2 ->
  mirror_homing_thread b asin m status (mir s) = Some (st, m') -> start_inv s ->
  start_inv (MirrorStart m' (is_init s) (l1 ++ l2) (work_queue s) (m :: exiting s) (recreated s)).
Proof.
  intros Et E [I1 I2 I3]. apply thread_effect in E as [K _]. rewrite Et in *. split; cbn.
  - intros u [Hu | Hu]%elem_of_app; apply I1, elem_of_app; [by left | right; by apply list_elem_of_further].
  - intros n Hn. destruct (I2 n Hn) as [P Q]. rewrite threads_of_app, threads_of_cons in Q. cbn [fst] in Q.
    rewrite K, threads_of_app. pose proof (threads_of_nonneg n l1). pose proof (threads_of_nonneg n l2).
    assert (slot b m = m) as -> by (apply (I1 (m, d)), elem_of_app; right; apply list_elem_of_here).
    destruct (is_init s); repeat case_bool_decide; subst; try done; lia.
  - intros Hr. specialize (I3 Hr). rewrite !fmap_app in *. cbn [fmap list_fmap fst] in I3.
    rewrite <- (assoc_L (++)) in I3 |- *. cbn [app] in I3.
    assert (l1.*1 ++ m :: l2.*1 ++ exiting s ≡ₚ l1.*1 ++ l2.*1 ++ m :: exiting s) as <-; [| done].
    by rewrite <- (Permutation_middle l2.*1).
Qed.

Lemma exits_inv l1 l2 m s : exiting s = l1 ++ m :: l2 -> start_inv s ->
  start_inv (MirrorStart (mir s) (is_init s) (threads s) (work_queue s) (l1 ++ l2) (recreated s)).
Proof.
  intros Ex [I1 I2 I3]. split; cbn; [done | done |]. intros Hr. specialize (I3 Hr). rewrite Ex in I3.
  rewrite (assoc_L (++)) in I3 |- *. rewrite <- Permutation_middle in I3. by apply NoDup_cons in I3 as [_ ?].
Qed.

Lemma start_step_inv s s' : start_step b sin asin s s' -> start_inv s -> start_inv s'.
Proof.
  intros [r i t | motor t | o r m' t E | l1 l2 m d st status m' t Et E | l1 l2 m t Ex] I.
  - by apply mirror_init_inv.
  - by apply autohoming_inv.
  - apply move_keeps in E as [K _]. by eapply inv_same; [.. | exact I].
  - by eapply gives_inv.
  - by eapply exits_inv.
Qed.

Lemma mirror_boot_inv : start_inv (mirror_boot b).
Proof. split; cbn; [by intros t ?%elem_of_nil | done | constructor]. Qed.

Lemma reachable_inv s : rtc (start_step b sin asin) (mirror_boot b) s -> start_inv s.
Proof.
  intros R. assert (forall s0, rtc (start_step b sin asin) s0 s -> start_inv s0 -> start_inv s) as G.
  { intros s0 R0. induction R0 as [| s0 s1 s2 St R0 IH]; [done |]. intros I. by apply IH, (start_step_inv s0). }
  by apply (G _ R), mirror_boot_inv.
Qed.
End Invariant.

(** ** The Diamond never marks a motor as not initialised *)

Definition diamond_ready (s : mirror_start) : Prop :=
  (forall m, motor_state (refs (mir s) m) <> RET_ERROR_NOT_INITIALIZED) /\ Forall (fun t => t.2 = 0) (threads s).

Lemma ready_overreach s : diamond_ready s -> diamond_ready (mirror_homing_overreach_ends_async Diamond (fun _ => 0) s).2.
Proof.
  intros [A B]. unfold mirror_homing_overreach_ends_async.
  set (r := if is_init s then _ else _).
  assert (diamond_ready r.2 /\ r.1 = 0) as [[A1 B1] E1].
  { subst r. destruct (is_init s); split; done. }
  destruct r as [err s1]. cbn [fst snd] in *. subst err. cbn [negb Z.eqb].
  unfold home_both, mirror_homing_one_end. destruct (homing_sem (mir s1) MOTOR_PHI_ANGLE =? 0); cbn; [done |]. split; [done |].
  rewrite (proj2 (Z.eqb_neq _ _) (A1 MOTOR_PHI_ANGLE)), (proj2 (Z.eqb_neq _ _) (A1 MOTOR_THETA_ANGLE)). cbn.
  apply Forall_app. split; [done | by repeat constructor].
Qed.

Lemma ready_step sin asin s s' : start_step Diamond sin asin s s' -> diamond_ready s -> diamond_ready s'.
Proof.
  intros [r i t | motor t | o r m' t E | l1 l2 m d st status m' t Et E | l1 l2 m t Ex] R; [| | | | exact R].
  - unfold mirror_init. case_match; [done |]. cbv zeta. case_match; [done |].
    set (s1 := with_mir _ (with_mir _ (with_mir _ t))). assert (diamond_ready s1) as R1 by apply R.
    pose proof (ready_overreach s1 R1) as [A B]. destruct (mirror_homing_overreach_ends_async _ _ s1) as [err s2].
    case_match; by split.
  - by apply ready_overreach.
  - apply move_keeps in E as [_ K]. destruct R as [A B]. split; [| done]. intros n. cbn. by rewrite K.
  - apply thread_effect in E as (_ & K & _). destruct R as [A B]. rewrite Et in B. split; cbn.
    + intros n. by destruct (K n I) as [-> | ->].
    + apply Forall_app in B as [B1 B2]. apply Forall_cons in B2 as [_ B2]. by apply Forall_app.
Qed.

(** ** Theorems *)

(** C35: A motor is homed by one thread at a time.  Whatever the order of starts, homing requests, movements, ends of
    homings and exits of threads after the reset: from its creation until it gives its semaphore back a thread is the only one of its
    slot - a motor of the Pearl, the whole mirror of the Diamond -, and homing is reported in progress exactly while such a thread
    exists or the start has not yet reached the semaphores.  The semaphore does not cover the exit that follows: an object belongs to one live
    thread as long as no request has come in between ([live_object_recreated] is one that has). *)
Theorem homing_threads_exclusive (b : board) (sin asin : spec_float -> spec_float) (s : mirror_start)
  (Hreach : rtc (start_step b sin asin) (mirror_boot b) s) :
  NoDup (threads s).*1 /\ (forall t, t ∈ threads s -> slot b t.1 = t.1) /\
  (mirror_auto_homing_in_progress b (mir s) = true <-> is_init s = false \/ threads s <> []) /\
  (recreated s = false -> NoDup ((threads s).*1 ++ exiting s)).
Proof.
  destruct (reachable_inv b sin asin s Hreach) as [I1 I2 I3].
  assert (forall t, t ∈ threads s -> homing_sem (mir s) t.1 = 0 /\ threads_of t.1 (threads s) <= 1 /\ is_init s = true) as C.
  { intros t Ht. destruct (I2 t.1 (I1 t Ht)) as [P Q]. pose proof (threads_of_in t _ Ht). destruct (is_init s); split_and!; lia || done. }
  split; [| split; [done | split; [| done]]].
  { apply threads_nodup. intros t Ht. by apply C. }
  split.
  - intros Hp. destruct (is_init s) eqn:Ei; [right | by left]. intros Ht. rewrite Ht in I2. unfold mirror_auto_homing_in_progress in Hp.
    assert (forall m, slot b m = m -> homing_sem (mir s) m = 1) as S1 by (intros m Hm; destruct (I2 m Hm); change (threads_of m []) with 0 in *; lia).
    destruct b; rewrite ?S1 in Hp by done; done.
  - intros Hor. assert (exists m, slot b m = m /\ homing_sem (mir s) m = 0) as (m & Hm & E).
    { destruct Hor as [Ei | Ht].
      - exists MOTOR_PHI_ANGLE. assert (slot b MOTOR_PHI_ANGLE = MOTOR_PHI_ANGLE) as Hs by by destruct b.
        split; [done |]. destruct (I2 _ Hs) as [P Q]. rewrite Ei in Q. pose proof (threads_of_nonneg MOTOR_PHI_ANGLE (threads s)). lia.
      - destruct (threads s) as [| t l]; [done |]. exists t.1. pose proof (list_elem_of_here t l). split; [by apply I1 | by apply C]. }
    unfold mirror_auto_homing_in_progress. destruct b, m; try done; by rewrite E, ?orb_true_r.
Qed.

(** What [mirror_init] does, on each of its ends, at the first start.  Without a bus or with another chip than a
    TMC5041 nothing is started (the Diamond has already written GCONF); otherwise both axes get their ramp and the homing
    threads are created: on the Pearl theta after two seconds and phi after four, on the Diamond one at once. *)
Theorem mirror_init_outcomes (b : board) (spi_ready : bool) (input : Z) :
  let '(ret, s) := mirror_init b (fun _ => 0) spi_ready input (mirror_boot b) in
  let gconf := match b with Pearl => [] | Diamond => [spi_write_frame TMC5041_REG_GCONF 0x300] end in
  if negb spi_ready then ret = RET_ERROR_INVALID_STATE /\ s = mirror_boot b
  else if negb (Z.land (Z.shiftr input 24) 0xFF =? TMC5041_IC_VERSION) then
    ret = RET_ERROR_OFFLINE /\ s = with_mir (send gconf) (mirror_boot b)
  else ret = RET_SUCCESS /\ work_queue s = true /\ is_init s = true /\
    spi (mir s) = gconf ++ send_commands b MOTOR_PHI_ANGLE ++ send_commands b MOTOR_THETA_ANGLE /\
    threads s = match b with Pearl => [(MOTOR_THETA_ANGLE, 2000); (MOTOR_PHI_ANGLE, 4000)] | Diamond => [(MOTOR_PHI_ANGLE, 0)] end /\
    mirror_homed_successfully (mir s) = bool_decide (b = Diamond).
Proof.
  unfold mirror_init. destruct spi_ready; [| done]. cbn [negb].
  destruct (_ =? TMC5041_IC_VERSION); cbn [negb]; destruct b; vm_compute; repeat split.
Qed.

(** On the Diamond the two seconds the comment asks for are never waited: no motor is ever marked as not
    initialised, so that in no reachable state a homing thread is delayed; and before the first homing, as after a failed start, the
    mirror reports that it is homed. *)
Theorem diamond_never_waits (sin asin : spec_float -> spec_float) (s : mirror_start)
  (Hreach : rtc (start_step Diamond sin asin) (mirror_boot Diamond) s) :
  Forall (fun t => t.2 = 0) (threads s) /\
  (forall m, motor_state (refs (mir s) m) <> RET_ERROR_NOT_INITIALIZED) /\
  mirror_homed_successfully (mir (mirror_boot Diamond)) = true.
Proof.
  assert (forall s0, rtc (start_step Diamond sin asin) s0 s -> diamond_ready s0 -> diamond_ready s) as G.
  { intros s0 R0. induction R0 as [| s0 s1 s2 St R0 IH]; [done |]. intros I. by apply IH, (ready_step sin asin s0). }
  destruct (G _ Hreach) as [A B]; [by split | by split_and!].
Qed.

(** ** The homing command of the Jetson, on the started mirror *)

(** [Runner] homes on the semaphores alone: once they are initialised, which is so in every reachable state in which no homing is in
    progress, its call is the call of the code, whatever [k_sem_init] would answer. *)
Theorem runner_homes_as_started (b : board) (sin asin : spec_float -> spec_float) (k_sem_init : motor_t -> Z) (m : motor_t) (s : mirror_start)
  (Hreach : rtc (start_step b sin asin) (mirror_boot b) s) (Hidle : mirror_auto_homing_in_progress b (mir s) = false) :
  Runner.mirror_autohoming b m (mir s) =
    (let r := mirror_autohoming b k_sem_init (Some (motor_index b m)) s in (r.1, mir r.2)) /\
  threads s = [] /\ (mirror_autohoming b k_sem_init (Some (motor_index b m)) s).1 = RET_SUCCESS /\
  (threads (mirror_autohoming b k_sem_init (Some (motor_index b m)) s).2).*1 = [slot b m].
Proof.
  destruct (reachable_inv b sin asin s Hreach) as [I1 I2 _].
  assert (is_init s = true /\ threads s = [] /\ homing_sem (mir s) (slot b m) = 1) as (Ei & Et & Es).
  { assert (forall n, slot b n = n -> homing_sem (mir s) n <> 0) as Hn.
    { intros n Hn E. revert Hidle. unfold mirror_auto_homing_in_progress. destruct b, n; try done; by rewrite E, ?orb_true_r. }
    assert (slot b (slot b m) = slot b m) as Hs by by destruct b.
    destruct (I2 _ Hs) as [P Q]. specialize (Hn _ Hs) as N. pose proof (threads_of_nonneg (slot b m) (threads s)).
    destruct (is_init s); [| lia]. split; [done |]. split; [| lia].
    destruct (threads s) as [| t l] eqn:E; [done |]. exfalso. pose proof (list_elem_of_here t l) as Ht.
    destruct (I2 _ (I1 t Ht)). pose proof (threads_of_in t _ Ht). apply (Hn _ (I1 t Ht)). lia. }
  destruct b; cbn [slot] in *; unfold Runner.mirror_autohoming, mirror_autohoming, mirror_homing_overreach_ends_async,
    homing_one_end_start, home_both, mirror_homing_one_end.
  - destruct m; cbn; rewrite Es; split_and!; try done; cbn; by rewrite Et.
  - rewrite Ei. cbn. rewrite Es. split_and!; try done; cbn; by rewrite Et.
Qed.

(** When the mirror could not be started - no bus, or another chip - the Jetson is told that homing is in progress, on every
    homing command and for ever: the semaphores are still the zeroes of the reset. *)
Theorem failed_start_says_in_progress {M D O : Type} (b : board) (sin : spec_float -> spec_float) (spi_ready : bool) (input : Z)
  (mode : homing_mode) (axis : homing_axis) (j : job) (o : orb M D O)
  (Hfail : (mirror_init b (fun _ => 0) spi_ready input (mirror_boot b)).1 <> RET_SUCCESS)
  (Hmirror : mirror o = mir (mirror_init b (fun _ => 0) spi_ready input (mirror_boot b)).2) :
  handle_do_mirror_homing b sin mode axis j o = job_ack ACK_IN_PROGRESS j o /\
  mirror (handle_do_mirror_homing b sin mode axis j o).2 = mirror o.
Proof.
  assert (mirror_auto_homing_in_progress b (mirror o) = true) as E.
  { rewrite Hmirror. revert Hfail. unfold mirror_init. destruct spi_ready; [| by destruct b].
    cbn [negb]. destruct (_ =? TMC5041_IC_VERSION); cbn [negb]; by destruct b. }
  assert (handle_do_mirror_homing b sin mode axis j o = job_ack ACK_IN_PROGRESS j o) as A.
  { unfold handle_do_mirror_homing, mbind, run_bind, on. cbn [p_mirror get put fst snd]. rewrite E. by destruct o. }
  split; [done |]. rewrite A. unfold job_ack. cbv [mbind run_bind]. by case_decide.
Qed.

(** ** Concrete runs *)

Abbreviation version_10 := (Z.shiftl 0x10 24).
Abbreviation pearl_started := (mirror_init Pearl (fun _ => 0) true version_10 (mirror_boot Pearl)).2.
Abbreviation diamond_started := (mirror_init Diamond (fun _ => 0) true version_10 (mirror_boot Diamond)).2.

Lemma homing_threads_exclusive_witness :
  mirror_auto_homing_in_progress Pearl (mir (mirror_autohoming Pearl (fun _ => 0) (Some 1) pearl_started).2) = true.
Proof.
  apply (homing_threads_exclusive Pearl coarse_sin small_angle).
  - eapply rtc_l; [apply (StepInit _ _ _ true version_10) | apply rtc_once, StepAutohoming].
  - right. assert (length (threads (mirror_autohoming Pearl (fun _ => 0) (Some 1) pearl_started).2) = 2%nat) as E by (vm_compute; reflexivity).
    intros E0. rewrite E0 in E. discriminate.
Defined.

Lemma diamond_never_waits_witness : Forall (fun t => t.2 = 0) (threads diamond_started).
Proof.
  apply (diamond_never_waits coarse_sin small_angle). apply rtc_once, (StepInit _ _ _ true version_10).
Defined.

(** The first homing of the Diamond ended. *)
Abbreviation diamond_homed := (match mirror_homing_thread Diamond small_angle MOTOR_PHI_ANGLE (fun _ _ => 2147483648) (mir diamond_started) with
  | Some (_, m') => MirrorStart m' true [] true [MOTOR_PHI_ANGLE] false | None => diamond_started end).

Lemma runner_homes_as_started_witness :
  (threads (mirror_autohoming Diamond (fun _ => 0) (Some 0) diamond_homed).2).*1 = [MOTOR_PHI_ANGLE].
Proof.
  eapply (runner_homes_as_started Diamond coarse_sin small_angle (fun _ => 0) MOTOR_PHI_ANGLE).
  - eapply rtc_l; [apply (StepInit _ _ _ true version_10) |].
    destruct (mirror_homing_thread _ _ _ _ _) as [[st m'] |] eqn:E; [| apply rtc_refl].
    apply rtc_once, (StepThreadGives _ _ _ [] [] MOTOR_PHI_ANGLE 0 st (fun _ _ => 2147483648) m' diamond_started); [| exact E].
    vm_compute. reflexivity.
  - vm_compute. reflexivity.
Defined.

(** The runner preempts the homing thread between its [k_sem_give] and its exit: the next homing command passes the semaphore and
    creates a thread on the object that is still in use. *)
Theorem live_object_recreated :
  rtc (start_step Diamond coarse_sin small_angle) (mirror_boot Diamond) diamond_homed /\ exiting diamond_homed = [MOTOR_PHI_ANGLE] /\
  (mirror_autohoming Diamond (fun _ => 0) None diamond_homed).1 = RET_SUCCESS /\
  recreated (mirror_autohoming Diamond (fun _ => 0) None diamond_homed).2 = true.
Proof.
  split; [| by vm_compute].
  eapply rtc_l; [apply (StepInit _ _ _ true version_10) |].
  destruct (mirror_homing_thread _ _ _ _ _) as [[st m'] |] eqn:E; [| apply rtc_refl].
  apply rtc_once, (StepThreadGives _ _ _ [] [] MOTOR_PHI_ANGLE 0 st (fun _ _ => 2147483648) m' diamond_started); [| exact E].
  vm_compute. reflexivity.
Qed.

(** A request while the first homing runs is refused, on the axis that is busy and on no other. *)
Example second_homing_refused : (mirror_autohoming Pearl (fun _ => 0) (Some 1) pearl_started).1 = RET_ERROR_BUSY.
Proof. vm_compute. reflexivity. Qed.
