(* ===== verification/CanControl.v ===== *)
(** lib/can_messaging/can_messaging.c and the receiving thread of canbus_rx_isotp.c: starting and stopping of the bus,
    its recovery, and the polling of the ISO-TP contexts.

    The state is the controller with the two transmit modules of [Can] and [CanIsotpTx], and
    what [can_messaging_init] sets.  [None] is a hard assertion.  The controller is a class of
    operations with the laws of Zephyr's documentation; what [k_work_submit] answers is an argument. *)

From S2P Require Import Prelude Can CanIsotpTx.

Definition EINTR : Z := 4.

(** ** The controller *)

Class CanController (C : Type) := {
  can_get_state : C -> can_state;
  can_set_mode_fd : C -> Z * C;
  can_start : C -> Z * C;
  can_stop : C -> Z * C;
  can_recover : C -> Z * C;
}.

(** Starting and stopping answer -EALREADY when there is nothing to do; a started
    controller is not in the state STOPPED. *)
Class CanControllerLaws (C : Type) `{CanController C} := {
  start_stopped : forall c, can_get_state c = CAN_STATE_STOPPED ->
    (can_start c).1 = 0 /\ can_get_state (can_start c).2 = CAN_STATE_ERROR_ACTIVE;
  start_started : forall c, can_get_state c <> CAN_STATE_STOPPED -> can_start c = (- EALREADY, c);
  stop_started : forall c, can_get_state c <> CAN_STATE_STOPPED ->
    (can_stop c).1 = 0 /\ can_get_state (can_stop c).2 = CAN_STATE_STOPPED;
  stop_stopped : forall c, can_get_state c = CAN_STATE_STOPPED -> can_stop c = (- EALREADY, c);
  recover_started : forall c, can_get_state c <> CAN_STATE_STOPPED -> can_get_state (can_recover c).2 <> CAN_STATE_STOPPED;
}.

(** A controller that does nothing else. *)
#[export] Instance plain_controller : CanController can_state := {
  can_get_state c := c;
  can_set_mode_fd c := (0, c);
  can_start c := if bool_decide (c = CAN_STATE_STOPPED) then (0, CAN_STATE_ERROR_ACTIVE) else (- EALREADY, c);
  can_stop c := if bool_decide (c = CAN_STATE_STOPPED) then (- EALREADY, c) else (0, CAN_STATE_STOPPED);
  can_recover c := (0, if bool_decide (c = CAN_STATE_BUS_OFF) then CAN_STATE_ERROR_ACTIVE else c);
}.

#[export] Instance plain_controller_laws : CanControllerLaws can_state.
Proof. split; intros []; cbn; intros; try done; by split. Qed.

(** ** State *)

Record can_module (C : Type) := CanModule {
  dev : C;
  tx : tx_state;
  isotp : isotp_tx;
  reset_handler : bool;      (* can_reset_work is initialised *)
  monitor_tid : bool;        (* the monitor thread exists *)
  wakeups : Z;               (* of the monitor *)
}.
Arguments CanModule {C}. Arguments dev {C}. Arguments tx {C}. Arguments isotp {C}. Arguments reset_handler {C}.
Arguments monitor_tid {C}. Arguments wakeups {C}.

Section Control.
Context {C : Type} `{CanController C}.
Abbreviation can_module := (can_module C).

Definition can_boot (c : C) : can_module := CanModule c tx_boot isotp_tx_boot false false 0.

Definition with_dev (c : C) (s : can_module) : can_module :=
  CanModule c (tx s) (isotp s) (reset_handler s) (monitor_tid s) (wakeups s).
Definition with_queues (t : tx_state) (i : isotp_tx) (s : can_module) : can_module :=
  CanModule (dev s) t i (reset_handler s) (monitor_tid s) (wakeups s).
Definition k_wakeup (s : can_module) : can_module :=
  CanModule (dev s) (tx s) (isotp s) (reset_handler s) (monitor_tid s) (wakeups s + 1).

(** [if (err_code != -EALREADY) ASSERT_HARD(err_code)] *)
Definition assert_started (err : Z) : option unit :=
  if negb (err =? - EALREADY) && negb (err =? 0) then None else Some tt.

Definition can_messaging_suspend (s : can_module) : option (Z * can_module) :=
  let r := can_stop (dev s) in
  assert_started r.1;; Some (r.1, with_dev r.2 s).

(** [submit] is the answer of [k_work_submit]. *)
Definition reset_async (submit : Z) (s : can_module) : Z * can_module :=
  let ret := can_messaging_reset_async (reset_handler s) submit in
  (ret, if ret =? RET_SUCCESS then with_queues (submit_reset (tx s)) (isotp s) s else s).

Definition can_messaging_resume (submit : Z) (s : can_module) : option (Z * can_module) :=
  let '(err, s) := reset_async submit s in
  if negb (err =? 0) then None
  else
    let r := can_start (dev s) in
    assert_started r.1;; Some (RET_SUCCESS, k_wakeup (with_dev r.2 s)).

(** The work of the reset, in the system work queue. *)
Definition work_done (t : tx_state) : tx_state :=
  TxState (is_init t) (slab_free t) (slab_mem t) (tx_queue t) (tx_sem t) (phase t) false (wire t).

Definition can_reset_work_handler (s : can_module) : option can_module :=
  let r := canbus_tx_init true (work_done (tx s)) in
  if negb (r.1 =? 0) then None
  else
    let i := canbus_isotp_tx_init true (isotp s) in
    if negb (i.1 =? 0) then None else Some (with_queues r.2 i.2 s).

(** [can_messaging_async_tx] of canbus_tx.c: on a bus that is off or stopped it resumes the bus instead. *)
Definition bus_down (st : can_state) : bool := bool_decide (st = CAN_STATE_BUS_OFF) || bool_decide (st = CAN_STATE_STOPPED).

Definition async_tx (submit : Z) (m : can_message) (s : can_module) : option (Z * can_module) :=
  if is_init (tx s) && bus_down (can_get_state (dev s)) then
    '(_, s) ← can_messaging_resume submit s; Some (RET_ERROR_INVALID_STATE, s)
  else
    let r := can_messaging_async_tx (can_get_state (dev s)) m (tx s) in Some (r.1, with_queues r.2 (isotp s) s).

(** A turn of the monitor thread, after its sleep. *)
Definition monitor_turn (m : monitor) (s : can_module) : option (monitor * can_module) :=
  if bool_decide (can_get_state (dev s) = CAN_STATE_BUS_OFF) then
    let c := (can_stop (dev s)).2 in
    let r := can_start c in
    '(m, _) ← can_monitor_turn CAN_STATE_BUS_OFF r.1 m;
    let c := (can_recover r.2).2 in
    Some (m, with_queues (canbus_tx_init true (tx s)).2 (canbus_isotp_tx_init true (isotp s)).2 (with_dev c s))
  else '(m, _) ← can_monitor_turn (can_get_state (dev s)) 0 m; Some (m, s).

(** [can_messaging_init] in two parts: the underlying layers, and what follows. *)
Definition init_layers (in_handler ready : bool) (s : can_module) : Z * can_module :=
  let err := Z.lor (canbus_rx_init in_handler true ready).1 (canbus_isotp_rx_init in_handler true ready).1 in
  let t := canbus_tx_init true (tx s) in
  let i := canbus_isotp_tx_init true (isotp s) in
  (Z.lor (Z.lor err t.1) i.1, with_queues t.2 i.2 s).

Definition init_finish (err : Z) (s : can_module) : Z * can_module :=
  let s := CanModule (dev s) (tx s) (isotp s) true true (wakeups s) in
  if err =? 0 then let r := can_start (dev s) in (r.1, with_dev r.2 s) else (RET_ERROR_INTERNAL, s).

Definition can_messaging_init (in_handler ready : bool) (s : can_module) : Z * can_module :=
  let r := can_set_mode_fd (dev s) in
  let s := with_dev r.2 s in
  if negb (r.1 =? 0) then (r.1, s)
  else let '(err, s) := init_layers in_handler ready s in init_finish err s.
End Control.

(** ** Properties *)

Section Theorems.
Context {C : Type} `{CanControllerLaws C}.
Abbreviation can_module := (can_module C).

Lemma start_asserted (c : C) : assert_started (can_start c).1 = Some tt /\ can_get_state (can_start c).2 <> CAN_STATE_STOPPED.
Proof.
  destruct (decide (can_get_state c = CAN_STATE_STOPPED)) as [E | E].
  - destruct (start_stopped c E) as [-> ->]. done.
  - rewrite (start_started c E). done.
Qed.

Lemma resume_ok submit (s : can_module) : reset_handler s = true -> 0 <= submit ->
  can_messaging_resume submit s =
    Some (RET_SUCCESS, k_wakeup (with_dev (can_start (dev s)).2 (with_queues (submit_reset (tx s)) (isotp s) s))).
Proof.
  intros Hh Hs. unfold can_messaging_resume, reset_async, can_messaging_reset_async. rewrite Hh.
  bfalse (submit <? 0). cbn. destruct (start_asserted (dev s)) as [-> _]. done.
Qed.

(** What happens on the bus from the end of the initialisation on. *)
Inductive bus_event :=
| EvSend (submit : Z) (m : can_message)
| EvSuspend
| EvResume (submit : Z)
| EvWork
| EvMonitor (m : monitor)
| EvOther (c : C) (t : tx_state) (i : isotp_tx).   (* anything the controller and the threads do *)

Definition bus_step (s : can_module) (e : bus_event) : option can_module :=
  match e with
  | EvSend submit m => '(_, s) ← async_tx submit m s; Some s
  | EvSuspend => '(_, s) ← can_messaging_suspend s; Some s
  | EvResume submit => '(_, s) ← can_messaging_resume submit s; Some s
  | EvWork => can_reset_work_handler s
  | EvMonitor m => '(_, s) ← monitor_turn m s; Some s
  | EvOther c t i => Some (with_dev c (with_queues t i s))
  end.

Fixpoint bus_run (s : can_module) (es : list bus_event) : option can_module :=
  match es with [] => Some s | e :: es => s ← bus_step s e; bus_run s es end.

(** The system work queue takes the work, and the monitor has not yet counted ten recoveries. *)
Definition event_ok (e : bus_event) : Prop :=
  match e with
  | EvSend submit _ | EvResume submit => 0 <= submit
  | EvMonitor m => 0 <= off_recover_count m < 10
  | _ => True
  end.

Lemma monitor_turn_ok m (s : can_module) : 0 <= off_recover_count m < 10 ->
  exists m' s', monitor_turn m s = Some (m', s') /\ reset_handler s' = reset_handler s.
Proof.
  intros Hm. unfold monitor_turn. case_bool_decide as E.
  - destruct (start_asserted (can_stop (dev s)).2) as [A _]. unfold can_monitor_turn. unfold assert_started in A.
    destruct (negb _ && negb _); [done |]. cbv zeta. rewrite u32_small by lia.
    bfalse (10 <? off_recover_count m + 1). cbn. by eexists _, _.
  - destruct (can_get_state (dev s)); try done; cbn; by eexists _, _.
Qed.

Lemma bus_step_ok (s : can_module) e : reset_handler s = true -> event_ok e ->
  exists s', bus_step s e = Some s' /\ reset_handler s' = true.
Proof.
  intros Hh He. destruct e as [submit m | | submit | | m | c t i]; cbn [bus_step event_ok] in *.
  - unfold async_tx. destruct (is_init (tx s) && _); cbn [mbind option_bind]; [| by eexists].
    rewrite resume_ok by done. cbn. by eexists.
  - unfold can_messaging_suspend. assert (assert_started (can_stop (dev s)).1 = Some tt) as ->; [| by eexists].
    destruct (decide (can_get_state (dev s) = CAN_STATE_STOPPED)) as [E | E];
      [by rewrite (stop_stopped _ E) | by destruct (stop_started _ E) as [-> _]].
  - rewrite resume_ok by done. cbn. by eexists.
  - unfold can_reset_work_handler, canbus_isotp_tx_init. cbn. by eexists.
  - destruct (monitor_turn_ok m s He) as (m' & s' & -> & E). cbn. exists s'. by rewrite E.
  - by eexists.
Qed.

(** Once the module is initialised the bus control never ends in a hard assertion: whatever is sent, suspended, resumed or
    recovered, in whatever order, whatever the bus and the threads do in between. *)
Theorem bus_control_never_asserts (s : can_module) (es : list bus_event)
  (Hinit : reset_handler s = true) (Hes : Forall event_ok es) :
  exists s', bus_run s es = Some s' /\ reset_handler s' = true.
Proof.
  revert s Hinit. induction Hes as [| e es He Hes IH]; intros s Hinit; cbn [bus_run]; [by eexists |].
  destruct (bus_step_ok s e Hinit He) as (s1 & -> & E). by apply IH.
Qed.

(** A message sent while the module initialises resets the MCU: between [canbus_tx_init], which opens the queue, and [k_work_init] the bus is
    still stopped, so that the message resumes it, the work of the reset has no handler, and
    the code of [can_messaging_reset_async] is asserted. *)
Theorem message_during_init_asserts (in_handler ready : bool) (submit : Z) (m : can_message) (s : can_module)
  (Hstop : can_get_state (dev s) = CAN_STATE_STOPPED) (Hinit : reset_handler s = false) :
  async_tx submit m (init_layers in_handler ready s).2 = None /\
  (is_init (tx s) = false -> async_tx submit m s = Some (RET_ERROR_INVALID_STATE, s)).
Proof.
  split.
  - unfold init_layers, canbus_isotp_tx_init. cbn [snd]. unfold async_tx. cbn [dev with_queues tx]. rewrite Hstop.
    assert (is_init (canbus_tx_init true (tx s)).2 = true) as -> by (cbn; by destruct (phase (tx s))).
    cbn. unfold can_messaging_resume, reset_async, can_messaging_reset_async. cbn. by rewrite Hinit.
  - intros Ei. unfold async_tx, can_messaging_async_tx. rewrite Ei. cbn. by destruct s.
Qed.

(** [Can] models a refused message by the reset it submits: on the initialised module that is what the whole call does to the queue, and
    the bus is started again. *)
Theorem async_tx_refines (submit : Z) (m : can_message) (s : can_module) (Hinit : reset_handler s = true) (Hsubmit : 0 <= submit) :
  exists s', async_tx submit m s = Some ((can_messaging_async_tx (can_get_state (dev s)) m (tx s)).1, s') /\
    tx s' = (can_messaging_async_tx (can_get_state (dev s)) m (tx s)).2 /\ isotp s' = isotp s /\
    (is_init (tx s) = true -> can_get_state (dev s') <> CAN_STATE_STOPPED).
Proof.
  unfold async_tx, can_messaging_async_tx. destruct (is_init (tx s)) eqn:Ei; cbn [andb negb].
  - fold (bus_down (can_get_state (dev s))). destruct (bus_down (can_get_state (dev s))) eqn:Eb.
    + rewrite resume_ok by done. cbn [mbind option_bind]. eexists. split; [reflexivity |].
      split; [reflexivity |]. split; [reflexivity |]. intros _. apply start_asserted.
    + eexists. split; [reflexivity |]. split; [reflexivity |]. split; [reflexivity |]. intros _ E. cbn in E.
      unfold bus_down in Eb. rewrite E in Eb. by rewrite orb_true_r in Eb.
  - eexists. split; [reflexivity |]. split; [by destruct s as [? [] ? ? ? ?] |]. done.
Qed.

(** A suspended bus stays so only until the next message: the message is refused and the bus
    started, with a reset of the queues on its way. *)
Theorem suspend_lasts_until_a_message (submit : Z) (m : can_message) (s : can_module)
  (Hinit : reset_handler s = true) (Htx : is_init (tx s) = true) (Hsubmit : 0 <= submit) :
  exists r s1 s2, can_messaging_suspend s = Some (r, s1) /\ can_get_state (dev s1) = CAN_STATE_STOPPED /\
    async_tx submit m s1 = Some (RET_ERROR_INVALID_STATE, s2) /\ can_get_state (dev s2) = CAN_STATE_ERROR_ACTIVE /\
    reset_submitted (tx s2) = true.
Proof.
  assert (exists r s1, can_messaging_suspend s = Some (r, s1) /\ can_get_state (dev s1) = CAN_STATE_STOPPED /\
    reset_handler s1 = true /\ is_init (tx s1) = true) as (r & s1 & E1 & St & Hh & Ht).
  { unfold can_messaging_suspend. destruct (decide (can_get_state (dev s) = CAN_STATE_STOPPED)) as [E | E].
    - rewrite (stop_stopped _ E). by eexists _, _.
    - destruct (stop_started _ E) as [-> E']. by eexists _, _. }
  exists r, s1. eexists. split; [done |]. split; [done |]. unfold async_tx. rewrite Ht, St. change (true && bus_down CAN_STATE_STOPPED) with true.
  rewrite resume_ok by done. cbn [mbind option_bind]. split; [reflexivity |].
  split; [by apply start_stopped | reflexivity].
Qed.

(** The turn of the monitor is that of [Can], and leaves no bus stopped that it has recovered; both queues are reset then and
    only then. *)
Theorem monitor_turn_refines (m : monitor) (s : can_module) :
  match monitor_turn m s, can_monitor_turn (can_get_state (dev s)) (can_start (can_stop (dev s)).2).1 m with
  | Some (m', s'), Some (m'', reset) =>
      m' = m'' /\ tx s' = (if reset then (canbus_tx_init true (tx s)).2 else tx s) /\
      isotp s' = (if reset then (canbus_isotp_tx_init true (isotp s)).2 else isotp s) /\
      (reset = true -> can_get_state (dev s') <> CAN_STATE_STOPPED)
  | None, None => True
  | _, _ => False
  end.
Proof.
  unfold monitor_turn. case_bool_decide as E.
  - rewrite E. destruct (can_monitor_turn _ _ m) as [[m' reset] |] eqn:Et; cbn [mbind option_bind]; [| done].
    assert (reset = true) as ->.
    { revert Et. unfold can_monitor_turn. repeat case_match; try done. by intros [= _ <-]. }
    repeat split. intros _. apply recover_started, start_asserted.
  - assert (can_monitor_turn (can_get_state (dev s)) (can_start (can_stop (dev s)).2).1 m =
            can_monitor_turn (can_get_state (dev s)) 0 m) as -> by (unfold can_monitor_turn; by destruct (can_get_state (dev s))).
    destruct (can_monitor_turn _ 0 m) as [[m' reset] |] eqn:Et; cbn [mbind option_bind]; [| done].
    assert (reset = false) as ->; [| done].
    revert Et. unfold can_monitor_turn. destruct (can_get_state (dev s)); try done; by intros [= _ <-].
Qed.

(** The status of the whole initialisation is the one [Can] computes from the answers of the driver. *)
Theorem init_status (in_handler ready : bool) (s : can_module) :
  (can_messaging_init in_handler ready s).1 =
    Can.can_messaging_init true in_handler ready (can_set_mode_fd (dev s)).1 (can_start (can_set_mode_fd (dev s)).2).1 /\
  ((can_set_mode_fd (dev s)).1 = 0 -> reset_handler (can_messaging_init in_handler ready s).2 = true).
Proof.
  unfold can_messaging_init, Can.can_messaging_init. cbv zeta. cbn [negb].
  destruct (can_set_mode_fd (dev s)) as [r c]. cbn [fst snd]. destruct (r =? 0) eqn:Er; cbn [negb].
  - unfold init_layers, canbus_isotp_tx_init, canbus_isotp_rx_init. cbn [fst snd].
    destruct in_handler, ready; cbn; by split.
  - split; [done |]. intros ->. done.
Qed.
End Theorems.

Lemma bus_control_never_asserts_witness :
  exists s', bus_run (can_messaging_init true true (can_boot CAN_STATE_STOPPED)).2
    [EvSuspend; EvSend 1 (CanMessage 5 [1]); EvWork; EvMonitor (Monitor 0 10000); EvResume 0] = Some s' /\ reset_handler s' = true.
Proof.
  apply bus_control_never_asserts; [vm_compute; reflexivity |].
  repeat constructor; cbn; lia.
Defined.

Lemma message_during_init_asserts_witness :
  async_tx 1 (CanMessage 5 [1]) (init_layers true true (can_boot CAN_STATE_STOPPED)).2 = None.
Proof. by apply (message_during_init_asserts true true 1 (CanMessage 5 [1]) (can_boot CAN_STATE_STOPPED)). Defined.

(** ** The ISO-TP receiver: canbus_rx_isotp.c's thread over all contexts *)

(** A context: its identifier, what [isotp_recv_net] will yield on it, and the state of its poll event. *)
Record rx_ctx := RxCtx { std_id : Z; stream : list isotp_recv; data_available : bool }.

(** The receiving loop on one context: what the handler is called with, and what is left.  [None]: the wait for a segment
    does not end. *)
Fixpoint receive (rs : list isotp_recv) (buffer : bytes) : option (option bytes * list isotp_recv) :=
  match rs with
  | [] => None
  | RecvErr _ :: rs => Some (None, rs)
  | RecvSeg rem_len seg :: rs =>
      if rem_len <? 0 then Some (None, rs)
      else
        let buffer := if zlen buffer + zlen seg <=? CAN_ISOTP_MAX_SIZE_BYTES then buffer ++ seg else buffer in
        if 0 <? rem_len then receive rs buffer else Some (Some buffer, rs)
  end.

Definition serve (c : rx_ctx) : option (list can_message * rx_ctx) :=
  if data_available c then
    '(m, rest) ← receive (stream c) [];
    Some (match m with Some b => [CanMessage (std_id c) b] | None => [] end, RxCtx (std_id c) rest false)
  else Some ([], RxCtx (std_id c) (stream c) false).

Fixpoint serve_all (cs : list rx_ctx) : option (list can_message * list rx_ctx) :=
  match cs with
  | [] => Some ([], [])
  | c :: cs => '(ms, c) ← serve c; '(l, cs) ← serve_all cs; Some (ms ++ l, c :: cs)
  end.

(** [k_poll] returns 0 with the events marked whose queue has data. *)
Definition mark (c : rx_ctx) : rx_ctx := RxCtx (std_id c) (stream c) (data_available c || negb (bool_decide (length (stream c) = 0%nat))).
Definition not_ready (c : rx_ctx) : rx_ctx := RxCtx (std_id c) (stream c) false.

(** One turn of the thread; [ret] is the answer of [k_poll]. *)
Definition isotp_rx_turn (ret : Z) (cs : list rx_ctx) : option (list can_message * list rx_ctx) :=
  if negb (ret =? 0) then Some ([], if ret =? - EINTR then not_ready <$> cs else cs)
  else serve_all (mark <$> cs).

Fixpoint isotp_rx_run (rets : list Z) (cs : list rx_ctx) : option (list can_message * list rx_ctx) :=
  match rets with
  | [] => Some ([], cs)
  | r :: rets => '(ms, cs) ← isotp_rx_turn r cs; '(l, cs) ← isotp_rx_run rets cs; Some (ms ++ l, cs)
  end.

(** [receive] is the loop of [Can] with the rest of the stream. *)
Lemma receive_collect rs : forall buffer m rest, receive rs buffer = Some (m, rest) -> isotp_collect rs buffer = m.
Proof.
  induction rs as [| [ret | rem seg] rs IH]; intros buffer m rest; cbn [receive isotp_collect]; [done | by intros [= <- _] |].
  destruct (Z.ltb_spec rem 0).
  - intros [= <- _]. bfalse (0 <? rem). by bfalse (rem =? 0).
  - cbv zeta. destruct (Z.ltb_spec 0 rem); [apply IH |]. intros [= <- _]. by btrue (rem =? 0).
Qed.

(** *** Messages, and receptions that fail *)

(** What comes in as one message: the segments before the last, each with what is still to come, and the last one or
    the error that ends the reception. *)
Definition message : Type := list (Z * bytes) * (bytes + Z).
Definition text (m : message) : option bytes :=
  match m.2 with inl last => Some (concat (snd <$> m.1) ++ last) | inr _ => None end.
Definition whole (m : message) : Prop := Forall (fun p => 0 < p.1) m.1 /\
  match text m with Some t => zlen t <= CAN_ISOTP_MAX_SIZE_BYTES | None => True end.
Definition incoming (m : message) : list isotp_recv :=
  match m.2 with inl last => segments m.1 last | inr ret => ((fun '(r, s) => RecvSeg r s) <$> m.1) ++ [RecvErr ret] end.
Definition wire_of (ms : list message) : list isotp_recv := concat (incoming <$> ms).

Lemma receive_segments first last rest : forall buffer, Forall (fun p => 0 < p.1) first ->
  zlen buffer + zlen (concat (snd <$> first)) + zlen last <= CAN_ISOTP_MAX_SIZE_BYTES ->
  receive (segments first last ++ rest) buffer = Some (Some (buffer ++ concat (snd <$> first) ++ last), rest).
Proof.
  unfold segments. induction first as [| [r s] first IH]; intros buffer F L; cbn [fmap list_fmap app receive concat snd] in *.
  - change (zlen []) with 0 in L. bfalse (0 <? 0). by btrue (zlen buffer + zlen last <=? CAN_ISOTP_MAX_SIZE_BYTES).
  - apply Forall_cons in F as [Hr F]. cbn [fst] in Hr. rewrite zlen_app in L.
    pose proof (zlen_nonneg (concat first.*2)). pose proof (zlen_nonneg last).
    bfalse (r <? 0). btrue (zlen buffer + zlen s <=? CAN_ISOTP_MAX_SIZE_BYTES). btrue (0 <? r). cbv zeta.
    rewrite IH; [by rewrite <- !app_assoc | done |]. rewrite zlen_app. lia.
Qed.

Lemma receive_error first ret rest : forall buffer, Forall (fun p => 0 < p.1) first ->
  receive ((((fun '(r, s) => RecvSeg r s) <$> first) ++ [RecvErr ret]) ++ rest) buffer = Some (None, rest).
Proof.
  induction first as [| [r s] first IH]; intros buffer F; cbn [fmap list_fmap app receive]; [done |].
  apply Forall_cons in F as [Hr F]. cbn [fst] in Hr. bfalse (r <? 0). btrue (0 <? r). cbv zeta. by apply IH.
Qed.

Lemma receive_incoming m rest : whole m -> receive (incoming m ++ rest) [] = Some (text m, rest).
Proof.
  destruct m as [first [last | ret]]; intros [P L]; unfold incoming, text in *; cbn [fst snd] in *; [| by apply receive_error].
  rewrite (receive_segments first last); [done | done |]. rewrite zlen_app in L. change (zlen []) with 0. lia.
Qed.

Lemma incoming_nonempty m rest : length (incoming m ++ rest) <> 0%nat.
Proof. destruct m as [first [last | ret]]; unfold incoming, segments; cbn [fst snd]; rewrite !length_app; cbn; lia. Qed.

(** An application: its identifier and what comes in from it. *)
Definition remote_app : Type := Z * list message.
Definition ctx_of (a : remote_app) : rx_ctx := RxCtx a.1 (wire_of a.2) false.
Definition delivered (id : Z) (m : message) : list can_message := match text m with Some t => [CanMessage id t] | None => [] end.
Definition sent_by (n : nat) (a : remote_app) : list can_message := concat (delivered a.1 <$> take n a.2).
Definition after (n : nat) (a : remote_app) : remote_app := (a.1, drop n a.2).

Lemma serve_app a : Forall whole a.2 -> serve (mark (ctx_of a)) = Some (sent_by 1 a, ctx_of (after 1 a)).
Proof.
  destruct a as [id [| m ms]]; intros F; [done |].
  apply Forall_cons in F as [P _]. unfold serve, mark, ctx_of, wire_of. cbn [std_id stream data_available fst snd fmap list_fmap concat].
  rewrite bool_decide_false by apply incoming_nonempty. cbn [orb negb].
  rewrite receive_incoming by done. cbn [mbind option_bind]. unfold sent_by, delivered, after. cbn [fst snd drop take fmap list_fmap concat].
  by rewrite take_0, app_nil_r, drop_0.
Qed.

Lemma serve_apps apps : Forall (fun a => Forall whole a.2) apps ->
  serve_all (mark <$> (ctx_of <$> apps)) = Some (concat (sent_by 1 <$> apps), ctx_of <$> (after 1 <$> apps)).
Proof.
  induction 1 as [| a apps Fa F IH]; [done |]. rewrite !fmap_cons. cbn [serve_all]. rewrite (serve_app a Fa). cbn [mbind option_bind].
  rewrite IH. done.
Qed.

Lemma sent_by_S n a : sent_by 1 a ++ sent_by n (after 1 a) = sent_by (S n) a.
Proof. destruct a as [id [| m ms]]; unfold sent_by, after; cbn; [by rewrite take_nil | by rewrite take_0, drop_0, app_nil_r]. Qed.

Lemma sent_by_dest n a m : m ∈ sent_by n a -> destination m = a.1.
Proof.
  unfold sent_by. intros Hm. apply list_elem_of_In, in_concat in Hm as (l & Hl & Hm).
  apply list_elem_of_In, list_elem_of_fmap in Hl as (x & -> & _). unfold delivered in Hm.
  destruct (text x); [| done]. by destruct Hm as [<- | []].
Qed.

Lemma filter_all {A} (P : A -> Prop) `{!forall x, Decision (P x)} (l : list A) : (forall x, x ∈ l -> P x) -> filter P l = l.
Proof.
  induction l as [| x l IH]; [done |]. intros F. rewrite filter_cons_True by (apply F; left). f_equal. apply IH. intros y Hy. apply F. by right.
Qed.

Lemma filter_none {A} (P : A -> Prop) `{!forall x, Decision (P x)} (l : list A) : (forall x, x ∈ l -> ~ P x) -> filter P l = [].
Proof.
  induction l as [| x l IH]; [done |]. intros F. rewrite filter_cons_False by (apply F; left). apply IH. intros y Hy. apply F. by right.
Qed.

Lemma filter_sent_by id n a : filter (fun m => destination m = id) (sent_by n a) = if decide (a.1 = id) then sent_by n a else [].
Proof.
  case_decide as E.
  - apply filter_all. intros m Hm. by rewrite (sent_by_dest _ _ _ Hm).
  - apply filter_none. intros m Hm. by rewrite (sent_by_dest _ _ _ Hm).
Qed.

(** Of what one turn hands over, the messages of an application are its first. *)
Lemma filter_firsts (apps : list remote_app) a : NoDup apps.*1 -> a ∈ apps ->
  filter (fun m => destination m = a.1) (concat (sent_by 1 <$> apps)) = sent_by 1 a.
Proof.
  assert (forall l : list remote_app, a.1 ∉ l.*1 -> filter (fun m => destination m = a.1) (concat (sent_by 1 <$> l)) = []) as None_.
  { induction l as [| c l IH]; [done |]. intros Hn. rewrite fmap_cons in *. cbn [concat]. rewrite filter_app, filter_sent_by.
    apply not_elem_of_cons in Hn as [Hc Hl]. rewrite decide_False by done. by apply IH. }
  induction apps as [| c apps IH]; [by intros _ ?%elem_of_nil |]. rewrite !fmap_cons. cbn [concat]. intros [Hc Hn]%NoDup_cons [<- | Ha]%elem_of_cons.
  - rewrite filter_app, filter_sent_by, decide_True by done. rewrite None_ by done. by rewrite app_nil_r.
  - rewrite filter_app, filter_sent_by, decide_False; [by apply IH |]. intros E. apply Hc. rewrite E. by apply list_elem_of_fmap_2.
Qed.

(** Turns with an error of [k_poll] deliver nothing, and lose nothing. *)
Definition good (rets : list Z) : nat := length (filter (fun r => r = 0) rets).

Lemma error_turn ret apps : ret <> 0 -> isotp_rx_turn ret (ctx_of <$> apps) = Some ([], ctx_of <$> apps).
Proof.
  intros E. unfold isotp_rx_turn. bfalse (ret =? 0). cbn [negb]. case_match; [by rewrite <- list_fmap_compose | done].
Qed.


(** Two applications of the Jetson, the first with a message in two segments, one that fails and another; a cancelled poll in between. *)
Abbreviation two_apps := ([(792, [([(2, [1; 2])], inl [3; 4]); ([(1, [9])], inr (-1)); ([], inl [5])]); (808, [([], inl [6])])] : list remote_app).


(** A segment that does not fit is left out, and the rest of the message still handed over: the handler is given bytes that were never sent
    in a row. *)
Example oversized_message_with_a_hole :
  receive [RecvSeg 101 (fill 1000 1); RecvSeg 1 (fill 100 2); RecvSeg 0 [3]] [] = Some (Some (fill 1000 1 ++ [3]), []).
Proof. vm_compute. reflexivity. Qed.
