(* ===== verification/Protection.v ===== *)
(** lib/dfu: the readback protection of dfu.c, and the slots of flash_map_extended.c.

    The protection is set in the option bytes, which resets the MCU; before, the secondary slot is made unusable, so that no image can be
    reverted to.  What the driver answers and whether programming the option bytes resets
    are arguments; the flash area is that of [Flash]. *)

From S2P Require Import Prelude Flash Dfu.

(** ** [dfu_readback_protection] *)

(** [struct flash_stm32_ex_op_rdp]. *)
Record rdp := Rdp { enable : bool; permanent : bool }.

#[export] Instance rdp_eq_dec : EqDecision rdp.
Proof. solve_decision. Defined.

Definition request : rdp := Rdp true false.

(** How a call ends: with a code, with the reset of the MCU, or in [CODE_UNREACHABLE]. *)
Inductive ending := Returns (ret : Z) | Resets | Unreachable.

Record chip (D : Type) := Chip {
  option_bytes : rdp;
  DBGMCU_CR : Z;
  slot1 : D;                 (* the secondary slot *)
  assert_count : Z;
}.
Arguments Chip {D}. Arguments option_bytes {D}. Arguments DBGMCU_CR {D}. Arguments slot1 {D}. Arguments assert_count {D}.

Section Protection.
Context {D : Type} `{FlashDriver D} (SL : Z).
(** CONFIG_DEBUG, and DBGMCU_CR_DBG_SLEEP | DBGMCU_CR_DBG_STOP | DBGMCU_CR_DBG_STANDBY of the vendor's header. *)
Context (debug : bool) (DBG_LOW_POWER : Z).

Definition soft (code : Z) (c : chip D) : chip D :=
  Chip (option_bytes c) (DBGMCU_CR c) (slot1 c) (if code =? 0 then assert_count c else u32 (assert_count c + 1)).

(** The first two sectors of the secondary slot are erased. *)
Definition invalidate_secondary (open_ret : Z) (c : chip D) : chip D :=
  let c := soft open_ret c in
  if open_ret =? 0 then
    let r := flash_erase (slot1 c) 0 (DFU_FLASH_SECTOR_SIZE SL * 2) in
    soft r.1 (Chip (option_bytes c) (DBGMCU_CR c) r.2 (assert_count c))
  else c.

Definition dfu_readback_protection (read_ret open_ret : Z) (programs : bool) (c : chip D) : ending * chip D :=
  if debug then (Returns 0, c)
  else
    let status := if read_ret =? 0 then option_bytes c else Rdp false false in
    if (read_ret =? 0) && (negb (eqb (enable request) (enable status)) || negb (eqb (permanent request) (permanent status))) then
      let cr := if negb (Z.land (DBGMCU_CR c) DBG_LOW_POWER =? 0) then Z.ldiff (DBGMCU_CR c) DBG_LOW_POWER else DBGMCU_CR c in
      let c := invalidate_secondary open_ret (Chip (option_bytes c) cr (slot1 c) (assert_count c)) in
      if programs then (Resets, Chip request (DBGMCU_CR c) (slot1 c) (assert_count c)) else (Unreachable, c)
    else (Returns read_ret, c).
End Protection.

(** [dfu_primary_confirm], with the answer of mcuboot's [boot_set_confirmed]. *)
Definition dfu_primary_confirm (boot_set_confirmed : Z) : Z := boot_set_confirmed.

(** ** flash_map_extended.c *)

(** The numbers of the areas are generated (sysflash.h). *)
Section FlashMap.
Context (FLASH_AREA_IMAGE_PRIMARY FLASH_AREA_IMAGE_SECONDARY FLASH_AREA_IMAGE_SCRATCH : Z).
(** CONFIG_SINGLE_APPLICATION_SLOT, CONFIG_BOOT_SWAP_USING_SCRATCH. *)
Context (single_slot swap_scratch : bool).

Definition flash_area_id_from_multi_image_slot (image_index slot : Z) : Z :=
  if slot =? 0 then FLASH_AREA_IMAGE_PRIMARY
  else if (slot =? 1) && negb single_slot then FLASH_AREA_IMAGE_SECONDARY
  else if (slot =? 2) && swap_scratch then FLASH_AREA_IMAGE_SCRATCH
  else - EINVAL.
Definition flash_area_id_from_image_slot (slot : Z) : Z := flash_area_id_from_multi_image_slot 0 slot.

Definition flash_area_id_to_multi_image_slot (image_index area_id : Z) : Z :=
  if u32 area_id =? FLASH_AREA_IMAGE_PRIMARY then 0
  else if negb single_slot && (u32 area_id =? FLASH_AREA_IMAGE_SECONDARY) then 1
  else -1.
Definition flash_area_id_to_image_slot (area_id : Z) : Z := flash_area_id_to_multi_image_slot 0 area_id.

(** [flash_device_base]: the code and the base written. *)
Definition flash_device_base (FLASH_DEVICE_ID FLASH_DEVICE_BASE fd_id : Z) : Z * option Z :=
  if negb (fd_id =? FLASH_DEVICE_ID) then (- EINVAL, None) else (0, Some FLASH_DEVICE_BASE).

(** [flash_device_get_binding]: the device found and the new [flash_dev]. *)
Definition flash_device_get_binding {V N : Type} (device_get_binding : N -> option V) (dev_name : N) (flash_dev : option V)
  : option V * option V :=
  let dev := match flash_dev with Some d => Some d | None => device_get_binding dev_name end in (dev, dev).

(** [flash_area_sector_from_off]: the page of the device found last; offset and size are written on success. *)
Definition flash_area_sector_from_off {V : Type} (page_info : option V -> Z -> Z * (Z * Z)) (flash_dev : option V) (off : Z) : Z * option (Z * Z) :=
  let r := page_info flash_dev off in
  if negb (r.1 =? 0) then (r.1, None) else (r.1, Some r.2).

Definition flash_area_erased_val : Z := 0xff.
End FlashMap.

(** ** Properties *)

Section Theorems.
Context {D : Type} `{FlashLaws D wbs} (SL DBG : Z) (MB : mcuboot).

(** What an erased slot is: the first bytes of its content are 0xff. *)
Definition erased_header (d : D) : Prop := slice 0 (DFU_FLASH_SECTOR_SIZE SL * 2) (flash_content d) = fill (DFU_FLASH_SECTOR_SIZE SL * 2) 255.

Lemma erase_two_sectors (d : D) : 0 <= SL -> DFU_FLASH_SECTOR_SIZE SL * 2 <= flash_size d ->
  (DFU_FLASH_SECTOR_SIZE SL * 2) mod flash_sector = 0 ->
  exists d', flash_erase d 0 (DFU_FLASH_SECTOR_SIZE SL * 2) = (0, d') /\ flash_size d' = flash_size d /\ erased_header d' /\
    drop (Z.to_nat (DFU_FLASH_SECTOR_SIZE SL * 2)) (flash_content d') = drop (Z.to_nat (DFU_FLASH_SECTOR_SIZE SL * 2)) (flash_content d).
Proof.
  intros HSL Hsize Hmod. assert (0 < DFU_FLASH_SECTOR_SIZE SL) as P by (unfold DFU_FLASH_SECTOR_SIZE; apply Z.pow_pos_nonneg; lia).
  set (n := DFU_FLASH_SECTOR_SIZE SL * 2) in *.
  destruct (flash_erase_sectors d 0 n) as (d' & E & S & Cn); try lia; [by apply Z.mod_0_l; pose proof flash_sector_pos; lia |].
  exists d'. split; [done |]. split; [done |]. unfold erased_header. fold n. rewrite Cn.
  assert (length (fill n 255) = Z.to_nat n) as Ef by (unfold fill; by rewrite length_replicate).
  unfold splice. rewrite Ef. change (Z.to_nat 0) with 0%nat. rewrite take_0. cbn [app Nat.add]. split.
  - apply (slice_app_mid 0 n []); [done |]. by rewrite zlen_fill by lia.
  - apply drop_app_length'. by rewrite Ef.
Qed.

(** An erased slot has no image for [dfu_version_secondary_get]: [Hmb] is mcuboot's layout of the header, with the
    revision and build number in it. *)
Context (Hmb : ih_build_num (parse_header MB (fill (HEADER_SIZE MB) 255)) = 4294967295 /\
               ih_revision (parse_header MB (fill (HEADER_SIZE MB) 255)) = 65535).

Lemma erased_not_found (d : D) (h : dfu_headers) :
  erased_header d -> 0 <= HEADER_SIZE MB <= DFU_FLASH_SECTOR_SIZE SL * 2 -> DFU_FLASH_SECTOR_SIZE SL * 2 <= flash_size d ->
  zlen (secondary_slot_header h) = HEADER_SIZE MB -> sem_headers h = 1 ->
  exists h', dfu_version_secondary_get MB 0 d h = Some (RET_ERROR_NOT_FOUND, None, h') /\ sem_headers h' = 1.
Proof.
  intros He Hh Hs Hz Hsem. unfold dfu_version_secondary_get, headers_take. rewrite Hsem. cbn [Z.eqb mbind option_bind].
  cbn [negb]. cbn [secondary_slot_header]. rewrite flash_read_ok by lia. cbn [fst snd Z.eqb negb]. rewrite Hz.
  assert (slice 0 (HEADER_SIZE MB) (flash_content d) = fill (HEADER_SIZE MB) 255) as ->.
  { unfold erased_header in He. rewrite (slice_split 0 (HEADER_SIZE MB)) in He by lia.
    rewrite (fill_split (HEADER_SIZE MB)) in He by lia. apply app_inj_1 in He as [-> _]; [done |].
    unfold fill. rewrite length_replicate. unfold slice. rewrite length_take, length_drop.
    pose proof (flash_content_size d) as Z0. unfold zlen in Z0. lia. }
  destruct Hmb as [-> ->]. cbn. by eexists.
Qed.


(** When the secondary slot cannot be opened the protection is set all the same, and the slot keeps its image. *)
Theorem protected_with_its_image (c : chip D) (open_ret : Z) (Hoff : option_bytes c = Rdp false false) (Hopen : open_ret <> 0) :
  let '(e, c1) := dfu_readback_protection SL false DBG 0 open_ret true c in
  e = Resets /\ option_bytes c1 = request /\ slot1 c1 = slot1 c.
Proof.
  unfold dfu_readback_protection, invalidate_secondary. rewrite Hoff. cbn. bfalse (open_ret =? 0). done.
Qed.

(** A chip whose protection is permanent loses the first two sectors of its secondary slot on every call, although nothing can be set any more, and the
    call ends where the code says it never does. *)
Theorem permanent_protection_erases (c : chip D) (Hperm : option_bytes c = Rdp true true) (HSL : 0 <= SL)
  (Hsize : DFU_FLASH_SECTOR_SIZE SL * 2 <= flash_size (slot1 c)) (Hsector : (DFU_FLASH_SECTOR_SIZE SL * 2) mod flash_sector = 0) :
  let '(e, c1) := dfu_readback_protection SL false DBG 0 0 false c in
  e = Unreachable /\ erased_header (slot1 c1) /\ option_bytes c1 = Rdp true true.
Proof.
  destruct (erase_two_sectors (slot1 c) HSL Hsize Hsector) as (d' & E & S & He & Hd).
  unfold dfu_readback_protection, invalidate_secondary. rewrite Hperm. cbn. rewrite E. done.
Qed.
End Theorems.

(** A slot and its area name each other; other numbers of slots and areas are errors. *)
Theorem image_slots_roundtrip (primary secondary scratch : Z) (single scratch_swap : bool)
  (Hp : 0 <= primary < 2 ^ 31) (Hs : 0 <= secondary < 2 ^ 31) (Hne : primary <> secondary) (slot : Z)
  (Hslot : slot = 0 \/ slot = 1 /\ single = false) :
  flash_area_id_to_image_slot primary secondary single (flash_area_id_from_image_slot primary secondary scratch single scratch_swap slot) = slot /\
  (forall area, 0 <= area < 2 ^ 31 -> flash_area_id_to_image_slot primary secondary single area = slot ->
     flash_area_id_from_image_slot primary secondary scratch single scratch_swap slot = area).
Proof.
  unfold flash_area_id_to_image_slot, flash_area_id_from_image_slot, flash_area_id_to_multi_image_slot, flash_area_id_from_multi_image_slot.
  destruct Hslot as [-> | [-> ->]]; cbn [Z.eqb Pos.eqb andb negb]; (split; [| intros area Ha]); rewrite ?u32_small by lia;
    bdestruct_all; try done; destruct single; cbn [negb andb]; intros; bdestruct_all; lia.
Qed.

(** A chip with a flash of 512 bytes in sectors of 128, and mcuboot's header in its first four bytes: revision, build number. *)
Definition demo_mcuboot : mcuboot :=
  Mcuboot (fun b => ImageHeader 0 0 0 0 0 (nthZ b 0 + 256 * nthZ b 1) (nthZ b 2 * 16843009)) 4 0 (fun b => (0, 0)) 2 105 106 2 3.
Definition demo_chip (r : rdp) : chip (nor_w 8) := Chip r 7 (exist _ (Nor (fill 512 42) 8) eq_refl) 0.

