(* ===== verification/TimerUtils.v ===== *)
(** main_board/src/system/stm32_timer_utils: the clocks and pins of the timers.

    The clock controller and the pin controller are arguments: what switching a clock on, reading its rate and applying a state of
    pins answer.  A call leaves the list of what it switched on and applied. *)

From S2P Require Import Prelude.

Definition ASSUMED_TIMER_CLOCK_FREQ_MHZ : Z := 170.
Definition ASSUMED_TIMER_CLOCK_FREQ : Z := ASSUMED_TIMER_CLOCK_FREQ_MHZ * 1000000.

(** [struct stm32_pclken]: whether its bus is APB1, and the enable bit. *)
Record pclken := Pclken { on_apb1 : bool; enr : Z }.

(** What was done to the hardware. *)
Inductive timer_call (P : Type) := ClockOn (p : pclken) | PinsApplied (c : P).
Arguments ClockOn {P}. Arguments PinsApplied {P}.

Section Timers.
Context {P : Type} (STM32_APB1_PRESCALER STM32_APB2_PRESCALER : Z).
Context (clock_control_on : pclken -> Z) (clock_control_get_rate : pclken -> Z * Z) (pinctrl_apply_state : P -> Z).

(** The code, and the rate written on success. *)
Definition get_tim_clk (p : pclken) : Z * option Z :=
  let '(r, bus_clk) := clock_control_get_rate p in
  if r <? 0 then (r, None)
  else
    let apb_psc := if on_apb1 p then STM32_APB1_PRESCALER else STM32_APB2_PRESCALER in
    (0, Some (if apb_psc =? 1 then bus_clk else u32 (bus_clk * 2))).

(** The loop; [timer_clock_freq] is written before it is read. *)
Fixpoint enable_loop (l : list (pclken * P)) : Z * list (timer_call P) :=
  match l with
  | [] => (RET_SUCCESS, [])
  | (p, c) :: l =>
      if clock_control_on p <? 0 then (RET_ERROR_INTERNAL, [ClockOn p])
      else
        let '(r, freq) := get_tim_clk p in
        if r <? 0 then (RET_ERROR_INTERNAL, [ClockOn p])
        else if negb (default 0 freq =? ASSUMED_TIMER_CLOCK_FREQ) then (RET_ERROR_INTERNAL, [ClockOn p])
        else if pinctrl_apply_state c <? 0 then (RET_ERROR_INTERNAL, [ClockOn p; PinsApplied c])
        else let '(ret, t) := enable_loop l in (ret, [ClockOn p; PinsApplied c] ++ t)
  end.

Definition enable_clocks_and_configure_pins (clocks : list pclken) (pins : list P) : Z * list (timer_call P) :=
  if negb (length clocks =? length pins)%nat then (RET_ERROR_INTERNAL, []) else enable_loop (zip clocks pins).

(** A timer that can be set up. *)
Definition timer_ok (e : pclken * P) : Prop :=
  0 <= clock_control_on e.1 /\ get_tim_clk e.1 = (0, Some ASSUMED_TIMER_CLOCK_FREQ) /\ 0 <= pinctrl_apply_state e.2.

#[local] Instance timer_ok_dec e : Decision (timer_ok e).
Proof. unfold timer_ok. apply _. Defined.

(** The first timer of a list that cannot be set up. *)
Lemma list_elem_of_split_first (l : list (pclken * P)) e0 : e0 ∈ l -> ~ timer_ok e0 ->
  exists l1 e l2, l = l1 ++ e :: l2 /\ Forall timer_ok l1 /\ ~ timer_ok e.
Proof.
  induction l as [| e l IH]; [by intros ?%elem_of_nil |]. intros Hin Hn. destruct (decide (timer_ok e)) as [Ok | Bad].
  - apply elem_of_cons in Hin as [-> | Hin]; [done |]. destruct (IH Hin Hn) as (l1 & x & l2 & -> & F & Hx).
    exists (e :: l1), x, l2. split; [done |]. split; [by constructor | done].
  - by exists [], e, l.
Qed.

Definition calls_of (l : list (pclken * P)) : list (timer_call P) := concat ((fun e => [ClockOn e.1; PinsApplied e.2]) <$> l).

Lemma enable_loop_app l1 l2 : Forall timer_ok l1 ->
  enable_loop (l1 ++ l2) = (let '(ret, t) := enable_loop l2 in (ret, calls_of l1 ++ t)).
Proof.
  induction 1 as [| [p c] l (H1 & H2 & H3) F IH]; cbn [app]; [by destruct (enable_loop l2) |].
  cbn [enable_loop]. cbn [fst snd] in *. bfalse (clock_control_on p <? 0). rewrite H2. cbn [Z.ltb Z.compare default].
  rewrite Z.eqb_refl. cbn [negb]. bfalse (pinctrl_apply_state c <? 0). rewrite IH. by destruct (enable_loop l2).
Qed.

Lemma enable_loop_bad e l : ~ timer_ok e ->
  exists t, enable_loop (e :: l) = (RET_ERROR_INTERNAL, ClockOn e.1 :: t) /\ t `prefix_of` [PinsApplied e.2].
Proof.
  destruct e as [p c]. intros Hn. unfold timer_ok in Hn. cbn [fst snd enable_loop] in *.
  destruct (Z.ltb_spec (clock_control_on p) 0); [exists []; split; [done | apply prefix_nil] |].
  destruct (get_tim_clk p) as [r freq] eqn:Eg.
  destruct (Z.ltb_spec r 0); [exists []; split; [done | apply prefix_nil] |].
  destruct (Z.eqb_spec (default 0 freq) ASSUMED_TIMER_CLOCK_FREQ) as [Ef | Ef]; cbn [negb]; [| exists []; split; [done | apply prefix_nil]].
  destruct (Z.ltb_spec (pinctrl_apply_state c) 0); [by exists [PinsApplied c] |].
  exfalso. apply Hn. split; [done |]. split; [| done]. revert Eg. unfold get_tim_clk. destruct (clock_control_get_rate p) as [r0 bus].
  destruct (Z.ltb_spec r0 0); intros [= <- <-]; [cbn in Ef; lia |]. cbn in Ef. by rewrite Ef.
Qed.

(** The timers are set up in order and only at the frequency the periods are computed for: the call succeeds exactly when the two
    lists are as long and every clock can be switched on, runs at 170 MHz and has its pins applied; it stops at
    the first that cannot, after those before it, and touches none behind it; lists of different lengths touch nothing. *)
Theorem timers_at_assumed_frequency (clocks : list pclken) (pins : list P) :
  let '(ret, t) := enable_clocks_and_configure_pins clocks pins in
  if negb (length clocks =? length pins)%nat then ret = RET_ERROR_INTERNAL /\ t = []
  else
    (ret = RET_SUCCESS /\ Forall timer_ok (zip clocks pins) /\ t = calls_of (zip clocks pins)) \/
    (ret = RET_ERROR_INTERNAL /\ exists l1 e l2 k, zip clocks pins = l1 ++ e :: l2 /\ Forall timer_ok l1 /\ ~ timer_ok e /\
       t = calls_of l1 ++ ClockOn e.1 :: k /\ k `prefix_of` [PinsApplied e.2]).
Proof.
  unfold enable_clocks_and_configure_pins. destruct (negb _); [done |].
  set (l := zip clocks pins). destruct (decide (Forall timer_ok l)) as [F | F].
  - pose proof (enable_loop_app l [] F) as E. rewrite app_nil_r in E. rewrite E. cbn. left. by rewrite app_nil_r.
  - apply not_Forall_Exists in F; [| apply _]. apply Exists_exists in F as (e0 & Hin & Hbad).
    destruct (list_elem_of_split_first l e0 Hin Hbad) as (l1 & e & l2 & -> & F1 & Hn).
    rewrite enable_loop_app by done. destruct (enable_loop_bad e l2 Hn) as (k & -> & Hk). right. split; [done |].
    by exists l1, e, l2, k.
Qed.

(** Twice the rate of the bus, unless its prescaler is 1; the doubling wraps only beyond 2 GHz. *)
Theorem timer_clock (p : pclken) (bus_clk : Z) (Hrate : clock_control_get_rate p = (0, bus_clk)) (Hbus : 0 <= bus_clk < 2 ^ 31) :
  get_tim_clk p = (0, Some (bus_clk * (if (if on_apb1 p then STM32_APB1_PRESCALER else STM32_APB2_PRESCALER) =? 1 then 1 else 2))).
Proof.
  unfold get_tim_clk. rewrite Hrate. cbn [Z.ltb Z.compare]. cbv zeta. destruct (_ =? 1); [by rewrite Z.mul_1_r |].
  by rewrite u32_small by lia.
Qed.
End Timers.

Lemma timer_clock_witness : get_tim_clk 2 1 (fun _ => (0, 85000000)) (Pclken true 1) = (0, Some ASSUMED_TIMER_CLOCK_FREQ).
Proof. exact (timer_clock 2 1 (fun _ => (0, 85000000)) (Pclken true 1) 85000000 eq_refl ltac:(lia)). Defined.

(** The second timer runs at another frequency: the first is set up, the pins of the second are not applied. *)
Example wrong_frequency_stops :
  enable_clocks_and_configure_pins 1 1 (fun _ => 0) (fun p => (0, if enr p =? 1 then 170000000 else 85000000)) (fun _ : Z => 0)
    [Pclken true 1; Pclken false 2; Pclken true 3] [10; 20; 30] =
  (RET_ERROR_INTERNAL, [ClockOn (Pclken true 1); PinsApplied 10; ClockOn (Pclken false 2)]).
Proof. vm_compute. reflexivity. Qed.
