(* ===== verification/I2cScan.v ===== *)
(** lib/i2c_scan/i2c_scan.c, the debug scan of an I2C bus, and the order of the initialisations of
    main_board/src/optics/optics.c.

    The bus and what each initialisation returns are arguments; a line of the log is an address with its binary digits. *)

From Stdlib Require Import Ascii String.
From S2P Require Import Prelude.

(** ** The scan *)

(** [int_to_binary_str]: the buffer "0bxxxxxxxx" with its eight digits written, the highest first. *)
Definition digit (n : Z) (i : nat) : ascii := (if Z.testbit n (Z.of_nat i) then "1" else "0")%char.

Definition int_to_binary_str (n : Z) : string := ("0b" ++ string_of_list_ascii (digit n <$> [7; 6; 5; 4; 3; 2; 1; 0]%nat))%string.

(** The device ready or not; [i2c_read] of one byte at each address below 0x7f. *)
Definition i2c_scan_and_log (ready : bool) (i2c_read : Z -> Z) : list (Z * string) :=
  if ready then omap (fun i => if i2c_read i =? 0 then Some (i, int_to_binary_str i) else None) (Z.of_nat <$> seq 0 0x7f) else [].

(** The digits read back. *)
Definition digits_value (s : string) : Z :=
  fold_left (fun acc c => 2 * acc + (if Ascii.eqb c "1"%char then 1 else 0)) (list_ascii_of_string s) 0.

(** The digits shown are those of the byte. *)
Theorem binary_roundtrip (n : Z) (Hn : 0 <= n < 256) : digits_value (int_to_binary_str n) = n.
Proof.
  assert (forallb (fun k => digits_value (int_to_binary_str (Z.of_nat k)) =? Z.of_nat k) (seq 0 256) = true) as A by (vm_compute; reflexivity).
  rewrite forallb_forall in A. specialize (A (Z.to_nat n) ltac:(apply in_seq; lia)). rewrite Z2Nat.id in A by lia. by apply Z.eqb_eq.
Qed.

(** Every address below 0x7f that answers is shown, once, in order, and nothing else: 0x7f, the last of the seven-bit
    addresses, is never asked. *)
Theorem scan_finds_all (i2c_read : Z -> Z) (a : Z) :
  (a ∈ (i2c_scan_and_log true i2c_read).*1 <-> 0 <= a < 0x7f /\ i2c_read a = 0) /\
  i2c_scan_and_log false i2c_read = [].
Proof.
  split; [| done]. unfold i2c_scan_and_log. rewrite list_elem_of_fmap. split.
  - intros ((a' & t) & -> & (i & Hi & E)%list_elem_of_omap). apply list_elem_of_fmap in Hi as (k & -> & Hk%elem_of_seq).
    destruct (Z.eqb_spec (i2c_read (Z.of_nat k)) 0); [| done]. injection E as <- _. cbn. split; [lia | done].
  - intros [Ha E]. exists (a, int_to_binary_str a). split; [done |]. apply list_elem_of_omap. exists a. split.
    + apply list_elem_of_fmap. exists (Z.to_nat a). split; [lia | apply elem_of_seq; lia].
    + by rewrite E.
Qed.

Lemma binary_roundtrip_witness : int_to_binary_str 0x69 = "0b01101001"%string /\ digits_value (int_to_binary_str 0x69) = 0x69.
Proof. split; [vm_compute; reflexivity | apply (binary_roundtrip 0x69); lia]. Defined.

(** ** [optics_init] *)

Inductive optics_call :=
| IrCameraSystemInit | MirrorInit | LiquidLensInit | Tof1dInit | PolarizerWheelInit | PvccPinInput | SafetyCircuitTriggered (timeout_ms : Z).

(** Every call is made, whatever the ones before returned; each failure is a soft assertion.  The answer of the last is only logged. *)
Definition optics_calls (b : board) : list optics_call :=
  [IrCameraSystemInit; MirrorInit; LiquidLensInit; Tof1dInit] ++
  match b with Diamond => [PolarizerWheelInit] | Pearl => [] end ++
  [PvccPinInput; SafetyCircuitTriggered 10].

Definition optics_init (b : board) (ret : optics_call -> Z) (assert_count : Z) : list optics_call * Z :=
  (optics_calls b, fold_left (fun n c => if ret c =? 0 then n else u32 (n + 1)) (optics_calls b) assert_count).

(** The Diamond's self-test: done when the firmware starts, and switched off there. *)
Definition optics_self_test : Z := RET_SUCCESS.
